(* ===== verification/_CoqProject ===== *)
-Q . S2P
Prelude.v
Counters.v
Core.v
Queue.v
QueuePolicy.v
QueueSpsc.v
RedisSlot.v
Sha256.v
EventId.v
IpFmt.v
ParseUtil.v
Decap.v
Endpoint.v
Hiredis.v
Observation.v
Dhcp4Util.v
Dhcp4Decode.v
Dhcp4DecodeSpec.v
Dhcp4.v
Dhcp4Spec.v
Dhcp4Properties.v
Dhcp6.v
Dhcp6Spec.v
Dhcp6Properties.v
Dns.v
LegClassify.v
Correlation.v
CorrelationRep.v
CorrelationSpec.v
Sampling.v
Worker.v
DnsKey.v
DnsEvent.v
DnsStage.v
DnsStats.v
DnsStageSpec.v
DnsThread.v
DhcpFormat.v
DhcpStats.v
DhcpFormatSpec.v
DhcpFormatProperties.v
Bpf.v
BpfSpec.v
BpfFilter.v
BpfFilterProperties.v
CaptureFeed.v
PcapReplay.v
PcapReplayProperties.v
RxReader.v
RxReaderProperties.v
RedisCluster.v
RedisClusterSpec.v
RedisClusterProperties.v
RedisProducer.v
RedisProducerSpec.v
RedisProducerProperties.v
SinkWorld.v
HttpDeliver.v
SinkConsumer.v
SinkConsumerSpec.v
SinkProperties.v
