(* ===== verification/Prelude.v ===== *)
(** * CloudFlow verification library: root and prelude

    CloudFlow captures DNS and DHCP traffic, turns it into events and ships
    them through Redis streams to sinks.  This library models the C code under
    src/ that carries that logic and proves it correct, component by component.
    Each file names the C file it models; definitions keep the C names.

    ** The program's parts and the files that model them

    A capture thread pushes frames into a ring; a pipeline thread pops them,
    decapsulates and parses them, matches queries with responses, builds an
    event per transaction and pushes it into a second ring; a writer thread
    sends the events to Redis; sinks read them back and deliver them.

    Core library (src/libs/cloudflow-core)
    - [Core]: cloudflow.c and cf_sync.c, the stream names and the stop flag.
    - [Counters]: cf_stats.h, atomic counters, their sums and reports.
    - [Queue]: cf_queue.c, the ring on its byte storage, and the interfaces
      [BoundedFifo] and [GaugedFifo] that its clients are proved against.
    - [QueueSpsc]: the same operations cut at their atomic accesses, as a step
      relation of a producer and a consumer.
    - [Sha256], [EventId]: sha256.c and cf_event_id.c.

    Shared by the two sources
    - [Observation]: cloudflow.h, queue items with their memory images, and the
      observation and envelope builders that both sources repeat.
    - [Worker]: the loop of a thread between the capture queue and its stage,
      over any process and idle step; what they preserve, the thread preserves.

    Capture and parsing (src/libs/cloudflow-capture, src/libs/cloudflow-packet)
    - [QueuePolicy]: cf_queue_policy.c, a client of [BoundedFifo].
    - [CaptureFeed]: what both readers do with a packet: counted, pushed.
    - [RxReader]: cf_rx_reader.c, the walk of the kernel's packet ring, with its
      set-up, start and stop; [RxReaderProperties] its theorems.
    - [PcapReplay]: cf_pcap_replay.c, the replay of a capture file;
      [PcapReplayProperties] its theorems.
    - [IpFmt]: cf_ipfmt.c, address text.
    - [ParseUtil]: cf_parse_util.c, the bounds-checked readers and builders.
    - [Decap]: cf_decap.c, Ethernet to UDP or TCP.
    - [Dns]: cf_dns.c, the DNS message parser.
    - [Dhcp4Util], [Dhcp4Decode], [Dhcp4]: cf_dhcpv4_util.c, cf_dhcpv4_decode.c
      and cf_dhcpv4.c, the DHCPv4 parser; [Dhcp4DecodeSpec] and [Dhcp4Spec] its
      grammars and views; [Dhcp4Properties] its theorems.
    - [Dhcp6]: cf_dhcpv6.c with its helpers and its decoder; [Dhcp6Spec] the
      grammar and the views; [Dhcp6Properties] the theorems.

    DNS source (src/sources/cloudflow-source-dns)
    - [LegClassify]: leg_classify.c, the leg of a packet.
    - [Correlation]: correlation.c, the pending-query table with its intrusive
      lists; [CorrelationRep] its representation invariant; [CorrelationSpec]
      the abstract table it refines.
    - [Sampling]: sampling.c, the emit decision.
    - [DnsKey], [DnsEvent], [DnsStage]: dns_stage.c from a frame to a key, from
      a transaction to an event, and the engine around them; [DnsStageSpec]
      what it promises; [DnsThread] its thread, start and stop.
    - [DnsStats]: stats.c, the statistics line.

    DHCP source (src/sources/cloudflow-source-dhcp)
    - [DhcpFormat]: formatter.c, from a packet to an event item, and its thread;
      [DhcpFormatSpec] what one packet does; [DhcpFormatProperties] histories,
      stopping, and the path from the wire to the event.
    - [DhcpStats]: stats.c, the statistics line.

    Packet filters
    - [Bpf]: cf_bpf.c, the assembler of the kernel filters; [BpfSpec] the
      reference assembler it is compared with.
    - [BpfFilter]: dhcp_bpf.c and dns_bpf.c, the filters of the two sources and
      the frames they accept; [BpfFilterProperties] their theorems, with
      [Decap] and [DnsKey].

    Redis (src/libs/cloudflow-redis)
    - [RedisSlot]: cf_redis_slot.c, the cluster slot of a key.
    - [Endpoint], [Hiredis]: the text of a server's address, and replies.
    - [RedisCluster]: cf_redis_cluster.c, the router of commands to the nodes of
      a cluster, with the life of its connections; [RedisClusterSpec] its
      invariant and what each operation does; [RedisClusterProperties] whole
      lives of a handle, topologies, routing.  The sources do not use it yet.
    - [RedisProducer]: cf_redis_producer.c, the thread from the event queue to
      the streams, over the [World] it asks; [RedisProducerSpec] the effects of
      its steps; [RedisProducerProperties] its theorems.

    Sinks (src/libs/cloudflow-sink-core)
    - [SinkWorld]: what a sink asks of the world (HTTP posts, Redis commands,
      allocations, clock, stop flag) and the log of it; cf_sink_stats.c.
    - [HttpDeliver]: cf_sink_httpdeliver.c, retry, backoff and bisection.
    - [SinkConsumer]: cf_sink_consumer.c and cf_sink_deadletter.c, a client of
      the [Delivery] interface; [SinkConsumerSpec] its invariant and the
      contract of a delivery client, which [HttpDeliver] meets;
      [SinkProperties] the properties of whole runs.

    The sources compose the rest: [DnsStage] calls the definitions of [Decap],
    [Dns], [LegClassify], [Correlation], [Sampling], [EventId] and [Queue] in
    the order the code does, [DhcpFormat] those of [Decap], [Dhcp4], [Dhcp6]
    and [EventId], and their theorems use the components' own.  [RedisProducer]
    takes from a [GaugedFifo] the items whose images the sources push.

    ** How code becomes definitions

    Unsigned integers are [Z] with the wrap-around of their width written out
    ([u8] to [u64] below).  A read outside an object is [Oob] of [exec], a loop
    out of fuel [Spin]; a safety theorem says [runs m Q], so it excludes both.
    Structs are records, callbacks are the ordered list of their calls.  What
    the world decides (an allocation, a clock reading, what the other thread
    does meanwhile) is an argument.

    ** What the theorems show

    - Ring: every operation refines a bounded FIFO list and stays in its
      storage; one producer and one consumer, interleaved step by step, deliver
      the pushed elements in order with no torn copy.  The policies conserve
      elements, and a blocking push ends.
    - Parsers: for every input the walk ends and reads inside the frame or
      message; a frame or message built by a reference encoder parses back to
      its fields; name decompression agrees with a reference relation.
    - Capture: whatever the kernel fills and when, the blocks filled are those
      walked and those pending, each packet of the walked ones counted and
      pushed once in order; a capture file comes back as its records, and any
      file ends safely; starts and stops leave nothing held behind.
    - Filters: a program is assembled as the reference does or refused in the
      same cases; each filter accepts exactly the frames of a predicate, and
      every frame the sources would decode, up to the filters' documented
      limits (one 802.1Q tag, no IPv6 extension header).
    - DHCP: every payload has exactly one reading by a grammar written
      independently of the walks, and the event is a function of it; packets of
      any options, long DHCPv4 options split and DHCPv6 options typed, come
      back; keys, addresses, routes and suboptions mean what they say.
    - Correlator: every history of calls refines an ordered list of pending
      queries; each context is emitted once or still held; the counters balance.
    - Stage: over any history of frames and ticks no context is leaked, used
      after free or freed twice; frames, transactions and items are conserved
      in the counters, the published totals are those of the correlator, and a
      query with its response becomes exactly one item with both observations.
      Stopping the thread loses no frame that was queued.
    - DHCP source: a frame of any link and network headers that carries an
      encoded message becomes the event of that message; every frame is counted
      once or logged, every formatted item is in the queue, taken or counted as
      dropped; stopping loses no queued frame.
    - Redis producer: every item taken is counted accepted, refused or lost
      once, accepted commands keep the order of the queue, a loss is logged;
      a broken connection is retried once; the thread ends when the stop flag is
      set and the clock advances, with a working Redis delivers all it took, and
      leaves at once when it reads the flag with nothing to do.
    - Redis Cluster: over any calls and failures no connection is used after it
      is closed, closed twice or lost, and no reply is leaked; a topology is
      loaded as a reference says; a command goes to the owner of its slot and
      its redirects are followed, and remembered, as their text says.
    - Sinks: an entry is acknowledged only after it was delivered, printed,
      dead-lettered or found empty, over whole runs with reconnections; a
      batch leaves each item delivered, refused alone or abandoned at a stop,
      bisection finds exactly the bad items, and it ends when the world lets
      it retry only finitely often; line buffers are never used after free.
    - Digests and identity: the incremental SHA-256 equals the one-shot
      definition for any chunking; the event identifier's preimage determines
      its fields; the table-driven CRC16 is the bit-by-bit one, and keys with
      one hash tag share a slot.

    ** Bounds and fuel

    [Dns.NAME_FUEL] (400) exceeds the label and pointer steps a name can take
    before one of the limits of [decode_name] stops it; [decode_name_total] and
    [dns_parse_total] show that no fuel runs out.  The record, EDNS and text
    walks are given one step per byte left, and so are the option walks of the
    DHCP parsers; [Dhcp4Decode.name_fuel] gives a domain name 66 steps (its 64
    pointers and more) for each byte.  The extension-header walk has the
    source's own limit of 8.  The replay of a file has one step
    a byte, and reads at least 16.  The drain of the input ring is given more
    steps than it can hold frames, and the 500 retries of a blocking push are
    the source's.  A backoff sleep of binary64 slices has 1024 steps and uses
    at most 600, a reconnection sleep 101 (5 seconds in slices of 50
    milliseconds), the source's maximum.  The loops of the Redis producer have
    no bound: their fuel is an argument, and [producer_ends] gives the fuel that
    suffices in a world where the stop flag is clear finitely often and the
    clock passes any deadline.  The retry loop of a post, the
    service loop and the reconnection loop have no bound in the source: their
    fuel is an argument, their safety theorems hold for every fuel ([safe]),
    and [deliver_batch_ends] gives the fuel that suffices for a batch.

    ** Assumptions

    The kernel runs a filter as classic BPF is documented: [bpf_machine] states
    the effect of the instructions used, and an interpreter in
    [BpfFilterProperties] has these laws.  [inet_ntop] and [inet_pton] are libc's and parameters; a payload pointer is
    not NULL.  The generated codec
    is a parameter: [pack] and [get_packed_size], with the documented hypothesis
    that [pack] writes [get_packed_size] bytes.  Object images are those of a
    little-endian LP64 machine.  The atomic accesses of the ring are
    sequentially consistent; its release/acquire pairs give that order.  The
    parser's tree allocations succeed (their failure only drops nodes); the
    stage, the classifier and the helpers take the outcome of each allocation.
    The emit calls of the correlator run after its operation, each with the
    statistics recorded at its own time, since the callback does not re-enter
    the table.  The pipeline thread owns the engine until it is joined, and its
    run is placed at the join, and so are the runs of the DHCP formatter and of
    the Redis producer.  The producer's world answers its calls one by one: a
    reply, a push of the source or a change of the stop flag happens at a call.
    The capture reader's theorems assume that the kernel lays out the packets of
    a block inside it, as <linux/if_packet.h> says, fills the ring's blocks in
    order and only those it owns, and leaves a block alone once handed over.
    The cluster client's theorems assume that hiredis puts no null pointer into
    an array of a reply.
    The sink theorems assume that the stop flag is
    never cleared and that the copies of an entry's names and cursor are
    allocated (the model covers their failure, which frees a line twice).  A
    delivery client is assumed to meet the contract [DeliveryLaws], which is
    proved of the HTTP policy.

    ** Not modelled

    Clocks, sleeping, logging and the signal handler's installation; sockets,
    hiredis and curl calls; the
    generated protobuf-c code and the vendored yyjson; configuration files and
    process start-up; the sinks' transforms, which are a parameter of the
    consumer. *)

From stdpp Require Export base list strings pretty option.
From Stdlib Require Export ZArith Lia ZifyBool ZifyNat.

#[export] Set Default Goal Selector "!".
Open Scope Z_scope.

(** ** Machine integers

    Unsigned machine integers are [Z] values; the wrap-around of a width is
    written out with these functions wherever the source relies on it. *)

Definition u8 (z : Z) : Z := z mod 2 ^ 8.
Definition u16 (z : Z) : Z := z mod 2 ^ 16.
Definition u32 (z : Z) : Z := z mod 2 ^ 32.
Definition u64 (z : Z) : Z := z mod 2 ^ 64.

Definition SIZE_MAX : Z := 2 ^ 64 - 1.
Definition INT32_MAX : Z := 2 ^ 31 - 1.

(** A byte and a buffer of bytes. *)
Definition is_byte (z : Z) : Prop := 0 <= z < 256.
Abbreviation bytes_ok := (Forall is_byte).

(** Length as a [Z]. *)
Abbreviation zlen l := (Z.of_nat (length l)).

(** ** Computations of C code

    [Ret a] is a normal result, [Oob] an access outside the bytes of the
    object (undefined behaviour in C), [Spin] a loop that used up its fuel. *)

Inductive exec (A : Type) : Type :=
| Ret (a : A)
| Oob
| Spin.
Arguments Ret {A} a.
Arguments Oob {A}.
Arguments Spin {A}.

#[export] Instance exec_ret : MRet exec := fun A a => Ret a.
#[export] Instance exec_bind : MBind exec := fun A B k m =>
  match m with
  | Ret a => k a
  | Oob => Oob
  | Spin => Spin
  end.

(** [runs m Q]: [m] produces a result, and the result satisfies [Q]. *)
Definition runs {A} (m : exec A) (Q : A -> Prop) : Prop :=
  match m with
  | Ret a => Q a
  | Oob => False
  | Spin => False
  end.

(** [safe m Q]: [m] makes no invalid access, and a result it produces
    satisfies [Q]; a loop that waits for the world may go on. *)
Definition safe {A} (m : exec A) (Q : A -> Prop) : Prop :=
  match m with
  | Ret a => Q a
  | Oob => False
  | Spin => True
  end.

(** [halts m Q]: [m] does not run out of fuel, and a result it produces
    satisfies [Q]. *)
Definition halts {A} (m : exec A) (Q : A -> Prop) : Prop :=
  match m with
  | Ret a => Q a
  | Oob => True
  | Spin => False
  end.

Section Runs.
Context {A B : Type}.
Implicit Types (m : exec A) (k : A -> exec B).

Lemma runs_ret (a : A) (Q : A -> Prop) : Q a -> runs (Ret a) Q.
Proof. done. Qed.

Lemma runs_bind m k (Q : B -> Prop) :
  runs m (fun a => runs (k a) Q) -> runs (m ≫= k) Q.
Proof. by destruct m. Qed.

Lemma runs_mono m (P Q : A -> Prop) :
  runs m P -> (forall a, P a -> Q a) -> runs m Q.
Proof. destruct m; simpl; auto. Qed.

Lemma safe_ret (a : A) (Q : A -> Prop) : Q a -> safe (Ret a) Q.
Proof. done. Qed.

Lemma safe_bind m k (Q : B -> Prop) :
  safe m (fun a => safe (k a) Q) -> safe (m ≫= k) Q.
Proof. by destruct m. Qed.

Lemma safe_mono m (P Q : A -> Prop) :
  safe m P -> (forall a, P a -> Q a) -> safe m Q.
Proof. destruct m; simpl; auto. Qed.

Lemma safe_eq m (a : A) (Q : A -> Prop) : safe m Q -> m = Ret a -> Q a.
Proof. by intros H ->. Qed.

Lemma runs_safe m (Q : A -> Prop) : runs m Q -> safe m Q.
Proof. by destruct m. Qed.

Lemma halts_bind m k (Q : B -> Prop) :
  halts m (fun a => halts (k a) Q) -> halts (m ≫= k) Q.
Proof. by destruct m. Qed.

Lemma halts_mono m (P Q : A -> Prop) :
  halts m P -> (forall a, P a -> Q a) -> halts m Q.
Proof. destruct m; simpl; auto. Qed.

Lemma runs_halts m (Q : A -> Prop) : runs m Q -> halts m Q.
Proof. by destruct m. Qed.

Lemma safe_halts m (P Q : A -> Prop) : safe m P -> halts m Q -> runs m (fun a => P a /\ Q a).
Proof. by destruct m. Qed.

Lemma runs_inv m (Q : A -> Prop) : runs m Q -> exists a, m = Ret a /\ Q a.
Proof. destruct m; simpl; [eauto|done|done]. Qed.

Lemma runs_eq m (a : A) (Q : A -> Prop) : m = Ret a -> Q a -> runs m Q.
Proof. by intros ->. Qed.

Lemma bind_eq m k (a : A) (r : exec B) : m = Ret a -> k a = r -> m ≫= k = r.
Proof. by intros ->. Qed.

Lemma bind_Ret_inv m k (b : B) :
  m ≫= k = Ret b -> exists a, m = Ret a /\ k a = Ret b.
Proof. destruct m; simpl; [eauto|done|done]. Qed.
End Runs.

(** ** Buffers *)

(** [rd d off] is [d[off]]; [rd_n d off n] is a [memcpy] of [n] bytes out of
    [d] at [off]. *)
Definition rd (d : list Z) (off : Z) : exec Z :=
  if (0 <=? off) then
    match d !! Z.to_nat off with
    | Some v => Ret v
    | None => Oob
    end
  else Oob.

Definition slice {A} (d : list A) (off n : Z) : list A :=
  take (Z.to_nat n) (drop (Z.to_nat off) d).

Definition rd_n (d : list Z) (off n : Z) : exec (list Z) :=
  if (0 <=? off) && (0 <=? n) && (off + n <=? zlen d)
  then Ret (slice d off n) else Oob.

(** [wr_n d off src] is [memcpy(d + off, src, |src|)]. *)
Definition splice {A} (d : list A) (off : Z) (src : list A) : list A :=
  take (Z.to_nat off) d ++ src ++ drop (Z.to_nat off + length src) d.

Definition wr_n (d : list Z) (off : Z) (src : list Z) : exec (list Z) :=
  if (0 <=? off) && (off + zlen src <=? zlen d)
  then Ret (splice d off src) else Oob.

(** Byte-order assembly, written with the shifts and ors of the source. *)
Definition be16_of (a b : Z) : Z := Z.lor (Z.shiftl a 8) b.
Definition be24_of (a b c : Z) : Z :=
  Z.lor (Z.lor (Z.shiftl a 16) (Z.shiftl b 8)) c.
Definition be32_of (a b c d : Z) : Z :=
  Z.lor (Z.lor (Z.lor (Z.shiftl a 24) (Z.shiftl b 16)) (Z.shiftl c 8)) d.

(** The big-endian bytes of a value, most significant first. *)
Fixpoint be_bytes (n : nat) (z : Z) : list Z :=
  match n with
  | O => []
  | S n' => u8 (Z.shiftr z (8 * Z.of_nat n')) :: be_bytes n' z
  end.

(** A value of a big-endian byte string. *)
Fixpoint be_value (acc : Z) (l : list Z) : Z :=
  match l with
  | [] => acc
  | b :: l' => be_value (acc * 256 + b) l'
  end.

(** ** C strings

    A C string is the list of its bytes before the terminating NUL.  [bs]
    turns a literal into one, [c_str] cuts a byte buffer at its first NUL, and
    [dec] is the ["%u"] conversion. *)

Fixpoint bs (s : string) : list Z :=
  match s with
  | EmptyString => []
  | String a s' => Z.of_N (Ascii.N_of_ascii a) :: bs s'
  end.

Fixpoint c_str (l : list Z) : list Z :=
  match l with
  | [] => []
  | b :: l' => if b =? 0 then [] else b :: c_str l'
  end.

Definition dec (z : Z) : list Z := bs (pretty z).

(** ["0123456789abcdef"[d]] and the two digits of a byte. *)
Definition hex_digit (d : Z) : Z := if d <? 10 then 48 + d else 87 + d.
Definition hex_byte (b : Z) : list Z :=
  [hex_digit (Z.shiftr b 4); hex_digit (Z.land b 15)].

(** ** Lemmas on widths *)

Lemma u8_byte z : is_byte (u8 z).
Proof. apply (Z.mod_pos_bound z (2 ^ 8)). lia. Qed.

Lemma u8_id z : is_byte z -> u8 z = z.
Proof. intros H. apply Z.mod_small. exact H. Qed.

Lemma u16_bound z : 0 <= u16 z < 65536.
Proof. apply (Z.mod_pos_bound z (2 ^ 16)). lia. Qed.

Lemma u16_id z : 0 <= z < 65536 -> u16 z = z.
Proof. intros H. apply Z.mod_small. exact H. Qed.

Lemma u32_bound z : 0 <= u32 z < 2 ^ 32.
Proof. apply (Z.mod_pos_bound z (2 ^ 32)). lia. Qed.

Lemma u32_id z : 0 <= z < 2 ^ 32 -> u32 z = z.
Proof. intros H. apply Z.mod_small. exact H. Qed.

Lemma u64_bound z : 0 <= u64 z < 2 ^ 64.
Proof. apply (Z.mod_pos_bound z (2 ^ 64)). lia. Qed.

Lemma u64_id z : 0 <= z < 2 ^ 64 -> u64 z = z.
Proof. intros H. apply Z.mod_small. exact H. Qed.

(** Sums modulo [2 ^ 64]. *)
Lemma u64_add a b : u64 (u64 a + b) = u64 (a + b).
Proof. unfold u64. by rewrite Zplus_mod_idemp_l. Qed.

Lemma u64_u64 a : u64 (u64 a) = u64 a.
Proof. unfold u64. apply Zmod_mod. Qed.

Lemma u64_congr a b c : u64 a = u64 b -> u64 (a + c) = u64 (b + c).
Proof. intros H. by rewrite <- u64_add, H, u64_add. Qed.

Lemma u64_sub a b : u64 (u64 a - b) = u64 (a - b).
Proof. apply (u64_add a (- b)). Qed.

Lemma u64_sub_r a b : u64 (a - u64 b) = u64 (a - b).
Proof. unfold u64. by rewrite Zminus_mod_idemp_r. Qed.

Lemma u64_add_r a b : u64 (a + u64 b) = u64 (a + b).
Proof. by rewrite Z.add_comm, u64_add, Z.add_comm. Qed.

(** An or of disjoint bit ranges is a sum. *)
Lemma lor_shiftl_add a b n :
  0 <= n -> 0 <= b < 2 ^ n -> Z.lor (Z.shiftl a n) b = a * 2 ^ n + b.
Proof.
  intros Hn Hb. rewrite <- Z.shiftl_mul_pow2 by lia.
  symmetry. apply Z.add_nocarry_lor.
  apply Z.bits_inj'. intros i Hi. rewrite Z.land_spec, Z.bits_0.
  destruct (Z.lt_ge_cases i n) as [Hlt|Hge].
  - by rewrite Z.shiftl_spec_low.
  - replace b with (b mod 2 ^ n) by (apply Z.mod_small; lia).
    rewrite (Z.mod_pow2_bits_high b n i) by lia. apply andb_false_r.
Qed.

Lemma be16_of_eq a b : is_byte b -> be16_of a b = a * 256 + b.
Proof. intros H. apply (lor_shiftl_add a b 8); [lia|exact H]. Qed.

Lemma be16_of_bound a b : is_byte a -> is_byte b -> 0 <= be16_of a b < 65536.
Proof. intros Ha Hb. rewrite be16_of_eq by done. unfold is_byte in *. lia. Qed.

Lemma be24_of_eq a b c :
  is_byte b -> is_byte c -> be24_of a b c = (a * 256 + b) * 256 + c.
Proof.
  intros Hb Hc. unfold be24_of.
  replace (Z.shiftl a 16) with (Z.shiftl (Z.shiftl a 8) 8)
    by (rewrite Z.shiftl_shiftl by lia; done).
  rewrite <- Z.shiftl_lor, !lor_shiftl_add by (unfold is_byte in *; lia). done.
Qed.

Lemma be32_of_eq a b c d :
  is_byte b -> is_byte c -> is_byte d ->
  be32_of a b c d = ((a * 256 + b) * 256 + c) * 256 + d.
Proof.
  intros Hb Hc Hd. unfold be32_of.
  replace (Z.shiftl a 24) with (Z.shiftl (Z.shiftl a 16) 8)
    by (rewrite Z.shiftl_shiftl by lia; done).
  replace (Z.shiftl b 16) with (Z.shiftl (Z.shiftl b 8) 8)
    by (rewrite Z.shiftl_shiftl by lia; done).
  rewrite <- !Z.shiftl_lor, lor_shiftl_add by (unfold is_byte in *; lia).
  change (2 ^ 8) with 256. fold (be24_of a b c).
  by rewrite be24_of_eq.
Qed.

Lemma be32_of_bound a b c d :
  is_byte a -> is_byte b -> is_byte c -> is_byte d ->
  0 <= be32_of a b c d < 2 ^ 32.
Proof. intros. rewrite be32_of_eq by done. unfold is_byte in *. lia. Qed.

Lemma land_shiftl_mask v m n : 0 <= n ->
  Z.land v (Z.shiftl m n) = Z.shiftl (Z.land (Z.shiftr v n) m) n.
Proof.
  intros Hn. apply Z.bits_inj'. intros i Hi. rewrite Z.land_spec.
  destruct (Z.lt_ge_cases i n).
  - rewrite !Z.shiftl_spec_low by lia. apply andb_false_r.
  - rewrite !Z.shiftl_spec, Z.land_spec, Z.shiftr_spec by lia. do 2 f_equal. lia.
Qed.

Lemma land_byte v : Z.land v 255 = v mod 256.
Proof. apply (Z.land_ones v 8). lia. Qed.

Lemma land_range z n k : 0 <= n -> k = Z.ones n -> 0 <= Z.land z k < 2 ^ n.
Proof. intros Hn ->. rewrite Z.land_ones by done. apply Z.mod_pos_bound. apply Z.pow_pos_nonneg; lia. Qed.

Lemma shiftr_small a b n : 0 <= n -> 0 <= b < 2 ^ n -> Z.shiftr (a * 2 ^ n + b) n = a.
Proof.
  intros Hn Hb. rewrite Z.shiftr_div_pow2 by lia.
  rewrite Z.div_add_l by (apply Z.pow_nonzero; lia). rewrite Z.div_small by lia. lia.
Qed.

Lemma land_small a b n m : 0 <= n -> m = Z.ones n -> 0 <= b < 2 ^ n -> Z.land (a * 2 ^ n + b) m = b.
Proof.
  intros Hn -> Hb. rewrite Z.land_ones by lia. rewrite Z.add_comm, Z.mod_add by (apply Z.pow_nonzero; lia).
  by apply Z.mod_small.
Qed.

(** ** Lemmas on lists *)

Lemma bytes_ok_lookup d i v : bytes_ok d -> d !! i = Some v -> is_byte v.
Proof. intros H Hv. by eapply Forall_lookup_1. Qed.

Lemma length_slice {A} (d : list A) off n :
  0 <= off -> 0 <= n -> off + n <= zlen d -> length (slice d off n) = Z.to_nat n.
Proof. intros. unfold slice. rewrite length_take, length_drop. lia. Qed.

Lemma zlen_slice {A} (d : list A) off n :
  0 <= off -> 0 <= n -> off + n <= zlen d -> zlen (slice d off n) = n.
Proof. intros. rewrite length_slice by lia. lia. Qed.

Lemma slice_bytes_ok d off n : bytes_ok d -> bytes_ok (slice d off n).
Proof. intros H. unfold slice. by apply Forall_take, Forall_drop. Qed.

Lemma slice_app_r {A} (a b : list A) off n :
  zlen a <= off -> slice (a ++ b) off n = slice b (off - zlen a) n.
Proof.
  intros H. unfold slice. rewrite drop_app_ge by lia. do 2 f_equal. lia.
Qed.

Lemma slice_app_l {A} (a b : list A) off n :
  0 <= off -> 0 <= n -> off + n <= zlen a -> slice (a ++ b) off n = slice a off n.
Proof.
  intros Ho Hn H. unfold slice.
  rewrite drop_app_le by lia. rewrite take_app_le; [done|].
  rewrite length_drop. lia.
Qed.

Lemma slice_all {A} (a : list A) n : n = zlen a -> slice a 0 n = a.
Proof. intros ->. unfold slice. rewrite drop_0. apply take_ge. lia. Qed.

Lemma slice_cons {A} (x : A) (l : list A) off n :
  0 < off -> slice (x :: l) off n = slice l (off - 1) n.
Proof.
  intros H. unfold slice.
  replace (Z.to_nat off) with (S (Z.to_nat (off - 1))) by lia. done.
Qed.

Lemma length_splice {A} (d src : list A) off :
  0 <= off -> off + zlen src <= zlen d -> length (splice d off src) = length d.
Proof.
  intros Ho Hl. unfold splice.
  rewrite !length_app, length_take, length_drop. lia.
Qed.

Lemma slice_splice_same {A} (d src : list A) off n :
  0 <= off -> off <= zlen d -> n = zlen src -> slice (splice d off src) off n = src.
Proof.
  intros Ho Hl ->. unfold splice, slice.
  rewrite drop_app_ge by (rewrite length_take; lia).
  rewrite length_take.
  replace (Z.to_nat off - _)%nat with 0%nat by lia. rewrite drop_0, Nat2Z.id.
  apply take_app_length.
Qed.

Lemma slice_splice_other {A} (d src : list A) off woff n :
  0 <= off -> 0 <= n -> 0 <= woff -> off + n <= zlen d ->
  woff + zlen src <= zlen d ->
  off + n <= woff \/ woff + zlen src <= off ->
  slice (splice d woff src) off n = slice d off n.
Proof.
  intros Ho Hn Hw Hl Hwl Hdis. unfold splice.
  assert (length (take (Z.to_nat woff) d) = Z.to_nat woff) as Ht
    by (rewrite length_take; lia).
  destruct Hdis as [Hd|Hd].
  - rewrite slice_app_l by lia. unfold slice.
    rewrite <- (take_drop (Z.to_nat woff) d) at 2.
    rewrite drop_app_le by lia. rewrite take_app_le; [done|].
    rewrite length_drop. lia.
  - rewrite !slice_app_r by (rewrite ?Ht; lia). unfold slice.
    rewrite Ht, drop_drop. do 2 f_equal. lia.
Qed.

Lemma splice_bytes_ok d src off :
  bytes_ok d -> bytes_ok src -> bytes_ok (splice d off src).
Proof.
  intros Hd Hs. unfold splice.
  rewrite !Forall_app. auto using Forall_take, Forall_drop.
Qed.

(** One wrap of a ring index. *)
Lemma mod_wrap x c :
  - c <= x < 2 * c ->
  x mod c = if x <? 0 then x + c else if x <? c then x else x - c.
Proof.
  intros H. destruct (x <? 0) eqn:E1; [|destruct (x <? c) eqn:E2].
  - rewrite <- (Z.mod_add x 1 c), Z.mul_1_l by lia. apply Z.mod_small. lia.
  - apply Z.mod_small. lia.
  - replace x with ((x - c) + 1 * c) at 1 by lia.
    rewrite Z.mod_add by lia. apply Z.mod_small. lia.
Qed.

Lemma be_bytes_length n z : length (be_bytes n z) = n.
Proof. induction n; simpl; congruence. Qed.

Lemma be_bytes_ok n z : bytes_ok (be_bytes n z).
Proof. induction n; simpl; constructor; [apply u8_byte|done]. Qed.

Lemma be_value_be_bytes n z acc :
  be_value acc (be_bytes n z) = acc * 256 ^ Z.of_nat n + z mod 256 ^ Z.of_nat n.
Proof.
  revert acc. induction n as [|n IH]; intros acc; simpl be_bytes; cbn [be_value].
  { change (256 ^ Z.of_nat 0) with 1. rewrite Z.mod_1_r. lia. }
  rewrite IH. unfold u8. rewrite Z.shiftr_div_pow2 by lia.
  rewrite Z.pow_mul_r by lia. change (2 ^ 8) with 256.
  replace (Z.of_nat (S n)) with (Z.of_nat n + 1) by lia.
  rewrite Z.pow_add_r, Z.pow_1_r by lia.
  assert (0 < 256 ^ Z.of_nat n) by (apply Z.pow_pos_nonneg; lia).
  rewrite Z.rem_mul_r by lia. lia.
Qed.

Lemma bs_app s t : bs (s +:+ t) = bs s ++ bs t.
Proof. induction s; simpl; [done|]. by rewrite IHs. Qed.

Lemma bs_bytes_ok s : bytes_ok (bs s).
Proof.
  induction s as [|a s IH]; simpl; constructor; [|done].
  pose proof (Ascii.N_ascii_bounded a). unfold is_byte. lia.
Qed.

Lemma bs_inj s t : bs s = bs t -> s = t.
Proof.
  revert t. induction s as [|a s IH]; intros [|b t]; simpl; try done.
  intros [= Hh Ht]. f_equal; [|by apply IH].
  rewrite <- (Ascii.ascii_N_embedding a), <- (Ascii.ascii_N_embedding b).
  f_equal. lia.
Qed.

Lemma dec_inj a b : dec a = dec b -> a = b.
Proof. intros H. by apply bs_inj, (inj pretty) in H. Qed.

(** ** Rules for [runs] *)

Lemma rd_lookup d off v : 0 <= off -> d !! Z.to_nat off = Some v -> rd d off = Ret v.
Proof.
  intros Ho Hv. unfold rd. destruct (0 <=? off) eqn:E; [by rewrite Hv|lia].
Qed.

Lemma rd_app_r a b off : zlen a <= off -> rd (a ++ b) off = rd b (off - zlen a).
Proof.
  intros H. unfold rd. replace (0 <=? off) with true by lia.
  replace (0 <=? off - zlen a) with true by lia.
  rewrite lookup_app_r by lia.
  by replace (Z.to_nat off - length a)%nat with (Z.to_nat (off - zlen a)) by lia.
Qed.

Lemma rd_app_l a b off : off < zlen a -> rd (a ++ b) off = rd a off.
Proof.
  intros H. unfold rd. destruct (0 <=? off) eqn:E; [|done].
  by rewrite lookup_app_l by lia.
Qed.

Lemma runs_rd d off (Q : Z -> Prop) :
  bytes_ok d -> 0 <= off < zlen d ->
  (forall v, d !! Z.to_nat off = Some v -> is_byte v -> Q v) ->
  runs (rd d off) Q.
Proof.
  intros Hok Ho HQ. destruct (lookup_lt_is_Some_2 d (Z.to_nat off)) as [v Hv]; [lia|].
  rewrite (rd_lookup d off v) by (lia || done). apply HQ; [done|].
  by eapply bytes_ok_lookup.
Qed.

Lemma runs_rd_n d off n (Q : list Z -> Prop) :
  0 <= off -> 0 <= n -> off + n <= zlen d -> Q (slice d off n) ->
  runs (rd_n d off n) Q.
Proof.
  intros Ho Hn Hl HQ. unfold rd_n.
  destruct ((0 <=? off) && (0 <=? n) && (off + n <=? zlen d)) eqn:E; [done|lia].
Qed.

Lemma rd_n_ok d off n :
  0 <= off -> 0 <= n -> off + n <= zlen d -> rd_n d off n = Ret (slice d off n).
Proof.
  intros Ho Hn Hl. unfold rd_n.
  destruct ((0 <=? off) && (0 <=? n) && (off + n <=? zlen d)) eqn:E; [done|lia].
Qed.

Lemma wr_n_ok d off src :
  0 <= off -> off + zlen src <= zlen d -> wr_n d off src = Ret (splice d off src).
Proof.
  intros Ho Hl. unfold wr_n.
  destruct ((0 <=? off) && (off + zlen src <=? zlen d)) eqn:E; [done|lia].
Qed.

Lemma slice_S (d : list Z) off n v : 0 <= off -> 0 < n -> d !! Z.to_nat off = Some v ->
  slice d off n = v :: slice d (off + 1) (n - 1).
Proof.
  intros Ho Hn Hv. unfold slice. rewrite (drop_S _ _ _ Hv).
  replace (Z.to_nat n) with (S (Z.to_nat (n - 1))) by lia. cbn [take].
  do 3 f_equal. lia.
Qed.

Lemma slice_0 {A} (d : list A) off : slice d off 0 = [].
Proof. done. Qed.

(** A read in bounds, as an equation on the first byte of a slice. *)
Lemma rd_in d off : bytes_ok d -> 0 <= off < zlen d ->
  exists v, rd d off = Ret v /\ is_byte v /\ d !! Z.to_nat off = Some v.
Proof.
  intros Hok Ho. destruct (lookup_lt_is_Some_2 d (Z.to_nat off)) as [v Hv]; [lia|].
  exists v. split; [apply rd_lookup; [lia|done]|]. split; [by eapply bytes_ok_lookup|done].
Qed.

Lemma be_value_bound l acc : bytes_ok l -> 0 <= acc ->
  0 <= be_value acc l < (acc + 1) * 256 ^ zlen l.
Proof.
  intros Hok. revert acc. induction Hok as [|b l Hb Hok IH]; intros acc Ha; cbn [be_value length].
  { change (256 ^ Z.of_nat 0) with 1. lia. }
  destruct (IH (acc * 256 + b)) as [H1 H2]; [unfold is_byte in *; lia|]. split; [done|].
  eapply Z.lt_le_trans; [exact H2|].
  rewrite Nat2Z.inj_succ, Z.pow_succ_r, Z.mul_assoc by lia.
  apply Z.mul_le_mono_nonneg_r; [apply Z.pow_nonneg; lia|]. unfold is_byte in *. lia.
Qed.

(** Case analysis on the boolean guard at the head of the computation. *)
Lemma runs_if {A} (b : bool) (m1 m2 : exec A) (Q : A -> Prop) :
  (b = true -> runs m1 Q) -> (b = false -> runs m2 Q) ->
  runs (if b then m1 else m2) Q.
Proof. destruct b; auto. Qed.

Create HintDb cf.
#[export] Hint Resolve u8_byte be_bytes_ok slice_bytes_ok : cf.
#[export] Hint Resolve be16_of_bound be32_of_bound : cf.

(** One step of symbolic execution of a goal [runs m Q]. *)
Ltac run1 :=
  lazymatch goal with
  | |- runs (mbind _ _) _ => apply runs_bind
  | |- runs (Ret _) _ => apply runs_ret
  | |- runs (mret _) _ => apply runs_ret
  | |- runs (if _ then _ else _) _ => apply runs_if; intro
  | |- runs (rd _ _) _ =>
      apply runs_rd; [solve [eauto with cf]|lia|intros ? ? ?]
  | |- runs (rd_n _ _ _) _ => apply runs_rd_n; [lia|lia|lia|]
  | |- runs (let '(_, _) := ?p in _) _ => destruct p as [? ?] eqn:?
  end.
Ltac run := repeat run1.

(** Reduce the binds of the goal and nothing else. *)
Ltac xbind := cbn [mbind exec_bind mret exec_ret].

(** Arithmetic of ring indices: every [x mod c] of the goal by one wrap. *)
Ltac ring_index :=
  rewrite ?mod_wrap by lia; repeat case_match; lia.
