(* ===== verification/Counters.v ===== *)
(** * Counters: the shared statistics

    The counters of a source are a function from their names, each an atomic
    [unsigned long] updated with the macros of [libs/cloudflow-core/cf_stats.h].
    Here are the updates, the reads of a report, with or without reset, sums of
    counters, and the two sets of counters both sources report: those of the
    capture reader and those of the Redis producer. *)

From S2P Require Import Prelude.

Section Counters.
Context {A : Type} `{EqDecision A}.

(** ** Updates *)

Definition stat_store (c : A) (v : Z) (st : A -> Z) : A -> Z :=
  fun c' => if decide (c' = c) then u64 v else st c'.
Definition stat_add (c : A) (n : Z) (st : A -> Z) : A -> Z :=
  stat_store c (st c + n) st.
Definition stat_inc (c : A) (st : A -> Z) : A -> Z :=
  stat_add c 1 st.

Lemma stat_store_eq c v st : stat_store c v st c = u64 v.
Proof. unfold stat_store. by rewrite decide_True. Qed.

Lemma stat_store_ne c c' v st : c' <> c -> stat_store c v st c' = st c'.
Proof. intros H. unfold stat_store. by rewrite decide_False. Qed.

(** Exactly the counter [c] went up, by one. *)
Definition counted (c : A) (st st' : A -> Z) : Prop :=
  st' c = u64 (st c + 1) /\ forall c', c' <> c -> st' c' = st c'.

Lemma counted_inc c st : counted c st (stat_inc c st).
Proof.
  split; [apply stat_store_eq|]. intros c' H. by apply stat_store_ne.
Qed.

(** ** Sums *)

Definition total (cs : list A) (st : A -> Z) : Z :=
  u64 (foldr (fun c n => st c + n) 0 cs).

Definition hits (c : A) (cs : list A) : Z := zlen (filter (fun c' => c' = c) cs).

Lemma total_store c v cs st : c ∉ cs -> total cs (stat_store c v st) = total cs st.
Proof.
  intros Hc. unfold total. f_equal. induction cs as [|c' cs IH]; simpl; [done|].
  apply not_elem_of_cons in Hc as [Hne Hc]. rewrite stat_store_ne by done. by rewrite IH.
Qed.

Lemma total_add c n cs st : total cs (stat_add c n st) = u64 (total cs st + hits c cs * n).
Proof.
  unfold total. rewrite u64_add. induction cs as [|c' cs IH]; simpl; [done|].
  unfold hits in *. rewrite list.filter_cons. unfold stat_add at 1. case_decide as E.
  - subst c'. rewrite stat_store_eq, u64_add, Z.add_comm, <- u64_add, IH, u64_add.
    f_equal. simpl. lia.
  - rewrite stat_store_ne, Z.add_comm, <- u64_add, IH, u64_add by done. f_equal. lia.
Qed.

Lemma total_u64 cs st : u64 (total cs st) = total cs st.
Proof. apply u64_u64. Qed.

Lemma total_shift l st r : total l (fun c => st c + r c) = u64 (total l st + total l r).
Proof.
  unfold total. rewrite u64_add, u64_add_r. f_equal. induction l as [|c l IH]; simpl; [done|]. lia.
Qed.

(** Several counters increased in turn. *)
Definition bump (bs : list (A * Z)) (st : A -> Z) : A -> Z :=
  foldl (fun st '(c, n) => stat_add c n st) st bs.

Definition bumps (bs : list (A * Z)) (cs : list A) : Z :=
  foldr (fun '(c, n) z => hits c cs * n + z) 0 bs.

Lemma total_bump bs cs : forall st, total cs (bump bs st) = u64 (total cs st + bumps bs cs).
Proof.
  induction bs as [|[c n] bs IH]; intros st; cbn [bump bumps foldl foldr].
  { by rewrite Z.add_0_r, total_u64. }
  unfold bump in IH. rewrite IH, total_add, u64_add. f_equal. unfold bumps. lia.
Qed.

Lemma total_one c st : total [c] st = u64 (st c).
Proof. unfold total. simpl. by rewrite Z.add_0_r. Qed.

(** ** Reports *)

Definition update (c : A) (v : Z) (st : A -> Z) : A -> Z :=
  fun c' => if decide (c' = c) then v else st c'.

(** The value, and the counters afterwards. *)
Definition read_counter (c : A) (reset : bool) (st : A -> Z) : Z * (A -> Z) :=
  (st c, if reset then update c 0 st else st).

(** The counters of [cs], read in turn. *)
Fixpoint read_counters (cs : list A) (reset : bool) (st seen : A -> Z) : (A -> Z) * (A -> Z) :=
  match cs with
  | [] => (seen, st)
  | c :: cs =>
      let '(v, st) := read_counter c reset st in
      read_counters cs reset st (update c v seen)
  end.

(** Every counter read once is seen as it was; a reset leaves it at zero, and
    nothing else changes. *)
Lemma read_counters_spec cs reset : forall st seen, NoDup cs ->
  (forall c, (read_counters cs reset st seen).1 c = if bool_decide (c ∈ cs) then st c else seen c) /\
  (forall c, (read_counters cs reset st seen).2 c =
     if reset && bool_decide (c ∈ cs) then 0 else st c).
Proof.
  induction cs as [|c cs IH]; intros st seen Hnd; cbn [read_counters read_counter].
  { split; intros c; rewrite ?andb_false_r; done. }
  apply list.NoDup_cons in Hnd as [Hc Hnd].
  destruct (IH (if reset then update c 0 st else st) (update c (st c) seen) Hnd) as [H1 H2].
  split; intros x; rewrite ?H1, ?H2; unfold update.
  - destruct (decide (x = c)) as [->|Hne].
    + rewrite (bool_decide_eq_false_2 (c ∈ cs)) by done. by rewrite bool_decide_eq_true_2 by left.
    + rewrite (bool_decide_ext (x ∈ c :: cs) (x ∈ cs)) by (rewrite elem_of_cons; tauto).
      destruct reset; [|done]. by rewrite decide_False.
  - destruct reset; cbn [andb]; [|done]. destruct (decide (x = c)) as [->|Hne].
    + rewrite (bool_decide_eq_false_2 (c ∈ cs)) by done. by rewrite bool_decide_eq_true_2 by left.
    + rewrite (bool_decide_ext (x ∈ c :: cs) (x ∈ cs)) by (rewrite elem_of_cons; tauto). done.
Qed.
End Counters.

(** Compute the hits of a list of increases. *)
Ltac count_hits :=
  cbn [bumps foldr];
  repeat match goal with
  | |- context [hits ?c ?cs] => let v := eval vm_compute in (hits c cs) in change (hits c cs) with v
  end.

(** ** The counters of the libraries *)

(** [cf_rx_stats.h] and [cf_redis_producer.h]. *)
Inductive rx_stat :=
| packets_received_total | packets_dropped_total | rx_queue_drop_total | rx_queue_depth
| packets_truncated_total | packets_snap_truncated_total | rx_bytes_copied_total.

#[export] Instance rx_stat_eq_dec : EqDecision rx_stat.
Proof. solve_decision. Defined.

Definition cf_rx_stats_t : Type := rx_stat -> Z.

Inductive redis_stat :=
| xadd_total | xadd_errors_total | xadd_latency_ns_total | redis_reconnects_total
| events_lost_total.

#[export] Instance redis_stat_eq_dec : EqDecision redis_stat.
Proof. solve_decision. Defined.

Definition cf_redis_stats_t : Type := redis_stat -> Z.

(** The reader's counters in the order of a report. *)
Definition rx_counters : list rx_stat :=
  [packets_received_total; packets_dropped_total; rx_queue_drop_total; packets_truncated_total;
   rx_bytes_copied_total; packets_snap_truncated_total].

(** A counter is not in a concrete list. *)
Ltac notin := apply (bool_decide_unpack _); vm_compute; exact I.
