(* ===== verification/Core.v ===== *)
(** * Core: protocol and stream names, and the process-wide stop flag

    Models [libs/cloudflow-core/cloudflow.c] and [cf_sync.c].  The stop flag
    and its code are the two static atomics of [cf_sync.c]; each operation is
    one state transition of that pair. *)

From S2P Require Import Prelude.

(** ** Names ([cloudflow.c]) *)

Inductive cf_protocol_t : Type :=
| CF_PROTO_UNKNOWN
| CF_PROTO_DHCPV4
| CF_PROTO_DHCPV6
| CF_PROTO_DNS
| CF_PROTO_SYSLOG.

Inductive cf_stream_id_t : Type :=
| CF_STREAM_NONE
| CF_STREAM_DHCPV4
| CF_STREAM_DHCPV6
| CF_STREAM_DNS
| CF_STREAM_SYSLOG.

#[export] Instance cf_protocol_eq_dec : EqDecision cf_protocol_t.
Proof. solve_decision. Defined.
#[export] Instance cf_stream_id_eq_dec : EqDecision cf_stream_id_t.
Proof. solve_decision. Defined.

Definition cf_protocol_name (protocol : cf_protocol_t) : list Z :=
  match protocol with
  | CF_PROTO_DHCPV4 => bs "dhcpv4"
  | CF_PROTO_DHCPV6 => bs "dhcpv6"
  | CF_PROTO_DNS => bs "dns"
  | CF_PROTO_SYSLOG => bs "syslog"
  | CF_PROTO_UNKNOWN => bs "unknown"
  end.

(** [None] is the [NULL] the C function returns for [CF_STREAM_NONE]. *)
Definition cf_stream_name (stream_id : cf_stream_id_t) : option (list Z) :=
  match stream_id with
  | CF_STREAM_DHCPV4 => Some (bs "cloudflow:v1:wire:dhcpv4")
  | CF_STREAM_DHCPV6 => Some (bs "cloudflow:v1:wire:dhcpv6")
  | CF_STREAM_DNS => Some (bs "cloudflow:v1:wire:dns")
  | CF_STREAM_SYSLOG => Some (bs "cloudflow:v1:wire:syslog")
  | CF_STREAM_NONE => None
  end.

(** ** Shutdown coordination ([cf_sync.c]) *)

Record cf_sync_state := {
  cf_stop_flag : bool;
  cf_stop_code : Z
}.

Definition cf_sync_init : cf_sync_state :=
  {| cf_stop_flag := false; cf_stop_code := 0 |}.

Definition cf_stop_notify (code : Z) (s : cf_sync_state) : cf_sync_state :=
  {| cf_stop_flag := true;
     cf_stop_code := if code =? 0 then cf_stop_code s else code |}.

Definition cf_stop_notified (s : cf_sync_state) : bool := cf_stop_flag s.

Definition cf_stop_signal_handler (sig : Z) (s : cf_sync_state) : cf_sync_state :=
  {| cf_stop_flag := true; cf_stop_code := cf_stop_code s |}.

(** What can happen to the pair, from any thread or from a signal. *)
Inductive sync_event : Type :=
| Notify (code : Z)
| Signal (sig : Z).

Definition sync_step (s : cf_sync_state) (e : sync_event) : cf_sync_state :=
  match e with
  | Notify code => cf_stop_notify code s
  | Signal sig => cf_stop_signal_handler sig s
  end.

(** The last non-zero code of a history, 0 when there is none. *)
Definition last_code (es : list sync_event) : Z :=
  foldl (fun c e => match e with
                    | Notify code => if code =? 0 then c else code
                    | Signal _ => c
                    end) 0 es.

Lemma sync_run_code es s :
  cf_stop_code (foldl sync_step s es) =
  foldl (fun c e => match e with
                    | Notify code => if code =? 0 then c else code
                    | Signal _ => c
                    end) (cf_stop_code s) es.
Proof. revert s. induction es as [|[code|sig] es IH]; intros s; simpl; auto; by rewrite IH. Qed.

Lemma sync_run_flag es s :
  cf_stop_flag (foldl sync_step s es) = cf_stop_flag s || negb (Nat.eqb (length es) 0).
Proof.
  revert s. induction es as [|e es IH]; intros s; simpl.
  - by rewrite orb_false_r.
  - rewrite IH. destruct e; simpl; by rewrite orb_true_r.
Qed.

(** Along every history of stop requests and signals, the flag is set exactly
    when something happened, and the recorded code is the last non-zero one: a
    plain request and a signal never clobber it. *)
Theorem sync_history es :
  let s := foldl sync_step cf_sync_init es in
  cf_stop_notified s = negb (Nat.eqb (length es) 0) /\ cf_stop_code s = last_code es.
Proof. simpl. split; [apply sync_run_flag|apply sync_run_code]. Qed.
