(* ===== verification/Queue.v ===== *)
(** * Queue: the bounded ring buffer of [libs/cloudflow-core/cf_queue.c]

    The state is the struct of [cf_queue.h] with its storage as the flat byte
    array the code indexes.  The specification is a bounded FIFO list of
    elements ([BoundedFifo]); the theorems show that every operation of the
    ring refines it and stays inside the storage.  The operations here are the
    sequential ones; [QueueSpsc] interleaves their atomic steps. *)

From S2P Require Import Prelude.

Record cf_queue_t := {
  q_storage : option (list Z);
  q_element_size : Z;
  q_capacity : Z;
  q_head : Z;
  q_tail : Z
}.

Definition set_head (q : cf_queue_t) (st : list Z) (head : Z) : cf_queue_t :=
  {| q_storage := Some st; q_element_size := q_element_size q;
     q_capacity := q_capacity q; q_head := head; q_tail := q_tail q |}.

Definition set_tail (q : cf_queue_t) (tail : Z) : cf_queue_t :=
  {| q_storage := q_storage q; q_element_size := q_element_size q;
     q_capacity := q_capacity q; q_head := q_head q; q_tail := tail |}.

(** [calloc_ok] is whether the allocation of the storage succeeds; a failed
    one leaves the queue with a NULL storage. *)
Definition cf_queue_init (calloc_ok : bool) (queue : option cf_queue_t)
    (capacity element_size : Z) : Z * option cf_queue_t :=
  match queue with
  | None => (-1, None)
  | Some q =>
      if (capacity <? 2) || (element_size =? 0) then (-1, Some q)
      else if negb calloc_ok then
        (-1, Some {| q_storage := None; q_element_size := q_element_size q;
                     q_capacity := q_capacity q; q_head := q_head q;
                     q_tail := q_tail q |})
      else
        (0, Some {| q_storage := Some (replicate (Z.to_nat (capacity * element_size)) 0);
                    q_element_size := element_size; q_capacity := capacity;
                    q_head := 0; q_tail := 0 |})
  end.

Definition cf_queue_destroy (queue : option cf_queue_t) : option cf_queue_t :=
  match queue with
  | None => None
  | Some _ => Some {| q_storage := None; q_element_size := 0; q_capacity := 0;
                      q_head := 0; q_tail := 0 |}
  end.

(** The element is the buffer the caller points to; [memcpy] reads
    [element_size] bytes of it. *)
Definition cf_queue_push (queue : option cf_queue_t) (element : option (list Z))
    : exec (Z * option cf_queue_t) :=
  match queue, element with
  | Some q, Some e =>
      match q_storage q with
      | None => Ret (-1, queue)
      | Some st =>
          let head := q_head q in
          let next := (head + 1) mod q_capacity q in
          let tail := q_tail q in
          if next =? tail then Ret (1, queue)
          else
            src ← rd_n e 0 (q_element_size q);
            st' ← wr_n st (head * q_element_size q) src;
            Ret (0, Some (set_head q st' next))
      end
  | _, _ => Ret (-1, queue)
  end.

(** [element] is whether the caller passed an output buffer; the element read
    is the last component. *)
Definition cf_queue_pop (queue : option cf_queue_t) (element : bool)
    : exec (Z * option cf_queue_t * list Z) :=
  match queue with
  | Some q =>
      match q_storage q with
      | None => Ret (-1, queue, [])
      | Some st =>
          if negb element then Ret (-1, queue, []) else
          let tail := q_tail q in
          let head := q_head q in
          if tail =? head then Ret (1, queue, [])
          else
            x ← rd_n st (tail * q_element_size q) (q_element_size q);
            Ret (0, Some (set_tail q ((tail + 1) mod q_capacity q)), x)
      end
  | None => Ret (-1, queue, [])
  end.

Definition cf_queue_drop (queue : option cf_queue_t) : Z * option cf_queue_t :=
  match queue with
  | Some q =>
      match q_storage q with
      | None => (-1, queue)
      | Some _ =>
          let tail := q_tail q in
          let head := q_head q in
          if tail =? head then (1, queue)
          else (0, Some (set_tail q ((tail + 1) mod q_capacity q)))
      end
  | None => (-1, queue)
  end.

Definition cf_queue_length (queue : option cf_queue_t) : Z :=
  match queue with
  | Some q =>
      match q_storage q with
      | None => 0
      | Some _ =>
          if q_capacity q =? 0 then 0
          else
            let head := q_head q in
            let tail := q_tail q in
            if tail <=? head then head - tail else q_capacity q - (tail - head)
      end
  | None => 0
  end.

Definition cf_queue_capacity (queue : option cf_queue_t) : Z :=
  match queue with
  | Some q => if q_capacity q =? 0 then 0 else q_capacity q - 1
  | None => 0
  end.

(** ** The abstract queue *)

(** A bounded FIFO: what a client may rely on.  [fifo_items] is the list of
    queued elements, oldest first. *)
Class BoundedFifo (Q : Type) := {
  fifo_wf : Q -> Prop;
  fifo_items : Q -> list (list Z);
  fifo_bound : Q -> Z;
  fifo_element_size : Q -> Z;
  fifo_null : Q -> bool;
  fifo_push : Q -> list Z -> exec (Z * Q);
  fifo_drop : Q -> Z * Q;
  fifo_pop : Q -> exec (Z * Q * list Z);

  fifo_wf_not_null : forall q, fifo_wf q -> fifo_null q = false;
  fifo_bound_pos : forall q, fifo_wf q -> 1 <= fifo_bound q;
  fifo_items_bound : forall q, fifo_wf q -> zlen (fifo_items q) <= fifo_bound q;
  fifo_push_spec : forall q e, fifo_wf q -> zlen e = fifo_element_size q ->
    runs (fifo_push q e) (fun '(rc, q') =>
      fifo_wf q' /\ fifo_bound q' = fifo_bound q /\
      fifo_element_size q' = fifo_element_size q /\
      if zlen (fifo_items q) <? fifo_bound q
      then rc = 0 /\ fifo_items q' = fifo_items q ++ [e]
      else rc = 1 /\ q' = q);
  fifo_pop_spec : forall q, fifo_wf q ->
    runs (fifo_pop q) (fun '(rc, q', x) =>
      fifo_wf q' /\ fifo_bound q' = fifo_bound q /\
      fifo_element_size q' = fifo_element_size q /\
      match fifo_items q with
      | [] => rc = 1 /\ q' = q /\ x = []
      | y :: l => rc = 0 /\ x = y /\ fifo_items q' = l
      end);
  fifo_drop_spec : forall q, fifo_wf q ->
    let '(rc, q') := fifo_drop q in
    fifo_wf q' /\ fifo_bound q' = fifo_bound q /\
    fifo_element_size q' = fifo_element_size q /\
    match fifo_items q with
    | [] => rc = 1 /\ q' = q
    | y :: l => rc = 0 /\ fifo_items q' = l
    end
}.

(** ** The ring as a FIFO *)

(** Slot [i] of the storage, the number of queued elements, and the elements
    from [tail] up to [head], wrapping round. *)
Definition slot (q : cf_queue_t) (st : list Z) (i : Z) : list Z :=
  slice st (i * q_element_size q) (q_element_size q).

Definition q_count (q : cf_queue_t) : nat :=
  Z.to_nat ((q_head q - q_tail q) mod q_capacity q).

Definition q_items (q : cf_queue_t) : list (list Z) :=
  match q_storage q with
  | None => []
  | Some st =>
      (fun k => slot q st ((q_tail q + Z.of_nat k) mod q_capacity q)) <$> seq 0 (q_count q)
  end.

Record q_wf (q : cf_queue_t) (st : list Z) : Prop := {
  wf_storage : q_storage q = Some st;
  wf_capacity : 2 <= q_capacity q;
  wf_element_size : 1 <= q_element_size q;
  wf_length : zlen st = q_capacity q * q_element_size q;
  wf_head : 0 <= q_head q < q_capacity q;
  wf_tail : 0 <= q_tail q < q_capacity q
}.

(** Case analysis on the guards of wrapped indices, innermost first. *)
Ltac ring_cases :=
  repeat case_match; try lia; rewrite ?mod_wrap by lia; repeat case_match; lia.

Section Ring.
Variables (q : cf_queue_t) (st : list Z).
Hypothesis wf : q_wf q st.

Let cap_pos : 2 <= q_capacity q := wf_capacity q st wf.
Let es_pos : 1 <= q_element_size q := wf_element_size q st wf.
Let len_eq : zlen st = q_capacity q * q_element_size q := wf_length q st wf.
Let head_ok : 0 <= q_head q < q_capacity q := wf_head q st wf.
Let tail_ok : 0 <= q_tail q < q_capacity q := wf_tail q st wf.

Lemma q_count_bound : Z.of_nat (q_count q) < q_capacity q.
Proof. unfold q_count. pose proof (Z.mod_pos_bound (q_head q - q_tail q) (q_capacity q)). lia. Qed.

Lemma q_items_length : length (q_items q) = q_count q.
Proof.
  unfold q_items. rewrite (wf_storage q st wf). by rewrite length_fmap, length_seq.
Qed.

(** A slot index lies inside the storage. *)
Lemma slot_in_bounds i : 0 <= i < q_capacity q ->
  0 <= i * q_element_size q /\
  i * q_element_size q + q_element_size q <= zlen st.
Proof. intros Hi. rewrite len_eq. nia. Qed.

Lemma q_empty_iff : q_count q = 0%nat <-> q_tail q = q_head q.
Proof. unfold q_count. split; [|intros ->; rewrite Z.sub_diag, Z.mod_0_l by lia; done].
  rewrite mod_wrap by lia. repeat case_match; lia. Qed.

Lemma q_full_iff :
  (q_head q + 1) mod q_capacity q = q_tail q <-> Z.of_nat (q_count q) = q_capacity q - 1.
Proof. unfold q_count. rewrite !mod_wrap by lia. repeat case_match; lia. Qed.

Lemma q_head_index : (q_tail q + Z.of_nat (q_count q)) mod q_capacity q = q_head q.
Proof.
  unfold q_count. rewrite Z2Nat.id by (apply Z.mod_pos_bound; lia).
  rewrite Zplus_mod_idemp_r. replace (q_tail q + (q_head q - q_tail q)) with (q_head q) by lia.
  by apply Z.mod_small.
Qed.

Lemma q_index_not_head k : (k < q_count q)%nat ->
  (q_tail q + Z.of_nat k) mod q_capacity q <> q_head q.
Proof.
  intros Hk. pose proof q_count_bound as Hb.
  rewrite mod_wrap by lia. unfold q_count in *.
  rewrite mod_wrap in Hk, Hb by lia. repeat case_match; lia.
Qed.

Lemma push_wf e : zlen e = q_element_size q ->
  q_wf (set_head q (splice st (q_head q * q_element_size q) e)
                 ((q_head q + 1) mod q_capacity q))
       (splice st (q_head q * q_element_size q) e).
Proof.
  intros He. destruct (slot_in_bounds (q_head q) head_ok) as [H0 H1].
  constructor; simpl; try done; [by rewrite length_splice by lia|].
  apply Z.mod_pos_bound. lia.
Qed.

Lemma push_items e : zlen e = q_element_size q ->
  (q_head q + 1) mod q_capacity q <> q_tail q ->
  q_items (set_head q (splice st (q_head q * q_element_size q) e)
                    ((q_head q + 1) mod q_capacity q)) = q_items q ++ [e].
Proof.
  intros He Hne. destruct (slot_in_bounds (q_head q) head_ok) as [H0 H1].
  assert (q_count (set_head q (splice st (q_head q * q_element_size q) e)
            ((q_head q + 1) mod q_capacity q)) = S (q_count q)) as Hc.
  { unfold q_count. simpl. rewrite (mod_wrap (q_head q + 1)) in * by lia.
    ring_cases. }
  unfold q_items. rewrite Hc, (wf_storage q st wf). simpl q_storage. cbn iota.
  rewrite seq_S, fmap_app. f_equal.
  - apply list_fmap_ext. intros i k Hk%lookup_seq. destruct Hk as [-> Hk].
    simpl in *. unfold slot. simpl.
    pose proof (q_index_not_head i ltac:(lia)) as Hnh.
    pose proof (Z.mod_pos_bound (q_tail q + Z.of_nat i) (q_capacity q) ltac:(lia)) as Hb.
    destruct (slot_in_bounds _ Hb) as [? ?].
    apply slice_splice_other; try lia. nia.
  - simpl. f_equal. unfold slot; simpl. rewrite q_head_index.
    apply slice_splice_same; lia.
Qed.

Lemma tail_wf : q_wf (set_tail q ((q_tail q + 1) mod q_capacity q)) st.
Proof.
  constructor; simpl; try done; [apply (wf_storage q st wf)|].
  apply Z.mod_pos_bound. lia.
Qed.

Lemma tail_items : q_tail q <> q_head q ->
  q_items q = slot q st (q_tail q) ::
              q_items (set_tail q ((q_tail q + 1) mod q_capacity q)).
Proof.
  intros Hne. unfold q_items. simpl. rewrite (wf_storage q st wf).
  assert (q_count q = S (q_count (set_tail q ((q_tail q + 1) mod q_capacity q)))) as ->.
  { unfold q_count. simpl. rewrite (mod_wrap (q_tail q + 1)) by lia.
    ring_cases. }
  cbn [seq fmap list_fmap]. f_equal.
  - f_equal. rewrite Z.add_0_r. by apply Z.mod_small.
  - rewrite <- fmap_S_seq, <- list_fmap_compose. apply list_fmap_ext.
    intros i k _. simpl. unfold slot. simpl. do 2 f_equal.
    rewrite Zplus_mod_idemp_l. f_equal. lia.
Qed.
End Ring.

(** ** Operation lemmas *)

Definition queue_wf (queue : option cf_queue_t) : Prop :=
  exists q st, queue = Some q /\ q_wf q st.

Definition queue_items (queue : option cf_queue_t) : list (list Z) :=
  match queue with Some q => q_items q | None => [] end.

Definition queue_element_size (queue : option cf_queue_t) : Z :=
  match queue with Some q => q_element_size q | None => 0 end.

Definition queue_null (queue : option cf_queue_t) : bool :=
  match queue with Some _ => false | None => true end.

Lemma queue_wf_not_null queue : queue_wf queue -> queue_null queue = false.
Proof. by intros (q & st & -> & _). Qed.

Lemma cap_nonzero q st : q_wf q st -> (q_capacity q =? 0) = false.
Proof. intros wf. pose proof (wf_capacity _ _ wf). lia. Qed.

Lemma queue_bound_pos queue : queue_wf queue -> 1 <= cf_queue_capacity queue.
Proof.
  intros (q & st & -> & wf). simpl. rewrite (cap_nonzero q st wf).
  pose proof (wf_capacity _ _ wf). lia.
Qed.

Lemma queue_items_bound queue :
  queue_wf queue -> zlen (queue_items queue) <= cf_queue_capacity queue.
Proof.
  intros (q & st & -> & wf). simpl. rewrite (cap_nonzero q st wf), (q_items_length q st wf).
  pose proof (q_count_bound q st wf). lia.
Qed.

Lemma queue_push_spec queue e :
  queue_wf queue -> zlen e = queue_element_size queue ->
  runs (cf_queue_push queue (Some e)) (fun '(rc, queue') =>
    queue_wf queue' /\ cf_queue_capacity queue' = cf_queue_capacity queue /\
    queue_element_size queue' = queue_element_size queue /\
    if zlen (queue_items queue) <? cf_queue_capacity queue
    then rc = 0 /\ queue_items queue' = queue_items queue ++ [e]
    else rc = 1 /\ queue' = queue).
Proof.
  intros (q & st & -> & wf). simpl. intros He.
  rewrite (cap_nonzero q st wf), (wf_storage q st wf), (q_items_length q st wf).
  pose proof (q_full_iff q st wf) as Hfull.
  pose proof (q_count_bound q st wf) as Hcb. apply runs_if; intros E.
  - assert (Z.of_nat (q_count q) = q_capacity q - 1) as Hc by (apply Hfull; lia).
    replace (Z.of_nat (q_count q) <? q_capacity q - 1) with false by lia.
    simpl. rewrite (cap_nonzero q st wf). split_and!; try done. by exists q, st.
  - replace (Z.of_nat (q_count q) <? q_capacity q - 1) with true by lia.
    destruct (slot_in_bounds q st wf (q_head q) (wf_head q st wf)) as [H0 H1].
    pose proof (wf_element_size q st wf).
    rewrite rd_n_ok by lia. rewrite (slice_all e) by lia.
    cbn [mbind exec_bind]. rewrite wr_n_ok by lia. simpl.
    rewrite (cap_nonzero q st wf). split_and!; try done.
    + eexists _, _. split; [done|]. by apply push_wf.
    + apply push_items; try done. lia.
Qed.

Lemma queue_pop_spec queue :
  queue_wf queue ->
  runs (cf_queue_pop queue true) (fun '(rc, queue', x) =>
    queue_wf queue' /\ cf_queue_capacity queue' = cf_queue_capacity queue /\
    queue_element_size queue' = queue_element_size queue /\
    match queue_items queue with
    | [] => rc = 1 /\ queue' = queue /\ x = []
    | y :: l => rc = 0 /\ x = y /\ queue_items queue' = l
    end).
Proof.
  intros (q & st & -> & wf). simpl. rewrite (wf_storage q st wf).
  pose proof (q_items_length q st wf) as Hl. apply runs_if; intros E.
  - assert (q_count q = 0%nat) as H0 by (apply (q_empty_iff q st wf); lia).
    rewrite H0 in Hl. destruct (q_items q); [|done]. simpl.
    split_and!; try done. by exists q, st.
  - pose proof (wf_element_size q st wf).
    destruct (slot_in_bounds q st wf (q_tail q) (wf_tail q st wf)) as [H0 H1].
    rewrite rd_n_ok by lia. simpl.
    rewrite (tail_items q st wf) by lia. split_and!; try done.
    eexists _, st. split; [done|]. by apply tail_wf.
Qed.

Lemma queue_drop_spec queue :
  queue_wf queue ->
  let '(rc, queue') := cf_queue_drop queue in
  queue_wf queue' /\ cf_queue_capacity queue' = cf_queue_capacity queue /\
  queue_element_size queue' = queue_element_size queue /\
  match queue_items queue with
  | [] => rc = 1 /\ queue' = queue
  | y :: l => rc = 0 /\ queue_items queue' = l
  end.
Proof.
  intros (q & st & -> & wf). simpl. rewrite (wf_storage q st wf).
  pose proof (q_items_length q st wf) as Hl. destruct (q_tail q =? q_head q) eqn:E.
  - assert (q_count q = 0%nat) as H0 by (apply (q_empty_iff q st wf); lia).
    rewrite H0 in Hl. destruct (q_items q) eqn:Ei; [|done]. simpl.
    split_and!; try done. by exists q, st.
  - simpl. rewrite (tail_items q st wf) by lia. split_and!; try done.
    eexists _, st. split; [done|]. by apply tail_wf.
Qed.

#[export] Instance cf_queue_fifo : BoundedFifo (option cf_queue_t) := {
  fifo_wf := queue_wf;
  fifo_items := queue_items;
  fifo_bound := cf_queue_capacity;
  fifo_element_size := queue_element_size;
  fifo_null := queue_null;
  fifo_push := fun q e => cf_queue_push q (Some e);
  fifo_drop := cf_queue_drop;
  fifo_pop := fun q => cf_queue_pop q true;
  fifo_wf_not_null := queue_wf_not_null;
  fifo_bound_pos := queue_bound_pos;
  fifo_items_bound := queue_items_bound;
  fifo_push_spec := queue_push_spec;
  fifo_pop_spec := queue_pop_spec;
  fifo_drop_spec := queue_drop_spec
}.

Lemma init_wf calloc_ok q capacity element_size queue :
  0 <= element_size ->
  cf_queue_init calloc_ok (Some q) capacity element_size = (0, queue) ->
  queue_wf queue /\ queue_items queue = [] /\
  cf_queue_capacity queue = capacity - 1 /\ queue_element_size queue = element_size.
Proof.
  intros He. unfold cf_queue_init.
  destruct ((capacity <? 2) || (element_size =? 0)) eqn:E; [done|].
  destruct calloc_ok; [|done]. intros [= <-]. simpl.
  destruct (capacity =? 0) eqn:E0; [lia|]. split_and!; try done.
  eexists _, _. split; [done|]. constructor; simpl; try done; try lia.
  rewrite length_replicate, Z2Nat.id by nia. done.
Qed.

(** ** Histories of operations *)

Inductive qop : Type :=
| Push (e : list Z)
| Pop
| Drop.

Definition queue_step (queue : option cf_queue_t) (o : qop)
    : exec (Z * list Z * option cf_queue_t) :=
  match o with
  | Push e => '(rc, q') ← cf_queue_push queue (Some e); Ret (rc, [], q')
  | Pop => '(rc, q', x) ← cf_queue_pop queue true; Ret (rc, x, q')
  | Drop => let '(rc, q') := cf_queue_drop queue in Ret (rc, [], q')
  end.

Fixpoint queue_run (queue : option cf_queue_t) (os : list qop)
    : exec (list (Z * list Z) * option cf_queue_t) :=
  match os with
  | [] => Ret ([], queue)
  | o :: os' =>
      '(rc, x, q') ← queue_step queue o;
      '(rs, q'') ← queue_run q' os';
      Ret ((rc, x) :: rs, q'')
  end.

(** The same history on a list of at most [bound] elements. *)
Definition fifo_step (bound : Z) (l : list (list Z)) (o : qop)
    : Z * list Z * list (list Z) :=
  match o with
  | Push e => if zlen l <? bound then (0, [], l ++ [e]) else (1, [], l)
  | Pop => match l with [] => (1, [], []) | x :: l' => (0, x, l') end
  | Drop => match l with [] => (1, [], []) | _ :: l' => (0, [], l') end
  end.

Fixpoint fifo_run (bound : Z) (l : list (list Z)) (os : list qop)
    : list (Z * list Z) * list (list Z) :=
  match os with
  | [] => ([], l)
  | o :: os' =>
      let '(rc, x, l') := fifo_step bound l o in
      let '(rs, l'') := fifo_run bound l' os' in
      ((rc, x) :: rs, l'')
  end.

Definition op_ok (es : Z) (o : qop) : Prop :=
  match o with Push e => zlen e = es | _ => True end.

Lemma queue_step_spec queue o :
  queue_wf queue -> op_ok (queue_element_size queue) o ->
  runs (queue_step queue o) (fun '(rc, x, queue') =>
    queue_wf queue' /\ cf_queue_capacity queue' = cf_queue_capacity queue /\
    queue_element_size queue' = queue_element_size queue /\
    (rc, x, queue_items queue') =
      fifo_step (cf_queue_capacity queue) (queue_items queue) o).
Proof.
  intros Hwf Hok. destruct o as [e| |]; simpl.
  - apply runs_bind. eapply runs_mono; [by apply queue_push_spec|].
    intros [rc q'] (? & ? & ? & H). simpl. split_and!; try done.
    case_match; destruct H as [-> H]; [by rewrite H|by subst].
  - apply runs_bind. eapply runs_mono; [by apply queue_pop_spec|].
    intros [[rc q'] x] (? & ? & ? & H). simpl. split_and!; try done.
    destruct (queue_items queue) eqn:E.
    + destruct H as (-> & -> & ->). by rewrite E.
    + by destruct H as (-> & -> & ->).
  - pose proof (queue_drop_spec queue Hwf) as H.
    destruct (cf_queue_drop queue) as [rc q']. destruct H as (? & ? & ? & H).
    simpl. split_and!; try done.
    destruct (queue_items queue) eqn:E; destruct H as [-> H]; [subst; by rewrite E|by rewrite H].
Qed.

(** C30. Init, then any history: the ring answers every operation as the bounded
    list does, with the same elements left, and never touches a byte outside
    its storage. *)
Theorem queue_refines_fifo q capacity element_size queue os :
  0 <= element_size ->
  cf_queue_init true (Some q) capacity element_size = (0, queue) ->
  Forall (op_ok element_size) os ->
  runs (queue_run queue os) (fun '(rs, queue') =>
    (rs, queue_items queue') = fifo_run (capacity - 1) [] os).
Proof.
  intros He Hinit Hops.
  destruct (init_wf _ _ _ _ _ He Hinit) as (Hwf & Hi & Hb & Hes).
  rewrite <- Hi, <- Hb. rewrite <- Hes in Hops. clear Hi Hb Hes Hinit He.
  revert queue Hwf Hops. induction os as [|o os IH]; intros queue Hwf Hops; simpl; [done|].
  inversion Hops as [|? ? Ho Hos]; subst.
  apply runs_bind. eapply runs_mono; [by apply queue_step_spec|].
  intros [[rc x] q'] (Hwf' & Hcap & Hes & Heq). rewrite <- Heq.
  apply runs_bind. eapply runs_mono.
  { apply IH; [done|]. by rewrite Hes. }
  intros [rs q''] H. simpl. rewrite <- Hcap, <- H. done.
Qed.

Definition null_queue : cf_queue_t :=
  {| q_storage := None; q_element_size := 0; q_capacity := 0; q_head := 0; q_tail := 0 |}.

Lemma queue_refines_fifo_witness :
  exists queue, cf_queue_init true (Some null_queue) 3 2 = (0, queue) /\
  runs (queue_run queue [Push [1; 2]; Push [3; 4]; Push [5; 6]; Pop; Push [7; 8]; Pop; Pop])
    (fun '(rs, queue') => (rs, queue_items queue') =
       fifo_run (3 - 1) []
         [Push [1; 2]; Push [3; 4]; Push [5; 6]; Pop; Push [7; 8]; Pop; Pop]).
Proof.
  eexists. split; [reflexivity|].
  apply (queue_refines_fifo null_queue 3 2); [lia|reflexivity|].
  repeat constructor.
Defined.

(** The two gauges: the length is the number of queued elements, at every
    wrap position, and never exceeds the capacity (one slot stays free). *)
Theorem queue_length_spec queue :
  queue_wf queue ->
  cf_queue_length queue = zlen (queue_items queue) /\
  cf_queue_length queue <= cf_queue_capacity queue.
Proof.
  intros (q & st & -> & wf). simpl. rewrite (wf_storage q st wf), (cap_nonzero q st wf).
  rewrite (q_items_length q st wf). pose proof (q_count_bound q st wf).
  pose proof (wf_head q st wf). pose proof (wf_tail q st wf).
  unfold q_count in *. rewrite mod_wrap in * by lia. repeat case_match; lia.
Qed.

Lemma queue_length_spec_witness :
  exists queue, cf_queue_init true (Some null_queue) 4 1 = (0, queue) /\
  cf_queue_length queue = zlen (queue_items queue) /\
  cf_queue_length queue <= cf_queue_capacity queue.
Proof.
  eexists. split; [reflexivity|]. apply queue_length_spec.
  eapply (init_wf true null_queue 4 1); [lia|reflexivity].
Defined.

(** The depth gauge, for clients that sample it. *)
Class GaugedFifo (Q : Type) `{BoundedFifo Q} := {
  fifo_length : Q -> Z;
  fifo_length_spec q : fifo_wf q -> fifo_length q = zlen (fifo_items q)
}.

#[export] Instance cf_queue_gauged : GaugedFifo (option cf_queue_t) := {
  fifo_length := cf_queue_length;
  fifo_length_spec := fun q Hq => proj1 (queue_length_spec q Hq)
}.
