(* ===== verification/QueuePolicy.v ===== *)
(** * QueuePolicy: the backpressure policies of
    [libs/cloudflow-capture/cf_queue_policy.c]

    [cf_queue_push_policy] is written and verified against the [BoundedFifo]
    interface; [cf_queue] is one instance.  While a blocking push sleeps, the
    consumer thread may pop: the argument [consumer] says how many pops it
    makes during each sleep, and [stop] what [cf_stop_notified] answers at
    each retry.  The drop counter is [NULL] or an [atomic_ulong]. *)

From S2P Require Import Prelude Queue.

Inductive cf_queue_full_policy_t : Type :=
| CF_ONFULL_DROP_NEWEST
| CF_ONFULL_DROP_OLDEST
| CF_ONFULL_BLOCK.

#[export] Instance cf_queue_full_policy_eq_dec : EqDecision cf_queue_full_policy_t.
Proof. solve_decision. Defined.

Definition CF_QUEUE_POLICY_MAX_ELEMENT_SIZE : Z := 64 * 1024.
Definition CF_QUEUE_POLICY_BLOCK_MAX_RETRIES : nat := 500.

Definition cf_queue_full_policy_name (policy : cf_queue_full_policy_t) : list Z :=
  match policy with
  | CF_ONFULL_DROP_NEWEST => bs "drop_newest"
  | CF_ONFULL_DROP_OLDEST => bs "drop_oldest"
  | CF_ONFULL_BLOCK => bs "block"
  end.

(** [CF_ATOMIC_INC] on a possibly-NULL counter. *)
Definition counter_inc (c : option Z) : option Z := (fun n => u64 (n + 1)) <$> c.

Section Policy.
Context {Q : Type} `{BoundedFifo Q}.
Variables (stop : nat -> bool) (consumer : nat -> nat).

(** [n] pops by the consumer; the elements it received, in order. *)
Fixpoint consume (n : nat) (q : Q) : exec (Q * list (list Z)) :=
  match n with
  | O => Ret (q, [])
  | S n' =>
      '(rc, q1, x) ← fifo_pop q;
      if rc =? 0 then '(q2, xs) ← consume n' q1; Ret (q2, x :: xs)
      else Ret (q1, [])
  end.

(** The retry loop of [CF_ONFULL_BLOCK]: [None] when it falls through. *)
Fixpoint block_loop (left retries : nat) (q : Q) (element : list Z)
    : exec (option Z * Q * list (list Z)) :=
  match left with
  | O => Ret (None, q, [])
  | S left' =>
      if stop retries then Ret (None, q, [])
      else
        '(q1, xs) ← consume (consumer retries) q;
        '(rc, q2) ← fifo_push q1 element;
        if rc =? 0 then Ret (Some 0, q2, xs)
        else if rc <? 0 then Ret (Some (-1), q2, xs)
        else
          '(r, q3, ys) ← block_loop left' (S retries) q2 element;
          Ret (r, q3, xs ++ ys)
  end.

Definition cf_queue_push_policy (queue : Q) (element : option (list Z))
    (element_size : Z) (policy : cf_queue_full_policy_t) (drop_counter : option Z)
    : exec (Z * Q * option Z * list (list Z)) :=
  match element with
  | None => Ret (-1, queue, drop_counter, [])
  | Some e =>
      if fifo_null queue || (element_size =? 0)
         || negb (element_size =? fifo_element_size queue)
         || (CF_QUEUE_POLICY_MAX_ELEMENT_SIZE <? element_size)
      then Ret (-1, queue, drop_counter, [])
      else
        '(rc, q1) ← fifo_push queue e;
        if rc =? 0 then Ret (0, q1, drop_counter, [])
        else if rc <? 0 then Ret (-1, q1, drop_counter, [])
        else
          match policy with
          | CF_ONFULL_DROP_OLDEST =>
              let '(drc, q2) := fifo_drop q1 in
              if drc =? 0 then
                '(rc2, q3) ← fifo_push q2 e;
                if rc2 =? 0 then Ret (0, q3, counter_inc drop_counter, [])
                else Ret (1, q3, counter_inc (counter_inc drop_counter), [])
              else Ret (1, q2, counter_inc drop_counter, [])
          | CF_ONFULL_BLOCK =>
              '(r, q2, xs) ← block_loop CF_QUEUE_POLICY_BLOCK_MAX_RETRIES 0 q1 e;
              match r with
              | Some rc' => Ret (rc', q2, drop_counter, xs)
              | None => Ret (1, q2, counter_inc drop_counter, xs)
              end
          | CF_ONFULL_DROP_NEWEST => Ret (1, q1, counter_inc drop_counter, [])
          end
  end.

(** ** The loop *)

Lemma consume_spec n q :
  fifo_wf q ->
  runs (consume n q) (fun '(q', xs) =>
    fifo_wf q' /\ fifo_bound q' = fifo_bound q /\
    fifo_element_size q' = fifo_element_size q /\
    xs = take n (fifo_items q) /\ fifo_items q' = drop n (fifo_items q)).
Proof.
  revert q. induction n as [|n IH]; intros q Hwf; cbn [consume].
  { simpl. by rewrite drop_0. }
  apply runs_bind. eapply runs_mono; [by apply fifo_pop_spec|].
  intros [[rc q1] x] (Hwf1 & Hb1 & He1 & Hi).
  destruct (fifo_items q) as [|y l] eqn:E.
  - destruct Hi as (-> & -> & ->). simpl. by rewrite E.
  - destruct Hi as (-> & -> & Hi). simpl. apply runs_bind.
    eapply runs_mono; [by apply IH|].
    intros [q2 xs] (? & Hb2 & He2 & -> & Hi2). simpl. rewrite Hi2, Hi, Hb2, He2. done.
Qed.

(** What a blocking push can end as. *)
Definition block_ok (q : Q) (e : list Z) (r : option Z) (q' : Q) (xs : list (list Z)) : Prop :=
  match r with
  | Some rc => rc = 0 /\ xs ++ fifo_items q' = fifo_items q ++ [e]
  | None => xs ++ fifo_items q' = fifo_items q
  end.

Lemma block_loop_spec left retries q e :
  fifo_wf q -> zlen e = fifo_element_size q ->
  runs (block_loop left retries q e) (fun '(r, q', xs) =>
    fifo_wf q' /\ fifo_bound q' = fifo_bound q /\
    fifo_element_size q' = fifo_element_size q /\ block_ok q e r q' xs).
Proof.
  revert retries q. induction left as [|left IH]; intros retries q Hwf He; cbn [block_loop].
  { by simpl. }
  apply runs_if; intros _; [by simpl|].
  apply runs_bind. eapply runs_mono; [by apply consume_spec|].
  intros [q1 xs] (Hwf1 & Hb1 & He1 & Hxs & Hi1).
  apply runs_bind. eapply runs_mono; [apply fifo_push_spec; [done|congruence]|].
  intros [rc q2] (Hwf2 & Hb2 & He2 & Hp).
  assert (xs ++ fifo_items q1 = fifo_items q) as Hsplit
    by (rewrite Hxs, Hi1; apply take_drop).
  case_match; destruct Hp as [-> Hp]; cbn [Z.eqb Z.ltb Z.compare].
  - simpl. split_and!; try done; [congruence..|].
    by rewrite Hp, app_assoc, Hsplit.
  - subst q2. apply runs_bind. eapply runs_mono; [by apply IH; [|congruence]|].
    intros [[r q3] ys] (Hwf3 & Hb3 & He3 & Hok). simpl. split_and!; try done; [congruence..|].
    unfold block_ok in *. destruct r; [destruct Hok as [-> Hok]|];
      rewrite <- app_assoc, Hok, ?app_assoc, Hsplit; done.
Qed.

Lemma drop_then_push q e :
  fifo_wf q -> zlen e = fifo_element_size q -> zlen (fifo_items q) = fifo_bound q ->
  let '(drc, q2) := fifo_drop q in
  drc = 0 /\
  runs (fifo_push q2 e) (fun '(rc, q3) =>
    fifo_wf q3 /\ fifo_bound q3 = fifo_bound q /\
    fifo_element_size q3 = fifo_element_size q /\
    rc = 0 /\ fifo_items q3 = tail (fifo_items q) ++ [e]).
Proof.
  intros Hwf He Hfull. pose proof (fifo_bound_pos q Hwf).
  pose proof (fifo_drop_spec q Hwf) as Hd.
  destruct (fifo_drop q) as [drc q2]. destruct Hd as (Hwf2 & Hb2 & He2 & Hd).
  destruct (fifo_items q) as [|y l] eqn:E; [simpl in Hfull; lia|].
  destruct Hd as [-> Hi]. split; [done|].
  eapply runs_mono; [apply fifo_push_spec; [done|congruence]|].
  intros [rc q3] (Hwf3 & Hb3 & He3 & Hp). rewrite Hi, Hb2 in Hp.
  replace (zlen l <? fifo_bound q) with true in Hp by (simpl in Hfull; lia).
  destruct Hp as [-> Hp]. simpl. split_and!; try done; congruence.
Qed.

Definition size_ok (q : Q) : Prop :=
  1 <= fifo_element_size q <= CF_QUEUE_POLICY_MAX_ELEMENT_SIZE.

Lemma push_policy_guard q e policy ctr :
  fifo_wf q -> size_ok q ->
  cf_queue_push_policy q (Some e) (fifo_element_size q) policy ctr =
  ('(rc, q1) ← fifo_push q e;
   if rc =? 0 then Ret (0, q1, ctr, [])
   else if rc <? 0 then Ret (-1, q1, ctr, [])
   else
     match policy with
     | CF_ONFULL_DROP_OLDEST =>
         let '(drc, q2) := fifo_drop q1 in
         if drc =? 0 then
           '(rc2, q3) ← fifo_push q2 e;
           if rc2 =? 0 then Ret (0, q3, counter_inc ctr, [])
           else Ret (1, q3, counter_inc (counter_inc ctr), [])
         else Ret (1, q2, counter_inc ctr, [])
     | CF_ONFULL_BLOCK =>
         '(r, q2, xs) ← block_loop CF_QUEUE_POLICY_BLOCK_MAX_RETRIES 0 q1 e;
         match r with
         | Some rc' => Ret (rc', q2, ctr, xs)
         | None => Ret (1, q2, counter_inc ctr, xs)
         end
     | CF_ONFULL_DROP_NEWEST => Ret (1, q1, counter_inc ctr, [])
     end).
Proof.
  intros Hwf [H1 H2]. unfold cf_queue_push_policy.
  rewrite (fifo_wf_not_null q Hwf).
  destruct (_ || _) eqn:E; [lia|done].
Qed.

(** The outcome of a push under each policy: [full] is whether the queue had
    no room, [xs] what the consumer took meanwhile. *)
Definition push_outcome (policy : cf_queue_full_policy_t) (q : Q) (e : list Z)
    (ctr : option Z) (rc : Z) (q' : Q) (ctr' : option Z) (xs : list (list Z)) : Prop :=
  if zlen (fifo_items q) <? fifo_bound q then
    rc = 0 /\ fifo_items q' = fifo_items q ++ [e] /\ ctr' = ctr /\ xs = []
  else
    match policy with
    | CF_ONFULL_DROP_NEWEST =>
        rc = 1 /\ fifo_items q' = fifo_items q /\ ctr' = counter_inc ctr /\ xs = []
    | CF_ONFULL_DROP_OLDEST =>
        rc = 0 /\ fifo_items q' = tail (fifo_items q) ++ [e] /\
        ctr' = counter_inc ctr /\ xs = []
    | CF_ONFULL_BLOCK =>
        (rc = 0 /\ xs ++ fifo_items q' = fifo_items q ++ [e] /\ ctr' = ctr) \/
        (rc = 1 /\ xs ++ fifo_items q' = fifo_items q /\ ctr' = counter_inc ctr)
    end.

Lemma push_policy_spec q e policy ctr :
  fifo_wf q -> zlen e = fifo_element_size q -> size_ok q ->
  runs (cf_queue_push_policy q (Some e) (fifo_element_size q) policy ctr)
    (fun '(rc, q', ctr', xs) =>
       fifo_wf q' /\ fifo_bound q' = fifo_bound q /\
       fifo_element_size q' = fifo_element_size q /\
       push_outcome policy q e ctr rc q' ctr' xs).
Proof.
  intros Hwf He Hsz. rewrite push_policy_guard by done. unfold push_outcome.
  apply runs_bind. eapply runs_mono; [by apply fifo_push_spec|].
  intros [rc q1] (Hwf1 & Hb1 & He1 & Hp).
  destruct (zlen (fifo_items q) <? fifo_bound q) eqn:Hroom;
    destruct Hp as [-> Hp]; cbn [Z.eqb Z.ltb Z.compare]; [done|].
  subst q1. destruct policy; [done| |].
  - pose proof (fifo_items_bound q Hwf).
    pose proof (drop_then_push q e Hwf He ltac:(lia)) as Hd.
    destruct (fifo_drop q) as [drc q2]. destruct Hd as [-> Hd]. cbn [Z.eqb].
    apply runs_bind. eapply runs_mono; [exact Hd|].
    intros [rc2 q3] (Hwf3 & Hb3 & He3 & -> & Hi3). done.
  - apply runs_bind. eapply runs_mono; [by apply block_loop_spec|].
    intros [[r q2] xs] (Hwf2 & Hb2 & He2 & Hok). unfold block_ok in Hok.
    destruct r as [rc'|]; simpl; [destruct Hok as [-> Hok]|]; auto 10.
Qed.

(** No silent loss: a push either stores its element behind the queued
    ones and leaves the drop counter alone, or exactly one element is lost
    (the new one, or the oldest) and the counter is bumped exactly once,
    whatever the consumer does during a blocking push. *)
Theorem push_policy_accounting q e policy ctr :
  fifo_wf q -> zlen e = fifo_element_size q -> size_ok q ->
  runs (cf_queue_push_policy q (Some e) (fifo_element_size q) policy ctr)
    (fun '(rc, q', ctr', xs) =>
       fifo_wf q' /\ fifo_bound q' = fifo_bound q /\
       push_outcome policy q e ctr rc q' ctr' xs).
Proof.
  intros Hwf He Hsz. eapply runs_mono; [by apply push_policy_spec|].
  by intros [[[rc q'] ctr'] xs] (? & ? & _ & ?).
Qed.

(** The retry at which the consumer made room stores the element. *)
Lemma block_loop_progress left retries q e i :
  fifo_wf q -> zlen e = fifo_element_size q -> (i < left)%nat ->
  (forall j, (retries <= j <= retries + i)%nat -> stop j = false) ->
  (0 < consumer (retries + i))%nat ->
  runs (block_loop left retries q e) (fun '(r, q', xs) => r = Some 0).
Proof.
  revert retries q i. induction left as [|left IH]; intros retries q i Hwf He Hi Hstop Hc;
    [lia|]. cbn [block_loop]. rewrite (Hstop retries) by lia.
  apply runs_bind. eapply runs_mono; [by apply consume_spec|].
  intros [q1 xs] (Hwf1 & Hb1 & He1 & Hxs & Hi1).
  apply runs_bind. eapply runs_mono; [apply fifo_push_spec; [done|congruence]|].
  intros [rc q2] (Hwf2 & Hb2 & He2 & Hp).
  case_match; destruct Hp as [-> Hp]; [done|]; cbn [Z.eqb Z.ltb Z.compare].
  subst q2. destruct i as [|i].
  { rewrite Nat.add_0_r in Hc. pose proof (fifo_items_bound q Hwf).
    pose proof (fifo_bound_pos q Hwf).
    assert (length (fifo_items q1) = length (fifo_items q) - consumer retries)%nat
      by (by rewrite Hi1, length_drop). lia. }
  apply runs_bind. eapply runs_mono.
  { apply (IH (S retries) q1 i); try done; [congruence|lia| |].
    - intros j Hj. apply Hstop. lia.
    - by replace (S retries + i)%nat with (retries + S i)%nat by lia. }
  intros [[r q3] ys] ->. done.
Qed.

(** A blocking push succeeds as soon as the consumer frees a slot: if no
    stop is requested up to retry [i] and the consumer pops during sleep [i],
    the element is stored. *)
Theorem push_block_progress q e ctr i :
  fifo_wf q -> zlen e = fifo_element_size q -> size_ok q ->
  (i < CF_QUEUE_POLICY_BLOCK_MAX_RETRIES)%nat ->
  (forall j, (j <= i)%nat -> stop j = false) -> (0 < consumer i)%nat ->
  runs (cf_queue_push_policy q (Some e) (fifo_element_size q) CF_ONFULL_BLOCK ctr)
    (fun '(rc, q', ctr', xs) => rc = 0 /\ ctr' = ctr).
Proof.
  intros Hwf He Hsz Hi Hstop Hc. rewrite push_policy_guard by done.
  apply runs_bind. eapply runs_mono; [by apply fifo_push_spec|].
  intros [rc q1] (Hwf1 & Hb1 & He1 & Hp).
  case_match; destruct Hp as [-> Hp]; [done|]; cbn [Z.eqb Z.ltb Z.compare].
  subst q1. apply runs_bind. eapply runs_mono.
  { apply (block_loop_progress _ 0 q e i); auto. intros j Hj. apply Hstop. lia. }
  intros [[r q3] ys] ->. done.
Qed.
End Policy.

(** ** The policies on the ring *)

(** A ring of capacity 3 holding two elements (full). *)
Definition full_ring : option cf_queue_t :=
  Some {| q_storage := Some [1; 2; 0]; q_element_size := 1; q_capacity := 3;
          q_head := 2; q_tail := 0 |}.

Lemma full_ring_wf : queue_wf full_ring.
Proof. eexists _, _. split; [reflexivity|]. constructor; simpl; by (lia || done). Qed.

Lemma push_policy_accounting_witness :
  runs (cf_queue_push_policy (fun _ => false) (fun i => 0%nat) full_ring (Some [9])
          (fifo_element_size full_ring) CF_ONFULL_DROP_OLDEST (Some 5))
    (fun '(rc, q', ctr', xs) =>
       fifo_wf q' /\ fifo_bound q' = fifo_bound full_ring /\
       push_outcome CF_ONFULL_DROP_OLDEST full_ring [9] (Some 5) rc q' ctr' xs).
Proof.
  apply push_policy_accounting; [exact full_ring_wf|reflexivity|].
  split; unfold CF_QUEUE_POLICY_MAX_ELEMENT_SIZE; simpl; lia.
Defined.

Lemma push_block_progress_witness :
  runs (cf_queue_push_policy (fun _ => false) (fun i => if (i =? 7)%nat then 1%nat else 0%nat)
          full_ring (Some [9]) (fifo_element_size full_ring) CF_ONFULL_BLOCK None)
    (fun '(rc, q', ctr', xs) => rc = 0 /\ ctr' = None).
Proof.
  apply (push_block_progress _ _ full_ring [9] None 7);
    [exact full_ring_wf|reflexivity| |unfold CF_QUEUE_POLICY_BLOCK_MAX_RETRIES; lia|done|
     vm_compute; lia].
  split; unfold CF_QUEUE_POLICY_MAX_ELEMENT_SIZE; simpl; lia.
Defined.

(** The guards: a missing element, a wrong or oversized element size, or a
    NULL queue is refused and nothing changes. *)
Theorem push_policy_rejects stop consumer queue element element_size policy ctr :
  element = None \/ queue = None \/ element_size = 0 \/
  element_size <> queue_element_size queue \/ 65536 < element_size ->
  cf_queue_push_policy stop consumer queue element element_size policy ctr =
    Ret (-1, queue, ctr, []).
Proof.
  intros Hbad. unfold cf_queue_push_policy, CF_QUEUE_POLICY_MAX_ELEMENT_SIZE.
  destruct element as [e|]; [|done]. simpl.
  destruct (_ || _) eqn:E; [done|].
  destruct Hbad as [?|[->|[?|[?|?]]]]; [done|done|lia..].
Qed.

Lemma push_policy_rejects_witness :
  cf_queue_push_policy (fun _ => false) (fun _ => 0%nat) full_ring (Some [9; 9]) 2
    CF_ONFULL_DROP_OLDEST (Some 5) = Ret (-1, full_ring, Some 5, []).
Proof. apply push_policy_rejects. right; right; right; left. discriminate. Defined.

(** A push into [q] loses nothing uncounted: what is queued, what the consumer
    took meanwhile and the drops grow by the one element. *)
Lemma push_flow {Q : Type} `{BoundedFifo Q} policy (q : Q) e d rc q' ctr xs : fifo_wf q ->
  push_outcome policy q e (Some d) rc q' ctr xs ->
  exists d', ctr = Some d' /\
    u64 (d' + (zlen (fifo_items q') + zlen xs)) = u64 (d + (zlen (fifo_items q) + 1)).
Proof.
  intros Hwf Ho. pose proof (fifo_bound_pos q Hwf). unfold push_outcome in Ho.
  assert (forall n n', n' = n -> u64 (u64 (d + 1) + n') = u64 (d + (n + 1))) as Hinc
    by (intros n n' ->; rewrite u64_add; f_equal; lia).
  destruct (zlen (fifo_items q) <? fifo_bound q) eqn:E.
  { destruct Ho as (_ & -> & -> & ->). exists d. split; [done|]. rewrite length_app. f_equal. simpl. lia. }
  destruct policy.
  - destruct Ho as (_ & -> & -> & ->). eexists. split; [reflexivity|]. apply Hinc. simpl. lia.
  - destruct Ho as (_ & Hi & -> & ->). eexists. split; [reflexivity|]. apply Hinc.
    rewrite Hi, length_app. destruct (fifo_items q); simpl in *; lia.
  - destruct Ho as [(_ & Hi & ->)|(_ & Hi & ->)]; apply (f_equal length) in Hi;
      rewrite !length_app in Hi; simpl in Hi.
    + exists d. split; [done|]. f_equal. lia.
    + eexists. split; [reflexivity|]. apply Hinc. lia.
Qed.

(** What was queued or taken meanwhile stays in the order of the pushes. *)
Lemma push_order {Q : Type} `{BoundedFifo Q} policy (q : Q) e ctr rc q' ctr' xs :
  push_outcome policy q e ctr rc q' ctr' xs ->
  xs ++ fifo_items q' `sublist_of` fifo_items q ++ [e].
Proof.
  unfold push_outcome. destruct (_ <? _); [by intros (_ & -> & _ & ->)|]. destruct policy.
  - intros (_ & -> & _ & ->). by apply sublist_inserts_r.
  - intros (_ & -> & _ & ->). rewrite app_nil_l. apply sublist_app; [|reflexivity].
    destruct (fifo_items q); [reflexivity|]. by apply sublist_cons.
  - intros [(_ & -> & _)|(_ & -> & _)]; [done|by apply sublist_inserts_r].
Qed.
