(* ===== verification/QueueSpsc.v ===== *)
(** * QueueSpsc: the atomic steps of [cf_queue.c] under two threads

    [cf_queue_push] and [cf_queue_pop] are split at their atomic accesses and
    at the two halves of their [memcpy], and a producer and a consumer
    interleave those steps on one shared ring.  An element is a pair of words,
    so that a copy taken half before and half after an overwrite shows as a
    torn pair.  Steps interleave one at a time: this is the order the
    release/acquire pairings of the code establish between an index and the
    slot it publishes; no weaker behaviour of the two indices is modelled.

    [pushed] and [popped] are history variables: the elements published by the
    producer and those handed to the consumer. *)

From S2P Require Import Prelude.

Abbreviation word2 := (Z * Z)%type.

Inductive producer_pc : Type :=
| PIdle
| PHead (e : word2) (head : Z)        (* own head loaded *)
| PCopy0 (e : word2) (head next : Z)  (* room seen; nothing copied *)
| PCopy1 (e : word2) (head next : Z)  (* first half copied *)
| PStore (e : word2) (next : Z)       (* element copied, head not yet published *)
| DTail (tail : Z)                    (* [cf_queue_drop]: tail loaded *)
| DStore (tail : Z).                  (* [cf_queue_drop]: not empty *)

Inductive consumer_pc : Type :=
| CIdle
| CTail (tail : Z)
| CCopy0 (tail : Z)
| CCopy1 (tail lo : Z)
| CStore (tail : Z) (x : word2).

Record ring := {
  r_slots : Z -> word2;
  r_head : Z;
  r_tail : Z;
  r_prod : producer_pc;
  r_cons : consumer_pc;
  r_pushed : list word2;
  r_popped : list word2
}.

Definition ring_init : ring :=
  {| r_slots := fun _ => (0, 0); r_head := 0; r_tail := 0;
     r_prod := PIdle; r_cons := CIdle; r_pushed := []; r_popped := [] |}.

Definition upd (f : Z -> word2) (i : Z) (v : word2) : Z -> word2 :=
  fun j => if j =? i then v else f j.

Definition with_prod (s : ring) (p : producer_pc) : ring :=
  {| r_slots := r_slots s; r_head := r_head s; r_tail := r_tail s; r_prod := p;
     r_cons := r_cons s; r_pushed := r_pushed s; r_popped := r_popped s |}.

Definition with_cons (s : ring) (c : consumer_pc) : ring :=
  {| r_slots := r_slots s; r_head := r_head s; r_tail := r_tail s; r_prod := r_prod s;
     r_cons := c; r_pushed := r_pushed s; r_popped := r_popped s |}.

Definition with_slot (s : ring) (i : Z) (v : word2) (p : producer_pc) : ring :=
  {| r_slots := upd (r_slots s) i v; r_head := r_head s; r_tail := r_tail s; r_prod := p;
     r_cons := r_cons s; r_pushed := r_pushed s; r_popped := r_popped s |}.

(** The next atomic step of the thread inside [cf_queue_push] or, for a
    producer that evicts, [cf_queue_drop]. *)
Definition producer_step (capacity : Z) (s : ring) : ring :=
  match r_prod s with
  | PIdle => s
  | PHead e head =>
      let next := (head + 1) mod capacity in
      let tail := r_tail s in
      if next =? tail then with_prod s PIdle else with_prod s (PCopy0 e head next)
  | PCopy0 e head next => with_slot s head (e.1, (r_slots s head).2) (PCopy1 e head next)
  | PCopy1 e head next => with_slot s head ((r_slots s head).1, e.2) (PStore e next)
  | PStore e next =>
      {| r_slots := r_slots s; r_head := next; r_tail := r_tail s; r_prod := PIdle;
         r_cons := r_cons s; r_pushed := r_pushed s ++ [e]; r_popped := r_popped s |}
  | DTail tail =>
      if tail =? r_head s then with_prod s PIdle else with_prod s (DStore tail)
  | DStore tail =>
      {| r_slots := r_slots s; r_head := r_head s; r_tail := (tail + 1) mod capacity;
         r_prod := PIdle; r_cons := r_cons s; r_pushed := r_pushed s;
         r_popped := r_popped s |}
  end.

(** The next atomic step of the thread inside [cf_queue_pop]. *)
Definition consumer_step (capacity : Z) (s : ring) : ring :=
  match r_cons s with
  | CIdle => with_cons s (CTail (r_tail s))
  | CTail tail =>
      if tail =? r_head s then with_cons s CIdle else with_cons s (CCopy0 tail)
  | CCopy0 tail => with_cons s (CCopy1 tail (r_slots s tail).1)
  | CCopy1 tail lo => with_cons s (CStore tail (lo, (r_slots s tail).2))
  | CStore tail x =>
      {| r_slots := r_slots s; r_head := r_head s; r_tail := (tail + 1) mod capacity;
         r_prod := r_prod s; r_cons := CIdle; r_pushed := r_pushed s;
         r_popped := r_popped s ++ [x] |}
  end.

(** A schedule: who moves next, and what a fresh producer call does. *)
Inductive action : Type :=
| CallPush (e : word2)
| CallDrop
| Producer
| Consumer.

Definition act (capacity : Z) (s : ring) (a : action) : ring :=
  match a with
  | CallPush e => match r_prod s with PIdle => with_prod s (PHead e (r_head s)) | _ => s end
  | CallDrop => match r_prod s with PIdle => with_prod s (DTail (r_tail s)) | _ => s end
  | Producer => producer_step capacity s
  | Consumer => consumer_step capacity s
  end.

Definition schedule (capacity : Z) (acts : list action) : ring :=
  foldl (act capacity) ring_init acts.

Definition no_drop (a : action) : Prop := a <> CallDrop.

(** ** The invariant of the push/pop protocol *)

Definition r_count (capacity : Z) (s : ring) : Z := (r_head s - r_tail s) mod capacity.

(** The elements between [tail] and [head] are the published ones not yet
    popped, in order. *)
Definition ring_content (capacity : Z) (s : ring) : Prop :=
  zlen (r_pushed s) = zlen (r_popped s) + r_count capacity s /\
  take (length (r_popped s)) (r_pushed s) = r_popped s /\
  forall i, 0 <= i < r_count capacity s ->
    r_pushed s !! Z.to_nat (zlen (r_popped s) + i) =
      Some (r_slots s ((r_tail s + i) mod capacity)).

Definition producer_inv (capacity : Z) (s : ring) : Prop :=
  match r_prod s with
  | PIdle => True
  | PHead e head => head = r_head s
  | PCopy0 e head next | PCopy1 e head next =>
      head = r_head s /\ next = (r_head s + 1) mod capacity /\
      r_count capacity s < capacity - 1 /\
      (match r_prod s with PCopy1 _ _ _ => (r_slots s head).1 = e.1 | _ => True end)
  | PStore e next =>
      next = (r_head s + 1) mod capacity /\ r_count capacity s < capacity - 1 /\
      r_slots s (r_head s) = e
  | DTail _ | DStore _ => False
  end.

Definition consumer_inv (capacity : Z) (s : ring) : Prop :=
  match r_cons s with
  | CIdle => True
  | CTail tail => tail = r_tail s
  | CCopy0 tail => tail = r_tail s /\ 0 < r_count capacity s
  | CCopy1 tail lo => tail = r_tail s /\ 0 < r_count capacity s /\ lo = (r_slots s tail).1
  | CStore tail x => tail = r_tail s /\ 0 < r_count capacity s /\ x = r_slots s tail
  end.

Record ring_inv (capacity : Z) (s : ring) : Prop := {
  inv_head : 0 <= r_head s < capacity;
  inv_tail : 0 <= r_tail s < capacity;
  inv_content : ring_content capacity s;
  inv_prod : producer_inv capacity s;
  inv_cons : consumer_inv capacity s
}.

Section Invariant.
Variable capacity : Z.
Hypothesis cap_ok : 2 <= capacity.

Lemma ring_inv_init : ring_inv capacity ring_init.
Proof.
  constructor; simpl; try lia; try done.
  split_and!; try done; intros; unfold r_count in *; simpl in *;
    rewrite Z.mod_0_l in * by lia; lia || done.
Qed.

Lemma r_count_bound s : 0 <= r_count capacity s < capacity.
Proof. apply Z.mod_pos_bound. lia. Qed.

(** A full ring is one whose next head would meet the tail. *)
Lemma count_not_full s :
  0 <= r_head s < capacity -> 0 <= r_tail s < capacity ->
  (r_head s + 1) mod capacity <> r_tail s -> r_count capacity s < capacity - 1.
Proof. intros Hh Ht. unfold r_count. rewrite !mod_wrap by lia. repeat case_match; lia. Qed.

Lemma count_not_empty s :
  0 <= r_head s < capacity -> 0 <= r_tail s < capacity ->
  r_tail s <> r_head s -> 0 < r_count capacity s.
Proof. intros Hh Ht. unfold r_count. rewrite !mod_wrap by lia. repeat case_match; lia. Qed.

(** No queued slot is the one at [head]. *)
Lemma head_not_queued s i :
  0 <= r_head s < capacity -> 0 <= r_tail s < capacity ->
  0 <= i < r_count capacity s -> (r_tail s + i) mod capacity <> r_head s.
Proof.
  intros Hh Ht. pose proof (r_count_bound s) as Hb. unfold r_count in *.
  rewrite (mod_wrap (r_head s - r_tail s)) in * by lia.
  intros Hi. rewrite mod_wrap by (repeat case_match; lia). repeat case_match; lia.
Qed.

Lemma tail_queued s :
  0 <= r_tail s < capacity -> (r_tail s + 0) mod capacity = r_tail s.
Proof. intros Ht. rewrite Z.add_0_r. by apply Z.mod_small. Qed.

(** Writing the slot at [head] keeps the queued elements. *)
Lemma content_slot s v p :
  0 <= r_head s < capacity -> 0 <= r_tail s < capacity ->
  ring_content capacity s ->
  ring_content capacity (with_slot s (r_head s) v p).
Proof.
  intros Hh Ht (Hlen & Hpre & Hq). split_and!; try done.
  intros i Hi. simpl. unfold upd.
  pose proof (head_not_queued s i Hh Ht Hi) as Hne.
  destruct (_ =? r_head s) eqn:E; [lia|]. by apply Hq.
Qed.

Lemma consumer_slot s v p :
  0 <= r_head s < capacity -> 0 <= r_tail s < capacity ->
  consumer_inv capacity s -> consumer_inv capacity (with_slot s (r_head s) v p).
Proof.
  intros Hh Ht. unfold consumer_inv. simpl.
  assert (0 < r_count capacity s -> upd (r_slots s) (r_head s) v (r_tail s) =
            r_slots s (r_tail s)) as Hu.
  { intros Hc. pose proof (head_not_queued s 0 Hh Ht ltac:(lia)) as Hne.
    rewrite tail_queued in Hne by lia. unfold upd.
    destruct (_ =? r_head s) eqn:E; [lia|done]. }
  destruct (r_cons s); try done;
    intros (-> & Hc & ->); rewrite Hu by done; done.
Qed.

Lemma publish_count s e next cs :
  0 <= r_head s < capacity -> 0 <= r_tail s < capacity ->
  r_count capacity s < capacity - 1 -> next = (r_head s + 1) mod capacity ->
  r_count capacity {| r_slots := r_slots s; r_head := next; r_tail := r_tail s;
    r_prod := PIdle; r_cons := cs; r_pushed := r_pushed s ++ [e];
    r_popped := r_popped s |} = r_count capacity s + 1.
Proof.
  intros Hh Ht Hc ->. unfold r_count in *. simpl.
  rewrite (mod_wrap (r_head s + 1)) by lia. rewrite (mod_wrap (r_head s - r_tail s)) in * by lia.
  repeat case_match; try lia; rewrite mod_wrap by lia; repeat case_match; lia.
Qed.

Lemma release_count s x ps :
  0 <= r_head s < capacity -> 0 <= r_tail s < capacity -> 0 < r_count capacity s ->
  r_count capacity {| r_slots := r_slots s; r_head := r_head s;
    r_tail := (r_tail s + 1) mod capacity; r_prod := ps; r_cons := CIdle;
    r_pushed := r_pushed s; r_popped := r_popped s ++ [x] |} = r_count capacity s - 1.
Proof.
  intros Hh Ht Hc. unfold r_count in *. simpl.
  rewrite (mod_wrap (r_tail s + 1)) by lia. rewrite (mod_wrap (r_head s - r_tail s)) in * by lia.
  repeat case_match; try lia; rewrite mod_wrap by lia; repeat case_match; lia.
Qed.

Lemma publish_content s e next cs :
  0 <= r_head s < capacity -> 0 <= r_tail s < capacity ->
  r_count capacity s < capacity - 1 -> next = (r_head s + 1) mod capacity ->
  r_slots s (r_head s) = e -> ring_content capacity s ->
  ring_content capacity {| r_slots := r_slots s; r_head := next; r_tail := r_tail s;
    r_prod := PIdle; r_cons := cs; r_pushed := r_pushed s ++ [e];
    r_popped := r_popped s |}.
Proof.
  intros Hh Ht Hc Hn He (Hlen & Hpre & Hq).
  pose proof (r_count_bound s) as Hb.
  unfold ring_content. rewrite publish_count by done. simpl.
  split_and!; [rewrite length_app; simpl; lia| |].
  - rewrite take_app_le by lia. done.
  - intros i Hi. destruct (decide (i = r_count capacity s)) as [->|Hne].
    + rewrite lookup_app_r by lia.
      replace (_ - _)%nat with 0%nat by lia. simpl. f_equal. rewrite <- He. f_equal.
      unfold r_count. rewrite Zplus_mod_idemp_r.
      replace (r_tail s + (r_head s - r_tail s)) with (r_head s) by lia.
      symmetry. by apply Z.mod_small.
    + rewrite lookup_app_l by lia. apply Hq. lia.
Qed.

Lemma release_content s x ps :
  0 <= r_head s < capacity -> 0 <= r_tail s < capacity -> 0 < r_count capacity s ->
  x = r_slots s (r_tail s) -> ring_content capacity s ->
  ring_content capacity {| r_slots := r_slots s; r_head := r_head s;
    r_tail := (r_tail s + 1) mod capacity; r_prod := ps; r_cons := CIdle;
    r_pushed := r_pushed s; r_popped := r_popped s ++ [x] |}.
Proof.
  intros Hh Ht Hc Hx (Hlen & Hpre & Hq).
  unfold ring_content. rewrite release_count by done. simpl.
  rewrite length_app. simpl. split_and!; [lia| |].
  - pose proof (Hq 0 ltac:(lia)) as H0. rewrite tail_queued in H0 by done.
    replace (length (r_popped s) + 1)%nat with (S (length (r_popped s))) by lia.
    erewrite take_S_r by (rewrite <- H0; f_equal; lia). by rewrite Hpre, Hx.
  - intros i Hi. rewrite Zplus_mod_idemp_l.
    replace (r_tail s + 1 + i) with (r_tail s + (i + 1)) by lia.
    rewrite <- Hq by lia. f_equal. lia.
Qed.

Lemma producer_preserves s :
  ring_inv capacity s -> ring_inv capacity (producer_step capacity s).
Proof.
  intros [Hh Ht Hcont Hp Hcons]. unfold producer_inv in Hp.
  unfold producer_step. destruct (r_prod s) as [|e h|e h n|e h n|e n|t|t] eqn:Epc; try done.
  - constructor; try done. by unfold producer_inv; rewrite Epc.
  - subst h. destruct (_ =? r_tail s) eqn:E; constructor; try done. simpl.
    split_and!; try done. apply (count_not_full s); [done..|by apply Z.eqb_neq].
  - destruct Hp as (-> & -> & Hc & _).
    constructor; try done; [by apply content_slot| |by apply consumer_slot].
    simpl. split_and!; try done. simpl. unfold upd. by rewrite Z.eqb_refl.
  - destruct Hp as (-> & -> & Hc & Hlo).
    constructor; try done; [by apply content_slot| |by apply consumer_slot].
    simpl. split_and!; try done. simpl. unfold upd. rewrite Z.eqb_refl. simpl in Hlo. rewrite Hlo. by destruct e.
  - destruct Hp as (Hn & Hc & He).
    constructor; simpl; [rewrite Hn; apply Z.mod_pos_bound; lia|done|
      by apply publish_content|done|].
    unfold consumer_inv in *. simpl. rewrite publish_count by done.
    destruct (r_cons s); try done; destruct_and!; split_and!; done || lia.
Qed.

Lemma consumer_preserves s :
  ring_inv capacity s -> ring_inv capacity (consumer_step capacity s).
Proof.
  intros [Hh Ht Hcont Hp Hcons]. unfold consumer_inv in Hcons.
  unfold consumer_step. destruct (r_cons s) as [|t|t|t lo|t x] eqn:Epc.
  - by constructor.
  - subst t. destruct (r_tail s =? r_head s) eqn:E; constructor; try done. simpl.
    split; [done|]. apply (count_not_empty s); lia.
  - destruct Hcons as [-> Hc]. by constructor.
  - destruct Hcons as (-> & Hc & ->). constructor; try done. simpl.
    split_and!; try done. simpl. symmetry. apply surjective_pairing.
  - destruct Hcons as (-> & Hc & Hx).
    constructor; simpl; [done|apply Z.mod_pos_bound; lia| | |done].
    { by apply (release_content s x (r_prod s)). }
    unfold producer_inv in *. simpl. rewrite release_count by done.
    destruct (r_prod s); try done; destruct_and!; split_and!; done || lia.
Qed.

Lemma act_preserves s a : no_drop a -> ring_inv capacity s -> ring_inv capacity (act capacity s a).
Proof.
  intros Ha Hinv. destruct a as [e| | |]; simpl; try done.
  - destruct (r_prod s) eqn:Epc; try done. destruct Hinv. by constructor.
  - by apply producer_preserves.
  - by apply consumer_preserves.
Qed.

Lemma schedule_inv acts : Forall no_drop acts -> ring_inv capacity (schedule capacity acts).
Proof.
  intros Hacts. unfold schedule. pose proof ring_inv_init as Hinit.
  revert Hinit. generalize ring_init. induction Hacts as [|a acts Ha Hacts IH]; intros s Hs;
    simpl; [done|]. apply IH. by apply act_preserves.
Qed.
End Invariant.

(** C33. One producer that only pushes and one consumer: under every
    interleaving of their atomic steps the consumer has received exactly a
    prefix of what was pushed, in order, whole (no torn, lost, duplicated or
    reordered element), and what is left fits in the ring. *)
Theorem spsc_fifo capacity acts :
  2 <= capacity -> Forall no_drop acts ->
  let s := schedule capacity acts in
  exists rest, r_pushed s = r_popped s ++ rest /\ zlen rest < capacity.
Proof.
  intros Hcap Hacts s. destruct (schedule_inv capacity Hcap acts Hacts) as [_ _ Hcont _ _].
  fold s in Hcont. destruct Hcont as (Hlen & Hpre & _).
  pose proof (r_count_bound capacity Hcap s).
  exists (drop (length (r_popped s)) (r_pushed s)). split.
  - by rewrite <- Hpre at 1; rewrite take_drop.
  - rewrite length_drop. lia.
Qed.

Lemma spsc_fifo_witness :
  2 <= 2 /\
  exists rest,
    r_pushed (schedule 2 [CallPush (1, 2); Producer; Producer; Consumer; Producer; Producer;
                          Consumer; Consumer; Consumer; Consumer; Consumer]) =
    r_popped (schedule 2 [CallPush (1, 2); Producer; Producer; Consumer; Producer; Producer;
                          Consumer; Consumer; Consumer; Consumer; Consumer]) ++ rest
    /\ zlen rest < 2.
Proof. split; [lia|]. apply (spsc_fifo 2); [lia|]. repeat constructor; discriminate. Defined.

(** ** A producer that evicts *)

(** Under [CF_ONFULL_DROP_OLDEST] the producer calls [cf_queue_drop], so both
    threads write [tail].  The calls below are those of three
    [cf_queue_push_policy] pushes of (1,1), (2,2), (3,3) into a queue with one
    usable slot, the last two finding it full, while the consumer is between
    the two halves of its copy of the first element. *)
Definition drop_oldest_trace : list action :=
  [ CallPush (1, 1); Producer; Producer; Producer; Producer;
    Consumer; Consumer; Consumer;
    CallPush (2, 2); Producer; CallDrop; Producer; Producer;
    CallPush (2, 2); Producer; Producer; Producer; Producer;
    CallPush (3, 3); Producer; CallDrop; Producer; Producer;
    CallPush (3, 3); Producer; Producer; Producer; Producer;
    Consumer; Consumer ].

(** The single-consumer contract of [cf_queue] does not extend to an
    evicting producer: there is an interleaving of [CF_ONFULL_DROP_OLDEST]
    pushes with one pop in which the consumer is handed an element that nobody
    pushed (half of one element, half of another). *)
Theorem drop_oldest_tears :
  exists acts x,
    x ∈ r_popped (schedule 2 acts) /\ x ∉ r_pushed (schedule 2 acts).
Proof.
  exists drop_oldest_trace, (1, 3).
  assert (r_popped (schedule 2 drop_oldest_trace) = [(1, 3)]) as -> by reflexivity.
  assert (r_pushed (schedule 2 drop_oldest_trace) = [(1, 1); (2, 2); (3, 3)]) as -> by reflexivity.
  split; [left|]. rewrite !not_elem_of_cons. split_and!; try done. apply not_elem_of_nil.
Qed.
