(* ===== verification/RedisSlot.v ===== *)
(** * RedisSlot: Redis Cluster key slots
    ([libs/cloudflow-redis/cf_redis_slot.c])

    The table-driven CRC16 and the hash-tag rule.  The reference is the
    bit-by-bit CRC of the polynomial the source names (0x1021, no reflection,
    zero start value); the slot theorems say which bytes of a key are hashed. *)

From S2P Require Import Prelude.

Definition crc16tab : list Z := [
    0x0000; 0x1021; 0x2042; 0x3063; 0x4084; 0x50a5; 0x60c6; 0x70e7;
    0x8108; 0x9129; 0xa14a; 0xb16b; 0xc18c; 0xd1ad; 0xe1ce; 0xf1ef;
    0x1231; 0x0210; 0x3273; 0x2252; 0x52b5; 0x4294; 0x72f7; 0x62d6;
    0x9339; 0x8318; 0xb37b; 0xa35a; 0xd3bd; 0xc39c; 0xf3ff; 0xe3de;
    0x2462; 0x3443; 0x0420; 0x1401; 0x64e6; 0x74c7; 0x44a4; 0x5485;
    0xa56a; 0xb54b; 0x8528; 0x9509; 0xe5ee; 0xf5cf; 0xc5ac; 0xd58d;
    0x3653; 0x2672; 0x1611; 0x0630; 0x76d7; 0x66f6; 0x5695; 0x46b4;
    0xb75b; 0xa77a; 0x9719; 0x8738; 0xf7df; 0xe7fe; 0xd79d; 0xc7bc;
    0x48c4; 0x58e5; 0x6886; 0x78a7; 0x0840; 0x1861; 0x2802; 0x3823;
    0xc9cc; 0xd9ed; 0xe98e; 0xf9af; 0x8948; 0x9969; 0xa90a; 0xb92b;
    0x5af5; 0x4ad4; 0x7ab7; 0x6a96; 0x1a71; 0x0a50; 0x3a33; 0x2a12;
    0xdbfd; 0xcbdc; 0xfbbf; 0xeb9e; 0x9b79; 0x8b58; 0xbb3b; 0xab1a;
    0x6ca6; 0x7c87; 0x4ce4; 0x5cc5; 0x2c22; 0x3c03; 0x0c60; 0x1c41;
    0xedae; 0xfd8f; 0xcdec; 0xddcd; 0xad2a; 0xbd0b; 0x8d68; 0x9d49;
    0x7e97; 0x6eb6; 0x5ed5; 0x4ef4; 0x3e13; 0x2e32; 0x1e51; 0x0e70;
    0xff9f; 0xefbe; 0xdfdd; 0xcffc; 0xbf1b; 0xaf3a; 0x9f59; 0x8f78;
    0x9188; 0x81a9; 0xb1ca; 0xa1eb; 0xd10c; 0xc12d; 0xf14e; 0xe16f;
    0x1080; 0x00a1; 0x30c2; 0x20e3; 0x5004; 0x4025; 0x7046; 0x6067;
    0x83b9; 0x9398; 0xa3fb; 0xb3da; 0xc33d; 0xd31c; 0xe37f; 0xf35e;
    0x02b1; 0x1290; 0x22f3; 0x32d2; 0x4235; 0x5214; 0x6277; 0x7256;
    0xb5ea; 0xa5cb; 0x95a8; 0x8589; 0xf56e; 0xe54f; 0xd52c; 0xc50d;
    0x34e2; 0x24c3; 0x14a0; 0x0481; 0x7466; 0x6447; 0x5424; 0x4405;
    0xa7db; 0xb7fa; 0x8799; 0x97b8; 0xe75f; 0xf77e; 0xc71d; 0xd73c;
    0x26d3; 0x36f2; 0x0691; 0x16b0; 0x6657; 0x7676; 0x4615; 0x5634;
    0xd94c; 0xc96d; 0xf90e; 0xe92f; 0x99c8; 0x89e9; 0xb98a; 0xa9ab;
    0x5844; 0x4865; 0x7806; 0x6827; 0x18c0; 0x08e1; 0x3882; 0x28a3;
    0xcb7d; 0xdb5c; 0xeb3f; 0xfb1e; 0x8bf9; 0x9bd8; 0xabbb; 0xbb9a;
    0x4a75; 0x5a54; 0x6a37; 0x7a16; 0x0af1; 0x1ad0; 0x2ab3; 0x3a92;
    0xfd2e; 0xed0f; 0xdd6c; 0xcd4d; 0xbdaa; 0xad8b; 0x9de8; 0x8dc9;
    0x7c26; 0x6c07; 0x5c64; 0x4c45; 0x3ca2; 0x2c83; 0x1ce0; 0x0cc1;
    0xef1f; 0xff3e; 0xcf5d; 0xdf7c; 0xaf9b; 0xbfba; 0x8fd9; 0x9ff8;
    0x6e17; 0x7e36; 0x4e55; 0x5e74; 0x2e93; 0x3eb2; 0x0ed1; 0x1ef0 ].

Definition CF_REDIS_NUM_SLOTS : Z := 16384.

(** One iteration of the loop: the next CRC from the current one and a byte. *)
Definition crc16_step (crc b : Z) : exec Z :=
  t ← rd crc16tab (Z.land (Z.lxor (Z.shiftr crc 8) b) 255);
  Ret (u16 (Z.lxor (Z.shiftl crc 8) t)).

Fixpoint crc16_loop (crc : Z) (buf : list Z) : exec Z :=
  match buf with
  | [] => Ret crc
  | b :: buf' => crc' ← crc16_step crc b; crc16_loop crc' buf'
  end.

Definition cf_redis_crc16 (buf : list Z) : exec Z := crc16_loop 0 buf.

(** [for (s = start; s < len; s++) if (key[s] == c) break;] *)
Fixpoint scan (n : nat) (key : list Z) (c s : Z) : exec Z :=
  match n with
  | O => Ret s
  | S n' => k ← rd key s; if k =? c then Ret s else scan n' key c (s + 1)
  end.

Definition cf_redis_key_slot (key : list Z) : exec Z :=
  let len := zlen key in
  s ← scan (Z.to_nat len) key 123 0;
  if s =? len then
    crc ← cf_redis_crc16 key; Ret (u16 (crc mod CF_REDIS_NUM_SLOTS))
  else
    e ← scan (Z.to_nat (len - (s + 1))) key 125 (s + 1);
    if (e =? len) || (e =? s + 1) then
      crc ← cf_redis_crc16 key; Ret (u16 (crc mod CF_REDIS_NUM_SLOTS))
    else
      tag ← rd_n key (s + 1) (e - s - 1);
      crc ← cf_redis_crc16 tag; Ret (u16 (crc mod CF_REDIS_NUM_SLOTS)).

(** ** The reference CRC *)

Definition crc_bit (c : Z) : Z :=
  Z.lxor (u16 (Z.shiftl c 1)) (if Z.testbit c 15 then 4129 else 0).

Definition crc_bits8 (c : Z) : Z := Nat.iter 8 crc_bit c.

(** Shift a byte into the register, one bit at a time. *)
Definition crc_ref_step (crc b : Z) : Z := crc_bits8 (Z.lxor crc (Z.shiftl b 8)).

Definition crc_ref (buf : list Z) : Z := foldl crc_ref_step 0 buf.

Lemma u16_land z : u16 z = Z.land z 65535.
Proof. symmetry. apply (Z.land_ones z 16). lia. Qed.

Lemma land_lxor_l a b m : Z.land (Z.lxor a b) m = Z.lxor (Z.land a m) (Z.land b m).
Proof.
  apply Z.bits_inj'. intros i _. rewrite Z.land_spec, !Z.lxor_spec, !Z.land_spec.
  by destruct (Z.testbit a i), (Z.testbit b i), (Z.testbit m i).
Qed.

Lemma crc_bit_linear x y : crc_bit (Z.lxor x y) = Z.lxor (crc_bit x) (crc_bit y).
Proof.
  unfold crc_bit. rewrite !u16_land, Z.shiftl_lxor, land_lxor_l, Z.lxor_spec.
  apply Z.bits_inj'. intros i _. rewrite !Z.lxor_spec.
  destruct (Z.testbit x 15), (Z.testbit y 15); simpl xorb;
    rewrite ?Z.bits_0; by destruct (Z.testbit _ i), (Z.testbit _ i), (Z.testbit 4129 i).
Qed.

Lemma crc_bits8_linear x y : crc_bits8 (Z.lxor x y) = Z.lxor (crc_bits8 x) (crc_bits8 y).
Proof. unfold crc_bits8. simpl. by rewrite !crc_bit_linear. Qed.

(** Two finite facts about bytes, by evaluation: the low half of the register
    only shifts, and the table holds the CRC of each high half. *)
Definition crc_table_ok : bool :=
  forallb (fun n => let k := Z.of_nat n in
    (crc_bits8 k =? Z.shiftl k 8) &&
    match crc16tab !! n with
    | Some t => (crc_bits8 (Z.shiftl k 8) =? t) && (0 <=? t) && (t <? 65536)
    | None => false
    end) (seq 0 256).

Lemma crc_table_checked : crc_table_ok = true.
Proof. vm_compute. reflexivity. Qed.

Lemma crc_table_byte k : is_byte k ->
  crc_bits8 k = Z.shiftl k 8 /\
  exists t, rd crc16tab k = Ret t /\ crc_bits8 (Z.shiftl k 8) = t /\ 0 <= t < 65536.
Proof.
  intros Hk. pose proof crc_table_checked as H. unfold crc_table_ok in H.
  rewrite forallb_forall in H.
  specialize (H (Z.to_nat k)). rewrite in_seq in H.
  specialize (H ltac:(unfold is_byte in Hk; lia)). simpl in H.
  unfold is_byte in Hk. rewrite Z2Nat.id in H by lia.
  destruct (crc16tab !! Z.to_nat k) as [t|] eqn:E; [|lia].
  split; [lia|]. exists t. split; [apply rd_lookup; [lia|done]|]. lia.
Qed.

Lemma high_low crc b : 0 <= crc ->
  Z.lxor crc (Z.shiftl b 8) =
  Z.lxor (Z.land crc 255) (Z.shiftl (Z.lxor (Z.shiftr crc 8) b) 8).
Proof.
  intros Hc. rewrite Z.shiftl_lxor, <- Z.lxor_assoc. f_equal.
  change 255 with (Z.ones 8). apply Z.bits_inj'. intros i Hi.
  rewrite Z.lxor_spec, Z.land_spec, Z.testbit_ones_nonneg by lia.
  destruct (Z.ltb_spec i 8) as [Hlt|Hge].
  - rewrite Z.shiftl_spec_low by lia. by rewrite andb_true_r, xorb_false_r.
  - rewrite Z.shiftl_spec, Z.shiftr_spec by lia. rewrite andb_false_r. simpl.
    f_equal. lia.
Qed.

Lemma high_byte crc b : 0 <= crc < 65536 -> is_byte b -> is_byte (Z.lxor (Z.shiftr crc 8) b).
Proof.
  intros Hc Hb.
  assert (Z.lxor (Z.shiftr crc 8) b = Z.land (Z.lxor (Z.shiftr crc 8) b) (Z.ones 8)) as ->.
  { change (Z.ones 8) with 255. rewrite land_lxor_l. change 255 with (Z.ones 8).
    rewrite !Z.land_ones by lia.
    rewrite Z.shiftr_div_pow2 by lia.
    rewrite (Z.mod_small b) by exact Hb. rewrite Z.mod_small; [done|].
    split; [apply Z.div_pos; lia|]. apply Z.div_lt_upper_bound; lia. }
  rewrite Z.land_ones by lia. apply (Z.mod_pos_bound _ 256). lia.
Qed.

Lemma crc16_step_ref crc b : 0 <= crc < 65536 -> is_byte b ->
  crc16_step crc b = Ret (crc_ref_step crc b) /\ 0 <= crc_ref_step crc b < 65536.
Proof.
  intros Hc Hb. unfold crc16_step, crc_ref_step. rewrite high_low by lia.
  pose proof (high_byte crc b Hc Hb) as Hk.
  replace (Z.land (Z.lxor (Z.shiftr crc 8) b) 255) with (Z.lxor (Z.shiftr crc 8) b)
    by (change 255 with (Z.ones 8); rewrite Z.land_ones by lia;
        symmetry; by apply Z.mod_small).
  destruct (crc_table_byte _ Hk) as [_ (t & -> & Ht & Htb)]. simpl.
  assert (is_byte (Z.land crc 255)) as Hlow.
  { change 255 with (Z.ones 8). rewrite Z.land_ones by lia. apply (Z.mod_pos_bound _ 256). lia. }
  rewrite crc_bits8_linear, Ht. destruct (crc_table_byte _ Hlow) as [-> _].
  assert (u16 (Z.lxor (Z.shiftl crc 8) t) = Z.lxor (Z.shiftl (Z.land crc 255) 8) t) as <-.
  { rewrite u16_land, land_lxor_l, <- !u16_land, (u16_id t) by done. f_equal.
    change 255 with (Z.ones 8). rewrite Z.land_ones by lia.
    rewrite !Z.shiftl_mul_pow2 by lia. unfold u16.
    change (2 ^ 16) with (2 ^ 8 * 2 ^ 8). rewrite Z.mul_mod_distr_r by lia. done. }
  split; [done|]. apply u16_bound.
Qed.

Lemma crc16_loop_ref crc buf : 0 <= crc < 65536 -> bytes_ok buf ->
  crc16_loop crc buf = Ret (foldl crc_ref_step crc buf) /\
  0 <= foldl crc_ref_step crc buf < 65536.
Proof.
  intros Hc Hok. revert crc Hc. induction Hok as [|b buf Hb Hok IH]; intros crc Hc; simpl; [done|].
  destruct (crc16_step_ref crc b Hc Hb) as [-> Hb']. by apply IH.
Qed.

(** The table-driven CRC16 is the bitwise CRC of polynomial 0x1021 on every
    buffer, and stays inside its table. *)
Theorem crc16_correct buf :
  bytes_ok buf -> cf_redis_crc16 buf = Ret (crc_ref buf) /\ 0 <= crc_ref buf < 65536.
Proof. intros Hok. apply crc16_loop_ref; [lia|done]. Qed.

(** The vector the header quotes: CRC16("123456789") = 0x31C3. *)
Lemma crc16_correct_witness :
  bytes_ok (bs "123456789") /\ crc_ref (bs "123456789") = 12739 /\
  cf_redis_crc16 (bs "123456789") = Ret (crc_ref (bs "123456789")) /\
  0 <= crc_ref (bs "123456789") < 65536.
Proof.
  split; [apply bs_bytes_ok|]. split; [reflexivity|]. apply crc16_correct, bs_bytes_ok.
Defined.

(** ** The hash tag *)

(** Index of the first [c] of a list, its length when there is none. *)
Fixpoint first_index (c : Z) (l : list Z) : nat :=
  match l with
  | [] => O
  | b :: l' => if b =? c then O else S (first_index c l')
  end.

(** The bytes of a key that Redis hashes: what is between the first '{' and
    the first '}' after it, when both exist and something is between them. *)
Definition hash_part (key : list Z) : list Z :=
  let s := first_index 123 key in
  let r := drop (S s) key in
  let e := first_index 125 r in
  if decide (s = length key \/ e = length r \/ e = 0%nat) then key else take e r.

Lemma first_index_le c l : (first_index c l <= length l)%nat.
Proof. induction l as [|b l IH]; simpl; [lia|]. destruct (b =? c); lia. Qed.

Lemma scan_first_index pre rest c :
  scan (length rest) (pre ++ rest) c (zlen pre) =
  Ret (zlen pre + Z.of_nat (first_index c rest)).
Proof.
  revert pre. induction rest as [|b rest IH]; intros pre; simpl.
  - f_equal. lia.
  - rewrite rd_app_r by lia. rewrite Z.sub_diag. simpl.
    destruct (b =? c) eqn:E; [f_equal; lia|].
    specialize (IH (pre ++ [b])). rewrite <- app_assoc in IH. simpl in IH.
    rewrite length_app in IH. simpl in IH.
    replace (zlen pre + 1) with (Z.of_nat (length pre + 1)) by lia.
    rewrite IH. f_equal. lia.
Qed.

Lemma scan_from key c s : (s <= length key)%nat ->
  scan (length key - s) key c (Z.of_nat s) =
  Ret (Z.of_nat (s + first_index c (drop s key))).
Proof.
  intros Hs. pose proof (scan_first_index (take s key) (drop s key) c) as H.
  rewrite take_drop, length_take, length_drop in H.
  rewrite Nat.min_l in H by lia. rewrite H. f_equal. lia.
Qed.

Lemma slot_of_whole key : bytes_ok key ->
  (crc ← cf_redis_crc16 key; Ret (u16 (crc mod CF_REDIS_NUM_SLOTS))) =
  Ret (crc_ref key mod CF_REDIS_NUM_SLOTS).
Proof.
  intros Hok. unfold cf_redis_crc16. destruct (crc16_loop_ref 0 key ltac:(lia) Hok) as [-> _].
  simpl. f_equal. apply u16_id. unfold CF_REDIS_NUM_SLOTS, crc_ref.
  pose proof (Z.mod_pos_bound (foldl crc_ref_step 0 key) 16384). lia.
Qed.

Lemma key_slot_hash_part key : bytes_ok key ->
  cf_redis_key_slot key = Ret (crc_ref (hash_part key) mod CF_REDIS_NUM_SLOTS).
Proof.
  intros Hok. unfold cf_redis_key_slot, hash_part.
  pose proof (first_index_le 123 key) as Hs.
  pose proof (scan_from key 123 0 ltac:(lia)) as H0.
  rewrite Nat.sub_0_r, drop_0 in H0. change (Z.of_nat 0) with 0 in H0. rewrite Nat.add_0_l in H0.
  rewrite Nat2Z.id, H0. xbind.
  set (s := first_index 123 key) in *. set (r := drop (S s) key).
  destruct (Z.of_nat s =? zlen key) eqn:E.
  { rewrite slot_of_whole by done. destruct (decide _) as [|Hn]; [done|]. destruct Hn. left. lia. }
  pose proof (scan_from key 125 (S s) ltac:(lia)) as H1.
  replace (Z.to_nat (zlen key - (Z.of_nat s + 1))) with (length key - S s)%nat by lia.
  replace (Z.of_nat s + 1) with (Z.of_nat (S s)) by lia. rewrite H1. fold r. xbind.
  pose proof (first_index_le 125 r) as He.
  assert (length r = (length key - S s)%nat) as Hr by apply length_drop.
  set (e := first_index 125 r) in *.
  destruct (decide _) as [Hd|Hn].
  - destruct ((_ =? zlen key) || _) eqn:E2; [by apply slot_of_whole|].
    exfalso. lia.
  - destruct ((_ =? zlen key) || _) eqn:E2; [exfalso; lia|].
    rewrite rd_n_ok by lia. unfold slice. xbind.
        replace (drop (Z.to_nat _) key) with r by (unfold r; f_equal; lia).
    replace (Z.to_nat _) with e by lia.
    apply slot_of_whole. unfold r. by apply Forall_take, Forall_drop.
Qed.

(** Every key gets a slot in range, the CRC of exactly its hash part. *)
Theorem key_slot_correct key :
  bytes_ok key ->
  cf_redis_key_slot key = Ret (crc_ref (hash_part key) mod CF_REDIS_NUM_SLOTS) /\
  0 <= crc_ref (hash_part key) mod CF_REDIS_NUM_SLOTS < CF_REDIS_NUM_SLOTS.
Proof.
  intros Hok. split; [by apply key_slot_hash_part|]. apply Z.mod_pos_bound. done.
Qed.

Lemma key_slot_correct_witness :
  bytes_ok (bs "cloudflow:v1:wire:dns") /\
  cf_redis_key_slot (bs "cloudflow:v1:wire:dns") =
    Ret (crc_ref (hash_part (bs "cloudflow:v1:wire:dns")) mod CF_REDIS_NUM_SLOTS) /\
  0 <= crc_ref (hash_part (bs "cloudflow:v1:wire:dns")) mod CF_REDIS_NUM_SLOTS
    < CF_REDIS_NUM_SLOTS.
Proof. split; [apply bs_bytes_ok|]. apply key_slot_correct, bs_bytes_ok. Defined.

Lemma first_index_app c l r : c ∉ l -> first_index c (l ++ c :: r) = length l.
Proof.
  induction l as [|b l IH]; simpl; intros Hni; [by rewrite Z.eqb_refl|].
  apply not_elem_of_cons in Hni as [Hne Hni].
  destruct (b =? c) eqn:E; [lia|]. by rewrite IH.
Qed.

Lemma hash_part_tag pre tag post :
  123 ∉ pre -> 125 ∉ tag -> tag <> [] ->
  hash_part (pre ++ 123 :: tag ++ 125 :: post) = tag.
Proof.
  intros Hpre Htag Hne. unfold hash_part.
  rewrite first_index_app by done.
  replace (pre ++ 123 :: tag ++ 125 :: post) with ((pre ++ [123]) ++ tag ++ 125 :: post)
    by (by rewrite <- app_assoc).
  replace (S (length pre)) with (length (pre ++ [123]))
    by (rewrite length_app; simpl; lia).
  rewrite drop_app_length, first_index_app by done.
  destruct (decide _) as [Hd|_]; [|by rewrite take_app_length].
  exfalso. rewrite !length_app in Hd. simpl in Hd. destruct tag; [done|]. simpl in *. lia.
Qed.

(** Keys that share a hash tag co-locate: whatever surrounds the tag, the slot
    is the same. *)
Theorem hash_tag_colocates pre1 post1 pre2 post2 tag :
  bytes_ok (pre1 ++ 123 :: tag ++ 125 :: post1) ->
  bytes_ok (pre2 ++ 123 :: tag ++ 125 :: post2) ->
  123 ∉ pre1 -> 123 ∉ pre2 -> 125 ∉ tag -> tag <> [] ->
  cf_redis_key_slot (pre1 ++ 123 :: tag ++ 125 :: post1) =
  cf_redis_key_slot (pre2 ++ 123 :: tag ++ 125 :: post2).
Proof. intros. rewrite !key_slot_hash_part by done. by rewrite !hash_part_tag. Qed.

Lemma hash_tag_colocates_witness :
  cf_redis_key_slot (bs "a{u1}.x") = cf_redis_key_slot (bs "{u1}.y{z}").
Proof.
  apply (hash_tag_colocates (bs "a") (bs ".x") [] (bs ".y{z}") (bs "u1"));
    [exact (bs_bytes_ok "a{u1}.x")|exact (bs_bytes_ok "{u1}.y{z}")|..];
    apply (bool_decide_eq_true_1 _); reflexivity.
Defined.
