(* ===== verification/Sha256.v ===== *)
(** * Sha256: the incremental digest of [libs/cloudflow-core/sha256.c]

    The model follows the file function by function: the context record, the
    block transform over the 64-entry schedule array, the buffered update and
    the two-case padding of final.  The reference is the one-shot FIPS 180-4
    definition: pad the whole message, cut it into blocks, and fold a
    compression that keeps a sliding window of 16 schedule words. *)

From S2P Require Import Prelude.

Definition SHA256_BLOCK_SIZE : Z := 64.
Definition SHA256_DIGEST_SIZE : Z := 32.

Record sha256_ctx := {
  state : list Z;
  total_len : Z;
  buffer : list Z;
  buffer_len : Z
}.

(** The sixteen rows of the table, four constants a row as in the source. *)
Definition SHA256_K : list Z := concat [
  [0x428a2f98; 0x71374491; 0xb5c0fbcf; 0xe9b5dba5];
  [0x3956c25b; 0x59f111f1; 0x923f82a4; 0xab1c5ed5];
  [0xd807aa98; 0x12835b01; 0x243185be; 0x550c7dc3];
  [0x72be5d74; 0x80deb1fe; 0x9bdc06a7; 0xc19bf174];
  [0xe49b69c1; 0xefbe4786; 0x0fc19dc6; 0x240ca1cc];
  [0x2de92c6f; 0x4a7484aa; 0x5cb0a9dc; 0x76f988da];
  [0x983e5152; 0xa831c66d; 0xb00327c8; 0xbf597fc7];
  [0xc6e00bf3; 0xd5a79147; 0x06ca6351; 0x14292967];
  [0x27b70a85; 0x2e1b2138; 0x4d2c6dfc; 0x53380d13];
  [0x650a7354; 0x766a0abb; 0x81c2c92e; 0x92722c85];
  [0xa2bfe8a1; 0xa81a664b; 0xc24b8b70; 0xc76c51a3];
  [0xd192e819; 0xd6990624; 0xf40e3585; 0x106aa070];
  [0x19a4c116; 0x1e376c08; 0x2748774c; 0x34b0bcb5];
  [0x391c0cb3; 0x4ed8aa4a; 0x5b9cca4f; 0x682e6ff3];
  [0x748f82ee; 0x78a5636f; 0x84c87814; 0x8cc70208];
  [0x90befffa; 0xa4506ceb; 0xbef9a3f7; 0xc67178f2] ].

Definition sha256_rotr (x n : Z) : Z :=
  Z.lor (Z.shiftr x n) (u32 (Z.shiftl x (32 - n))).

(** The first loop of the transform: [w[i]] for [i] = [zlen w] .. 15. *)
Fixpoint schedule_load (n : nat) (block w : list Z) : exec (list Z) :=
  match n with
  | O => Ret w
  | S n' =>
      let i := zlen w in
      b0 ← rd block (i * 4);
      b1 ← rd block (i * 4 + 1);
      b2 ← rd block (i * 4 + 2);
      b3 ← rd block (i * 4 + 3);
      schedule_load n' block (w ++ [be32_of b0 b1 b2 b3])
  end.

(** The second loop: [w[i]] for [i] = [zlen w] .. 63. *)
Fixpoint schedule_extend (n : nat) (w : list Z) : exec (list Z) :=
  match n with
  | O => Ret w
  | S n' =>
      let i := zlen w in
      w15 ← rd w (i - 15);
      w2 ← rd w (i - 2);
      w16 ← rd w (i - 16);
      w7 ← rd w (i - 7);
      let s0 := Z.lxor (Z.lxor (sha256_rotr w15 7) (sha256_rotr w15 18)) (Z.shiftr w15 3) in
      let s1 := Z.lxor (Z.lxor (sha256_rotr w2 17) (sha256_rotr w2 19)) (Z.shiftr w2 10) in
      schedule_extend n' (w ++ [u32 (w16 + s0 + w7 + s1)])
  end.

(** The working variables [a] .. [h]. *)
Record vars := Vars {
  va : Z; vb : Z; vc : Z; vd : Z; ve : Z; vf : Z; vg : Z; vh : Z
}.

(** The round loop from index [i], [n] rounds left. *)
Fixpoint round_loop (n : nat) (i : Z) (w : list Z) (v : vars) : exec vars :=
  match n with
  | O => Ret v
  | S n' =>
      let '(Vars a b c d e f g h) := v in
      k ← rd SHA256_K i;
      wi ← rd w i;
      let big_s1 := Z.lxor (Z.lxor (sha256_rotr e 6) (sha256_rotr e 11)) (sha256_rotr e 25) in
      let ch := Z.lxor (Z.land e f) (Z.land (u32 (Z.lnot e)) g) in
      let temp1 := u32 (h + big_s1 + ch + k + wi) in
      let big_s0 := Z.lxor (Z.lxor (sha256_rotr a 2) (sha256_rotr a 13)) (sha256_rotr a 22) in
      let maj := Z.lxor (Z.lxor (Z.land a b) (Z.land a c)) (Z.land b c) in
      let temp2 := u32 (big_s0 + maj) in
      round_loop n' (i + 1) w
        (Vars (u32 (temp1 + temp2)) a b c (u32 (d + temp1)) e f g)
  end.

(** The transform of a state by a block; the context's other fields are not
    touched by it. *)
Definition sha256_transform (st block : list Z) : exec (list Z) :=
  w ← schedule_load 16 block [];
  w ← schedule_extend 48 w;
  s0 ← rd st 0; s1 ← rd st 1; s2 ← rd st 2; s3 ← rd st 3;
  s4 ← rd st 4; s5 ← rd st 5; s6 ← rd st 6; s7 ← rd st 7;
  v ← round_loop 64 0 w (Vars s0 s1 s2 s3 s4 s5 s6 s7);
  let '(Vars a b c d e f g h) := v in
  Ret [u32 (s0 + a); u32 (s1 + b); u32 (s2 + c); u32 (s3 + d);
       u32 (s4 + e); u32 (s5 + f); u32 (s6 + g); u32 (s7 + h)].

(** [sha256_init] leaves the buffer bytes as they were. *)
Definition sha256_init (ctx : sha256_ctx) : sha256_ctx :=
  {| state := [0x6a09e667; 0xbb67ae85; 0x3c6ef372; 0xa54ff53a;
               0x510e527f; 0x9b05688c; 0x1f83d9ab; 0x5be0cd19];
     total_len := 0; buffer := buffer ctx; buffer_len := 0 |}.

Fixpoint update_loop (fuel : nat) (ctx : sha256_ctx) (data : list Z) : exec sha256_ctx :=
  match fuel with
  | O => Spin
  | S fuel' =>
      let len := zlen data in
      if 0 <? len then
        let n := u64 (SHA256_BLOCK_SIZE - buffer_len ctx) in
        let n := if len <? n then len else n in
        src ← rd_n data 0 n;
        buf ← wr_n (buffer ctx) (buffer_len ctx) src;
        let bl := buffer_len ctx + n in
        let data' := drop (Z.to_nat n) data in
        if bl =? SHA256_BLOCK_SIZE then
          st ← sha256_transform (state ctx) buf;
          update_loop fuel'
            {| state := st; total_len := total_len ctx; buffer := buf; buffer_len := 0 |} data'
        else
          update_loop fuel'
            {| state := state ctx; total_len := total_len ctx; buffer := buf;
               buffer_len := bl |} data'
      else Ret ctx
  end.

Definition sha256_update (ctx : sha256_ctx) (data : list Z) : exec sha256_ctx :=
  update_loop (S (length data))
    {| state := state ctx; total_len := u64 (total_len ctx + zlen data);
       buffer := buffer ctx; buffer_len := buffer_len ctx |} data.

(** [while (i < lim) buffer[i++] = 0;] *)
Fixpoint zero_fill (fuel : nat) (lim : Z) (buf : list Z) (i : Z) : exec (list Z * Z) :=
  match fuel with
  | O => Spin
  | S fuel' =>
      if i <? lim then buf' ← wr_n buf i [0]; zero_fill fuel' lim buf' (i + 1)
      else Ret (buf, i)
  end.

(** [for (j = 7; j >= 0; j--) buffer[i++] = (uint8_t)(bit_len >> (j * 8));] *)
Fixpoint put_length (n : nat) (bit_len : Z) (buf : list Z) (i : Z) : exec (list Z) :=
  match n with
  | O => Ret buf
  | S n' =>
      let j := Z.of_nat n' in
      buf' ← wr_n buf i [u8 (Z.shiftr bit_len (j * 8))];
      put_length n' bit_len buf' (i + 1)
  end.

Definition word_bytes (w : Z) : list Z :=
  [u8 (Z.shiftr w 24); u8 (Z.shiftr w 16); u8 (Z.shiftr w 8); u8 w].

Definition sha256_final (ctx : sha256_ctx) : exec (list Z) :=
  let bit_len := u64 (total_len ctx * 8) in
  let i := buffer_len ctx in
  buf ← wr_n (buffer ctx) i [0x80];
  let i := i + 1 in
  '(st, buf, i) ←
    (if 56 <? i then
       '(buf, _) ← zero_fill 65 SHA256_BLOCK_SIZE buf i;
       st ← sha256_transform (state ctx) buf;
       Ret (st, buf, 0)
     else Ret (state ctx, buf, i));
  '(buf, i) ← zero_fill 65 56 buf i;
  buf ← put_length 8 bit_len buf i;
  st ← sha256_transform st buf;
  Ret (concat (map word_bytes st)).

(** ** The reference: FIPS 180-4, one shot *)

Module Fips.
Definition ROTR (n x : Z) : Z := (x mod 2 ^ n) * 2 ^ (32 - n) + x / 2 ^ n.
Definition SHR (n x : Z) : Z := x / 2 ^ n.
Definition Ch (x y z : Z) : Z := Z.lxor (Z.land x y) (Z.ldiff z x).
Definition Maj (x y z : Z) : Z := Z.lxor (Z.lxor (Z.land x y) (Z.land x z)) (Z.land y z).
Definition Sigma0 (x : Z) : Z := Z.lxor (Z.lxor (ROTR 2 x) (ROTR 13 x)) (ROTR 22 x).
Definition Sigma1 (x : Z) : Z := Z.lxor (Z.lxor (ROTR 6 x) (ROTR 11 x)) (ROTR 25 x).
Definition sigma0 (x : Z) : Z := Z.lxor (Z.lxor (ROTR 7 x) (ROTR 18 x)) (SHR 3 x).
Definition sigma1 (x : Z) : Z := Z.lxor (Z.lxor (ROTR 17 x) (ROTR 19 x)) (SHR 10 x).

(** The window of the next 16 schedule words, advanced by one. *)
Definition next (win : list Z) : list Z :=
  tail win ++
    [(sigma1 (nth 14 win 0) + nth 9 win 0 + sigma0 (nth 1 win 0) + nth 0 win 0) mod 2 ^ 32].

Definition round (v : vars) (k w : Z) : vars :=
  let '(Vars a b c d e f g h) := v in
  let T1 := h + Sigma1 e + Ch e f g + k + w in
  let T2 := Sigma0 a + Maj a b c in
  Vars ((T1 + T2) mod 2 ^ 32) a b c ((d + T1) mod 2 ^ 32) e f g.

Fixpoint rounds (ks win : list Z) (v : vars) : vars :=
  match ks with
  | [] => v
  | k :: ks' => rounds ks' (next win) (round v k (nth 0 win 0))
  end.

(** A block read as big-endian words. *)
Fixpoint words (n : nat) (block : list Z) : list Z :=
  match n with
  | O => []
  | S n' => be_value 0 (take 4 block) :: words n' (drop 4 block)
  end.

Definition vars_of (st : list Z) : vars :=
  Vars (nth 0 st 0) (nth 1 st 0) (nth 2 st 0) (nth 3 st 0)
       (nth 4 st 0) (nth 5 st 0) (nth 6 st 0) (nth 7 st 0).
Definition list_of (v : vars) : list Z :=
  [va v; vb v; vc v; vd v; ve v; vf v; vg v; vh v].

Definition compress (st block : list Z) : list Z :=
  zip_with (fun x y => (x + y) mod 2 ^ 32) st
    (list_of (rounds SHA256_K (words 16 block) (vars_of st))).

Definition IV : list Z :=
  [0x6a09e667; 0xbb67ae85; 0x3c6ef372; 0xa54ff53a;
   0x510e527f; 0x9b05688c; 0x1f83d9ab; 0x5be0cd19].

(** The padded message: a one bit, zeros, the length in bits in 64 bits. *)
Definition pad (m : list Z) : list Z :=
  m ++ [0x80] ++ replicate (Z.to_nat ((55 - zlen m) mod 64)) 0 ++ be_bytes 8 (8 * zlen m).

Fixpoint blocks (n : nat) (l : list Z) : list (list Z) :=
  match n with
  | O => []
  | S n' => take 64 l :: blocks n' (drop 64 l)
  end.

Definition sha256 (m : list Z) : list Z :=
  let p := pad m in
  concat (map (be_bytes 4) (foldl compress IV (blocks (length p / 64) p))).
End Fips.

(** ** The transform is the reference compression *)

Definition is_u32 (z : Z) : Prop := 0 <= z < 2 ^ 32.

Lemma u32_ok z : is_u32 (u32 z).
Proof. apply u32_bound. Qed.

Lemma rotr_fips x n : is_u32 x -> 0 < n < 32 -> sha256_rotr x n = Fips.ROTR n x.
Proof.
  intros Hx Hn. unfold sha256_rotr, Fips.ROTR, is_u32 in *.
  rewrite Z.lor_comm.
  assert (u32 (Z.shiftl x (32 - n)) = Z.shiftl (x mod 2 ^ n) (32 - n)) as ->.
  { unfold u32. rewrite !Z.shiftl_mul_pow2 by lia.
    replace (2 ^ 32) with (2 ^ n * 2 ^ (32 - n))
      by (rewrite <- Z.pow_add_r by lia; f_equal; lia).
    apply Z.mul_mod_distr_r; apply Z.pow_nonzero; lia. }
  rewrite Z.shiftr_div_pow2 by lia. apply lor_shiftl_add; [lia|].
  assert (0 < 2 ^ n) by (apply Z.pow_pos_nonneg; lia).
  split; [apply Z.div_pos; lia|]. apply Z.div_lt_upper_bound; [lia|].
  rewrite <- Z.pow_add_r by lia. replace (n + (32 - n)) with 32 by lia. lia.
Qed.

Lemma ch_fips e f g : is_u32 g ->
  Z.lxor (Z.land e f) (Z.land (u32 (Z.lnot e)) g) = Fips.Ch e f g.
Proof.
  intros Hg. unfold Fips.Ch. f_equal.
  apply Z.bits_inj'. intros i Hi. rewrite Z.land_spec, Z.ldiff_spec.
  unfold u32. destruct (Z.lt_ge_cases i 32) as [Hlt|Hge].
  - rewrite Z.mod_pow2_bits_low, Z.lnot_spec by lia. apply andb_comm.
  - rewrite <- (Z.mod_small g (2 ^ 32)) by exact Hg.
    rewrite !(Z.mod_pow2_bits_high _ 32) by lia. by rewrite andb_false_r.
Qed.

Lemma u32_add_l x y : u32 (u32 x + y) = u32 (x + y).
Proof. unfold u32. apply Z.add_mod_idemp_l. done. Qed.

Lemma u32_add_r x y : u32 (x + u32 y) = u32 (x + y).
Proof. unfold u32. apply Z.add_mod_idemp_r. done. Qed.

(** The [i]-th word of the schedule is the head of the [i]-th window. *)
Definition win_at (win : list Z) (i : nat) : list Z := Nat.iter i Fips.next win.
Definition W (win : list Z) (i : nat) : Z := nth 0 (win_at win i) 0.

Lemma win_at_length win i : length win = 16%nat -> length (win_at win i) = 16%nat.
Proof.
  intros H. induction i as [|i IH]; [done|]. unfold win_at in *. simpl.
  unfold Fips.next at 1. rewrite length_app. destruct (Nat.iter i Fips.next win); simpl in *; lia.
Qed.

Lemma nth_next win j : length win = 16%nat -> (j < 15)%nat ->
  nth j (Fips.next win) 0 = nth (S j) win 0.
Proof.
  intros H Hj. destruct win as [|x win]; [done|]. simpl in *.
  unfold Fips.next. rewrite app_nth1; [done|]. simpl. lia.
Qed.

Lemma nth_win win i j : length win = 16%nat -> (j < 16)%nat ->
  nth j (win_at win i) 0 = W win (i + j).
Proof.
  intros H. revert i. induction j as [|j IH]; intros i Hj.
  - by rewrite Nat.add_0_r.
  - rewrite <- nth_next by (rewrite ?win_at_length; lia).
    change (Fips.next (win_at win i)) with (win_at win (S i)).
    rewrite IH by lia. f_equal. lia.
Qed.

Lemma W_step win i : length win = 16%nat ->
  W win (i + 16) =
  (Fips.sigma1 (W win (i + 14)) + W win (i + 9) + Fips.sigma0 (W win (i + 1)) + W win i)
    mod 2 ^ 32.
Proof.
  intros H. replace (i + 16)%nat with (S i + 15)%nat by lia.
  rewrite <- (nth_win win (S i) 15) by lia.
  change (win_at win (S i)) with (Fips.next (win_at win i)). unfold Fips.next.
  pose proof (win_at_length win i H) as Hl.
  rewrite app_nth2 by (destruct (win_at win i); simpl in *; lia).
  replace (15 - length (tail (win_at win i)))%nat with 0%nat
    by (destruct (win_at win i); simpl in *; lia).
  rewrite !nth_win by lia. by rewrite Nat.add_0_r.
Qed.

Lemma W_ok win i : length win = 16%nat -> Forall is_u32 win -> is_u32 (W win i).
Proof.
  intros Hl Hok. destruct (decide (i < 16)%nat) as [Hi|Hi].
  - replace (W win i) with (nth i win 0) by (apply (nth_win win 0 i); lia).
    rewrite Forall_forall in Hok. apply Hok. apply nth_In. lia.
  - replace i with ((i - 16) + 16)%nat by lia. rewrite W_step by done.
    apply (Z.mod_pos_bound _ (2 ^ 32)). lia.
Qed.

Definition sched (win : list Z) (n : nat) : list Z := map (W win) (seq 0 n).

Lemma sched_length win n : length (sched win n) = n.
Proof. unfold sched. by rewrite length_map, length_seq. Qed.

Lemma sched_S win n : sched win (S n) = sched win n ++ [W win n].
Proof. unfold sched. rewrite seq_S, map_app. done. Qed.

Lemma rd_sched win n i : 0 <= i < Z.of_nat n -> rd (sched win n) i = Ret (W win (Z.to_nat i)).
Proof.
  intros Hi. apply rd_lookup; [lia|]. unfold sched.
  change (map (W win) (seq 0 n)) with (W win <$> seq 0 n).
  rewrite list_lookup_fmap, lookup_seq_lt by lia. simpl. done.
Qed.

Lemma nth_sched win n i : (i < n)%nat -> nth i (sched win n) 0 = W win i.
Proof.
  intros Hi. rewrite (nth_indep (sched win n) 0 (W win 0)) by (rewrite sched_length; lia).
  unfold sched. by rewrite map_nth, seq_nth by lia.
Qed.

Lemma schedule_extend_sched win n k : length win = 16%nat -> Forall is_u32 win ->
  schedule_extend n (sched win (16 + k)) = Ret (sched win (16 + k + n)).
Proof.
  intros Hl Hok. revert k. induction n as [|n IH]; intros k; cbn [schedule_extend].
  { by rewrite Nat.add_0_r. }
  rewrite sched_length.
  rewrite !rd_sched by lia. xbind.
  replace (Z.to_nat (_ - 15)) with (k + 1)%nat by lia.
  replace (Z.to_nat (_ - 2)) with (k + 14)%nat by lia.
  replace (Z.to_nat (_ - 16)) with k by lia.
  replace (Z.to_nat (_ - 7)) with (k + 9)%nat by lia.
  rewrite !rotr_fips by (auto using W_ok; lia).
  rewrite !Z.shiftr_div_pow2 by lia.
  change (Z.lxor (Z.lxor (Fips.ROTR 7 ?x) _) _) with (Fips.sigma0 x).
  change (Z.lxor (Z.lxor (Fips.ROTR 17 ?x) _) _) with (Fips.sigma1 x).
  replace (u32 _) with (W win (16 + k))
    by (rewrite (Nat.add_comm 16 k), W_step by done; unfold u32; f_equal; lia).
  rewrite <- sched_S. specialize (IH (S k)).
  replace (16 + S k)%nat with (S (16 + k)) in IH by lia. rewrite IH. do 2 f_equal. lia.
Qed.

Lemma be_value4 l : length l = 4%nat -> bytes_ok l ->
  exists a b c d, l = [a; b; c; d] /\ be_value 0 l = be32_of a b c d /\ is_u32 (be_value 0 l).
Proof.
  intros Hl Hok. destruct l as [|a [|b [|c [|d [|]]]]]; try done.
  exists a, b, c, d. rewrite !Forall_cons_iff in Hok. destruct Hok as (?&?&?&?&_).
  split; [done|]. assert (be_value 0 [a;b;c;d] = be32_of a b c d) as ->
    by (rewrite be32_of_eq by done; simpl; lia).
  split; [done|]. by apply be32_of_bound.
Qed.

Lemma words_length n b : length (Fips.words n b) = n.
Proof. revert b. induction n; intros b; simpl; [done|]. by rewrite IHn. Qed.

Lemma words_ok n b : (4 * n <= length b)%nat -> bytes_ok b -> Forall is_u32 (Fips.words n b).
Proof.
  revert b. induction n as [|n IH]; intros b Hl Hok; cbn [Fips.words]; constructor.
  - destruct (be_value4 (take 4 b)) as (?&?&?&?&_&_&H);
      [rewrite length_take; lia|by apply Forall_take|done].
  - apply IH; [rewrite length_drop; lia|by apply Forall_drop].
Qed.

Lemma words_S n b : Fips.words (S n) b = Fips.words n b ++ [be_value 0 (take 4 (drop (4 * n) b))].
Proof.
  revert b. induction n as [|n IH]; intros b; [done|].
  change (Fips.words (S (S n)) b) with (be_value 0 (take 4 b) :: Fips.words (S n) (drop 4 b)).
  rewrite IH, drop_drop. cbn [Fips.words app].
  replace (4 + 4 * n)%nat with (4 * S n)%nat by lia. done.
Qed.

Lemma schedule_load_words n k b : bytes_ok b -> (4 * (k + n) <= length b)%nat ->
  schedule_load n b (Fips.words k b) = Ret (Fips.words (k + n) b).
Proof.
  intros Hok. revert k. induction n as [|n IH]; intros k Hl; cbn [schedule_load].
  { by rewrite Nat.add_0_r. }
  rewrite words_length.
  destruct (be_value4 (take 4 (drop (4 * k) b))) as (b0&b1&b2&b3&Hb&Hv&_);
    [rewrite length_take, length_drop; lia|by apply Forall_take, Forall_drop|].
  assert (forall j v, (j < 4)%nat -> [b0;b1;b2;b3] !! j = Some v ->
    rd b (Z.of_nat k * 4 + Z.of_nat j) = Ret v) as Hrd.
  { intros j v Hj Hjv. apply rd_lookup; [lia|]. rewrite <- Hb in Hjv.
    rewrite lookup_take_lt, lookup_drop in Hjv by lia. rewrite <- Hjv. f_equal. lia. }
  pose proof (Hrd 0%nat b0 ltac:(lia) eq_refl) as H0. rewrite Z.add_0_r in H0.
  rewrite H0, (Hrd 1%nat b1 ltac:(lia) eq_refl : rd b (Z.of_nat k * 4 + 1) = _),
    (Hrd 2%nat b2 ltac:(lia) eq_refl : rd b (Z.of_nat k * 4 + 2) = _),
    (Hrd 3%nat b3 ltac:(lia) eq_refl : rd b (Z.of_nat k * 4 + 3) = _). xbind.
  rewrite <- Hv, <- words_S, IH by lia. do 2 f_equal. lia.
Qed.

Definition vars_ok (v : vars) : Prop := Forall is_u32 (Fips.list_of v).

Lemma fips_round_ok v k w : vars_ok v -> vars_ok (Fips.round v k w).
Proof.
  unfold vars_ok, Fips.list_of. destruct v as [a b c d e f g h].
  cbn [Fips.round va vb vc vd ve vf vg vh]. rewrite !Forall_cons_iff. intros (?&?&?&?&?&?&?&?&?).
  split_and!; try done; apply u32_ok.
Qed.

Lemma round_loop_rounds win n i v : length win = 16%nat -> vars_ok v -> (i + n = 64)%nat ->
  round_loop n (Z.of_nat i) (sched win 64) v =
  Ret (Fips.rounds (drop i SHA256_K) (win_at win i) v).
Proof.
  intros Hl. revert i v. induction n as [|n IH]; intros i v Hv Hi; cbn [round_loop].
  { by replace i with 64%nat by lia. }
  destruct (lookup_lt_is_Some_2 SHA256_K i) as [k Hk]; [simpl; lia|].
  rewrite (drop_S _ _ _ Hk). cbn [Fips.rounds].
  destruct v as [a b c d e f g h] eqn:Ev.
  assert (rd SHA256_K (Z.of_nat i) = Ret k) as -> by (apply rd_lookup; [lia|by rewrite Nat2Z.id]).
  rewrite rd_sched by lia. rewrite Nat2Z.id. xbind.
  change (Fips.next (win_at win i)) with (win_at win (S i)).
  replace (Z.of_nat i + 1) with (Z.of_nat (S i)) by lia.
  rewrite <- IH; [|by apply fips_round_ok|lia]. f_equal.
  unfold vars_ok, Fips.list_of in Hv. cbn [va vb vc vd ve vf vg vh] in Hv. rewrite !Forall_cons_iff in Hv.
  destruct Hv as (?&?&?&?&?&?&?&?&_).
  rewrite !rotr_fips by (done || lia). rewrite ch_fips by done.
  unfold Fips.round. fold (W win i).
  f_equal; rewrite ?u32_add_l, ?u32_add_r; unfold u32, Fips.Sigma0, Fips.Sigma1, Fips.Maj; done.
Qed.

(** A hash state: eight words. *)
Definition st_ok (st : list Z) : Prop := length st = 8%nat /\ Forall is_u32 st.

Lemma compress_ok st b : st_ok st -> st_ok (Fips.compress st b).
Proof.
  intros [Hl Hok]. destruct st as [|? [|? [|? [|? [|? [|? [|? [|? [|]]]]]]]]]; try done.
  unfold Fips.compress. generalize (Fips.rounds SHA256_K (Fips.words 16 b)) as f. intros f.
  match goal with |- context [f ?v] => destruct (f v) end.
  split; [done|]. cbn [Fips.list_of va vb vc vd ve vf vg vh zip_with].
  repeat (apply Forall_cons_2; [apply u32_ok|]). constructor.
Qed.

(** The transform, its loops given. *)
Lemma transform_loops st b w0 w v : length st = 8%nat ->
  schedule_load 16 b [] = Ret w0 -> schedule_extend 48 w0 = Ret w ->
  round_loop 64 0 w (Fips.vars_of st) = Ret v ->
  sha256_transform st b = Ret (zip_with (fun x y => u32 (x + y)) st (Fips.list_of v)).
Proof.
  intros Hl H0 H1 H2. unfold sha256_transform.
  eapply bind_eq; [exact H0|]. eapply bind_eq; [exact H1|].
  destruct st as [|x0 [|x1 [|x2 [|x3 [|x4 [|x5 [|x6 [|x7 [|]]]]]]]]]; try done.
  do 8 (eapply bind_eq; [apply rd_lookup; [lia|reflexivity]|]).
  eapply bind_eq; [exact H2|]. by destruct v.
Qed.

Lemma words_sched b : bytes_ok b -> length b = 64%nat ->
  let win := Fips.words 16 b in
  length win = 16%nat /\ Forall is_u32 win /\ win = sched win 16.
Proof.
  intros Hok Hb win. assert (length win = 16%nat) as Hwl by apply words_length.
  split; [done|]. split; [apply words_ok; [lia|done]|].
  apply (nth_ext _ _ 0 0); [by rewrite sched_length|]. intros i Hi.
  rewrite nth_sched by lia. apply (nth_win win 0 i); lia.
Qed.

Lemma transform_compress st b : st_ok st -> length b = 64%nat -> bytes_ok b ->
  sha256_transform st b = Ret (Fips.compress st b).
Proof.
  intros [Hl Hok] Hb Hbok. destruct (words_sched b Hbok Hb) as (Hwl & Hwok & Hs).
  apply (transform_loops st b (Fips.words 16 b) (sched (Fips.words 16 b) 64)); [done| | |].
  - exact (schedule_load_words 16 0 b Hbok ltac:(lia)).
  - rewrite Hs at 1. exact (schedule_extend_sched _ 48 0 Hwl Hwok).
  - apply (round_loop_rounds _ 64 0 (Fips.vars_of st)); [done| |done].
    by destruct st as [|? [|? [|? [|? [|? [|? [|? [|? [|]]]]]]]]].
Qed.

(** ** The incremental digest *)

(** The context holds the digest of the message [m] so far. *)
Definition holds (ctx : sha256_ctx) (m : list Z) : Prop :=
  exists (blks : list (list Z)) (rest : list Z),
    m = concat blks ++ rest /\ Forall (fun b => length b = 64%nat) blks /\
    bytes_ok m /\ (length rest < 64)%nat /\
    state ctx = foldl Fips.compress Fips.IV blks /\
    total_len ctx = u64 (zlen m) /\
    length (buffer ctx) = 64%nat /\ bytes_ok (buffer ctx) /\
    buffer_len ctx = zlen rest /\ take (length rest) (buffer ctx) = rest.

Lemma IV_ok : st_ok Fips.IV.
Proof. split; [done|]. repeat constructor; done. Qed.

Lemma foldl_compress_ok blks st : st_ok st -> st_ok (foldl Fips.compress st blks).
Proof. revert st. induction blks; intros st H; simpl; [done|]. by apply IHblks, compress_ok. Qed.

Lemma take_splice (d src : list Z) n : length (take n d) = n ->
  take (n + length src) (splice d (Z.of_nat n) src) = take n d ++ src.
Proof.
  intros Hl. unfold splice. rewrite Nat2Z.id, app_assoc.
  rewrite take_app_le by (rewrite length_app; lia). apply take_ge. rewrite length_app. lia.
Qed.

(** The buffer and state fields of [holds], with the message cut in blocks
    and a rest: what the loop of update keeps. *)
Record inner (ctx : sha256_ctx) (blks : list (list Z)) (rest : list Z) : Prop := {
  in_blks : Forall (fun b => length b = 64%nat) blks;
  in_rest : (length rest < 64)%nat;
  in_state : state ctx = foldl Fips.compress Fips.IV blks;
  in_blen : length (buffer ctx) = 64%nat;
  in_bok : bytes_ok (buffer ctx);
  in_len : buffer_len ctx = zlen rest;
  in_take : take (length rest) (buffer ctx) = rest
}.

Lemma update_loop_inner fuel ctx blks rest data :
  inner ctx blks rest -> bytes_ok data -> (length data < fuel)%nat ->
  exists ctx' blks' rest', update_loop fuel ctx data = Ret ctx' /\
    total_len ctx' = total_len ctx /\ inner ctx' blks' rest' /\
    concat blks' ++ rest' = (concat blks ++ rest) ++ data.
Proof.
  revert ctx blks rest data. induction fuel as [|fuel IH]; intros ctx blks rest data Hin Hd Hf;
    [lia|]. cbn [update_loop].
  destruct (0 <? zlen data) eqn:El.
  2:{ exists ctx, blks, rest. assert (data = []) as -> by (destruct data; simpl in *; [done|lia]).
      by rewrite app_nil_r. }
  destruct Hin as [Hb Hr Hs Hbl Hbok Hlen Htake]. rewrite Hlen.
  unfold SHA256_BLOCK_SIZE. rewrite u64_id by lia.
  set (n := if zlen data <? _ then _ else _).
  assert (0 < n <= zlen data /\ n <= 64 - zlen rest) as Hn by (unfold n; case_match; lia).
  rewrite rd_n_ok by lia. xbind.
  assert (length (slice data 0 n) = Z.to_nat n) as Hsl by (apply length_slice; lia).
  rewrite wr_n_ok by lia. xbind.
  set (buf := splice _ _ _).
  assert (length buf = 64%nat) as Hbufl by (unfold buf; rewrite length_splice; lia).
  assert (bytes_ok buf) as Hbufok
    by (apply splice_bytes_ok; [done|by apply slice_bytes_ok]).
  assert (take (length rest + Z.to_nat n) buf = rest ++ slice data 0 n) as Hbt.
  { rewrite <- Hsl. unfold buf. rewrite take_splice; [by rewrite Htake|].
    rewrite Htake. done. }
  assert (slice data 0 n ++ drop (Z.to_nat n) data = data) as Hcut.
  { unfold slice. by rewrite drop_0, take_drop. }
  assert (bytes_ok (drop (Z.to_nat n) data)) as Hdd by by apply Forall_drop.
  destruct (zlen rest + n =? 64) eqn:E64.
  - rewrite transform_compress by (done || (rewrite Hs; apply foldl_compress_ok, IV_ok)). xbind.
    assert (buf = rest ++ slice data 0 n) as Hbe.
    { rewrite <- Hbt, take_ge; [done|]. lia. }
    edestruct (IH {| state := Fips.compress (state ctx) buf; total_len := total_len ctx;
                     buffer := buf; buffer_len := 0 |} (blks ++ [buf]) [])
      as (c' & b' & r' & -> & ? & ? & Hc); [|exact Hdd|rewrite length_drop; lia|].
    { split; simpl; try done; try lia.
      - apply Forall_app_2; [done|by constructor].
      - by rewrite foldl_app, Hs. }
    exists c', b', r'. split; [done|]. split; [done|]. split; [done|].
    rewrite Hc, concat_app, app_nil_r. simpl. rewrite app_nil_r, Hbe.
    by rewrite <- Hcut at 3; rewrite !app_assoc.
  - edestruct (IH {| state := state ctx; total_len := total_len ctx;
                     buffer := buf; buffer_len := zlen rest + n |} blks (rest ++ slice data 0 n))
      as (c' & b' & r' & -> & ? & ? & Hc); [|exact Hdd|rewrite length_drop; lia|].
    { split; simpl; try done; rewrite ?length_app, ?Hsl; try lia. done. }
    exists c', b', r'. split; [done|]. split; [done|]. split; [done|].
    rewrite Hc. by rewrite <- Hcut at 3; rewrite !app_assoc.
Qed.

Lemma holds_init ctx : length (buffer ctx) = 64%nat -> bytes_ok (buffer ctx) ->
  holds (sha256_init ctx) [].
Proof.
  intros Hl Hok. exists [], []. simpl. repeat split; try done; try constructor. lia.
Qed.

Lemma holds_update ctx m data : holds ctx m -> bytes_ok data ->
  exists ctx', sha256_update ctx data = Ret ctx' /\ holds ctx' (m ++ data).
Proof.
  intros (blks & rest & -> & Hb & Hm & Hr & Hs & Ht & Hbl & Hbok & Hlen & Htake) Hd.
  unfold sha256_update.
  edestruct (update_loop_inner (S (length data))
    {| state := state ctx; total_len := u64 (total_len ctx + zlen data);
       buffer := buffer ctx; buffer_len := buffer_len ctx |} blks rest data)
    as (c' & b' & r' & -> & Htl & [? ? ? ? ? ? ?] & Hc); [by split|done|lia|].
  exists c'. split; [done|]. exists b', r'. rewrite <- Hc.
  repeat split; try done.
  - rewrite Hc. by apply Forall_app_2.
  - rewrite Htl. simpl. rewrite Ht, Hc. unfold u64.
    rewrite Z.add_mod_idemp_l by done. f_equal. rewrite (length_app _ data). lia.
Qed.

(** A block buffer whose first bytes are [p]. *)
Definition prefix_is (buf p : list Z) : Prop :=
  length buf = 64%nat /\ bytes_ok buf /\ take (length p) buf = p.

Lemma prefix_write buf p src i : prefix_is buf p -> bytes_ok src -> i = zlen p ->
  (length p + length src <= 64)%nat ->
  exists buf', wr_n buf i src = Ret buf' /\ prefix_is buf' (p ++ src).
Proof.
  intros (Hl & Hok & Hp) Hs -> Hle. exists (splice buf (zlen p) src).
  split; [apply wr_n_ok; lia|]. split; [rewrite length_splice; lia|].
  split; [by apply splice_bytes_ok|]. rewrite length_app, take_splice; [by rewrite Hp|].
  by rewrite Hp.
Qed.

Lemma prefix_full buf p : prefix_is buf p -> length p = 64%nat -> buf = p.
Proof. intros (Hl & _ & Hp) Hp64. rewrite <- Hp. symmetry. apply take_ge. lia. Qed.

Lemma zero_fill_prefix fuel lim buf p i : prefix_is buf p -> i = zlen p ->
  zlen p <= lim <= 64 -> (Z.to_nat (lim - zlen p) < fuel)%nat ->
  exists buf', zero_fill fuel lim buf i = Ret (buf', lim) /\
    prefix_is buf' (p ++ replicate (Z.to_nat (lim - zlen p)) 0).
Proof.
  revert buf p i. induction fuel as [|fuel IH]; intros buf p i Hp Hi Hlim Hf; [lia|].
  cbn [zero_fill]. subst i. destruct (zlen p <? lim) eqn:E.
  - destruct (prefix_write buf p [0] (zlen p) Hp) as (b1 & Hw & Hb1);
      [by repeat constructor|done|simpl; lia|]. rewrite Hw. xbind.
    destruct (IH b1 (p ++ [0]) (zlen p + 1) Hb1) as (b2 & H2 & Hb2);
      rewrite ?length_app; simpl; try lia.
    exists b2. split; [done|]. rewrite length_app, <- app_assoc in Hb2. simpl in Hb2.
    replace (Z.to_nat (lim - zlen p))
      with (S (Z.to_nat (lim - Z.of_nat (length p + 1)))) by lia. done.
  - exists buf. replace (Z.to_nat (lim - zlen p)) with 0%nat by lia. simpl. rewrite app_nil_r.
    replace lim with (zlen p) by lia. done.
Qed.

Lemma put_length_prefix n bit_len buf p i : prefix_is buf p -> i = zlen p ->
  (length p + n <= 64)%nat ->
  exists buf', put_length n bit_len buf i = Ret buf' /\
    prefix_is buf' (p ++ be_bytes n bit_len).
Proof.
  revert buf p i. induction n as [|n IH]; intros buf p i Hp -> Hle; cbn [put_length].
  { exists buf. simpl. by rewrite app_nil_r. }
  destruct (prefix_write buf p [u8 (Z.shiftr bit_len (Z.of_nat n * 8))] (zlen p) Hp)
    as (b1 & Hw & Hb1); [constructor; [apply u8_byte|done]|done|simpl; lia|].
  rewrite Hw. xbind. edestruct (IH b1 _ (zlen p + 1) Hb1) as (b2 & H2 & Hb2);
    [rewrite length_app; simpl; lia|rewrite length_app; simpl; lia|].
  exists b2. split; [done|]. rewrite <- app_assoc in Hb2. simpl in *.
  by rewrite (Z.mul_comm (Z.of_nat n)) in Hb2.
Qed.

Lemma be_bytes_mod n z : (n <= 8)%nat -> be_bytes n (z mod 2 ^ 64) = be_bytes n z.
Proof.
  intros Hn. induction n as [|n IH]; [done|]. simpl. rewrite IH by lia. f_equal.
  unfold u8. apply Z.bits_inj'. intros i Hi.
  destruct (Z.lt_ge_cases i 8).
  - rewrite !Z.mod_pow2_bits_low, !Z.shiftr_spec, Z.mod_pow2_bits_low by lia. done.
  - rewrite !(Z.mod_pow2_bits_high _ 8) by lia. done.
Qed.

Lemma bit_len_bytes len : be_bytes 8 (u64 (u64 len * 8)) = be_bytes 8 (8 * len).
Proof.
  unfold u64. rewrite Z.mul_mod_idemp_l, be_bytes_mod by lia. by rewrite Z.mul_comm.
Qed.

Lemma blocks_concat (blks : list (list Z)) : Forall (fun b => length b = 64%nat) blks ->
  Fips.blocks (length (concat blks) / 64) (concat blks) = blks.
Proof.
  intros H. assert (length (concat blks) = length blks * 64)%nat as ->.
  { induction H as [|b l Hb H IH]; simpl; [done|]. rewrite length_app, IH. lia. }
  rewrite Nat.div_mul by done.
  induction H as [|b l Hb H IH]; simpl; [done|].
  rewrite take_app_le, take_ge, drop_app_ge, Hb, Nat.sub_diag, drop_0 by lia. by rewrite IH.
Qed.

Lemma digest_of_blocks m blks : Fips.pad m = concat blks ->
  Forall (fun b => length b = 64%nat) blks ->
  Fips.sha256 m = concat (map word_bytes (foldl Fips.compress Fips.IV blks)).
Proof.
  intros Hp Hb. unfold Fips.sha256. rewrite Hp, blocks_concat by done.
  done.
Qed.

Lemma length_concat64 (blks : list (list Z)) : Forall (fun b => length b = 64%nat) blks ->
  zlen (concat blks) = 64 * zlen blks.
Proof. induction 1 as [|b l Hb H IH]; simpl; [done|]. rewrite length_app. lia. Qed.

(** The zeros of the padding, from the length of the unfinished block. *)
Lemma pad_split blks rest : Forall (fun b => length b = 64%nat) blks ->
  (length rest < 64)%nat ->
  Fips.pad (concat blks ++ rest) =
  concat blks ++ rest ++ [0x80] ++
    replicate (Z.to_nat (if zlen rest <? 56 then 55 - zlen rest else 119 - zlen rest)) 0 ++
    be_bytes 8 (8 * zlen (concat blks ++ rest)).
Proof.
  intros Hb Hr. unfold Fips.pad. rewrite <- app_assoc. do 4 f_equal.
  rewrite length_app, Nat2Z.inj_add, length_concat64 by done.
  replace (55 - _) with (55 - zlen rest + (- zlen blks) * 64) by lia.
  rewrite Z.mod_add by done. case_match; do 2 f_equal.
  - apply Z.mod_small. lia.
  - replace (55 - zlen rest) with (119 - zlen rest + (-1) * 64) by lia.
    rewrite Z.mod_add by done. apply Z.mod_small. lia.
Qed.

Lemma sha256_final_correct ctx m : holds ctx m -> sha256_final ctx = Ret (Fips.sha256 m).
Proof.
  intros (blks & rest & -> & Hb & Hm & Hr & Hs & Ht & Hbl & Hbok & Hlen & Htake).
  assert (prefix_is (buffer ctx) rest) as Hp0 by done.
  assert (st_ok (state ctx)) as Hst by (rewrite Hs; apply foldl_compress_ok, IV_ok).
  pose proof (pad_split blks rest Hb Hr) as Hpad.
  unfold sha256_final, SHA256_BLOCK_SIZE. rewrite Hlen, Ht.
  destruct (prefix_write _ rest [0x80] (zlen rest) Hp0) as (b1 & -> & Hp1);
    [by repeat constructor|done|simpl; lia|]. xbind.
  assert (zlen (rest ++ [0x80]) = zlen rest + 1) as Hl1 by (rewrite length_app; simpl; lia).
  destruct (56 <? zlen rest + 1) eqn:E.
  - destruct (zero_fill_prefix 65 64 b1 _ (zlen rest + 1) Hp1) as (b2 & -> & Hp2); [lia..|]. xbind.
    pose proof (prefix_full _ _ Hp2) as Hfull.
    rewrite transform_compress by (done || apply Hp2). xbind.
    assert (prefix_is b2 []) as Hp3 by (split_and!; [apply Hp2|apply Hp2|done]).
    destruct (zero_fill_prefix 65 56 b2 [] 0 Hp3) as (b4 & -> & Hp4); [simpl; lia..|]. xbind.
    edestruct (put_length_prefix 8 (u64 (u64 (zlen (concat blks ++ rest)) * 8)) b4 _ 56 Hp4)
      as (b5 & -> & Hp5); [done|simpl; lia|]. xbind.
    rewrite transform_compress by (apply compress_ok || apply Hp5; done). xbind.
    rewrite (digest_of_blocks _ (blks ++ [b2; b5])).
    + by rewrite foldl_app, Hs.
    + rewrite Hpad, concat_app. simpl. rewrite app_nil_r.
      rewrite (prefix_full _ _ Hp5), Hfull, bit_len_bytes, Hl1
        by (rewrite !length_app, length_replicate; simpl in *; lia).
      replace (zlen rest <? 56) with false by lia.
      replace (Z.to_nat (119 - zlen rest)) with (Z.to_nat (64 - (zlen rest + 1)) + 56)%nat by lia.
      rewrite replicate_add, <- !app_assoc. done.
    + apply Forall_app_2; [done|]. repeat constructor; [apply Hp2|apply Hp5].
  - destruct (zero_fill_prefix 65 56 b1 _ (zlen rest + 1) Hp1) as (b2 & H2 & Hp2); [lia..|].
    xbind. rewrite H2. xbind.
    assert (length ((rest ++ [0x80]) ++ replicate (Z.to_nat (56 - zlen (rest ++ [0x80]))) 0) = 56%nat)
      as Hl2 by (rewrite length_app, length_replicate; lia).
    edestruct (put_length_prefix 8 (u64 (u64 (zlen (concat blks ++ rest)) * 8)) b2 _ 56 Hp2)
      as (b5 & -> & Hp5); [rewrite Hl2; lia|rewrite Hl2; lia|]. xbind.
    rewrite transform_compress by (apply Hst || apply Hp5). xbind.
    rewrite (digest_of_blocks _ (blks ++ [b5])).
    + by rewrite foldl_app, Hs.
    + rewrite Hpad, concat_app. simpl. rewrite app_nil_r.
      rewrite (prefix_full _ _ Hp5), bit_len_bytes, Hl1
        by (rewrite length_app, Hl2; simpl; lia).
      replace (zlen rest <? 56) with true by lia.
      replace (56 - (zlen rest + 1)) with (55 - zlen rest) by lia.
      rewrite <- !app_assoc. done.
    + apply Forall_app_2; [done|]. repeat constructor. apply Hp5.
Qed.

Fixpoint sha256_updates (ctx : sha256_ctx) (chunks : list (list Z)) : exec sha256_ctx :=
  match chunks with
  | [] => Ret ctx
  | c :: chunks' => ctx' ← sha256_update ctx c; sha256_updates ctx' chunks'
  end.

Lemma holds_updates ctx m chunks : holds ctx m -> Forall bytes_ok chunks ->
  exists ctx', sha256_updates ctx chunks = Ret ctx' /\ holds ctx' (m ++ concat chunks).
Proof.
  intros Hh Hok. revert ctx m Hh. induction Hok as [|c chunks Hc Hok IH]; intros ctx m Hh; simpl.
  { exists ctx. by rewrite app_nil_r. }
  destruct (holds_update ctx m c Hh Hc) as (ctx1 & -> & H1).
  destruct (IH ctx1 _ H1) as (ctx2 & H2 & H3). exists ctx2. split; [exact H2|].
  by rewrite app_assoc.
Qed.

Lemma sha256_updates_app ctx a b :
  sha256_updates ctx (a ++ b) = (ctx' ← sha256_updates ctx a; sha256_updates ctx' b).
Proof.
  revert ctx. induction a as [|c a IH]; intros ctx; simpl; [done|].
  destruct (sha256_update ctx c); simpl; [apply IH|done|done].
Qed.

(** One digest over a message in pieces. *)
Definition sha256_of_chunks (ctx : sha256_ctx) (chunks : list (list Z)) : exec (list Z) :=
  ctx' ← sha256_updates (sha256_init ctx) chunks; sha256_final ctx'.

Lemma sha256_of_chunks_correct ctx chunks :
  length (buffer ctx) = 64%nat -> bytes_ok (buffer ctx) -> Forall bytes_ok chunks ->
  sha256_of_chunks ctx chunks = Ret (Fips.sha256 (concat chunks)).
Proof.
  intros Hl Hb Hc. unfold sha256_of_chunks.
  destruct (holds_updates _ [] chunks (holds_init ctx Hl Hb) Hc) as (ctx' & -> & H).
  by apply sha256_final_correct.
Qed.

Lemma fips_length m : length (Fips.sha256 m) = 32%nat.
Proof.
  unfold Fips.sha256. generalize (Fips.blocks (length (Fips.pad m) / 64) (Fips.pad m)) as bl. intros bl.
  destruct (foldl_compress_ok bl _ IV_ok) as [Hl _].
  by destruct (foldl _ _ bl) as [|? [|? [|? [|? [|? [|? [|? [|? [|]]]]]]]]].
Qed.

Lemma fips_bytes m : bytes_ok (Fips.sha256 m).
Proof.
  unfold Fips.sha256. generalize (foldl Fips.compress Fips.IV
    (Fips.blocks (length (Fips.pad m) / 64) (Fips.pad m))) as l. intros l.
  induction l as [|x l IH]; [constructor|]. cbn [map concat].
  apply Forall_app_2; [apply be_bytes_ok|exact IH].
Qed.

(** C40. However a message is cut into updates, and whatever the context's
    buffer held before, the incremental digest never leaves its buffers and
    returns the one-shot FIPS 180-4 digest of the whole message. *)
Theorem sha256_chunked ctx chunks :
  length (buffer ctx) = 64%nat -> bytes_ok (buffer ctx) -> Forall bytes_ok chunks ->
  sha256_of_chunks ctx chunks = Ret (Fips.sha256 (concat chunks)) /\
  length (Fips.sha256 (concat chunks)) = Z.to_nat SHA256_DIGEST_SIZE.
Proof. intros. split; [by apply sha256_of_chunks_correct|apply fips_length]. Qed.

Definition stale_ctx : sha256_ctx :=
  {| state := []; total_len := 9; buffer := replicate 64 255; buffer_len := 3 |}.

(** The standard's vector for ["abc"]. *)
Lemma sha256_chunked_witness :
  (sha256_of_chunks stale_ctx [bs "ab"; []; bs "c"] = Ret (Fips.sha256 (bs "abc")) /\
   length (Fips.sha256 (bs "abc")) = 32%nat) /\
  concat (map hex_byte (Fips.sha256 (bs "abc"))) =
  bs "ba7816bf8f01cfea414140de5dae2223b00361a396177a9cb410ff61f20015ad".
Proof.
  split; [|vm_compute; reflexivity].
  apply (sha256_chunked stale_ctx [bs "ab"; []; bs "c"]); [reflexivity| |].
  - apply Forall_replicate. done.
  - repeat (apply Forall_cons_2; [apply bs_bytes_ok || constructor|]). constructor.
Defined.
