(* ===== verification/EventId.v ===== *)
(** * EventId: deterministic event identity ([libs/cloudflow-core/cf_event_id.c])

    The identifier is the lower-case hex of the first 16 bytes of a SHA-256
    over four length-prefixed fields.  The client of [Sha256] uses only its
    incremental-digest theorem; the theorems here say which bytes are hashed,
    that the framing makes them determine the four inputs, and the shape of
    the output. *)

From S2P Require Import Prelude Sha256.

Definition CF_EVENT_ID_LEN : Z := 33.

Definition cf_event_id_hash_field (ctx : sha256_ctx) (data : list Z) : exec sha256_ctx :=
  let len := zlen data in
  let len_bytes := [u8 (Z.shiftr len 24); u8 (Z.shiftr len 16); u8 (Z.shiftr len 8); u8 len] in
  ctx ← sha256_update ctx len_bytes;
  if 0 <? len then sha256_update ctx data else Ret ctx.

(** The hex loop: two digits per byte, for [n] bytes from [i]. *)
Fixpoint hex_loop (n : nat) (digest : list Z) (i : Z) : exec (list Z) :=
  match n with
  | O => Ret []
  | S n' =>
      b ← rd digest i;
      rest ← hex_loop n' digest (i + 1);
      Ret (hex_byte b ++ rest)
  end.

(** [None] is a NULL string.  [uninit] is the indeterminate content of the
    context on the stack.  The result is the 33 bytes of [out]. *)
Definition cf_event_id (uninit : sha256_ctx) (source_host capture_interface : option (list Z))
    (observed_time_unix_nano : Z) (frame : list Z) : exec (list Z) :=
  let t := u64 observed_time_unix_nano in
  let source_host := default [] source_host in
  let capture_interface := default [] capture_interface in
  let time_bytes := map (fun i => u8 (Z.shiftr t (8 * (7 - i)))) [0; 1; 2; 3; 4; 5; 6; 7] in
  let ctx := sha256_init uninit in
  ctx ← cf_event_id_hash_field ctx source_host;
  ctx ← cf_event_id_hash_field ctx capture_interface;
  ctx ← cf_event_id_hash_field ctx time_bytes;
  ctx ← cf_event_id_hash_field ctx frame;
  digest ← sha256_final ctx;
  out ← hex_loop 16 digest 0;
  Ret (out ++ [0]).

(** ** What is hashed *)

Definition field (data : list Z) : list Z := be_bytes 4 (zlen data) ++ data.

Definition preimage (host iface : list Z) (time : Z) (frame : list Z) : list Z :=
  field host ++ field iface ++ field (be_bytes 8 time) ++ field frame.

Definition event_id_of (host iface : list Z) (time : Z) (frame : list Z) : list Z :=
  concat (map hex_byte (take 16 (Fips.sha256 (preimage host iface time frame)))).

Definition uninit_ok (ctx : sha256_ctx) : Prop :=
  length (buffer ctx) = 64%nat /\ bytes_ok (buffer ctx).

Lemma hash_field_holds ctx m data : holds ctx m -> bytes_ok data ->
  exists ctx', cf_event_id_hash_field ctx data = Ret ctx' /\ holds ctx' (m ++ field data).
Proof.
  intros Hh Hd. unfold cf_event_id_hash_field, field. rewrite app_assoc.
  change [u8 _; u8 _; u8 _; u8 (zlen data)] with (be_bytes 4 (zlen data)).
  destruct (holds_update ctx m _ Hh (be_bytes_ok 4 (zlen data))) as (c1 & -> & H1). xbind.
  destruct (0 <? zlen data) eqn:E; [by apply holds_update|].
  exists c1. destruct data; simpl in *; [by rewrite app_nil_r|lia].
Qed.

Lemma hex_loop_take n digest i : bytes_ok digest -> (i + n <= length digest)%nat ->
  hex_loop n digest (Z.of_nat i) = Ret (concat (map hex_byte (take n (drop i digest)))).
Proof.
  intros Hok. revert i. induction n as [|n IH]; intros i Hl; [done|]. cbn [hex_loop].
  destruct (lookup_lt_is_Some_2 digest i) as [b Hb]; [lia|].
  rewrite (rd_lookup _ _ b) by (lia || by rewrite Nat2Z.id). xbind.
  replace (Z.of_nat i + 1) with (Z.of_nat (S i)) by lia.
  rewrite IH by lia. rewrite (drop_S _ _ _ Hb). done.
Qed.

Lemma time_bytes_be t :
  map (fun i => u8 (Z.shiftr (u64 t) (8 * (7 - i)))) [0; 1; 2; 3; 4; 5; 6; 7] = be_bytes 8 t.
Proof. unfold u64. rewrite <- (be_bytes_mod 8 t) by lia. done. Qed.

Lemma cf_event_id_of uninit host iface time frame :
  uninit_ok uninit -> bytes_ok (default [] host) -> bytes_ok (default [] iface) ->
  bytes_ok frame ->
  cf_event_id uninit host iface time frame =
  Ret (event_id_of (default [] host) (default [] iface) time frame ++ [0]).
Proof.
  intros [Hl Hb] Hh Hi Hf. unfold cf_event_id. rewrite time_bytes_be.
  destruct (hash_field_holds _ _ _ (holds_init uninit Hl Hb) Hh) as (c1 & -> & H1). xbind.
  destruct (hash_field_holds _ _ _ H1 Hi) as (c2 & -> & H2). xbind.
  destruct (hash_field_holds _ _ _ H2 (be_bytes_ok 8 time)) as (c3 & -> & H3). xbind.
  destruct (hash_field_holds _ _ _ H3 Hf) as (c4 & -> & H4). xbind.
  rewrite (sha256_final_correct _ _ H4). xbind.
  rewrite <- !app_assoc. simpl app at 1. fold (preimage (default [] host) (default [] iface) time frame).
  rewrite (hex_loop_take 16 _ 0 (fips_bytes _)) by (rewrite fips_length; lia). done.
Qed.

(** The identifier is the hex of the first half of the digest of the four
    length-prefixed fields; a NULL host or interface is the empty string. *)
Theorem event_id_correct uninit host iface time frame :
  uninit_ok uninit -> bytes_ok (default [] host) -> bytes_ok (default [] iface) ->
  bytes_ok frame ->
  cf_event_id uninit host iface time frame =
    Ret (event_id_of (default [] host) (default [] iface) time frame ++ [0]) /\
  zlen (event_id_of (default [] host) (default [] iface) time frame ++ [0]) = CF_EVENT_ID_LEN.
Proof.
  intros. split; [by apply cf_event_id_of|]. rewrite length_app. unfold event_id_of.
  assert (length (take 16 (Fips.sha256 (preimage (default [] host) (default [] iface) time frame)))
          = 16%nat) as Hl by (rewrite length_take, fips_length; done).
  revert Hl. generalize (take 16 (Fips.sha256 (preimage (default [] host) (default [] iface) time frame))).
  intros l Hl. do 17 (destruct l as [|? l]; try done).
Qed.

Lemma event_id_correct_witness :
  cf_event_id stale_ctx None (Some (bs "eth0")) (-1) [1; 2] =
    Ret (event_id_of [] (bs "eth0") (-1) [1; 2] ++ [0]) /\
  zlen (event_id_of [] (bs "eth0") (-1) [1; 2] ++ [0]) = CF_EVENT_ID_LEN.
Proof.
  apply (event_id_correct stale_ctx None (Some (bs "eth0")) (-1) [1; 2]).
  - split; [reflexivity|]. by apply Forall_replicate.
  - constructor.
  - apply bs_bytes_ok.
  - repeat (apply Forall_cons_2; [done|]). constructor.
Defined.

(** ** The framing is injective *)

Lemma field_inj a b r s : zlen a < 2 ^ 32 -> zlen b < 2 ^ 32 ->
  field a ++ r = field b ++ s -> a = b /\ r = s.
Proof.
  intros Ha Hb. unfold field. rewrite <- !app_assoc. intros H.
  apply app_inj_1 in H as [Hlen H]; [|by rewrite !be_bytes_length].
  apply (f_equal (be_value 0)) in Hlen. rewrite !be_value_be_bytes in Hlen.
  rewrite !Z.mod_small in Hlen by (simpl; lia). apply app_inj_1 in H; [done|]. lia.
Qed.

(** The hashed bytes determine the four inputs: two events with the same
    preimage have the same host, interface, time and frame, for fields shorter
    than 4 GiB and times in the 64-bit range.  Distinct events therefore share
    an identifier only through a collision of the truncated digest. *)
Theorem event_preimage_injective h1 i1 t1 f1 h2 i2 t2 f2 :
  Forall (fun x => zlen x < 2 ^ 32) [h1; i1; f1; h2; i2; f2] ->
  - 2 ^ 63 <= t1 < 2 ^ 63 -> - 2 ^ 63 <= t2 < 2 ^ 63 ->
  preimage h1 i1 t1 f1 = preimage h2 i2 t2 f2 ->
  h1 = h2 /\ i1 = i2 /\ t1 = t2 /\ f1 = f2.
Proof.
  intros Hl Ht1 Ht2 H. rewrite !Forall_cons_iff in Hl.
  destruct Hl as (?&?&?&?&?&?&_). unfold preimage in H.
  apply field_inj in H as [-> H]; [|done|done].
  apply field_inj in H as [-> H]; [|done|done].
  apply field_inj in H as [Ht H]; [|by rewrite be_bytes_length|by rewrite be_bytes_length].
  rewrite <- (app_nil_r (field f1)), <- (app_nil_r (field f2)) in H.
  apply field_inj in H as [-> _]; [|done|done]. split_and!; try done.
  apply (f_equal (be_value 0)) in Ht. rewrite !be_value_be_bytes in Ht. simpl in Ht. lia.
Qed.

(** The two pairs the header names differ, as the framing promises. *)
Lemma event_preimage_injective_witness :
  preimage (bs "ab") (bs "c") 0 [] <> preimage (bs "a") (bs "bc") 0 [].
Proof.
  intros H.
  destruct (event_preimage_injective (bs "ab") (bs "c") 0 [] (bs "a") (bs "bc") 0 [])
    as [E _]; [repeat constructor|done|done|exact H|discriminate E].
Defined.
