(* ===== verification/IpFmt.v ===== *)
(** * IpFmt: address text ([libs/cloudflow-packet/cf_ipfmt.c])

    [inet_ntop] is libc's formatter of an address, given its family and its
    bytes; a NULL result is the empty string.  A formatted buffer is its bytes
    before the terminating NUL. *)

From S2P Require Import Prelude.

(** [snprintf] into a buffer of [n] bytes, arguments already formatted. *)
Definition snprintf (n : Z) (s : list Z) : list Z := take (Z.to_nat (n - 1)) s.

(** ["%s[%zu]"] into a buffer of [size] bytes. *)
Definition indexed_path (size : Z) (prefix : list Z) (n : nat) : list Z :=
  snprintf size (prefix ++ bs "[" ++ dec (Z.of_nat n) ++ bs "]").

Definition cf_format_mac (mac : list Z) : exec (list Z) :=
  b0 ← rd mac 0; b1 ← rd mac 1; b2 ← rd mac 2; b3 ← rd mac 3; b4 ← rd mac 4; b5 ← rd mac 5;
  Ret (snprintf 18 (hex_byte b0 ++ bs ":" ++ hex_byte b1 ++ bs ":" ++ hex_byte b2 ++ bs ":" ++
                    hex_byte b3 ++ bs ":" ++ hex_byte b4 ++ bs ":" ++ hex_byte b5)).

Section Format.
Variable inet_ntop : Z -> list Z -> list Z.

(** An address is its 16 bytes. *)
Definition cf_format_ip (ip_version : Z) (ip : list Z) : list Z :=
  if ip_version =? 4 then inet_ntop 4 (take 4 ip)
  else if ip_version =? 6 then inet_ntop 6 ip
  else [].
End Format.

(** The text of a MAC address. *)
Definition mac_text (mac : list Z) : list Z :=
  match mac with
  | [b0; b1; b2; b3; b4; b5] =>
      hex_byte b0 ++ bs ":" ++ hex_byte b1 ++ bs ":" ++ hex_byte b2 ++ bs ":" ++
      hex_byte b3 ++ bs ":" ++ hex_byte b4 ++ bs ":" ++ hex_byte b5
  | _ => []
  end.

Lemma cf_format_mac_of mac : length mac = 6%nat -> cf_format_mac mac = Ret (mac_text mac).
Proof. intros H. by destruct mac as [|? [|? [|? [|? [|? [|? [|]]]]]]]. Qed.
