(* ===== verification/ParseUtil.v ===== *)
(** * ParseUtil: the shared parser helpers
    ([libs/cloudflow-packet/cf_parse_util.c])

    Bounds-checked readers, string and byte builders, and the warning list.
    A reader returns [None] where the C function returns 0 and leaves its
    output alone.  [malloc_ok] and [calloc_ok] say whether an allocation
    succeeds. *)

From S2P Require Import Prelude.

(** ** Readers

    [off + n] is a [size_t] sum: it wraps. *)

Definition cf_get_u8 (d : list Z) (off : Z) : exec (option Z) :=
  if zlen d <? u64 (off + 1) then Ret None
  else v ← rd d off; Ret (Some v).

Definition cf_get_be16 (d : list Z) (off : Z) : exec (option Z) :=
  if zlen d <? u64 (off + 2) then Ret None
  else
    a ← rd d off; b ← rd d (off + 1);
    Ret (Some (be16_of a b)).

Definition cf_get_be32 (d : list Z) (off : Z) : exec (option Z) :=
  if zlen d <? u64 (off + 4) then Ret None
  else
    a ← rd d off; b ← rd d (off + 1); c ← rd d (off + 2); e ← rd d (off + 3);
    Ret (Some (be32_of a b c e)).

(** ** Strings and bytes *)

(** [None] is a NULL argument; a failed allocation yields the empty string. *)
Definition cf_dup_str (malloc_ok : bool) (s : option (list Z)) : list Z :=
  match s with
  | None => []
  | Some s =>
      match c_str s with
      | [] => []
      | n => if malloc_ok then n else []
      end
  end.

(** The bytes of the copy before its added NUL. *)
Definition cf_dup_strn (malloc_ok : bool) (bytes : option (list Z)) : list Z :=
  match bytes with
  | None => []
  | Some b => if zlen b =? 0 then [] else if malloc_ok then b else []
  end.

Definition cf_is_printable (bytes : list Z) : bool :=
  if zlen bytes =? 0 then false
  else forallb (fun b => negb ((b <? 0x20) || (0x7e <? b))) bytes.

Definition cf_hex_encode (malloc_ok : bool) (bytes : option (list Z)) : list Z :=
  match bytes with
  | None => []
  | Some b => if zlen b =? 0 then [] else if malloc_ok then concat (map hex_byte b) else []
  end.

(** [None] is [data = NULL, len = 0]. *)
Definition cf_set_bytes (malloc_ok : bool) (bytes : option (list Z)) : option (list Z) :=
  match bytes with
  | None => None
  | Some b => if zlen b =? 0 then None else if malloc_ok then Some b else None
  end.

(** ** Warnings *)

Record parser_warning := {
  pw_code : list Z;
  pw_message : list Z;
  pw_field_path : list Z;
  pw_raw_context : option (list Z)
}.

(** [items] holds the first [count] entries of the array, whose length is the
    list's; [cap] is the allocated size. *)
Record cf_warn_list_t := {
  wl_items : list parser_warning;
  wl_cap : Z
}.

Definition cf_warn_list_init : cf_warn_list_t := {| wl_items := []; wl_cap := 0 |}.

Definition warn_list_grow (realloc_ok : bool) (l : cf_warn_list_t) : bool * cf_warn_list_t :=
  if zlen (wl_items l) <? wl_cap l then (true, l)
  else
    let new_cap := if wl_cap l =? 0 then 4 else u64 (wl_cap l * 2) in
    if realloc_ok then (true, {| wl_items := wl_items l; wl_cap := new_cap |})
    else (false, l).

Definition cf_warn (realloc_ok calloc_ok malloc_ok : bool) (l : cf_warn_list_t)
    (code message field_path : list Z) (ctx : option (list Z)) : cf_warn_list_t :=
  let '(ok, l) := warn_list_grow realloc_ok l in
  if negb ok then l
  else if negb calloc_ok then l
  else
    {| wl_items := wl_items l ++
         [{| pw_code := cf_dup_str malloc_ok (Some code);
             pw_message := cf_dup_str malloc_ok (Some message);
             pw_field_path := cf_dup_str malloc_ok (Some field_path);
             pw_raw_context := cf_set_bytes malloc_ok (take 16 <$> ctx) |}];
       wl_cap := wl_cap l |}.

(** The items handed over, and the emptied list. *)
Definition cf_warn_list_take (l : cf_warn_list_t) : list parser_warning * cf_warn_list_t :=
  (wl_items l, {| wl_items := []; wl_cap := 0 |}).

(** ** The helpers when memory is available *)

(** [cf_dup_str] of a buffer, [cf_set_bytes] of bytes, with memory. *)
Definition dup_str (s : list Z) : list Z := cf_dup_str true (Some s).
Definition set_bytes (b : list Z) : option (list Z) := cf_set_bytes true (Some b).
Definition warn (w : cf_warn_list_t) (code msg : string) (path : list Z)
    (ctx : option (list Z)) : cf_warn_list_t :=
  cf_warn true true true w (bs code) (bs msg) path ctx.

(** ** What a reader promises *)

(** The value of [n] bytes at [off], when they are there. *)
Definition be_at (d : list Z) (off n : Z) : option Z :=
  if off + n <=? zlen d then Some (be_value 0 (slice d off n)) else None.

Lemma get_u8_at d off : bytes_ok d -> 0 <= off -> off + 1 < 2 ^ 64 ->
  cf_get_u8 d off = Ret (be_at d off 1).
Proof.
  intros Hok Ho Hw. unfold cf_get_u8, be_at. rewrite u64_id by lia.
  destruct (zlen d <? off + 1) eqn:E.
  - by replace (off + 1 <=? zlen d) with false by lia.
  - replace (off + 1 <=? zlen d) with true by lia.
    destruct (rd_in d off Hok) as (a & -> & ? & Ha); [lia|]. xbind.
    rewrite (slice_S _ _ _ a), slice_0 by (done || lia). simpl. do 2 f_equal.
Qed.

Lemma get_be16_at d off : bytes_ok d -> 0 <= off -> off + 2 < 2 ^ 64 ->
  cf_get_be16 d off = Ret (be_at d off 2).
Proof.
  intros Hok Ho Hw. unfold cf_get_be16, be_at. rewrite u64_id by lia.
  destruct (zlen d <? off + 2) eqn:E.
  - by replace (off + 2 <=? zlen d) with false by lia.
  - replace (off + 2 <=? zlen d) with true by lia.
    destruct (rd_in d off Hok) as (a & -> & ? & Ha); [lia|].
    destruct (rd_in d (off + 1) Hok) as (b & -> & ? & Hb); [lia|]. xbind.
    rewrite (slice_S _ _ _ a), (slice_S _ _ _ b), slice_0 by (done || lia).
    rewrite be16_of_eq by done. simpl. do 2 f_equal.
Qed.

Lemma get_be32_at d off : bytes_ok d -> 0 <= off -> off + 4 < 2 ^ 64 ->
  cf_get_be32 d off = Ret (be_at d off 4).
Proof.
  intros Hok Ho Hw. unfold cf_get_be32, be_at. rewrite u64_id by lia.
  destruct (zlen d <? off + 4) eqn:E.
  - by replace (off + 4 <=? zlen d) with false by lia.
  - replace (off + 4 <=? zlen d) with true by lia.
    destruct (rd_in d off Hok) as (a & -> & ? & Ha); [lia|].
    destruct (rd_in d (off + 1) Hok) as (b & -> & ? & Hb); [lia|].
    destruct (rd_in d (off + 2) Hok) as (c & -> & ? & Hc); [lia|].
    destruct (rd_in d (off + 3) Hok) as (e & -> & ? & He); [lia|]. xbind.
    replace (off + 2) with (off + 1 + 1) in Hc by lia.
    replace (off + 3) with (off + 1 + 1 + 1) in He by lia.
    rewrite (slice_S _ _ _ a), (slice_S _ _ _ b), (slice_S _ _ _ c), (slice_S _ _ _ e)
      by (done || lia).
    rewrite slice_0, be32_of_eq by done. simpl. do 2 f_equal.
Qed.

Lemma be_at_bound d off n v : bytes_ok d -> 0 <= off -> 0 <= n ->
  be_at d off n = Some v -> off + n <= zlen d /\ 0 <= v < 256 ^ n.
Proof.
  intros Hok Ho Hn. unfold be_at. destruct (_ <=? _) eqn:E; [|done]. intros [= <-].
  split; [lia|]. pose proof (be_value_bound (slice d off n) 0 (slice_bytes_ok _ _ _ Hok)) as H.
  rewrite zlen_slice in H by lia. lia.
Qed.

(** ** What the parsers share *)

(** What a warning adds to the list. *)
Definition warning (code msg : string) (path ctx : list Z) : parser_warning :=
  {| pw_code := dup_str (bs code); pw_message := dup_str (bs msg); pw_field_path := dup_str path;
     pw_raw_context := set_bytes (take 16 ctx) |}.

Lemma warn_adds l code msg path ctx :
  wl_items (warn l code msg path (Some ctx)) = wl_items l ++ [warning code msg path ctx].
Proof. unfold warn, cf_warn, warn_list_grow. by destruct (_ <? _). Qed.

(** Bytes, by computation. *)
Lemma bytes_okb l : forallb (fun b => (0 <=? b) && (b <? 256)) l = true -> bytes_ok l.
Proof.
  rewrite forallb_forall. intros H. apply Forall_forall. intros b Hb. apply H in Hb. unfold is_byte. lia.
Qed.

(** Reading at the start of a suffix. *)
Lemma rd_suffix pre l k : 0 <= k -> rd (pre ++ l) (zlen pre + k) = rd l k.
Proof. intros Hk. rewrite rd_app_r by lia. f_equal. lia. Qed.

Lemma rd_suffix0 pre x l : rd (pre ++ x :: l) (zlen pre) = Ret x.
Proof. rewrite <-(Z.add_0_r (zlen pre)), rd_suffix by lia. done. Qed.

Lemma rd_n_suffix pre l k n : 0 <= k -> 0 <= n -> k + n <= zlen l ->
  rd_n (pre ++ l) (zlen pre + k) n = Ret (slice l k n).
Proof.
  intros Hk Hn Hl. rewrite rd_n_ok by (rewrite ?length_app; lia).
  rewrite slice_app_r by lia. do 2 f_equal. lia.
Qed.

(** How a walk sees what is left of its data. *)
Lemma suffix_view (data pre rest : list Z) : data = pre ++ rest -> bytes_ok data ->
  zlen data = zlen pre + zlen rest /\ bytes_ok rest /\
  (forall k, 0 <= k < zlen rest -> exists b, rest !! Z.to_nat k = Some b /\ is_byte b /\
     rd data (zlen pre + k) = Ret b) /\
  (forall k n, 0 <= k -> 0 <= n -> k + n <= zlen rest ->
     rd_n data (zlen pre + k) n = Ret (slice rest k n)).
Proof.
  intros -> Hok. apply Forall_app in Hok as [_ Hrest]. split; [rewrite length_app; lia|].
  split; [done|]. split.
  - intros k Hk. destruct (rd_in rest k Hrest Hk) as (b & Hrd & Hb & Hl).
    exists b. split; [done|]. split; [done|]. by rewrite rd_suffix by lia.
  - intros k n Hk Hn Hkn. by rewrite rd_n_suffix.
Qed.

(** ** Properties *)

(** The three readers return the big-endian value exactly when all their
    bytes are inside the buffer, and never read outside it, for every offset
    whose end does not wrap a [size_t]. *)
Theorem readers_correct d off :
  bytes_ok d -> 0 <= off -> off + 4 <= SIZE_MAX ->
  cf_get_u8 d off = Ret (be_at d off 1) /\
  cf_get_be16 d off = Ret (be_at d off 2) /\
  cf_get_be32 d off = Ret (be_at d off 4) /\
  (forall n v, 0 <= n -> be_at d off n = Some v -> off + n <= zlen d /\ 0 <= v < 256 ^ n).
Proof.
  unfold SIZE_MAX. intros. split_and!.
  - apply get_u8_at; [done|done|lia].
  - apply get_be16_at; [done|done|lia].
  - apply get_be32_at; [done|done|lia].
  - intros. by apply be_at_bound.
Qed.

Lemma readers_correct_witness :
  cf_get_be16 [1; 2; 3] 1 = Ret (Some 515) /\ cf_get_be16 [1; 2; 3] 2 = Ret None.
Proof.
  destruct (readers_correct [1; 2; 3] 1) as (_ & H & _); [|done|done|].
  { repeat (apply Forall_cons_2; [done|]). constructor. }
  split; [exact H|reflexivity].
Defined.

(** The bound in [readers_correct] is needed: at the top of the [size_t]
    range the guard's sum wraps to a small number and the 16-bit reader reads
    outside the buffer. *)
Theorem reader_guard_wraps d :
  zlen d <= SIZE_MAX -> cf_get_be16 d (SIZE_MAX - 1) = Oob.
Proof.
  unfold cf_get_be16, SIZE_MAX. intros Hd.
  replace (u64 (2 ^ 64 - 1 - 1 + 2)) with 0 by reflexivity.
  replace (zlen d <? 0) with false by lia.
  assert (rd d (2 ^ 64 - 1 - 1 + 1) = Oob) as ->.
  { unfold rd. rewrite lookup_ge_None_2 by lia. by case_match. }
  unfold rd. case_match; [|done]. by case_match.
Qed.

Lemma reader_guard_wraps_witness : cf_get_be16 [1; 2; 3] (SIZE_MAX - 1) = Oob.
Proof. apply (reader_guard_wraps [1; 2; 3]). done. Defined.

Lemma warn_list_cap_step r c m l code msg path ctx :
  zlen (wl_items l) <= wl_cap l < 2 ^ 63 ->
  zlen (wl_items (cf_warn r c m l code msg path ctx)) <= wl_cap (cf_warn r c m l code msg path ctx).
Proof.
  intros Hl. unfold cf_warn, warn_list_grow.
  destruct (_ <? _) eqn:E; simpl; [destruct c; simpl; rewrite ?length_app; simpl; lia|].
  destruct r; simpl; [|lia]. destruct c; simpl; rewrite ?length_app; simpl;
    destruct (wl_cap l =? 0) eqn:E0; try lia; rewrite u64_id; lia.
Qed.

(** Appending a warning never writes past the allocated array, keeps the
    earlier warnings in order, and when every allocation succeeds adds exactly
    one entry whose strings are the arguments and whose context is clipped to
    16 bytes. *)
Theorem warn_appends r c m l code msg path ctx :
  zlen (wl_items l) <= wl_cap l < 2 ^ 63 ->
  let l' := cf_warn r c m l code msg path ctx in
  zlen (wl_items l') <= wl_cap l' /\
  (wl_items l' = wl_items l \/ exists w, wl_items l' = wl_items l ++ [w] /\
     forall b, pw_raw_context w = Some b -> 0 < zlen b <= 16) /\
  (r = true -> c = true -> m = true ->
     exists w, wl_items l' = wl_items l ++ [w] /\
       pw_code w = c_str code /\ pw_message w = c_str msg /\ pw_field_path w = c_str path /\
       pw_raw_context w = match take 16 <$> ctx with Some [] => None | x => x end).
Proof.
  intros Hl l'. split; [by apply warn_list_cap_step|].
  assert (forall s, cf_dup_str true (Some s) = c_str s) as Hdup
    by (intros s; unfold cf_dup_str; by destruct (c_str s)).
  assert (forall w, cf_set_bytes m (take 16 <$> ctx) = Some w -> 0 < zlen w <= 16) as Hctx.
  { intros w. destruct ctx as [x|]; [|done]. simpl. case_match; [done|].
    destruct m; [|done]. intros [= <-]. rewrite length_take in *. lia. }
  unfold l', cf_warn, warn_list_grow. split.
  - destruct (_ <? _); [|destruct r; [|by left]]; destruct c; simpl; try (by left); right;
      eexists; split; try done; exact Hctx.
  - intros -> -> ->.
    assert (cf_set_bytes true (take 16 <$> ctx) = match take 16 <$> ctx with Some [] => None | x => x end)
      as Hs by (destruct ctx as [[|? x]|]; done).
    destruct (_ <? _); eexists; (split; [reflexivity|]); split_and!;
      solve [apply Hdup|exact Hs].
Qed.

Lemma warn_appends_witness :
  let l' := cf_warn true true true cf_warn_list_init (bs "c") (bs "m") (bs "p") None in
  zlen (wl_items l') <= wl_cap l' /\ length (wl_items l') = 1%nat.
Proof.
  destruct (warn_appends true true true cf_warn_list_init (bs "c") (bs "m") (bs "p") None)
    as [H _]; [done|]. split; [exact H|reflexivity].
Defined.
