(* ===== verification/Decap.v ===== *)
(** * Decap: Ethernet to transport decapsulation
    ([libs/cloudflow-packet/cf_decap.c])

    One Ethernet/VLAN/IPv4/IPv6 walk shared by the UDP and TCP wrappers.  A
    frame is the list of its captured bytes, so [frame_len] is its length, and
    a payload view is an offset into the frame and a length.  The link and
    network fields that the three structs of the source repeat are one record
    here ([l3]); copying that block ([copy_l3_udp], [copy_l3_tcp]) copies the
    record.  Sums of in-bounds offsets and 16-bit lengths are not wrapped: a
    captured frame is far smaller than the address space.  Multi-byte reads
    are a little-endian load and a swap, as the code does them on its hosts. *)

From S2P Require Import Prelude.

Definition ETHERTYPE_VLAN : Z := 0x8100.
Definition ETHERTYPE_QINQ : Z := 0x88A8.
Definition ETHERTYPE_IPV4 : Z := 0x0800.
Definition ETHERTYPE_IPV6 : Z := 0x86DD.
Definition IP_PROTO_TCP : Z := 6.
Definition IP_PROTO_UDP : Z := 17.
Definition IPV6_PROTO_HOPOPTS : Z := 0.
Definition IPV6_PROTO_ROUTING : Z := 43.
Definition IPV6_PROTO_FRAGMENT : Z := 44.
Definition IPV6_PROTO_DSTOPTS : Z := 60.
Definition ETH_HDR_LEN : Z := 14.
Definition VLAN_TAG_LEN : Z := 4.
Definition IPV4_MIN_HDR_LEN : Z := 20.
Definition IPV6_FIXED_HDR_LEN : Z := 40.
Definition IPV6_FRAG_HDR_LEN : Z := 8.
Definition UDP_HDR_LEN : Z := 8.
Definition TCP_MIN_HDR_LEN : Z := 20.
Definition IPV6_MAX_EXT_HEADERS : nat := 8.

Inductive cf_decap_result_t : Type :=
| CF_DECAP_OK
| CF_DECAP_NOT_UDP
| CF_DECAP_TRUNCATED
| CF_DECAP_UNSUPPORTED
| CF_DECAP_NOT_TCP.

#[export] Instance cf_decap_result_eq_dec : EqDecision cf_decap_result_t.
Proof. solve_decision. Defined.

(** The link and network block. *)
Record l3 := {
  src_mac : list Z; dst_mac : list Z;
  vlan_ids : list Z; vlan_count : Z;
  ethertype : Z;
  ip_version : Z;
  src_ip : list Z; dst_ip : list Z;
  next_header : Z;
  ttl_or_hop_limit : Z;
  dscp : Z; ecn : Z;
  fragmented : Z;
  fragment_offset : Z
}.

Record cf_decap_walk_t := {
  w_l3 : l3;
  l4_offset : Z;
  ip_payload_end : Z;
  l4_present : Z
}.

Record cf_decap_udp_t := {
  u_l3 : l3;
  u_src_port : Z; u_dst_port : Z;
  udp_length : Z;
  udp_checksum_present : Z;
  u_payload : Z; u_payload_len : Z
}.

Record cf_decap_tcp_t := {
  t_l3 : l3;
  t_src_port : Z; t_dst_port : Z;
  seq_no : Z;
  tcp_flags : Z;
  t_payload : Z; t_payload_len : Z
}.

(** ** Field updates *)

Definition l3_zero : l3 :=
  {| src_mac := replicate 6 0; dst_mac := replicate 6 0; vlan_ids := [0; 0];
     vlan_count := 0; ethertype := 0; ip_version := 0; src_ip := replicate 16 0;
     dst_ip := replicate 16 0; next_header := 0; ttl_or_hop_limit := 0; dscp := 0;
     ecn := 0; fragmented := 0; fragment_offset := 0 |}.

Definition walk_zero : cf_decap_walk_t :=
  {| w_l3 := l3_zero; l4_offset := 0; ip_payload_end := 0; l4_present := 0 |}.

Definition set_l3 (f : l3 -> l3) (w : cf_decap_walk_t) : cf_decap_walk_t :=
  {| w_l3 := f (w_l3 w); l4_offset := l4_offset w; ip_payload_end := ip_payload_end w;
     l4_present := l4_present w |}.

Definition set_macs (dst src : list Z) (x : l3) : l3 :=
  {| src_mac := src; dst_mac := dst; vlan_ids := vlan_ids x; vlan_count := vlan_count x;
     ethertype := ethertype x; ip_version := ip_version x; src_ip := src_ip x;
     dst_ip := dst_ip x; next_header := next_header x;
     ttl_or_hop_limit := ttl_or_hop_limit x; dscp := dscp x; ecn := ecn x;
     fragmented := fragmented x; fragment_offset := fragment_offset x |}.

Definition set_vlans (ids : list Z) (n : Z) (x : l3) : l3 :=
  {| src_mac := src_mac x; dst_mac := dst_mac x; vlan_ids := ids; vlan_count := n;
     ethertype := ethertype x; ip_version := ip_version x; src_ip := src_ip x;
     dst_ip := dst_ip x; next_header := next_header x;
     ttl_or_hop_limit := ttl_or_hop_limit x; dscp := dscp x; ecn := ecn x;
     fragmented := fragmented x; fragment_offset := fragment_offset x |}.

Definition set_ethertype (e : Z) (x : l3) : l3 :=
  {| src_mac := src_mac x; dst_mac := dst_mac x; vlan_ids := vlan_ids x;
     vlan_count := vlan_count x; ethertype := e; ip_version := ip_version x;
     src_ip := src_ip x; dst_ip := dst_ip x; next_header := next_header x;
     ttl_or_hop_limit := ttl_or_hop_limit x; dscp := dscp x; ecn := ecn x;
     fragmented := fragmented x; fragment_offset := fragment_offset x |}.

Definition set_ip (ver : Z) (src dst : list Z) (nh ttl ds ec : Z) (x : l3) : l3 :=
  {| src_mac := src_mac x; dst_mac := dst_mac x; vlan_ids := vlan_ids x;
     vlan_count := vlan_count x; ethertype := ethertype x; ip_version := ver;
     src_ip := src; dst_ip := dst; next_header := nh; ttl_or_hop_limit := ttl;
     dscp := ds; ecn := ec; fragmented := fragmented x;
     fragment_offset := fragment_offset x |}.

Definition set_next_header (nh : Z) (x : l3) : l3 :=
  set_ip (ip_version x) (src_ip x) (dst_ip x) nh (ttl_or_hop_limit x) (dscp x) (ecn x) x.

Definition set_frag_offset (off : Z) (x : l3) : l3 :=
  {| src_mac := src_mac x; dst_mac := dst_mac x; vlan_ids := vlan_ids x;
     vlan_count := vlan_count x; ethertype := ethertype x; ip_version := ip_version x;
     src_ip := src_ip x; dst_ip := dst_ip x; next_header := next_header x;
     ttl_or_hop_limit := ttl_or_hop_limit x; dscp := dscp x; ecn := ecn x;
     fragmented := fragmented x; fragment_offset := off |}.

Definition set_fragmented (b : Z) (x : l3) : l3 :=
  {| src_mac := src_mac x; dst_mac := dst_mac x; vlan_ids := vlan_ids x;
     vlan_count := vlan_count x; ethertype := ethertype x; ip_version := ip_version x;
     src_ip := src_ip x; dst_ip := dst_ip x; next_header := next_header x;
     ttl_or_hop_limit := ttl_or_hop_limit x; dscp := dscp x; ecn := ecn x;
     fragmented := b; fragment_offset := fragment_offset x |}.

Definition set_end (e : Z) (w : cf_decap_walk_t) : cf_decap_walk_t :=
  {| w_l3 := w_l3 w; l4_offset := l4_offset w; ip_payload_end := e; l4_present := l4_present w |}.

Definition set_l4 (off : Z) (w : cf_decap_walk_t) : cf_decap_walk_t :=
  {| w_l3 := w_l3 w; l4_offset := off; ip_payload_end := ip_payload_end w; l4_present := 1 |}.

Definition set_no_l4 (w : cf_decap_walk_t) : cf_decap_walk_t :=
  {| w_l3 := w_l3 w; l4_offset := l4_offset w; ip_payload_end := ip_payload_end w;
     l4_present := 0 |}.

(** ** The walk *)

Definition remain (len off : Z) : Z := if len <? off then 0 else len - off.

Definition read_u16 (d : list Z) (off : Z) : exec Z :=
  a ← rd d off; b ← rd d (off + 1);
  let v := Z.lor a (Z.shiftl b 8) in
  Ret (u16 (Z.lor (Z.shiftl v 8) (Z.shiftr v 8))).

Definition read_u32 (d : list Z) (off : Z) : exec Z :=
  a ← rd d off; b ← rd d (off + 1); c ← rd d (off + 2); e ← rd d (off + 3);
  let v := Z.lor (Z.lor (Z.lor a (Z.shiftl b 8)) (Z.shiftl c 16)) (Z.shiftl e 24) in
  Ret (Z.lor (Z.lor (Z.lor (Z.shiftl (Z.land v 0x000000FF) 24)
                           (Z.shiftl (Z.land v 0x0000FF00) 8))
                    (Z.shiftr (Z.land v 0x00FF0000) 8))
             (Z.shiftr (Z.land v 0xFF000000) 24)).

Definition b2z (b : bool) : Z := if b then 1 else 0.

Definition walk_ipv4 (frame : list Z) (offset : Z) (w : cf_decap_walk_t)
    : exec (cf_decap_result_t * cf_decap_walk_t) :=
  let frame_len := zlen frame in
  if remain frame_len offset <? IPV4_MIN_HDR_LEN then Ret (CF_DECAP_TRUNCATED, w) else
  version_ihl ← rd frame offset;
  if negb (Z.shiftr version_ihl 4 =? 4) then Ret (CF_DECAP_UNSUPPORTED, w) else
  let ihl := Z.land version_ihl 0x0F * 4 in
  if (ihl <? IPV4_MIN_HDR_LEN) || (remain frame_len offset <? ihl)
  then Ret (CF_DECAP_TRUNCATED, w) else
  tos ← rd frame (offset + 1);
  total_len ← read_u16 frame (offset + 2);
  flags_frag ← read_u16 frame (offset + 6);
  ttl ← rd frame (offset + 8);
  protocol ← rd frame (offset + 9);
  src ← rd_n frame (offset + 12) 4;
  dst ← rd_n frame (offset + 16) 4;
  src_ip' ← wr_n (src_ip (w_l3 w)) 0 src;
  dst_ip' ← wr_n (dst_ip (w_l3 w)) 0 dst;
  let w := set_l3 (set_ip 4 src_ip' dst_ip' protocol ttl (u8 (Z.shiftr tos 2))
                     (u8 (Z.land tos 3))) w in
  let e := offset + total_len in
  let e := if (total_len <? ihl) || (frame_len <? e) then frame_len else e in
  let w := set_end e w in
  let frag_offset13 := Z.land flags_frag 0x1FFF in
  let more_fragments := b2z (negb (Z.land flags_frag 0x2000 =? 0)) in
  let w := set_l3 (set_frag_offset frag_offset13) w in
  if negb (frag_offset13 =? 0) then
    Ret (CF_DECAP_OK, set_no_l4 (set_l3 (set_fragmented 1) w))
  else
    let w := set_l3 (set_fragmented more_fragments) w in
    Ret (CF_DECAP_OK, set_l4 (offset + ihl) w).

(** The extension-header loop, [n] iterations left. *)
Fixpoint walk_ext (n : nat) (frame : list Z) (cur_offset nh : Z) (w : cf_decap_walk_t)
    : exec (cf_decap_result_t * cf_decap_walk_t) :=
  match n with
  | O => Ret (CF_DECAP_UNSUPPORTED, w)
  | S n' =>
      let frame_len := zlen frame in
      if nh =? IPV6_PROTO_FRAGMENT then
        if remain frame_len cur_offset <? IPV6_FRAG_HDR_LEN
        then Ret (CF_DECAP_TRUNCATED, w) else
        frag_next_header ← rd frame cur_offset;
        off_res_m ← read_u16 frame (cur_offset + 2);
        let frag_offset13 := Z.shiftr off_res_m 3 in
        let w := set_l3 (set_next_header frag_next_header) w in
        let w := set_l3 (set_frag_offset frag_offset13) w in
        if negb (frag_offset13 =? 0) then
          Ret (CF_DECAP_OK, set_no_l4 (set_l3 (set_fragmented 1) w))
        else
          walk_ext n' frame (cur_offset + IPV6_FRAG_HDR_LEN) frag_next_header
            (set_l3 (set_fragmented 1) w)
      else if (nh =? IPV6_PROTO_HOPOPTS) || (nh =? IPV6_PROTO_ROUTING)
              || (nh =? IPV6_PROTO_DSTOPTS) then
        if remain frame_len cur_offset <? 2 then Ret (CF_DECAP_TRUNCATED, w) else
        ext_next_header ← rd frame cur_offset;
        hdr_ext_len ← rd frame (cur_offset + 1);
        let ext_total_len := (hdr_ext_len + 1) * 8 in
        if remain frame_len cur_offset <? ext_total_len
        then Ret (CF_DECAP_TRUNCATED, w) else
        walk_ext n' frame (cur_offset + ext_total_len) ext_next_header
          (set_l3 (set_next_header ext_next_header) w)
      else Ret (CF_DECAP_OK, set_l4 cur_offset (set_l3 (set_next_header nh) w))
  end.

Definition walk_ipv6 (frame : list Z) (offset : Z) (w : cf_decap_walk_t)
    : exec (cf_decap_result_t * cf_decap_walk_t) :=
  let frame_len := zlen frame in
  if remain frame_len offset <? IPV6_FIXED_HDR_LEN then Ret (CF_DECAP_TRUNCATED, w) else
  word0 ← read_u32 frame offset;
  let version := u8 (Z.shiftr word0 28) in
  let traffic_class := u8 (Z.land (Z.shiftr word0 20) 0xFF) in
  if negb (version =? 6) then Ret (CF_DECAP_UNSUPPORTED, w) else
  payload_len ← read_u16 frame (offset + 4);
  nh ← rd frame (offset + 6);
  hop_limit ← rd frame (offset + 7);
  src ← rd_n frame (offset + 8) 16;
  dst ← rd_n frame (offset + 24) 16;
  src_ip' ← wr_n (src_ip (w_l3 w)) 0 src;
  dst_ip' ← wr_n (dst_ip (w_l3 w)) 0 dst;
  let w := set_l3 (set_ip 6 src_ip' dst_ip' nh hop_limit (u8 (Z.shiftr traffic_class 2))
                     (u8 (Z.land traffic_class 3))) w in
  let e := offset + IPV6_FIXED_HDR_LEN + payload_len in
  let e := if frame_len <? e then frame_len else e in
  let w := set_end e w in
  walk_ext IPV6_MAX_EXT_HEADERS frame (offset + IPV6_FIXED_HDR_LEN) nh w.

Definition is_vlan (e : Z) : bool := (e =? ETHERTYPE_VLAN) || (e =? ETHERTYPE_QINQ).

(** The tag loop: [inl] is the early return, [inr] the ethertype, offset and
    walk after the loop. *)
Fixpoint vlan_loop (n : nat) (frame : list Z) (et offset : Z) (w : cf_decap_walk_t)
    : exec (cf_decap_result_t * cf_decap_walk_t + Z * Z * cf_decap_walk_t) :=
  match n with
  | O => Ret (inr (et, offset, w))
  | S n' =>
      if negb (is_vlan et) then Ret (inr (et, offset, w)) else
      if remain (zlen frame) offset <? VLAN_TAG_LEN
      then Ret (inl (CF_DECAP_TRUNCATED, w)) else
      tci ← read_u16 frame offset;
      inner ← read_u16 frame (offset + 2);
      ids ← wr_n (vlan_ids (w_l3 w)) (vlan_count (w_l3 w)) [Z.land tci 0x0FFF];
      vlan_loop n' frame inner (offset + VLAN_TAG_LEN)
        (set_l3 (set_vlans ids (u8 (vlan_count (w_l3 w) + 1))) w)
  end.

Definition decap_walk (frame : list Z) : exec (cf_decap_result_t * cf_decap_walk_t) :=
  let w := walk_zero in
  if remain (zlen frame) 0 <? ETH_HDR_LEN then Ret (CF_DECAP_TRUNCATED, w) else
  dst ← rd_n frame 0 6;
  src ← rd_n frame 6 6;
  let w := set_l3 (set_macs dst src) w in
  et ← read_u16 frame 12;
  r ← vlan_loop 2 frame et ETH_HDR_LEN w;
  match r with
  | inl early => Ret early
  | inr (et, offset, w) =>
      if is_vlan et then Ret (CF_DECAP_UNSUPPORTED, w) else
      let w := set_l3 (set_ethertype et) w in
      if et =? ETHERTYPE_IPV4 then walk_ipv4 frame offset w
      else if et =? ETHERTYPE_IPV6 then walk_ipv6 frame offset w
      else Ret (CF_DECAP_UNSUPPORTED, w)
  end.

(** ** Transport *)

Definition udp_zero : cf_decap_udp_t :=
  {| u_l3 := l3_zero; u_src_port := 0; u_dst_port := 0; udp_length := 0;
     udp_checksum_present := 0; u_payload := 0; u_payload_len := 0 |}.

Definition tcp_zero : cf_decap_tcp_t :=
  {| t_l3 := l3_zero; t_src_port := 0; t_dst_port := 0; seq_no := 0; tcp_flags := 0;
     t_payload := 0; t_payload_len := 0 |}.

Definition parse_udp (frame : list Z) (offset : Z) (out : cf_decap_udp_t)
    : exec (cf_decap_result_t * cf_decap_udp_t) :=
  let frame_len := zlen frame in
  if remain frame_len offset <? UDP_HDR_LEN then Ret (CF_DECAP_TRUNCATED, out) else
  sp ← read_u16 frame offset;
  dp ← read_u16 frame (offset + 2);
  udp_len ← read_u16 frame (offset + 4);
  checksum ← read_u16 frame (offset + 6);
  let out := {| u_l3 := u_l3 out; u_src_port := sp; u_dst_port := dp;
                udp_length := udp_length out;
                udp_checksum_present := udp_checksum_present out;
                u_payload := u_payload out; u_payload_len := u_payload_len out |} in
  if udp_len <? UDP_HDR_LEN then Ret (CF_DECAP_TRUNCATED, out) else
  if remain frame_len (offset + UDP_HDR_LEN) <? udp_len - UDP_HDR_LEN
  then Ret (CF_DECAP_TRUNCATED, out) else
  Ret (CF_DECAP_OK,
       {| u_l3 := u_l3 out; u_src_port := sp; u_dst_port := dp; udp_length := udp_len;
          udp_checksum_present := b2z (negb (checksum =? 0));
          u_payload := offset + UDP_HDR_LEN; u_payload_len := udp_len - UDP_HDR_LEN |}).

Definition parse_tcp (frame : list Z) (offset ip_end : Z) (out : cf_decap_tcp_t)
    : exec (cf_decap_result_t * cf_decap_tcp_t) :=
  let frame_len := zlen frame in
  if remain frame_len offset <? TCP_MIN_HDR_LEN then Ret (CF_DECAP_TRUNCATED, out) else
  sp ← read_u16 frame offset;
  dp ← read_u16 frame (offset + 2);
  sq ← read_u32 frame (offset + 4);
  data_offset_byte ← rd frame (offset + 12);
  flags ← rd frame (offset + 13);
  let out := {| t_l3 := t_l3 out; t_src_port := sp; t_dst_port := dp; seq_no := sq;
                tcp_flags := tcp_flags out; t_payload := t_payload out;
                t_payload_len := t_payload_len out |} in
  let data_offset := Z.shiftr data_offset_byte 4 * 4 in
  if data_offset <? TCP_MIN_HDR_LEN then Ret (CF_DECAP_TRUNCATED, out) else
  if remain frame_len offset <? data_offset then Ret (CF_DECAP_TRUNCATED, out) else
  let payload_start := offset + data_offset in
  let payload_end := ip_end in
  let payload_end := if payload_end <? payload_start then payload_start else payload_end in
  let payload_end := if frame_len <? payload_end then frame_len else payload_end in
  Ret (CF_DECAP_OK,
       {| t_l3 := t_l3 out; t_src_port := sp; t_dst_port := dp; seq_no := sq;
          tcp_flags := flags; t_payload := payload_start;
          t_payload_len := payload_end - payload_start |}).

Definition copy_l3_udp (out : cf_decap_udp_t) (w : cf_decap_walk_t) : cf_decap_udp_t :=
  {| u_l3 := w_l3 w; u_src_port := u_src_port out; u_dst_port := u_dst_port out;
     udp_length := udp_length out; udp_checksum_present := udp_checksum_present out;
     u_payload := u_payload out; u_payload_len := u_payload_len out |}.

Definition copy_l3_tcp (out : cf_decap_tcp_t) (w : cf_decap_walk_t) : cf_decap_tcp_t :=
  {| t_l3 := w_l3 w; t_src_port := t_src_port out; t_dst_port := t_dst_port out;
     seq_no := seq_no out; tcp_flags := tcp_flags out; t_payload := t_payload out;
     t_payload_len := t_payload_len out |}.

Definition cf_decap_udp (frame : list Z) : exec (cf_decap_result_t * cf_decap_udp_t) :=
  '(rc, w) ← decap_walk frame;
  let out := copy_l3_udp udp_zero w in
  if negb (bool_decide (rc = CF_DECAP_OK)) then Ret (rc, out) else
  if (l4_present w =? 0) || negb (next_header (w_l3 w) =? IP_PROTO_UDP)
  then Ret (CF_DECAP_NOT_UDP, out)
  else parse_udp frame (l4_offset w) out.

Definition cf_decap_tcp (frame : list Z) : exec (cf_decap_result_t * cf_decap_tcp_t) :=
  '(rc, w) ← decap_walk frame;
  let out := copy_l3_tcp tcp_zero w in
  if negb (bool_decide (rc = CF_DECAP_OK)) then Ret (rc, out) else
  if (l4_present w =? 0) || negb (next_header (w_l3 w) =? IP_PROTO_TCP)
  then Ret (CF_DECAP_NOT_TCP, out)
  else parse_tcp frame (l4_offset w) (ip_payload_end w) out.

(** ** Multi-byte reads *)

Lemma swap16 a b : is_byte a -> is_byte b ->
  let v := Z.lor a (Z.shiftl b 8) in
  u16 (Z.lor (Z.shiftl v 8) (Z.shiftr v 8)) = a * 256 + b.
Proof.
  intros Ha Hb v. unfold is_byte in *.
  assert (v = b * 256 + a) as ->.
  { unfold v. rewrite Z.lor_comm. apply (lor_shiftl_add b a 8); lia. }
  assert (Z.shiftr (b * 256 + a) 8 = b) as ->
    by (rewrite Z.shiftr_div_pow2 by lia; change (2 ^ 8) with 256; lia).
  rewrite lor_shiftl_add by lia. unfold u16. change (2 ^ 8) with 256. change (2 ^ 16) with 65536. lia.
Qed.

Lemma swap32 a b c e : is_byte a -> is_byte b -> is_byte c -> is_byte e ->
  let v := Z.lor (Z.lor (Z.lor a (Z.shiftl b 8)) (Z.shiftl c 16)) (Z.shiftl e 24) in
  Z.lor (Z.lor (Z.lor (Z.shiftl (Z.land v 0x000000FF) 24) (Z.shiftl (Z.land v 0x0000FF00) 8))
               (Z.shiftr (Z.land v 0x00FF0000) 8)) (Z.shiftr (Z.land v 0xFF000000) 24)
  = be32_of a b c e.
Proof.
  intros Ha Hb Hc He v. unfold is_byte in *.
  assert (v = e * 2 ^ 24 + (c * 2 ^ 16 + (b * 2 ^ 8 + a))) as ->.
  { unfold v. rewrite (Z.lor_comm _ (Z.shiftl e 24)), (Z.lor_comm _ (Z.shiftl c 16)),
      (Z.lor_comm _ (Z.shiftl b 8)).
    rewrite (lor_shiftl_add b), (lor_shiftl_add c), (lor_shiftl_add e) by lia. done. }
  change 0x0000FF00 with (Z.shiftl 255 8). change 0x00FF0000 with (Z.shiftl 255 16).
  change 0xFF000000 with (Z.shiftl 255 24).
  rewrite !land_shiftl_mask, !land_byte, !Z.shiftr_div_pow2, !Z.shiftl_mul_pow2 by lia.
  change (2 ^ 24) with 16777216. change (2 ^ 16) with 65536. change (2 ^ 8) with 256.
  replace (_ mod 256 * 16777216) with (Z.shiftl a 24)
    by (rewrite Z.shiftl_mul_pow2; change (2 ^ 24) with 16777216; lia).
  replace (_ mod 256 * 256 * 256) with (Z.shiftl b 16)
    by (rewrite Z.shiftl_mul_pow2; change (2 ^ 16) with 65536; lia).
  replace (_ mod 256 * 65536 / 256) with (Z.shiftl c 8)
    by (rewrite Z.shiftl_mul_pow2; change (2 ^ 8) with 256; lia).
  replace (_ mod 256 * 16777216 / 16777216) with e by lia. done.
Qed.

Lemma read_u16_eq d off : bytes_ok d -> 0 <= off -> off + 2 <= zlen d ->
  read_u16 d off = Ret (be_value 0 (slice d off 2)).
Proof.
  intros Hok Ho Hl. unfold read_u16.
  destruct (rd_in d off Hok) as (a & -> & ? & Ha); [lia|].
  destruct (rd_in d (off + 1) Hok) as (b & -> & ? & Hb); [lia|]. xbind.
  rewrite swap16 by done.
  rewrite (slice_S _ _ _ a), (slice_S _ _ _ b), slice_0 by (done || lia). done.
Qed.

Lemma read_u32_eq d off : bytes_ok d -> 0 <= off -> off + 4 <= zlen d ->
  read_u32 d off = Ret (be_value 0 (slice d off 4)).
Proof.
  intros Hok Ho Hl. unfold read_u32.
  destruct (rd_in d off Hok) as (a & -> & ? & Ha); [lia|].
  destruct (rd_in d (off + 1) Hok) as (b & -> & ? & Hb); [lia|].
  destruct (rd_in d (off + 2) Hok) as (c & -> & ? & Hc); [lia|].
  destruct (rd_in d (off + 3) Hok) as (e & -> & ? & He); [lia|]. xbind.
  replace (off + 2) with (off + 1 + 1) in Hc by lia.
  replace (off + 3) with (off + 1 + 1 + 1) in He by lia.
  rewrite swap32 by done.
  rewrite (slice_S _ _ _ a), (slice_S _ _ _ b), (slice_S _ _ _ c), (slice_S _ _ _ e)
    by (done || lia).
  rewrite slice_0, be32_of_eq by done. done.
Qed.

Lemma slice_value_bound d off n : bytes_ok d -> 0 <= off -> 0 <= n -> off + n <= zlen d ->
  0 <= be_value 0 (slice d off n) < 256 ^ n.
Proof.
  intros Hok Ho Hn Hl. pose proof (be_value_bound (slice d off n) 0 (slice_bytes_ok _ _ _ Hok)) as H.
  rewrite zlen_slice in H by lia. lia.
Qed.

Lemma runs_read_u16 d off (Q : Z -> Prop) :
  bytes_ok d -> 0 <= off -> off + 2 <= zlen d ->
  (forall v, v = be_value 0 (slice d off 2) -> 0 <= v < 65536 -> Q v) -> runs (read_u16 d off) Q.
Proof.
  intros Hok Ho Hl HQ. rewrite read_u16_eq by done. apply HQ; [done|].
  pose proof (slice_value_bound d off 2 Hok). lia.
Qed.

Lemma runs_read_u32 d off (Q : Z -> Prop) :
  bytes_ok d -> 0 <= off -> off + 4 <= zlen d ->
  (forall v, v = be_value 0 (slice d off 4) -> 0 <= v < 2 ^ 32 -> Q v) -> runs (read_u32 d off) Q.
Proof.
  intros Hok Ho Hl HQ. rewrite read_u32_eq by done. apply HQ; [done|].
  pose proof (slice_value_bound d off 4 Hok). lia.
Qed.

(** ** The ranges of the fields *)

Record l3_ok (x : l3) : Prop := {
  ok_macs : length (src_mac x) = 6%nat /\ length (dst_mac x) = 6%nat;
  ok_vlans : length (vlan_ids x) = 2%nat /\ Forall (fun v => 0 <= v < 4096) (vlan_ids x) /\
             0 <= vlan_count x <= 2;
  ok_ethertype : 0 <= ethertype x < 65536;
  ok_ips : length (src_ip x) = 16%nat /\ length (dst_ip x) = 16%nat;
  ok_nh : is_byte (next_header x) /\ is_byte (ttl_or_hop_limit x);
  ok_ds : 0 <= dscp x < 64 /\ 0 <= ecn x < 4;
  ok_frag : 0 <= fragmented x <= 1 /\ 0 <= fragment_offset x < 8192
}.

(** A finished walk: an address family that fits the ethertype, and an L4
    boundary inside the frame exactly when this is not a later fragment. *)
Record walk_ok (len : Z) (w : cf_decap_walk_t) : Prop := {
  wk_family : (ethertype (w_l3 w) = ETHERTYPE_IPV4 /\ ip_version (w_l3 w) = 4) \/
              (ethertype (w_l3 w) = ETHERTYPE_IPV6 /\ ip_version (w_l3 w) = 6);
  wk_present : l4_present w = 1 /\ fragment_offset (w_l3 w) = 0 \/
               l4_present w = 0 /\ fragment_offset (w_l3 w) <> 0 /\ fragmented (w_l3 w) = 1;
  wk_offset : 0 <= l4_offset w <= len;
  wk_end : 0 <= ip_payload_end w <= len
}.

Definition walk_post (len : Z) (r : cf_decap_result_t * cf_decap_walk_t) : Prop :=
  l3_ok (w_l3 (snd r)) /\ fst r <> CF_DECAP_NOT_UDP /\ fst r <> CF_DECAP_NOT_TCP /\
  (fst r = CF_DECAP_OK -> walk_ok len (snd r)).

Lemma l3_zero_ok : l3_ok l3_zero.
Proof.
  split; try done.
  split_and!; [done| |done|done]. repeat constructor; lia.
Qed.

Lemma remain_le len off n : 0 < n -> (remain len off <? n) = false -> off + n <= len.
Proof. unfold remain. intros Hn. case_match; lia. Qed.

Lemma walk_stop len r w : l3_ok (w_l3 w) -> r = CF_DECAP_TRUNCATED \/ r = CF_DECAP_UNSUPPORTED ->
  walk_post len (r, w).
Proof. intros Hw [-> | ->]; by split_and!. Qed.

Lemma u8_shiftr2 z : is_byte z -> 0 <= u8 (Z.shiftr z 2) < 64.
Proof.
  unfold is_byte. intros. rewrite Z.shiftr_div_pow2 by lia. change (2 ^ 2) with 4.
  rewrite u8_id by (unfold is_byte; lia). lia.
Qed.

Lemma u8_land3 z : 0 <= u8 (Z.land z 3) < 4.
Proof.
  pose proof (land_range z 2 3 ltac:(lia) eq_refl).
  rewrite u8_id by (unfold is_byte; lia). lia.
Qed.

Lemma set_ip_ok v a b nh ttl ds ec x : l3_ok x -> length a = 16%nat -> length b = 16%nat ->
  is_byte nh -> is_byte ttl -> 0 <= ds < 64 -> 0 <= ec < 4 ->
  l3_ok (set_ip v a b nh ttl ds ec x).
Proof. intros [] *. by split. Qed.

Lemma set_frag_ok off b x : l3_ok x -> 0 <= off < 8192 -> 0 <= b <= 1 ->
  l3_ok (set_fragmented b (set_frag_offset off x)).
Proof. intros [] *. by split. Qed.

Lemma set_frag_offset_ok off x : l3_ok x -> 0 <= off < 8192 -> l3_ok (set_frag_offset off x).
Proof. intros [? ? ? ? ? ? []] ?. by split. Qed.

Lemma b2z_bound b : 0 <= b2z b <= 1.
Proof. by destruct b. Qed.

Lemma set_next_header_ok nh x : l3_ok x -> is_byte nh -> l3_ok (set_next_header nh x).
Proof. intros [? ? ? ? [] [] ?] *. by split. Qed.

Lemma splice_ip_length (ip src : list Z) : length ip = 16%nat -> (length src <= 16)%nat ->
  length (splice ip 0 src) = 16%nat.
Proof. intros. rewrite length_splice by lia. done. Qed.

Lemma runs_wr_n d off src (Q : list Z -> Prop) :
  0 <= off -> off + zlen src <= zlen d -> Q (splice d off src) -> runs (wr_n d off src) Q.
Proof. intros. by rewrite wr_n_ok. Qed.

(** [get x]: the next read of the goal is in bounds; call its result [x]. *)
Tactic Notation "get" ident(x) :=
  apply runs_bind;
  lazymatch goal with
  | |- runs (read_u16 _ _) _ => apply runs_read_u16; [done|lia|lia|intros x ? ?]
  | |- runs (read_u32 _ _) _ => apply runs_read_u32; [done|lia|lia|intros x ? ?]
  | |- runs (rd _ _) _ => apply runs_rd; [done|lia|intros x ? ?]
  end.

(** [guard H]: the next check returns a truncated or unsupported walk, or
    passes with [H]. *)
Tactic Notation "guard" ident(H) :=
  apply runs_if; intros H; [apply runs_ret, walk_stop; by auto|];
  try (apply remain_le in H; [|unfold is_byte in *; lia]).

(** Copying the two addresses into the zeroed fields. *)
Lemma runs_addresses {A} frame o1 o2 n x (k : list Z -> list Z -> exec A) (Q : A -> Prop) :
  l3_ok x -> 0 <= n <= 16 -> 0 <= o1 -> 0 <= o2 -> o1 + n <= zlen frame -> o2 + n <= zlen frame ->
  (forall a b, a = splice (src_ip x) 0 (slice frame o1 n) ->
     b = splice (dst_ip x) 0 (slice frame o2 n) -> length a = 16%nat -> length b = 16%nat ->
     runs (k a b) Q) ->
  runs (src ← rd_n frame o1 n; dst ← rd_n frame o2 n;
        a ← wr_n (src_ip x) 0 src; b ← wr_n (dst_ip x) 0 dst; k a b) Q.
Proof.
  intros Hx Hn Ho1 Ho2 Hl1 Hl2 HQ. pose proof (ok_ips _ Hx) as [Hs Hd].
  do 2 (apply runs_bind, runs_rd_n; [lia..|]).
  apply runs_bind, runs_wr_n; [lia|rewrite zlen_slice by lia; lia|].
  apply runs_bind, runs_wr_n; [lia|rewrite zlen_slice by lia; lia|].
  apply HQ; try done; apply splice_ip_length; rewrite ?length_slice by lia; lia.
Qed.

Lemma walk_ipv4_ok frame off w : bytes_ok frame -> 0 <= off -> l3_ok (w_l3 w) ->
  ethertype (w_l3 w) = ETHERTYPE_IPV4 -> l4_offset w = 0 ->
  runs (walk_ipv4 frame off w) (walk_post (zlen frame)).
Proof.
  intros Hok Ho Hw He Hl4. unfold walk_ipv4, IPV4_MIN_HDR_LEN.
  guard H20. get vihl. guard Hver. guard Hihl.
  apply orb_false_iff in Hihl as [Hmin Hihl]. apply remain_le in Hihl; [|lia].
  get tos. get total. get flags. get ttl. get proto.
  apply runs_addresses; [done|lia..|]. intros a b _ _ Ha Hb.
  assert (l3_ok (set_ip 4 a b proto ttl (u8 (Z.shiftr tos 2)) (u8 (Z.land tos 3)) (w_l3 w))) as Hip
    by (apply set_ip_ok; auto using u8_shiftr2, u8_land3).
  pose proof (land_range flags 13 0x1FFF ltac:(lia) eq_refl) as Hf.
  apply runs_if; intros Hfrag; apply runs_ret.
  - split_and!; [apply set_frag_ok; [done|exact Hf|lia]|done|done|intros _].
    split; [by left|right; simpl; lia| |]; simpl; repeat case_match; lia.
  - split_and!; [apply set_frag_ok; [done|exact Hf|apply b2z_bound]|done|done|intros _].
    split; [by left|left; simpl; lia| |]; simpl; repeat case_match; lia.
Qed.

(** What the extension loop keeps: a well-formed IPv6 walk with no fragment
    offset yet. *)
Record ext_inv (len cur : Z) (w : cf_decap_walk_t) : Prop := {
  ei_l3 : l3_ok (w_l3 w);
  ei_family : ethertype (w_l3 w) = ETHERTYPE_IPV6 /\ ip_version (w_l3 w) = 6;
  ei_frag : fragment_offset (w_l3 w) = 0;
  ei_offset : l4_offset w = 0;
  ei_end : 0 <= ip_payload_end w <= len;
  ei_cur : 0 <= cur <= len
}.

Lemma walk_ext_ok n frame cur nh w : bytes_ok frame -> is_byte nh ->
  ext_inv (zlen frame) cur w ->
  runs (walk_ext n frame cur nh w) (walk_post (zlen frame)).
Proof.
  intros Hok. revert cur nh w. induction n as [|n IH]; intros cur nh w Hnh [Hw Hfam Hf Hl4 He Hc];
    cbn [walk_ext]; [apply runs_ret, walk_stop; auto|].
  apply runs_if; intros Hfr; [|apply runs_if; intros Hext].
  - unfold IPV6_FRAG_HDR_LEN. guard Hrem. get fnh. get res.
    assert (0 <= Z.shiftr res 3 < 8192) as Hoff
      by (rewrite Z.shiftr_div_pow2 by lia; change (2 ^ 3) with 8; lia).
    assert (l3_ok (set_next_header fnh (w_l3 w))) as Hnx by by apply set_next_header_ok.
    apply runs_if; intros Hz; [apply runs_ret|].
    + split_and!; [by apply set_frag_ok|done|done|intros _].
      split; [by right|right; simpl; lia| |]; simpl; lia.
    + apply IH; [done|]. split; simpl; try done; try lia. by apply set_frag_ok.
  - guard Hrem. get enh. get hlen. guard Htot.
    apply IH; [done|]. split; simpl; try done; try (unfold is_byte in *; lia).
    by apply set_next_header_ok.
  - apply runs_ret. split_and!; [by apply set_next_header_ok|done|done|intros _].
    split; [by right|left; simpl; done|simpl; lia|simpl; lia].
Qed.

Lemma walk_ipv6_ok frame off w : bytes_ok frame -> 0 <= off -> l3_ok (w_l3 w) ->
  ethertype (w_l3 w) = ETHERTYPE_IPV6 -> l4_offset w = 0 -> fragment_offset (w_l3 w) = 0 ->
  runs (walk_ipv6 frame off w) (walk_post (zlen frame)).
Proof.
  intros Hok Ho Hw He Hl4 Hf. unfold walk_ipv6, IPV6_FIXED_HDR_LEN.
  guard Hrem. get word0. guard Hver. get plen. get nh. get hop.
  apply runs_addresses; [done|lia..|]. intros a b _ _ Ha Hb.
  apply walk_ext_ok; [done|done|].
  split; simpl; try done; try (repeat case_match; lia).
  apply set_ip_ok; try done; [|apply u8_land3]. apply u8_shiftr2, u8_byte.
Qed.

Lemma vlan_loop_ok n frame et off w : bytes_ok frame -> 0 <= off -> l3_ok (w_l3 w) ->
  0 <= et < 65536 -> vlan_count (w_l3 w) + Z.of_nat n <= 2 ->
  l4_offset w = 0 -> fragment_offset (w_l3 w) = 0 ->
  runs (vlan_loop n frame et off w) (fun r =>
    match r with
    | inl early => walk_post (zlen frame) early
    | inr (et', off', w') => l3_ok (w_l3 w') /\ 0 <= et' < 65536 /\ off <= off' /\
        l4_offset w' = 0 /\ fragment_offset (w_l3 w') = 0
    end).
Proof.
  intros Hok. revert et off w. induction n as [|n IH]; intros et off w Ho Hw Het Hn Hl4 Hf;
    cbn [vlan_loop]; [apply runs_ret; split_and!; done || lia|].
  apply runs_if; intros Hv; [apply runs_ret; split_and!; done || lia|].
  unfold VLAN_TAG_LEN. apply runs_if; intros Hrem; [apply runs_ret, walk_stop; auto|].
  apply remain_le in Hrem; [|lia]. get tci. get inner.
  destruct Hw as [Hm (Hvl & Hvr & Hvc) ? Hips Hnh Hds Hfrag].
  apply runs_bind, runs_wr_n; [lia|simpl; lia|].
  pose proof (land_range tci 12 0x0FFF ltac:(lia) eq_refl) as Htci.
  eapply runs_mono; [apply IH|]; simpl; try done; try lia.
  - split; simpl; try done. split_and!.
    + rewrite length_splice; simpl; lia.
    + unfold splice. rewrite !Forall_app. split_and!; [by apply Forall_take| |by apply Forall_drop].
      constructor; [exact Htci|constructor].
    + rewrite u8_id; unfold is_byte; lia.
    + rewrite u8_id; unfold is_byte; lia.
  - rewrite u8_id; unfold is_byte; lia.
  - intros [early|[[et' off'] w']]; [done|]. intros (?&?&?&?&?). split_and!; done || lia.
Qed.

Lemma decap_walk_ok frame : bytes_ok frame -> runs (decap_walk frame) (walk_post (zlen frame)).
Proof.
  intros Hok. unfold decap_walk, ETH_HDR_LEN.
  apply runs_if; intros Hrem; [apply runs_ret, walk_stop; [apply l3_zero_ok|auto]|].
  apply remain_le in Hrem; [|lia].
  do 2 (apply runs_bind, runs_rd_n; [lia..|]). get et.
  apply runs_bind. eapply runs_mono; [apply vlan_loop_ok|]; try done; try lia.
  { destruct l3_zero_ok. split; simpl; try done. rewrite !length_slice by lia. done. }
  intros [early|[[et' off'] w']]; [done|]. intros (Hw & Het & Ho & Hl4 & Hf).
  apply runs_if; intros Hv; [apply runs_ret, walk_stop; auto|].
  assert (l3_ok (set_ethertype et' (w_l3 w'))) as Hw' by (destruct Hw; by split).
  apply runs_if; intros H4; [|apply runs_if; intros H6].
  - apply walk_ipv4_ok; try done; simpl; lia.
  - apply walk_ipv6_ok; try done; simpl; lia.
  - apply runs_ret, walk_stop; auto.
Qed.

(** ** Memory safety and the payload view *)

(** The payload is inside the frame. *)
Definition view_ok (len p n : Z) : Prop := 0 <= p /\ 0 <= n /\ p + n <= len.

Definition udp_post (len : Z) (r : cf_decap_result_t * cf_decap_udp_t) : Prop :=
  let '(rc, out) := r in
  l3_ok (u_l3 out) /\ rc <> CF_DECAP_NOT_TCP /\
  (rc = CF_DECAP_OK ->
     view_ok len (u_payload out) (u_payload_len out) /\
     u_payload_len out = udp_length out - UDP_HDR_LEN /\
     next_header (u_l3 out) = IP_PROTO_UDP /\ fragment_offset (u_l3 out) = 0 /\
     0 <= u_src_port out < 65536 /\ 0 <= u_dst_port out < 65536).

Definition tcp_post (len : Z) (r : cf_decap_result_t * cf_decap_tcp_t) : Prop :=
  let '(rc, out) := r in
  l3_ok (t_l3 out) /\ rc <> CF_DECAP_NOT_UDP /\
  (rc = CF_DECAP_OK ->
     view_ok len (t_payload out) (t_payload_len out) /\
     next_header (t_l3 out) = IP_PROTO_TCP /\ fragment_offset (t_l3 out) = 0 /\
     0 <= t_src_port out < 65536 /\ 0 <= t_dst_port out < 65536 /\
     0 <= seq_no out < 2 ^ 32 /\ is_byte (tcp_flags out)).

Lemma decap_udp_ok frame : bytes_ok frame -> runs (cf_decap_udp frame) (udp_post (zlen frame)).
Proof.
  intros Hok. unfold cf_decap_udp. apply runs_bind.
  eapply runs_mono; [by apply decap_walk_ok|]. intros [rc w] (Hl3 & Hn1 & Hn2 & Hw). simpl in *.
  apply runs_if; intros Hrc; [apply runs_ret; split_and!; try done; intros ->; done|].
  assert (rc = CF_DECAP_OK) as -> by (by destruct rc). destruct (Hw eq_refl) as [_ Hp Ho _].
  apply runs_if; intros Hl4; [apply runs_ret; by split_and!|].
  unfold parse_udp, UDP_HDR_LEN.
  apply runs_if; intros Hrem; [apply runs_ret; by split_and!|]. apply remain_le in Hrem; [|lia].
  get sp. get dp. get ul. get ck.
  apply runs_if; intros Hmin; [apply runs_ret; by split_and!|].
  apply runs_if; intros Hlen; [apply runs_ret; by split_and!|].
  assert (l4_offset w + ul <= zlen frame) by (unfold remain in Hlen; case_match; lia).
  apply runs_ret. split_and!; try done. intros _. unfold view_ok, UDP_HDR_LEN. simpl. lia.
Qed.

Lemma decap_tcp_ok frame : bytes_ok frame -> runs (cf_decap_tcp frame) (tcp_post (zlen frame)).
Proof.
  intros Hok. unfold cf_decap_tcp. apply runs_bind.
  eapply runs_mono; [by apply decap_walk_ok|]. intros [rc w] (Hl3 & Hn1 & Hn2 & Hw). simpl in *.
  apply runs_if; intros Hrc; [apply runs_ret; split_and!; try done; intros ->; done|].
  assert (rc = CF_DECAP_OK) as -> by (by destruct rc). destruct (Hw eq_refl) as [_ Hp Ho He].
  apply runs_if; intros Hl4; [apply runs_ret; by split_and!|].
  unfold parse_tcp, TCP_MIN_HDR_LEN.
  apply runs_if; intros Hrem; [apply runs_ret; by split_and!|]. apply remain_le in Hrem; [|lia].
  get sp. get dp. get sq. get dob. get fl.
  apply runs_if; intros Hmin; [apply runs_ret; by split_and!|].
  apply runs_if; intros Hlen; [apply runs_ret; by split_and!|].
  apply remain_le in Hlen; [|lia].
  apply runs_ret. split_and!; try done. intros _. unfold view_ok. simpl.
  split_and!; try done; try lia; repeat case_match; lia.
Qed.

(** ** The reference encoder

    A frame built from a link and network block, with the header bits the
    block does not keep (tag protocol and priority, IP identification, flags
    and checksum, options, flow label, extension headers) as free
    parameters. *)

Fixpoint tag_bytes (tags : list (Z * Z)) (et : Z) : list Z :=
  match tags with
  | [] => []
  | (_, tci) :: rest =>
      be_bytes 2 tci ++ be_bytes 2 (match rest with [] => et | (tpid, _) :: _ => tpid end) ++
      tag_bytes rest et
  end.

Definition outer_type (tags : list (Z * Z)) (et : Z) : Z :=
  match tags with [] => et | (tpid, _) :: _ => tpid end.

Definition eth_bytes (x : l3) (tags : list (Z * Z)) (et : Z) : list Z :=
  dst_mac x ++ src_mac x ++ be_bytes 2 (outer_type tags et) ++ tag_bytes tags et.

(** IPv4: [df] is the two flag bits above "more fragments". *)
Definition ipv4_bytes (x : l3) (df ident cksum : Z) (options : list Z) (body_len : Z) : list Z :=
  [0x45 + zlen options / 4; dscp x * 4 + ecn x] ++
  be_bytes 2 (20 + zlen options + body_len) ++ be_bytes 2 ident ++
  be_bytes 2 (df * 0x4000 + fragmented x * 0x2000) ++
  [ttl_or_hop_limit x; next_header x] ++ be_bytes 2 cksum ++
  take 4 (src_ip x) ++ take 4 (dst_ip x) ++ options.

(** IPv6 extension headers: an options or routing header of protocol [proto]
    with the bytes after its two fixed ones, or a fragment header of a first
    fragment. *)
Inductive ext : Type :=
| Options (proto : Z) (data : list Z)
| First_fragment (reserved flags : Z) (ident : list Z).

Definition ext_proto (e : ext) : Z :=
  match e with Options p _ => p | First_fragment _ _ _ => IPV6_PROTO_FRAGMENT end.

Definition chain_first (es : list ext) (last : Z) : Z :=
  match es with [] => last | e :: _ => ext_proto e end.

Definition ext_bytes (e : ext) (nh : Z) : list Z :=
  match e with
  | Options _ data => [nh; (zlen data + 2) / 8 - 1] ++ data
  | First_fragment r f ident => [nh; r; 0; f] ++ ident
  end.

Fixpoint chain_bytes (es : list ext) (last : Z) : list Z :=
  match es with
  | [] => []
  | e :: es' => ext_bytes e (chain_first es' last) ++ chain_bytes es' last
  end.

Definition ext_ok (e : ext) : Prop :=
  match e with
  | Options p data => (p = IPV6_PROTO_HOPOPTS \/ p = IPV6_PROTO_ROUTING \/ p = IPV6_PROTO_DSTOPTS)
      /\ (zlen data + 2) mod 8 = 0 /\ zlen data + 2 <= 2048 /\ bytes_ok data
  | First_fragment r f ident => is_byte r /\ 0 <= f < 8 /\ length ident = 4%nat /\ bytes_ok ident
  end.

Definition has_fragment (es : list ext) : bool :=
  existsb (fun e => match e with First_fragment _ _ _ => true | _ => false end) es.

Definition ipv6_bytes (x : l3) (flow : Z) (es : list ext) (body_len : Z) : list Z :=
  be_bytes 4 (6 * 2 ^ 28 + (dscp x * 4 + ecn x) * 2 ^ 20 + flow) ++
  be_bytes 2 (zlen (chain_bytes es (next_header x)) + body_len) ++
  [chain_first es (next_header x); ttl_or_hop_limit x] ++ src_ip x ++ dst_ip x ++
  chain_bytes es (next_header x).

(** ** Reading at known places *)

Lemma rd_pre a d k : 0 <= k -> rd (a ++ d) (zlen a + k) = rd d k.
Proof. intros. rewrite rd_app_r by lia. f_equal. lia. Qed.

Lemma rd_pre0 a d : rd (a ++ d) (zlen a) = rd d 0.
Proof. rewrite <- (rd_pre a d 0) by lia. by rewrite Z.add_0_r. Qed.

Lemma read_u16_pre a d k : 0 <= k -> read_u16 (a ++ d) (zlen a + k) = read_u16 d k.
Proof.
  intros. unfold read_u16. rewrite rd_pre by lia.
  replace (zlen a + k + 1) with (zlen a + (k + 1)) by lia. by rewrite rd_pre by lia.
Qed.

Lemma read_u32_pre a d k : 0 <= k -> read_u32 (a ++ d) (zlen a + k) = read_u32 d k.
Proof.
  intros. unfold read_u32. rewrite rd_pre by lia.
  replace (zlen a + k + 1) with (zlen a + (k + 1)) by lia.
  replace (zlen a + k + 2) with (zlen a + (k + 2)) by lia.
  replace (zlen a + k + 3) with (zlen a + (k + 3)) by lia. by rewrite !rd_pre by lia.
Qed.

Lemma rd_n_pre a d k n : 0 <= k -> rd_n (a ++ d) (zlen a + k) n = rd_n d k n.
Proof.
  intros. unfold rd_n. rewrite slice_app_r, length_app by lia.
  replace (zlen a + k - zlen a) with k by lia.
  replace ((0 <=? zlen a + k) && (0 <=? n) && (zlen a + k + n <=? Z.of_nat (length a + length d)))
    with ((0 <=? k) && (0 <=? n) && (k + n <=? zlen d)) by lia.
  done.
Qed.

Lemma be2_value v : 0 <= v < 65536 ->
  is_byte (u8 (Z.shiftr v 8)) /\ is_byte (u8 v) /\ u8 (Z.shiftr v 8) * 256 + u8 v = v.
Proof.
  intros Hv. split_and!; [apply u8_byte..|]. unfold u8.
  rewrite Z.shiftr_div_pow2 by lia. change (2 ^ 8) with 256. lia.
Qed.

Lemma read_u16_lit d k v : rd d k = Ret (u8 (Z.shiftr v 8)) -> rd d (k + 1) = Ret (u8 v) ->
  0 <= v < 65536 -> read_u16 d k = Ret v.
Proof.
  intros H1 H2 Hv. unfold read_u16. rewrite H1, H2. xbind.
  destruct (be2_value v Hv) as (Ha & Hb & He). by rewrite swap16, He by done.
Qed.

Lemma read_u32_lit d k v : rd d k = Ret (u8 (Z.shiftr v 24)) ->
  rd d (k + 1) = Ret (u8 (Z.shiftr v 16)) -> rd d (k + 2) = Ret (u8 (Z.shiftr v 8)) ->
  rd d (k + 3) = Ret (u8 v) -> 0 <= v < 2 ^ 32 -> read_u32 d k = Ret v.
Proof.
  intros H1 H2 H3 H4 Hv. unfold read_u32. rewrite H1, H2, H3, H4. xbind.
  rewrite swap32, be32_of_eq by apply u8_byte. f_equal. unfold u8.
  rewrite !Z.shiftr_div_pow2 by lia. change (2 ^ 8) with 256.
  change (2 ^ 16) with 65536. change (2 ^ 24) with 16777216. lia.
Qed.

(** ** The walk of an encoded frame *)

Definition tag_ok (t : Z * Z) : Prop := is_vlan (fst t) = true /\ 0 <= snd t < 65536.

Definition add_tag (w : cf_decap_walk_t) (t : Z * Z) : cf_decap_walk_t :=
  set_l3 (set_vlans (splice (vlan_ids (w_l3 w)) (vlan_count (w_l3 w)) [Z.land (snd t) 0x0FFF])
            (u8 (vlan_count (w_l3 w) + 1))) w.

Lemma is_vlan_u16 e : is_vlan e = true -> 0 <= e < 65536.
Proof. unfold is_vlan, ETHERTYPE_VLAN, ETHERTYPE_QINQ. lia. Qed.

Lemma outer_type_u16 tags et : Forall tag_ok tags -> 0 <= et < 65536 -> 0 <= outer_type tags et < 65536.
Proof. intros Ht He. destruct Ht as [|[tp tci] r [Hv _] _]; [done|]. by apply is_vlan_u16. Qed.

Lemma vlan_loop_tags n tags et pre rest w :
  Forall tag_ok tags -> 0 <= et < 65536 -> is_vlan et = false ->
  length (vlan_ids (w_l3 w)) = 2%nat -> 0 <= vlan_count (w_l3 w) ->
  vlan_count (w_l3 w) + Z.of_nat n <= 2 ->
  vlan_loop n (pre ++ tag_bytes tags et ++ rest) (outer_type tags et) (zlen pre) w =
  Ret (inr (outer_type (drop n tags) et, zlen pre + 4 * Z.of_nat (min n (length tags)),
            foldl add_tag w (take n tags))).
Proof.
  intros Ht Het Hnv. revert n pre w. induction Ht as [|[tp tci] tags [Htp Htci] Ht IH];
    intros n pre w Hl H0 Hn; [|destruct n as [|n]].
  - destruct n; simpl; rewrite ?Hnv; simpl; do 4 f_equal; lia.
  - simpl. do 4 f_equal. lia.
  - simpl in Htp, Htci. cbn [vlan_loop outer_type]. rewrite Htp. simpl negb. cbv iota.
    cbn [tag_bytes]. fold (outer_type tags et).
    assert (zlen (pre ++ (be_bytes 2 tci ++ be_bytes 2 (outer_type tags et) ++ tag_bytes tags et) ++ rest)
            >= zlen pre + 4) as Hlen.
    { rewrite !length_app, !be_bytes_length. lia. }
    replace (remain _ _ <? VLAN_TAG_LEN) with false
      by (unfold remain, VLAN_TAG_LEN; case_match; lia).
    rewrite <- (Z.add_0_r (zlen pre)) at 1. rewrite !read_u16_pre by lia. rewrite <- !app_assoc.
    rewrite (read_u16_lit _ 0 tci) by (done || lia). xbind.
    rewrite (read_u16_lit _ 2 (outer_type tags et)) by (done || by apply outer_type_u16). xbind.
    rewrite wr_n_ok by (simpl; lia). xbind.
    specialize (IH n (pre ++ be_bytes 2 tci ++ be_bytes 2 (outer_type tags et)) (add_tag w (tp, tci))).
    rewrite !length_app, !be_bytes_length in IH. rewrite <- !app_assoc in IH.
    replace (zlen pre + VLAN_TAG_LEN) with (Z.of_nat (length pre + (2 + 2)))
      by (unfold VLAN_TAG_LEN; lia).
    match goal with |- vlan_loop _ _ _ _ ?w' = _ => change w' with (add_tag w (tp, tci)) end.
    rewrite IH.
    + simpl. do 4 f_equal. lia.
    + simpl. rewrite length_splice; simpl; lia.
    + simpl. apply u8_byte.
    + simpl. rewrite u8_id; unfold is_byte; lia.
Qed.

Record ipv4_params (df ident cksum : Z) (options : list Z) (body_len : Z) : Prop := {
  p4_df : 0 <= df <= 3;
  p4_id : 0 <= ident < 65536 /\ 0 <= cksum < 65536;
  p4_options : zlen options mod 4 = 0 /\ zlen options <= 40 /\ bytes_ok options;
  p4_total : 0 <= body_len /\ 20 + zlen options + body_len < 65536
}.

Lemma list_4 (l : list Z) : length l = 4%nat -> exists a b c d, l = [a; b; c; d].
Proof. destruct l as [|a [|b [|c [|d [|]]]]]; try done. intros _. by exists a, b, c, d. Qed.

Lemma splice_pad4 (ip : list Z) : ip = replicate 16 0 -> forall l, length l = 4%nat ->
  splice ip 0 l = l ++ replicate 12 0.
Proof. intros -> l Hl. destruct (list_4 l Hl) as (?&?&?&?&->). done. Qed.

Definition walked4 (x : l3) (off hlen blen : Z) (w : cf_decap_walk_t) : cf_decap_walk_t :=
  set_l4 (off + hlen) (set_l3 (set_fragmented (fragmented x)) (set_l3 (set_frag_offset 0)
    (set_end (off + (hlen + blen)) (set_l3 (set_ip 4 (splice (src_ip (w_l3 w)) 0 (take 4 (src_ip x)))
      (splice (dst_ip (w_l3 w)) 0 (take 4 (dst_ip x))) (next_header x)
      (ttl_or_hop_limit x) (dscp x) (ecn x)) w)))).

Lemma ipv4_fields x df ident cksum options rest (d : list Z) :
  l3_ok x -> ipv4_params df ident cksum options (zlen d) ->
  let h := ipv4_bytes x df ident cksum options (zlen d) ++ rest in
  rd h 0 = Ret (0x45 + zlen options / 4) /\ rd h 1 = Ret (dscp x * 4 + ecn x) /\
  read_u16 h 2 = Ret (20 + zlen options + zlen d) /\
  read_u16 h 6 = Ret (df * 0x4000 + fragmented x * 0x2000) /\
  rd h 8 = Ret (ttl_or_hop_limit x) /\ rd h 9 = Ret (next_header x) /\
  rd_n h 12 4 = Ret (take 4 (src_ip x)) /\ rd_n h 16 4 = Ret (take 4 (dst_ip x)) /\
  zlen h = 20 + zlen options + zlen rest.
Proof.
  intros [_ _ _ [Hs Hd] _ _ [Hfr _]] [Hdf _ _ [Hb0 Htot]] h.
  destruct (list_4 (take 4 (src_ip x))) as (s0&s1&s2&s3&Es); [rewrite length_take; lia|].
  destruct (list_4 (take 4 (dst_ip x))) as (d0&d1&d2&d3&Ed); [rewrite length_take; lia|].
  assert (zlen h = 20 + zlen options + zlen rest) as Hl.
  { unfold h, ipv4_bytes. rewrite Es, Ed, !length_app, !be_bytes_length. simpl. lia. }
  rewrite !rd_n_ok by lia. revert Hl. unfold h, ipv4_bytes. rewrite Es, Ed. intros Hl.
  split_and!; try done; apply read_u16_lit; done || lia.
Qed.

Lemma flags_more df f : 0 <= df -> 0 <= f <= 1 ->
  Z.land (df * 0x4000 + f * 0x2000) 0x1FFF = 0 /\
  b2z (negb (Z.land (df * 0x4000 + f * 0x2000) 0x2000 =? 0)) = f.
Proof.
  intros Hdf Hf. split.
  - replace (df * 0x4000 + _) with ((df * 2 + f) * 2 ^ 13 + 0) by lia.
    by apply (land_small _ 0 13).
  - change 0x2000 with (Z.shiftl 1 13) at 2. rewrite land_shiftl_mask by lia.
    replace (df * 0x4000 + _) with ((df * 2 + f) * 2 ^ 13 + 0) by lia.
    rewrite (shiftr_small _ 0 13) by lia.
    assert (f = 0 \/ f = 1) as [-> | ->] by lia; rewrite (land_small df _ 1) by (lia || done); done.
Qed.

Lemma tos_split ds ec : 0 <= ds < 64 -> 0 <= ec < 4 ->
  u8 (Z.shiftr (ds * 4 + ec) 2) = ds /\ u8 (Z.land (ds * 4 + ec) 3) = ec.
Proof.
  intros Hds Hec. change 4 with (2 ^ 2) in *.
  rewrite shiftr_small, (land_small _ _ 2) by (lia || done).
  change (2 ^ 2) with 4 in *. rewrite !u8_id by (unfold is_byte; lia). done.
Qed.

Lemma ihl_split q : 0 <= q <= 10 ->
  Z.shiftr (0x45 + q) 4 = 4 /\ Z.land (0x45 + q) 0x0F = 5 + q.
Proof.
  intros Hq. replace (0x45 + q) with (4 * 2 ^ 4 + (5 + q)) by lia.
  rewrite shiftr_small, (land_small _ _ 4) by (lia || done). done.
Qed.

Lemma walk_ipv4_bytes x df ident cksum options pre body trailer w :
  l3_ok x -> ipv4_params df ident cksum options (zlen body) ->
  length (src_ip (w_l3 w)) = 16%nat -> length (dst_ip (w_l3 w)) = 16%nat ->
  walk_ipv4 (pre ++ ipv4_bytes x df ident cksum options (zlen body) ++ body ++ trailer) (zlen pre) w =
  Ret (CF_DECAP_OK, walked4 x (zlen pre) (20 + zlen options) (zlen body) w).
Proof.
  intros Hx Hp Hws Hwd.
  destruct (ipv4_fields x df ident cksum options (body ++ trailer) body Hx Hp)
    as (R0 & R1 & R2 & R6 & R8 & R9 & R12 & R16 & Hl).
  set (h := ipv4_bytes x df ident cksum options (zlen body) ++ body ++ trailer) in *.
  destruct Hp as [Hdf _ (Ho4 & Ho40 & _) [Hb0 Htot]].
  destruct Hx as [_ _ _ [Hs Hd] _ [Hds Hec] [Hfr _]].
  destruct (flags_more df (fragmented x)) as [Hoff Hmf]; [lia|lia|].
  destruct (tos_split _ _ Hds Hec) as [Hdscp Hecn].
  destruct (ihl_split (zlen options / 4)) as [Hver Hihl]; [lia|].
  assert (remain (zlen (pre ++ h)) (zlen pre) = zlen h) as Hrem
    by (unfold remain; rewrite length_app; case_match; lia).
  rewrite length_app in Hl.
  unfold walk_ipv4, IPV4_MIN_HDR_LEN. rewrite Hrem.
  replace (zlen h <? 20) with false by lia.
  rewrite <- (Z.add_0_r (zlen pre)) at 1.
  rewrite !rd_pre, !read_u16_pre, !rd_n_pre by lia.
  rewrite R0, R1, R2, R6, R8, R9, R12, R16. xbind.
  rewrite Hver, Hihl. replace ((5 + zlen options / 4) * 4) with (20 + zlen options) by lia.
  simpl negb. cbv iota. replace ((_ <? 20) || _) with false by lia.
  rewrite !wr_n_ok by (rewrite ?length_take; lia). xbind.
  rewrite Hoff, Hmf, Hdscp, Hecn. simpl negb. cbv iota.
  replace (_ || (zlen (pre ++ h) <? _)) with false by (rewrite length_app; lia).
  done.
Qed.

(** The walk state after the extension chain. *)
Fixpoint chain_walk (es : list ext) (last : Z) (w : cf_decap_walk_t) : cf_decap_walk_t :=
  match es with
  | [] => set_l3 (set_next_header last) w
  | e :: es' =>
      let w := set_l3 (set_next_header (chain_first es' last)) w in
      chain_walk es' last
        (match e with
         | Options _ _ => w
         | First_fragment _ _ _ => set_l3 (set_fragmented 1) (set_l3 (set_frag_offset 0) w)
         end)
  end.

Definition is_ext_proto (p : Z) : bool :=
  (p =? IPV6_PROTO_FRAGMENT) || (p =? IPV6_PROTO_HOPOPTS) || (p =? IPV6_PROTO_ROUTING)
  || (p =? IPV6_PROTO_DSTOPTS).

Lemma ext_bytes_length e nh : ext_ok e ->
  zlen (ext_bytes e nh) =
  match e with Options _ data => zlen data + 2 | First_fragment _ _ _ => 8 end.
Proof. destruct e; simpl; [lia|]. intros (_ & _ & -> & _). done. Qed.

(** One extension header of the loop. *)
Lemma walk_ext_step n e nh pre rest w : ext_ok e -> is_byte nh ->
  walk_ext (S n) (pre ++ ext_bytes e nh ++ rest) (zlen pre) (ext_proto e) w =
  walk_ext n (pre ++ ext_bytes e nh ++ rest) (zlen (pre ++ ext_bytes e nh)) nh
    (match e with
     | Options _ _ => set_l3 (set_next_header nh) w
     | First_fragment _ _ _ =>
         set_l3 (set_fragmented 1) (set_l3 (set_frag_offset 0) (set_l3 (set_next_header nh) w))
     end).
Proof.
  intros He Hnh.
  assert (remain (zlen (pre ++ ext_bytes e nh ++ rest)) (zlen pre)
          = zlen (ext_bytes e nh) + zlen rest) as Hrem
    by (unfold remain; rewrite !length_app; case_match; lia).
  pose proof (ext_bytes_length e nh He) as Hl.
  cbn [walk_ext]. rewrite Hrem, Hl. rewrite (length_app pre), Nat2Z.inj_add, Hl.
  rewrite !rd_pre0, !rd_pre, !read_u16_pre by lia.
  destruct e as [p data|r f ident]; cbn [ext_proto].
  - destruct He as (Hp & Hm & Hmax & Hok).
    replace (p =? IPV6_PROTO_FRAGMENT) with false by (destruct Hp as [-> |[-> | ->]]; done).
    replace (_ || _ || _) with true by (destruct Hp as [-> |[-> | ->]]; done).
    replace (_ <? 2) with false by lia.
    change (rd (ext_bytes (Options p data) nh ++ rest) 0) with (Ret nh).
    change (rd (ext_bytes (Options p data) nh ++ rest) 1) with (Ret ((zlen data + 2) / 8 - 1)). xbind.
    replace (((zlen data + 2) / 8 - 1 + 1) * 8) with (zlen data + 2) by lia.
    by replace (_ <? zlen data + 2) with false by lia.
  - destruct He as (Hr & Hf & Hid & Hok). replace (8 + _ <? IPV6_FRAG_HDR_LEN) with false
      by (unfold IPV6_FRAG_HDR_LEN; lia).
    rewrite Z.eqb_refl.
    change (rd (ext_bytes (First_fragment r f ident) nh ++ rest) 0) with (Ret nh). xbind.
    rewrite (read_u16_lit _ 2 f); [|simpl|simpl|lia].
    + xbind. replace (Z.shiftr f 3) with 0
        by (rewrite Z.shiftr_div_pow2 by lia; change (2 ^ 3) with 8; lia). done.
    + change (Ret 0 = Ret (u8 (Z.shiftr f 8))). do 2 f_equal.
      rewrite Z.shiftr_div_pow2 by lia. change (2 ^ 8) with 256.
      replace (f / 256) with 0 by lia. done.
    + change (Ret f = Ret (u8 f)). by rewrite u8_id by (unfold is_byte; lia).
Qed.

Lemma chain_first_byte es last : Forall ext_ok es -> is_byte last -> is_byte (chain_first es last).
Proof.
  intros He Hl. destruct He as [|[p data|] es He _]; [done| |done]. simpl.
  destruct He as ([-> |[-> | ->]] & _); done.
Qed.

(** A chain shorter than the bound is walked to the transport header. *)
Lemma walk_ext_chain n es last pre rest w :
  Forall ext_ok es -> is_byte last -> is_ext_proto last = false -> (length es < n)%nat ->
  walk_ext n (pre ++ chain_bytes es last ++ rest) (zlen pre) (chain_first es last) w =
  Ret (CF_DECAP_OK, set_l4 (zlen pre + zlen (chain_bytes es last)) (chain_walk es last w)).
Proof.
  intros He Hl Hnot. revert n pre w. induction He as [|e es He Hes IH]; intros n pre w Hn;
    (destruct n as [|n]; [simpl in Hn; lia|]).
  - cbn [walk_ext chain_first]. unfold is_ext_proto in Hnot.
    replace (last =? IPV6_PROTO_FRAGMENT) with false by lia.
    replace (_ || _ || _) with false by lia. simpl. by rewrite Z.add_0_r.
  - cbn [chain_bytes chain_first]. rewrite <- app_assoc.
    rewrite walk_ext_step by (done || by apply chain_first_byte).
    rewrite app_assoc, IH by (simpl in Hn; lia). do 3 f_equal.
    rewrite !length_app. lia.
Qed.

(** A longer chain is given up. *)
Lemma walk_ext_deep n es last pre rest w :
  Forall ext_ok es -> is_byte last -> (n <= length es)%nat ->
  exists w', walk_ext n (pre ++ chain_bytes es last ++ rest) (zlen pre) (chain_first es last) w =
  Ret (CF_DECAP_UNSUPPORTED, w').
Proof.
  intros He Hl. revert n pre w. induction He as [|e es He Hes IH]; intros n pre w Hn;
    (destruct n as [|n]; [by eexists|]); [simpl in Hn; lia|].
  cbn [chain_bytes chain_first]. rewrite <- app_assoc.
  rewrite walk_ext_step by (done || by apply chain_first_byte).
  rewrite app_assoc. apply IH. simpl in Hn. lia.
Qed.

Record ipv6_params (x : l3) (flow : Z) (es : list ext) (body_len : Z) : Prop := {
  p6_flow : 0 <= flow < 2 ^ 20;
  p6_exts : Forall ext_ok es;
  p6_total : 0 <= body_len /\ zlen (chain_bytes es (next_header x)) + body_len < 65536
}.

Definition walked6 (x : l3) (off : Z) (es : list ext) (blen : Z) (w : cf_decap_walk_t)
    : cf_decap_walk_t :=
  set_end (off + 40 + (zlen (chain_bytes es (next_header x)) + blen))
    (set_l3 (set_ip 6 (splice (src_ip (w_l3 w)) 0 (src_ip x)) (splice (dst_ip (w_l3 w)) 0 (dst_ip x))
               (chain_first es (next_header x)) (ttl_or_hop_limit x) (dscp x) (ecn x)) w).

Lemma list_16 (l : list Z) : length l = 16%nat ->
  exists a b c d e f g h i j k m n o p q, l = [a; b; c; d; e; f; g; h; i; j; k; m; n; o; p; q].
Proof. intros H. do 17 (destruct l as [|? l]; try done). by repeat eexists. Qed.

Lemma ipv6_length x flow es rest n : l3_ok x ->
  zlen (ipv6_bytes x flow es n ++ rest) = 40 + zlen (chain_bytes es (next_header x)) + zlen rest.
Proof.
  intros [_ _ _ [Hs Hd] _ _ _]. unfold ipv6_bytes.
  rewrite !length_app, !be_bytes_length, Hs, Hd. simpl. lia.
Qed.

(** The fixed header on explicit addresses and abstract values. *)
Lemma ipv6_fixed v t cf hop (sip dip rest : list Z) :
  0 <= v < 2 ^ 32 -> 0 <= t < 65536 -> length sip = 16%nat -> length dip = 16%nat ->
  let h := be_bytes 4 v ++ be_bytes 2 t ++ [cf; hop] ++ sip ++ dip ++ rest in
  read_u32 h 0 = Ret v /\ read_u16 h 4 = Ret t /\ rd h 6 = Ret cf /\ rd h 7 = Ret hop /\
  slice h 8 16 = sip /\ slice h 24 16 = dip.
Proof.
  intros Hv Ht Hs Hd.
  destruct (list_16 _ Hs) as (?&?&?&?&?&?&?&?&?&?&?&?&?&?&?&?&->).
  destruct (list_16 _ Hd) as (?&?&?&?&?&?&?&?&?&?&?&?&?&?&?&?&->).
  intros h. split; [apply read_u32_lit; [reflexivity..|exact Hv]|].
  split; [apply read_u16_lit; [reflexivity..|exact Ht]|]. repeat split.
Qed.

Lemma ipv6_fields x flow es rest (d : list Z) : l3_ok x -> ipv6_params x flow es (zlen d) ->
  let h := ipv6_bytes x flow es (zlen d) ++ rest in
  read_u32 h 0 = Ret (6 * 2 ^ 28 + (dscp x * 4 + ecn x) * 2 ^ 20 + flow) /\
  read_u16 h 4 = Ret (zlen (chain_bytes es (next_header x)) + zlen d) /\
  rd h 6 = Ret (chain_first es (next_header x)) /\ rd h 7 = Ret (ttl_or_hop_limit x) /\
  rd_n h 8 16 = Ret (src_ip x) /\ rd_n h 24 16 = Ret (dst_ip x).
Proof.
  intros Hx [Hfl _ [Hb0 Htot]] h. pose proof (ipv6_length x flow es rest (zlen d) Hx) as Hl.
  fold h in Hl. rewrite !rd_n_ok by lia.
  destruct Hx as [_ _ _ [Hs Hd] _ [Hds Hec] _].
  destruct (ipv6_fixed (6 * 2 ^ 28 + (dscp x * 4 + ecn x) * 2 ^ 20 + flow)
    (zlen (chain_bytes es (next_header x)) + zlen d) (chain_first es (next_header x))
    (ttl_or_hop_limit x) (src_ip x) (dst_ip x) (chain_bytes es (next_header x) ++ rest))
    as (H0 & H4 & H6 & H7 & H8 & H24); [lia|lia|done|done|].
  assert (h = be_bytes 4 (6 * 2 ^ 28 + (dscp x * 4 + ecn x) * 2 ^ 20 + flow) ++
    be_bytes 2 (zlen (chain_bytes es (next_header x)) + zlen d) ++
    [chain_first es (next_header x); ttl_or_hop_limit x] ++ src_ip x ++ dst_ip x ++
    chain_bytes es (next_header x) ++ rest) as ->
    by (unfold h, ipv6_bytes; by rewrite <- !app_assoc).
  rewrite H0, H4, H6, H7, H8, H24. repeat split.
Qed.

Lemma word0_split tc flow : 0 <= tc < 256 -> 0 <= flow < 2 ^ 20 ->
  u8 (Z.shiftr (6 * 2 ^ 28 + tc * 2 ^ 20 + flow) 28) = 6 /\
  u8 (Z.land (Z.shiftr (6 * 2 ^ 28 + tc * 2 ^ 20 + flow) 20) 0xFF) = tc.
Proof.
  intros Htc Hf. split.
  - replace (6 * 2 ^ 28 + _ + _) with (6 * 2 ^ 28 + (tc * 2 ^ 20 + flow)) by lia.
    by rewrite shiftr_small by lia.
  - replace (6 * 2 ^ 28 + tc * 2 ^ 20 + flow) with ((6 * 2 ^ 8 + tc) * 2 ^ 20 + flow) by lia.
    rewrite shiftr_small, (land_small _ _ 8) by (lia || done).
    by rewrite u8_id by (unfold is_byte; lia).
Qed.

(** Up to the chain, the IPv6 walk of an encoded header. *)
Lemma walk_ipv6_bytes x flow es pre rest (d : list Z) w :
  l3_ok x -> ipv6_params x flow es (zlen d) -> zlen d <= zlen rest ->
  length (src_ip (w_l3 w)) = 16%nat -> length (dst_ip (w_l3 w)) = 16%nat ->
  exists hdr, zlen hdr = 40 /\
  pre ++ ipv6_bytes x flow es (zlen d) ++ rest =
    (pre ++ hdr) ++ chain_bytes es (next_header x) ++ rest /\
  walk_ipv6 (pre ++ ipv6_bytes x flow es (zlen d) ++ rest) (zlen pre) w =
  walk_ext IPV6_MAX_EXT_HEADERS
    ((pre ++ hdr) ++ chain_bytes es (next_header x) ++ rest) (zlen (pre ++ hdr))
    (chain_first es (next_header x)) (walked6 x (zlen pre) es (zlen d) w).
Proof.
  intros Hx Hp Hrest Hws Hwd.
  destruct (ipv6_fields x flow es rest d Hx Hp) as (R0 & R4 & R6 & R7 & R8 & R24).
  pose proof (ipv6_length x flow es rest (zlen d) Hx) as Hl.
  destruct Hp as [Hflow _ [Hb0 Htot]].
  destruct Hx as [_ _ _ [Hs Hd] _ [Hds Hec] _].
  destruct (word0_split (dscp x * 4 + ecn x) flow) as [Hver Htc]; [lia|done|].
  destruct (tos_split _ _ Hds Hec) as [Hdscp Hecn].
  set (h := ipv6_bytes x flow es (zlen d) ++ rest) in *.
  set (hdr := be_bytes 4 (6 * 2 ^ 28 + (dscp x * 4 + ecn x) * 2 ^ 20 + flow) ++
    be_bytes 2 (zlen (chain_bytes es (next_header x)) + zlen d) ++
    [chain_first es (next_header x); ttl_or_hop_limit x] ++ src_ip x ++ dst_ip x).
  assert (zlen hdr = 40) as Hhdr
    by (unfold hdr; rewrite !length_app, !be_bytes_length, Hs, Hd; simpl; lia).
  assert (pre ++ h = (pre ++ hdr) ++ chain_bytes es (next_header x) ++ rest) as Hsplit
    by (unfold h, hdr, ipv6_bytes; rewrite <- !app_assoc; reflexivity).
  exists hdr. split; [exact Hhdr|]. split; [exact Hsplit|]. rewrite <- Hsplit. clear Hsplit.
  rewrite (length_app pre hdr), Nat2Z.inj_add, Hhdr. clear Hhdr hdr.
  assert (remain (zlen (pre ++ h)) (zlen pre) = zlen h) as Hrem
    by (unfold remain; rewrite length_app; case_match; lia).
  unfold walk_ipv6, IPV6_FIXED_HDR_LEN. rewrite Hrem. replace (zlen h <? 40) with false by lia.
  rewrite <- (Z.add_0_r (zlen pre)) at 1.
  rewrite !rd_pre, !read_u16_pre, !read_u32_pre, !rd_n_pre by lia.
  rewrite R0, R4, R6, R7, R8, R24. xbind. rewrite Hver, Htc. simpl negb. cbv iota.
  rewrite !wr_n_ok by lia. xbind. rewrite Hdscp, Hecn.
  replace (zlen (pre ++ h) <? _) with false by (rewrite length_app; lia).
  reflexivity.
Qed.

(** ** Whole frames *)

(** The network header of a frame: IPv4 with its flag bits, identification,
    checksum and options, or IPv6 with its flow label and extension chain. *)
Inductive net : Type :=
| V4 (df ident cksum : Z) (options : list Z)
| V6 (flow : Z) (exts : list ext).

Definition net_bytes (x : l3) (n : net) (body_len : Z) : list Z :=
  match n with
  | V4 df ident cksum options => ipv4_bytes x df ident cksum options body_len
  | V6 flow exts => ipv6_bytes x flow exts body_len
  end.

Definition net_ok (x : l3) (n : net) (body_len : Z) : Prop :=
  match n with
  | V4 df ident cksum options =>
      ipv4_params df ident cksum options body_len /\
      ethertype x = ETHERTYPE_IPV4 /\ ip_version x = 4 /\
      src_ip x = take 4 (src_ip x) ++ replicate 12 0 /\
      dst_ip x = take 4 (dst_ip x) ++ replicate 12 0
  | V6 flow exts =>
      ipv6_params x flow exts body_len /\ (length exts < IPV6_MAX_EXT_HEADERS)%nat /\
      ethertype x = ETHERTYPE_IPV6 /\ ip_version x = 6 /\
      is_ext_proto (next_header x) = false /\ fragmented x = b2z (has_fragment exts)
  end.

Definition tag_ids (tags : list (Z * Z)) : list Z :=
  match tags with
  | [] => [0; 0]
  | [(_, a)] => [Z.land a 0x0FFF; 0]
  | (_, a) :: (_, b) :: _ => [Z.land a 0x0FFF; Z.land b 0x0FFF]
  end.

Record encodable (x : l3) (tags : list (Z * Z)) (n : net) (body_len : Z) : Prop := {
  en_l3 : l3_ok x;
  en_tags : Forall tag_ok tags /\ (length tags <= 2)%nat;
  en_ids : vlan_ids x = tag_ids tags /\ vlan_count x = zlen tags;
  en_offset : fragment_offset x = 0;
  en_net : net_ok x n body_len
}.

Definition encode (x : l3) (tags : list (Z * Z)) (n : net) (body trailer : list Z) : list Z :=
  eth_bytes x tags (ethertype x) ++ net_bytes x n (zlen body) ++ body ++ trailer.

Definition encoded_walk (x : l3) (off blen : Z) : cf_decap_walk_t :=
  {| w_l3 := x; l4_offset := off; ip_payload_end := off + blen; l4_present := 1 |}.

Lemma chain_walk_fields es last w :
  let w' := chain_walk es last w in
  ip_payload_end w' = ip_payload_end w /\ l4_offset w' = l4_offset w /\
  l4_present w' = l4_present w /\
  (fragment_offset (w_l3 w) = 0 -> fragmented (w_l3 w) = 0 ->
   w_l3 w' = set_fragmented (b2z (has_fragment es)) (set_frag_offset 0 (set_next_header last (w_l3 w)))) /\
  (fragment_offset (w_l3 w) = 0 -> fragmented (w_l3 w) = 1 ->
   w_l3 w' = set_fragmented 1 (set_frag_offset 0 (set_next_header last (w_l3 w)))).
Proof.
  revert w. induction es as [|e es IH]; intros w; simpl.
  - split_and!; try done; intros H1 H2; destruct w as [[] ? ? ?]; simpl in *; by subst.
  - match goal with |- context [chain_walk es last ?v] => destruct (IH v) as (-> & -> & -> & I0 & I1) end.
    destruct w as [[] ? ? ?], e; simpl in *; split_and!; try done; intros -> ->;
      rewrite ?I0, ?I1 by done; done.
Qed.

Definition l3_base (x : l3) (tags : list (Z * Z)) : cf_decap_walk_t :=
  set_l3 (set_ethertype (ethertype x))
    (foldl add_tag (set_l3 (set_macs (dst_mac x) (src_mac x)) walk_zero) tags).

Lemma l3_base_eq x tags n blen : encodable x tags n blen ->
  l3_base x tags = set_l3 (set_ethertype (ethertype x)) (set_l3 (set_vlans (vlan_ids x) (vlan_count x))
    (set_l3 (set_macs (dst_mac x) (src_mac x)) walk_zero)).
Proof.
  intros [_ [_ Hl] [-> ->] _ _].
  destruct tags as [|[? a] [|[? b] [|]]]; simpl in Hl; try lia; done.
Qed.

Lemma walk_net x tags n body trailer pre : encodable x tags n (zlen body) ->
  (if ethertype x =? ETHERTYPE_IPV4
   then walk_ipv4 (pre ++ net_bytes x n (zlen body) ++ body ++ trailer) (zlen pre) (l3_base x tags)
   else if ethertype x =? ETHERTYPE_IPV6
   then walk_ipv6 (pre ++ net_bytes x n (zlen body) ++ body ++ trailer) (zlen pre) (l3_base x tags)
   else Ret (CF_DECAP_UNSUPPORTED, l3_base x tags)) =
  Ret (CF_DECAP_OK, encoded_walk x (zlen pre + zlen (net_bytes x n (zlen body))) (zlen body)).
Proof.
  intros Hen. rewrite (l3_base_eq _ _ _ _ Hen). destruct Hen as [Hx _ _ Hfo Hn].
  pose proof Hx as [_ _ _ [Hs Hd] _ _ _].
  destruct n as [df ident cksum options|flow es]; cbn [net_ok net_bytes] in *.
  - destruct Hn as (Hp & Het & Hver & Hsp & Hdp). rewrite Het.
    rewrite walk_ipv4_bytes by done. do 2 f_equal. unfold walked4.
    pose proof (ipv4_fields x df ident cksum options [] body Hx Hp) as (_&_&_&_&_&_&_&_&Hl).
    rewrite app_nil_r in Hl. rewrite Hl.
    assert (length (take 4 (src_ip x)) = 4%nat) as Hs4 by (rewrite length_take; lia).
    assert (length (take 4 (dst_ip x)) = 4%nat) as Hd4 by (rewrite length_take; lia).
    change (src_ip (w_l3 (set_l3 _ _))) with (replicate 16 0) at 1.
    change (dst_ip (w_l3 (set_l3 _ _))) with (replicate 16 0) at 1.
    rewrite !splice_pad4, <- Hsp, <- Hdp by done. unfold encoded_walk. clear Hsp Hdp Hs4 Hd4 Hx.
    destruct x. simpl in *. subst. unfold set_l4, set_end, set_l3. simpl. f_equal; lia.
  - destruct Hn as (Hp & Hlen & Het & Hver & Hproto & Hfr). rewrite Het.
    change (ETHERTYPE_IPV6 =? ETHERTYPE_IPV4) with false. rewrite Z.eqb_refl. cbv iota.
    pose proof (ipv6_length x flow es [] (zlen body) Hx) as Hl. rewrite app_nil_r in Hl. rewrite Hl.
    match goal with |- walk_ipv6 _ _ ?w = _ =>
      destruct (walk_ipv6_bytes x flow es pre (body ++ trailer) body w Hx Hp)
        as (hdr & Hh & _ & ->); [rewrite length_app; lia|done|done|] end.
    rewrite walk_ext_chain by (done || apply Hp || apply Hx). do 2 f_equal.
    match goal with |- context [chain_walk es _ ?w] =>
      destruct (chain_walk_fields es (next_header x) w) as (He & Ho & Hq & H3 & _) end.
    unfold set_l4, encoded_walk. rewrite He, H3 by done. f_equal.
    + unfold walked6. simpl. rewrite <- Hfr. unfold splice. simpl. rewrite !drop_ge by (simpl; lia).
      rewrite !app_nil_r. clear -Het Hver Hfo. destruct x. simpl in *. by subst.
    + rewrite length_app. simpl. lia.
    + unfold walked6. simpl. lia.
Qed.

Lemma eth_bytes_length x tags et : l3_ok x -> zlen (eth_bytes x tags et) = 14 + 4 * zlen tags.
Proof.
  intros [[Hs Hd] _ _ _ _ _ _]. unfold eth_bytes. rewrite !length_app, Hs, Hd, be_bytes_length.
  assert (length (tag_bytes tags et) = 4 * length tags)%nat as ->; [|lia].
  induction tags as [|[? ?] tags IH]; simpl; [done|]. rewrite IH. lia.
Qed.

(** The fixed Ethernet header. *)
Lemma eth_fields x et rest : l3_ok x -> 0 <= et < 65536 ->
  let h := dst_mac x ++ src_mac x ++ be_bytes 2 et ++ rest in
  rd_n h 0 6 = Ret (dst_mac x) /\ rd_n h 6 6 = Ret (src_mac x) /\ read_u16 h 12 = Ret et /\
  14 <= zlen h.
Proof.
  intros [[Hs Hd] _ _ _ _ _ _] Het h.
  assert (14 <= zlen h) as Hl
    by (unfold h; rewrite !length_app, be_bytes_length, Hs, Hd; lia).
  rewrite !rd_n_ok by lia. split_and!; [..|done].
  - unfold h. rewrite slice_app_l by lia. by rewrite slice_all by lia.
  - unfold h. rewrite slice_app_r by lia. replace (6 - zlen (dst_mac x)) with 0 by lia.
    rewrite slice_app_l by lia. by rewrite slice_all by lia.
  - unfold h. replace 12 with (zlen (dst_mac x ++ src_mac x) + 0) by (rewrite length_app; lia).
    rewrite app_assoc, read_u16_pre by lia. by apply read_u16_lit.
Qed.

(** The link layer of an encoded frame with any number of tags. *)
Lemma decap_walk_eth x tags et rest : l3_ok x -> Forall tag_ok tags -> 0 <= et < 65536 ->
  is_vlan et = false ->
  decap_walk (eth_bytes x tags et ++ rest) =
  (let et' := outer_type (drop 2 tags) et in
   let w := foldl add_tag (set_l3 (set_macs (dst_mac x) (src_mac x)) walk_zero) (take 2 tags) in
   let frame := eth_bytes x tags et ++ rest in
   let offset := 14 + 4 * Z.of_nat (min 2 (length tags)) in
   if is_vlan et' then Ret (CF_DECAP_UNSUPPORTED, w) else
   let w := set_l3 (set_ethertype et') w in
   if et' =? ETHERTYPE_IPV4 then walk_ipv4 frame offset w
   else if et' =? ETHERTYPE_IPV6 then walk_ipv6 frame offset w
   else Ret (CF_DECAP_UNSUPPORTED, w)).
Proof.
  intros Hx Ht Het Hnv. pose proof (outer_type_u16 tags et Ht Het) as Hot.
  destruct (eth_fields x (outer_type tags et) (tag_bytes tags et ++ rest) Hx Hot)
    as (R0 & R6 & R12 & Hl).
  assert (eth_bytes x tags et ++ rest =
    dst_mac x ++ src_mac x ++ be_bytes 2 (outer_type tags et) ++ tag_bytes tags et ++ rest) as Heq
    by (unfold eth_bytes; by rewrite <- !app_assoc).
  unfold decap_walk, ETH_HDR_LEN. rewrite Heq.
  set (h := dst_mac x ++ _) in *.
  replace (remain (zlen h) 0 <? 14) with false by (unfold remain; case_match; lia).
  rewrite R0, R6, R12. xbind.
  assert (zlen ((dst_mac x ++ src_mac x) ++ be_bytes 2 (outer_type tags et)) = 14) as Hpre.
  { destruct Hx as [[Hs Hd] _ _ _ _ _ _]. rewrite !length_app, be_bytes_length, Hs, Hd. done. }
  replace h with (((dst_mac x ++ src_mac x) ++ be_bytes 2 (outer_type tags et)) ++
                  tag_bytes tags et ++ rest) at 1 by (unfold h; by rewrite <- !app_assoc).
  rewrite <- Hpre at 1. rewrite vlan_loop_tags by (done || simpl; lia). xbind. rewrite Hpre. done.
Qed.

Lemma ip_not_vlan x n blen : net_ok x n blen ->
  is_vlan (ethertype x) = false /\ 0 <= ethertype x < 65536.
Proof.
  destruct n; simpl; [intros (_ & -> & _)|intros (_ & _ & -> & _)]; done.
Qed.

Lemma decap_walk_encode x tags n body trailer : encodable x tags n (zlen body) ->
  decap_walk (encode x tags n body trailer) =
  Ret (CF_DECAP_OK,
       encoded_walk x (14 + 4 * zlen tags + zlen (net_bytes x n (zlen body))) (zlen body)).
Proof.
  intros Hen. pose proof Hen as [Hx [Ht Hl2] _ _ Hn]. destruct (ip_not_vlan _ _ _ Hn) as [Hnv Het].
  unfold encode. rewrite decap_walk_eth by done.
  rewrite drop_ge, take_ge, Nat.min_r by lia. cbn [outer_type]. rewrite Hnv. cbv zeta.
  fold (l3_base x tags). pose proof (eth_bytes_length x tags (ethertype x) Hx) as Hel.
  rewrite <- Hel. by apply walk_net.
Qed.

Definition udp_bytes (sp dp cksum payload_len : Z) : list Z :=
  be_bytes 2 sp ++ be_bytes 2 dp ++ be_bytes 2 (8 + payload_len) ++ be_bytes 2 cksum.

Definition tcp_bytes (sp dp seq ack flags window cksum urg : Z) (options : list Z) : list Z :=
  be_bytes 2 sp ++ be_bytes 2 dp ++ be_bytes 4 seq ++ be_bytes 4 ack ++
  [(5 + zlen options / 4) * 16; flags] ++ be_bytes 2 window ++ be_bytes 2 cksum ++
  be_bytes 2 urg ++ options.

Lemma encode_split x tags n hdr payload trailer : exists pre,
  encode x tags n (hdr ++ payload) trailer = pre ++ hdr ++ payload ++ trailer /\
  (l3_ok x -> zlen pre = 14 + 4 * zlen tags + zlen (net_bytes x n (zlen (hdr ++ payload)))).
Proof.
  eexists. unfold encode. rewrite app_assoc, <- (app_assoc hdr). split; [reflexivity|].
  intros Hx. rewrite length_app, Nat2Z.inj_add, eth_bytes_length by done. lia.
Qed.

Lemma payload_slice (pre hdr payload trailer : list Z) off :
  off = zlen pre + zlen hdr ->
  slice (pre ++ hdr ++ payload ++ trailer) off (zlen payload) = payload.
Proof.
  intros ->. rewrite app_assoc, slice_app_r by (rewrite length_app; lia).
  rewrite length_app. replace (_ - _) with 0 by lia.
  rewrite slice_app_l by lia. by apply slice_all.
Qed.

Lemma parse_udp_bytes pre sp dp ck payload trailer out :
  0 <= sp < 65536 -> 0 <= dp < 65536 -> 0 <= ck < 65536 -> 8 + zlen payload < 65536 ->
  parse_udp (pre ++ udp_bytes sp dp ck (zlen payload) ++ payload ++ trailer) (zlen pre) out =
  Ret (CF_DECAP_OK,
       {| u_l3 := u_l3 out; u_src_port := sp; u_dst_port := dp; udp_length := 8 + zlen payload;
          udp_checksum_present := b2z (negb (ck =? 0)); u_payload := zlen pre + 8;
          u_payload_len := zlen payload |}).
Proof.
  intros Hsp Hdp Hck Hlen.
  set (h := udp_bytes sp dp ck (zlen payload) ++ payload ++ trailer).
  assert (zlen h = 8 + zlen payload + zlen trailer) as Hl
    by (unfold h, udp_bytes; rewrite !length_app, !be_bytes_length; lia).
  unfold parse_udp, UDP_HDR_LEN.
  replace (remain (zlen (pre ++ h)) (zlen pre)) with (zlen h)
    by (unfold remain; rewrite length_app; case_match; lia).
  replace (remain (zlen (pre ++ h)) (zlen pre + 8)) with (zlen h - 8)
    by (unfold remain; rewrite length_app; case_match; lia).
  replace (zlen h <? 8) with false by lia.
  rewrite <- (Z.add_0_r (zlen pre)) at 1. rewrite !read_u16_pre by lia.
  rewrite (read_u16_lit h 0 sp), (read_u16_lit h 2 dp), (read_u16_lit h 4 (8 + zlen payload)),
    (read_u16_lit h 6 ck) by (reflexivity || lia). xbind.
  replace (8 + zlen payload <? 8) with false by lia.
  replace (_ <? 8 + zlen payload - 8) with false by lia.
  do 4 f_equal. simpl. lia.
Qed.

Lemma parse_tcp_bytes pre sp dp sq ack fl win ck urg options payload trailer out :
  0 <= sp < 65536 -> 0 <= dp < 65536 -> 0 <= sq < 2 ^ 32 ->
  zlen options mod 4 = 0 -> zlen options <= 40 ->
  let hdr := tcp_bytes sp dp sq ack fl win ck urg options in
  parse_tcp (pre ++ hdr ++ payload ++ trailer) (zlen pre)
    (zlen pre + zlen (hdr ++ payload)) out =
  Ret (CF_DECAP_OK,
       {| t_l3 := t_l3 out; t_src_port := sp; t_dst_port := dp; seq_no := sq; tcp_flags := fl;
          t_payload := zlen pre + zlen hdr; t_payload_len := zlen payload |}).
Proof.
  intros Hsp Hdp Hsq Hm Hmax hdr.
  assert (zlen hdr = 20 + zlen options) as Hh
    by (unfold hdr, tcp_bytes; rewrite !length_app, !be_bytes_length; simpl; lia).
  set (h := hdr ++ payload ++ trailer).
  assert (zlen h = 20 + zlen options + zlen payload + zlen trailer) as Hl
    by (unfold h; rewrite !length_app; lia).
  unfold parse_tcp, TCP_MIN_HDR_LEN.
  replace (remain (zlen (pre ++ h)) (zlen pre)) with (zlen h)
    by (unfold remain; rewrite length_app; case_match; lia).
  replace (zlen h <? 20) with false by lia.
  rewrite <- (Z.add_0_r (zlen pre)) at 1. rewrite !read_u16_pre, !read_u32_pre, !rd_pre by lia.
  rewrite (read_u16_lit h 0 sp), (read_u16_lit h 2 dp), (read_u32_lit h 4 sq)
    by (reflexivity || lia).
  change (rd h 12) with (Ret ((5 + zlen options / 4) * 16)). change (rd h 13) with (Ret fl). xbind.
  rewrite Z.shiftr_div_pow2 by lia. change (2 ^ 4) with 16. rewrite Z.div_mul by lia.
  replace ((5 + zlen options / 4) * 4) with (zlen hdr) by lia.
  replace (zlen hdr <? 20) with false by lia. replace (zlen h <? zlen hdr) with false by lia.
  rewrite (length_app hdr), Nat2Z.inj_add.
  replace (_ <? zlen pre + zlen hdr) with false by lia.
  replace (zlen (pre ++ h) <? _) with false by (rewrite length_app; lia).
  do 4 f_equal. lia.
Qed.

(** ** Properties *)

(** C15. Decapsulation is total and memory safe on every frame, truncated or
    adversarial: each wrapper returns a result without reading outside the
    frame, every field is in its range, the UDP wrapper never says "not TCP"
    and conversely, and on success the payload view lies inside the frame, the
    protocol is the requested one and the frame is not a later fragment. *)
Theorem decap_safe frame :
  bytes_ok frame ->
  runs (cf_decap_udp frame) (udp_post (zlen frame)) /\
  runs (cf_decap_tcp frame) (tcp_post (zlen frame)).
Proof. intros Hok. split; [by apply decap_udp_ok|by apply decap_tcp_ok]. Qed.

Lemma decap_safe_witness :
  runs (cf_decap_udp [1; 2; 3]) (udp_post 3) /\ runs (cf_decap_tcp [1; 2; 3]) (tcp_post 3).
Proof. apply (decap_safe [1; 2; 3]). repeat (apply Forall_cons_2; [done|]). constructor. Defined.

Lemma udp_encoded x tags n sp dp ck payload trailer :
  let hdr := udp_bytes sp dp ck (zlen payload) in
  let frame := encode x tags n (hdr ++ payload) trailer in
  let off := 14 + 4 * zlen tags + zlen (net_bytes x n (zlen (hdr ++ payload))) + UDP_HDR_LEN in
  encodable x tags n (zlen (hdr ++ payload)) -> next_header x = IP_PROTO_UDP ->
  Forall (fun v => 0 <= v < 65536) [sp; dp; ck; 8 + zlen payload] ->
  cf_decap_udp frame =
    Ret (CF_DECAP_OK,
         {| u_l3 := x; u_src_port := sp; u_dst_port := dp; udp_length := 8 + zlen payload;
            udp_checksum_present := b2z (negb (ck =? 0));
            u_payload := off; u_payload_len := zlen payload |}) /\
  slice frame off (zlen payload) = payload /\
  cf_decap_tcp frame =
    Ret (CF_DECAP_NOT_TCP,
         copy_l3_tcp tcp_zero (encoded_walk x (off - UDP_HDR_LEN) (zlen (hdr ++ payload)))).
Proof.
  intros hdr frame off Hen Hnh Hr. rewrite !Forall_cons_iff in Hr. destruct Hr as (?&?&?&?&_).
  pose proof (decap_walk_encode x tags n (hdr ++ payload) trailer Hen) as Hw.
  destruct (encode_split x tags n hdr payload trailer) as (pre & Hf & Hpre).
  specialize (Hpre (en_l3 _ _ _ _ Hen)).
  assert (off = zlen pre + 8) as Hoff by (unfold off, UDP_HDR_LEN; lia).
  unfold cf_decap_udp, cf_decap_tcp. fold frame in Hw, Hf. rewrite Hw, <- Hpre. xbind.
  unfold encoded_walk. cbn [w_l3 l4_present l4_offset ip_payload_end copy_l3_udp]. rewrite Hnh.
  split_and!.
  - simpl bool_decide. cbv iota. simpl negb. cbn [orb]. cbv iota.
    rewrite Hf. unfold hdr. rewrite parse_udp_bytes by lia. by rewrite Hoff.
  - rewrite Hf, Hoff. apply payload_slice. unfold hdr, udp_bytes.
    rewrite !length_app, !be_bytes_length. done.
  - unfold UDP_HDR_LEN. rewrite Hoff. by replace (zlen pre + 8 - 8) with (zlen pre) by lia.
Qed.

(** UDP round trip: for every link and network block, up to two VLAN tags
    of either kind, IPv4 options or a chain of up to seven IPv6 extension
    headers, any payload and any trailing link-layer padding, decapsulating
    the encoded frame returns exactly that block, the ports, and a view of
    exactly the payload; the TCP wrapper says the frame is not TCP. *)
Theorem udp_roundtrip x tags n sp dp ck payload trailer :
  let hdr := udp_bytes sp dp ck (zlen payload) in
  let frame := encode x tags n (hdr ++ payload) trailer in
  let off := 14 + 4 * zlen tags + zlen (net_bytes x n (zlen (hdr ++ payload))) + UDP_HDR_LEN in
  encodable x tags n (zlen (hdr ++ payload)) -> next_header x = IP_PROTO_UDP ->
  Forall (fun v => 0 <= v < 65536) [sp; dp; ck; 8 + zlen payload] ->
  cf_decap_udp frame =
    Ret (CF_DECAP_OK,
         {| u_l3 := x; u_src_port := sp; u_dst_port := dp; udp_length := 8 + zlen payload;
            udp_checksum_present := b2z (negb (ck =? 0));
            u_payload := off; u_payload_len := zlen payload |}) /\
  slice frame off (zlen payload) = payload /\
  cf_decap_tcp frame =
    Ret (CF_DECAP_NOT_TCP,
         copy_l3_tcp tcp_zero (encoded_walk x (off - UDP_HDR_LEN) (zlen (hdr ++ payload)))).
Proof. apply udp_encoded. Qed.

(** TCP round trip: as above for a TCP segment; the payload view ends at
    the end of the IP payload, so link-layer padding never leaks into it. *)
Theorem tcp_roundtrip x tags n sp dp sq ack fl win ck urg options payload trailer :
  let hdr := tcp_bytes sp dp sq ack fl win ck urg options in
  let frame := encode x tags n (hdr ++ payload) trailer in
  let off := 14 + 4 * zlen tags + zlen (net_bytes x n (zlen (hdr ++ payload))) in
  encodable x tags n (zlen (hdr ++ payload)) -> next_header x = IP_PROTO_TCP ->
  0 <= sp < 65536 -> 0 <= dp < 65536 -> 0 <= sq < 2 ^ 32 ->
  zlen options mod 4 = 0 -> zlen options <= 40 ->
  cf_decap_tcp frame =
    Ret (CF_DECAP_OK,
         {| t_l3 := x; t_src_port := sp; t_dst_port := dp; seq_no := sq; tcp_flags := fl;
            t_payload := off + zlen hdr; t_payload_len := zlen payload |}) /\
  slice frame (off + zlen hdr) (zlen payload) = payload /\
  cf_decap_udp frame =
    Ret (CF_DECAP_NOT_UDP,
         copy_l3_udp udp_zero (encoded_walk x off (zlen (hdr ++ payload)))).
Proof.
  intros hdr frame off Hen Hnh Hsp Hdp Hsq Hm Hmax.
  pose proof (decap_walk_encode x tags n (hdr ++ payload) trailer Hen) as Hw.
  destruct (encode_split x tags n hdr payload trailer) as (pre & Hf & Hpre).
  specialize (Hpre (en_l3 _ _ _ _ Hen)). fold off in Hpre, Hw.
  unfold cf_decap_udp, cf_decap_tcp. fold frame in Hw, Hf. rewrite Hw, <- Hpre. xbind.
  unfold encoded_walk. cbn [w_l3 l4_present l4_offset ip_payload_end copy_l3_tcp]. rewrite Hnh.
  split_and!; [|rewrite Hf; by apply payload_slice|done].
  simpl bool_decide. cbv iota. simpl negb. cbn [orb]. cbv iota.
  rewrite Hf. unfold hdr. by rewrite parse_tcp_bytes by done.
Qed.

(** A frame with three or more VLAN tags, whatever follows them, is
    reported as unsupported by both wrappers. *)
Theorem vlan_depth_limit x tags et rest :
  l3_ok x -> Forall tag_ok tags -> (3 <= length tags)%nat -> 0 <= et < 65536 ->
  is_vlan et = false ->
  exists u t, cf_decap_udp (eth_bytes x tags et ++ rest) = Ret (CF_DECAP_UNSUPPORTED, u) /\
              cf_decap_tcp (eth_bytes x tags et ++ rest) = Ret (CF_DECAP_UNSUPPORTED, t).
Proof.
  intros Hx Ht Hl Het Hnv. unfold cf_decap_udp, cf_decap_tcp. rewrite decap_walk_eth by done.
  destruct tags as [|t1 [|t2 [|[tp tci] tags]]]; simpl in Hl; try lia.
  cbn [drop outer_type]. rewrite !Forall_cons_iff in Ht. destruct Ht as (_&_&[Htp _]&_).
  simpl in Htp. cbv zeta. rewrite Htp. xbind. by do 2 eexists.
Qed.

(** The depth of the IPv6 extension chain: with fewer than eight headers
    the walk reaches the transport header; with eight or more it gives up as
    unsupported, so at most seven extension headers are ever accepted. *)
Theorem ipv6_chain_limit pre es last rest w :
  Forall ext_ok es -> is_byte last -> is_ext_proto last = false ->
  let frame := pre ++ chain_bytes es last ++ rest in
  let walk := walk_ext IPV6_MAX_EXT_HEADERS frame (zlen pre) (chain_first es last) w in
  ((length es <= 7)%nat ->
   walk = Ret (CF_DECAP_OK, set_l4 (zlen pre + zlen (chain_bytes es last)) (chain_walk es last w))) /\
  ((8 <= length es)%nat -> exists w', walk = Ret (CF_DECAP_UNSUPPORTED, w')).
Proof.
  intros He Hl Hn frame walk. split; intros Hlen.
  - apply walk_ext_chain; try done. unfold IPV6_MAX_EXT_HEADERS. lia.
  - by apply walk_ext_deep.
Qed.

(** ** Concrete frames *)

Definition sample (et ver nh : Z) (ip : list Z) : l3 :=
  {| src_mac := [2; 0; 0; 0; 0; 1]; dst_mac := [2; 0; 0; 0; 0; 2]; vlan_ids := [100; 0];
     vlan_count := 1; ethertype := et; ip_version := ver; src_ip := ip; dst_ip := ip;
     next_header := nh; ttl_or_hop_limit := 64; dscp := 46; ecn := 1; fragmented := 0;
     fragment_offset := 0 |}.

Definition ip4 : list Z := [10; 0; 0; 1; 0; 0; 0; 0; 0; 0; 0; 0; 0; 0; 0; 0].
Definition ip6 : list Z := [0x20; 1; 0xd; 0xb8; 0; 0; 0; 0; 0; 0; 0; 0; 0; 0; 0; 1].

Lemma sample_ok et ver nh ip : 0 <= et < 65536 -> is_byte nh -> length ip = 16%nat ->
  l3_ok (sample et ver nh ip).
Proof.
  intros. split; simpl; try done. split_and!; try done. repeat constructor; done.
Qed.

Definition exts_sample : list ext := [Options 0 [1; 4; 0; 0; 0; 0]; Options 60 (replicate 14 0)].

Lemma exts_sample_ok : Forall ext_ok exts_sample.
Proof.
  repeat constructor; simpl; try (by auto); try done; repeat constructor; done.
Qed.

Lemma udp_roundtrip_witness :
  cf_decap_udp (encode (sample 0x0800 4 17 ip4) [(0x8100, 0xA064)] (V4 2 7 0 [1; 1; 1; 0])
                  (udp_bytes 53 5353 0 3 ++ [1; 2; 3]) [0; 0]) =
  Ret (CF_DECAP_OK,
       {| u_l3 := sample 0x0800 4 17 ip4; u_src_port := 53; u_dst_port := 5353;
          udp_length := 11; udp_checksum_present := 0; u_payload := 50; u_payload_len := 3 |}).
Proof.
  apply (udp_roundtrip (sample 0x0800 4 17 ip4) [(0x8100, 0xA064)] (V4 2 7 0 [1; 1; 1; 0])
           53 5353 0 [1; 2; 3] [0; 0]).
  - split.
    + by apply sample_ok.
    + split; [by repeat constructor|simpl; lia].
    + done.
    + done.
    + split; [|done]. split; [lia|done| |simpl; lia].
      split_and!; [done|simpl; lia|]. by repeat constructor.
  - done.
  - repeat (apply Forall_cons_2; [simpl; lia|]). constructor.
Defined.

Lemma tcp_roundtrip_witness :
  let n := V6 0x12345 exts_sample in
  cf_decap_tcp (encode (sample 0x86DD 6 6 ip6) [(0x88A8, 100)] n
                  (tcp_bytes 53 40000 0xDEADBEEF 0 0x18 0 0 0 [] ++ [9; 9]) [0; 0; 0]) =
  Ret (CF_DECAP_OK,
       {| t_l3 := sample 0x86DD 6 6 ip6; t_src_port := 53; t_dst_port := 40000;
          seq_no := 0xDEADBEEF; tcp_flags := 0x18; t_payload := 102; t_payload_len := 2 |}).
Proof.
  intros n.
  apply (tcp_roundtrip (sample 0x86DD 6 6 ip6) [(0x88A8, 100)] n
           53 40000 0xDEADBEEF 0 0x18 0 0 0 [] [9; 9] [0; 0; 0]); try done.
  split.
  - by apply sample_ok.
  - split; [by repeat constructor|simpl; lia].
  - done.
  - done.
  - split; [|split; [simpl; unfold IPV6_MAX_EXT_HEADERS; lia|done]].
    split; [lia|exact exts_sample_ok|vm_compute; split; [discriminate|reflexivity]].
Defined.

Lemma vlan_depth_limit_witness :
  exists u t, cf_decap_udp (eth_bytes (sample 0x0800 4 17 ip4)
                [(0x8100, 1); (0x88A8, 2); (0x8100, 3)] 0x0800 ++ []) = Ret (CF_DECAP_UNSUPPORTED, u) /\
              cf_decap_tcp (eth_bytes (sample 0x0800 4 17 ip4)
                [(0x8100, 1); (0x88A8, 2); (0x8100, 3)] 0x0800 ++ []) = Ret (CF_DECAP_UNSUPPORTED, t).
Proof.
  apply (vlan_depth_limit (sample 0x0800 4 17 ip4) [(0x8100, 1); (0x88A8, 2); (0x8100, 3)] 0x0800 []).
  - by apply sample_ok.
  - by repeat constructor.
  - simpl. lia.
  - lia.
  - done.
Defined.

(** Eight destination-options headers in front of UDP: one too many. *)
Lemma ipv6_chain_limit_witness :
  exists w', walk_ext IPV6_MAX_EXT_HEADERS
    ([] ++ chain_bytes (replicate 8 (Options 60 (replicate 6 0))) 17 ++ [])
    (zlen (@nil Z)) (chain_first (replicate 8 (Options 60 (replicate 6 0))) 17) walk_zero =
    Ret (CF_DECAP_UNSUPPORTED, w').
Proof.
  apply (ipv6_chain_limit [] (replicate 8 (Options 60 (replicate 6 0))) 17 [] walk_zero).
  - apply Forall_replicate. split; [by auto|]. split; [done|]. split; [simpl; lia|].
    by apply Forall_replicate.
  - done.
  - done.
  - simpl. lia.
Defined.
