(* ===== verification/Endpoint.v ===== *)
(** * Endpoint: addresses of Redis servers as text

    What the Redis producer ([libs/cloudflow-redis/cf_redis_producer.c]) and the
    sink consumer ([libs/cloudflow-sink-core/cf_sink_consumer.c]) use of the C
    library to read an endpoint [host:port]: [strrchr] and [strtol] in base 10. *)

From S2P Require Import Prelude.

(** [strrchr(ep, ':')]: what is before and after the last colon. *)
Fixpoint last_colon (ep : list Z) : option (list Z * list Z) :=
  match ep with
  | [] => None
  | b :: ep =>
      match last_colon ep with
      | Some (h, t) => Some (b :: h, t)
      | None => if b =? 58 then Some ([], ep) else None
      end
  end.

Definition is_space (b : Z) : bool := (b =? 32) || ((9 <=? b) && (b <=? 13)).
Fixpoint skip_spaces (l : list Z) : list Z :=
  match l with
  | b :: l' => if is_space b then skip_spaces l' else l
  | [] => []
  end.

Definition is_digitb (b : Z) : bool := (48 <=? b) && (b <=? 57).
Fixpoint digits (acc : Z) (l : list Z) : Z :=
  match l with
  | b :: l => if is_digitb b then digits (acc * 10 + (b - 48)) l else acc
  | [] => acc
  end.
Fixpoint after_digits (l : list Z) : list Z :=
  match l with
  | b :: l' => if is_digitb b then after_digits l' else l
  | [] => []
  end.

(** [strtol(l, &end, 10)]: the value, saturated, and what is left at [end];
    [None] when there is no number, where the value is 0 and [end] is [l]. *)
Definition strtol (l : list Z) : option (Z * list Z) :=
  let body := skip_spaces l in
  let '(negative, ds) :=
    match body with
    | b :: l' => if b =? 45 then (true, l') else if b =? 43 then (false, l') else (false, body)
    | [] => (false, [])
    end in
  match ds with
  | b :: _ =>
      if is_digitb b then
        Some (if negative then Z.max (- digits 0 ds) (- 2 ^ 63) else Z.min (digits 0 ds) (2 ^ 63 - 1),
              after_digits ds)
      else None
  | [] => None
  end.

(** ** Lemmas *)

Lemma last_colon_app h p : Forall (fun b => b <> 58) p -> last_colon (h ++ 58 :: p) = Some (h, p).
Proof.
  intros Hp. assert (last_colon p = None) as Hn.
  { induction Hp as [|b p Hb _ IH]; [done|]. cbn [last_colon]. rewrite IH. by destruct (b =? 58) eqn:E; [lia|]. }
  induction h as [|b h IH]; cbn [app last_colon]; [by rewrite Hn|by rewrite IH].
Qed.

Definition is_digit (b : Z) : Prop := 48 <= b < 58.

Lemma pretty_char_digit d : (d < 10)%N -> Z.of_N (Ascii.N_of_ascii (pretty_N_char d)) = 48 + Z.of_N d.
Proof.
  intros Hd. assert (d = 0 \/ d = 1 \/ d = 2 \/ d = 3 \/ d = 4 \/ d = 5 \/ d = 6 \/ d = 7 \/ d = 8 \/ d = 9)%N
    as Hcase by lia. by repeat destruct Hcase as [->|Hcase]; [..|rewrite Hcase].
Qed.

(** The digits of [x] before [s] read as [x], then [s]. *)
Lemma digits_pretty x : forall s, digits 0 (bs (pretty_N_go x s)) = digits (Z.of_N x) (bs s) /\
  (Forall is_digit (bs s) -> Forall is_digit (bs (pretty_N_go x s))) /\
  ((0 < x)%N -> bs (pretty_N_go x s) <> []).
Proof.
  induction (N.lt_wf_0 x) as [x _ IH]; intros s.
  destruct (decide (x = 0)%N) as [->|Hx]; [by rewrite pretty_N_go_0|].
  rewrite pretty_N_go_step by lia.
  assert (x mod 10 < 10)%N as Hm by (apply N.mod_lt; lia).
  destruct (IH (x `div` 10)%N) with (s := String (pretty_N_char (x `mod` 10)) s) as (H1 & H2 & H3);
    [apply N.div_lt; lia|].
  pose proof (pretty_char_digit _ Hm) as Hc. split; [|split].
  - rewrite H1. cbn [bs digits]. rewrite Hc. unfold is_digitb.
    replace ((48 <=? _) && _) with true by lia. f_equal.
    rewrite (N.div_mod' x 10) at 3. lia.
  - intros Hs. apply H2. cbn [bs]. constructor; [unfold is_digit; lia|done].
  - intros _. destruct (decide (0 < x `div` 10)%N); [by apply H3|].
    replace (x `div` 10)%N with 0%N by lia. by rewrite pretty_N_go_0.
Qed.

Lemma dec_digits z : 0 < z -> digits 0 (dec z) = z /\ Forall is_digit (dec z) /\ dec z <> [].
Proof.
  intros Hz. destruct z as [|p|p]; try lia. unfold dec.
  change (pretty (Zpos p)) with (pretty_N_go (Npos p) "").
  destruct (digits_pretty (Npos p) "") as (H1 & H2 & H3). rewrite H1. split; [done|].
  split; [by apply H2|by apply H3].
Qed.

Lemma after_all_digits l : Forall is_digit l -> after_digits l = [].
Proof.
  induction 1 as [|b l Hb _ IH]; [done|]. cbn [after_digits]. unfold is_digit in Hb.
  replace (is_digitb b) with true by (unfold is_digitb; lia). exact IH.
Qed.

(** A printed number is read back, to its end. *)
Lemma strtol_dec z : 0 < z < 2 ^ 63 -> strtol (dec z) = Some (z, []).
Proof.
  intros Hz. destruct (dec_digits z) as (H1 & H2 & H3); [lia|]. unfold strtol.
  pose proof (after_all_digits _ H2) as Ha.
  destruct (dec z) as [|b l]; [done|]. inversion H2 as [|? ? Hb _]; subst. unfold is_digit in Hb.
  cbn [skip_spaces]. replace (is_space b) with false by (unfold is_space; lia).
  replace (b =? 45) with false by lia. replace (b =? 43) with false by lia.
  replace (is_digitb b) with true by (unfold is_digitb; lia). rewrite Ha. do 2 f_equal. lia.
Qed.

Lemma dec_no_colon z : 0 < z -> Forall (fun b => b <> 58) (dec z).
Proof.
  intros Hz. destruct (dec_digits z Hz) as (_ & H2 & _).
  eapply list.Forall_impl; [exact H2|]. unfold is_digit. intros. lia.
Qed.
