(* ===== verification/Hiredis.v ===== *)
(** * Hiredis: what the Redis clients use of hiredis

    The replies its functions return; the functions themselves are calls to the
    world of each client. *)

From S2P Require Import Prelude.

(** The reply kinds of the protocol version the clients speak, with the bytes
    of [str] up to [len]; an element may be [NULL]. *)
Inductive redisReply :=
| REPLY_STRING (str : list Z)
| REPLY_ARRAY (element : list (option redisReply))
| REPLY_INTEGER (integer : Z)
| REPLY_NIL
| REPLY_STATUS (str : list Z)
| REPLY_ERROR (str : list Z).

(** The [str] field: set for strings, statuses and errors. *)
Definition reply_str (r : redisReply) : option (list Z) :=
  match r with
  | REPLY_STRING s | REPLY_STATUS s | REPLY_ERROR s => Some s
  | _ => None
  end.
