(* ===== verification/Observation.v ===== *)
(** * Observation: what both sources share

    Queue items and their memory images, the observation trees of a packet's
    link, network and transport layers, the envelope of an event
    ([libs/cloudflow-core/cloudflow.h], and the builders that
    [sources/cloudflow-source-dns/src/dns_stage.c] and
    [sources/cloudflow-source-dhcp/src/formatter.c] repeat).  A tree built by
    hand is freed as a whole when one of its allocations fails, so a builder is
    a function to [option]; each allocation has a name ([site]) and [al] says
    whether it succeeds.  The generated [__init] functions zero the fields a
    builder does not set; such fields are not listed. *)

From S2P Require Import Prelude IpFmt Core Sha256 EventId Decap.

(** ** Packet items *)

Definition CLOUDFLOW_PACKET_MAX_SIZE : Z := 2048.

Record cf_packet_item_t := {
  pk_observed_time_unix_nano : Z; pk_packet_len : Z; pk_captured_len : Z; pk_flags : Z;
  pk_data : list Z
}.

(** The frame the parser is given: [(pkt->data, pkt->captured_len)]. *)
Definition packet_frame (pkt : cf_packet_item_t) : exec (list Z) :=
  rd_n (pk_data pkt) 0 (pk_captured_len pkt).

Inductive site :=
| A_raw_dns_payload | A_pobs | A_link | A_src_mac | A_dst_mac | A_vlan_ids
| A_network | A_src_ip | A_dst_ip | A_transport | A_tcp | A_udp | A_frame
| A_txn | A_warnings | A_transaction_key | A_client_ip | A_server_ip | A_service_role
| A_env | A_event_id | A_source_type | A_source_host | A_source_instance
| A_capture_interface | A_observation_method | A_event_type | A_payload_schema
| A_stream_name | A_event.

Definition all_ok (s : site) : bool := true.

(** ** Packet observations *)

Inductive NetworkProtocol := NETWORK_PROTOCOL_UNSPECIFIED | NETWORK_PROTOCOL_IPV4
  | NETWORK_PROTOCOL_IPV6.

Inductive transport_details :=
| DETAILS_TCP (flags payload_len : Z)
| DETAILS_UDP (length checksum_present : Z).

Inductive TransportProtocol := TRANSPORT_PROTOCOL_TCP | TRANSPORT_PROTOCOL_UDP.

Record TransportLayerObservation := {
  to_protocol : TransportProtocol; to_ip_protocol_number : Z;
  to_src_port : Z; to_dst_port : Z; to_details : transport_details
}.

Record NetworkLayerObservation := {
  no_protocol : NetworkProtocol; no_src_ip : list Z; no_dst_ip : list Z; no_next_header : Z;
  no_ttl_or_hop_limit : Z; no_dscp : Z; no_ecn : Z; no_fragmented : Z; no_fragment_offset : Z
}.

Record LinkLayerObservation := {
  lo_src_mac : list Z; lo_dst_mac : list Z; lo_vlan_ids : list Z; lo_ethertype : Z
}.

Record PacketObservation := {
  po_observed_time_unix_nano : Z; po_link : LinkLayerObservation;
  po_network : NetworkLayerObservation; po_transport : TransportLayerObservation;
  po_packet_len : Z; po_captured_len : Z; po_truncated : Z
}.

(** [None] is a failed [strdup]. *)
Definition dup_field (ok : bool) (s : option (list Z)) : option (list Z) :=
  if ok then Some (default [] s) else None.

Section Builders.
Variable inet_ntop : Z -> list Z -> list Z.
Variable al : site -> bool.

Definition network_of (l : l3) : option NetworkLayerObservation :=
  if negb (al A_network) then None
  else
    let protocol :=
      if ip_version l =? 4 then NETWORK_PROTOCOL_IPV4
      else if ip_version l =? 6 then NETWORK_PROTOCOL_IPV6
      else NETWORK_PROTOCOL_UNSPECIFIED in
    match dup_field (al A_src_ip) (Some (cf_format_ip inet_ntop (ip_version l) (src_ip l))),
          dup_field (al A_dst_ip) (Some (cf_format_ip inet_ntop (ip_version l) (dst_ip l))) with
    | Some src, Some dst =>
        Some {| no_protocol := protocol; no_src_ip := src; no_dst_ip := dst;
                no_next_header := next_header l; no_ttl_or_hop_limit := ttl_or_hop_limit l;
                no_dscp := dscp l; no_ecn := ecn l;
                no_fragmented := if fragmented l =? 0 then 0 else 1;
                no_fragment_offset := fragment_offset l |}
    | _, _ => None
    end.

(** The loop that copies the VLAN ids, [None] when there is no room for them. *)
Definition copy_vlans (l : l3) : exec (option (list Z)) :=
  if 0 <? vlan_count l then
    if al A_vlan_ids then
      ids ← mapM (fun i => rd (vlan_ids l) (Z.of_nat i)) (seq 0 (Z.to_nat (vlan_count l)));
      Ret (Some ids)
    else Ret None
  else Ret (Some []).

Definition link_of (l : l3) : exec (option LinkLayerObservation) :=
  if negb (al A_link) then Ret None
  else
    smac ← cf_format_mac (src_mac l);
    dmac ← cf_format_mac (dst_mac l);
    vlans ← copy_vlans l;
    Ret match dup_field (al A_src_mac) (Some smac), dup_field (al A_dst_mac) (Some dmac),
              vlans with
        | Some smac, Some dmac, Some vlans =>
            Some {| lo_src_mac := smac; lo_dst_mac := dmac; lo_vlan_ids := vlans;
                    lo_ethertype := ethertype l |}
        | _, _, _ => None
        end.
End Builders.

Definition CF_PACKET_FLAG_TRUNCATED : Z := 1.

(** The observation of [pkt] when its three layers were built. *)
Definition observation_of (pkt : cf_packet_item_t) (link : option LinkLayerObservation)
    (network : option NetworkLayerObservation) (transport : option TransportLayerObservation)
    : option PacketObservation :=
  match link, network, transport with
  | Some link, Some network, Some transport =>
      Some {| po_observed_time_unix_nano := pk_observed_time_unix_nano pkt;
              po_link := link; po_network := network; po_transport := transport;
              po_packet_len := pk_packet_len pkt; po_captured_len := pk_captured_len pkt;
              po_truncated :=
                if Z.land (pk_flags pkt) CF_PACKET_FLAG_TRUNCATED =? 0 then 0 else 1 |}
  | _, _, _ => None
  end.

(** ** Envelopes *)

(** The strings of the configuration; [None] is NULL. *)
Record provenance := {
  source_host : option (list Z); source_instance : option (list Z);
  capture_interface : option (list Z); observation_method : option (list Z)
}.

Definition VISIBILITY_PACKET_PAYLOAD : Z := 4.
Definition OBSERVATION_CONFIDENCE_OBSERVED : Z := 1.

Record EventEnvelope := {
  ee_event_id : list Z; ee_schema_version : Z; ee_source_type : list Z; ee_source_host : list Z;
  ee_source_instance : list Z; ee_capture_interface : list Z; ee_observation_method : list Z;
  ee_observed_time_unix_nano : Z; ee_ingest_time_unix_nano : Z; ee_event_type : list Z;
  ee_visibility : Z; ee_confidence : Z; ee_payload_schema : list Z; ee_stream_name : list Z
}.

(** [now] is what [cf_now_unix_nano] answers, [uninit] the stale bytes of the
    hash context; the frame was observed at [time]. *)
Definition envelope_of (al : site -> bool) (uninit : sha256_ctx) (now : Z) (p : provenance)
    (source_type payload_schema : list Z) (stream : cf_stream_id_t) (event_type : list Z) (time : Z)
    (frame : list Z) : exec (option EventEnvelope) :=
  if negb (al A_env) then Ret None
  else
    idbuf ← cf_event_id uninit (source_host p) (capture_interface p) time frame;
    Ret match dup_field (al A_event_id) (Some (c_str idbuf)),
              dup_field (al A_source_type) (Some source_type),
              dup_field (al A_source_host) (source_host p),
              dup_field (al A_source_instance) (source_instance p),
              dup_field (al A_capture_interface) (capture_interface p),
              dup_field (al A_observation_method) (observation_method p),
              dup_field (al A_event_type) (Some event_type),
              dup_field (al A_payload_schema) (Some payload_schema),
              dup_field (al A_stream_name) (cf_stream_name stream) with
        | Some event_id, Some source_type, Some host, Some inst, Some iface, Some method,
          Some event_type, Some schema, Some stream =>
            Some {| ee_event_id := event_id; ee_schema_version := 1;
                    ee_source_type := source_type; ee_source_host := host;
                    ee_source_instance := inst; ee_capture_interface := iface;
                    ee_observation_method := method;
                    ee_observed_time_unix_nano := time;
                    ee_ingest_time_unix_nano := now; ee_event_type := event_type;
                    ee_visibility := VISIBILITY_PACKET_PAYLOAD;
                    ee_confidence := OBSERVATION_CONFIDENCE_OBSERVED;
                    ee_payload_schema := schema; ee_stream_name := stream |}
        | _, _, _, _, _, _, _, _, _ => None
        end.

(** ** Event items *)

Definition CLOUDFLOW_EVENT_MAX_SIZE : Z := 8192.
Definition CLOUDFLOW_EVENT_TYPE_MAX : Z := 64.

Record cf_event_item_t := {
  it_observed_time_unix_nano : Z; it_stream_id : cf_stream_id_t; it_protocol : cf_protocol_t;
  it_event_type : list Z; it_payload_len : Z; it_payload : list Z
}.

(** The values of the two enumerations. *)
Definition stream_value (s : cf_stream_id_t) : Z :=
  match s with
  | CF_STREAM_NONE => 0 | CF_STREAM_DHCPV4 => 1 | CF_STREAM_DHCPV6 => 2 | CF_STREAM_DNS => 3
  | CF_STREAM_SYSLOG => 4
  end.
Definition protocol_value (p : cf_protocol_t) : Z :=
  match p with
  | CF_PROTO_UNKNOWN => 0 | CF_PROTO_DHCPV4 => 1 | CF_PROTO_DHCPV6 => 2 | CF_PROTO_DNS => 3
  | CF_PROTO_SYSLOG => 4
  end.

Definition le_bytes (n : nat) (z : Z) : list Z := rev (be_bytes n z).

(** The memory image of an item on a 64-bit little-endian machine: the fields
    at their offsets 0, 8, 12, 16, 80 and 84, and four bytes of padding. *)
Definition SIZEOF_EVENT_ITEM : Z := 8280.
Definition item_bytes (i : cf_event_item_t) : list Z :=
  le_bytes 8 (it_observed_time_unix_nano i) ++ le_bytes 4 (stream_value (it_stream_id i)) ++
  le_bytes 4 (protocol_value (it_protocol i)) ++ it_event_type i ++
  le_bytes 4 (it_payload_len i) ++ it_payload i ++ [0; 0; 0; 0].

(** The item read back from its image; a stream or protocol out of range has no
    name, like the first of its enumeration. *)
Definition stream_of_value (v : Z) : cf_stream_id_t :=
  if v =? 1 then CF_STREAM_DHCPV4 else if v =? 2 then CF_STREAM_DHCPV6
  else if v =? 3 then CF_STREAM_DNS else if v =? 4 then CF_STREAM_SYSLOG else CF_STREAM_NONE.
Definition protocol_of_value (v : Z) : cf_protocol_t :=
  if v =? 1 then CF_PROTO_DHCPV4 else if v =? 2 then CF_PROTO_DHCPV6
  else if v =? 3 then CF_PROTO_DNS else if v =? 4 then CF_PROTO_SYSLOG else CF_PROTO_UNKNOWN.

(** The value of little-endian bytes, and its reading as an [int64_t]. *)
Definition le_value (l : list Z) : Z := be_value 0 (rev l).
Definition s64 (z : Z) : Z := if z <? 2 ^ 63 then z else z - 2 ^ 64.

Definition item_of_image (b : list Z) : cf_event_item_t :=
  {| it_observed_time_unix_nano := s64 (le_value (slice b 0 8));
     it_stream_id := stream_of_value (le_value (slice b 8 4));
     it_protocol := protocol_of_value (le_value (slice b 12 4));
     it_event_type := slice b 16 CLOUDFLOW_EVENT_TYPE_MAX; it_payload_len := le_value (slice b 80 4);
     it_payload := slice b 84 CLOUDFLOW_EVENT_MAX_SIZE |}.

(** The item after [memset]. *)
Definition zero_item : cf_event_item_t :=
  {| it_observed_time_unix_nano := 0; it_stream_id := CF_STREAM_NONE; it_protocol := CF_PROTO_UNKNOWN;
     it_event_type := replicate (Z.to_nat CLOUDFLOW_EVENT_TYPE_MAX) 0; it_payload_len := 0;
     it_payload := replicate (Z.to_nat CLOUDFLOW_EVENT_MAX_SIZE) 0 |}.

(** The copy of the event type into its field, and the NUL after it. *)
Definition event_type_field (field event_type : list Z) : exec (list Z) :=
  let n := if CLOUDFLOW_EVENT_TYPE_MAX <=? zlen event_type
           then CLOUDFLOW_EVENT_TYPE_MAX - 1 else zlen event_type in
  src ← rd_n event_type 0 n;
  wr_n field 0 (src ++ [0]).

(** While an event is built and pushed: the allocations that succeed, the
    clock, the stop requests and the consumer's pops while the push sleeps, and
    the stale bytes of the hash context. *)
Record emit_env := {
  en_alloc : site -> bool; en_now : Z; en_stop : nat -> bool; en_consumer : nat -> nat;
  en_uninit : sha256_ctx
}.

(** ** Images of packets *)

(** The memory image of a packet item: fields at 0, 8, 12, 16 and 20, and four
    bytes of padding. *)
Definition SIZEOF_PACKET_ITEM : Z := 2072.

Definition packet_image (p : cf_packet_item_t) : list Z :=
  le_bytes 8 (pk_observed_time_unix_nano p) ++ le_bytes 4 (pk_packet_len p) ++
  le_bytes 4 (pk_captured_len p) ++ le_bytes 4 (pk_flags p) ++ pk_data p ++ [0; 0; 0; 0].

Definition packet_of_image (b : list Z) : cf_packet_item_t :=
  {| pk_observed_time_unix_nano := s64 (le_value (slice b 0 8));
     pk_packet_len := le_value (slice b 8 4); pk_captured_len := le_value (slice b 12 4);
     pk_flags := le_value (slice b 16 4); pk_data := slice b 20 CLOUDFLOW_PACKET_MAX_SIZE |}.

(** ** Lemmas *)

Record packet_ok (pkt : cf_packet_item_t) : Prop := {
  pk_bytes : bytes_ok (pk_data pkt);
  pk_fits : 0 <= pk_captured_len pkt <= zlen (pk_data pkt) /\
            zlen (pk_data pkt) = CLOUDFLOW_PACKET_MAX_SIZE;
  pk_time : 0 <= pk_observed_time_unix_nano pkt < 2 ^ 63
}.

(** The captured bytes. *)
Definition frame_of (pkt : cf_packet_item_t) : list Z := slice (pk_data pkt) 0 (pk_captured_len pkt).

Lemma packet_frame_of pkt : packet_ok pkt ->
  packet_frame pkt = Ret (frame_of pkt) /\ bytes_ok (frame_of pkt) /\
  zlen (frame_of pkt) = pk_captured_len pkt.
Proof.
  intros [Hb [Hc _] _]. unfold packet_frame, frame_of. rewrite rd_n_ok by lia.
  split; [done|]. split; [by apply slice_bytes_ok|]. rewrite length_slice; lia.
Qed.

Lemma le_bytes_length n z : length (le_bytes n z) = n.
Proof. unfold le_bytes. by rewrite length_rev, be_bytes_length. Qed.

Lemma le_value_bytes n z : 0 <= z < 256 ^ Z.of_nat n -> le_value (le_bytes n z) = z.
Proof.
  intros Hz. unfold le_value, le_bytes. rewrite rev_involutive, be_value_be_bytes.
  rewrite Z.mod_small by done. lia.
Qed.

Lemma slice_head {A} (a b : list A) n : n = zlen a -> slice (a ++ b) 0 n = a.
Proof. intros ->. rewrite slice_app_l by lia. by apply slice_all. Qed.

(** The fields of a packet fit their types. *)
Definition fields_ok (p : cf_packet_item_t) : Prop :=
  0 <= pk_packet_len p < 2 ^ 32 /\ 0 <= pk_flags p < 2 ^ 32.

Ltac at_field :=
  repeat (rewrite slice_app_r by (rewrite le_bytes_length; lia)); rewrite !le_bytes_length;
  apply slice_head; rewrite ?le_bytes_length; lia.

(** An item read back from the queue is the packet that was put there. *)
Lemma image_roundtrip p : packet_ok p -> fields_ok p ->
  packet_of_image (packet_image p) = p /\ zlen (packet_image p) = SIZEOF_PACKET_ITEM.
Proof.
  intros [Hb [Hc Hd] [Ht1 Ht2]] [Hl Hf]. unfold CLOUDFLOW_PACKET_MAX_SIZE in *. split.
  2: { unfold packet_image. rewrite !length_app, !le_bytes_length, !Nat2Z.inj_add, Hd. done. }
  destruct p as [t l c f d]. cbn [pk_observed_time_unix_nano pk_packet_len pk_captured_len pk_flags
    pk_data] in *. unfold packet_of_image, packet_image, CLOUDFLOW_PACKET_MAX_SIZE.
  cbn [pk_observed_time_unix_nano pk_packet_len pk_captured_len pk_flags pk_data].
  set (img := _ ++ _).
  assert (slice img 0 8 = le_bytes 8 t) as -> by (unfold img; apply slice_head; by rewrite le_bytes_length).
  assert (slice img 8 4 = le_bytes 4 l) as -> by (unfold img; at_field).
  assert (slice img 12 4 = le_bytes 4 c) as -> by (unfold img; at_field).
  assert (slice img 16 4 = le_bytes 4 f) as -> by (unfold img; at_field).
  assert (slice img 20 2048 = d) as -> by (unfold img; at_field).
  rewrite !le_value_bytes by (change (256 ^ Z.of_nat 8) with (2 ^ 64); change (256 ^ Z.of_nat 4) with (2 ^ 32); lia).
  unfold s64. by replace (t <? 2 ^ 63) with true by lia.
Qed.

(** The same for event items. *)
Record event_item_ok (i : cf_event_item_t) : Prop := {
  ei_type : zlen (it_event_type i) = CLOUDFLOW_EVENT_TYPE_MAX;
  ei_payload : zlen (it_payload i) = CLOUDFLOW_EVENT_MAX_SIZE;
  ei_len : 0 <= it_payload_len i <= CLOUDFLOW_EVENT_MAX_SIZE;
  ei_time : 0 <= it_observed_time_unix_nano i < 2 ^ 63
}.

Lemma item_roundtrip i : event_item_ok i ->
  item_of_image (item_bytes i) = i /\ zlen (item_bytes i) = SIZEOF_EVENT_ITEM.
Proof.
  unfold CLOUDFLOW_EVENT_TYPE_MAX, CLOUDFLOW_EVENT_MAX_SIZE.
  intros [Ht Hp Hl Hti]. unfold CLOUDFLOW_EVENT_TYPE_MAX, CLOUDFLOW_EVENT_MAX_SIZE in *. split.
  2: { unfold item_bytes. rewrite !length_app, !le_bytes_length, !Nat2Z.inj_add, Ht, Hp. done. }
  destruct i as [t s p et l pl]. cbn [it_observed_time_unix_nano it_stream_id it_protocol it_event_type
    it_payload_len it_payload] in *.
  unfold item_of_image, item_bytes, CLOUDFLOW_EVENT_TYPE_MAX, CLOUDFLOW_EVENT_MAX_SIZE.
  cbn [it_observed_time_unix_nano it_stream_id it_protocol it_event_type it_payload_len it_payload].
  set (img := _ ++ _).
  assert (slice img 0 8 = le_bytes 8 t) as -> by (unfold img; apply slice_head; by rewrite le_bytes_length).
  assert (slice img 8 4 = le_bytes 4 (stream_value s)) as -> by (unfold img; at_field).
  assert (slice img 12 4 = le_bytes 4 (protocol_value p)) as -> by (unfold img; at_field).
  assert (slice img 16 64 = et) as -> by (unfold img; at_field).
  assert (slice img 80 4 = le_bytes 4 l) as ->.
  { unfold img. do 3 (rewrite slice_app_r by (rewrite ?le_bytes_length; lia)).
    rewrite slice_app_r by (rewrite ?le_bytes_length; lia). rewrite ?le_bytes_length.
    replace (80 - _ - _ - _ - _) with 0 by lia. apply slice_head. rewrite le_bytes_length. lia. }
  assert (slice img 84 8192 = pl) as ->.
  { unfold img. do 3 (rewrite slice_app_r by (rewrite ?le_bytes_length; lia)).
    rewrite slice_app_r by (rewrite ?le_bytes_length; lia).
    rewrite slice_app_r by (rewrite ?le_bytes_length; lia). rewrite ?le_bytes_length.
    replace (84 - _ - _ - _ - _ - _) with 0 by lia. apply slice_head. lia. }
  clear img. rewrite !le_value_bytes by (change (256 ^ Z.of_nat 8) with (2 ^ 64); change (256 ^ Z.of_nat 4) with (2 ^ 32);
    first [lia|by destruct s|by destruct p]).
  unfold s64. replace (t <? 2 ^ 63) with true by lia. by destruct s, p.
Qed.

(** ** What the builders build *)

(** A builder's result satisfies [P], or one of its allocations failed. *)
Definition built {A} (al : site -> bool) (P : A -> Prop) (o : option A) : Prop :=
  match o with Some x => P x | None => exists a, al a = false end.

Lemma built_some {A} al (P : A -> Prop) o : (forall a, al a = true) -> built al P o ->
  exists x, o = Some x /\ P x.
Proof.
  intros Ha Hb. destruct o as [x|]; [by exists x|]. destruct Hb as [a Hf]. by rewrite Ha in Hf.
Qed.

Ltac failed_alloc := lazymatch goal with E : ?al ?a = false |- exists a, ?al a = false => by exists a end.

(** Decide the allocation of [s] in a builder. *)
Ltac alloc s :=
  lazymatch goal with
  | |- context [?al s] =>
      let E := fresh in destruct (al s) eqn:E; cbn [negb dup_field]; [clear E|cbn; try failed_alloc]
  end.

Definition link_view (l : l3) : LinkLayerObservation :=
  {| lo_src_mac := mac_text (src_mac l); lo_dst_mac := mac_text (dst_mac l);
     lo_vlan_ids := take (Z.to_nat (vlan_count l)) (vlan_ids l); lo_ethertype := ethertype l |}.

Definition network_view (inet_ntop : Z -> list Z -> list Z) (l : l3) : NetworkLayerObservation :=
  {| no_protocol := if ip_version l =? 4 then NETWORK_PROTOCOL_IPV4
       else if ip_version l =? 6 then NETWORK_PROTOCOL_IPV6 else NETWORK_PROTOCOL_UNSPECIFIED;
     no_src_ip := cf_format_ip inet_ntop (ip_version l) (src_ip l);
     no_dst_ip := cf_format_ip inet_ntop (ip_version l) (dst_ip l);
     no_next_header := next_header l; no_ttl_or_hop_limit := ttl_or_hop_limit l;
     no_dscp := dscp l; no_ecn := ecn l; no_fragmented := fragmented l;
     no_fragment_offset := fragment_offset l |}.

Lemma vlans_built al l : l3_ok l -> runs (copy_vlans al l)
  (built al (fun v => v = take (Z.to_nat (vlan_count l)) (vlan_ids l))).
Proof.
  intros Hl. destruct (ok_vlans _ Hl) as (H2 & _ & Hc). unfold copy_vlans.
  destruct (vlan_ids l) as [|a [|b [|]]]; try done.
  assert (vlan_count l = 0 \/ vlan_count l = 1 \/ vlan_count l = 2) as [->|[->| ->]] by lia;
    [done|alloc A_vlan_ids; done..].
Qed.

Lemma link_built al l : l3_ok l -> runs (link_of al l) (built al (fun v => v = link_view l)).
Proof.
  intros Hl. destruct (ok_macs _ Hl) as [Hs Hd]. unfold link_of. alloc A_link.
  rewrite !cf_format_mac_of by done. xbind. apply runs_bind.
  eapply runs_mono; [by apply vlans_built|]. intros vl Hvl. apply runs_ret.
  alloc A_src_mac. alloc A_dst_mac. by destruct vl; cbn [built default] in *; [subst|].
Qed.

Lemma network_built ntop al l : l3_ok l ->
  built al (fun v => v = network_view ntop l) (network_of ntop al l).
Proof.
  intros Hl. destruct (ok_frag _ Hl) as [Hf _]. unfold network_of.
  alloc A_network. alloc A_src_ip. alloc A_dst_ip. unfold built, network_view. f_equal.
  assert (fragmented l = 0 \/ fragmented l = 1) as [->| ->] by lia; done.
Qed.

Definition truncated_flag (pkt : cf_packet_item_t) : Z :=
  if Z.testbit (pk_flags pkt) 0 then 1 else 0.

Lemma truncated_of pkt :
  (if Z.land (pk_flags pkt) CF_PACKET_FLAG_TRUNCATED =? 0 then 0 else 1) = truncated_flag pkt.
Proof.
  unfold CF_PACKET_FLAG_TRUNCATED, truncated_flag. rewrite (Z.land_ones _ 1) by lia.
  rewrite <- Z.bit0_mod. by destruct (Z.testbit _ _).
Qed.

Lemma event_type_runs field et : length field = 64%nat ->
  runs (event_type_field field et) (fun f => length f = 64%nat).
Proof.
  intros Hf. unfold event_type_field, CLOUDFLOW_EVENT_TYPE_MAX. set (n := if _ : bool then _ else _).
  assert (0 <= n <= 63 /\ n <= zlen et) as [? ?] by (unfold n; destruct (_ <=? _) eqn:E; lia).
  clearbody n.
  rewrite rd_n_ok by lia. xbind.
  assert (length (slice et 0 n ++ [0]) = S (Z.to_nat n)) as Hl
    by (rewrite length_app, length_slice by lia; simpl; lia).
  rewrite wr_n_ok by lia. cbn [runs]. rewrite length_splice; lia.
Qed.

(** An event type of a C string that fits is stored whole. *)
Lemma event_type_fits field et : length field = 64%nat -> Forall (fun b => b <> 0) et ->
  zlen et < CLOUDFLOW_EVENT_TYPE_MAX ->
  exists f, event_type_field field et = Ret f /\ c_str f = et /\ length f = 64%nat.
Proof.
  unfold CLOUDFLOW_EVENT_TYPE_MAX. intros Hf Hnz Hl. unfold event_type_field, CLOUDFLOW_EVENT_TYPE_MAX.
  replace (64 <=? zlen et) with false by lia. rewrite rd_n_ok by lia. xbind.
  rewrite slice_all by done. rewrite wr_n_ok by (rewrite ?length_app; simpl; lia).
  eexists. split; [reflexivity|]. split; [|rewrite length_splice; rewrite ?length_app; simpl; lia].
  unfold splice. rewrite take_0, app_nil_l, <- app_assoc. generalize (drop (Z.to_nat 0 + length (et ++ [0])) field).
  intros rest. change ([0] ++ rest) with (0 :: rest). clear Hl. induction Hnz as [|b et Hb _ IH]; cbn [app c_str]; [done|].
  replace (b =? 0) with false by lia. by rewrite IH.
Qed.

(** The queue item that carries the packed event [bytes]. *)
Record item_holds (bytes : list Z) (stream : cf_stream_id_t) (time : Z) (et : list Z)
    (item : cf_event_item_t) : Prop := {
  if_payload : slice (it_payload item) 0 (it_payload_len item) = bytes;
  if_time : it_observed_time_unix_nano item = time;
  if_stream : it_stream_id item = stream;
  if_type : c_str (it_event_type item) = et
}.

Lemma item_length i : length (it_event_type i) = 64%nat -> zlen (it_payload i) = 8192 ->
  zlen (item_bytes i) = SIZEOF_EVENT_ITEM.
Proof.
  intros He Hp. unfold item_bytes, le_bytes. rewrite !length_app, !length_rev, !be_bytes_length, He, !Nat2Z.inj_add, Hp.
  done.
Qed.

Definition provenance_ok (p : provenance) : Prop :=
  bytes_ok (default [] (source_host p)) /\ bytes_ok (default [] (capture_interface p)).

(** The envelope of an event made at [now]. *)
Definition envelope_view (p : provenance) (now : Z) (source_type schema : list Z)
    (sid : cf_stream_id_t) (et : list Z) (time : Z) (frame : list Z) : EventEnvelope :=
  {| ee_event_id := c_str (event_id_of (default [] (source_host p))
       (default [] (capture_interface p)) time frame ++ [0]);
     ee_schema_version := 1; ee_source_type := source_type;
     ee_source_host := default [] (source_host p);
     ee_source_instance := default [] (source_instance p);
     ee_capture_interface := default [] (capture_interface p);
     ee_observation_method := default [] (observation_method p);
     ee_observed_time_unix_nano := time; ee_ingest_time_unix_nano := now; ee_event_type := et;
     ee_visibility := VISIBILITY_PACKET_PAYLOAD; ee_confidence := OBSERVATION_CONFIDENCE_OBSERVED;
     ee_payload_schema := schema; ee_stream_name := default [] (cf_stream_name sid) |}.

Lemma envelope_built al uninit now p st sc sid et time frame : uninit_ok uninit ->
  provenance_ok p -> bytes_ok frame ->
  runs (envelope_of al uninit now p st sc sid et time frame)
    (built al (fun env => env = envelope_view p now st sc sid et time frame)).
Proof.
  intros Hu [Hh Hi] Hf. unfold envelope_of. alloc A_env.
  rewrite cf_event_id_of by done. cbn [mbind exec_bind runs].
  alloc A_event_id. alloc A_source_type. alloc A_source_host. alloc A_source_instance.
  alloc A_capture_interface. alloc A_observation_method. alloc A_event_type. alloc A_payload_schema.
  alloc A_stream_name. reflexivity.
Qed.

(** A captured frame, whole. *)
Definition packet_of (frame : list Z) (time : Z) : cf_packet_item_t :=
  {| pk_observed_time_unix_nano := time; pk_packet_len := zlen frame; pk_captured_len := zlen frame;
     pk_flags := 0; pk_data := frame ++ replicate (Z.to_nat (2048 - zlen frame)) 0 |}.

Lemma packet_of_ok frame time : bytes_ok frame -> zlen frame <= 2048 -> 0 <= time < 2 ^ 63 ->
  packet_ok (packet_of frame time).
Proof.
  intros Hb Hl Ht. split; cbn [packet_of pk_data pk_captured_len pk_observed_time_unix_nano].
  - apply Forall_app. split; [done|]. apply Forall_replicate. done.
  - rewrite length_app, length_replicate. unfold CLOUDFLOW_PACKET_MAX_SIZE. lia.
  - done.
Qed.

Lemma frame_of_packet frame time : zlen frame <= 2048 -> frame_of (packet_of frame time) = frame.
Proof.
  intros Hl. unfold frame_of, packet_of. cbn [pk_data pk_captured_len]. by apply slice_head.
Qed.
