(* ===== verification/Dhcp4Util.v ===== *)
(** * Dhcp4Util: helpers of the DHCPv4 parser
    ([libs/cloudflow-packet/cf_dhcpv4_util.c], [cf_dhcpv4_optnames.c])

    The readers, the string and byte builders and the warning list of the C
    file are the text of [cf_parse_util.c] under another prefix, so they are
    the definitions of [ParseUtil] under another name.  The file's own part is
    the map from an option code to the concatenation of its fragments
    (RFC 3396), an array searched from the front. *)

From S2P Require Import Prelude IpFmt ParseUtil.

Definition cf_dhcpv4__get_u8 : list Z -> Z -> exec (option Z) := cf_get_u8.
Definition cf_dhcpv4__get_be16 : list Z -> Z -> exec (option Z) := cf_get_be16.
Definition cf_dhcpv4__get_be32 : list Z -> Z -> exec (option Z) := cf_get_be32.

(** The builders, with memory available. *)
Definition cf_dhcpv4__dup_str (s : list Z) : list Z := cf_dup_str true (Some s).
Definition cf_dhcpv4__dup_strn (b : list Z) : list Z := cf_dup_strn true (Some b).
Definition cf_dhcpv4__is_printable : list Z -> bool := cf_is_printable.
Definition cf_dhcpv4__hex_encode (b : list Z) : list Z := cf_hex_encode true (Some b).
Definition cf_dhcpv4__set_bytes (b : list Z) : option (list Z) := cf_set_bytes true (Some b).

Definition cf_dhcpv4__format_ipv4 (inet_ntop : Z -> list Z -> list Z) (ip : list Z)
    : exec (list Z) :=
  ip4 ← rd_n ip 0 4;
  ip16 ← wr_n (replicate 16 0) 0 ip4;
  Ret (cf_dhcpv4__dup_str (cf_format_ip inet_ntop 4 ip16)).

(** A warning with memory available; an empty context is NULL. *)
Definition cf_dhcpv4__warn (l : cf_warn_list_t) (code message : string) (field_path ctx : list Z)
    : cf_warn_list_t :=
  warn l code message field_path (Some ctx).

(** [s[0] != 0]. *)
Definition str_set (s : list Z) : bool :=
  match s with
  | [] => false
  | b :: _ => negb (b =? 0)
  end.

(** ** The concatenation map

    [data] is NULL when [len] is 0; [cm_cap] is the allocated size of the
    array, of which [cm_items] are the first [count] entries. *)

Record cf_dhcpv4_concat_t := {
  cc_code : Z;
  cc_data : list Z
}.

Record cf_dhcpv4_concat_map_t := {
  cm_items : list cf_dhcpv4_concat_t;
  cm_cap : Z
}.

Definition cf_dhcpv4__concat_map_init : cf_dhcpv4_concat_map_t :=
  {| cm_items := []; cm_cap := 0 |}.

(** The index of the entry; [None] is a failed [realloc]. *)
Definition concat_map_find_or_add (realloc_ok : bool) (map : cf_dhcpv4_concat_map_t) (code : Z)
    : option nat * cf_dhcpv4_concat_map_t :=
  match list_find (fun e => cc_code e = code) (cm_items map) with
  | Some (i, _) => (Some i, map)
  | None =>
      let count := length (cm_items map) in
      let add cap := (Some count, {| cm_items := cm_items map ++ [{| cc_code := code; cc_data := [] |}];
                                     cm_cap := cap |}) in
      if Z.of_nat count =? cm_cap map then
        let new_cap := if cm_cap map =? 0 then 8 else u64 (cm_cap map * 2) in
        if realloc_ok then add new_cap else (None, map)
      else add (cm_cap map)
  end.

Definition cf_dhcpv4__concat_map_append (realloc_ok grow_ok : bool) (map : cf_dhcpv4_concat_map_t)
    (code : Z) (data : list Z) : cf_dhcpv4_concat_map_t :=
  match concat_map_find_or_add realloc_ok map code with
  | (None, map) => map
  | (Some i, map) =>
      if zlen data =? 0 then map
      else if negb grow_ok then map
      else
        {| cm_items := alter (fun e => {| cc_code := cc_code e; cc_data := cc_data e ++ data |})
                         i (cm_items map);
           cm_cap := cm_cap map |}
  end.

(** The data and its length; an absent code and an empty option both give
    NULL and 0. *)
Definition cf_dhcpv4__concat_map_get (map : cf_dhcpv4_concat_map_t) (code : Z) : list Z :=
  match list_find (fun e => cc_code e = code) (cm_items map) with
  | Some (_, e) => cc_data e
  | None => []
  end.

Definition cf_dhcpv4__concat_map_has (map : cf_dhcpv4_concat_map_t) (code : Z) : bool :=
  match list_find (fun e => cc_code e = code) (cm_items map) with
  | Some _ => true
  | None => false
  end.

(** ** Option names *)

Definition dhcpv4_option_names : list (Z * string) :=
  [(0, "Pad"); (1, "Subnet Mask"); (2, "Time Offset"); (3, "Router"); (4, "Time Server");
   (5, "Name Server"); (6, "Domain Server"); (7, "Log Server"); (8, "Quotes Server");
   (9, "LPR Server"); (10, "Impress Server"); (11, "RLP Server"); (12, "Hostname");
   (13, "Boot File Size"); (14, "Merit Dump File"); (15, "Domain Name");
   (16, "Swap Server"); (17, "Root Path"); (18, "Extension File"); (19, "Forward On/Off");
   (20, "SrcRte On/Off"); (21, "Policy Filter"); (22, "Max DG Assembly");
   (23, "Default IP TTL"); (24, "MTU Timeout"); (25, "MTU Plateau"); (26, "MTU Interface");
   (27, "MTU Subnet"); (28, "Broadcast Address"); (29, "Mask Discovery");
   (30, "Mask Supplier"); (31, "Router Discovery"); (32, "Router Request");
   (33, "Static Route"); (34, "Trailers"); (35, "ARP Timeout"); (36, "Ethernet");
   (37, "Default TCP TTL"); (38, "Keepalive Time"); (39, "Keepalive Data");
   (40, "NIS Domain"); (41, "NIS Servers"); (42, "NTP Servers");
   (43, "Vendor Specific Information"); (44, "NETBIOS Name Srv"); (45, "NETBIOS Dist Srv");
   (46, "NETBIOS Node Type"); (47, "NETBIOS Scope"); (48, "X Window Font");
   (49, "X Window Manager"); (50, "Requested IP Address"); (51, "IP Address Lease Time");
   (52, "Overload"); (53, "DHCP Message Type"); (54, "DHCP Server Identifier");
   (55, "Parameter Request List"); (56, "Message"); (57, "DHCP Max Message Size");
   (58, "Renewal Time Value"); (59, "Rebinding Time Value"); (60, "Class Identifier");
   (61, "Client Identifier"); (64, "NIS+ Domain"); (65, "NIS+ Server");
   (66, "TFTP Server Name"); (67, "Bootfile Name"); (68, "Mobile IP Home Agent");
   (69, "SMTP Server"); (70, "POP3 Server"); (71, "NNTP Server"); (72, "WWW Server");
   (73, "Finger Server"); (74, "IRC Server"); (75, "StreetTalk Server");
   (76, "STDA Server"); (77, "User Class"); (78, "Directory Agent"); (79, "Service Scope");
   (80, "Rapid Commit"); (81, "FQDN, Fully Qualified Domain Name");
   (82, "Relay Agent Information"); (83, "iSNS"); (85, "NDS Servers");
   (86, "NDS Tree Name"); (87, "NDS Context"); (88, "BCMCS Controller Domain Name list");
   (89, "BCMCS Controller IPv4 address list"); (90, "Authentication");
   (91, "client-last-transaction-time"); (92, "associated-ip");
   (93, "Client System Architecture Type"); (94, "Client Network Interface Identifier");
   (95, "LDAP"); (97, "UUID/GUID-based Client Identifier"); (98, "User-Auth");
   (99, "GEOCONF_CIVIC"); (100, "PCode"); (101, "TCode"); (112, "Netinfo Address");
   (113, "Netinfo Tag"); (114, "URL"); (116, "Auto Config"); (117, "Name Service Search");
   (118, "Subnet Selection Option"); (119, "Domain Search");
   (120, "SIP Servers DHCP Option"); (121, "Classless Static Route");
   (122, "CCC, CableLabs Client Configuration"); (123, "GeoConf");
   (124, "V-I Vendor Class"); (125, "V-I Vendor-Specific Information");
   (136, "PANA Agent"); (137, "V4 Lost"); (138, "CAPWAP Access Controller addresses");
   (141, "SIP UA Configuration Service Domains"); (145, "Forcerenew Nonce Capable");
   (146, "RDNSS Selection"); (150, "TFTP Server Address"); (159, "V4 Portparams");
   (175, "Etherboot (Tentatively Assigned)"); (208, "PXELINUX Magic (deprecated)");
   (209, "Configuration File"); (210, "Path Prefix"); (211, "Reboot Time");
   (212, "OPTION_6RD"); (213, "OPTION_V4_ACCESS_DOMAIN");
   (220, "Subnet Allocation Option"); (221, "Virtual Subnet Selection");
   (249, "Microsoft Classless Static Route"); (252, "Proxy autodiscovery (WPAD)");
   (255, "End")]%string.

(** The switch, one case a pair. *)
Definition cf_dhcpv4_option_name (code : Z) : list Z :=
  match list_find (fun p => p.1 = code) dhcpv4_option_names with
  | Some (_, (_, name)) => bs name
  | None => []
  end.

(** ** The map as a function of its history *)

(** The data appended under a code, in order, and whether there was any. *)
Definition fragments (code : Z) (h : list (Z * list Z)) : list (list Z) :=
  map snd (filter (fun p => p.1 = code) h).

Definition append_all (map : cf_dhcpv4_concat_map_t) (h : list (Z * list Z)) : cf_dhcpv4_concat_map_t :=
  foldl (fun m p => cf_dhcpv4__concat_map_append true true m p.1 p.2) map h.

Definition cm_find (l : list cf_dhcpv4_concat_t) (code : Z) : option (list Z) :=
  (fun p => cc_data p.2) <$> list_find (fun e => cc_code e = code) l.

Lemma cm_get_find m c : cf_dhcpv4__concat_map_get m c = default [] (cm_find (cm_items m) c).
Proof. unfold cf_dhcpv4__concat_map_get, cm_find. by destruct (list_find _ _) as [[]|]. Qed.

Lemma cm_has_find m c : cf_dhcpv4__concat_map_has m c = bool_decide (is_Some (cm_find (cm_items m) c)).
Proof.
  unfold cf_dhcpv4__concat_map_has, cm_find. by destruct (list_find _ _) as [[]|].
Qed.

Lemma cm_find_cons e l c :
  cm_find (e :: l) c = if decide (cc_code e = c) then Some (cc_data e) else cm_find l c.
Proof. unfold cm_find. simpl. case_decide; [done|]. by destruct (list_find _ l) as [[]|]. Qed.

Lemma cm_find_snoc l c d c' :
  cm_find (l ++ [{| cc_code := c; cc_data := d |}]) c' =
  match cm_find l c' with Some x => Some x | None => if decide (c = c') then Some d else None end.
Proof.
  induction l as [|e l IH]; simpl; [by rewrite cm_find_cons|].
  rewrite !cm_find_cons, IH. by destruct (decide (cc_code e = c')).
Qed.

Lemma cm_find_alter l i e c d c' :
  list_find (fun e => cc_code e = c) l = Some (i, e) ->
  cm_find (alter (fun e => {| cc_code := cc_code e; cc_data := cc_data e ++ d |}) i l) c' =
  if decide (c = c') then Some (default [] (cm_find l c) ++ d) else cm_find l c'.
Proof.
  revert i. induction l as [|x l IH]; intros i; [done|]. simpl. rewrite (cm_find_cons x l c).
  destruct (decide (cc_code x = c)) as [Hx|Hx]; simpl.
  - intros [= <- <-]. simpl. rewrite !cm_find_cons. simpl. rewrite Hx.
    by destruct (decide (c = c')).
  - destruct (list_find _ l) as [[j y]|] eqn:E; [|done]. simpl. intros [= <- <-].
    simpl. rewrite !cm_find_cons. destruct (decide (cc_code x = c')) as [Hc|Hc];
      [by rewrite decide_False by congruence|].
    by apply IH.
Qed.

Lemma cm_append_find m c d c' :
  cm_find (cm_items (cf_dhcpv4__concat_map_append true true m c d)) c' =
  if decide (c = c') then Some (default [] (cm_find (cm_items m) c) ++ d)
  else cm_find (cm_items m) c'.
Proof.
  unfold cf_dhcpv4__concat_map_append, concat_map_find_or_add.
  destruct (list_find _ (cm_items m)) as [[i e]|] eqn:E.
  - assert (cm_find (cm_items m) c = Some (cc_data e)) as Hc by (unfold cm_find; by rewrite E).
    destruct (zlen d =? 0) eqn:Ed; cbn [cm_items negb].
    + assert (d = []) as -> by (destruct d; [done|simpl in Ed; lia]).
      case_decide; [subst; by rewrite Hc, app_nil_r|done].
    + by apply (cm_find_alter _ _ e).
  - assert (cm_find (cm_items m) c = None) as Hc by (unfold cm_find; by rewrite E).
    assert (forall (l : list cf_dhcpv4_concat_t) x, alter
      (fun e => {| cc_code := cc_code e; cc_data := cc_data e ++ d |}) (length l) (l ++ [x]) =
      l ++ [{| cc_code := cc_code x; cc_data := cc_data x ++ d |}]) as Halt.
    { intros l x. induction l as [|y l IH]; simpl; [done|]. f_equal. apply IH. }
    assert (forall d', d' = d -> cm_find (cm_items m ++ [{| cc_code := c; cc_data := d' |}]) c' =
      if decide (c = c') then Some (default [] (cm_find (cm_items m) c) ++ d)
      else cm_find (cm_items m) c') as Hgoal.
    { intros ? ->. rewrite cm_find_snoc. case_decide; [subst; by rewrite Hc|].
      by destruct (cm_find _ c'). }
    destruct (Z.of_nat _ =? cm_cap m), (zlen d =? 0) eqn:Ed; cbn [cm_items negb];
      rewrite ?Halt; apply Hgoal; try done; by destruct d.
Qed.

Lemma fragments_cons c p h :
  fragments c (p :: h) = (if decide (p.1 = c) then [p.2] else []) ++ fragments c h.
Proof. unfold fragments. rewrite filter_cons. by case_decide. Qed.

Lemma append_all_find h : forall m c,
  cm_find (cm_items (append_all m h)) c =
  match fragments c h with
  | [] => cm_find (cm_items m) c
  | fs => Some (default [] (cm_find (cm_items m) c) ++ concat fs)
  end.
Proof.
  induction h as [|[c0 d] h IH]; intros m c; [done|].
  change (append_all m ((c0, d) :: h))
    with (append_all (cf_dhcpv4__concat_map_append true true m c0 d) h).
  rewrite IH, cm_append_find, fragments_cons. cbn [fst snd].
  destruct (decide (c0 = c)) as [Hc|Hc].
  - subst. cbn [app concat]. destruct (fragments c h) eqn:E; simpl; unfold id;
      [by rewrite app_nil_r|by rewrite !app_assoc].
  - by destruct (fragments c h).
Qed.

(** The array stays inside its allocation, and no code has two entries. *)
Definition cm_ok (m : cf_dhcpv4_concat_map_t) : Prop :=
  zlen (cm_items m) <= cm_cap m <= 8 + 2 * zlen (cm_items m) /\
  NoDup (map cc_code (cm_items m)).

Lemma cm_append_ok m c d :
  cm_ok m -> zlen (cm_items m) < 2 ^ 60 -> cm_ok (cf_dhcpv4__concat_map_append true true m c d).
Proof.
  intros [Hcap Hnd] Hlen. unfold cf_dhcpv4__concat_map_append, concat_map_find_or_add.
  assert (forall f i l, (forall e, cc_code (f e) = cc_code e) ->
    map cc_code (alter f i l) = map cc_code l) as Halt.
  { intros f i l Hf. revert i. induction l as [|x l IH]; intros i; [by destruct i|].
    destruct i; simpl; [by rewrite Hf|]. f_equal. apply IH. }
  assert (forall m', cm_ok m' -> cm_ok (if zlen d =? 0 then m' else if negb true then m' else
    {| cm_items := alter (fun e => {| cc_code := cc_code e; cc_data := cc_data e ++ d |})
         (length (cm_items m)) (cm_items m'); cm_cap := cm_cap m' |})) as Hgrow.
  { intros m' [? ?]. destruct (zlen d =? 0); [done|]. split; cbn [negb cm_items cm_cap].
    - by rewrite length_alter.
    - by rewrite Halt. }
  destruct (list_find _ _) as [[i e]|] eqn:E.
  - destruct (zlen d =? 0); [done|]. split; cbn [negb cm_items cm_cap].
    + by rewrite length_alter.
    + by rewrite Halt.
  - apply list_find_None in E. assert (c ∉ map cc_code (cm_items m)) as Hc.
    { intros (e & -> & He)%list_elem_of_fmap. rewrite Forall_forall in E.
      eapply E; [by apply list_elem_of_In|done]. }
    assert (NoDup (map cc_code (cm_items m ++ [{| cc_code := c; cc_data := [] |}]))) as Hnd'.
    { rewrite map_app. apply list.NoDup_app. split; [done|]. split; [|apply NoDup_singleton].
      intros x Hx ->%list_elem_of_singleton. done. }
    destruct (Z.of_nat _ =? cm_cap m) eqn:Ef; apply Hgrow; split; cbn [cm_items cm_cap]; try done;
      rewrite ?length_app; cbn [length]; [|lia].
    destruct (cm_cap m =? 0) eqn:E0; [lia|]. rewrite u64_id by lia. lia.
Qed.

Lemma append_all_get h c :
  cf_dhcpv4__concat_map_get (append_all cf_dhcpv4__concat_map_init h) c = concat (fragments c h).
Proof. rewrite cm_get_find, append_all_find. simpl. by destruct (fragments c h). Qed.

Lemma append_all_has h c :
  cf_dhcpv4__concat_map_has (append_all cf_dhcpv4__concat_map_init h) c = true <->
  exists d, (c, d) ∈ h.
Proof.
  rewrite cm_has_find, append_all_find, bool_decide_eq_true. unfold fragments. split.
  - destruct (filter _ h) as [|[c' d] l] eqn:E; [by intros []|]. intros _. exists d.
    assert ((c', d) ∈ filter (fun p => p.1 = c) h) as H by (rewrite E; left).
    apply list_elem_of_filter in H as [Hc Hin]. simpl in Hc. by subst.
  - intros [d Hd]. assert ((c, d) ∈ filter (fun p : Z * list Z => p.1 = c) h) as H
      by (by apply list_elem_of_filter).
    destruct (filter _ h); [by apply not_elem_of_nil in H|by eexists].
Qed.

Lemma append_all_ok h : forall m n, cm_ok m -> zlen (cm_items m) <= n -> n + zlen h < 2 ^ 60 ->
  cm_ok (append_all m h).
Proof.
  induction h as [|[c d] h IH]; intros m n Hm Hn Hh; [done|]. cbn [length] in Hh.
  eapply (IH _ (n + 1)); [apply cm_append_ok; [done|lia]| |lia]. cbn [fst snd].
  unfold cf_dhcpv4__concat_map_append, concat_map_find_or_add.
  repeat (case_match; simplify_eq/=); rewrite ?length_alter, ?length_app; simpl; lia.
Qed.

(** After any history of appends the map holds, for each code, the bytes
    appended under it in order, and holds a code exactly when something (an
    empty option included) was appended under it; its array holds one entry a
    code and is never written past its allocation. *)
Theorem concat_map_correct h c :
  zlen h < 2 ^ 60 ->
  let m := append_all cf_dhcpv4__concat_map_init h in
  cf_dhcpv4__concat_map_get m c = concat (fragments c h) /\
  (cf_dhcpv4__concat_map_has m c = true <-> exists d, (c, d) ∈ h) /\ cm_ok m.
Proof.
  intros Hlen m. split; [apply append_all_get|]. split; [apply append_all_has|].
  apply (append_all_ok h _ 0); [|done|lia]. split; [done|constructor].
Qed.

Lemma concat_map_correct_witness :
  cf_dhcpv4__concat_map_get
    (append_all cf_dhcpv4__concat_map_init [(12, [1; 2]); (6, []); (12, [3])]) 12 = [1; 2; 3].
Proof. apply (concat_map_correct [(12, [1; 2]); (6, []); (12, [3])] 12). done. Defined.

Lemma warn_items l code msg path ctx :
  wl_items (cf_dhcpv4__warn l code msg path ctx) = wl_items l ++ [warning code msg path ctx].
Proof. apply warn_adds. Qed.
