(* ===== verification/Dhcp4Decode.v ===== *)
(** * Dhcp4Decode: the decoded view of DHCPv4 options
    ([libs/cloudflow-packet/cf_dhcpv4_decode.c])

    Every decoder takes the concatenated data of one option code and returns
    the fields it sets (the default where it sets none) and the warning list.
    A string is the bytes of its buffer before the added NUL, a repeated field
    a list, and [data + i] the list from its [i]-th byte.  Allocations
    succeed.  [inet_ntop] is libc's formatter. *)

From S2P Require Import Prelude IpFmt ParseUtil Dhcp4Util.

(** ** Messages ([proto/cloudflow/v1/dhcp.proto]) *)

Inductive MessageType : Type :=
| MESSAGE_TYPE_UNSPECIFIED
| DISCOVER
| OFFER
| REQUEST
| DECLINE
| ACK
| NAK
| RELEASE
| INFORM
| FORCERENEW
| LEASEQUERY
| LEASEUNASSIGNED
| LEASEUNKNOWN
| LEASEACTIVE.

#[export] Instance MessageType_eq_dec : EqDecision MessageType.
Proof. solve_decision. Defined.

Record DhcpV4ClasslessStaticRoute := {
  cr_destination_prefix_length : Z;
  cr_destination : list Z;
  cr_router : list Z;
  cr_raw_value : option (list Z)
}.

Record DhcpV4VendorSuboption := {
  vs_code : Z;
  vs_length : Z;
  vs_raw_value : option (list Z);
  vs_decoded_value : list Z
}.

Record DhcpV4VendorSpecificInformation := {
  vi_raw_value : option (list Z);
  vi_vendor_class_identifier : list Z;
  vi_suboptions : list DhcpV4VendorSuboption;
  vi_decode_attempted : bool;
  vi_decode_success : bool;
  vi_parser_warnings : list parser_warning
}.

Record DhcpV4RelayAgentSuboption := {
  rs_code : Z;
  rs_name : list Z;
  rs_length : Z;
  rs_raw_value : option (list Z);
  rs_decoded_value : list Z;
  rs_malformed : bool
}.

Record DhcpV4RelayAgentInformation := {
  ra_raw_value : option (list Z);
  ra_suboptions : list DhcpV4RelayAgentSuboption;
  ra_circuit_id : list Z;
  ra_remote_id : list Z;
  ra_subscriber_id : list Z
}.

Record DhcpV4ClientFqdn := {
  fq_flags : Z;
  fq_rcode1 : Z;
  fq_rcode2 : Z;
  fq_domain_name : list Z;
  fq_raw_domain_name : option (list Z)
}.

Record DhcpV4DecodedOptions := {
  d_message_type : MessageType;
  d_message_type_name : list Z;
  d_subnet_mask : list Z;
  d_routers : list (list Z);
  d_domain_name_servers : list (list Z);
  d_host_name : list Z;
  d_domain_name : list Z;
  d_requested_ip_address : list Z;
  d_ip_address_lease_time_seconds : Z;
  d_option_overload : Z;
  d_server_identifier : list Z;
  d_parameter_request_list : list Z;
  d_message : list Z;
  d_max_dhcp_message_size : Z;
  d_renewal_time_t1_seconds : Z;
  d_rebinding_time_t2_seconds : Z;
  d_vendor_class_identifier : list Z;
  d_client_identifier_raw : option (list Z);
  d_client_identifier_text : list Z;
  d_vendor_specific_information : option DhcpV4VendorSpecificInformation;
  d_tftp_server_name : list Z;
  d_bootfile_name : list Z;
  d_client_fqdn : option DhcpV4ClientFqdn;
  d_relay_agent_information : option DhcpV4RelayAgentInformation;
  d_domain_search : list (list Z);
  d_classless_static_routes : list DhcpV4ClasslessStaticRoute;
  d_microsoft_classless_static_routes : list DhcpV4ClasslessStaticRoute;
  d_proxy_autodiscovery : list Z
}.

(** ** Option 53 *)

Definition message_type_name (v : Z) : list Z :=
  match v with
  | 1 => bs "DISCOVER"
  | 2 => bs "OFFER"
  | 3 => bs "REQUEST"
  | 4 => bs "DECLINE"
  | 5 => bs "ACK"
  | 6 => bs "NAK"
  | 7 => bs "RELEASE"
  | 8 => bs "INFORM"
  | 9 => bs "FORCERENEW"
  | 10 => bs "LEASEQUERY"
  | 11 => bs "LEASEUNASSIGNED"
  | 12 => bs "LEASEUNKNOWN"
  | 13 => bs "LEASEACTIVE"
  | _ => []
  end.

Definition message_type_enum (v : Z) : MessageType :=
  match v with
  | 1 => DISCOVER
  | 2 => OFFER
  | 3 => REQUEST
  | 4 => DECLINE
  | 5 => ACK
  | 6 => NAK
  | 7 => RELEASE
  | 8 => INFORM
  | 9 => FORCERENEW
  | 10 => LEASEQUERY
  | 11 => LEASEUNASSIGNED
  | 12 => LEASEUNKNOWN
  | 13 => LEASEACTIVE
  | _ => MESSAGE_TYPE_UNSPECIFIED
  end.

Section Decode.
Variable inet_ntop : Z -> list Z -> list Z.

(** ** Scalars *)

Definition decode_ipv4_scalar (data field_path : list Z) (warnings : cf_warn_list_t)
    : exec (option (list Z) * cf_warn_list_t) :=
  if zlen data <? 4 then
    Ret (None, cf_dhcpv4__warn warnings "opt_len_short" "expected a 4-byte IPv4 address"
                 field_path data)
  else
    s ← cf_dhcpv4__format_ipv4 inet_ntop data;
    Ret (Some s, warnings).

(** The entries from the [i]-th on, [n] left. *)
Fixpoint ipv4_entries (n : nat) (i : Z) (data : list Z) : exec (list (list Z)) :=
  match n with
  | O => Ret []
  | S n' =>
      s ← cf_dhcpv4__format_ipv4 inet_ntop (drop (Z.to_nat (i * 4)) data);
      l ← ipv4_entries n' (i + 1) data;
      Ret (s :: l)
  end.

Definition decode_ipv4_list (data field_path : list Z) (warnings : cf_warn_list_t)
    : exec (list (list Z) * cf_warn_list_t) :=
  let len := zlen data in
  let n := len / 4 in
  let rem := len mod 4 in
  warnings ← (if negb (rem =? 0) then
                ctx ← rd_n data (len - rem) rem;
                Ret (cf_dhcpv4__warn warnings "opt_len_invalid"
                       "option length is not a multiple of 4 bytes" field_path ctx)
              else Ret warnings);
  if n =? 0 then Ret ([], warnings)
  else
    arr ← ipv4_entries (Z.to_nat n) 0 data;
    Ret (arr, warnings).

Definition decode_u32 (data field_path : list Z) (warnings : cf_warn_list_t)
    : exec (option Z * cf_warn_list_t) :=
  if zlen data <? 4 then
    Ret (None, cf_dhcpv4__warn warnings "opt_len_short" "expected a 4-byte integer"
                 field_path data)
  else
    a ← rd data 0; b ← rd data 1; c ← rd data 2; e ← rd data 3;
    Ret (Some (be32_of a b c e), warnings).

Definition decode_u16_as_u32 (data field_path : list Z) (warnings : cf_warn_list_t)
    : exec (option Z * cf_warn_list_t) :=
  if zlen data <? 2 then
    Ret (None, cf_dhcpv4__warn warnings "opt_len_short" "expected a 2-byte integer"
                 field_path data)
  else
    a ← rd data 0; b ← rd data 1;
    Ret (Some (be16_of a b), warnings).

(** ** Option 61: the raw identifier and its text *)

Definition decode_client_id (data : list Z) : exec (option (list Z) * list Z) :=
  let raw := cf_dhcpv4__set_bytes data in
  let len := zlen data in
  if len =? 0 then Ret (raw, [])
  else
    b0 ← rd data 0;
    if (b0 =? 0) && (1 <? len) && cf_dhcpv4__is_printable (drop 1 data) then
      Ret (raw, cf_dhcpv4__dup_strn (drop 1 data))
    else if (b0 =? 1) && (len =? 7) then
      macbuf ← cf_format_mac (drop 1 data);
      Ret (raw, cf_dhcpv4__dup_str macbuf)
    else Ret (raw, []).

(** ** Options 119 and 81: domain names

    The inner loop: whether it failed, the name, and where the next name
    starts.  [name = []] is the NULL pointer. *)
Fixpoint scan_name (fuel : nat) (data : list Z) (cursor : Z) (name : list Z) (jumps : Z)
    (had_pointer : bool) (advance_pos : Z) : exec (bool * list Z * Z) :=
  match fuel with
  | O => Spin
  | S fuel' =>
      let len := zlen data in
      if len <=? cursor then Ret (true, name, advance_pos)
      else
        b ← rd data cursor;
        if b =? 0 then
          Ret (false, name, if had_pointer then advance_pos else cursor + 1)
        else if Z.land b 0xC0 =? 0xC0 then
          if len <=? cursor + 1 then Ret (true, name, advance_pos)
          else
            lo ← rd data (cursor + 1);
            let target := Z.lor (Z.shiftl (Z.land b 0x3F) 8) lo in
            let advance_pos := if had_pointer then advance_pos else cursor + 2 in
            let jumps := jumps + 1 in
            if (64 <? jumps) || (len <=? target) then Ret (true, name, advance_pos)
            else scan_name fuel' data target name jumps true advance_pos
        else if negb (Z.land b 0xC0 =? 0) then Ret (true, name, advance_pos)
        else if len <? cursor + 1 + b then Ret (true, name, advance_pos)
        else
          label ← rd_n data (cursor + 1) b;
          let name := if 0 <? zlen name then name ++ [46] ++ label else name ++ label in
          scan_name fuel' data (cursor + 1 + b) name jumps had_pointer advance_pos
  end.

(** At most 64 jumps, and between two of them the cursor only grows. *)
Definition name_fuel (data : list Z) : nat := 66 * (length data + 1).

Fixpoint names_loop (fuel : nat) (data : list Z) (pos : Z) (names : list (list Z))
    (warnings : cf_warn_list_t) (field_path_prefix : list Z)
    : exec (list (list Z) * cf_warn_list_t) :=
  match fuel with
  | O => Spin
  | S fuel' =>
      let len := zlen data in
      if len <=? pos then Ret (names, warnings)
      else
        b ← rd data pos;
        if b =? 0 then names_loop fuel' data (pos + 1) names warnings field_path_prefix
        else
          '(error, name, advance_pos) ← scan_name (name_fuel data) data pos [] 0 false pos;
          if (error : bool) then
            ctx ← rd_n data pos (len - pos);
            Ret (names, cf_dhcpv4__warn warnings "domain_name_bad_encoding"
                          ("domain name has an invalid/out-of-range compression " +:+
                           "pointer or a truncated label")
                          (indexed_path 64 field_path_prefix (length names)) ctx)
          else
            let names := if 0 <? zlen name then names ++ [name] else names in
            if advance_pos <=? pos then Ret (names, warnings)
            else names_loop fuel' data advance_pos names warnings field_path_prefix
  end.

Definition decode_domain_name_list (data : list Z) (warnings : cf_warn_list_t)
    (field_path_prefix : list Z) : exec (list (list Z) * cf_warn_list_t) :=
  names_loop (S (length data)) data 0 [] warnings field_path_prefix.

(** ** Options 121 and 249: classless static routes *)

Fixpoint routes_loop (fuel : nat) (data : list Z) (pos : Z) (arr : list DhcpV4ClasslessStaticRoute)
    (warnings : cf_warn_list_t) (field_path_prefix : list Z)
    : exec (list DhcpV4ClasslessStaticRoute * cf_warn_list_t) :=
  match fuel with
  | O => Spin
  | S fuel' =>
      let len := zlen data in
      if len <=? pos then Ret (arr, warnings)
      else
        prefix_len ← rd data pos;
        let dest_bytes := (prefix_len + 7) / 8 in
        let path := indexed_path 64 field_path_prefix (length arr) in
        if 32 <? prefix_len then
          ctx ← rd_n data pos (len - pos);
          Ret (arr, cf_dhcpv4__warn warnings "csr_bad_prefix_length"
                      "classless static route prefix length > 32" path ctx)
        else if len <? pos + 1 + dest_bytes + 4 then
          ctx ← rd_n data pos (len - pos);
          Ret (arr, cf_dhcpv4__warn warnings "csr_len_overrun"
                      "classless static route entry exceeds remaining option bytes" path ctx)
        else
          dest ← rd_n data (pos + 1) dest_bytes;
          dest4 ← wr_n [0; 0; 0; 0] 0 dest;
          router4 ← rd_n data (pos + 1 + dest_bytes) 4;
          destination ← cf_dhcpv4__format_ipv4 inet_ntop dest4;
          router ← cf_dhcpv4__format_ipv4 inet_ntop router4;
          raw ← rd_n data pos (1 + dest_bytes + 4);
          routes_loop fuel' data (pos + (1 + dest_bytes + 4))
            (arr ++ [{| cr_destination_prefix_length := prefix_len;
                        cr_destination := destination;
                        cr_router := router;
                        cr_raw_value := cf_dhcpv4__set_bytes raw |}])
            warnings field_path_prefix
  end.

Definition decode_classless_routes (data : list Z) (warnings : cf_warn_list_t)
    (field_path_prefix : list Z) : exec (list DhcpV4ClasslessStaticRoute * cf_warn_list_t) :=
  routes_loop (S (length data)) data 0 [] warnings field_path_prefix.

(** ** Option 43: vendor-specific information *)

Definition text_or_hex (v : list Z) : list Z :=
  if cf_dhcpv4__is_printable v then cf_dhcpv4__dup_strn v else cf_dhcpv4__hex_encode v.

(** The suboptions, the [ok] flag and the local warning list. *)
Fixpoint vendor_loop (fuel : nat) (data : list Z) (pos : Z) (arr : list DhcpV4VendorSuboption)
    (local : cf_warn_list_t) : exec (list DhcpV4VendorSuboption * bool * cf_warn_list_t) :=
  match fuel with
  | O => Spin
  | S fuel' =>
      let len := zlen data in
      let path := bs "decoded.vendor_specific_information.suboptions" in
      if len <=? pos then Ret (arr, true, local)
      else if len <? pos + 2 then
        ctx ← rd_n data pos (len - pos);
        Ret (arr, false, cf_dhcpv4__warn local "vendor_subopt_truncated"
                           "vendor suboption truncated before its length byte" path ctx)
      else
        code ← rd data pos;
        sl ← rd data (pos + 1);
        if len <? pos + 2 + sl then
          ctx ← rd_n data pos (len - pos);
          Ret (arr, false, cf_dhcpv4__warn local "vendor_subopt_len_overrun"
                             "vendor suboption length exceeds remaining bytes" path ctx)
        else
          v ← rd_n data (pos + 2) sl;
          vendor_loop fuel' data (pos + (2 + sl))
            (arr ++ [{| vs_code := code; vs_length := sl;
                        vs_raw_value := cf_dhcpv4__set_bytes v;
                        vs_decoded_value := text_or_hex v |}]) local
  end.

(** [None] is a NULL [vendor_class_id]. *)
Definition decode_vendor_specific (data : list Z) (vendor_class_id : option (list Z))
    : exec DhcpV4VendorSpecificInformation :=
  let raw := cf_dhcpv4__set_bytes data in
  match vendor_class_id with
  | Some id =>
      if str_set id then
        '(arr, ok, local) ← vendor_loop (S (length data)) data 0 [] cf_warn_list_init;
        Ret {| vi_raw_value := raw; vi_vendor_class_identifier := cf_dhcpv4__dup_str id;
               vi_suboptions := arr; vi_decode_attempted := true; vi_decode_success := ok;
               vi_parser_warnings := (cf_warn_list_take local).1 |}
      else
        Ret {| vi_raw_value := raw; vi_vendor_class_identifier := []; vi_suboptions := [];
               vi_decode_attempted := false; vi_decode_success := false;
               vi_parser_warnings := (cf_warn_list_take cf_warn_list_init).1 |}
  | None =>
      Ret {| vi_raw_value := raw; vi_vendor_class_identifier := []; vi_suboptions := [];
             vi_decode_attempted := false; vi_decode_success := false;
             vi_parser_warnings := (cf_warn_list_take cf_warn_list_init).1 |}
  end.

(** ** Option 82: relay agent information *)

Definition relay_suboption_name (code : Z) : list Z :=
  match code with
  | 1 => bs "Agent Circuit ID"
  | 2 => bs "Agent Remote ID"
  | 5 => bs "RSVP Reservation"
  | 6 => bs "Subscriber ID"
  | 9 => bs "Vendor-Specific Relay Suboption"
  | 11 => bs "Relay Agent Identifier"
  | 12 => bs "Relay Agent Source Link Selection"
  | _ => []
  end.

Definition push_suboption (rai : DhcpV4RelayAgentInformation) (so : DhcpV4RelayAgentSuboption)
    : DhcpV4RelayAgentInformation :=
  {| ra_raw_value := ra_raw_value rai;
     ra_suboptions := ra_suboptions rai ++ [so];
     ra_circuit_id := ra_circuit_id rai;
     ra_remote_id := ra_remote_id rai;
     ra_subscriber_id := ra_subscriber_id rai |}.

(** The three suboptions that are also fields of their own. *)
Definition note_suboption (rai : DhcpV4RelayAgentInformation) (code : Z) (decoded : list Z)
    : DhcpV4RelayAgentInformation :=
  let v := cf_dhcpv4__dup_str decoded in
  {| ra_raw_value := ra_raw_value rai;
     ra_suboptions := ra_suboptions rai;
     ra_circuit_id := if code =? 1 then v else ra_circuit_id rai;
     ra_remote_id := if code =? 2 then v else ra_remote_id rai;
     ra_subscriber_id := if code =? 6 then v else ra_subscriber_id rai |}.

Fixpoint relay_loop (fuel : nat) (data : list Z) (pos : Z) (rai : DhcpV4RelayAgentInformation)
    (warnings : cf_warn_list_t) : exec (DhcpV4RelayAgentInformation * cf_warn_list_t) :=
  match fuel with
  | O => Spin
  | S fuel' =>
      let len := zlen data in
      let path := indexed_path 72 (bs "decoded.relay_agent_information.suboptions")
                    (length (ra_suboptions rai)) in
      if len <=? pos then Ret (rai, warnings)
      else if len <? pos + 2 then
        ctx ← rd_n data pos (len - pos);
        let warnings := cf_dhcpv4__warn warnings "relay_subopt_truncated"
                          "relay agent suboption truncated before its length byte" path ctx in
        code ← rd data pos;
        Ret (push_suboption rai
               {| rs_code := code; rs_name := cf_dhcpv4__dup_str (relay_suboption_name code);
                  rs_length := 0; rs_raw_value := None; rs_decoded_value := [];
                  rs_malformed := true |}, warnings)
      else
        code ← rd data pos;
        sl ← rd data (pos + 1);
        let malformed := len <? pos + 2 + sl in
        let use_len := if malformed then len - (pos + 2) else sl in
        v ← rd_n data (pos + 2) use_len;
        let so := {| rs_code := code;
                     rs_name := cf_dhcpv4__dup_str (relay_suboption_name code);
                     rs_length := u32 use_len;
                     rs_raw_value := cf_dhcpv4__set_bytes v;
                     rs_decoded_value := text_or_hex v;
                     rs_malformed := malformed |} in
        let warnings := if malformed then
                          cf_dhcpv4__warn warnings "relay_subopt_len_overrun"
                            "relay agent suboption length exceeds remaining bytes" path v
                        else warnings in
        let rai := push_suboption (note_suboption rai code (rs_decoded_value so)) so in
        if malformed then Ret (rai, warnings)
        else relay_loop fuel' data (pos + (2 + sl)) rai warnings
  end.

Definition decode_relay_agent_info (data : list Z) (warnings : cf_warn_list_t)
    : exec (DhcpV4RelayAgentInformation * cf_warn_list_t) :=
  relay_loop (S (length data)) data 0
    {| ra_raw_value := cf_dhcpv4__set_bytes data; ra_suboptions := []; ra_circuit_id := [];
       ra_remote_id := []; ra_subscriber_id := [] |} warnings.

(** ** Option 81: client FQDN *)

Definition decode_fqdn (data : list Z) (warnings : cf_warn_list_t)
    : exec (option DhcpV4ClientFqdn * cf_warn_list_t) :=
  if zlen data <? 3 then
    Ret (None, cf_dhcpv4__warn warnings "opt_len_short"
                 "option 81 (FQDN) shorter than its flags/rcode1/rcode2 header"
                 (bs "decoded.client_fqdn") data)
  else
    flags ← rd data 0; rcode1 ← rd data 1; rcode2 ← rd data 2;
    let namebuf := drop 3 data in
    '(domain_name, warnings) ←
      (if 0 <? zlen namebuf then
         if negb (Z.land flags 0x04 =? 0) then
           '(names, warnings) ← decode_domain_name_list namebuf warnings
                                  (bs "decoded.client_fqdn.domain_name");
           Ret (match names with [] => [] | name :: _ => name end, warnings)
         else Ret (cf_dhcpv4__dup_strn namebuf, warnings)
       else Ret ([], warnings));
    Ret (Some {| fq_flags := flags; fq_rcode1 := rcode1; fq_rcode2 := rcode2;
                 fq_domain_name := domain_name;
                 fq_raw_domain_name := cf_dhcpv4__set_bytes namebuf |}, warnings).

(** ** The builder

    Each block of [cf_dhcpv4__build_decoded] tests whether its code was seen,
    fetches the data and decodes it. *)

Section Blocks.
Variable cm : cf_dhcpv4_concat_map_t.

Definition if_seen {A} (code : Z) (absent : A) (decode : list Z -> exec A) : exec A :=
  if cf_dhcpv4__concat_map_has cm code then decode (cf_dhcpv4__concat_map_get cm code)
  else Ret absent.

Definition opt_message_type (w : cf_warn_list_t) : exec (MessageType * list Z * cf_warn_list_t) :=
  if_seen 53 (MESSAGE_TYPE_UNSPECIFIED, [], w) (fun data =>
    if 1 <=? zlen data then
      v ← rd data 0;
      let nm := message_type_name v in
      Ret (message_type_enum v, if str_set nm then cf_dhcpv4__dup_str nm else [], w)
    else
      Ret (MESSAGE_TYPE_UNSPECIFIED, [],
           cf_dhcpv4__warn w "opt_len_short" "option 53 (message type) present but empty"
             (bs "decoded.message_type") [])).

Definition opt_ipv4 (code : Z) (path : string) (w : cf_warn_list_t)
    : exec (list Z * cf_warn_list_t) :=
  if_seen code ([], w) (fun data =>
    '(s, w) ← decode_ipv4_scalar data (bs path) w;
    Ret (match s with Some s => s | None => [] end, w)).

Definition opt_ipv4_list (code : Z) (path : string) (w : cf_warn_list_t)
    : exec (list (list Z) * cf_warn_list_t) :=
  if_seen code ([], w) (fun data => decode_ipv4_list data (bs path) w).

Definition opt_text (code : Z) : exec (list Z) :=
  if_seen code [] (fun data =>
    Ret (if 0 <? zlen data then cf_dhcpv4__dup_strn data else [])).

Definition opt_u32 (code : Z) (path : string) (w : cf_warn_list_t) : exec (Z * cf_warn_list_t) :=
  if_seen code (0, w) (fun data =>
    '(v, w) ← decode_u32 data (bs path) w;
    Ret (match v with Some v => v | None => 0 end, w)).

Definition opt_u16 (code : Z) (path : string) (w : cf_warn_list_t) : exec (Z * cf_warn_list_t) :=
  if_seen code (0, w) (fun data =>
    '(v, w) ← decode_u16_as_u32 data (bs path) w;
    Ret (match v with Some v => v | None => 0 end, w)).

Definition opt_overload (w : cf_warn_list_t) : exec (Z * cf_warn_list_t) :=
  if_seen 52 (0, w) (fun data =>
    if 1 <=? zlen data then v ← rd data 0; Ret (v, w)
    else
      Ret (0, cf_dhcpv4__warn w "opt_len_short" "option 52 (overload) present but empty"
                (bs "decoded.option_overload") [])).

Definition opt_parameter_request_list : exec (list Z) :=
  if_seen 55 [] (fun data => Ret (if 0 <? zlen data then data else [])).

Definition opt_client_id : exec (option (list Z) * list Z) :=
  if_seen 61 (None, []) decode_client_id.

Definition opt_vendor (vendor_class_identifier : list Z)
    : exec (option DhcpV4VendorSpecificInformation) :=
  if_seen 43 None (fun data =>
    vsi ← decode_vendor_specific data
            (if str_set vendor_class_identifier then Some vendor_class_identifier else None);
    Ret (Some vsi)).

Definition opt_fqdn (w : cf_warn_list_t) : exec (option DhcpV4ClientFqdn * cf_warn_list_t) :=
  if_seen 81 (None, w) (fun data => decode_fqdn data w).

Definition opt_relay (w : cf_warn_list_t)
    : exec (option DhcpV4RelayAgentInformation * cf_warn_list_t) :=
  if_seen 82 (None, w) (fun data =>
    '(rai, w) ← decode_relay_agent_info data w;
    Ret (Some rai, w)).

Definition opt_domain_search (w : cf_warn_list_t) : exec (list (list Z) * cf_warn_list_t) :=
  if_seen 119 ([], w) (fun data => decode_domain_name_list data w (bs "decoded.domain_search")).

Definition opt_routes (code : Z) (path : string) (w : cf_warn_list_t)
    : exec (list DhcpV4ClasslessStaticRoute * cf_warn_list_t) :=
  if_seen code ([], w) (fun data => decode_classless_routes data w (bs path)).

Definition cf_dhcpv4__build_decoded (w : cf_warn_list_t)
    : exec (DhcpV4DecodedOptions * cf_warn_list_t) :=
  '(message_type, message_type_name, w) ← opt_message_type w;
  '(subnet_mask, w) ← opt_ipv4 1 "decoded.subnet_mask" w;
  '(routers, w) ← opt_ipv4_list 3 "decoded.routers" w;
  '(domain_name_servers, w) ← opt_ipv4_list 6 "decoded.domain_name_servers" w;
  host_name ← opt_text 12;
  domain_name ← opt_text 15;
  '(requested_ip_address, w) ← opt_ipv4 50 "decoded.requested_ip_address" w;
  '(lease_time, w) ← opt_u32 51 "decoded.ip_address_lease_time_seconds" w;
  '(option_overload, w) ← opt_overload w;
  '(server_identifier, w) ← opt_ipv4 54 "decoded.server_identifier" w;
  parameter_request_list ← opt_parameter_request_list;
  message ← opt_text 56;
  '(max_dhcp_message_size, w) ← opt_u16 57 "decoded.max_dhcp_message_size" w;
  '(t1, w) ← opt_u32 58 "decoded.renewal_time_t1_seconds" w;
  '(t2, w) ← opt_u32 59 "decoded.rebinding_time_t2_seconds" w;
  vendor_class_identifier ← opt_text 60;
  '(client_identifier_raw, client_identifier_text) ← opt_client_id;
  vendor_specific_information ← opt_vendor vendor_class_identifier;
  tftp_server_name ← opt_text 66;
  bootfile_name ← opt_text 67;
  '(client_fqdn, w) ← opt_fqdn w;
  '(relay_agent_information, w) ← opt_relay w;
  '(domain_search, w) ← opt_domain_search w;
  '(routes, w) ← opt_routes 121 "decoded.classless_static_routes" w;
  '(ms_routes, w) ← opt_routes 249 "decoded.microsoft_classless_static_routes" w;
  proxy_autodiscovery ← opt_text 252;
  Ret ({| d_message_type := message_type;
          d_message_type_name := message_type_name;
          d_subnet_mask := subnet_mask;
          d_routers := routers;
          d_domain_name_servers := domain_name_servers;
          d_host_name := host_name;
          d_domain_name := domain_name;
          d_requested_ip_address := requested_ip_address;
          d_ip_address_lease_time_seconds := lease_time;
          d_option_overload := option_overload;
          d_server_identifier := server_identifier;
          d_parameter_request_list := parameter_request_list;
          d_message := message;
          d_max_dhcp_message_size := max_dhcp_message_size;
          d_renewal_time_t1_seconds := t1;
          d_rebinding_time_t2_seconds := t2;
          d_vendor_class_identifier := vendor_class_identifier;
          d_client_identifier_raw := client_identifier_raw;
          d_client_identifier_text := client_identifier_text;
          d_vendor_specific_information := vendor_specific_information;
          d_tftp_server_name := tftp_server_name;
          d_bootfile_name := bootfile_name;
          d_client_fqdn := client_fqdn;
          d_relay_agent_information := relay_agent_information;
          d_domain_search := domain_search;
          d_classless_static_routes := routes;
          d_microsoft_classless_static_routes := ms_routes;
          d_proxy_autodiscovery := proxy_autodiscovery |}, w).
End Blocks.
End Decode.
