(* ===== verification/Dhcp4DecodeSpec.v ===== *)
(** * Dhcp4DecodeSpec: what the option decoders promise

    Domain names, routes and suboptions against reference grammars, and every
    field of the decoded view as a function of the data of its option. *)

From S2P Require Import Prelude IpFmt ParseUtil Dhcp4Util Dhcp4Decode.

(** An option or suboption as it is on the wire: its value, cut at the end of
    the data when its length byte is missing or declares too much. *)

Inductive fault : Type :=
| Missing_length
| Overrun (declared : Z).

Record wire_option := {
  wo_code : Z;
  wo_value : list Z;
  wo_fault : option fault
}.

Definition sound (code : Z) (value : list Z) : wire_option :=
  {| wo_code := code; wo_value := value; wo_fault := None |}.

Definition is_malformed (o : wire_option) : bool :=
  match wo_fault o with Some _ => true | None => false end.

(** ** Domain names

    [name_at data p j ls]: the labels [ls] are spelled from [p] through [j]
    compression pointers, all inside [data]; [name_end data p e]: the bytes of
    the name at [p], up to its root or its first pointer, end at [e]. *)

Abbreviation byte_at d p v := (0 <= p /\ d !! Z.to_nat p = Some v).

Definition pointer_target (hi lo : Z) : Z := Z.lor (Z.shiftl (Z.land hi 0x3F) 8) lo.

Inductive name_at (data : list Z) : Z -> Z -> list (list Z) -> Prop :=
| NA_root p : byte_at data p 0 -> name_at data p 0 []
| NA_label p n j ls :
    byte_at data p n -> 0 < n < 64 -> p + 1 + n <= zlen data ->
    name_at data (p + 1 + n) j ls ->
    name_at data p j (slice data (p + 1) n :: ls)
| NA_pointer p hi lo j ls :
    byte_at data p hi -> 192 <= hi -> byte_at data (p + 1) lo ->
    pointer_target hi lo < zlen data ->
    name_at data (pointer_target hi lo) j ls ->
    name_at data p (j + 1) ls.

Inductive name_end (data : list Z) : Z -> Z -> Prop :=
| NE_root p : byte_at data p 0 -> name_end data p (p + 1)
| NE_label p n e : byte_at data p n -> 0 < n < 64 -> name_end data (p + 1 + n) e -> name_end data p e
| NE_pointer p hi : byte_at data p hi -> 192 <= hi -> name_end data p (p + 2).

Lemma name_at_nonneg data p j ls : name_at data p j ls -> 0 <= j.
Proof. induction 1; lia. Qed.

(** The kind of a byte decides the rule, so the labels are a function of the
    position. *)
Lemma name_at_det data p j1 ls1 j2 ls2 :
  name_at data p j1 ls1 -> name_at data p j2 ls2 -> j1 = j2 /\ ls1 = ls2.
Proof.
  intros H1. revert j2 ls2.
  induction H1 as [p [? Hp]|p n j ls [? Hp] Hn Hl H1 IH|p hi lo j ls [? Hp] Hhi [? Hlo] Ht H1 IH];
    intros j2 ls2 H2;
    inversion H2 as [q [? Hq]|q n' j' ls' [? Hq] Hn' Hl' H2'|q hi' lo' j' ls' [? Hq] Hhi' [? Hlo'] Ht' H2'];
    subst; rewrite Hp in Hq; simplify_eq; try lia; try done.
  - by destruct (IH _ _ H2') as [-> ->].
  - by destruct (IH _ _ H2') as [-> ->].
Qed.

(** The name as text. *)
Fixpoint dotted (ls : list (list Z)) : list Z :=
  match ls with
  | [] => []
  | [l] => l
  | l :: ls => l ++ bs "." ++ dotted ls
  end.

Definition add_label (name label : list Z) : list Z :=
  if 0 <? zlen name then name ++ [46] ++ label else name ++ label.

Lemma add_labels ls name : Forall (fun l => l <> []) ls -> name <> [] ->
  foldl add_label name ls = match ls with [] => name | _ => name ++ bs "." ++ dotted ls end.
Proof.
  revert name. induction ls as [|l ls IH]; intros name Hls Hn; [done|].
  apply Forall_cons_iff in Hls as [Hl Hls]. simpl foldl.
  assert (add_label name l = name ++ [46] ++ l) as ->.
  { unfold add_label. destruct name; [done|]. by replace (0 <? _) with true by (simpl; lia). }
  rewrite IH; [|done|by destruct name]. destruct ls as [|l' ls]; [done|].
  by rewrite <-!app_assoc.
Qed.

Lemma dotted_labels ls : Forall (fun l => l <> []) ls -> foldl add_label [] ls = dotted ls.
Proof.
  destruct ls as [|l ls]; [done|]. intros [Hl Hls]%Forall_cons_iff. simpl foldl.
  change (add_label [] l) with l. rewrite add_labels by done. by destruct ls.
Qed.

Lemma name_at_labels data p j ls : name_at data p j ls -> Forall (fun l => l <> []) ls.
Proof.
  induction 1 as [|p n j ls [Hp _] Hn Hl _ IH|]; [constructor| |done]. constructor; [|done].
  intros E. apply (f_equal (fun l => zlen l)) in E. rewrite zlen_slice in E by lia. simpl in E. lia.
Qed.

(** Which rule a byte calls for, as the scan tests it. *)
Variant byte_kind (b : Z) : bool -> bool -> bool -> Prop :=
| BK_root : b = 0 -> byte_kind b true false true
| BK_label : 0 < b < 64 -> byte_kind b false false true
| BK_pointer : 192 <= b -> byte_kind b false true false
| BK_reserved : 64 <= b < 192 -> byte_kind b false false false.

Lemma byte_kind_of b : is_byte b ->
  byte_kind b (b =? 0) (Z.land b 0xC0 =? 0xC0) (Z.land b 0xC0 =? 0).
Proof.
  intros Hb. unfold is_byte in Hb.
  assert (Z.land b 0xC0 = b / 64 * 64) as ->.
  { change 0xC0 with (Z.ldiff 255 (Z.ones 6)). rewrite Z.ldiff_land, Z.land_assoc, <-Z.ldiff_land.
    rewrite (land_byte b), Z.mod_small by lia. rewrite Z.ldiff_ones_r by lia.
    rewrite Z.shiftr_div_pow2, Z.shiftl_mul_pow2 by lia. done. }
  assert (b = 64 * (b / 64) + b mod 64) as Hdm by (apply Z.div_mod; lia).
  pose proof (Z.mod_pos_bound b 64 ltac:(lia)).
  destruct (b =? 0) eqn:E0, (b / 64 * 64 =? 0xC0) eqn:E1, (b / 64 * 64 =? 0) eqn:E2;
    try lia; constructor; lia.
Qed.

Lemma name_at_inv data p j ls v : name_at data p j ls -> 0 <= p -> data !! Z.to_nat p = Some v ->
  (v = 0 /\ j = 0 /\ ls = []) \/
  (0 < v < 64 /\ p + 1 + v <= zlen data /\ exists ls', name_at data (p + 1 + v) j ls') \/
  (192 <= v /\ exists lo j', byte_at data (p + 1) lo /\ j = j' + 1 /\
     pointer_target v lo < zlen data /\ name_at data (pointer_target v lo) j' ls).
Proof.
  intros H Hp Hv. destruct H as [p [? Hq]|p n j ls [? Hq] Hn Hl H|p hi lo j ls [? Hq] Hhi Hlo Ht H];
    rewrite Hq in Hv; simplify_eq; eauto 10.
Qed.

Lemma pointer_target_bound hi lo : is_byte hi -> is_byte lo -> 0 <= pointer_target hi lo.
Proof.
  unfold is_byte, pointer_target. intros. apply Z.lor_nonneg.
  split; [|lia]. apply Z.shiftl_nonneg. apply Z.land_nonneg. lia.
Qed.

Lemma scan_name_spec data : bytes_ok data ->
  forall fuel cursor name jumps hp adv,
  0 <= cursor <= zlen data -> 0 <= jumps <= 64 ->
  (65 - jumps) * (zlen data + 1) + (zlen data - cursor) < Z.of_nat fuel ->
  (exists j ls e, name_at data cursor j ls /\ jumps + j <= 64 /\ name_end data cursor e /\
     scan_name fuel data cursor name jumps hp adv =
     Ret (false, foldl add_label name ls, if hp then adv else e)) \/
  ((forall j ls, name_at data cursor j ls -> 64 < jumps + j) /\
   exists n a, scan_name fuel data cursor name jumps hp adv = Ret (true, n, a)).
Proof.
  intros Hok. induction fuel as [|fuel IH]; intros cursor name jumps hp adv Hcur Hj Hfuel; [nia|].
  cbn [scan_name]. destruct (zlen data <=? cursor) eqn:E1.
  { right. split; [|eauto]. intros j ls H.
    assert (exists v, data !! Z.to_nat cursor = Some v) as [v Hv] by (destruct H as [? []|? ? ? ? []|? ? ? ? ? []]; eauto).
    apply lookup_lt_Some in Hv. lia. }
  destruct (rd_in data cursor Hok) as (b & -> & Hb & Hbl); [lia|]. xbind.
  destruct (byte_kind_of b Hb) as [->|Hn|Hhi|Hr].
  - assert (byte_at data cursor 0) as Hbyte by (split; [lia|done]).
    left. exists 0, [], (cursor + 1). split; [by apply NA_root|]. split; [lia|].
    split; [by apply NE_root|done].
  - assert (byte_at data cursor b) as Hbyte by (split; [lia|done]).
    cbn [negb]. destruct (zlen data <? cursor + 1 + b) eqn:E2.
    { right. split; [|eauto]. intros j ls H. apply (name_at_inv _ _ _ _ b) in H; [|lia|done]. lia. }
    rewrite rd_n_ok by lia. xbind.
    destruct (IH (cursor + 1 + b) (add_label name (slice data (cursor + 1) b)) jumps hp adv)
      as [(j & ls & e & Hat & Hjj & He & Heq)|[Hno Heq]]; [lia|lia|nia| |].
    + left. exists j, (slice data (cursor + 1) b :: ls), e.
      split; [by apply NA_label; [|lia|lia|]|]. split; [done|].
      split; [by eapply NE_label|]. exact Heq.
    + right. split; [|exact Heq]. intros j ls H.
      apply (name_at_inv _ _ _ _ b) in H as [?|[(_ & _ & ls' & H)|?]]; [lia| |lia|lia|done].
      by eapply Hno.
  - assert (byte_at data cursor b) as Hbyte by (split; [lia|done]).
    destruct (zlen data <=? cursor + 1) eqn:E2.
    { right. split; [|eauto]. intros j ls H. apply (name_at_inv _ _ _ _ b) in H; [|lia|done].
      destruct H as [?|[?|(_ & lo & j' & [_ Hlo] & _)]]; [lia|lia|].
      apply lookup_lt_Some in Hlo. lia. }
    destruct (rd_in data (cursor + 1) Hok) as (lo & -> & Hlob & Hlo); [lia|]. xbind.
    change (Z.lor (Z.shiftl (Z.land b 63) 8) lo) with (pointer_target b lo).
    pose proof (pointer_target_bound b lo Hb Hlob) as Hpt.
    destruct ((64 <? jumps + 1) || (zlen data <=? pointer_target b lo)) eqn:E3.
    { right. split; [|eauto]. intros j ls H.
      apply (name_at_inv _ _ _ _ b) in H as [?|[?|(_ & lo' & j' & [_ Hlo'] & -> & Ht & H)]];
        [lia|lia| |lia|done]. apply name_at_nonneg in H.
      rewrite Hlo in Hlo'. simplify_eq. lia. }
    destruct (IH (pointer_target b lo) name (jumps + 1) true (if hp then adv else cursor + 2))
      as [(j & ls & e & Hat & Hjj & He & Heq)|[Hno Heq]]; [lia|lia|nia| |].
    + left. exists (j + 1), ls, (cursor + 2). split.
      { eapply NA_pointer; [done|lia|split; [lia|done]|lia|done]. }
      split; [lia|]. split; [by eapply NE_pointer|]. exact Heq.
    + right. split; [|exact Heq]. intros j ls H.
      apply (name_at_inv _ _ _ _ b) in H as [?|[?|(_ & lo' & j' & [_ Hlo'] & -> & Ht & H)]];
        [lia|lia| |lia|done].
      rewrite Hlo in Hlo'. simplify_eq. apply Hno in H. lia.
  - right. split; [|eauto]. intros j ls Hbad. apply (name_at_inv _ _ _ _ b) in Hbad; [lia|lia|done].
Qed.

(** The end of a name is past its start and inside the data. *)
Lemma name_end_bound data p e j ls : name_end data p e -> name_at data p j ls -> p < e <= zlen data.
Proof.
  intros He. revert j ls. induction He as [p [? Hp]|p n e [? Hp] Hn He IH|p hi [? Hp] Hhi]; intros j ls Hat.
  - apply lookup_lt_Some in Hp. lia.
  - apply (name_at_inv _ _ _ _ n) in Hat as [?|[(_ & _ & ls' & Hat)|?]]; [lia| |lia|lia|done].
    apply IH in Hat. lia.
  - apply (name_at_inv _ _ _ _ hi) in Hat as [?|[?|(_ & lo & j' & [_ Hlo] & _)]];
      [lia|lia| |lia|done]. apply lookup_lt_Some in Hlo. lia.
Qed.

(** ** Lists of names

    [names_read data p ns bad]: the names from [p] on are [ns]; [bad] is the
    start of the name that does not decode within 64 jumps and ends the list,
    if there is one.  A stray root byte and a name without labels add
    nothing. *)

Inductive names_read (data : list Z) : Z -> list (list Z) -> option Z -> Prop :=
| NR_end p : zlen data <= p -> names_read data p [] None
| NR_root p ns bad : byte_at data p 0 -> names_read data (p + 1) ns bad -> names_read data p ns bad
| NR_name p v j ls e ns bad :
    byte_at data p v -> v <> 0 -> name_at data p j ls -> j <= 64 -> name_end data p e ->
    names_read data e ns bad ->
    names_read data p (match ls with [] => ns | _ => dotted ls :: ns end) bad
| NR_bad p v :
    byte_at data p v -> v <> 0 -> (forall j ls, name_at data p j ls -> 64 < j) ->
    names_read data p [] (Some p).

Definition bad_name_warning (prefix : list Z) (n : nat) (ctx : list Z) : parser_warning :=
  warning "domain_name_bad_encoding"
    ("domain name has an invalid/out-of-range compression " +:+ "pointer or a truncated label")
    (indexed_path 64 prefix n) ctx.

(** The warnings that a list with [n] names adds. *)
Definition name_warnings (data prefix : list Z) (n : nat) (bad : option Z) : list parser_warning :=
  match bad with
  | None => []
  | Some q => [bad_name_warning prefix n (drop (Z.to_nat q) data)]
  end.

Lemma slice_rest {A} (d : list A) p : 0 <= p <= zlen d -> slice d p (zlen d - p) = drop (Z.to_nat p) d.
Proof. intros Hp. unfold slice. apply take_ge. rewrite length_drop. lia. Qed.

Lemma zlen_dotted_pos l ls : Forall (fun l => l <> []) (l :: ls) -> (0 <? zlen (dotted (l :: ls))) = true.
Proof.
  intros [Hl _]%Forall_cons_iff. destruct l; [done|]. destruct ls; simpl; lia.
Qed.

Lemma names_loop_reads data prefix : bytes_ok data ->
  forall fuel p names w, 0 <= p <= zlen data -> zlen data - p < Z.of_nat fuel ->
  exists ns bad w', names_read data p ns bad /\
    names_loop fuel data p names w prefix = Ret (names ++ ns, w') /\
    wl_items w' = wl_items w ++ name_warnings data prefix (length (names ++ ns)) bad.
Proof.
  intros Hok. induction fuel as [|fuel IH]; intros p names w Hp Hfuel; [lia|]. cbn [names_loop].
  destruct (zlen data <=? p) eqn:E1.
  { exists [], None, w. rewrite !app_nil_r. split; [apply NR_end; lia|done]. }
  destruct (rd_in data p Hok) as (b & -> & Hb & Hbl); [lia|]. xbind.
  destruct (b =? 0) eqn:E0.
  { assert (b = 0) as -> by lia.
    assert (byte_at data p 0) as Hbyte by (split; [lia|done]).
    destruct (IH (p + 1) names w) as (ns & bad & w' & Hr & He & Hw); [lia|lia|].
    exists ns, bad, w'. split; [by apply NR_root|done]. }
  destruct (scan_name_spec data Hok (name_fuel data) p [] 0 false p)
    as [(j & ls & e & Hat & Hj & He & ->)|[Hno (n & a & ->)]];
    [lia|lia|unfold name_fuel; nia| |]; xbind.
  - pose proof (name_end_bound _ _ _ _ _ He Hat). replace (e <=? p) with false by lia.
    pose proof (name_at_labels _ _ _ _ Hat) as Hls. rewrite (dotted_labels ls Hls).
    destruct (IH e (if 0 <? zlen (dotted ls) then names ++ [dotted ls] else names) w)
      as (ns & bad & w' & Hr & -> & Hw); [lia|lia|].
    eexists _, bad, w'. split; [eapply NR_name; [split; [lia|done]|lia|done|lia|done|done]|].
    destruct ls as [|l ls]; [done|]. rewrite zlen_dotted_pos in * by done.
    rewrite <-!app_assoc in *. done.
  - rewrite rd_n_ok by lia. xbind. rewrite slice_rest by lia.
    eexists [], (Some p), _. rewrite !app_nil_r. split; [eapply NR_bad; [split; [lia|done]|lia|]|].
    + intros j ls H. apply Hno in H. lia.
    + split; [done|]. by rewrite warn_items.
Qed.

Lemma domain_names_read data w prefix : bytes_ok data ->
  exists ns bad w', names_read data 0 ns bad /\
    decode_domain_name_list data w prefix = Ret (ns, w') /\
    wl_items w' = wl_items w ++ name_warnings data prefix (length ns) bad.
Proof.
  intros Hok. apply (names_loop_reads data prefix Hok (S (length data)) 0 [] w); lia.
Qed.

Lemma name_end_det data p e1 e2 : name_end data p e1 -> name_end data p e2 -> e1 = e2.
Proof.
  intros H1. revert e2. induction H1 as [p [? Hp]|p n e [? Hp] Hn H1 IH|p hi [? Hp] Hhi];
    intros e2 H2; inversion H2 as [q [? Hq]|q n' e' [? Hq] Hn' H2'|q hi' [? Hq] Hhi'];
    subst; rewrite Hp in Hq; simplify_eq; try lia; try done.
  by apply IH.
Qed.

Lemma names_read_det data p ns1 b1 ns2 b2 :
  names_read data p ns1 b1 -> names_read data p ns2 b2 -> ns1 = ns2 /\ b1 = b2.
Proof.
  intros H1. revert ns2 b2.
  induction H1 as [p Hp|p ns bad [? Hp] H1 IH|p v j ls e ns bad [? Hp] Hv Hat Hj He H1 IH
    |p v [? Hp] Hv Hno]; intros ns2 b2 H2;
    inversion H2 as [q Hq|q ns' bad' [? Hq] H2'|q v' j' ls' e' ns' bad' [? Hq] Hv' Hat' Hj' He' H2'
      |q v' [? Hq] Hv' Hno']; subst; try done;
    try (pose proof (lookup_lt_Some _ _ _ Hp); lia);
    try (pose proof (lookup_lt_Some _ _ _ Hq); lia);
    rewrite Hp in Hq; simplify_eq.
  - by apply IH.
  - destruct (name_at_det _ _ _ _ _ _ Hat Hat') as [-> ->].
    rewrite (name_end_det _ _ _ _ He He') in *. by destruct (IH _ _ H2') as [-> ->].
  - apply Hno' in Hat. lia.
  - apply Hno in Hat'. lia.
Qed.

(** The wire form of a name and of a list of names. *)
Definition encode_label (l : list Z) : list Z := zlen l :: l.
Definition encode_name (ls : list (list Z)) : list Z := concat (map encode_label ls) ++ [0].
Definition label_ok (l : list Z) : Prop := 0 < zlen l < 64 /\ bytes_ok l.

Lemma encoded_name_at ls : Forall label_ok ls -> forall pre post,
  name_at (pre ++ encode_name ls ++ post) (zlen pre) 0 ls /\
  name_end (pre ++ encode_name ls ++ post) (zlen pre) (zlen pre + zlen (encode_name ls)).
Proof.
  unfold encode_name. induction 1 as [|l ls [Hl _] Hls IH]; intros pre post.
  { assert (byte_at (pre ++ [0] ++ post) (zlen pre) 0) as Hb.
    { split; [lia|]. rewrite lookup_app_r by lia. by replace (_ - _)%nat with 0%nat by lia. }
    split; [by apply NA_root|]. by apply NE_root. }
  cbn [map concat encode_label]. set (d := pre ++ ((zlen l :: l) ++ concat (map encode_label ls)) ++ [0] ++ post).
  assert (d = (pre ++ zlen l :: l) ++ (concat (map encode_label ls) ++ [0]) ++ post) as Hd
    by (unfold d; by rewrite <-!app_assoc).
  rewrite <-app_assoc. fold d.
  assert (byte_at d (zlen pre) (zlen l)) as Hb.
  { split; [lia|]. unfold d. rewrite lookup_app_r by lia. by replace (_ - _)%nat with 0%nat by lia. }
  destruct (IH (pre ++ zlen l :: l) post) as [Hat He]. rewrite <-Hd in Hat, He.
  replace (zlen (pre ++ zlen l :: l)) with (zlen pre + 1 + zlen l) in Hat, He
    by (rewrite length_app; simpl; lia).
  assert (slice d (zlen pre + 1) (zlen l) = l) as Hs.
  { unfold d. rewrite slice_app_r by lia. rewrite <-!app_assoc. cbn [app].
    rewrite slice_cons by lia. rewrite slice_app_l by lia.
    by replace (zlen pre + 1 - zlen pre - 1) with 0 by lia; rewrite slice_all. }
  split.
  - rewrite <-Hs at 2. apply NA_label; [done|lia| |done].
    rewrite Hd, !length_app. simpl. lia.
  - eapply NE_label; [done|lia|]. replace (zlen pre + zlen _) with
      (zlen pre + 1 + zlen l + zlen (concat (map encode_label ls) ++ [0])); [done|].
    rewrite ?length_app. simpl. rewrite ?length_app. simpl. lia.
Qed.

Lemma encoded_names_read names : Forall (fun ls => ls <> [] /\ Forall label_ok ls) names ->
  forall pre, names_read (pre ++ concat (map encode_name names)) (zlen pre) (map dotted names) None.
Proof.
  induction 1 as [|ls names [Hne Hls] Hnames IH]; intros pre.
  { apply NR_end. rewrite app_nil_r. lia. }
  cbn [map concat]. specialize (IH (pre ++ encode_name ls)). rewrite <-app_assoc in IH.
  destruct (encoded_name_at ls Hls pre (concat (map encode_name names))) as [Hat He].
  replace (zlen (pre ++ encode_name ls)) with (zlen pre + zlen (encode_name ls)) in IH
    by (rewrite length_app; lia).
  destruct ls as [|l ls]; [done|]. apply Forall_cons_iff in Hls as [[Hl _] Hls].
  eapply (NR_name _ _ (zlen l) 0 (l :: ls)); [|lia|exact Hat|lia|exact He|exact IH].
  split; [lia|]. rewrite lookup_app_r by lia. by replace (_ - _)%nat with 0%nat by lia.
Qed.

(** ** Addresses *)

Lemma pad4 d : zlen d <= 4 ->
  wr_n [0; 0; 0; 0] 0 d = Ret (d ++ replicate (4 - length d) 0).
Proof. intros H. by destruct d as [|? [|? [|? [|? [|]]]]]; try (simpl in H; lia). Qed.

Lemma set_bytes_cons b l : cf_dhcpv4__set_bytes (b :: l) = Some (b :: l).
Proof.
  unfold cf_dhcpv4__set_bytes, cf_set_bytes.
  by replace (zlen (b :: l) =? 0) with false by (simpl; lia).
Qed.

Section Decoders.
Variable inet_ntop : Z -> list Z -> list Z.

Definition ipv4_text (ip : list Z) : list Z := cf_dhcpv4__dup_str (inet_ntop 4 ip).

Lemma format_ipv4_of ip : 4 <= zlen ip ->
  cf_dhcpv4__format_ipv4 inet_ntop ip = Ret (ipv4_text (take 4 ip)).
Proof.
  intros H. unfold cf_dhcpv4__format_ipv4. rewrite rd_n_ok by lia. xbind.
  change (slice ip 0 4) with (take 4 (drop 0 ip)). rewrite drop_0.
  assert (length (take 4 ip) = 4%nat) as Hl by (rewrite length_take; lia).
  rewrite wr_n_ok by (rewrite ?Hl; simpl; lia). xbind.
  unfold ipv4_text, cf_format_ip, splice. cbn [Z.eqb Pos.eqb]. simpl take at 2.
  by rewrite app_nil_l, take_app_length' by done.
Qed.

(** The first [n] groups of four bytes. *)
Fixpoint words (n : nat) (data : list Z) : list (list Z) :=
  match n with
  | O => []
  | S n' => take 4 data :: words n' (drop 4 data)
  end.

Lemma ipv4_entries_of data : forall n i, 0 <= i -> (i + Z.of_nat n) * 4 <= zlen data ->
  ipv4_entries inet_ntop n i data = Ret (map ipv4_text (words n (drop (Z.to_nat (i * 4)) data))).
Proof.
  induction n as [|n IH]; intros i Hi Hn; [done|]. cbn [ipv4_entries words map].
  rewrite format_ipv4_of by (rewrite length_drop; lia). xbind. rewrite IH by lia. xbind.
  do 4 f_equal. rewrite drop_drop. f_equal. lia.
Qed.

Definition ipv4_list_of (data : list Z) : list (list Z) :=
  map ipv4_text (words (length data / 4) data).

Lemma decode_ipv4_list_of data path w :
  exists w', decode_ipv4_list inet_ntop data path w = Ret (ipv4_list_of data, w') /\
    wl_items w' = wl_items w ++
      (if zlen data mod 4 =? 0 then []
       else [warning "opt_len_invalid" "option length is not a multiple of 4 bytes" path
               (drop (length data / 4 * 4) data)]).
Proof.
  unfold decode_ipv4_list.
  assert (zlen data = 4 * (zlen data / 4) + zlen data mod 4) as Hd by (apply Z.div_mod; lia).
  pose proof (Z.mod_pos_bound (zlen data) 4 ltac:(lia)) as Hm.
  assert (Z.of_nat (length data / 4) = zlen data / 4) as Hq by (by rewrite Nat2Z.inj_div).
  assert (exists w', (if negb (zlen data mod 4 =? 0) then
      ctx ← rd_n data (zlen data - zlen data mod 4) (zlen data mod 4);
      Ret (cf_dhcpv4__warn w "opt_len_invalid" "option length is not a multiple of 4 bytes" path ctx)
    else Ret w) = Ret w' /\ wl_items w' = wl_items w ++
      (if zlen data mod 4 =? 0 then []
       else [warning "opt_len_invalid" "option length is not a multiple of 4 bytes" path
               (drop (length data / 4 * 4) data)])) as (w' & -> & Hw).
  { destruct (zlen data mod 4 =? 0) eqn:E; cbn [negb]; [exists w; by rewrite app_nil_r|].
    rewrite rd_n_ok by lia. eexists. split; [done|]. rewrite warn_items. do 4 f_equal.
    replace (zlen data mod 4) with (zlen data - (zlen data - zlen data mod 4)) at 2 by lia.
    rewrite slice_rest by lia. f_equal. lia. }
  exists w'. split; [|done]. xbind. unfold ipv4_list_of.
  destruct (zlen data / 4 =? 0) eqn:E.
  { by replace (length data / 4)%nat with 0%nat by lia. }
  replace (Z.to_nat (zlen data / 4)) with (length data / 4)%nat by lia.
  rewrite ipv4_entries_of by lia. xbind. by rewrite drop_0.
Qed.

(** ** Classless routes

    A route on the wire is a prefix length, its significant octets and a
    router. *)

Record wire_route := {
  wr_prefix : Z;
  wr_dest : list Z;
  wr_router : list Z
}.

Definition route_bytes (r : wire_route) : list Z := wr_prefix r :: wr_dest r ++ wr_router r.

Definition route_ok (r : wire_route) : Prop :=
  0 <= wr_prefix r <= 32 /\ zlen (wr_dest r) = (wr_prefix r + 7) / 8 /\ zlen (wr_router r) = 4.

Inductive route_fault : Type :=
| Bad_prefix
| Short_route.

(** The routes of the data, and what stops them. *)
Inductive routes_read : list Z -> list wire_route -> option (route_fault * list Z) -> Prop :=
| RR_end : routes_read [] [] None
| RR_route r l rs f : route_ok r -> routes_read l rs f -> routes_read (route_bytes r ++ l) (r :: rs) f
| RR_prefix p l : 32 < p -> routes_read (p :: l) [] (Some (Bad_prefix, p :: l))
| RR_short p l : 0 <= p <= 32 -> zlen l < (p + 7) / 8 + 4 -> routes_read (p :: l) [] (Some (Short_route, p :: l)).

Definition route_of (r : wire_route) : DhcpV4ClasslessStaticRoute :=
  {| cr_destination_prefix_length := wr_prefix r;
     cr_destination := ipv4_text (wr_dest r ++ replicate (4 - length (wr_dest r)) 0);
     cr_router := ipv4_text (wr_router r);
     cr_raw_value := Some (route_bytes r) |}.

Definition route_warnings (prefix : list Z) (n : nat) (f : option (route_fault * list Z))
    : list parser_warning :=
  match f with
  | None => []
  | Some (Bad_prefix, ctx) =>
      [warning "csr_bad_prefix_length" "classless static route prefix length > 32"
         (indexed_path 64 prefix n) ctx]
  | Some (Short_route, ctx) =>
      [warning "csr_len_overrun" "classless static route entry exceeds remaining option bytes"
         (indexed_path 64 prefix n) ctx]
  end.

Lemma routes_loop_reads data prefix : bytes_ok data ->
  forall fuel pre rest arr w, data = pre ++ rest -> (length rest < fuel)%nat ->
  exists rs f w', routes_read rest rs f /\
    routes_loop inet_ntop fuel data (zlen pre) arr w prefix = Ret (arr ++ map route_of rs, w') /\
    wl_items w' = wl_items w ++ route_warnings prefix (length arr + length rs) f.
Proof.
  intros Hok. induction fuel as [|fuel IH]; intros pre rest arr w Hf Hfuel; [lia|].
  assert (bytes_ok rest) as Hrest by (by rewrite Hf in Hok; apply Forall_app in Hok as [_ ?]).
  assert (zlen data = zlen pre + zlen rest) as Hlen by (rewrite Hf, length_app; lia).
  cbn [routes_loop]. rewrite Hlen. destruct rest as [|p rest].
  { replace (_ <=? zlen pre) with true by (simpl; lia).
    exists [], None, w. split; [constructor|]. by rewrite !app_nil_r. }
  assert (zlen (p :: rest) = 1 + zlen rest) as Hl1 by (simpl; lia).
  replace (_ <=? zlen pre) with false by lia.
  assert (forall n, 0 <= n <= zlen (p :: rest) ->
    rd_n data (zlen pre) n = Ret (take (Z.to_nat n) (p :: rest))) as Hrd.
  { intros n Hn. replace (zlen pre) with (zlen pre + 0) by lia.
    by rewrite Hf, rd_n_suffix by lia. }
  assert (forall k n, 0 < k -> 0 <= n -> k + n <= zlen (p :: rest) ->
    rd_n data (zlen pre + k) n = Ret (slice rest (k - 1) n)) as Hrd'.
  { intros k n Hk Hn Hkn. by rewrite Hf, rd_n_suffix, slice_cons by lia. }
  replace (rd data (zlen pre)) with (Ret p)
    by (rewrite Hf; replace (zlen pre) with (zlen pre + 0) by lia; by rewrite rd_suffix).
  xbind. apply Forall_cons_iff in Hrest as [Hp Hrest]. unfold is_byte in Hp.
  replace (zlen pre + zlen (p :: rest) - zlen pre) with (zlen (p :: rest)) by lia.
  destruct (32 <? p) eqn:E32.
  { rewrite Hrd by lia. xbind. rewrite take_ge by lia. exists [], (Some (Bad_prefix, p :: rest)).
    eexists. split; [constructor; lia|]. rewrite app_nil_r, Nat.add_0_r. split; [done|].
    by rewrite warn_items. }
  set (db := (p + 7) / 8).
  assert (0 <= db <= 4) as Hdb.
  { unfold db. pose proof (Z.div_pos (p + 7) 8). pose proof (Z.div_lt_upper_bound (p + 7) 8 5). lia. }
  destruct (_ <? zlen pre + 1 + db + 4) eqn:E4.
  { rewrite Hrd by lia. xbind. rewrite take_ge by lia. exists [], (Some (Short_route, p :: rest)).
    eexists. split; [apply RR_short; [lia|fold db; lia]|]. rewrite app_nil_r, Nat.add_0_r.
    split; [done|]. by rewrite warn_items. }
  set (r := {| wr_prefix := p; wr_dest := take (Z.to_nat db) rest;
               wr_router := take 4 (drop (Z.to_nat db) rest) |}).
  set (l := drop (Z.to_nat (db + 4)) rest).
  assert (route_ok r) as Hr.
  { split; [simpl; lia|]. split; simpl; rewrite ?length_take, ?length_drop; [fold db; lia|lia]. }
  assert (zlen (wr_dest r) = db /\ zlen (wr_router r) = 4) as [Hd Hro] by (by destruct Hr as (_ & ? & ?)).
  assert (p :: rest = route_bytes r ++ l) as Hsplit.
  { unfold route_bytes, l, r. simpl. f_equal.
    replace (Z.to_nat (db + 4)) with (Z.to_nat db + 4)%nat by lia.
    by rewrite <-drop_drop, <-app_assoc, take_drop, take_drop. }
  assert (zlen (route_bytes r) = 1 + db + 4) as Hrb.
  { unfold route_bytes. cbn [length]. rewrite length_app. lia. }
  rewrite Hrd' by lia. xbind. change (slice rest (1 - 1) db) with (wr_dest r).
  rewrite pad4 by lia. xbind.
  replace (zlen pre + 1 + db) with (zlen pre + (1 + db)) by lia.
  rewrite Hrd' by lia. xbind. replace (1 + db - 1) with db by lia.
  change (slice rest db 4) with (wr_router r).
  rewrite (format_ipv4_of (wr_dest r ++ _)) by (rewrite length_app, length_replicate; lia). xbind. rewrite format_ipv4_of by lia. xbind. rewrite Hrd by lia. xbind.
  destruct (IH (pre ++ route_bytes r) l (arr ++ [route_of r]) w) as (rs & f & w' & Hrr & He & Hw).
  { by rewrite Hf, Hsplit, <-app_assoc. }
  { unfold l. rewrite length_drop. lia. }
  exists (r :: rs), f, w'. split; [rewrite Hsplit; by apply RR_route|]. split.
  - rewrite length_app in He. replace (Z.of_nat (length pre + length (route_bytes r)))
      with (zlen pre + (1 + db + 4)) in He by lia.
    rewrite <-app_assoc in He. cbn [map app] in *. rewrite <-He. do 3 f_equal.
    unfold route_of. f_equal; [..|].
    + f_equal. rewrite take_ge; [done|]. rewrite length_app, length_replicate. lia.
    + f_equal. apply take_ge. lia.
    + rewrite Hsplit, take_app_length' by lia. apply set_bytes_cons.
  - rewrite Hw, length_app. cbn [length]. do 2 f_equal. lia.
Qed.

Lemma classless_routes_read data w prefix : bytes_ok data ->
  exists rs f w', routes_read data rs f /\
    decode_classless_routes inet_ntop data w prefix = Ret (map route_of rs, w') /\
    wl_items w' = wl_items w ++ route_warnings prefix (length rs) f.
Proof.
  intros Hok.
  apply (routes_loop_reads data prefix Hok (S (length data)) [] data [] w); [done|lia].
Qed.
End Decoders.

Lemma routes_read_det l rs1 f1 rs2 f2 : routes_read l rs1 f1 -> routes_read l rs2 f2 -> rs1 = rs2 /\ f1 = f2.
Proof.
  intros H1. revert rs2 f2.
  induction H1 as [|r l rs f Hr H1 IH|p l Hp|p l Hp Hs]; intros rs2 f2 H2.
  - by inversion H2.
  - inversion H2 as [|r' l' rs' f' Hr' H2' E|p' l' Hp' E|p' l' Hp' Hs' E]; subst.
    + unfold route_bytes in E. destruct r as [p d ro], r' as [p' d' ro'].
      destruct Hr as (_ & Hd & Hro), Hr' as (_ & Hd' & Hro'). simpl in *.
      subst p'. rename H into E. rewrite <-!app_assoc in E.
      apply app_inj_1 in E as [-> E]; [|lia]. apply app_inj_1 in E as [-> ->]; [|lia].
      by destruct (IH _ _ H2') as [-> ->].
    + destruct Hr as (? & _). lia.
    + destruct Hr as (_ & Hd & Hro). rewrite !length_app in Hs'. lia.
  - inversion H2 as [|r' l' rs' f' Hr' H2' E|p' l' Hp' E|p' l' Hp' Hs' E]; subst; [|done|lia].
    destruct Hr' as (? & _). lia.
  - inversion H2 as [|r' l' rs' f' Hr' H2' E|p' l' Hp' E|p' l' Hp' Hs' E]; subst; [|lia|done].
    destruct Hr' as (_ & Hd & Hro). rewrite !length_app in Hs. lia.
Qed.

Lemma encoded_routes_read rs : Forall route_ok rs -> routes_read (concat (map route_bytes rs)) rs None.
Proof. induction 1; [constructor|]. by apply RR_route. Qed.

(** ** Suboptions (options 43 and 82)

    The suboptions of the data: code, length and value, with no pad and no
    end. *)

Inductive subs_read : list Z -> list wire_option -> Prop :=
| SR_end : subs_read [] []
| SR_sub c v l os : subs_read l os -> subs_read (c :: zlen v :: v ++ l) (sound c v :: os)
| SR_missing c : subs_read [c] [{| wo_code := c; wo_value := []; wo_fault := Some Missing_length |}]
| SR_overrun c n v : zlen v < n ->
    subs_read (c :: n :: v) [{| wo_code := c; wo_value := v; wo_fault := Some (Overrun n) |}].

Lemma subs_read_det l os1 os2 : subs_read l os1 -> subs_read l os2 -> os1 = os2.
Proof.
  intros H1. revert os2. induction H1 as [|c v l os H1 IH|c|c n v Hn]; intros os2 H2.
  - by inversion H2.
  - inversion H2 as [|c' v' l' os' H2' E|?|c' n' v' Hn' E]; subst; try done.
    + match goal with H : v' ++ l' = v ++ l |- _ => apply app_inj_1 in H as [-> ->]; [|lia] end.
      by rewrite (IH os').
    + rewrite length_app in Hn'. lia.
  - by inversion H2.
  - inversion H2 as [|c' v' l' os' H2' E|?|c' n' v' Hn' E]; subst; try done.
    rewrite length_app in Hn. lia.
Qed.

Definition encode_sub (o : Z * list Z) : list Z := o.1 :: zlen o.2 :: o.2.

Lemma encoded_subs_read os : subs_read (concat (map encode_sub os)) (map (fun o => sound o.1 o.2) os).
Proof. induction os as [|[c v] os IH]; [constructor|]. by apply (SR_sub c v). Qed.

(** What is left of the data at a malformed suboption. *)
Definition wire_bytes (o : wire_option) : list Z :=
  match wo_fault o with
  | None => wo_code o :: zlen (wo_value o) :: wo_value o
  | Some Missing_length => [wo_code o]
  | Some (Overrun n) => wo_code o :: n :: wo_value o
  end.

(** The suboptions cover the data. *)
Lemma subs_cover l os : subs_read l os -> concat (map wire_bytes os) = l.
Proof.
  induction 1 as [|c v l os _ IH|c|c n v _]; [done| |done|].
  - cbn [map concat]. rewrite IH. done.
  - cbn. by rewrite app_nil_r.
Qed.

(** *** Option 43 *)

Definition vendor_sub (o : wire_option) : DhcpV4VendorSuboption :=
  {| vs_code := wo_code o; vs_length := zlen (wo_value o);
     vs_raw_value := cf_dhcpv4__set_bytes (wo_value o);
     vs_decoded_value := text_or_hex (wo_value o) |}.

Definition vendor_path : list Z := bs "decoded.vendor_specific_information.suboptions".

Definition vendor_warnings (os : list wire_option) : list parser_warning :=
  match list.last os with
  | Some o =>
      match wo_fault o with
      | None => []
      | Some Missing_length =>
          [warning "vendor_subopt_truncated" "vendor suboption truncated before its length byte"
             vendor_path (wire_bytes o)]
      | Some (Overrun _) =>
          [warning "vendor_subopt_len_overrun" "vendor suboption length exceeds remaining bytes"
             vendor_path (wire_bytes o)]
      end
  | None => []
  end.

(** The sound suboptions come first. *)
Definition sound_part (os : list wire_option) : list wire_option := filter (fun o => wo_fault o = None) os.

Lemma vendor_loop_reads data : bytes_ok data ->
  forall fuel pre rest arr w, data = pre ++ rest -> (length rest < fuel)%nat ->
  exists os w', subs_read rest os /\
    vendor_loop fuel data (zlen pre) arr w =
      Ret (arr ++ map vendor_sub (sound_part os), forallb (fun o => negb (is_malformed o)) os, w') /\
    wl_items w' = wl_items w ++ vendor_warnings os.
Proof.
  intros Hok. induction fuel as [|fuel IH]; intros pre rest arr w Hf Hfuel; [lia|].
  destruct (suffix_view data pre rest Hf Hok) as (Hlen & Hrest & Hrd & Hrdn).
  cbn [vendor_loop]. rewrite Hlen. destruct rest as [|c rest].
  { replace (_ <=? zlen pre) with true by (simpl; lia).
    exists [], w. split; [constructor|]. by rewrite !app_nil_r. }
  replace (_ <=? zlen pre) with false by (simpl; lia).
  pose proof (Hrdn 0 (zlen (c :: rest)) ltac:(lia) ltac:(lia) ltac:(lia)) as Hall.
  rewrite Z.add_0_r, slice_all in Hall by done.
  destruct rest as [|n rest].
  { replace (_ <? zlen pre + 2) with true by (simpl; lia).
    replace (zlen pre + _ - zlen pre) with (zlen [c]) by lia. rewrite Hall. xbind.
    exists [{| wo_code := c; wo_value := []; wo_fault := Some Missing_length |}]. eexists.
    split; [constructor|]. rewrite app_nil_r. split; [done|]. by rewrite warn_items. }
  replace (_ <? zlen pre + 2) with false by (simpl; lia).
  destruct (Hrd 0) as (c' & Hc & _ & Hrc); [simpl; lia|]. destruct (Hrd 1) as (n' & Hn & Hnb & Hrn); [simpl; lia|].
  simpl in Hc, Hn. injection Hc as <-. injection Hn as <-. rewrite Z.add_0_r in Hrc. rewrite Hrc, Hrn. xbind. unfold is_byte in Hnb.
  assert (zlen (c :: n :: rest) = 2 + zlen rest) as Hl2 by (simpl; lia).
  destruct (_ <? zlen pre + 2 + n) eqn:En.
  - replace (zlen pre + _ - zlen pre) with (zlen (c :: n :: rest)) by lia. rewrite Hall. xbind.
    exists [{| wo_code := c; wo_value := rest; wo_fault := Some (Overrun n) |}]. eexists.
    split; [constructor; lia|]. rewrite app_nil_r. split; [done|]. by rewrite warn_items.
  - rewrite Hrdn by lia. xbind. rewrite slice_cons, slice_cons by lia.
    set (v := slice rest (2 - 1 - 1) n). set (l := drop (Z.to_nat n) rest).
    assert (rest = v ++ l) as Hvl by (unfold v, l, slice; by rewrite drop_0, take_drop).
    assert (zlen v = n) as Hv by (unfold v; rewrite zlen_slice by lia; done).
    clearbody v l. subst rest.
    destruct (IH (pre ++ [c; n] ++ v) l (arr ++ [vendor_sub (sound c v)]) w)
      as (os & w' & Hr & He & Hw).
    { by rewrite Hf, <-!app_assoc. }
    { cbn [length] in Hfuel. rewrite length_app in Hfuel. lia. }
    exists (sound c v :: os), w'. split; [rewrite <-Hv; by apply SR_sub|]. split.
    + rewrite !length_app in He. replace (Z.of_nat _) with (zlen pre + (2 + n)) in He by (simpl; lia).
      change (sound_part (sound c v :: os)) with (sound c v :: sound_part os).
      rewrite <-app_assoc in He. etrans; [|exact He]. do 3 f_equal. unfold vendor_sub. simpl.
      by rewrite Hv.
    + rewrite Hw. f_equal. by destruct os.
Qed.

(** *** Option 82 *)

Definition relay_sub (o : wire_option) : DhcpV4RelayAgentSuboption :=
  {| rs_code := wo_code o; rs_name := cf_dhcpv4__dup_str (relay_suboption_name (wo_code o));
     rs_length := zlen (wo_value o); rs_raw_value := cf_dhcpv4__set_bytes (wo_value o);
     rs_decoded_value := text_or_hex (wo_value o); rs_malformed := is_malformed o |}.

(** The text of the last suboption with this code that has a length byte. *)
Definition note_step (code : Z) (v : list Z) (o : wire_option) : list Z :=
  match wo_fault o with
  | Some Missing_length => v
  | _ => if wo_code o =? code then cf_dhcpv4__dup_str (text_or_hex (wo_value o)) else v
  end.

Definition relay_path (n : nat) : list Z :=
  indexed_path 72 (bs "decoded.relay_agent_information.suboptions") n.

Definition relay_warning (n : nat) (o : wire_option) : list parser_warning :=
  match wo_fault o with
  | None => []
  | Some Missing_length =>
      [warning "relay_subopt_truncated" "relay agent suboption truncated before its length byte"
         (relay_path n) [wo_code o]]
  | Some (Overrun _) =>
      [warning "relay_subopt_len_overrun" "relay agent suboption length exceeds remaining bytes"
         (relay_path n) (wo_value o)]
  end.

Definition relay_info (rai : DhcpV4RelayAgentInformation) (os : list wire_option)
    : DhcpV4RelayAgentInformation :=
  {| ra_raw_value := ra_raw_value rai;
     ra_suboptions := ra_suboptions rai ++ map relay_sub os;
     ra_circuit_id := foldl (note_step 1) (ra_circuit_id rai) os;
     ra_remote_id := foldl (note_step 2) (ra_remote_id rai) os;
     ra_subscriber_id := foldl (note_step 6) (ra_subscriber_id rai) os |}.

Lemma relay_info_cons rai o os : relay_info (relay_info rai [o]) os = relay_info rai (o :: os).
Proof. unfold relay_info. simpl. by rewrite <-app_assoc. Qed.

Lemma relay_info_nil rai : relay_info rai [] = rai.
Proof. destruct rai. unfold relay_info. simpl. by rewrite app_nil_r. Qed.

(** One suboption with a length byte. *)
Lemma relay_info_note rai o k : wo_fault o <> Some Missing_length ->
  k = zlen (wo_value o) -> zlen (wo_value o) < 2 ^ 32 ->
  push_suboption (note_suboption rai (wo_code o) (text_or_hex (wo_value o)))
    {| rs_code := wo_code o; rs_name := cf_dhcpv4__dup_str (relay_suboption_name (wo_code o));
       rs_length := u32 k; rs_raw_value := cf_dhcpv4__set_bytes (wo_value o);
       rs_decoded_value := text_or_hex (wo_value o); rs_malformed := is_malformed o |} =
  relay_info rai [o].
Proof.
  intros Hf -> Hk. unfold relay_info, push_suboption, note_suboption, relay_sub, note_step. simpl.
  rewrite u32_id by lia. by destruct (wo_fault o) as [[|]|].
Qed.

Lemma relay_loop_reads data : bytes_ok data ->
  forall fuel pre rest rai w, data = pre ++ rest -> (length rest < fuel)%nat ->
  exists os w', subs_read rest os /\
    relay_loop fuel data (zlen pre) rai w = Ret (relay_info rai os, w') /\
    wl_items w' = wl_items w ++
      concat (imap (fun k o => relay_warning (length (ra_suboptions rai) + k) o) os).
Proof.
  intros Hok. induction fuel as [|fuel IH]; intros pre rest rai w Hf Hfuel; [lia|].
  destruct (suffix_view data pre rest Hf Hok) as (Hlen & Hrest & Hrd & Hrdn).
  cbn [relay_loop]. rewrite Hlen. destruct rest as [|c rest].
  { replace (_ <=? zlen pre) with true by (simpl; lia).
    exists [], w. split; [constructor|]. by rewrite relay_info_nil, app_nil_r. }
  replace (_ <=? zlen pre) with false by (simpl; lia).
  destruct (Hrd 0) as (c' & Hc & _ & Hrc); [simpl; lia|]. simpl in Hc. injection Hc as <-.
  rewrite Z.add_0_r in Hrc.
  destruct rest as [|n rest].
  { replace (_ <? zlen pre + 2) with true by (simpl; lia).
    pose proof (Hrdn 0 1 ltac:(lia) ltac:(lia) ltac:(simpl; lia)) as Hall. rewrite Z.add_0_r in Hall.
    replace (zlen pre + _ - zlen pre) with 1 by (simpl; lia). rewrite Hall. xbind. rewrite Hrc. xbind.
    exists [{| wo_code := c; wo_value := []; wo_fault := Some Missing_length |}]. eexists.
    split; [constructor|]. split; [done|]. rewrite warn_items. simpl. by rewrite Nat.add_0_r. }
  replace (_ <? zlen pre + 2) with false by (simpl; lia).
  destruct (Hrd 1) as (n' & Hn & Hnb & Hrn); [simpl; lia|]. simpl in Hn. injection Hn as <-.
  rewrite Hrc, Hrn. xbind. unfold is_byte in Hnb.
  assert (zlen (c :: n :: rest) = 2 + zlen rest) as Hl2 by (simpl; lia).
  destruct (_ <? zlen pre + 2 + n) eqn:En.
  - replace (zlen pre + _ - (zlen pre + 2)) with (zlen rest) by lia.
    rewrite Hrdn by lia. xbind. rewrite slice_cons, slice_cons, slice_all by lia.
    set (o := {| wo_code := c; wo_value := rest; wo_fault := Some (Overrun n) |}).
    exists [o]. eexists. split; [constructor; lia|]. split.
    + f_equal. f_equal. apply (relay_info_note rai o); [done|done|simpl; lia].
    + rewrite warn_items. simpl. by rewrite Nat.add_0_r.
  - rewrite Hrdn by lia. xbind. rewrite slice_cons, slice_cons by lia.
    set (v := slice rest (2 - 1 - 1) n). set (l := drop (Z.to_nat n) rest).
    assert (rest = v ++ l) as Hvl by (unfold v, l, slice; by rewrite drop_0, take_drop).
    assert (zlen v = n) as Hv by (unfold v; rewrite zlen_slice by lia; done).
    clearbody v l. subst rest. cbn [rs_decoded_value].
    rewrite (relay_info_note rai (sound c v)) by (simpl; (done || lia)).
    destruct (IH (pre ++ [c; n] ++ v) l (relay_info rai [sound c v]) w) as (os & w' & Hr & He & Hw).
    { by rewrite Hf, <-!app_assoc. }
    { cbn [length] in Hfuel. rewrite length_app in Hfuel. lia. }
    exists (sound c v :: os), w'. split; [rewrite <-Hv; by apply SR_sub|]. split.
    + rewrite !length_app in He. replace (Z.of_nat _) with (zlen pre + (2 + n)) in He by (simpl; lia).
      rewrite <-(relay_info_cons rai (sound c v) os). exact He.
    + rewrite Hw. apply (f_equal (app _)). rewrite imap_cons. cbn [concat].
      change (relay_warning _ (sound c v)) with (@nil parser_warning). apply (f_equal (@concat _)), imap_ext.
      intros k o _. cbn [relay_info ra_suboptions compose map]. rewrite length_app. cbn [length].
      apply (f_equal (fun k => relay_warning k o)). lia.
Qed.

(** ** The decoded view

    Each field as a function of the data of its option, or by the grammar of
    that data, and the warnings of each option in the order of the builder. *)

Definition first_byte (data : list Z) : Z := match data with b :: _ => b | [] => 0 end.

Definition be_field (n : Z) (data : list Z) : Z :=
  if zlen data <? n then 0 else be_value 0 (take (Z.to_nat n) data).

(** The text of a client identifier: text after a zero byte, or a MAC address
    after a one. *)
Definition client_text (data : list Z) : list Z :=
  match data with
  | [] => []
  | b :: rest =>
      if (b =? 0) && cf_dhcpv4__is_printable rest then rest
      else if (b =? 1) && (zlen rest =? 6) then c_str (mac_text rest)
      else []
  end.

Inductive fqdn_reads : list Z -> option DhcpV4ClientFqdn -> list parser_warning -> Prop :=
| FQ_short data : zlen data < 3 ->
    fqdn_reads data None
      [warning "opt_len_short" "option 81 (FQDN) shorter than its flags/rcode1/rcode2 header"
         (bs "decoded.client_fqdn") data]
| FQ_ascii f r1 r2 name : Z.land f 4 = 0 \/ name = [] ->
    fqdn_reads (f :: r1 :: r2 :: name)
      (Some {| fq_flags := f; fq_rcode1 := r1; fq_rcode2 := r2; fq_domain_name := name;
               fq_raw_domain_name := cf_dhcpv4__set_bytes name |}) []
| FQ_wire f r1 r2 name ns bad : Z.land f 4 <> 0 -> names_read name 0 ns bad ->
    fqdn_reads (f :: r1 :: r2 :: name)
      (Some {| fq_flags := f; fq_rcode1 := r1; fq_rcode2 := r2;
               fq_domain_name := match ns with [] => [] | n :: _ => n end;
               fq_raw_domain_name := cf_dhcpv4__set_bytes name |})
      (name_warnings name (bs "decoded.client_fqdn.domain_name") (length ns) bad).

Inductive vendor_reads (id data : list Z) : DhcpV4VendorSpecificInformation -> Prop :=
| VR_opaque : str_set id = false ->
    vendor_reads id data
      {| vi_raw_value := cf_dhcpv4__set_bytes data; vi_vendor_class_identifier := [];
         vi_suboptions := []; vi_decode_attempted := false; vi_decode_success := false;
         vi_parser_warnings := [] |}
| VR_subs os : str_set id = true -> subs_read data os ->
    vendor_reads id data
      {| vi_raw_value := cf_dhcpv4__set_bytes data; vi_vendor_class_identifier := c_str id;
         vi_suboptions := map vendor_sub (sound_part os); vi_decode_attempted := true;
         vi_decode_success := forallb (fun o => negb (is_malformed o)) os;
         vi_parser_warnings := vendor_warnings os |}.

(** [m] gives [v] and adds [ws] to the warnings. *)
Definition adds {A} (m : exec (A * cf_warn_list_t)) (w : cf_warn_list_t) (v : A)
    (ws : list parser_warning) : Prop :=
  exists w', m = Ret (v, w') /\ wl_items w' = wl_items w ++ ws.

Lemma adds_none {A} (v : A) w : adds (Ret (v, w)) w v [].
Proof. exists w. by rewrite app_nil_r. Qed.

Lemma adds_warn {A} (v : A) w code msg path ctx :
  adds (Ret (v, cf_dhcpv4__warn w code msg path ctx)) w v [warning code msg path ctx].
Proof. eexists. split; [done|apply warn_items]. Qed.

Lemma dup_strn_id b : cf_dhcpv4__dup_strn b = b.
Proof. by destruct b. Qed.

Lemma dup_str_c s : cf_dhcpv4__dup_str s = c_str s.
Proof. unfold cf_dhcpv4__dup_str, cf_dup_str. by destruct (c_str s). Qed.

Lemma decode_client_id_of data : bytes_ok data ->
  decode_client_id data = Ret (cf_dhcpv4__set_bytes data, client_text data).
Proof.
  intros Hok. unfold decode_client_id. destruct data as [|b rest]; [done|].
  replace (zlen (b :: rest) =? 0) with false by (simpl; lia).
  change (rd (b :: rest) 0) with (Ret b). xbind.
  change (drop 1 (b :: rest)) with rest. cbn [client_text].
  assert ((1 <? zlen (b :: rest)) && cf_dhcpv4__is_printable rest = cf_dhcpv4__is_printable rest) as Hp
    by (destruct rest; [done|]; replace (1 <? _) with true by (simpl; lia); done).
  destruct (b =? 0) eqn:E0; cbn [andb].
  - rewrite Hp. destruct (cf_dhcpv4__is_printable rest); [by rewrite dup_strn_id|].
    by replace (b =? 1) with false by lia.
  - destruct (b =? 1); cbn [andb]; [|done].
    replace (zlen (b :: rest) =? 7) with (zlen rest =? 6) by (cbn [length]; lia).
    destruct (zlen rest =? 6) eqn:E; [|done].
    rewrite cf_format_mac_of by lia. xbind. by rewrite dup_str_c.
Qed.

Lemma decode_fqdn_adds data w : bytes_ok data ->
  exists v ws, fqdn_reads data v ws /\ adds (decode_fqdn data w) w v ws.
Proof.
  intros Hok. unfold decode_fqdn. destruct (zlen data <? 3) eqn:E.
  { eexists _, _. split; [by apply FQ_short; lia|apply adds_warn]. }
  destruct data as [|f [|r1 [|r2 name]]]; try done.
  change (rd (f :: r1 :: r2 :: name) 0) with (Ret f).
  change (rd (f :: r1 :: r2 :: name) 1) with (Ret r1).
  change (rd (f :: r1 :: r2 :: name) 2) with (Ret r2). xbind.
  change (drop 3 (f :: r1 :: r2 :: name)) with name.
  assert (bytes_ok name) as Hname by (by do 3 apply Forall_inv_tail in Hok).
  destruct (0 <? zlen name) eqn:E0.
  2: { assert (name = []) as -> by (destruct name; [done|simpl in E0; lia]). xbind.
       eexists _, _. split; [apply FQ_ascii; by right|apply adds_none]. }
  destruct (Z.land f 4 =? 0) eqn:E4; cbn [negb].
  - rewrite dup_strn_id. xbind. eexists _, _. split; [apply FQ_ascii; left; lia|apply adds_none].
  - destruct (domain_names_read name w (bs "decoded.client_fqdn.domain_name") Hname)
      as (ns & bad & w' & Hr & -> & Hw). xbind.
    eexists _, _. split; [apply FQ_wire; [lia|done]|]. exists w'. done.
Qed.

Lemma decode_vendor_reads id data : bytes_ok data ->
  exists v, decode_vendor_specific data (if str_set id then Some id else None) = Ret v /\
    vendor_reads id data v.
Proof.
  intros Hok. unfold decode_vendor_specific. destruct (str_set id) eqn:E.
  2: { eexists. split; [done|by apply VR_opaque]. }
  rewrite E. destruct (vendor_loop_reads data Hok (S (length data)) [] data [] cf_warn_list_init)
    as (os & w' & Hr & He & Hw); [done|lia|]. change (zlen []) with 0 in He. rewrite He. xbind.
  eexists. split; [done|]. rewrite dup_str_c. unfold cf_warn_list_take. cbn [fst]. rewrite Hw.
  by apply VR_subs.
Qed.

Lemma decode_relay_adds data w : bytes_ok data ->
  exists os, subs_read data os /\
    adds (decode_relay_agent_info data w) w
      (relay_info {| ra_raw_value := cf_dhcpv4__set_bytes data; ra_suboptions := [];
                     ra_circuit_id := []; ra_remote_id := []; ra_subscriber_id := [] |} os)
      (concat (imap relay_warning os)).
Proof.
  intros Hok. unfold decode_relay_agent_info.
  edestruct (relay_loop_reads data Hok (S (length data)) [] data) as (os & w' & Hr & He & Hw);
    [done|lia|]. exists os. split; [done|]. exists w'. split; [exact He|exact Hw].
Qed.

Section View.
Variable inet_ntop : Z -> list Z -> list Z.
Variable cm : cf_dhcpv4_concat_map_t.

Abbreviation data_of := (cf_dhcpv4__concat_map_get cm).
Abbreviation seen := (cf_dhcpv4__concat_map_has cm).

Definition ipv4_field (data : list Z) : list Z :=
  if zlen data <? 4 then [] else ipv4_text inet_ntop (take 4 data).

(** The warning of an option shorter than [n] bytes. *)
Definition short_warning (code n : Z) (msg path : string) : list parser_warning :=
  if seen code && (zlen (data_of code) <? n)
  then [warning "opt_len_short" msg (bs path) (data_of code)] else [].

Definition list_warning (code : Z) (path : string) : list parser_warning :=
  if zlen (data_of code) mod 4 =? 0 then []
  else [warning "opt_len_invalid" "option length is not a multiple of 4 bytes" (bs path)
          (drop (length (data_of code) / 4 * 4) (data_of code))].

(** How the options with a grammar of their own were read. *)
Record open_reads := {
  or_fqdn_warnings : list parser_warning;
  or_relay : list wire_option;
  or_bad_name : option Z;
  or_routes : list wire_route;
  or_fault : option (route_fault * list Z);
  or_ms_routes : list wire_route;
  or_ms_fault : option (route_fault * list Z)
}.

Record decoded_view (d : DhcpV4DecodedOptions) (r : open_reads) : Prop := {
  dv_message_type : d_message_type d = message_type_enum (first_byte (data_of 53));
  dv_message_type_name : d_message_type_name d = message_type_name (first_byte (data_of 53));
  dv_subnet_mask : d_subnet_mask d = ipv4_field (data_of 1);
  dv_routers : d_routers d = ipv4_list_of inet_ntop (data_of 3);
  dv_domain_name_servers : d_domain_name_servers d = ipv4_list_of inet_ntop (data_of 6);
  dv_host_name : d_host_name d = data_of 12;
  dv_domain_name : d_domain_name d = data_of 15;
  dv_requested_ip_address : d_requested_ip_address d = ipv4_field (data_of 50);
  dv_lease_time : d_ip_address_lease_time_seconds d = be_field 4 (data_of 51);
  dv_option_overload : d_option_overload d = first_byte (data_of 52);
  dv_server_identifier : d_server_identifier d = ipv4_field (data_of 54);
  dv_parameter_request_list : d_parameter_request_list d = data_of 55;
  dv_message : d_message d = data_of 56;
  dv_max_dhcp_message_size : d_max_dhcp_message_size d = be_field 2 (data_of 57);
  dv_t1 : d_renewal_time_t1_seconds d = be_field 4 (data_of 58);
  dv_t2 : d_rebinding_time_t2_seconds d = be_field 4 (data_of 59);
  dv_vendor_class_identifier : d_vendor_class_identifier d = data_of 60;
  dv_client_identifier_raw : d_client_identifier_raw d = cf_dhcpv4__set_bytes (data_of 61);
  dv_client_identifier_text : d_client_identifier_text d = client_text (data_of 61);
  dv_vendor : match d_vendor_specific_information d with
              | Some v => seen 43 = true /\ vendor_reads (data_of 60) (data_of 43) v
              | None => seen 43 = false
              end;
  dv_tftp_server_name : d_tftp_server_name d = data_of 66;
  dv_bootfile_name : d_bootfile_name d = data_of 67;
  dv_client_fqdn :
    if seen 81 then fqdn_reads (data_of 81) (d_client_fqdn d) (or_fqdn_warnings r)
    else d_client_fqdn d = None /\ or_fqdn_warnings r = [];
  dv_relay :
    subs_read (data_of 82) (or_relay r) /\
    d_relay_agent_information d =
      if seen 82 then
        Some (relay_info {| ra_raw_value := cf_dhcpv4__set_bytes (data_of 82);
                            ra_suboptions := []; ra_circuit_id := []; ra_remote_id := [];
                            ra_subscriber_id := [] |} (or_relay r))
      else None;
  dv_domain_search : names_read (data_of 119) 0 (d_domain_search d) (or_bad_name r);
  dv_routes :
    routes_read (data_of 121) (or_routes r) (or_fault r) /\
    d_classless_static_routes d = map (route_of inet_ntop) (or_routes r);
  dv_ms_routes :
    routes_read (data_of 249) (or_ms_routes r) (or_ms_fault r) /\
    d_microsoft_classless_static_routes d = map (route_of inet_ntop) (or_ms_routes r);
  dv_proxy_autodiscovery : d_proxy_autodiscovery d = data_of 252
}.

Definition ipv4_msg : string := "expected a 4-byte IPv4 address".
Definition u32_msg : string := "expected a 4-byte integer".

(** Every warning of the decoders, in order. *)
Definition decoded_warnings (d : DhcpV4DecodedOptions) (r : open_reads) : list parser_warning :=
  short_warning 53 1 "option 53 (message type) present but empty" "decoded.message_type" ++
  short_warning 1 4 ipv4_msg "decoded.subnet_mask" ++
  list_warning 3 "decoded.routers" ++
  list_warning 6 "decoded.domain_name_servers" ++
  short_warning 50 4 ipv4_msg "decoded.requested_ip_address" ++
  short_warning 51 4 u32_msg "decoded.ip_address_lease_time_seconds" ++
  short_warning 52 1 "option 52 (overload) present but empty" "decoded.option_overload" ++
  short_warning 54 4 ipv4_msg "decoded.server_identifier" ++
  short_warning 57 2 "expected a 2-byte integer" "decoded.max_dhcp_message_size" ++
  short_warning 58 4 u32_msg "decoded.renewal_time_t1_seconds" ++
  short_warning 59 4 u32_msg "decoded.rebinding_time_t2_seconds" ++
  or_fqdn_warnings r ++
  concat (imap relay_warning (or_relay r)) ++
  name_warnings (data_of 119) (bs "decoded.domain_search") (length (d_domain_search d)) (or_bad_name r) ++
  route_warnings (bs "decoded.classless_static_routes") (length (or_routes r)) (or_fault r) ++
  route_warnings (bs "decoded.microsoft_classless_static_routes") (length (or_ms_routes r)) (or_ms_fault r).

Hypothesis data_ok : forall c, bytes_ok (data_of c).

Lemma absent_data c : seen c = false -> data_of c = [].
Proof.
  unfold cf_dhcpv4__concat_map_has, cf_dhcpv4__concat_map_get. by destruct (list_find _ _) as [[]|].
Qed.

(** A block, by whether its option was seen. *)
Lemma if_seen_adds {A} c (a : A) w f v ws :
  (seen c = true -> adds (f (data_of c)) w v ws) ->
  (seen c = false -> v = a /\ ws = []) ->
  adds (if_seen cm c (a, w) f) w v ws.
Proof.
  unfold if_seen. destruct (seen c); [auto|]. intros _ H. destruct H as [-> ->]; [done|].
  apply adds_none.
Qed.

Lemma short_absent c n msg path : seen c = false -> short_warning c n msg path = [].
Proof. unfold short_warning. by intros ->. Qed.

Lemma opt_text_of c : opt_text cm c = Ret (data_of c).
Proof.
  unfold opt_text, if_seen. destruct (seen c) eqn:E; [|by rewrite absent_data].
  rewrite dup_strn_id. destruct (data_of c); [done|]. by replace (0 <? _) with true by (simpl; lia).
Qed.

Lemma opt_parameters_of : opt_parameter_request_list cm = Ret (data_of 55).
Proof.
  unfold opt_parameter_request_list, if_seen. destruct (seen 55) eqn:E; [|by rewrite absent_data].
  destruct (data_of 55); [done|]. by replace (0 <? _) with true by (simpl; lia).
Qed.

Lemma opt_client_id_of : opt_client_id cm = Ret (cf_dhcpv4__set_bytes (data_of 61), client_text (data_of 61)).
Proof.
  unfold opt_client_id, if_seen. destruct (seen 61) eqn:E; [by apply decode_client_id_of|].
  by rewrite absent_data.
Qed.

Lemma opt_ipv4_adds c path w :
  adds (opt_ipv4 inet_ntop cm c path w) w (ipv4_field (data_of c)) (short_warning c 4 ipv4_msg path).
Proof.
  apply if_seen_adds; intros E; [|by rewrite short_absent, absent_data].
  unfold decode_ipv4_scalar, ipv4_field, short_warning. rewrite E. cbn [andb].
  destruct (zlen (data_of c) <? 4) eqn:E4; [apply adds_warn|].
  rewrite format_ipv4_of by lia. apply adds_none.
Qed.

Lemma opt_ipv4_list_adds c path w :
  adds (opt_ipv4_list inet_ntop cm c path w) w (ipv4_list_of inet_ntop (data_of c)) (list_warning c path).
Proof.
  apply if_seen_adds; intros E; [apply decode_ipv4_list_of|].
  unfold list_warning. by rewrite absent_data.
Qed.

Lemma opt_u32_adds c path w :
  adds (opt_u32 cm c path w) w (be_field 4 (data_of c)) (short_warning c 4 u32_msg path).
Proof.
  apply if_seen_adds; intros E; [|by rewrite short_absent, absent_data].
  unfold decode_u32, be_field, short_warning. rewrite E. cbn [andb].
  destruct (zlen (data_of c) <? 4) eqn:E4; [apply adds_warn|].
  pose proof (data_ok c) as Hok. destruct (data_of c) as [|x [|y [|z [|t l]]]]; try done.
  change (adds (Ret (be32_of x y z t, w)) w (be_value 0 [x; y; z; t]) []).
  apply Forall_cons_iff in Hok as [? Hok]. apply Forall_cons_iff in Hok as [? Hok].
  apply Forall_cons_iff in Hok as [? Hok]. apply Forall_cons_iff in Hok as [? _].
  rewrite be32_of_eq by done. apply adds_none.
Qed.

Lemma opt_u16_adds c path w :
  adds (opt_u16 cm c path w) w (be_field 2 (data_of c)) (short_warning c 2 "expected a 2-byte integer" path).
Proof.
  apply if_seen_adds; intros E; [|by rewrite short_absent, absent_data].
  unfold decode_u16_as_u32, be_field, short_warning. rewrite E. cbn [andb].
  destruct (zlen (data_of c) <? 2) eqn:E4; [apply adds_warn|].
  pose proof (data_ok c) as Hok. destruct (data_of c) as [|x [|y l]]; try done.
  change (adds (Ret (be16_of x y, w)) w (be_value 0 [x; y]) []).
  apply Forall_cons_iff in Hok as [? Hok]. apply Forall_cons_iff in Hok as [? _].
  rewrite be16_of_eq by done. apply adds_none.
Qed.

Lemma type_name_text v : (if str_set (message_type_name v) then cf_dhcpv4__dup_str (message_type_name v) else []) =
  message_type_name v.
Proof. destruct v as [|p|p]; [done| |done]. do 4 (try (destruct p as [p|p|]; try done)). Qed.

Lemma opt_message_type_adds w :
  adds (opt_message_type cm w) w
    (message_type_enum (first_byte (data_of 53)), message_type_name (first_byte (data_of 53)))
    (short_warning 53 1 "option 53 (message type) present but empty" "decoded.message_type").
Proof.
  apply if_seen_adds; intros E; [|by rewrite short_absent, absent_data].
  unfold short_warning. rewrite E. cbn [andb].
  destruct (data_of 53) as [|b l]; [apply adds_warn|].
  replace (1 <=? zlen (b :: l)) with true by (cbn [length]; lia).
  replace (zlen (b :: l) <? 1) with false by (cbn [length]; lia).
  change (rd (b :: l) 0) with (Ret b). cbn [mbind exec_bind first_byte]. cbv zeta.
  rewrite type_name_text. apply adds_none.
Qed.

Lemma opt_overload_adds w :
  adds (opt_overload cm w) w (first_byte (data_of 52))
    (short_warning 52 1 "option 52 (overload) present but empty" "decoded.option_overload").
Proof.
  apply if_seen_adds; intros E; [|by rewrite short_absent, absent_data].
  unfold short_warning. rewrite E. cbn [andb].
  destruct (data_of 52) as [|b l]; [apply adds_warn|].
  replace (1 <=? zlen (b :: l)) with true by (cbn [length]; lia).
  replace (zlen (b :: l) <? 1) with false by (cbn [length]; lia). apply adds_none.
Qed.

Lemma opt_vendor_of : exists o, opt_vendor cm (data_of 60) = Ret o /\
  match o with
  | Some v => seen 43 = true /\ vendor_reads (data_of 60) (data_of 43) v
  | None => seen 43 = false
  end.
Proof.
  unfold opt_vendor, if_seen. destruct (seen 43); [|by exists None].
  destruct (decode_vendor_reads (data_of 60) (data_of 43) (data_ok 43)) as (v & -> & Hv).
  by exists (Some v).
Qed.

Lemma opt_fqdn_adds w : exists v ws, adds (opt_fqdn cm w) w v ws /\
  if seen 81 then fqdn_reads (data_of 81) v ws else v = None /\ ws = [].
Proof.
  unfold opt_fqdn, if_seen. destruct (seen 81).
  - destruct (decode_fqdn_adds (data_of 81) w (data_ok 81)) as (v & ws & ? & ?). by exists v, ws.
  - exists None, []. split; [apply adds_none|done].
Qed.

Lemma opt_relay_adds w : exists os, subs_read (data_of 82) os /\
  adds (opt_relay cm w) w
    (if seen 82 then
       Some (relay_info {| ra_raw_value := cf_dhcpv4__set_bytes (data_of 82); ra_suboptions := [];
                           ra_circuit_id := []; ra_remote_id := []; ra_subscriber_id := [] |} os)
     else None) (concat (imap relay_warning os)).
Proof.
  unfold opt_relay, if_seen. destruct (seen 82) eqn:E.
  - destruct (decode_relay_adds (data_of 82) w (data_ok 82)) as (os & Hr & w' & -> & Hw).
    exists os. split; [done|]. by exists w'.
  - exists []. rewrite absent_data by done. split; [constructor|apply adds_none].
Qed.

Lemma opt_domain_search_adds w : exists ns bad, names_read (data_of 119) 0 ns bad /\
  adds (opt_domain_search cm w) w ns
    (name_warnings (data_of 119) (bs "decoded.domain_search") (length ns) bad).
Proof.
  unfold opt_domain_search, if_seen. destruct (seen 119) eqn:E.
  - destruct (domain_names_read (data_of 119) w (bs "decoded.domain_search") (data_ok 119))
      as (ns & bad & w' & ? & -> & ?). exists ns, bad. split; [done|]. by exists w'.
  - exists [], None. rewrite absent_data by done. split; [by apply NR_end|apply adds_none].
Qed.

Lemma opt_routes_adds c path w : exists rs f, routes_read (data_of c) rs f /\
  adds (opt_routes inet_ntop cm c path w) w (map (route_of inet_ntop) rs)
    (route_warnings (bs path) (length rs) f).
Proof.
  unfold opt_routes, if_seen. destruct (seen c) eqn:E.
  - destruct (classless_routes_read inet_ntop (data_of c) w (bs path) (data_ok c))
      as (rs & f & w' & ? & -> & ?). exists rs, f. split; [done|]. by exists w'.
  - exists [], None. rewrite absent_data by done. split; [constructor|apply adds_none].
Qed.

(** The decoders read every option inside its data, end, and build the view of
    [decoded_view] with the warnings of [decoded_warnings]. *)
Lemma build_decoded_view w : exists d r,
  decoded_view d r /\ adds (cf_dhcpv4__build_decoded inet_ntop cm w) w d (decoded_warnings d r).
Proof.
  unfold cf_dhcpv4__build_decoded.
  destruct (opt_message_type_adds w) as (w1 & -> & H1). cbn [mbind exec_bind].
  destruct (opt_ipv4_adds 1 "decoded.subnet_mask" w1) as (w2 & -> & H2). cbn [mbind exec_bind].
  destruct (opt_ipv4_list_adds 3 "decoded.routers" w2) as (w3 & -> & H3). cbn [mbind exec_bind].
  destruct (opt_ipv4_list_adds 6 "decoded.domain_name_servers" w3) as (w4 & -> & H4).
  cbn [mbind exec_bind]. rewrite !opt_text_of. cbn [mbind exec_bind].
  destruct (opt_ipv4_adds 50 "decoded.requested_ip_address" w4) as (w5 & -> & H5). cbn [mbind exec_bind].
  destruct (opt_u32_adds 51 "decoded.ip_address_lease_time_seconds" w5) as (w6 & -> & H6).
  cbn [mbind exec_bind]. destruct (opt_overload_adds w6) as (w7 & -> & H7). cbn [mbind exec_bind].
  destruct (opt_ipv4_adds 54 "decoded.server_identifier" w7) as (w8 & -> & H8). cbn [mbind exec_bind].
  rewrite opt_parameters_of. cbn [mbind exec_bind].
  destruct (opt_u16_adds 57 "decoded.max_dhcp_message_size" w8) as (w9 & -> & H9). cbn [mbind exec_bind].
  destruct (opt_u32_adds 58 "decoded.renewal_time_t1_seconds" w9) as (w10 & -> & H10). cbn [mbind exec_bind].
  destruct (opt_u32_adds 59 "decoded.rebinding_time_t2_seconds" w10) as (w11 & -> & H11).
  cbn [mbind exec_bind]. rewrite opt_client_id_of. cbn [mbind exec_bind].
  destruct opt_vendor_of as (vi & -> & Hvi). cbn [mbind exec_bind].
  destruct (opt_fqdn_adds w11) as (fq & fws & (w12 & -> & H12) & Hfq). cbn [mbind exec_bind].
  destruct (opt_relay_adds w12) as (os & Hos & (w13 & -> & H13)). cbn [mbind exec_bind].
  destruct (opt_domain_search_adds w13) as (ns & bad & Hns & (w14 & -> & H14)). cbn [mbind exec_bind].
  destruct (opt_routes_adds 121 "decoded.classless_static_routes" w14) as (rs & f & Hrs & (w15 & -> & H15)).
  cbn [mbind exec_bind].
  destruct (opt_routes_adds 249 "decoded.microsoft_classless_static_routes" w15)
    as (ms & mf & Hms & (w16 & -> & H16)). cbn [mbind exec_bind].
  eexists _, {| or_fqdn_warnings := fws; or_relay := os; or_bad_name := bad; or_routes := rs;
                or_fault := f; or_ms_routes := ms; or_ms_fault := mf |}.
  split; [|eexists; split; [reflexivity|]].
  - by split.
  - rewrite H16, H15, H14, H13, H12, H11, H10, H9, H8, H7, H6, H5, H4, H3, H2, H1.
    unfold decoded_warnings. cbn [or_fqdn_warnings or_relay or_bad_name or_routes or_fault
      or_ms_routes or_ms_fault d_domain_search]. by rewrite <-!app_assoc.
Qed.
End View.
