(* ===== verification/Dhcp4.v ===== *)
(** * Dhcp4: the DHCPv4 parser ([libs/cloudflow-packet/cf_dhcpv4.c])

    The fixed BOOTP header, the walk over the option fields (the options area,
    and the file and sname fields under option 52), the interpretation and the
    entry point.  A field pointer is the list of the field's bytes, so a read
    past the field is an invalid access even where the payload goes on.  The
    payload pointer is not NULL, and allocations succeed. *)

From S2P Require Import Prelude IpFmt ParseUtil Dhcp4Util Dhcp4Decode.

Definition BOOTP_OP_OFF : Z := 0.
Definition BOOTP_HTYPE_OFF : Z := 1.
Definition BOOTP_HLEN_OFF : Z := 2.
Definition BOOTP_HOPS_OFF : Z := 3.
Definition BOOTP_XID_OFF : Z := 4.
Definition BOOTP_SECS_OFF : Z := 8.
Definition BOOTP_FLAGS_OFF : Z := 10.
Definition BOOTP_CIADDR_OFF : Z := 12.
Definition BOOTP_YIADDR_OFF : Z := 16.
Definition BOOTP_SIADDR_OFF : Z := 20.
Definition BOOTP_GIADDR_OFF : Z := 24.
Definition BOOTP_CHADDR_OFF : Z := 28.
Definition BOOTP_CHADDR_LEN : Z := 16.
Definition BOOTP_SNAME_OFF : Z := 44.
Definition BOOTP_SNAME_LEN : Z := 64.
Definition BOOTP_FILE_OFF : Z := 108.
Definition BOOTP_FILE_LEN : Z := 128.
Definition BOOTP_FIXED_LEN : Z := 236.
Definition BOOTP_COOKIE_OFF : Z := 236.
Definition BOOTP_COOKIE_LEN : Z := 4.
Definition BOOTP_OPTIONS_OFF : Z := 240.
Definition DHCP_MAGIC_COOKIE : list Z := [99; 130; 83; 99].

(** ** The raw option accumulator *)

Inductive SourceField : Type :=
| SOURCE_FIELD_UNSPECIFIED
| SOURCE_FIELD_OPTIONS
| SOURCE_FIELD_SNAME
| SOURCE_FIELD_FILE.

(** [ri_value] is NULL when it is empty. *)
Record raw_item_t := {
  ri_code : Z;
  ri_source_field : SourceField;
  ri_ordinal : Z;
  ri_value : list Z;
  ri_malformed : bool;
  ri_long_option_fragment : bool
}.

Record raw_item_list_t := {
  rl_items : list raw_item_t;
  rl_cap : Z
}.

Definition raw_item_list_init : raw_item_list_t := {| rl_items := []; rl_cap := 0 |}.

(** The result and the list; [value_ok] is the outcome of the value's own
    allocation. *)
Definition raw_item_list_append (realloc_ok value_ok : bool) (l : raw_item_list_t) (code : Z)
    (sf : SourceField) (ordinal : Z) (value : list Z) (malformed : bool) : Z * raw_item_list_t :=
  let push cap :=
    (1, {| rl_items := rl_items l ++
             [{| ri_code := code; ri_source_field := sf; ri_ordinal := ordinal;
                 ri_value := if value_ok then value else [];
                 ri_malformed := malformed; ri_long_option_fragment := false |}];
           rl_cap := cap |}) in
  if zlen (rl_items l) =? rl_cap l then
    let new_cap := if rl_cap l =? 0 then 8 else u64 (rl_cap l * 2) in
    if realloc_ok then push new_cap else (0, l)
  else push (rl_cap l).

(** What a walk updates: the items and the map shared by the three fields, the
    warnings, and [*overload_out]. *)
Record walk_t := {
  w_list : raw_item_list_t;
  w_cm : cf_dhcpv4_concat_map_t;
  w_warnings : cf_warn_list_t;
  w_overload : Z
}.

(** One option recorded: the item and its fragment, with memory available. *)
Definition record_option (code : Z) (sf : SourceField) (ordinal : Z) (value : list Z)
    (malformed : bool) (w : walk_t) : walk_t :=
  {| w_list := (raw_item_list_append true true (w_list w) code sf ordinal value malformed).2;
     w_cm := cf_dhcpv4__concat_map_append true true (w_cm w) code value;
     w_warnings := w_warnings w;
     w_overload := w_overload w |}.

Definition walk_warn (code msg : string) (path ctx : list Z) (w : walk_t) : walk_t :=
  {| w_list := w_list w; w_cm := w_cm w;
     w_warnings := cf_dhcpv4__warn (w_warnings w) code msg path ctx;
     w_overload := w_overload w |}.

Definition set_overload (v : Z) (w : walk_t) : walk_t :=
  {| w_list := w_list w; w_cm := w_cm w; w_warnings := w_warnings w; w_overload := v |}.

(** [has_out] says that [overload_out] is not NULL. *)
Fixpoint walk_loop (fuel : nat) (field : list Z) (sf : SourceField) (has_out : bool) (pos : Z)
    (ordinal : Z) (w : walk_t) : exec walk_t :=
  match fuel with
  | O => Spin
  | S fuel' =>
      let field_len := zlen field in
      if field_len <=? pos then Ret w
      else
        code ← rd field pos;
        if code =? 0 then walk_loop fuel' field sf has_out (pos + 1) ordinal w
        else if code =? 255 then Ret w
        else
          let path := indexed_path 40 (bs "raw_options") (length (rl_items (w_list w))) in
          if field_len <? pos + 2 then
            Ret (record_option code sf ordinal [] true
                   (walk_warn "opt_missing_length"
                      "option tag present but truncated before its length byte" path [code] w))
          else
            declared_len ← rd field (pos + 1);
            let avail := field_len - (pos + 2) in
            let malformed := avail <? declared_len in
            let use_len := if malformed then avail else declared_len in
            value ← rd_n field (pos + 2) use_len;
            let w := record_option code sf ordinal value malformed w in
            let w := if malformed then
                       walk_warn "opt_len_overrun"
                         "option length exceeds remaining bytes in this field" path value w
                     else w in
            w ← (if (code =? 52) && has_out && (1 <=? use_len) then
                   v ← rd value 0; Ret (set_overload v w)
                 else Ret w);
            if malformed then Ret w
            else walk_loop fuel' field sf has_out (pos + (2 + use_len)) (u32 (ordinal + 1)) w
  end.

Definition walk_options_field (field : list Z) (sf : SourceField) (has_out : bool) (w : walk_t)
    : exec walk_t :=
  walk_loop (S (length field)) field sf has_out 0 0 w.

(** ** The fixed header *)

Definition maybe_all_zero (b : list Z) : bool := forallb (fun x => x =? 0) b.

(** [None] is NULL. *)
Definition maybe_text_field (field : list Z) : option (list Z) :=
  let nul := length (c_str field) in
  if Nat.eqb nul 0 then None
  else if negb (cf_dhcpv4__is_printable (take nul field)) then None
  else if Nat.ltb nul (length field) && negb (maybe_all_zero (drop nul field)) then None
  else Some (cf_dhcpv4__dup_strn (take nul field)).

Record DhcpV4Header := {
  h_op : Z; h_htype : Z; h_hlen : Z; h_hops : Z; h_xid : Z; h_secs : Z; h_flags : Z;
  h_ciaddr : list Z; h_yiaddr : list Z; h_siaddr : list Z; h_giaddr : list Z;
  h_chaddr_raw : option (list Z);
  h_chaddr_mac : list Z;
  h_sname_raw : option (list Z);
  h_sname_text : list Z;
  h_file_raw : option (list Z);
  h_file_text : list Z;
  h_magic_cookie_present : bool
}.

(** A variable filled by a reader.  A reader that refuses leaves it as it was,
    unset or holding another field: that is an invalid access here. *)
Definition filled (m : exec (option Z)) : exec Z :=
  o ← m; match o with Some v => Ret v | None => Oob end.

Section Parse.
Variable inet_ntop : Z -> list Z -> list Z.

Definition build_header (payload : list Z) : exec DhcpV4Header :=
  op ← filled (cf_dhcpv4__get_u8 payload BOOTP_OP_OFF);
  htype ← filled (cf_dhcpv4__get_u8 payload BOOTP_HTYPE_OFF);
  hlen ← filled (cf_dhcpv4__get_u8 payload BOOTP_HLEN_OFF);
  hops ← filled (cf_dhcpv4__get_u8 payload BOOTP_HOPS_OFF);
  xid ← filled (cf_dhcpv4__get_be32 payload BOOTP_XID_OFF);
  secs ← filled (cf_dhcpv4__get_be16 payload BOOTP_SECS_OFF);
  flags ← filled (cf_dhcpv4__get_be16 payload BOOTP_FLAGS_OFF);
  ciaddr ← cf_dhcpv4__format_ipv4 inet_ntop (drop (Z.to_nat BOOTP_CIADDR_OFF) payload);
  yiaddr ← cf_dhcpv4__format_ipv4 inet_ntop (drop (Z.to_nat BOOTP_YIADDR_OFF) payload);
  siaddr ← cf_dhcpv4__format_ipv4 inet_ntop (drop (Z.to_nat BOOTP_SIADDR_OFF) payload);
  giaddr ← cf_dhcpv4__format_ipv4 inet_ntop (drop (Z.to_nat BOOTP_GIADDR_OFF) payload);
  chaddr ← rd_n payload BOOTP_CHADDR_OFF BOOTP_CHADDR_LEN;
  chaddr_mac ← (if (htype =? 1) && (hlen =? 6) then
                  macbuf ← cf_format_mac (take 6 chaddr); Ret (cf_dhcpv4__dup_str macbuf)
                else Ret []);
  sname ← rd_n payload BOOTP_SNAME_OFF BOOTP_SNAME_LEN;
  file ← rd_n payload BOOTP_FILE_OFF BOOTP_FILE_LEN;
  cookie ← (if BOOTP_OPTIONS_OFF <=? zlen payload then
              c ← rd_n payload BOOTP_COOKIE_OFF BOOTP_COOKIE_LEN;
              Ret (bool_decide (c = DHCP_MAGIC_COOKIE))
            else Ret false);
  Ret {| h_op := op; h_htype := htype; h_hlen := hlen; h_hops := hops; h_xid := xid;
         h_secs := secs; h_flags := flags;
         h_ciaddr := ciaddr; h_yiaddr := yiaddr; h_siaddr := siaddr; h_giaddr := giaddr;
         h_chaddr_raw := cf_dhcpv4__set_bytes chaddr;
         h_chaddr_mac := chaddr_mac;
         h_sname_raw := cf_dhcpv4__set_bytes sname;
         h_sname_text := match maybe_text_field sname with Some t => t | None => [] end;
         h_file_raw := cf_dhcpv4__set_bytes file;
         h_file_text := match maybe_text_field file with Some t => t | None => [] end;
         h_magic_cookie_present := cookie |}.

(** ** Interpretation *)

Definition event_type_for_message_type (mt : MessageType) : list Z :=
  match mt with
  | DISCOVER => bs "dhcpv4.discover.observed"
  | OFFER => bs "dhcpv4.offer.observed"
  | REQUEST => bs "dhcpv4.request.observed"
  | DECLINE => bs "dhcpv4.decline.observed"
  | ACK => bs "dhcpv4.ack.observed"
  | NAK => bs "dhcpv4.nak.observed"
  | RELEASE => bs "dhcpv4.release.observed"
  | INFORM => bs "dhcpv4.inform.observed"
  | FORCERENEW => bs "dhcpv4.forcerenew.observed"
  | LEASEQUERY => bs "dhcpv4.leasequery.observed"
  | LEASEUNASSIGNED => bs "dhcpv4.leaseunassigned.observed"
  | LEASEUNKNOWN => bs "dhcpv4.leaseunknown.observed"
  | LEASEACTIVE => bs "dhcpv4.leaseactive.observed"
  | MESSAGE_TYPE_UNSPECIFIED => bs "dhcpv4.packet.observed"
  end.

Record DhcpV4Interpretation := {
  i_event_type : list Z;
  i_transaction_key : list Z;
  i_normalized_client_key : list Z;
  i_lease_address : list Z;
  i_is_relayed : bool;
  i_is_broadcast : bool;
  i_is_renewal : bool;
  i_is_rebind : bool
}.

(** ["%08x"] of a 32-bit value. *)
Definition hex32 (v : Z) : list Z := concat (map hex_byte (be_bytes 4 v)).

Definition build_interpretation (hdr : DhcpV4Header) (decoded : DhcpV4DecodedOptions)
    (event_type : list Z) : DhcpV4Interpretation :=
  let client_hex :=
    match d_client_identifier_raw decoded with
    | Some id => if 0 <? zlen id then Some (cf_dhcpv4__hex_encode id) else None
    | None => None
    end in
  let normalized_client_key :=
    match client_hex with
    | Some hex => cf_dhcpv4__dup_str hex
    | None => if str_set (h_chaddr_mac hdr) then cf_dhcpv4__dup_str (h_chaddr_mac hdr)
              else cf_dhcpv4__dup_str []
    end in
  let xidhex := snprintf 9 (hex32 (h_xid hdr)) in
  let suffix := if str_set (h_chaddr_mac hdr) then Some (h_chaddr_mac hdr) else client_hex in
  let transaction_key :=
    match suffix with
    | Some suffix =>
        let n := zlen xidhex + 1 + zlen (c_str suffix) + 1 in
        snprintf n (xidhex ++ bs "-" ++ c_str suffix)
    | None => cf_dhcpv4__dup_str xidhex
    end in
  let lease_address :=
    if bool_decide (d_message_type decoded = OFFER) || bool_decide (d_message_type decoded = ACK)
    then cf_dhcpv4__dup_str (h_yiaddr hdr) else cf_dhcpv4__dup_str [] in
  let is_broadcast := negb (Z.land (h_flags hdr) 0x8000 =? 0) in
  let bare_request :=
    bool_decide (d_message_type decoded = REQUEST) &&
    negb (str_set (d_server_identifier decoded)) &&
    negb (str_set (d_requested_ip_address decoded)) in
  {| i_event_type := cf_dhcpv4__dup_str event_type;
     i_transaction_key := transaction_key;
     i_normalized_client_key := normalized_client_key;
     i_lease_address := lease_address;
     i_is_relayed := negb (bool_decide (c_str (h_giaddr hdr) = bs "0.0.0.0"));
     i_is_broadcast := is_broadcast;
     i_is_renewal := bare_request && negb is_broadcast;
     i_is_rebind := bare_request && is_broadcast |}.

(** ** The entry point *)

Record DhcpV4Option := {
  o_code : Z;
  o_name : list Z;
  o_length : Z;
  o_raw_value : option (list Z);
  o_source_field : SourceField;
  o_ordinal : Z;
  o_malformed : bool;
  o_long_option_fragment : bool
}.

Record DhcpV4PacketEvent := {
  ev_header : DhcpV4Header;
  ev_raw_options : list DhcpV4Option;
  ev_decoded : DhcpV4DecodedOptions;
  ev_interpretation : DhcpV4Interpretation;
  ev_parser_warnings : list parser_warning;
  ev_raw_dhcp_payload : option (list Z);
  ev_raw_payload_truncated : bool
}.

(** The double loop over the items: a code seen more than once is a fragment. *)
Definition dupes (items : list raw_item_t) (code : Z) : nat :=
  length (filter (fun it => ri_code it = code) items).

Definition mark_fragment (items : list raw_item_t) (it : raw_item_t) : raw_item_t :=
  if Nat.ltb 1 (dupes items (ri_code it)) then
    {| ri_code := ri_code it; ri_source_field := ri_source_field it; ri_ordinal := ri_ordinal it;
       ri_value := ri_value it; ri_malformed := ri_malformed it;
       ri_long_option_fragment := true |}
  else it.

Definition build_option (src : raw_item_t) : DhcpV4Option :=
  {| o_code := ri_code src;
     o_name := cf_dhcpv4__dup_str (cf_dhcpv4_option_name (ri_code src));
     o_length := u32 (zlen (ri_value src));
     o_raw_value := cf_dhcpv4__set_bytes (ri_value src);
     o_source_field := ri_source_field src;
     o_ordinal := ri_ordinal src;
     o_malformed := ri_malformed src;
     o_long_option_fragment := ri_long_option_fragment src |}.

(** The three walks. *)
Definition walk_fields (payload : list Z) (magic_cookie_present : bool) : exec walk_t :=
  let len := zlen payload in
  let w := {| w_list := raw_item_list_init; w_cm := cf_dhcpv4__concat_map_init;
              w_warnings := cf_warn_list_init; w_overload := 0 |} in
  w ← (if (BOOTP_OPTIONS_OFF <? len) && magic_cookie_present then
         field ← rd_n payload BOOTP_OPTIONS_OFF (len - BOOTP_OPTIONS_OFF);
         walk_options_field field SOURCE_FIELD_OPTIONS true w
       else Ret w);
  w ← (if negb (Z.land (w_overload w) 0x1 =? 0) then
         field ← rd_n payload BOOTP_FILE_OFF BOOTP_FILE_LEN;
         walk_options_field field SOURCE_FIELD_FILE false w
       else Ret w);
  if negb (Z.land (w_overload w) 0x2 =? 0) then
    field ← rd_n payload BOOTP_SNAME_OFF BOOTP_SNAME_LEN;
    walk_options_field field SOURCE_FIELD_SNAME false w
  else Ret w.

(** [None] is the NULL event; with it goes the event type, NULL on failure. *)
Definition cf_dhcpv4_parse (payload : list Z) : exec (option (DhcpV4PacketEvent * list Z)) :=
  if zlen payload <? BOOTP_FIXED_LEN then Ret None
  else
    hdr ← build_header payload;
    w ← walk_fields payload (h_magic_cookie_present hdr);
    let items := rl_items (w_list w) in
    let items := map (mark_fragment items) items in
    '(decoded, warnings) ← cf_dhcpv4__build_decoded inet_ntop (w_cm w) (w_warnings w);
    let derived_event_type := event_type_for_message_type (d_message_type decoded) in
    Ret (Some
      ({| ev_header := hdr;
          ev_raw_options := map build_option items;
          ev_decoded := decoded;
          ev_interpretation := build_interpretation hdr decoded derived_event_type;
          ev_parser_warnings := (cf_warn_list_take warnings).1;
          ev_raw_dhcp_payload := cf_dhcpv4__set_bytes payload;
          ev_raw_payload_truncated := false |}, derived_event_type)).
End Parse.
