(* ===== verification/Dhcp4Spec.v ===== *)
(** * Dhcp4Spec: what the DHCPv4 parser promises

    [field_reads] is the grammar of an option field (RFC 2132, with the
    resynchronisation of the source on a malformed option), independent of the
    walk; [walk_options_field] is shown to read exactly it.  The decoded view
    is then a function of the fragments of each code, and whole packets made
    by a reference encoder come back. *)

From S2P Require Import Prelude IpFmt ParseUtil Dhcp4Util Dhcp4Decode Dhcp4DecodeSpec Dhcp4.

(** ** The grammar of an option field *)

Inductive field_reads : list Z -> list wire_option -> Prop :=
| FR_empty : field_reads [] []
| FR_pad l os : field_reads l os -> field_reads (0 :: l) os
| FR_end l : field_reads (255 :: l) []
| FR_option c v l os :
    c <> 0 -> c <> 255 -> field_reads l os ->
    field_reads (c :: zlen v :: v ++ l) (sound c v :: os)
| FR_missing c :
    c <> 0 -> c <> 255 ->
    field_reads [c] [{| wo_code := c; wo_value := []; wo_fault := Some Missing_length |}]
| FR_overrun c n v :
    c <> 0 -> c <> 255 -> zlen v < n ->
    field_reads (c :: n :: v) [{| wo_code := c; wo_value := v; wo_fault := Some (Overrun n) |}].

(** A field has one reading. *)
Lemma field_reads_det l os1 os2 : field_reads l os1 -> field_reads l os2 -> os1 = os2.
Proof.
  intros H1. revert os2.
  induction H1 as [|l os H1 IH|l|c v l os Hc0 Hc1 H1 IH|c Hc0 Hc1|c n v Hc0 Hc1 Hn];
    intros os2 H2.
  - by inversion H2.
  - inversion H2; subst; try done. by apply IH.
  - inversion H2; subst; done.
  - inversion H2 as [|? ? H'| |c' v' l' os' ? ? H'|? ? ?|c' n' v' ? ? Hn']; subst; try done.
    + match goal with
      | H : v' ++ l' = v ++ l |- _ => apply app_inj_1 in H as [-> ->]; [|lia]
      end. by rewrite (IH os').
    + rewrite length_app in Hn'. lia.
  - inversion H2; subst; done.
  - inversion H2 as [|? ? H'| |c' v' l' os' ? ? H'|? ? ?|c' n' v' ? ? Hn']; subst; try done.
    rewrite length_app in Hn. lia.
Qed.

(** ** The effect of a list of options on the walk's state *)

Definition item_of (sf : SourceField) (i : nat) (o : wire_option) : raw_item_t :=
  {| ri_code := wo_code o; ri_source_field := sf; ri_ordinal := u32 (Z.of_nat i);
     ri_value := wo_value o; ri_malformed := is_malformed o; ri_long_option_fragment := false |}.

(** The warning of a malformed option, the [n]-th item of the packet. *)
Definition warning_of (n : nat) (o : wire_option) : list parser_warning :=
  match wo_fault o with
  | None => []
  | Some Missing_length =>
      [warning "opt_missing_length" "option tag present but truncated before its length byte"
         (indexed_path 40 (bs "raw_options") n) [wo_code o]]
  | Some (Overrun _) =>
      [warning "opt_len_overrun" "option length exceeds remaining bytes in this field"
         (indexed_path 40 (bs "raw_options") n) (wo_value o)]
  end.

(** [*overload_out] after the options. *)
Definition overload_step (v : Z) (o : wire_option) : Z :=
  if wo_code o =? 52 then match wo_value o with b :: _ => b | [] => v end else v.

Definition fragment_of (o : wire_option) : Z * list Z := (wo_code o, wo_value o).

Definition rl_ok (l : raw_item_list_t) : Prop :=
  zlen (rl_items l) <= rl_cap l <= 8 + 2 * zlen (rl_items l).

Lemma raw_append_items l c sf i v m :
  rl_items (raw_item_list_append true true l c sf i v m).2 =
  rl_items l ++ [{| ri_code := c; ri_source_field := sf; ri_ordinal := i; ri_value := v;
                    ri_malformed := m; ri_long_option_fragment := false |}].
Proof. unfold raw_item_list_append. by destruct (_ =? _). Qed.

Lemma raw_append_ok l c sf i v m :
  rl_ok l -> zlen (rl_items l) < 2 ^ 60 -> rl_ok (raw_item_list_append true true l c sf i v m).2.
Proof.
  unfold rl_ok. intros Hl Hs. rewrite raw_append_items, length_app. cbn [length].
  unfold raw_item_list_append. destruct (zlen (rl_items l) =? rl_cap l) eqn:E; cbn [snd rl_cap];
    [|lia]. destruct (rl_cap l =? 0) eqn:E0; [lia|]. rewrite u64_id; lia.
Qed.

(** A walk over [os], numbered from [i], took [w] to [w']. *)
Record walked (sf : SourceField) (has_out : bool) (i : nat) (os : list wire_option)
    (w w' : walk_t) : Prop := {
  wk_items : rl_items (w_list w') =
    rl_items (w_list w) ++ imap (fun k o => item_of sf (i + k) o) os;
  wk_cm : w_cm w' = append_all (w_cm w) (map fragment_of os);
  wk_warnings : wl_items (w_warnings w') =
    wl_items (w_warnings w) ++
    concat (imap (fun k o => warning_of (length (rl_items (w_list w)) + k) o) os);
  wk_overload : w_overload w' =
    if has_out then foldl overload_step (w_overload w) os else w_overload w;
  wk_room : rl_ok (w_list w) -> zlen (rl_items (w_list w)) + zlen os < 2 ^ 60 -> rl_ok (w_list w')
}.

Lemma walked_nil sf ho i w : walked sf ho i [] w w.
Proof. split; simpl; rewrite ?app_nil_r; try done. by destruct ho. Qed.

Lemma walked_cons sf ho i o os w w1 w2 :
  walked sf ho i [o] w w1 -> walked sf ho (S i) os w1 w2 -> walked sf ho i (o :: os) w w2.
Proof.
  intros [Hi Hc Hw Ho Hr] [Hi' Hc' Hw' Ho' Hr']. simpl in Hi, Hc, Hw, Ho, Hr.
  assert (length (rl_items (w_list w1)) = S (length (rl_items (w_list w)))) as Hlen.
  { rewrite Hi, length_app. simpl. lia. }
  split.
  - rewrite Hi', Hi, <-app_assoc, imap_cons. f_equal. cbn [app]. f_equal.
    apply imap_ext. intros k x _. simpl. f_equal. lia.
  - by rewrite Hc', Hc.
  - rewrite Hw', Hw, <-app_assoc, app_nil_r, imap_cons. f_equal. cbn [concat]. f_equal.
    f_equal. apply imap_ext. intros k x _. simpl. f_equal. rewrite Hlen. lia.
  - rewrite Ho', Ho. by destruct ho.
  - intros Hl Hs. cbn [length] in Hs. apply Hr'; [apply Hr; [done|lia]|]. rewrite Hlen. lia.
Qed.

Lemma walked_one sf (ho : bool) i o w w' :
  w_list w' = (raw_item_list_append true true (w_list w) (wo_code o) sf (u32 (Z.of_nat i))
                 (wo_value o) (is_malformed o)).2 ->
  w_cm w' = cf_dhcpv4__concat_map_append true true (w_cm w) (wo_code o) (wo_value o) ->
  wl_items (w_warnings w') =
    wl_items (w_warnings w) ++ warning_of (length (rl_items (w_list w))) o ->
  w_overload w' = (if ho then overload_step (w_overload w) o else w_overload w) ->
  walked sf ho i [o] w w'.
Proof.
  intros Hl Hc Hw Ho. split.
  - rewrite Hl, raw_append_items. simpl. by rewrite Nat.add_0_r.
  - done.
  - rewrite Hw. simpl. by rewrite Nat.add_0_r, app_nil_r.
  - done.
  - intros Hok Hs. rewrite Hl. apply raw_append_ok; [done|]. simpl in Hs. lia.
Qed.

Lemma overload_read ho c v w : bytes_ok v ->
  (if (c =? 52) && ho && (1 <=? zlen v) then x ← rd v 0; Ret (set_overload x w) else Ret w) =
  Ret (if ho then set_overload (overload_step (w_overload w) {| wo_code := c; wo_value := v; wo_fault := None |}) w
       else w).
Proof.
  intros Hv. unfold overload_step. cbn [wo_code wo_value].
  destruct w, ho, (c =? 52), v as [|x v]; try done.
  cbn [andb]. replace (1 <=? zlen (x :: v)) with true by (simpl; lia). done.
Qed.

Lemma walk_loop_reads field sf ho : bytes_ok field ->
  forall fuel pre rest i w, field = pre ++ rest -> (length rest < fuel)%nat ->
  exists os w', field_reads rest os /\
    walk_loop fuel field sf ho (zlen pre) (u32 (Z.of_nat i)) w = Ret w' /\
    walked sf ho i os w w'.
Proof.
  intros Hok. induction fuel as [|fuel IH]; intros pre rest i w Hf Hfuel; [lia|].
  assert (bytes_ok rest) as Hrest by (by rewrite Hf in Hok; apply Forall_app in Hok as [_ ?]).
  assert (zlen field = zlen pre + zlen rest) as Hlen by (rewrite Hf, length_app; lia).
  cbn [walk_loop]. rewrite Hlen.
  destruct rest as [|c rest].
  { exists [], w. split; [constructor|]. split; [|apply walked_nil].
    cbn [length]. by replace (zlen pre + Z.of_nat 0 <=? zlen pre) with true by lia. }
  cbn [length] in *. replace (_ <=? zlen pre) with false by lia.
  replace (rd field (zlen pre)) with (Ret c)
    by (rewrite Hf; replace (zlen pre) with (zlen pre + 0) by lia; by rewrite rd_suffix).
  xbind. apply Forall_cons_iff in Hrest as [Hc Hrest].
  destruct (c =? 0) eqn:E0.
  { assert (c = 0) as -> by lia.
    destruct (IH (pre ++ [0]) rest i w) as (os & w' & Hr & He & Hw); [by rewrite <-app_assoc|lia|].
    exists os, w'. split; [by constructor|]. split; [|done]. rewrite <-He. f_equal.
    rewrite length_app. simpl. lia. }
  destruct (c =? 255) eqn:E255.
  { assert (c = 255) as -> by lia. exists [], w. split; [constructor|].
    split; [done|apply walked_nil]. }
  destruct rest as [|n rest].
  { replace (_ <? zlen pre + 2) with true by (simpl; lia).
    exists [{| wo_code := c; wo_value := []; wo_fault := Some Missing_length |}]. eexists.
    split; [constructor; lia|]. split; [done|]. apply walked_one; try done.
    - cbn [record_option walk_warn w_warnings]. rewrite warn_items. done.
    - cbn. destruct ho; [|done]. unfold overload_step. simpl. by destruct (c =? 52). }
  cbn [length] in *. replace (_ <? zlen pre + 2) with false by lia.
  replace (rd field (zlen pre + 1)) with (Ret n) by (rewrite Hf; by rewrite rd_suffix).
  xbind. apply Forall_cons_iff in Hrest as [Hn Hrest]. unfold is_byte in Hc, Hn.
  replace (zlen pre + Z.of_nat (S (S (length rest))) - (zlen pre + 2)) with (zlen rest) by lia.
  destruct (zlen rest <? n) eqn:En.
  - replace (rd_n field (zlen pre + 2) (zlen rest)) with (Ret rest); [xbind|].
    2: { rewrite Hf, rd_n_suffix by (simpl; lia). rewrite slice_cons, slice_cons by lia.
         by rewrite slice_all. }
    rewrite overload_read by done. xbind.
    exists [{| wo_code := c; wo_value := rest; wo_fault := Some (Overrun n) |}]. eexists.
    split; [constructor; lia|]. split; [done|]. destruct ho; apply walked_one; try done;
      cbn [record_option walk_warn set_overload w_warnings]; by rewrite warn_items.
  - set (v := take (Z.to_nat n) rest). set (l := drop (Z.to_nat n) rest).
    assert (rest = v ++ l) as Hvl by (unfold v, l; by rewrite take_drop).
    assert (zlen v = n) as Hv by (unfold v; rewrite length_take; lia).
    replace (rd_n field (zlen pre + 2) n) with (Ret v); [xbind|].
    2: { rewrite Hf, rd_n_suffix by (simpl; lia). rewrite slice_cons, slice_cons by lia.
         unfold slice, v. by rewrite drop_0. }
    assert (bytes_ok v) as Hvok by (by apply Forall_take).
    replace (1 <=? n) with (1 <=? zlen v) by (by rewrite Hv).
    rewrite overload_read by done. xbind.
    match goal with |- context [walk_loop fuel field sf ho _ _ ?x] => set (w1 := x) end.
    assert (walked sf ho i [sound c v] w w1) as Hw1.
    { unfold w1. destruct ho; apply walked_one; try done; simpl; by rewrite app_nil_r. }
    destruct (IH (pre ++ [c; n] ++ v) l (S i) w1) as (os & w2 & Hr & He & Hw2).
    { by rewrite Hf, Hvl, <-!app_assoc. }
    { unfold l. rewrite length_drop. lia. }
    exists (sound c v :: os), w2. split; [rewrite Hvl, <-Hv; apply FR_option; [lia|lia|done]|].
    split; [|by eapply walked_cons]. rewrite <-He. f_equal.
    + rewrite !length_app. simpl. lia.
    + unfold u32. rewrite Zplus_mod_idemp_l. f_equal. lia.
Qed.

Lemma walk_options_reads field sf ho w : bytes_ok field ->
  exists os w', field_reads field os /\ walk_options_field field sf ho w = Ret w' /\
    walked sf ho 0 os w w'.
Proof.
  intros Hok. apply (walk_loop_reads field sf ho Hok (S (length field)) [] field 0%nat w); [done|lia].
Qed.

(** ** The fixed header *)

(** A field holds a text: printable bytes, then zeros to its end. *)
Definition text_field (field t : list Z) : Prop :=
  t <> [] /\ Forall (fun b => 32 <= b <= 126) t /\ exists n, field = t ++ replicate n 0.

Lemma c_str_split l : exists r, l = c_str l ++ r /\ (r = [] \/ exists r', r = 0 :: r').
Proof.
  induction l as [|b l (r & Hr & Hz)]; [by exists []; eauto|]. simpl.
  destruct (b =? 0) eqn:E.
  - exists (b :: l). split; [done|]. right. exists l. f_equal. lia.
  - exists r. split; [by rewrite Hr at 1|done].
Qed.

Lemma c_str_text t r : Forall (fun b => 32 <= b <= 126) t -> c_str (t ++ 0 :: r) = t /\ c_str t = t.
Proof.
  induction 1 as [|b t Hb _ [IH1 IH2]]; [done|]. simpl. replace (b =? 0) with false by lia.
  by rewrite IH1, IH2.
Qed.

Lemma printable_iff b : cf_dhcpv4__is_printable b = true <-> b <> [] /\ Forall (fun b => 32 <= b <= 126) b.
Proof.
  unfold cf_dhcpv4__is_printable, cf_is_printable. destruct b as [|x b]; [by split; [|intros []]|].
  replace (zlen (x :: b) =? 0) with false by (cbn [length]; lia).
  rewrite forallb_forall, Forall_forall. split.
  - intros H. split; [done|]. intros y Hy. specialize (H y Hy). lia.
  - intros [_ H] y Hy. specialize (H y Hy). lia.
Qed.

Lemma maybe_all_zero_iff b : maybe_all_zero b = true <-> b = replicate (length b) 0.
Proof.
  unfold maybe_all_zero. induction b as [|x b IH]; [done|]. simpl. rewrite andb_true_iff, IH.
  split; [intros [? ->]; f_equal; [lia|by rewrite length_replicate]|].
  intros [= -> Hb]. done.
Qed.

Lemma maybe_text_field_iff field t : maybe_text_field field = Some t <-> text_field field t.
Proof.
  unfold maybe_text_field, text_field. destruct (c_str_split field) as (r & Hr & Hz).
  set (nul := length (c_str field)).
  assert (take nul field = c_str field) as Ht
    by (pose proof (take_app_length (c_str field) r) as H; by rewrite <-Hr in H).
  assert (drop nul field = r) as Hd
    by (pose proof (drop_app_length (c_str field) r) as H; by rewrite <-Hr in H).
  assert (length field = (nul + length r)%nat) as Hl
    by (pose proof (length_app (c_str field) r) as H; by rewrite <-Hr in H).
  rewrite Ht, Hd, dup_strn_id. split.
  - destruct (Nat.eqb nul 0) eqn:E0; [done|].
    destruct (cf_dhcpv4__is_printable (c_str field)) eqn:Ep; [|done]. cbn [negb].
    apply printable_iff in Ep as [Hne Hp].
    destruct (Nat.ltb nul (length field) && negb (maybe_all_zero r)) eqn:Ez; [done|].
    intros [= <-]. split; [done|]. split; [done|]. exists (length r).
    rewrite Hr at 1. f_equal. destruct Hz as [->|[r' ->]]; [done|].
    apply maybe_all_zero_iff. destruct (maybe_all_zero _); [done|]. cbn [length] in *. lia.
  - intros (Hne & Hp & n & Hf).
    assert (c_str field = t) as Hc.
    { rewrite Hf. destruct n as [|n]; simpl; [rewrite app_nil_r|]; apply (c_str_text t (replicate n 0) Hp)
        || apply (c_str_text t [] Hp). }
    assert (cf_dhcpv4__is_printable t = true) as Hpr by (by apply printable_iff).
    rewrite Hc, Hpr. cbn [negb].
    replace (Nat.eqb nul 0) with false by (unfold nul; rewrite Hc; by destruct t).
    assert (maybe_all_zero r = true) as ->; [|by rewrite andb_false_r].
    apply maybe_all_zero_iff. rewrite Hr, Hc in Hf. apply app_inv_head in Hf as ->.
    by rewrite length_replicate.
Qed.

Lemma c_str_mac mac : bytes_ok mac -> c_str (mac_text mac) = mac_text mac.
Proof.
  intros Hm. assert (forall d, 0 <= d < 16 -> hex_digit d <> 0) as Hd.
  { intros d ?. unfold hex_digit. destruct (d <? 10); lia. }
  assert (forall b r, is_byte b -> c_str (hex_byte b ++ r) = hex_byte b ++ c_str r) as Hb.
  { intros b r Hb. unfold is_byte in Hb. unfold hex_byte. cbn [app c_str].
    pose proof (Hd (Z.shiftr b 4)). pose proof (Hd (Z.land b 15)).
    pose proof (land_range b 4 15 ltac:(lia) eq_refl).
    assert (0 <= Z.shiftr b 4 < 16).
    { rewrite Z.shiftr_div_pow2 by lia. pose proof (Z.div_pos b (2 ^ 4)).
      pose proof (Z.div_lt_upper_bound b (2 ^ 4) 16). lia. }
    replace (hex_digit (Z.shiftr b 4) =? 0) with false by lia.
    by replace (hex_digit (Z.land b 15) =? 0) with false by lia. }
  assert (forall r, c_str (bs ":" ++ r) = bs ":" ++ c_str r) as Hc by done.
  destruct mac as [|b0 [|b1 [|b2 [|b3 [|b4 [|b5 [|]]]]]]]; try done.
  repeat (apply Forall_cons_iff in Hm as [? Hm]). unfold mac_text.
  rewrite !Hb, !Hc, !Hb, !Hc, !Hb, !Hc, !Hb, !Hc, !Hb, !Hc by done.
  rewrite <-(app_nil_r (hex_byte b5)) at 1. by rewrite Hb.
Qed.

Section Spec.
Variable inet_ntop : Z -> list Z -> list Z.

Abbreviation num d off n := (be_value 0 (slice d off n)).

Record header_view (payload : list Z) (h : DhcpV4Header) : Prop := {
  hv_op : h_op h = num payload 0 1;
  hv_htype : h_htype h = num payload 1 1;
  hv_hlen : h_hlen h = num payload 2 1;
  hv_hops : h_hops h = num payload 3 1;
  hv_xid : h_xid h = num payload 4 4;
  hv_secs : h_secs h = num payload 8 2;
  hv_flags : h_flags h = num payload 10 2;
  hv_ciaddr : h_ciaddr h = ipv4_text inet_ntop (slice payload 12 4);
  hv_yiaddr : h_yiaddr h = ipv4_text inet_ntop (slice payload 16 4);
  hv_siaddr : h_siaddr h = ipv4_text inet_ntop (slice payload 20 4);
  hv_giaddr : h_giaddr h = ipv4_text inet_ntop (slice payload 24 4);
  hv_chaddr_raw : h_chaddr_raw h = Some (slice payload 28 16);
  hv_chaddr_mac : h_chaddr_mac h =
    if (h_htype h =? 1) && (h_hlen h =? 6) then mac_text (slice payload 28 6) else [];
  hv_sname_raw : h_sname_raw h = Some (slice payload 44 64);
  hv_sname_text : forall t, t <> [] -> h_sname_text h = t <-> text_field (slice payload 44 64) t;
  hv_file_raw : h_file_raw h = Some (slice payload 108 128);
  hv_file_text : forall t, t <> [] -> h_file_text h = t <-> text_field (slice payload 108 128) t;
  hv_cookie : h_magic_cookie_present h = bool_decide (slice payload 236 4 = DHCP_MAGIC_COOKIE)
}.

Lemma filled_at m d off n : m = Ret (be_at d off n) -> off + n <= zlen d ->
  filled m = Ret (num d off n).
Proof.
  intros -> H. unfold filled, be_at. by replace (off + n <=? zlen d) with true by lia.
Qed.

Lemma format_at payload off : 0 <= off -> off + 4 <= zlen payload ->
  cf_dhcpv4__format_ipv4 inet_ntop (drop (Z.to_nat off) payload) =
  Ret (ipv4_text inet_ntop (slice payload off 4)).
Proof. intros Ho H. by rewrite format_ipv4_of by (rewrite length_drop; lia). Qed.

Lemma set_bytes_slice payload off n : 0 <= off -> 0 < n -> off + n <= zlen payload ->
  cf_dhcpv4__set_bytes (slice payload off n) = Some (slice payload off n).
Proof.
  intros Ho Hn Hl. pose proof (length_slice payload off n Ho ltac:(lia) Hl) as H.
  destruct (slice payload off n); [simpl in H; lia|]. apply set_bytes_cons.
Qed.

Lemma field_text_iff field t : t <> [] ->
  (match maybe_text_field field with Some t => t | None => [] end) = t <-> text_field field t.
Proof.
  intros Ht. rewrite <-maybe_text_field_iff. destruct (maybe_text_field field) as [x|].
  - split; [by intros ->|by intros [= ->]].
  - split; [by intros <-|done].
Qed.

Lemma build_header_view payload : bytes_ok payload -> 236 <= zlen payload ->
  exists h, build_header inet_ntop payload = Ret h /\ header_view payload h.
Proof.
  intros Hok Hlen. unfold build_header.
  unfold BOOTP_OP_OFF, BOOTP_HTYPE_OFF, BOOTP_HLEN_OFF, BOOTP_HOPS_OFF, BOOTP_XID_OFF,
    BOOTP_SECS_OFF, BOOTP_FLAGS_OFF.
  assert (forall off, 0 <= off <= 3 ->
    filled (cf_dhcpv4__get_u8 payload off) = Ret (num payload off 1)) as H1.
  { intros off Ho. apply filled_at; [apply get_u8_at; [done|lia|lia]|lia]. }
  assert (forall off, 0 <= off <= 10 ->
    filled (cf_dhcpv4__get_be16 payload off) = Ret (num payload off 2)) as H2.
  { intros off Ho. apply filled_at; [apply get_be16_at; [done|lia|lia]|lia]. }
  rewrite !H1 by lia. xbind.
  rewrite (filled_at (cf_dhcpv4__get_be32 payload 4) payload 4 4)
    by (lia || (apply get_be32_at; [done|lia|lia])). xbind.
  rewrite !H2 by lia. xbind.
  rewrite !format_at by (unfold BOOTP_CIADDR_OFF, BOOTP_YIADDR_OFF, BOOTP_SIADDR_OFF,
    BOOTP_GIADDR_OFF; lia). xbind.
  unfold BOOTP_CHADDR_OFF, BOOTP_CHADDR_LEN, BOOTP_SNAME_OFF, BOOTP_SNAME_LEN, BOOTP_FILE_OFF,
    BOOTP_FILE_LEN, BOOTP_OPTIONS_OFF, BOOTP_COOKIE_OFF, BOOTP_COOKIE_LEN.
  rewrite (rd_n_ok payload 28 16) by lia. xbind.
  assert (take 6 (slice payload 28 16) = slice payload 28 6) as Ht
    by (unfold slice; by rewrite take_take).
  assert (length (slice payload 28 6) = 6%nat) as Hl6 by (by rewrite length_slice by lia).
  assert ((if (num payload 1 1 =? 1) && (num payload 2 1 =? 6) then
             macbuf ← cf_format_mac (take 6 (slice payload 28 16)); Ret (cf_dhcpv4__dup_str macbuf)
           else Ret []) =
          Ret (if (num payload 1 1 =? 1) && (num payload 2 1 =? 6)
               then mac_text (slice payload 28 6) else [])) as ->.
  { destruct (_ && _); [|done]. rewrite Ht, cf_format_mac_of by done. xbind.
    by rewrite dup_str_c, c_str_mac by (by apply slice_bytes_ok). }
  xbind. rewrite (rd_n_ok payload 44 64), (rd_n_ok payload 108 128) by lia. xbind.
  assert ((if 240 <=? zlen payload then
             c ← rd_n payload 236 4; Ret (bool_decide (c = DHCP_MAGIC_COOKIE))
           else Ret false) = Ret (bool_decide (slice payload 236 4 = DHCP_MAGIC_COOKIE))) as ->.
  { destruct (240 <=? zlen payload) eqn:E; [by rewrite rd_n_ok by lia|].
    f_equal. symmetry. apply bool_decide_eq_false. intros Hs.
    apply (f_equal length) in Hs. unfold slice in Hs. rewrite length_take, length_drop in Hs.
    change (length DHCP_MAGIC_COOKIE) with 4%nat in Hs. lia. }
  xbind. eexists. split; [reflexivity|].
  split; cbn [h_op h_htype h_hlen h_hops h_xid h_secs h_flags h_ciaddr h_yiaddr h_siaddr h_giaddr
    h_chaddr_raw h_chaddr_mac h_sname_raw h_sname_text h_file_raw h_file_text
    h_magic_cookie_present]; try done; try (apply set_bytes_slice; lia);
    intros; by apply field_text_iff.
Qed.

(** ** The options of a packet

    The options area is read after the magic cookie; option 52 there (its last
    occurrence with a value) adds the file field (bit 0) and the sname field
    (bit 1). *)

Record option_fields (payload : list Z) (oo fo so : list wire_option) : Prop := {
  of_options :
    if bool_decide (slice payload 236 4 = DHCP_MAGIC_COOKIE) && (240 <? zlen payload)
    then field_reads (drop 240 payload) oo else oo = [];
  of_file :
    if Z.land (foldl overload_step 0 oo) 1 =? 0 then fo = []
    else field_reads (slice payload 108 128) fo;
  of_sname :
    if Z.land (foldl overload_step 0 oo) 2 =? 0 then so = []
    else field_reads (slice payload 44 64) so
}.

Lemma option_fields_det payload oo fo so oo' fo' so' :
  option_fields payload oo fo so -> option_fields payload oo' fo' so' ->
  oo = oo' /\ fo = fo' /\ so = so'.
Proof.
  intros [Ho Hf Hs] [Ho' Hf' Hs']. assert (oo = oo') as <-.
  { destruct (_ && _); [by eapply field_reads_det|congruence]. }
  split; [done|]. split.
  - destruct (_ =? 0) in Hf, Hf'; [congruence|by eapply field_reads_det].
  - destruct (_ =? 0) in Hs, Hs'; [congruence|by eapply field_reads_det].
Qed.

Definition items_of (oo fo so : list wire_option) : list raw_item_t :=
  imap (item_of SOURCE_FIELD_OPTIONS) oo ++ imap (item_of SOURCE_FIELD_FILE) fo ++
  imap (item_of SOURCE_FIELD_SNAME) so.

(** A walk that may be left out. *)
Lemma walk_if (b : bool) payload off n sf ho w :
  bytes_ok payload -> (b = true -> 0 <= off /\ 0 <= n /\ off + n <= zlen payload) ->
  exists os w',
    (if b then field_reads (slice payload off n) os else os = []) /\
    (if b then field ← rd_n payload off n; walk_options_field field sf ho w else Ret w) = Ret w' /\
    walked sf ho 0 os w w'.
Proof.
  intros Hok Hl. destruct b; [|exists [], w; split; [done|]; split; [done|apply walked_nil]].
  destruct Hl as (? & ? & ?); [done|]. rewrite rd_n_ok by done. xbind.
  by apply walk_options_reads, slice_bytes_ok.
Qed.

Lemma walk_fields_view payload : bytes_ok payload -> 236 <= zlen payload ->
  exists oo fo so w, option_fields payload oo fo so /\
    walk_fields payload (bool_decide (slice payload 236 4 = DHCP_MAGIC_COOKIE)) = Ret w /\
    rl_items (w_list w) = items_of oo fo so /\
    w_cm w = append_all cf_dhcpv4__concat_map_init (map fragment_of (oo ++ fo ++ so)) /\
    wl_items (w_warnings w) = concat (imap warning_of (oo ++ fo ++ so)) /\
    (zlen (oo ++ fo ++ so) < 2 ^ 60 -> rl_ok (w_list w)).
Proof.
  intros Hok Hlen. unfold walk_fields, BOOTP_OPTIONS_OFF, BOOTP_FILE_OFF, BOOTP_FILE_LEN,
    BOOTP_SNAME_OFF, BOOTP_SNAME_LEN.
  set (cookie := bool_decide _). set (w0 := {| w_list := raw_item_list_init |}).
  destruct (walk_if ((240 <? zlen payload) && cookie) payload 240 (zlen payload - 240)
    SOURCE_FIELD_OPTIONS true w0) as (oo & w1 & Hoo & He1 & [Hi1 Hc1 Hw1 Ho1 Hr1]); [done|lia|].
  rewrite He1. xbind.
  destruct (walk_if (negb (Z.land (w_overload w1) 1 =? 0)) payload 108 128 SOURCE_FIELD_FILE false w1)
    as (fo & w2 & Hfo & He2 & [Hi2 Hc2 Hw2 Ho2 Hr2]); [done|lia|]. rewrite He2. xbind.
  destruct (walk_if (negb (Z.land (w_overload w2) 2 =? 0)) payload 44 64 SOURCE_FIELD_SNAME false w2)
    as (so & w3 & Hso & He3 & [Hi3 Hc3 Hw3 Ho3 Hr3]); [done|lia|].
  exists oo, fo, so, w3. rewrite Ho2 in Hso. rewrite Ho1 in Hfo, Hso. unfold w0 in Hfo, Hso.
  cbn [w_overload] in Hfo, Hso.
  split; [|split; [exact He3|]]; [|split; [|split; [|split]]].
  - split; fold cookie.
    + rewrite andb_comm. destruct (_ && _) eqn:E; [|done]. by rewrite slice_rest in Hoo by lia.
    + by destruct (Z.land (foldl overload_step 0 oo) 1 =? 0).
    + by destruct (Z.land (foldl overload_step 0 oo) 2 =? 0).
  - unfold items_of. by rewrite Hi3, Hi2, Hi1, <-app_assoc.
  - rewrite Hc3, Hc2, Hc1, !map_app. unfold append_all. by rewrite !foldl_app.
  - rewrite Hw3, Hw2, Hw1, Hi2, Hi1. unfold w0. cbn [w_list w_warnings raw_item_list_init rl_items
      cf_warn_list_init wl_items app]. rewrite !imap_app, !concat_app, <-app_assoc.
    rewrite !length_app, !length_imap.
    apply f_equal2; [done|apply f_equal2]; apply (f_equal (@concat _)), imap_ext; intros k o _;
      [done|]. cbn [compose]. by rewrite Nat.add_assoc.
  - rewrite !length_app. intros Hs. apply Hr3; [apply Hr2; [apply Hr1|]|];
      rewrite ?Hi2, ?Hi1, ?length_app, ?length_imap; simpl; try lia. done.
Qed.

(** What the event says of the [i]-th option of a field, in a packet with the
    options [all]. *)
Definition option_view (all : list wire_option) (sf : SourceField) (i : nat) (o : wire_option)
    : DhcpV4Option :=
  {| o_code := wo_code o;
     o_name := cf_dhcpv4__dup_str (cf_dhcpv4_option_name (wo_code o));
     o_length := zlen (wo_value o);
     o_raw_value := cf_dhcpv4__set_bytes (wo_value o);
     o_source_field := sf;
     o_ordinal := u32 (Z.of_nat i);
     o_malformed := is_malformed o;
     o_long_option_fragment :=
       Nat.ltb 1 (length (filter (fun x => x = wo_code o) (map wo_code all))) |}.

Definition option_views (oo fo so : list wire_option) : list DhcpV4Option :=
  let all := oo ++ fo ++ so in
  imap (option_view all SOURCE_FIELD_OPTIONS) oo ++ imap (option_view all SOURCE_FIELD_FILE) fo ++
  imap (option_view all SOURCE_FIELD_SNAME) so.

Lemma field_reads_values l os : field_reads l os -> bytes_ok l ->
  Forall (fun o => zlen (wo_value o) < 256 /\ bytes_ok (wo_value o)) os.
Proof.
  induction 1 as [|l os H IH|l|c v l os ? ? H IH|c|c n v ? ? Hn]; intros Hok.
  - constructor.
  - apply Forall_cons_iff in Hok as [_ Hok]. auto.
  - constructor.
  - apply Forall_cons_iff in Hok as [_ Hok]. apply Forall_cons_iff in Hok as [Hn Hok].
    apply Forall_app in Hok as [Hv Hl]. constructor; [|auto]. unfold is_byte in Hn. simpl. split; [lia|done].
  - repeat constructor.
  - apply Forall_cons_iff in Hok as [_ Hok]. apply Forall_cons_iff in Hok as [Hnb Hok].
    unfold is_byte in Hnb. constructor; [|constructor]. simpl. split; [lia|done].
Qed.

Lemma option_fields_values payload oo fo so : bytes_ok payload -> option_fields payload oo fo so ->
  Forall (fun o => zlen (wo_value o) < 256 /\ bytes_ok (wo_value o)) (oo ++ fo ++ so).
Proof.
  intros Hok [Ho Hf Hs]. apply Forall_app. split; [|apply Forall_app; split].
  - destruct (_ && _); [|by subst]. apply (field_reads_values _ _ Ho). by apply Forall_drop.
  - destruct (Z.land _ 1 =? 0); [by subst|]. apply (field_reads_values _ _ Hf). by apply slice_bytes_ok.
  - destruct (Z.land _ 2 =? 0); [by subst|]. apply (field_reads_values _ _ Hs). by apply slice_bytes_ok.
Qed.

Lemma items_codes oo fo so : map ri_code (items_of oo fo so) = map wo_code (oo ++ fo ++ so).
Proof.
  assert (forall sf os, map ri_code (imap (item_of sf) os) = map wo_code os) as H.
  { intros sf os. apply list_eq. intros i. rewrite !list_lookup_fmap, list_lookup_imap.
    by destruct (os !! i). }
  unfold items_of. by rewrite !map_app, !H.
Qed.

Lemma dupes_codes items c :
  dupes items c = length (filter (fun x => x = c) (map ri_code items)).
Proof.
  unfold dupes. induction items as [|it items IH]; [done|]. cbn [map].
  rewrite !filter_cons. destruct (decide (ri_code it = c)); simpl; by rewrite IH.
Qed.

Lemma built_options oo fo so :
  Forall (fun o => zlen (wo_value o) < 256 /\ bytes_ok (wo_value o)) (oo ++ fo ++ so) ->
  map build_option (map (mark_fragment (items_of oo fo so)) (items_of oo fo so)) =
  option_views oo fo so.
Proof.
  intros Hv. set (items := items_of oo fo so).
  assert (forall sf os, Forall (fun o => zlen (wo_value o) < 256 /\ bytes_ok (wo_value o)) os ->
    map build_option (map (mark_fragment items) (imap (item_of sf) os)) =
    imap (option_view (oo ++ fo ++ so) sf) os) as H.
  { intros sf os Hos. apply list_eq. intros i. rewrite !list_lookup_fmap, !list_lookup_imap.
    destruct (os !! i) as [o|] eqn:E; [|done]. simpl. f_equal.
    destruct (proj1 (Forall_lookup _ _) Hos _ _ E) as [Hl _].
    unfold mark_fragment, option_view, build_option. cbn [ri_code item_of].
    rewrite dupes_codes. unfold items. rewrite items_codes.
    destruct (Nat.ltb _ _) eqn:Ed; simpl; by rewrite u32_id by lia. }
  apply Forall_app in Hv as [Hoo Hv]. apply Forall_app in Hv as [Hfo Hso].
  unfold items at 2, items_of, option_views. by rewrite !map_app, !H.
Qed.

Definition cm_of (oo fo so : list wire_option) : cf_dhcpv4_concat_map_t :=
  append_all cf_dhcpv4__concat_map_init (map fragment_of (oo ++ fo ++ so)).

Lemma fragments_bytes_ok c os :
  Forall (fun o => zlen (wo_value o) < 256 /\ bytes_ok (wo_value o)) os ->
  bytes_ok (concat (fragments c (map fragment_of os))).
Proof.
  unfold fragments. induction 1 as [|o os [_ Ho] _ IH]; [constructor|]. cbn [map].
  rewrite filter_cons. destruct (decide _); [|done]. cbn [map concat]. by apply Forall_app.
Qed.

(** The event of a payload whose options are [oo], [fo] and [so]. *)
Record event_view (payload : list Z) (oo fo so : list wire_option) (r : open_reads)
    (ev : DhcpV4PacketEvent) : Prop := {
  ev_v_header : header_view payload (ev_header ev);
  ev_v_options : ev_raw_options ev = option_views oo fo so;
  ev_v_decoded : decoded_view inet_ntop (cm_of oo fo so) (ev_decoded ev) r;
  ev_v_interpretation : ev_interpretation ev =
    build_interpretation (ev_header ev) (ev_decoded ev)
      (event_type_for_message_type (d_message_type (ev_decoded ev)));
  ev_v_warnings : ev_parser_warnings ev =
    concat (imap warning_of (oo ++ fo ++ so)) ++
    decoded_warnings (cm_of oo fo so) (ev_decoded ev) r;
  ev_v_payload : ev_raw_dhcp_payload ev = Some payload;
  ev_v_truncated : ev_raw_payload_truncated ev = false
}.

Lemma parse_view payload : bytes_ok payload -> 236 <= zlen payload ->
  exists oo fo so r ev, option_fields payload oo fo so /\
    cf_dhcpv4_parse inet_ntop payload =
      Ret (Some (ev, event_type_for_message_type (d_message_type (ev_decoded ev)))) /\
    event_view payload oo fo so r ev.
Proof.
  intros Hok Hlen. unfold cf_dhcpv4_parse, BOOTP_FIXED_LEN.
  replace (zlen payload <? 236) with false by lia.
  destruct (build_header_view payload Hok Hlen) as (h & -> & Hh). xbind. rewrite (hv_cookie _ _ Hh).
  destruct (walk_fields_view payload Hok Hlen) as (oo & fo & so & w & Hf & -> & Hi & Hc & Hw & _). xbind.
  pose proof (option_fields_values _ _ _ _ Hok Hf) as Hv.
  destruct (build_decoded_view inet_ntop (w_cm w)) with (w := w_warnings w)
    as (d & r & Hd & w' & -> & Hw').
  { intros c. rewrite Hc, append_all_get. by apply fragments_bytes_ok. }
  xbind. match goal with |- context [Ret (Some (?X, event_type_for_message_type (d_message_type d)))] =>
    exists oo, fo, so, r, X end.
  split; [done|]. split; [reflexivity|].
  split; cbn [ev_header ev_raw_options ev_decoded ev_interpretation ev_parser_warnings
    ev_raw_dhcp_payload ev_raw_payload_truncated]; try done.
  - rewrite Hi. by apply built_options.
  - unfold cm_of. by rewrite <-Hc.
  - unfold cf_warn_list_take. cbn [fst]. by rewrite Hw', Hw, Hc.
  - destruct payload; [simpl in Hlen; lia|]. apply set_bytes_cons.
Qed.
End Spec.
