(* ===== verification/Dhcp4Properties.v ===== *)
(** * Dhcp4Properties: the DHCPv4 parser's theorems

    Whole packets: every payload is read by the grammar of [Dhcp4Spec], a
    packet made by a reference encoder (long options split as RFC 3396 says)
    comes back, and the interpretation says what it means.  Then the grammars
    of the option fields, domain names, routes and suboptions. *)

From S2P Require Import Prelude IpFmt ParseUtil Dhcp4Util Dhcp4Decode Dhcp4DecodeSpec Dhcp4 Dhcp4Spec.

(** ** [inet_ntop] on IPv4 addresses

    What libc documents of it, as far as the parser relies on it. *)

Record ntop4_ok (inet_ntop : Z -> list Z -> list Z) : Prop := {
  ntop4_text : forall ip, length ip = 4%nat -> bytes_ok ip ->
    inet_ntop 4 ip <> [] /\ c_str (inet_ntop 4 ip) = inet_ntop 4 ip;
  ntop4_inj : forall ip ip', length ip = 4%nat -> length ip' = 4%nat -> bytes_ok ip -> bytes_ok ip' ->
    inet_ntop 4 ip = inet_ntop 4 ip' -> ip = ip';
  ntop4_zero : inet_ntop 4 [0; 0; 0; 0] = bs "0.0.0.0"
}.

(** The dotted decimal form, which has these properties. *)
Definition dotted_quad (family : Z) (ip : list Z) : list Z :=
  match ip with
  | [a; b; c; d] => dec a ++ bs "." ++ dec b ++ bs "." ++ dec c ++ bs "." ++ dec d
  | _ => []
  end.

Definition no_dot_or_nul (l : list Z) : bool := forallb (fun x => negb (x =? 46) && negb (x =? 0)) l.

Lemma dec_byte_plain a : is_byte a -> no_dot_or_nul (dec a) = true /\ dec a <> [].
Proof.
  intros Ha. assert (forallb (fun a => no_dot_or_nul (dec a) && (0 <? zlen (dec a)))
    (map Z.of_nat (seq 0 256)) = true) as H by (vm_compute; done).
  rewrite forallb_forall in H. specialize (H a).
  assert (In a (map Z.of_nat (seq 0 256))) as Hin.
  { apply in_map_iff. exists (Z.to_nat a). unfold is_byte in Ha. split; [lia|]. apply in_seq. lia. }
  apply H in Hin. apply andb_true_iff in Hin as [? ?]. split; [done|]. by destruct (dec a).
Qed.

Lemma split_at_dot l1 l2 r1 r2 : no_dot_or_nul l1 = true -> no_dot_or_nul l2 = true ->
  l1 ++ 46 :: r1 = l2 ++ 46 :: r2 -> l1 = l2 /\ r1 = r2.
Proof.
  revert l2. induction l1 as [|x l1 IH]; intros [|y l2] H1 H2 E; simpl in *; simplify_eq; try done;
    try (apply andb_true_iff in H1 as [H1 ?]); try (apply andb_true_iff in H2 as [H2 ?]); try done.
  destruct (IH l2) as [-> ->]; done.
Qed.

Lemma c_str_plain l r : no_dot_or_nul l = true -> c_str (l ++ r) = l ++ c_str r.
Proof.
  induction l as [|x l IH]; [done|]. simpl. intros [[_ Hx]%andb_true_iff Hl]%andb_true_iff.
  destruct (x =? 0); [done|]. by rewrite IH.
Qed.

Lemma dotted_quad_ok : ntop4_ok dotted_quad.
Proof.
  split; [| |done].
  - intros [|a [|b [|c [|d [|]]]]] Hl Hok; try done.
    repeat (apply Forall_cons_iff in Hok as [? Hok]).
    destruct (dec_byte_plain a), (dec_byte_plain b), (dec_byte_plain c), (dec_byte_plain d); try done.
    unfold dotted_quad. split; [by destruct (dec a)|].
    rewrite c_str_plain by done.
    assert (forall x, c_str (bs "." ++ x) = bs "." ++ c_str x) as Hdot by done.
    rewrite Hdot, c_str_plain, Hdot, c_str_plain, Hdot by done.
    rewrite <-(app_nil_r (dec d)) at 1. rewrite c_str_plain by done. by rewrite app_nil_r.
  - intros [|a [|b [|c [|d [|]]]]] [|a' [|b' [|c' [|d' [|]]]]] Hl Hl' Hok Hok'; try done.
    repeat (apply Forall_cons_iff in Hok as [? Hok]). repeat (apply Forall_cons_iff in Hok' as [? Hok']).
    destruct (dec_byte_plain a), (dec_byte_plain b), (dec_byte_plain c),
      (dec_byte_plain a'), (dec_byte_plain b'), (dec_byte_plain c'); try done.
    unfold dotted_quad. intros E.
    apply split_at_dot in E as [->%dec_inj E]; [|done|done].
    apply split_at_dot in E as [->%dec_inj E]; [|done|done].
    apply split_at_dot in E as [->%dec_inj ->%dec_inj]; done.
Qed.

(** ** Keys *)

Lemma hex_digit_inj a b : 0 <= a < 16 -> 0 <= b < 16 -> hex_digit a = hex_digit b -> a = b.
Proof. unfold hex_digit. intros Ha Hb. destruct (a <? 10) eqn:?, (b <? 10) eqn:?; lia. Qed.

Lemma hex_digit_nonzero d : 0 <= d < 16 -> hex_digit d <> 0.
Proof. unfold hex_digit. destruct (d <? 10); lia. Qed.

Lemma nibbles b : is_byte b -> 0 <= Z.shiftr b 4 < 16 /\ 0 <= Z.land b 15 < 16 /\
  b = Z.shiftr b 4 * 16 + Z.land b 15.
Proof.
  unfold is_byte. intros Hb. change 15 with (Z.ones 4).
  rewrite Z.land_ones, Z.shiftr_div_pow2 by lia. change (2 ^ 4) with 16.
  pose proof (Z.div_pos b 16). pose proof (Z.div_lt_upper_bound b 16 16).
  pose proof (Z.mod_pos_bound b 16). pose proof (Z.div_mod b 16). lia.
Qed.

Lemma hex_byte_inj a b : is_byte a -> is_byte b -> hex_byte a = hex_byte b -> a = b.
Proof.
  intros Ha Hb. destruct (nibbles a Ha) as (? & ? & ?), (nibbles b Hb) as (? & ? & ?).
  unfold hex_byte. intros E. injection E as E1 E2.
  apply hex_digit_inj in E1; [|lia|lia]. apply hex_digit_inj in E2; [|lia|lia]. lia.
Qed.

Lemma hex_bytes_inj l l' : bytes_ok l -> bytes_ok l' ->
  concat (map hex_byte l) = concat (map hex_byte l') -> l = l'.
Proof.
  intros Hl. revert l'. induction Hl as [|b l Hb Hl IH]; intros l' Hl'.
  - destruct l'; [done|]. done.
  - destruct Hl' as [|b' l' Hb' Hl']; [done|]. cbn [map concat]. intros E.
    apply app_inj_1 in E as [E1 E2]; [|done]. f_equal; [by apply hex_byte_inj|by apply IH].
Qed.

Lemma mac_text_inj m m' : length m = 6%nat -> length m' = 6%nat -> bytes_ok m -> bytes_ok m' ->
  mac_text m = mac_text m' -> m = m'.
Proof.
  intros Hl Hl' Hm Hm' E. apply hex_bytes_inj; [done|done|].
  destruct m as [|? [|? [|? [|? [|? [|? [|]]]]]]]; try done.
  destruct m' as [|? [|? [|? [|? [|? [|? [|]]]]]]]; try done.
  unfold mac_text in E. simpl in E. simplify_eq. simpl. congruence.
Qed.

Lemma hex32_inj v v' : 0 <= v < 2 ^ 32 -> 0 <= v' < 2 ^ 32 -> hex32 v = hex32 v' -> v = v'.
Proof.
  intros Hv Hv' E. apply hex_bytes_inj in E; [|apply be_bytes_ok|apply be_bytes_ok].
  apply (f_equal (be_value 0)) in E. rewrite !be_value_be_bytes in E.
  change (256 ^ Z.of_nat 4) with (2 ^ 32) in E. lia.
Qed.

Lemma length_hex32 v : length (hex32 v) = 8%nat.
Proof. done. Qed.

(** ** A reference encoder

    An option longer than 255 bytes is sent as several options of its code
    (RFC 3396). *)

Fixpoint split_long (fuel : nat) (v : list Z) : list (list Z) :=
  match fuel with
  | O => [v]
  | S fuel => if zlen v <=? 255 then [v] else take 255 v :: split_long fuel (drop 255 v)
  end.

Definition wire_of (opts : list (Z * list Z)) : list wire_option :=
  concat (map (fun o => map (sound o.1) (split_long (length o.2) o.2)) opts).

Definition dhcp_packet (fixed : list Z) (opts : list (Z * list Z)) (pad : list Z) : list Z :=
  fixed ++ DHCP_MAGIC_COOKIE ++ concat (map wire_bytes (wire_of opts)) ++ 255 :: pad.

(** Every code but pad, end and the overload. *)
Definition plain_option (o : Z * list Z) : Prop :=
  is_byte o.1 /\ o.1 <> 0 /\ o.1 <> 255 /\ o.1 <> 52 /\ bytes_ok o.2.

Lemma split_long_ok fuel v : (length v <= 255 * S fuel)%nat ->
  concat (split_long fuel v) = v /\ Forall (fun f => zlen f <= 255) (split_long fuel v).
Proof.
  revert v. induction fuel as [|fuel IH]; intros v Hv; cbn [split_long].
  - split; [apply app_nil_r|]. constructor; [lia|constructor].
  - destruct (zlen v <=? 255) eqn:E.
    + split; [apply app_nil_r|]. constructor; [lia|constructor].
    + destruct (IH (drop 255 v)) as [IH1 IH2]; [rewrite length_drop; lia|]. cbn [concat]. rewrite IH1.
      split; [apply take_drop|]. constructor; [rewrite length_take; lia|done].
Qed.

Lemma wire_of_fragments c opts :
  concat (fragments c (map fragment_of (wire_of opts))) =
  concat (map snd (filter (fun o => o.1 = c) opts)).
Proof.
  unfold fragments, wire_of. induction opts as [|[c' v] opts IH]; [done|]. cbn [map concat fst snd].
  rewrite map_app, list.filter_app, map_app, concat_app, IH, filter_cons. cbn [fst].
  assert (forall fs, concat (map snd (filter (fun p : Z * list Z => p.1 = c)
     (map fragment_of (map (sound c') fs)))) = if decide (c' = c) then concat fs else []) as ->.
  { intros fs. induction fs as [|f fs IH']; cbn [map]; [by destruct (decide _)|].
    rewrite filter_cons. cbn [fragment_of sound wo_code wo_value fst].
    destruct (decide (c' = c)); cbn [map concat snd]; by rewrite IH'. }
  rewrite (proj1 (split_long_ok (length v) v ltac:(lia))). by destruct (decide (c' = c)).
Qed.

Lemma wire_of_plain opts : Forall plain_option opts ->
  Forall (fun o => wo_code o <> 0 /\ wo_code o <> 255 /\ wo_code o <> 52 /\ wo_fault o = None) (wire_of opts).
Proof.
  unfold wire_of. induction 1 as [|[c v] opts (_ & H0 & H1 & H2 & _) _ IH]; [constructor|].
  cbn [map concat]. apply Forall_app. split; [|done]. apply Forall_forall.
  intros o (f & <- & _)%in_map_iff. done.
Qed.

Lemma encoded_field_reads os pad :
  Forall (fun o => wo_code o <> 0 /\ wo_code o <> 255 /\ wo_code o <> 52 /\ wo_fault o = None) os ->
  field_reads (concat (map wire_bytes os) ++ 255 :: pad) os.
Proof.
  induction 1 as [|o os (H0 & H1 & _ & Hf) _ IH]; [apply FR_end|]. destruct o as [c v f].
  simpl in *. subst f. cbn [map concat]. rewrite <-app_assoc. by apply (FR_option c v).
Qed.

Lemma plain_overload os :
  Forall (fun o => wo_code o <> 0 /\ wo_code o <> 255 /\ wo_code o <> 52 /\ wo_fault o = None) os ->
  forall v, foldl overload_step v os = v.
Proof.
  induction 1 as [|o os (_ & _ & H & _) _ IH]; intros v; [done|]. simpl. rewrite IH.
  unfold overload_step. by replace (wo_code o =? 52) with false by lia.
Qed.

Lemma imap_nil {A B} (f : nat -> A -> list B) l :
  (forall k x, x ∈ l -> f k x = []) -> concat (imap f l) = [].
Proof.
  revert f. induction l as [|x l IH]; intros f H; [done|]. rewrite imap_cons. cbn [concat].
  rewrite H by left. apply IH. intros k y Hy. apply H. by right.
Qed.

Lemma plain_warnings os :
  Forall (fun o => wo_code o <> 0 /\ wo_code o <> 255 /\ wo_code o <> 52 /\ wo_fault o = None) os ->
  concat (imap warning_of os) = [].
Proof.
  intros H. apply imap_nil. intros k o Ho. rewrite Forall_forall in H.
  destruct (H o) as (_ & _ & _ & Hf); [by apply list_elem_of_In|]. unfold warning_of. by rewrite Hf.
Qed.

Lemma packet_options fixed opts pad :
  length fixed = 236%nat -> bytes_ok fixed -> bytes_ok pad -> Forall plain_option opts ->
  bytes_ok (dhcp_packet fixed opts pad) /\
  option_fields (dhcp_packet fixed opts pad) (wire_of opts) [] [].
Proof.
  intros Hl Hf Hp Ho. pose proof (wire_of_plain opts Ho) as Hw. unfold dhcp_packet. split.
  - apply Forall_app. split; [done|]. apply Forall_app. split.
    { repeat (apply Forall_cons_2; [done|]). constructor. }
    apply Forall_app. split; [|constructor; [done|done]]. clear Hw.
    unfold wire_of. induction Ho as [|[c v] opts (Hc & _ & _ & _ & Hv) _ IH]; [constructor|].
    cbn [map concat]. rewrite map_app, concat_app. apply Forall_app. split; [|done]. cbn [fst snd] in *.
    destruct (split_long_ok (length v) v) as [Hcat Hlen]; [lia|].
    rewrite <-Hcat in Hv. revert Hv Hlen. generalize (split_long (length v) v). intros fs Hv Hlen.
    clear -Hc Hv Hlen. induction Hlen as [|f fs Hlf Hlen IH]; [constructor|]. cbn [map concat] in *.
    apply Forall_app in Hv as [Hvf Hv]. cbn. apply Forall_cons_2; [done|]. apply Forall_cons_2.
    + unfold is_byte. lia.
    + apply Forall_app. split; [done|by apply IH].
  - set (d := fixed ++ _). assert (drop 240 d = concat (map wire_bytes (wire_of opts)) ++ 255 :: pad) as Hd.
    { unfold d. rewrite app_assoc. apply drop_app_length'. rewrite length_app, Hl. done. }
    split.
    + assert (slice d 236 4 = DHCP_MAGIC_COOKIE) as ->.
      { unfold d. rewrite slice_app_r by lia. rewrite Hl. by rewrite slice_app_l. }
      rewrite bool_decide_true by done. cbn [andb].
      replace (240 <? zlen d) with true.
      { rewrite Hd. by apply encoded_field_reads. }
      unfold d. rewrite !length_app, Hl. simpl. lia.
    + by rewrite plain_overload.
    + by rewrite plain_overload.
Qed.

(** ** Whole packets *)

(** C21. The parser ends on every payload without an access outside it.  It refuses
    exactly a payload shorter than the fixed header; otherwise the options are
    the only reading of the options area, and under option 52 of the file and
    sname fields, by the option grammar, and the event's header, raw options,
    decoded view, interpretation, warnings and payload are those of that
    reading, with one warning for each malformed option. *)
Theorem dhcpv4_parse_correct inet_ntop payload : bytes_ok payload ->
  (zlen payload < 236 -> cf_dhcpv4_parse inet_ntop payload = Ret None) /\
  (236 <= zlen payload ->
   exists oo fo so r ev, option_fields payload oo fo so /\
     (forall oo' fo' so', option_fields payload oo' fo' so' -> oo' = oo /\ fo' = fo /\ so' = so) /\
     cf_dhcpv4_parse inet_ntop payload =
       Ret (Some (ev, event_type_for_message_type (d_message_type (ev_decoded ev)))) /\
     event_view inet_ntop payload oo fo so r ev).
Proof.
  intros Hok. split.
  - intros Hl. unfold cf_dhcpv4_parse, BOOTP_FIXED_LEN. by replace (zlen payload <? 236) with true by lia.
  - intros Hl. destruct (parse_view inet_ntop payload Hok Hl) as (oo & fo & so & r & ev & Hf & He & Hv).
    exists oo, fo, so, r, ev. split; [done|]. split; [|done].
    intros oo' fo' so' H. by eapply option_fields_det.
Qed.

(** A packet whose options area is cut inside a message type option. *)
Definition cut_packet : list Z := replicate 236 0 ++ DHCP_MAGIC_COOKIE ++ [53; 2; 1].

Lemma zeros_ok n : bytes_ok (replicate n 0).
Proof. by apply Forall_replicate. Defined.

Lemma dhcpv4_parse_correct_witness :
  exists ev, cf_dhcpv4_parse dotted_quad cut_packet = Ret (Some (ev, bs "dhcpv4.discover.observed")) /\
    length (ev_parser_warnings ev) = 1%nat.
Proof.
  assert (bytes_ok cut_packet) as Hok.
  { apply Forall_app_2; [apply zeros_ok|]. repeat (apply Forall_cons_2; [done|]). constructor. }
  destruct (proj2 (dhcpv4_parse_correct dotted_quad cut_packet Hok) ltac:(vm_compute; done))
    as (oo & fo & so & r & ev & _ & _ & He & _).
  exists ev. vm_compute in He. injection He as <-. split; reflexivity.
Defined.

Lemma packet_parses inet_ntop fixed opts pad :
  length fixed = 236%nat -> bytes_ok fixed -> bytes_ok pad -> Forall plain_option opts ->
  exists r ev,
    cf_dhcpv4_parse inet_ntop (dhcp_packet fixed opts pad) =
      Ret (Some (ev, event_type_for_message_type (d_message_type (ev_decoded ev)))) /\
    header_view inet_ntop (dhcp_packet fixed opts pad) (ev_header ev) /\
    ev_raw_options ev = option_views (wire_of opts) [] [] /\
    decoded_view inet_ntop (cm_of (wire_of opts) [] []) (ev_decoded ev) r /\
    ev_parser_warnings ev = decoded_warnings (cm_of (wire_of opts) [] []) (ev_decoded ev) r /\
    (NoDup (map fst opts) -> forall c v, (c, v) ∈ opts ->
       cf_dhcpv4__concat_map_get (cm_of (wire_of opts) [] []) c = v).
Proof.
  intros Hl Hf Hp Ho. destruct (packet_options fixed opts pad Hl Hf Hp Ho) as [Hok Hof].
  destruct (parse_view inet_ntop _ Hok) as (oo & fo & so & r & ev & Hof' & He & [Hh Hr Hd _ Hw _ _]).
  { unfold dhcp_packet. rewrite length_app, Hl. lia. }
  destruct (option_fields_det _ _ _ _ _ _ _ Hof Hof') as (<- & <- & <-).
  exists r, ev. split_and!; try done.
  - rewrite Hw, !app_nil_r, plain_warnings by (by apply wire_of_plain). done.
  - intros Hnd c v Hin. unfold cm_of. rewrite append_all_get, !app_nil_r, wire_of_fragments.
    apply list_elem_of_split in Hin as (l1 & l2 & ->). rewrite map_app in Hnd. cbn [map fst] in Hnd.
    assert (forall l, c ∉ map fst l -> filter (fun o : Z * list Z => o.1 = c) l = []) as Hnone.
    { intros l Hc. induction l as [|[x y] l IH]; [done|]. rewrite filter_cons. cbn [fst map] in *.
      apply not_elem_of_cons in Hc as [? Hc]. rewrite decide_False by done. by apply IH. }
    apply list.NoDup_app in Hnd as (_ & Hd1 & Hnd). apply list.NoDup_cons in Hnd as [Hc2 _].
    rewrite list.filter_app, filter_cons. cbn [fst]. rewrite decide_True by done.
    rewrite (Hnone l1), (Hnone l2); [by rewrite app_nil_l; cbn; rewrite app_nil_r|done|].
    intros Hc1. apply (Hd1 c Hc1). left.
Qed.

(** C22. A packet made of any fixed header, the magic cookie, any list of options
    (values of any length, split into fragments), an end option and any bytes
    after it parses back: the raw options are the fragments in order with no
    warning of their own, and the decoded view is computed from exactly the
    values that were encoded. *)
Theorem dhcpv4_roundtrip inet_ntop fixed opts pad :
  length fixed = 236%nat -> bytes_ok fixed -> bytes_ok pad -> Forall plain_option opts ->
  exists r ev,
    cf_dhcpv4_parse inet_ntop (dhcp_packet fixed opts pad) =
      Ret (Some (ev, event_type_for_message_type (d_message_type (ev_decoded ev)))) /\
    header_view inet_ntop (dhcp_packet fixed opts pad) (ev_header ev) /\
    ev_raw_options ev = option_views (wire_of opts) [] [] /\
    decoded_view inet_ntop (cm_of (wire_of opts) [] []) (ev_decoded ev) r /\
    ev_parser_warnings ev = decoded_warnings (cm_of (wire_of opts) [] []) (ev_decoded ev) r /\
    (NoDup (map fst opts) -> forall c v, (c, v) ∈ opts ->
       cf_dhcpv4__concat_map_get (cm_of (wire_of opts) [] []) c = v).
Proof. apply packet_parses. Qed.

Definition long_name : list Z := replicate 300 97.

Lemma dhcpv4_roundtrip_witness :
  exists ev, cf_dhcpv4_parse dotted_quad
      (dhcp_packet (replicate 236 0) [(53, [2]); (12, long_name); (51, [0; 0; 1; 0])] []) =
    Ret (Some (ev, bs "dhcpv4.offer.observed")) /\
    d_host_name (ev_decoded ev) = long_name /\ d_ip_address_lease_time_seconds (ev_decoded ev) = 256 /\
    length (ev_raw_options ev) = 4%nat /\ ev_parser_warnings ev = [].
Proof.
  destruct (dhcpv4_roundtrip dotted_quad (replicate 236 0)
              [(53, [2]); (12, long_name); (51, [0; 0; 1; 0])] []) as (r & ev & He & _).
  - done.
  - apply zeros_ok.
  - constructor.
  - repeat apply Forall_cons_2; try constructor; repeat split; try done.
    + repeat (apply Forall_cons_2; [done|]). constructor.
    + by apply Forall_replicate.
    + repeat (apply Forall_cons_2; [done|]). constructor.
  - exists ev. vm_compute in He. injection He as <-. split; [reflexivity|].
    split_and!; vm_compute; reflexivity.
Defined.

(** ** The interpretation *)

Lemma str_set_ipv4 inet_ntop data : ntop4_ok inet_ntop -> bytes_ok data ->
  str_set (ipv4_field inet_ntop data) = (4 <=? zlen data).
Proof.
  intros [Ht _ _] Hok. unfold ipv4_field. destruct (zlen data <? 4) eqn:E; [simpl; lia|].
  destruct (Ht (take 4 data)) as [Hne Hc]; [rewrite length_take; lia|by apply Forall_take|].
  unfold ipv4_text. rewrite dup_str_c, Hc. rewrite <-Hc in Hne |- *.
  destruct (inet_ntop 4 (take 4 data)) as [|b l]; [done|]. simpl in *.
  destruct (b =? 0) eqn:Eb; [done|]. simpl. rewrite Eb. simpl. lia.
Qed.

Lemma message_type_enum_inv v : message_type_enum v = REQUEST <-> v = 3.
Proof.
  split; [|by intros ->]. destruct v as [|p|p]; try done.
  do 4 (try (destruct p as [p|p|]; try done)).
Qed.

Lemma interpretation_view inet_ntop cm payload h d r event_type :
  ntop4_ok inet_ntop -> bytes_ok payload -> 236 <= zlen payload ->
  (forall c, bytes_ok (cf_dhcpv4__concat_map_get cm c)) ->
  header_view inet_ntop payload h -> decoded_view inet_ntop cm d r ->
  let i := build_interpretation h d event_type in
  let get := cf_dhcpv4__concat_map_get cm in
  let type := message_type_enum (first_byte (get 53)) in
  let request := first_byte (get 53) = 3 /\ zlen (get 54) < 4 /\ zlen (get 50) < 4 in
  i_lease_address i =
    (if bool_decide (type = OFFER \/ type = ACK) then ipv4_text inet_ntop (slice payload 16 4) else []) /\
  (i_is_relayed i = true <-> slice payload 24 4 <> [0; 0; 0; 0]) /\
  i_is_broadcast i = Z.testbit (be_value 0 (slice payload 10 2)) 15 /\
  (i_is_rebind i = true <-> request /\ i_is_broadcast i = true) /\
  (i_is_renewal i = true <-> request /\ i_is_broadcast i = false).
Proof.
  intros Hn Hok Hlen Hget Hh Hd i get type request.
  assert (forall off, 0 <= off -> off + 4 <= 236 -> length (slice payload off 4) = 4%nat) as Hl4
    by (intros; by rewrite length_slice by lia).
  assert (forall off, bytes_ok (slice payload off 4)) as Hb4 by (intros; by apply slice_bytes_ok).
  assert (forall off, 0 <= off -> off + 4 <= 236 ->
    c_str (ipv4_text inet_ntop (slice payload off 4)) = inet_ntop 4 (slice payload off 4)) as Htext.
  { intros off H1 H2. unfold ipv4_text. destruct (ntop4_text _ Hn (slice payload off 4)) as [_ Hc]; auto.
    by rewrite dup_str_c, !Hc. }
  assert (i_is_broadcast i = Z.testbit (be_value 0 (slice payload 10 2)) 15) as Hbc.
  { unfold i, build_interpretation. cbn [i_is_broadcast]. rewrite (hv_flags _ _ _ Hh).
    set (v := be_value 0 _). change 32768 with (Z.shiftl 1 15). clear.
    destruct (Z.testbit v 15) eqn:E.
    - destruct (Z.land v (Z.shiftl 1 15) =? 0) eqn:El; [|done].
      assert (Z.testbit (Z.land v (Z.shiftl 1 15)) 15 = false) as H
        by (replace (Z.land v _) with 0 by lia; done).
      rewrite Z.land_spec, E in H. done.
    - replace (Z.land v (Z.shiftl 1 15)) with 0; [done|]. symmetry. apply Z.bits_inj'. intros n Hn.
      rewrite Z.land_spec, Z.bits_0, Z.shiftl_1_l, Z.pow2_bits_eqb by lia.
      destruct (15 =? n) eqn:E'; [|by rewrite andb_false_r]. replace n with 15 by lia. by rewrite E. }
  assert (bool_decide (d_message_type d = REQUEST) && negb (str_set (d_server_identifier d)) &&
          negb (str_set (d_requested_ip_address d)) = true <-> request) as Hreq.
  { rewrite (dv_server_identifier _ _ _ _ Hd), (dv_requested_ip_address _ _ _ _ Hd).
    rewrite !str_set_ipv4 by auto. rewrite (dv_message_type _ _ _ _ Hd).
    rewrite !andb_true_iff, bool_decide_eq_true, message_type_enum_inv.
    unfold request, get. lia. }
  split_and!.
  - unfold i, build_interpretation. cbn [i_lease_address]. rewrite (dv_message_type _ _ _ _ Hd). fold get type.
    replace (bool_decide (type = OFFER \/ type = ACK)) with
      (bool_decide (type = OFFER) || bool_decide (type = ACK)) by (by destruct type).
    destruct (_ || _); [|done]. rewrite dup_str_c, (hv_yiaddr _ _ _ Hh), Htext by lia.
    unfold ipv4_text. rewrite dup_str_c. symmetry. apply ntop4_text; auto. apply Hl4; lia.
  - unfold i, build_interpretation. cbn [i_is_relayed].
    rewrite negb_true_iff, bool_decide_eq_false, (hv_giaddr _ _ _ Hh), Htext by lia.
    rewrite <-(ntop4_zero _ Hn). split; intros H E; apply H; [by rewrite E|].
    apply (ntop4_inj _ Hn) in E; auto; [apply Hl4; lia|]. repeat (apply Forall_cons_2; [done|]). constructor.
  - done.
  - rewrite <-Hreq. unfold i, build_interpretation. cbn [i_is_rebind i_is_broadcast].
    by rewrite andb_true_iff.
  - rewrite <-Hreq. unfold i, build_interpretation. cbn [i_is_renewal i_is_broadcast].
    by rewrite andb_true_iff, negb_true_iff.
Qed.

Lemma parsed_inv inet_ntop payload ev et : bytes_ok payload ->
  cf_dhcpv4_parse inet_ntop payload = Ret (Some (ev, et)) ->
  236 <= zlen payload /\ et = event_type_for_message_type (d_message_type (ev_decoded ev)) /\
  exists oo fo so r, option_fields payload oo fo so /\ event_view inet_ntop payload oo fo so r ev.
Proof.
  intros Hok He. destruct (zlen payload <? 236) eqn:E.
  { unfold cf_dhcpv4_parse, BOOTP_FIXED_LEN in He. by rewrite E in He. }
  destruct (parse_view inet_ntop payload Hok ltac:(lia)) as (oo & fo & so & r & ev' & Hf & He' & Hv).
  rewrite He' in He. injection He as -> <-. split; [lia|]. split; [done|]. by exists oo, fo, so, r.
Qed.

Lemma cm_of_bytes_ok payload oo fo so c : bytes_ok payload -> option_fields payload oo fo so ->
  bytes_ok (cf_dhcpv4__concat_map_get (cm_of oo fo so) c).
Proof.
  intros Hok Hf. unfold cm_of. rewrite append_all_get. apply fragments_bytes_ok.
  by eapply option_fields_values.
Qed.

(** The interpretation of a parsed packet: the lease address is the address
    offered or acknowledged; the packet was relayed exactly when its giaddr is
    not zero; broadcast is the top bit of the flags; a renewal or a rebind is
    a REQUEST without a whole server identifier and without a whole requested
    address, the one when it is not broadcast and the other when it is. *)
Theorem dhcpv4_interpretation_correct inet_ntop payload ev et :
  ntop4_ok inet_ntop -> bytes_ok payload ->
  cf_dhcpv4_parse inet_ntop payload = Ret (Some (ev, et)) ->
  exists oo fo so, option_fields payload oo fo so /\
  let i := ev_interpretation ev in
  let get := cf_dhcpv4__concat_map_get (cm_of oo fo so) in
  let type := message_type_enum (first_byte (get 53)) in
  let request := first_byte (get 53) = 3 /\ zlen (get 54) < 4 /\ zlen (get 50) < 4 in
  i_event_type i = c_str et /\ et = event_type_for_message_type type /\
  i_lease_address i =
    (if bool_decide (type = OFFER \/ type = ACK) then ipv4_text inet_ntop (slice payload 16 4) else []) /\
  (i_is_relayed i = true <-> slice payload 24 4 <> [0; 0; 0; 0]) /\
  i_is_broadcast i = Z.testbit (be_value 0 (slice payload 10 2)) 15 /\
  (i_is_rebind i = true <-> request /\ i_is_broadcast i = true) /\
  (i_is_renewal i = true <-> request /\ i_is_broadcast i = false).
Proof.
  intros Hn Hok He. destruct (parsed_inv _ _ _ _ Hok He) as (Hl & -> & oo & fo & so & r & Hf & [Hh _ Hd Hi _ _ _]).
  exists oo, fo, so. split; [done|]. rewrite Hi. intros i get type request.
  split; [apply dup_str_c|]. split; [unfold type, get; by rewrite (dv_message_type _ _ _ _ Hd)|].
  apply (interpretation_view inet_ntop (cm_of oo fo so) payload (ev_header ev) (ev_decoded ev) r); try done.
  intros c. by eapply cm_of_bytes_ok.
Qed.

(** A relayed REQUEST that carries neither identifier nor address. *)
Definition renew_packet : list Z :=
  dhcp_packet (replicate 24 0 ++ [10; 0; 0; 1] ++ replicate 208 0) [(53, [3])] [].

Lemma renew_packet_ok : bytes_ok renew_packet.
Proof. apply bytes_okb. vm_compute. reflexivity. Qed.

Lemma dhcpv4_interpretation_correct_witness :
  exists ev et, cf_dhcpv4_parse dotted_quad renew_packet = Ret (Some (ev, et)) /\
    i_is_relayed (ev_interpretation ev) = true /\ i_is_renewal (ev_interpretation ev) = true.
Proof.
  assert (exists ev et, cf_dhcpv4_parse dotted_quad renew_packet = Ret (Some (ev, et))) as (ev & et & He)
    by (vm_compute; eauto).
  destruct (dhcpv4_interpretation_correct dotted_quad renew_packet ev et dotted_quad_ok renew_packet_ok He)
    as (oo & fo & so & _ & _ & _ & _ & Hr & _ & _ & _).
  exists ev, et. split; [exact He|]. split; [apply Hr; vm_compute; discriminate|].
  vm_compute in He. injection He as <- _. reflexivity.
Defined.

(** ** Transaction keys *)

Lemma hex32_no_nul v : c_str (hex32 v) = hex32 v.
Proof.
  assert (forall b r, is_byte b -> c_str (hex_byte b ++ r) = hex_byte b ++ c_str r) as Hb.
  { intros b r Hb. destruct (nibbles b Hb) as (H1 & H2 & _). unfold hex_byte. cbn [app c_str].
    pose proof (hex_digit_nonzero _ H1). pose proof (hex_digit_nonzero _ H2).
    replace (hex_digit (Z.shiftr b 4) =? 0) with false by lia.
    by replace (hex_digit (Z.land b 15) =? 0) with false by lia. }
  unfold hex32. generalize (be_bytes_ok 4 v). generalize (be_bytes 4 v). intros l Hl.
  induction Hl as [|b l Hl _ IH]; [done|]. cbn [map concat]. by rewrite Hb, IH.
Qed.

Lemma transaction_key_of h d et :
  i_transaction_key (build_interpretation h d et) =
  hex32 (h_xid h) ++
  match (if str_set (h_chaddr_mac h) then Some (h_chaddr_mac h)
         else match d_client_identifier_raw d with
              | Some id => if 0 <? zlen id then Some (cf_dhcpv4__hex_encode id) else None
              | None => None
              end) with
  | Some s => bs "-" ++ c_str s
  | None => []
  end.
Proof.
  unfold build_interpretation. cbn [i_transaction_key].
  assert (snprintf 9 (hex32 (h_xid h)) = hex32 (h_xid h)) as -> by done.
  destruct (if str_set (h_chaddr_mac h) then _ else _) as [s|].
  - unfold snprintf. apply take_ge. rewrite !length_app. cbn [length bs]. lia.
  - by rewrite dup_str_c, hex32_no_nul, app_nil_r.
Qed.

(** The client has an Ethernet address in [chaddr]. *)
Definition has_mac (payload : list Z) : Prop := slice payload 1 2 = [1; 6].

Lemma has_mac_text inet_ntop payload h : bytes_ok payload -> 236 <= zlen payload ->
  header_view inet_ntop payload h -> has_mac payload ->
  h_chaddr_mac h = mac_text (slice payload 28 6) /\ str_set (h_chaddr_mac h) = true /\
  c_str (h_chaddr_mac h) = h_chaddr_mac h.
Proof.
  intros Hok Hl Hh Hm. unfold has_mac, slice in Hm.
  assert (slice payload 1 1 = [1] /\ slice payload 2 1 = [6]) as [H1 H2].
  { unfold slice. change (Z.to_nat 2) with 2%nat in *. change (Z.to_nat 1) with 1%nat in *.
    destruct payload as [|? [|? [|? ?]]]; try done. simpl in *. simplify_eq. done. }
  rewrite (hv_chaddr_mac _ _ _ Hh), (hv_htype _ _ _ Hh), (hv_hlen _ _ _ Hh), H1, H2. cbn [be_value].
  change ((0 * 256 + 1 =? 1) && (0 * 256 + 6 =? 6)) with true. cbv iota. split; [done|].
  assert (length (slice payload 28 6) = 6%nat) as H6 by (by rewrite length_slice by lia).
  pose proof (slice_bytes_ok payload 28 6 Hok) as Hb. split; [|by apply c_str_mac].
  destruct (slice payload 28 6) as [|b0 [|b1 [|b2 [|b3 [|b4 [|b5 [|]]]]]]]; try done.
  apply Forall_cons_iff in Hb as [Hb _]. destruct (nibbles b0 Hb) as (Hn & _ & _).
  pose proof (hex_digit_nonzero _ Hn). unfold mac_text, hex_byte. cbn [app str_set].
  by replace (hex_digit (Z.shiftr b0 4) =? 0) with false by lia.
Qed.

(** The transaction key separates transactions: packets with one key have one
    transaction id, and two packets of Ethernet clients have one key exactly
    when they have one transaction id and one hardware address, whatever
    client identifier each of them carries. *)
Theorem transaction_key_correct inet_ntop p1 p2 ev1 et1 ev2 et2 :
  bytes_ok p1 -> bytes_ok p2 ->
  cf_dhcpv4_parse inet_ntop p1 = Ret (Some (ev1, et1)) ->
  cf_dhcpv4_parse inet_ntop p2 = Ret (Some (ev2, et2)) ->
  let key1 := i_transaction_key (ev_interpretation ev1) in
  let key2 := i_transaction_key (ev_interpretation ev2) in
  (key1 = key2 -> h_xid (ev_header ev1) = h_xid (ev_header ev2)) /\
  (has_mac p1 -> has_mac p2 ->
   key1 = key2 <->
   h_xid (ev_header ev1) = h_xid (ev_header ev2) /\ slice p1 28 6 = slice p2 28 6).
Proof.
  intros Hok1 Hok2 He1 He2.
  destruct (parsed_inv _ _ _ _ Hok1 He1) as (Hl1 & _ & oo1 & fo1 & so1 & r1 & _ & [Hh1 _ _ Hi1 _ _ _]).
  destruct (parsed_inv _ _ _ _ Hok2 He2) as (Hl2 & _ & oo2 & fo2 & so2 & r2 & _ & [Hh2 _ _ Hi2 _ _ _]).
  rewrite Hi1, Hi2. cbv zeta. rewrite !transaction_key_of.
  assert (forall p h, bytes_ok p -> 236 <= zlen p -> header_view inet_ntop p h -> 0 <= h_xid h < 2 ^ 32) as Hx.
  { intros p h Hok Hl Hh. rewrite (hv_xid _ _ _ Hh).
    pose proof (be_value_bound (slice p 4 4) 0 (slice_bytes_ok _ _ _ Hok)) as H.
    rewrite zlen_slice in H by lia. lia. }
  pose proof (Hx _ _ Hok1 Hl1 Hh1). pose proof (Hx _ _ Hok2 Hl2 Hh2). split.
  - intros E. apply app_inj_1 in E as [E _]; [|done]. by apply hex32_inj in E.
  - intros Hm1 Hm2. destruct (has_mac_text _ _ _ Hok1 Hl1 Hh1 Hm1) as (Ht1 & -> & ->).
    destruct (has_mac_text _ _ _ Hok2 Hl2 Hh2 Hm2) as (Ht2 & -> & ->).
    rewrite Ht1, Ht2. split; [|by intros [-> ->]].
    intros E. apply app_inj_1 in E as [E1 E2]; [|done]. apply hex32_inj in E1; [|done|done].
    split; [done|]. apply app_inv_head in E2.
    apply mac_text_inj in E2; [done|by rewrite length_slice by lia|by rewrite length_slice by lia| |];
      by apply slice_bytes_ok.
Qed.

Definition ethernet_packet (opts : list (Z * list Z)) : list Z :=
  dhcp_packet ([1; 1; 6; 0; 222; 173; 190; 239] ++ replicate 20 0 ++ [2; 0; 0; 0; 0; 9] ++ replicate 202 0)
    opts [].

Lemma transaction_key_correct_witness :
  exists ev1 et1 ev2 et2,
    cf_dhcpv4_parse dotted_quad (ethernet_packet [(53, [1])]) = Ret (Some (ev1, et1)) /\
    cf_dhcpv4_parse dotted_quad (ethernet_packet [(53, [2]); (61, [0; 7])]) = Ret (Some (ev2, et2)) /\
    i_transaction_key (ev_interpretation ev1) = i_transaction_key (ev_interpretation ev2).
Proof.
  assert (exists ev et, cf_dhcpv4_parse dotted_quad (ethernet_packet [(53, [1])]) = Ret (Some (ev, et)))
    as (ev1 & et1 & He1) by (vm_compute; eauto).
  assert (exists ev et, cf_dhcpv4_parse dotted_quad (ethernet_packet [(53, [2]); (61, [0; 7])]) =
    Ret (Some (ev, et))) as (ev2 & et2 & He2) by (vm_compute; eauto).
  exists ev1, et1, ev2, et2. split; [exact He1|]. split; [exact He2|].
  assert (bytes_ok (ethernet_packet [(53, [1])])) as H1 by (apply bytes_okb; vm_compute; reflexivity).
  assert (bytes_ok (ethernet_packet [(53, [2]); (61, [0; 7])])) as H2
    by (apply bytes_okb; vm_compute; reflexivity).
  apply (transaction_key_correct dotted_quad _ _ ev1 et1 ev2 et2 H1 H2 He1 He2);
    [reflexivity|reflexivity|].
  vm_compute in He1, He2. injection He1 as <- _. injection He2 as <- _. split; reflexivity.
Defined.

(** ** The grammars *)

(** The option walk reads any field inside its bytes, ends, and finds the one
    reading of the option grammar: one item an option in order, numbered from
    zero, one fragment an option for the map, one warning a malformed option
    with the item's index and at most 16 bytes of context, and the last value
    of option 52; the item array stays inside its allocation. *)
Theorem walk_options_correct field sf has_out w :
  bytes_ok field -> rl_ok (w_list w) -> zlen (rl_items (w_list w)) + zlen field < 2 ^ 60 ->
  exists os w', field_reads field os /\ (forall os', field_reads field os' -> os' = os) /\
    zlen os <= zlen field /\
    walk_options_field field sf has_out w = Ret w' /\ walked sf has_out 0 os w w' /\
    rl_ok (w_list w').
Proof.
  intros Hok Hrl Hs. destruct (walk_options_reads field sf has_out w Hok) as (os & w' & Hr & He & Hw).
  assert (zlen os <= zlen field) as Hlen.
  { clear -Hr. induction Hr; cbn [length] in *; rewrite ?length_app; lia. }
  exists os, w'. split; [done|]. split; [intros os' H; by eapply field_reads_det|]. split; [done|].
  split; [done|]. split; [done|]. apply (wk_room _ _ _ _ _ _ Hw); [done|lia].
Qed.

Lemma walk_options_correct_witness :
  exists w', walk_options_field [0; 53; 1; 5; 12; 9; 104; 105] SOURCE_FIELD_OPTIONS true
    {| w_list := raw_item_list_init; w_cm := cf_dhcpv4__concat_map_init;
       w_warnings := cf_warn_list_init; w_overload := 0 |} = Ret w' /\
    map ri_value (rl_items (w_list w')) = [[5]; [104; 105]] /\ rl_ok (w_list w').
Proof.
  destruct (walk_options_correct [0; 53; 1; 5; 12; 9; 104; 105] SOURCE_FIELD_OPTIONS true
    {| w_list := raw_item_list_init; w_cm := cf_dhcpv4__concat_map_init;
       w_warnings := cf_warn_list_init; w_overload := 0 |}) as (os & w' & _ & _ & _ & He & _ & Hr).
  - apply bytes_okb. reflexivity.
  - done.
  - done.
  - exists w'. split; [exact He|]. split; [|exact Hr]. vm_compute in He. injection He as <-. reflexivity.
Defined.

(** Domain names (options 119 and 81) are read inside the data, and the list
    ends: the names are the only ones the wire format spells, following at
    most 64 pointers each, and a name that is cut, reserved, out of the data
    or in a pointer loop ends the list with one warning.  A list of names
    encoded label by label comes back. *)
Theorem domain_names_correct data w prefix : bytes_ok data ->
  (exists ns bad w', names_read data 0 ns bad /\
     (forall ns' bad', names_read data 0 ns' bad' -> ns' = ns /\ bad' = bad) /\
     decode_domain_name_list data w prefix = Ret (ns, w') /\
     wl_items w' = wl_items w ++ name_warnings data prefix (length ns) bad) /\
  (forall names, Forall (fun ls => ls <> [] /\ Forall label_ok ls) names ->
     data = concat (map encode_name names) ->
     exists w', decode_domain_name_list data w prefix = Ret (map dotted names, w') /\
       wl_items w' = wl_items w).
Proof.
  intros Hok. destruct (domain_names_read data w prefix Hok) as (ns & bad & w' & Hr & He & Hw). split.
  - exists ns, bad, w'. split; [done|]. split; [|done]. intros ns' bad' H. by eapply names_read_det.
  - intros names Hn ->. pose proof (encoded_names_read names Hn []) as Hr'.
    destruct (names_read_det _ _ _ _ _ _ Hr Hr') as [-> ->]. exists w'. split; [done|].
    by rewrite Hw, app_nil_r.
Qed.

(** [a.b] and a second name [c] that points back to [b]. *)
Lemma domain_names_correct_witness :
  decode_domain_name_list [1; 97; 1; 98; 0; 1; 99; 192; 2] cf_warn_list_init (bs "p") =
  Ret ([bs "a.b"; bs "c.b"], cf_warn_list_init).
Proof.
  destruct (proj1 (domain_names_correct [1; 97; 1; 98; 0; 1; 99; 192; 2] cf_warn_list_init (bs "p")
    ltac:(apply bytes_okb; reflexivity))) as (ns & bad & w' & _ & _ & He & _).
  vm_compute in He. injection He as <- <-. vm_compute. reflexivity.
Defined.

(** Classless routes (options 121 and 249) are read inside the data: the
    destination buffer of four bytes is never overrun, the routes are the only
    reading of the data, and a prefix above 32 or an entry that is cut ends
    the list with one warning.  Encoded routes come back, their destinations
    padded with zeros. *)
Theorem classless_routes_correct inet_ntop data w prefix : bytes_ok data ->
  (exists rs f w', routes_read data rs f /\
     (forall rs' f', routes_read data rs' f' -> rs' = rs /\ f' = f) /\
     decode_classless_routes inet_ntop data w prefix = Ret (map (route_of inet_ntop) rs, w') /\
     wl_items w' = wl_items w ++ route_warnings prefix (length rs) f) /\
  (forall rs, Forall route_ok rs -> data = concat (map route_bytes rs) ->
     exists w', decode_classless_routes inet_ntop data w prefix = Ret (map (route_of inet_ntop) rs, w') /\
       wl_items w' = wl_items w).
Proof.
  intros Hok. destruct (classless_routes_read inet_ntop data w prefix Hok) as (rs & f & w' & Hr & He & Hw). split.
  - exists rs, f, w'. split; [done|]. split; [|done]. intros rs' f' H. by eapply routes_read_det.
  - intros rs' Hrs ->. pose proof (encoded_routes_read rs' Hrs) as Hr'.
    destruct (routes_read_det _ _ _ _ _ Hr Hr') as [-> ->]. exists w'. split; [done|].
    by rewrite Hw, app_nil_r.
Qed.

Definition sample_route : wire_route :=
  {| wr_prefix := 24; wr_dest := [10; 1; 2]; wr_router := [192; 0; 2; 1] |}.

Lemma classless_routes_correct_witness :
  exists r w', decode_classless_routes dotted_quad [24; 10; 1; 2; 192; 0; 2; 1] cf_warn_list_init (bs "p") =
    Ret ([r], w') /\ cr_destination r = bs "10.1.2.0" /\ cr_router r = bs "192.0.2.1".
Proof.
  destruct (proj2 (classless_routes_correct dotted_quad [24; 10; 1; 2; 192; 0; 2; 1] cf_warn_list_init (bs "p")
    ltac:(apply bytes_okb; reflexivity)) [sample_route]) as (w' & He & _).
  - apply Forall_cons_2; [|constructor]. repeat split; reflexivity || discriminate.
  - reflexivity.
  - eexists _, w'. split; [exact He|]. split; vm_compute; reflexivity.
Defined.

(** The suboptions of options 82 and 43 are the only reading of the data by
    code, length and value, which cover all of it.  Option 82 keeps every one,
    marks a malformed one and warns once for it, and takes its circuit, remote
    and subscriber identifiers from the last one of each code; option 43, with
    a vendor class, keeps the sound ones, and succeeds exactly when all are.
    Encoded suboptions come back. *)
Theorem suboptions_correct data id w : bytes_ok data -> str_set id = true ->
  exists os v, subs_read data os /\ (forall os', subs_read data os' -> os' = os) /\
    concat (map wire_bytes os) = data /\
    adds (decode_relay_agent_info data w) w
      (relay_info {| ra_raw_value := cf_dhcpv4__set_bytes data; ra_suboptions := [];
                     ra_circuit_id := []; ra_remote_id := []; ra_subscriber_id := [] |} os)
      (concat (imap relay_warning os)) /\
    decode_vendor_specific data (Some id) = Ret v /\
    vi_suboptions v = map vendor_sub (sound_part os) /\
    vi_parser_warnings v = vendor_warnings os /\
    (vi_decode_success v = true <-> Forall (fun o => wo_fault o = None) os) /\
    (forall subs, data = concat (map encode_sub subs) -> os = map (fun o => sound o.1 o.2) subs).
Proof.
  intros Hok Hid. destruct (decode_relay_adds data w Hok) as (os & Hr & Ha).
  destruct (decode_vendor_reads id data Hok) as (v & Hv & Hvr). rewrite Hid in Hv.
  assert (forall os', subs_read data os' -> os' = os) as Hdet by (intros os' H; by eapply subs_read_det).
  destruct Hvr as [Hid'|os' _ Hr']; [by rewrite Hid in Hid'|]. apply Hdet in Hr' as ->.
  eexists os, _. split; [done|]. split; [done|]. split; [by apply subs_cover|]. split; [done|].
  split; [done|]. cbn [vi_suboptions vi_parser_warnings vi_decode_success].
  split; [done|]. split; [done|]. split.
  - rewrite forallb_forall, Forall_forall. unfold is_malformed.
    split; intros H o Ho; specialize (H o Ho); by destruct (wo_fault o).
  - intros subs ->. symmetry. apply Hdet, encoded_subs_read.
Qed.

Lemma suboptions_correct_witness :
  exists rai w', decode_relay_agent_info [1; 2; 104; 105; 2; 1; 7] cf_warn_list_init = Ret (rai, w') /\
    ra_circuit_id rai = bs "hi" /\ ra_remote_id rai = bs "07" /\ wl_items w' = [].
Proof.
  destruct (suboptions_correct [1; 2; 104; 105; 2; 1; 7] (bs "v") cf_warn_list_init)
    as (os & v & _ & _ & _ & (w' & He & Hw) & _ & _ & _ & _ & Henc); [apply bytes_okb; reflexivity|reflexivity|].
  specialize (Henc [(1, [104; 105]); (2, [7])] eq_refl). subst os. rewrite He.
  eexists _, w'. split; [reflexivity|]. rewrite Hw. split; [vm_compute; reflexivity|].
  split; vm_compute; reflexivity.
Defined.

(** ** Corner cases *)

(** The event type of every message type is its name, in lower case. *)
Definition lower_ascii (l : list Z) : list Z :=
  map (fun c => if (65 <=? c) && (c <=? 90) then c + 32 else c) l.

Lemma event_type_names v : 1 <= v <= 13 ->
  event_type_for_message_type (message_type_enum v) =
  bs "dhcpv4." ++ lower_ascii (message_type_name v) ++ bs ".observed".
Proof.
  intros Hv. assert (v ∈ map Z.of_nat (seq 1 13)) as H.
  { apply list_elem_of_In, in_map_iff. exists (Z.to_nat v). split; [lia|]. apply in_seq. lia. }
  revert H. clear Hv. cbn [seq map]. repeat setoid_rewrite elem_of_cons.
  intros H. repeat (destruct H as [->|H]; [reflexivity|]). by apply not_elem_of_nil in H.
Qed.

(** Two overload options: the walk follows the last one and the decoded view
    shows the first, so an event can say [option_overload = 0] for a packet
    whose file field was read as options. *)
Definition two_overloads : list Z :=
  replicate 108 0 ++ [12; 2; 104; 105; 255] ++ replicate 123 0 ++ DHCP_MAGIC_COOKIE ++
  [52; 1; 0; 52; 1; 1; 255].

Example overload_first_and_last :
  match cf_dhcpv4_parse dotted_quad two_overloads with
  | Ret (Some (ev, _)) =>
      d_option_overload (ev_decoded ev) = 0 /\ d_host_name (ev_decoded ev) = bs "hi"
  | _ => False
  end.
Proof. vm_compute. split; reflexivity. Qed.

(** The ordinal of an option is its index in its field, not its byte offset. *)
Example ordinal_is_index :
  match cf_dhcpv4_parse dotted_quad
          (dhcp_packet (replicate 236 0) [(53, [1]); (12, [97; 98; 99]); (61, [1])] []) with
  | Ret (Some (ev, _)) => map o_ordinal (ev_raw_options ev) = [0; 1; 2]
  | _ => False
  end.
Proof. vm_compute. reflexivity. Qed.
