(* ===== verification/Dhcp6.v ===== *)
(** * Dhcp6: the DHCPv6 parser
    ([libs/cloudflow-packet/cf_dhcpv6.c], [cf_dhcpv6_decode.c],
    [cf_dhcpv6_util.c], [cf_dhcpv6_optnames.c])

    The header of a client, server or relay message, the walk over the options
    and the decoded view of them.  The readers, the builders and the warning
    list of [cf_dhcpv6_util.c] are the text of [cf_parse_util.c] under another
    prefix, so they are the definitions of [ParseUtil] under another name.  A
    pointer into an option is the list of the option's bytes, so a read past
    the option is an invalid access even where the payload goes on.  The
    payload pointer is not NULL, and allocations succeed where the outcome is
    not an argument. *)

From S2P Require Import Prelude IpFmt ParseUtil.

(** ** Helpers *)

Definition cf_dhcpv6__get_u8 : list Z -> Z -> exec (option Z) := cf_get_u8.
Definition cf_dhcpv6__get_be16 : list Z -> Z -> exec (option Z) := cf_get_be16.
Definition cf_dhcpv6__get_be32 : list Z -> Z -> exec (option Z) := cf_get_be32.

Definition cf_dhcpv6__get_be24 (d : list Z) (off : Z) : exec (option Z) :=
  if zlen d <? u64 (off + 3) then Ret None
  else
    a ← rd d off; b ← rd d (off + 1); c ← rd d (off + 2);
    Ret (Some (be24_of a b c)).

Definition cf_dhcpv6__dup_str (s : list Z) : list Z := cf_dup_str true (Some s).
Definition cf_dhcpv6__dup_strn (b : list Z) : list Z := cf_dup_strn true (Some b).
Definition cf_dhcpv6__is_printable : list Z -> bool := cf_is_printable.
Definition cf_dhcpv6__hex_encode (b : list Z) : list Z := cf_hex_encode true (Some b).
Definition cf_dhcpv6__set_bytes (b : list Z) : option (list Z) := cf_set_bytes true (Some b).

Definition cf_dhcpv6__format_ipv6 (inet_ntop : Z -> list Z -> list Z) (ip : list Z) : list Z :=
  cf_dhcpv6__dup_str (cf_format_ip inet_ntop 6 ip).

Definition cf_dhcpv6__warn (l : cf_warn_list_t) (code message : string) (field_path ctx : list Z)
    : cf_warn_list_t :=
  warn l code message field_path (Some ctx).

(** A pointer, a count and a capacity: [v_items] are the first [count] entries
    of the array, [v_cap] its allocated size. *)
Record vec (A : Type) := {
  v_items : list A;
  v_cap : Z
}.
Arguments v_items {A} _.
Arguments v_cap {A} _.
Arguments Build_vec {A} _ _.

Definition vec_init {A} : vec A := {| v_items := []; v_cap := 0 |}.

(** Append, doubling a full array, [first] entries at first; the flag is 0
    when [realloc] fails. *)
Definition vec_push {A} (first : Z) (realloc_ok : bool) (v : vec A) (x : A) : Z * vec A :=
  let push cap := (1, {| v_items := v_items v ++ [x]; v_cap := cap |}) in
  if zlen (v_items v) =? v_cap v then
    let new_cap := if v_cap v =? 0 then first else u64 (v_cap v * 2) in
    if realloc_ok then push new_cap else (0, v)
  else push (v_cap v).

(** [ri6_value] is NULL when it is empty. *)
Record cf_dhcpv6_raw_item_t := {
  ri6_code : Z;
  ri6_ordinal : Z;
  ri6_value : list Z;
  ri6_malformed : bool
}.

Definition cf_dhcpv6_raw_item_list_t : Type := vec cf_dhcpv6_raw_item_t.

Definition cf_dhcpv6__raw_item_list_init : cf_dhcpv6_raw_item_list_t := vec_init.

(** [value_ok] is the outcome of the value's own allocation. *)
Definition cf_dhcpv6__raw_item_list_append (realloc_ok value_ok : bool)
    (l : cf_dhcpv6_raw_item_list_t) (code ordinal : Z) (value : list Z) (malformed : bool)
    : Z * cf_dhcpv6_raw_item_list_t :=
  vec_push 8 realloc_ok l
    {| ri6_code := code; ri6_ordinal := ordinal;
       ri6_value := if value_ok then value else []; ri6_malformed := malformed |}.

(** ** Option names *)

Definition dhcpv6_option_names : list (Z * string) :=
  [(1, "OPTION_CLIENTID"); (2, "OPTION_SERVERID"); (3, "OPTION_IA_NA"); (4, "OPTION_IA_TA");
   (5, "OPTION_IAADDR"); (6, "OPTION_ORO"); (7, "OPTION_PREFERENCE");
   (8, "OPTION_ELAPSED_TIME"); (9, "OPTION_RELAY_MSG"); (11, "OPTION_AUTH");
   (12, "OPTION_UNICAST"); (13, "OPTION_STATUS_CODE"); (14, "OPTION_RAPID_COMMIT");
   (15, "OPTION_USER_CLASS"); (16, "OPTION_VENDOR_CLASS"); (17, "OPTION_VENDOR_OPTS");
   (18, "OPTION_INTERFACE_ID"); (19, "OPTION_RECONF_MSG"); (20, "OPTION_RECONF_ACCEPT");
   (21, "OPTION_SIP_SERVER_D"); (22, "OPTION_SIP_SERVER_A"); (23, "OPTION_DNS_SERVERS");
   (24, "OPTION_DOMAIN_LIST"); (25, "OPTION_IA_PD"); (26, "OPTION_IAPREFIX");
   (27, "OPTION_NIS_SERVERS"); (28, "OPTION_NISP_SERVERS"); (29, "OPTION_NIS_DOMAIN_NAME");
   (30, "OPTION_NISP_DOMAIN_NAME"); (31, "OPTION_SNTP_SERVERS");
   (32, "OPTION_INFORMATION_REFRESH_TIME"); (33, "OPTION_BCMCS_SERVER_D");
   (34, "OPTION_BCMCS_SERVER_A"); (36, "OPTION_GEOCONF_CIVIC"); (37, "OPTION_REMOTE_ID");
   (38, "OPTION_SUBSCRIBER_ID"); (39, "OPTION_CLIENT_FQDN"); (40, "OPTION_PANA_AGENT");
   (41, "OPTION_NEW_POSIX_TIMEZONE"); (42, "OPTION_NEW_TZDB_TIMEZONE"); (43, "OPTION_ERO");
   (44, "OPTION_LQ_QUERY"); (45, "OPTION_CLIENT_DATA"); (46, "OPTION_CLT_TIME");
   (47, "OPTION_LQ_RELAY_DATA"); (48, "OPTION_LQ_CLIENT_LINK"); (49, "OPTION_MIP6_HNIDF");
   (50, "OPTION_MIP6_VDINF"); (51, "OPTION_V6_LOST"); (52, "OPTION_CAPWAP_AC_V6");
   (53, "OPTION_RELAY_ID"); (54, "OPTION-IPv6_Address-MoS"); (55, "OPTION-IPv6_FQDN-MoS");
   (56, "OPTION_NTP_SERVER"); (57, "OPTION_V6_ACCESS_DOMAIN"); (58, "OPTION_SIP_UA_CS_LIST");
   (59, "OPT_BOOTFILE_URL"); (60, "OPT_BOOTFILE_PARAM"); (61, "OPTION_CLIENT_ARCH_TYPE");
   (62, "OPTION_NII"); (63, "OPTION_GEOLOCATION"); (64, "OPTION_AFTR_NAME");
   (65, "OPTION_ERP_LOCAL_DOMAIN_NAME"); (66, "OPTION_DS_LITE_ADDRESS_ALTERNATE");
   (67, "OPTION_PD_EXCLUDE"); (68, "OPTION_VSS"); (69, "OPTION_MIP6_IDINF");
   (70, "OPTION_MIP6_UDINF"); (71, "OPTION_MIP6_HNP"); (72, "OPTION_MIP6_HAA");
   (73, "OPTION_MIP6_HAF"); (74, "OPTION_RDNSS_SELECTION");
   (79, "OPTION_CLIENT_LINKLAYER_ADDR"); (80, "OPTION_LINK_ADDRESS"); (81, "OPTION_RADIUS");
   (82, "OPTION_SOL_MAX_RT"); (83, "OPTION_INF_MAX_RT"); (84, "OPTION_ADDRSEL");
   (85, "OPTION_ADDRSEL_TABLE"); (86, "OPTION_V6_PCP_SERVER"); (87, "OPTION_DHCPV4_MSG");
   (88, "OPTION_DHCP4_O_DHCP6_SERVER"); (89, "OPTION_S46_RULE"); (90, "OPTION_S46_BR");
   (91, "OPTION_S46_DMR"); (92, "OPTION_S46_V4V6BIND"); (93, "OPTION_S46_PORTPARAMS");
   (94, "OPTION_S46_CONT_MAPE"); (95, "OPTION_S46_CONT_MAPT"); (96, "OPTION_S46_CONT_LW");
   (97, "OPTION_4RD"); (98, "OPTION_4RD_MAP_RULE"); (99, "OPTION_4RD_NON_MAP_RULE");
   (100, "OPTION_LQ_BASE_TIME"); (101, "OPTION_LQ_START_TIME"); (102, "OPTION_LQ_END_TIME");
   (103, "OPTION_DHCP_STATE"); (104, "OPTION_DATA_SOURCE");
   (143, "OPTION_IPV6_ADDRESS_ANDSF")]%string.

(** The switch, one case a pair. *)
Definition cf_dhcpv6_option_name (code : Z) : list Z :=
  match list_find (fun p => p.1 = code) dhcpv6_option_names with
  | Some (_, (_, name)) => bs name
  | None => []
  end.

(** ** The decoded options *)

Definition OPT_CLIENTID : Z := 1.
Definition OPT_SERVERID : Z := 2.
Definition OPT_IA_NA : Z := 3.
Definition OPT_IA_TA : Z := 4.
Definition OPT_IAADDR : Z := 5.
Definition OPT_ORO : Z := 6.
Definition OPT_VENDOR_CLASS : Z := 16.
Definition OPT_VENDOR_OPTS : Z := 17.

Record DhcpV6VendorSuboption := {
  so_code : Z;
  so_length : Z;
  so_raw_value : option (list Z);
  so_decoded_value : list Z
}.

Record DhcpV6VendorOptions := {
  vo_enterprise_number : Z;
  vo_suboptions : list DhcpV6VendorSuboption;
  vo_raw_value : option (list Z)
}.

Record DhcpV6DecodedOptions := {
  d6_client_duid : option (list Z);
  d6_server_duid : option (list Z);
  d6_assigned_addresses : list (list Z);
  d6_option_request_option_codes : list Z;
  d6_vendor_class : list Z;
  d6_vendor_options : option DhcpV6VendorOptions
}.

(** The code and the declared length of the option at [pos]. *)
Definition option_head (data : list Z) (pos : Z) : exec (Z * Z) :=
  c1 ← rd data pos; c2 ← rd data (pos + 1);
  n1 ← rd data (pos + 2); n2 ← rd data (pos + 3);
  Ret (be16_of c1 c2, be16_of n1 n2).

(** The text of a printable value, the hex digits of another. *)
Definition text_or_hex6 (v : list Z) : list Z :=
  if cf_dhcpv6__is_printable v then cf_dhcpv6__dup_strn v else cf_dhcpv6__hex_encode v.

Section Decode.
Variable inet_ntop : Z -> list Z -> list Z.

Fixpoint ia_loop (fuel : nat) (data : list Z) (pos : Z) (addrs : vec (list Z))
    (warnings : cf_warn_list_t) : exec (vec (list Z) * cf_warn_list_t) :=
  match fuel with
  | O => Spin
  | S fuel' =>
      let len := zlen data in
      if len <? pos + 4 then Ret (addrs, warnings)
      else
        '(code, declared_len) ← option_head data pos;
        let avail := len - (pos + 4) in
        let malformed := avail <? declared_len in
        let use_len := if malformed then avail else declared_len in
        '(addrs, warnings) ←
          (if code =? OPT_IAADDR then
             if 16 <=? use_len then
               ip ← rd_n data (pos + 4) 16;
               Ret ((vec_push 4 true addrs (cf_dhcpv6__format_ipv6 inet_ntop ip)).2, warnings)
             else
               ctx ← rd_n data pos (len - pos);
               Ret (addrs, cf_dhcpv6__warn warnings "iaaddr_len_short"
                             "IAADDR suboption shorter than its 24-byte address/lifetimes"
                             (bs "decoded.assigned_addresses") ctx)
           else Ret (addrs, warnings));
        if malformed then
          ctx ← rd_n data pos (len - pos);
          Ret (addrs, cf_dhcpv6__warn warnings "opt_len_overrun"
                        "IA suboption length exceeds remaining IA option bytes"
                        (bs "decoded.assigned_addresses") ctx)
        else ia_loop fuel' data (pos + (4 + use_len)) addrs warnings
  end.

Definition collect_addresses_from_ia (data : list Z) (is_ia_na : bool) (addrs : vec (list Z))
    (warnings : cf_warn_list_t) : exec (vec (list Z) * cf_warn_list_t) :=
  let hdr_len := if is_ia_na then 12 else 4 in
  if zlen data <? hdr_len then
    Ret (addrs, cf_dhcpv6__warn warnings "ia_len_short"
                  (if is_ia_na then "IA_NA option shorter than its 12-byte IAID/T1/T2 header"
                   else "IA_TA option shorter than its 4-byte IAID header")
                  (bs "decoded.assigned_addresses") data)
  else ia_loop (S (length data)) data hdr_len addrs warnings.

Definition set_vendor_class (d : DhcpV6DecodedOptions) (v : list Z) : DhcpV6DecodedOptions :=
  {| d6_client_duid := d6_client_duid d; d6_server_duid := d6_server_duid d;
     d6_assigned_addresses := d6_assigned_addresses d;
     d6_option_request_option_codes := d6_option_request_option_codes d;
     d6_vendor_class := v; d6_vendor_options := d6_vendor_options d |}.

Definition decode_vendor_class (data : list Z) (d : DhcpV6DecodedOptions)
    (warnings : cf_warn_list_t) : exec (DhcpV6DecodedOptions * cf_warn_list_t) :=
  let len := zlen data in
  let path := bs "decoded.vendor_class" in
  if len <? 4 then
    Ret (d, cf_dhcpv6__warn warnings "opt_len_short"
              "option 16 (vendor class) shorter than its 4-byte enterprise number" path data)
  else
    let pos := 4 in
    if len <? pos + 2 then
      if pos <? len then
        ctx ← rd_n data pos (len - pos);
        Ret (d, cf_dhcpv6__warn warnings "opt_len_short"
                  "vendor-class-data present but truncated before its length" path ctx)
      else Ret (d, warnings)
    else
      n1 ← rd data pos; n2 ← rd data (pos + 1);
      let chunk_len := be16_of n1 n2 in
      let avail := len - (pos + 2) in
      let use_len := if avail <? chunk_len then avail else chunk_len in
      chunk ← rd_n data (pos + 2) use_len;
      let warnings :=
        if avail <? chunk_len then
          cf_dhcpv6__warn warnings "opt_len_overrun"
            "vendor-class-data length exceeds remaining option bytes" path chunk
        else warnings in
      Ret (if 0 <? use_len then set_vendor_class d (text_or_hex6 chunk) else d, warnings).

Fixpoint vendor_options_loop (fuel : nat) (data : list Z) (pos : Z)
    (arr : vec DhcpV6VendorSuboption) (warnings : cf_warn_list_t)
    : exec (vec DhcpV6VendorSuboption * cf_warn_list_t) :=
  match fuel with
  | O => Spin
  | S fuel' =>
      let len := zlen data in
      if len <? pos + 4 then Ret (arr, warnings)
      else
        '(code, declared_len) ← option_head data pos;
        let avail := len - (pos + 4) in
        let malformed := avail <? declared_len in
        let use_len := if malformed then avail else declared_len in
        value ← rd_n data (pos + 4) use_len;
        let so := {| so_code := code; so_length := u32 use_len;
                     so_raw_value := cf_dhcpv6__set_bytes value;
                     so_decoded_value := text_or_hex6 value |} in
        let warnings :=
          if malformed then
            cf_dhcpv6__warn warnings "opt_len_overrun"
              "vendor suboption length exceeds remaining option bytes"
              (bs "decoded.vendor_options.suboptions") value
          else warnings in
        let arr := (vec_push 4 true arr so).2 in
        if malformed then Ret (arr, warnings)
        else vendor_options_loop fuel' data (pos + (4 + use_len)) arr warnings
  end.

Definition set_vendor_options (d : DhcpV6DecodedOptions) (vo : DhcpV6VendorOptions)
    : DhcpV6DecodedOptions :=
  {| d6_client_duid := d6_client_duid d; d6_server_duid := d6_server_duid d;
     d6_assigned_addresses := d6_assigned_addresses d;
     d6_option_request_option_codes := d6_option_request_option_codes d;
     d6_vendor_class := d6_vendor_class d; d6_vendor_options := Some vo |}.

Definition decode_vendor_options (data : list Z) (d : DhcpV6DecodedOptions)
    (warnings : cf_warn_list_t) : exec (DhcpV6DecodedOptions * cf_warn_list_t) :=
  let raw := cf_dhcpv6__set_bytes data in
  if zlen data <? 4 then
    Ret (set_vendor_options d
           {| vo_enterprise_number := 0; vo_suboptions := []; vo_raw_value := raw |},
         cf_dhcpv6__warn warnings "opt_len_short"
           "option 17 (vendor-specific info) shorter than its 4-byte enterprise number"
           (bs "decoded.vendor_options") data)
  else
    a ← rd data 0; b ← rd data 1; c ← rd data 2; e ← rd data 3;
    '(arr, warnings) ← vendor_options_loop (S (length data)) data 4 vec_init warnings;
    Ret (set_vendor_options d
           {| vo_enterprise_number := be32_of a b c e; vo_suboptions := v_items arr;
              vo_raw_value := raw |}, warnings).

Definition append_u32 (realloc_ok : bool) (arr : vec Z) (v : Z) : vec Z :=
  (vec_push 8 realloc_ok arr v).2.

(** [for (j = 0; j < n2; j++)], from [j], with [n] rounds left. *)
Fixpoint oro_loop (n : nat) (j : Z) (value : list Z) (oro : vec Z) : exec (vec Z) :=
  match n with
  | O => Ret oro
  | S n' =>
      a ← rd value (2 * j); b ← rd value (2 * j + 1);
      oro_loop n' (j + 1) value (append_u32 true oro (be16_of a b))
  end.

(** The locals of [cf_dhcpv6__build_decoded]. *)
Record build_t := {
  b_d : DhcpV6DecodedOptions;
  b_addrs : vec (list Z);
  b_oro : vec Z;
  b_have_client_duid : bool;
  b_have_server_duid : bool;
  b_have_vendor_class : bool;
  b_have_vendor_opts : bool;
  b_warnings : cf_warn_list_t
}.

Definition build_init (warnings : cf_warn_list_t) : build_t :=
  {| b_d := {| d6_client_duid := None; d6_server_duid := None; d6_assigned_addresses := [];
               d6_option_request_option_codes := []; d6_vendor_class := [];
               d6_vendor_options := None |};
     b_addrs := vec_init; b_oro := vec_init;
     b_have_client_duid := false; b_have_server_duid := false;
     b_have_vendor_class := false; b_have_vendor_opts := false;
     b_warnings := warnings |}.

Definition build_duid (client : bool) (it : cf_dhcpv6_raw_item_t) (b : build_t) : build_t :=
  let d := b_d b in
  let duid := cf_dhcpv6__set_bytes (ri6_value it) in
  {| b_d := {| d6_client_duid := if client then duid else d6_client_duid d;
               d6_server_duid := if client then d6_server_duid d else duid;
               d6_assigned_addresses := d6_assigned_addresses d;
               d6_option_request_option_codes := d6_option_request_option_codes d;
               d6_vendor_class := d6_vendor_class d; d6_vendor_options := d6_vendor_options d |};
     b_addrs := b_addrs b; b_oro := b_oro b;
     b_have_client_duid := b_have_client_duid b || client;
     b_have_server_duid := b_have_server_duid b || negb client;
     b_have_vendor_class := b_have_vendor_class b; b_have_vendor_opts := b_have_vendor_opts b;
     b_warnings := b_warnings b |}.

Definition build_addrs (p : vec (list Z) * cf_warn_list_t) (b : build_t) : build_t :=
  {| b_d := b_d b; b_addrs := p.1; b_oro := b_oro b;
     b_have_client_duid := b_have_client_duid b; b_have_server_duid := b_have_server_duid b;
     b_have_vendor_class := b_have_vendor_class b; b_have_vendor_opts := b_have_vendor_opts b;
     b_warnings := p.2 |}.

Definition build_oro (oro : vec Z) (warnings : cf_warn_list_t) (b : build_t) : build_t :=
  {| b_d := b_d b; b_addrs := b_addrs b; b_oro := oro;
     b_have_client_duid := b_have_client_duid b; b_have_server_duid := b_have_server_duid b;
     b_have_vendor_class := b_have_vendor_class b; b_have_vendor_opts := b_have_vendor_opts b;
     b_warnings := warnings |}.

Definition build_vendor (opts : bool) (p : DhcpV6DecodedOptions * cf_warn_list_t) (b : build_t)
    : build_t :=
  {| b_d := p.1; b_addrs := b_addrs b; b_oro := b_oro b;
     b_have_client_duid := b_have_client_duid b; b_have_server_duid := b_have_server_duid b;
     b_have_vendor_class := b_have_vendor_class b || negb opts;
     b_have_vendor_opts := b_have_vendor_opts b || opts;
     b_warnings := p.2 |}.

(** The switch on the code of one item. *)
Definition build_item (it : cf_dhcpv6_raw_item_t) (b : build_t) : exec build_t :=
  let value := ri6_value it in
  let code := ri6_code it in
  if code =? OPT_CLIENTID then
    Ret (if negb (b_have_client_duid b) then build_duid true it b else b)
  else if code =? OPT_SERVERID then
    Ret (if negb (b_have_server_duid b) then build_duid false it b else b)
  else if code =? OPT_IA_NA then
    p ← collect_addresses_from_ia value true (b_addrs b) (b_warnings b);
    Ret (build_addrs p b)
  else if code =? OPT_IA_TA then
    p ← collect_addresses_from_ia value false (b_addrs b) (b_warnings b);
    Ret (build_addrs p b)
  else if code =? OPT_ORO then
    let warnings :=
      if negb (zlen value mod 2 =? 0) then
        cf_dhcpv6__warn (b_warnings b) "opt_len_invalid"
          "option request option length is not a multiple of 2 bytes"
          (bs "decoded.option_request_option_codes") value
      else b_warnings b in
    oro ← oro_loop (Z.to_nat (zlen value / 2)) 0 value (b_oro b);
    Ret (build_oro oro warnings b)
  else if code =? OPT_VENDOR_CLASS then
    if negb (b_have_vendor_class b) then
      p ← decode_vendor_class value (b_d b) (b_warnings b);
      Ret (build_vendor false p b)
    else Ret b
  else if code =? OPT_VENDOR_OPTS then
    if negb (b_have_vendor_opts b) then
      p ← decode_vendor_options value (b_d b) (b_warnings b);
      Ret (build_vendor true p b)
    else Ret b
  else Ret b.

Fixpoint build_loop (items : list cf_dhcpv6_raw_item_t) (b : build_t) : exec build_t :=
  match items with
  | [] => Ret b
  | it :: items => b ← build_item it b; build_loop items b
  end.

Definition cf_dhcpv6__build_decoded (items : list cf_dhcpv6_raw_item_t)
    (warnings : cf_warn_list_t) : exec (DhcpV6DecodedOptions * cf_warn_list_t) :=
  b ← build_loop items (build_init warnings);
  let d := b_d b in
  Ret ({| d6_client_duid := d6_client_duid d; d6_server_duid := d6_server_duid d;
          d6_assigned_addresses := v_items (b_addrs b);
          d6_option_request_option_codes := v_items (b_oro b);
          d6_vendor_class := d6_vendor_class d; d6_vendor_options := d6_vendor_options d |},
       b_warnings b).
End Decode.

(** ** The fixed header *)

Definition DHCPV6_MSG_TYPE_OFF : Z := 0.
Definition DHCPV6_XID_OFF : Z := 1.
Definition DHCPV6_MIN_HEADER_LEN : Z := 4.
Definition DHCPV6_RELAY_HOPCOUNT_OFF : Z := 1.
Definition DHCPV6_RELAY_LINKADDR_OFF : Z := 2.
Definition DHCPV6_RELAY_PEERADDR_OFF : Z := 18.
Definition DHCPV6_RELAY_FIXED_LEN : Z := 34.
Definition DHCPV6_MSGTYPE_RELAY_FORW : Z := 12.
Definition DHCPV6_MSGTYPE_RELAY_REPL : Z := 13.

Definition is_relay_message_type (v : Z) : bool :=
  (v =? DHCPV6_MSGTYPE_RELAY_FORW) || (v =? DHCPV6_MSGTYPE_RELAY_REPL).

Inductive MessageType6 : Type :=
| MESSAGE_TYPE6_UNSPECIFIED
| SOLICIT
| ADVERTISE
| REQUEST6
| CONFIRM
| RENEW
| REBIND
| REPLY
| RELEASE6
| DECLINE6
| RECONFIGURE
| INFORMATION_REQUEST
| RELAY_FORW
| RELAY_REPL
| LEASEQUERY6
| LEASEQUERY_REPLY
| LEASEQUERY_DONE
| LEASEQUERY_DATA.

(** The enumerators from the value 1, in order. *)
Definition message_types6 : list MessageType6 :=
  [SOLICIT; ADVERTISE; REQUEST6; CONFIRM; RENEW; REBIND; REPLY; RELEASE6; DECLINE6; RECONFIGURE;
   INFORMATION_REQUEST; RELAY_FORW; RELAY_REPL; LEASEQUERY6; LEASEQUERY_REPLY; LEASEQUERY_DONE;
   LEASEQUERY_DATA].

Definition message_type_enum6 (v : Z) : MessageType6 :=
  if (1 <=? v) && (v <=? 17)
  then default MESSAGE_TYPE6_UNSPECIFIED (message_types6 !! Z.to_nat (v - 1))
  else MESSAGE_TYPE6_UNSPECIFIED.

(** A string or number the parser leaves alone is the one [init] gave it. *)
Record DhcpV6Header := {
  h6_message_type : MessageType6;
  h6_transaction_id : Z;
  h6_hop_count : Z;
  h6_link_address : list Z;
  h6_peer_address : list Z
}.

Section Parse.
Variable inet_ntop : Z -> list Z -> list Z.

(** The 16-byte address at [off], when it is there. *)
Definition relay_address (payload : list Z) (off : Z) : exec (list Z) :=
  if off + 16 <=? zlen payload then
    ip ← rd_n payload off 16; Ret (cf_dhcpv6__format_ipv6 inet_ntop ip)
  else Ret [].

(** The header and the offset of the options. *)
Definition build_header6 (payload : list Z) : exec (DhcpV6Header * Z) :=
  msg_type_raw ← rd payload DHCPV6_MSG_TYPE_OFF;
  let message_type := message_type_enum6 msg_type_raw in
  if is_relay_message_type msg_type_raw then
    hop ← cf_dhcpv6__get_u8 payload DHCPV6_RELAY_HOPCOUNT_OFF;
    link_address ← relay_address payload DHCPV6_RELAY_LINKADDR_OFF;
    peer_address ← relay_address payload DHCPV6_RELAY_PEERADDR_OFF;
    Ret ({| h6_message_type := message_type; h6_transaction_id := 0;
            h6_hop_count := default 0 hop;
            h6_link_address := link_address; h6_peer_address := peer_address |},
         DHCPV6_RELAY_FIXED_LEN)
  else
    xid ← cf_dhcpv6__get_be24 payload DHCPV6_XID_OFF;
    Ret ({| h6_message_type := message_type; h6_transaction_id := default 0 xid;
            h6_hop_count := 0; h6_link_address := []; h6_peer_address := [] |},
         DHCPV6_MIN_HEADER_LEN).

(** ** The walk over the options *)

Fixpoint walk_options_loop (fuel : nat) (field : list Z) (pos ordinal : Z)
    (l : cf_dhcpv6_raw_item_list_t) (warnings : cf_warn_list_t)
    : exec (cf_dhcpv6_raw_item_list_t * cf_warn_list_t) :=
  match fuel with
  | O => Spin
  | S fuel' =>
      let field_len := zlen field in
      if field_len <=? pos then Ret (l, warnings)
      else
        let path := indexed_path 40 (bs "raw_options") (length (v_items l)) in
        if field_len <? pos + 4 then
          code ← (if pos + 2 <=? field_len then
                    c1 ← rd field pos; c2 ← rd field (pos + 1); Ret (be16_of c1 c2)
                  else Ret 0);
          rest ← rd_n field pos (field_len - pos);
          let warnings := cf_dhcpv6__warn warnings "opt_missing_header"
            "option present but truncated before its 4-byte code/length header" path rest in
          Ret ((cf_dhcpv6__raw_item_list_append true true l code ordinal rest true).2, warnings)
        else
          '(code, declared_len) ← option_head field pos;
          let avail := field_len - (pos + 4) in
          let malformed := avail <? declared_len in
          let use_len := if malformed then avail else declared_len in
          value ← rd_n field (pos + 4) use_len;
          let l := (cf_dhcpv6__raw_item_list_append true true l code ordinal value malformed).2 in
          let warnings :=
            if malformed then
              cf_dhcpv6__warn warnings "opt_len_overrun"
                "option length exceeds remaining bytes in this field" path value
            else warnings in
          if malformed then Ret (l, warnings)
          else walk_options_loop fuel' field (pos + (4 + use_len)) (u32 (ordinal + 1)) l warnings
  end.

Definition walk_options (field : list Z) (l : cf_dhcpv6_raw_item_list_t)
    (warnings : cf_warn_list_t) : exec (cf_dhcpv6_raw_item_list_t * cf_warn_list_t) :=
  walk_options_loop (S (length field)) field 0 0 l warnings.

(** ** The entry point *)

Definition event_type_for_message_type6 (mt : MessageType6) : list Z :=
  match mt with
  | SOLICIT => bs "dhcpv6.solicit.observed"
  | ADVERTISE => bs "dhcpv6.advertise.observed"
  | REQUEST6 => bs "dhcpv6.request.observed"
  | CONFIRM => bs "dhcpv6.confirm.observed"
  | RENEW => bs "dhcpv6.renew.observed"
  | REBIND => bs "dhcpv6.rebind.observed"
  | REPLY => bs "dhcpv6.reply.observed"
  | RELEASE6 => bs "dhcpv6.release.observed"
  | DECLINE6 => bs "dhcpv6.decline.observed"
  | RECONFIGURE => bs "dhcpv6.reconfigure.observed"
  | INFORMATION_REQUEST => bs "dhcpv6.information-request.observed"
  | RELAY_FORW => bs "dhcpv6.relay-forw.observed"
  | RELAY_REPL => bs "dhcpv6.relay-repl.observed"
  | LEASEQUERY6 | LEASEQUERY_REPLY | LEASEQUERY_DONE | LEASEQUERY_DATA
  | MESSAGE_TYPE6_UNSPECIFIED => bs "dhcpv6.packet.observed"
  end.

Record DhcpV6Option := {
  o6_code : Z;
  o6_name : list Z;
  o6_length : Z;
  o6_raw_value : option (list Z);
  o6_ordinal : Z;
  o6_malformed : bool
}.

Record DhcpV6PacketEvent := {
  ev6_header : DhcpV6Header;
  ev6_raw_options : list DhcpV6Option;
  ev6_decoded : DhcpV6DecodedOptions;
  ev6_parser_warnings : list parser_warning;
  ev6_raw_dhcp_payload : option (list Z);
  ev6_raw_payload_truncated : bool
}.

Definition build_option6 (src : cf_dhcpv6_raw_item_t) : DhcpV6Option :=
  {| o6_code := ri6_code src;
     o6_name := cf_dhcpv6__dup_str (cf_dhcpv6_option_name (ri6_code src));
     o6_length := u32 (zlen (ri6_value src));
     o6_raw_value := cf_dhcpv6__set_bytes (ri6_value src);
     o6_ordinal := ri6_ordinal src;
     o6_malformed := ri6_malformed src |}.

(** [None] is the NULL event; with it goes the event type, NULL on failure. *)
Definition cf_dhcpv6_parse (payload : list Z) : exec (option (DhcpV6PacketEvent * list Z)) :=
  let len := zlen payload in
  if len <? DHCPV6_MIN_HEADER_LEN then Ret None
  else
    '(hdr, options_offset) ← build_header6 payload;
    '(items, warnings) ←
      (if options_offset <? len then
         field ← rd_n payload options_offset (len - options_offset);
         walk_options field cf_dhcpv6__raw_item_list_init cf_warn_list_init
       else Ret (cf_dhcpv6__raw_item_list_init, cf_warn_list_init));
    '(decoded, warnings) ← cf_dhcpv6__build_decoded inet_ntop (v_items items) warnings;
    Ret (Some
      ({| ev6_header := hdr;
          ev6_raw_options := map build_option6 (v_items items);
          ev6_decoded := decoded;
          ev6_parser_warnings := (cf_warn_list_take warnings).1;
          ev6_raw_dhcp_payload := cf_dhcpv6__set_bytes payload;
          ev6_raw_payload_truncated := false |},
       event_type_for_message_type6 (h6_message_type hdr))).
End Parse.

(** ** Examples *)

(** A SOLICIT whose last option is cut inside its header: the two bytes left
    are the code of a client identifier, and become the client DUID. *)
Example cut_header_decoded :
  exists ev,
    cf_dhcpv6_parse (fun _ _ => bs "::") [1; 0; 0; 7; 0; 1] =
      Ret (Some (ev, bs "dhcpv6.solicit.observed")) /\
    h6_transaction_id (ev6_header ev) = 7 /\
    d6_client_duid (ev6_decoded ev) = Some [0; 1] /\
    length (ev6_parser_warnings ev) = 1%nat.
Proof. eexists. split; [vm_compute; reflexivity|]. done. Qed.

(** A REPLY with one IA_NA of one address, and an option request. *)
Example reply_addresses :
  exists ev,
    cf_dhcpv6_parse (fun _ ip => map (fun b => 48 + b) (drop 14 ip))
      ([7; 0; 0; 1] ++ [0; 3; 0; 40] ++ replicate 12 0 ++ [0; 5; 0; 24] ++ replicate 15 0 ++ [7] ++
       replicate 8 0 ++ [0; 6; 0; 4; 0; 23; 0; 24]) =
      Ret (Some (ev, bs "dhcpv6.reply.observed")) /\
    d6_assigned_addresses (ev6_decoded ev) = [bs "07"] /\
    d6_option_request_option_codes (ev6_decoded ev) = [23; 24] /\
    ev6_parser_warnings ev = [].
Proof. eexists. split; [vm_compute; reflexivity|]. done. Qed.
