(* ===== verification/Dhcp6Spec.v ===== *)
(** * Dhcp6Spec: what the DHCPv6 parser promises

    [options_read] is the grammar of an options area (RFC 8415), with the two
    ways an area can be cut; the walk over the message, the walk over an IA and
    the walk over vendor options all read it.  The decoded view and the
    warnings are then functions of the options read. *)

From S2P Require Import Prelude IpFmt ParseUtil Dhcp6.

(** ** Growing arrays *)

Lemma vec_push_items {A} first (v : vec A) x : v_items (vec_push first true v x).2 = v_items v ++ [x].
Proof. unfold vec_push. by destruct (_ =? _). Qed.

(** The entries fit the allocation, which is at most twice too large. *)
Definition vec_ok {A} (first : Z) (v : vec A) : Prop :=
  zlen (v_items v) <= v_cap v <= first + 2 * zlen (v_items v).

(** A push never writes past the allocation; it appends its element, or
    changes nothing when there is no memory for a larger array. *)
Theorem vec_push_correct {A} first realloc_ok (v : vec A) x :
  0 < first < 2 ^ 60 -> zlen (v_items v) < 2 ^ 60 -> vec_ok first v ->
  let r := vec_push first realloc_ok v x in
  vec_ok first r.2 /\
  (v_items r.2 = v_items v ++ [x] /\ r.1 = 1 \/ r.2 = v /\ r.1 = 0 /\ realloc_ok = false).
Proof.
  intros Hf Hl Hv r. unfold vec_ok in *. unfold r, vec_push.
  destruct (_ =? v_cap v) eqn:E; [destruct realloc_ok|]; cbn [fst snd v_items v_cap];
    rewrite ?length_app; cbn [length]; [|split; [lia|by right]|split; [lia|by left]].
  split; [|by left]. destruct (v_cap v =? 0) eqn:E0; [lia|]. rewrite u64_id by lia. lia.
Qed.

(** ** The grammar of an options area *)

Inductive fault6 : Type :=
| Cut_header
| Overrun6 (declared : Z).

#[export] Instance fault6_eq_dec : EqDecision fault6.
Proof. solve_decision. Defined.

Record wire6 := {
  w6_code : Z;
  w6_value : list Z;
  w6_fault : option fault6
}.

Definition whole (code : Z) (value : list Z) : wire6 :=
  {| w6_code := code; w6_value := value; w6_fault := None |}.

Definition overrun (code declared : Z) (value : list Z) : wire6 :=
  {| w6_code := code; w6_value := value; w6_fault := Some (Overrun6 declared) |}.

(** One to three bytes where a header should be: what there is of the code,
    and the bytes themselves. *)
Definition cut (l : list Z) : wire6 :=
  {| w6_code := match l with c1 :: c2 :: _ => c1 * 256 + c2 | _ => 0 end;
     w6_value := l; w6_fault := Some Cut_header |}.

Definition malformed6 (o : wire6) : bool :=
  match w6_fault o with Some _ => true | None => false end.

Inductive options_read : list Z -> list wire6 -> Prop :=
| OR_end : options_read [] []
| OR_option c1 c2 n1 n2 v l os :
    zlen v = n1 * 256 + n2 -> options_read l os ->
    options_read (c1 :: c2 :: n1 :: n2 :: v ++ l) (whole (c1 * 256 + c2) v :: os)
| OR_overrun c1 c2 n1 n2 v :
    zlen v < n1 * 256 + n2 ->
    options_read (c1 :: c2 :: n1 :: n2 :: v) [overrun (c1 * 256 + c2) (n1 * 256 + n2) v]
| OR_cut l : 0 < zlen l < 4 -> options_read l [cut l].

Lemma options_read_det l os1 os2 : options_read l os1 -> options_read l os2 -> os1 = os2.
Proof.
  intros H1. revert os2. induction H1 as [|c1 c2 n1 n2 v l os Hv H1 IH|c1 c2 n1 n2 v Hv|l Hl];
    intros os2 H2.
  - inversion H2; subst; [done|]. simpl in *. lia.
  - inversion H2 as [|? ? ? ? v' l' os' Hv' H2'|? ? ? ? v' Hv'|? Hl']; subst.
    + match goal with H : v' ++ l' = v ++ l |- _ => apply app_inj_1 in H as [-> ->]; [|lia] end.
      by rewrite (IH os').
    + rewrite length_app in Hv'. lia.
    + cbn [length] in Hl'. lia.
  - inversion H2 as [|? ? ? ? v' l' os' Hv' H2'|? ? ? ? v' Hv'|? Hl']; subst; try done.
    + rewrite length_app in Hv. lia.
    + cbn [length] in Hl'. lia.
  - inversion H2 as [|? ? ? ? v' l' os' Hv' H2'|? ? ? ? v' Hv'|? Hl']; subst; try done;
      cbn [length] in Hl; lia.
Qed.

(** The reading as a function. *)
Fixpoint options_fuel (fuel : nat) (l : list Z) : list wire6 :=
  match fuel, l with
  | S fuel, c1 :: c2 :: n1 :: n2 :: r =>
      let n := n1 * 256 + n2 in
      if zlen r <? n then [overrun (c1 * 256 + c2) n r]
      else whole (c1 * 256 + c2) (take (Z.to_nat n) r) :: options_fuel fuel (drop (Z.to_nat n) r)
  | _, [] => []
  | _, _ => [cut l]
  end.

Definition options_of (l : list Z) : list wire6 := options_fuel (length l) l.

Lemma options_fuel_read fuel l : bytes_ok l -> (length l <= fuel)%nat ->
  options_read l (options_fuel fuel l).
Proof.
  revert l. induction fuel as [|fuel IH]; intros l Hok Hl.
  { destruct l; [constructor|simpl in Hl; lia]. }
  destruct l as [|c1 [|c2 [|n1 [|n2 r]]]]; try (constructor; simpl; lia).
  cbn [options_fuel]. do 2 (apply Forall_cons_iff in Hok as [_ Hok]).
  apply Forall_cons_iff in Hok as [Hn1 Hok]. apply Forall_cons_iff in Hok as [Hn2 Hok].
  unfold is_byte in Hn1, Hn2. destruct (zlen r <? n1 * 256 + n2) eqn:E; [apply OR_overrun; lia|].
  rewrite <-(take_drop (Z.to_nat (n1 * 256 + n2)) r) at 1.
  apply OR_option; [rewrite length_take; lia|]. cbn [length] in Hl.
  apply IH; [by apply Forall_drop|]. rewrite length_drop. lia.
Qed.

Lemma options_of_read l : bytes_ok l -> options_read l (options_of l).
Proof. intros H. by apply options_fuel_read. Qed.

(** The bytes of an option; together they are the area. *)
Definition wire6_bytes (o : wire6) : list Z :=
  match w6_fault o with
  | None => be_bytes 2 (w6_code o) ++ be_bytes 2 (zlen (w6_value o)) ++ w6_value o
  | Some (Overrun6 n) => be_bytes 2 (w6_code o) ++ be_bytes 2 n ++ w6_value o
  | Some Cut_header => w6_value o
  end.

Lemma be_bytes_two a b : is_byte a -> is_byte b -> be_bytes 2 (a * 256 + b) = [a; b].
Proof.
  unfold is_byte. intros Ha Hb. cbn [be_bytes]. change (8 * Z.of_nat 1) with 8.
  change (8 * Z.of_nat 0) with 0. rewrite Z.shiftr_0_r, Z.shiftr_div_pow2 by lia. unfold u8.
  change (2 ^ 8) with 256. rewrite Z.div_add_l, (Z.div_small b) by lia.
  rewrite (Z.add_comm _ b), Z.mod_add, (Z.mod_small b), Z.add_0_r, Z.mod_small by lia. done.
Qed.

Lemma options_cover l os : options_read l os -> bytes_ok l -> concat (map wire6_bytes os) = l.
Proof.
  induction 1 as [|c1 c2 n1 n2 v l os Hv H1 IH|c1 c2 n1 n2 v Hv|l Hl]; intros Hok.
  - done.
  - do 4 (apply Forall_cons_iff in Hok as [? Hok]). apply Forall_app in Hok as [_ Hok].
    cbn [map concat wire6_bytes whole w6_fault w6_code w6_value].
    rewrite IH, Hv, !be_bytes_two by done. done.
  - do 4 (apply Forall_cons_iff in Hok as [? Hok]).
    cbn [map concat wire6_bytes overrun w6_fault w6_code w6_value].
    rewrite !be_bytes_two, app_nil_r by done. done.
  - cbn. apply app_nil_r.
Qed.

(** ** Reading an option *)

Lemma option_head_at pre c1 c2 n1 n2 r : bytes_ok (c1 :: c2 :: n1 :: n2 :: r) ->
  option_head (pre ++ c1 :: c2 :: n1 :: n2 :: r) (zlen pre) = Ret (c1 * 256 + c2, n1 * 256 + n2).
Proof.
  intros Hok. do 4 (apply Forall_cons_iff in Hok as [? Hok]). unfold option_head.
  rewrite rd_suffix0, !rd_suffix by lia. change (rd _ 1) with (Ret c2). change (rd _ 2) with (Ret n1).
  change (rd _ 3) with (Ret n2). xbind. by rewrite !be16_of_eq by done.
Qed.

Lemma option_value_at pre c1 c2 n1 n2 v l : 
  rd_n (pre ++ c1 :: c2 :: n1 :: n2 :: v ++ l) (zlen pre + 4) (zlen v) = Ret v.
Proof.
  rewrite rd_n_suffix by (cbn [length]; rewrite ?length_app; lia).
  do 4 rewrite slice_cons by lia. rewrite slice_app_l by lia. by rewrite slice_all.
Qed.

Lemma rest_at pre rest : rd_n (pre ++ rest) (zlen pre) (zlen (pre ++ rest) - zlen pre) = Ret rest.
Proof.
  rewrite length_app. replace (Z.of_nat _ - _) with (zlen rest) by lia.
  replace (zlen pre) with (zlen pre + 0) at 1 by lia. rewrite rd_n_suffix by lia.
  by rewrite slice_all.
Qed.

(** A walk that stands before a header with [v] behind it. *)
Lemma header_at pre c1 c2 n1 n2 v r d : bytes_ok (c1 :: c2 :: n1 :: n2 :: v ++ r) ->
  d = pre ++ c1 :: c2 :: n1 :: n2 :: v ++ r ->
  zlen d = zlen pre + 4 + zlen v + zlen r /\
  option_head d (zlen pre) = Ret (c1 * 256 + c2, n1 * 256 + n2) /\
  rd_n d (zlen pre + 4) (zlen v) = Ret v /\
  (16 <= zlen v -> rd_n d (zlen pre + 4) 16 = Ret (take 16 v)) /\
  rd_n d (zlen pre) (zlen d - zlen pre) = Ret (c1 :: c2 :: n1 :: n2 :: v ++ r).
Proof.
  intros Hok ->. split; [rewrite length_app; cbn [length]; rewrite length_app; lia|].
  split; [by apply option_head_at|]. split; [apply option_value_at|]. split; [|apply rest_at].
  intros Hv. pose proof (option_value_at pre c1 c2 n1 n2 (take 16 v) (drop 16 v ++ r)) as H.
  rewrite app_assoc, take_drop in H. rewrite <-H. f_equal. rewrite length_take. lia.
Qed.

(** ** The walk over the message *)

(** The raw option of the [i]-th option read, and its warning. *)
Definition raw_item_of (i : nat) (o : wire6) : cf_dhcpv6_raw_item_t :=
  {| ri6_code := w6_code o; ri6_ordinal := u32 (Z.of_nat i); ri6_value := w6_value o;
     ri6_malformed := malformed6 o |}.

Definition walk_warning (i : nat) (o : wire6) : list parser_warning :=
  match w6_fault o with
  | None => []
  | Some Cut_header =>
      [warning "opt_missing_header" "option present but truncated before its 4-byte code/length header"
         (indexed_path 40 (bs "raw_options") i) (w6_value o)]
  | Some (Overrun6 _) =>
      [warning "opt_len_overrun" "option length exceeds remaining bytes in this field"
         (indexed_path 40 (bs "raw_options") i) (w6_value o)]
  end.

Lemma append_items l c i v m :
  v_items (cf_dhcpv6__raw_item_list_append true true l c i v m).2 =
  v_items l ++ [{| ri6_code := c; ri6_ordinal := i; ri6_value := v; ri6_malformed := m |}].
Proof. apply vec_push_items. Qed.

Lemma warn6_items l code msg path ctx :
  wl_items (cf_dhcpv6__warn l code msg path ctx) = wl_items l ++ [warning code msg path ctx].
Proof. apply warn_adds. Qed.

Lemma walk_reads rest os : options_read rest os -> bytes_ok rest ->
  forall pre fuel i l w, (length rest < fuel)%nat -> length (v_items l) = i ->
  exists l' w',
    walk_options_loop fuel (pre ++ rest) (zlen pre) (u32 (Z.of_nat i)) l w = Ret (l', w') /\
    v_items l' = v_items l ++ imap (fun k o => raw_item_of (i + k) o) os /\
    wl_items w' = wl_items w ++ concat (imap (fun k o => walk_warning (i + k) o) os).
Proof.
  induction 1 as [|c1 c2 n1 n2 v r os Hv H1 IH|c1 c2 n1 n2 v Hv|rest Hl];
    intros Hok pre [|fuel] i l w Hfuel Hi; try lia; cbn [walk_options_loop].
  - rewrite app_nil_r. replace (_ <=? _) with true by lia. exists l, w. by rewrite !app_nil_r.
  - set (d := pre ++ _) in *.
    destruct (header_at pre c1 c2 n1 n2 v r d Hok eq_refl) as (Hd & Hh & Hr & _).
    replace (zlen d <=? zlen pre) with false by lia.
    replace (zlen d <? zlen pre + 4) with false by lia. rewrite Hh. xbind.
    replace (_ <? n1 * 256 + n2) with false by lia. rewrite <-Hv.
    rewrite Hr. xbind.
    destruct (IH ltac:(do 4 (apply Forall_cons_iff in Hok as [_ Hok]); by apply Forall_app in Hok as [_ ?])
      (pre ++ [c1; c2; n1; n2] ++ v) fuel (S i)
      (cf_dhcpv6__raw_item_list_append true true l (c1 * 256 + c2) (u32 (Z.of_nat i)) v false).2 w)
      as (l' & w' & He & Hl' & Hw').
    { cbn [length] in Hfuel. rewrite length_app in Hfuel. lia. }
    { rewrite append_items, length_app. simpl. lia. }
    exists l', w'. split.
    + rewrite <-!app_assoc in He. etrans; [|exact He]. f_equal.
      * rewrite !length_app. simpl. lia.
      * unfold u32. rewrite Zplus_mod_idemp_l. f_equal. lia.
    + rewrite Hl', Hw', append_items, <-app_assoc, !imap_cons, Nat.add_0_r. split.
      * apply (f_equal (app _)). cbn [app]. f_equal. apply imap_ext. intros k o _. simpl. f_equal. lia.
      * apply (f_equal (app _)). cbn [concat app]. apply (f_equal (@concat _)). apply imap_ext.
        intros k o _. simpl. f_equal. lia.
  - rewrite <-(app_nil_r v) in Hok. set (d := pre ++ _) in *.
    destruct (header_at pre c1 c2 n1 n2 v [] d Hok) as (Hd & Hh & Hr & _);
      [by rewrite app_nil_r|]. cbn [length] in Hd.
    replace (zlen d <=? zlen pre) with false by lia.
    replace (zlen d <? zlen pre + 4) with false by lia. rewrite Hh. xbind.
    replace (zlen d - (zlen pre + 4)) with (zlen v) by lia.
    replace (zlen v <? n1 * 256 + n2) with true by lia. rewrite Hr. xbind.
    eexists _, _. split; [reflexivity|]. rewrite append_items, warn6_items. cbn [imap concat].
    by rewrite app_nil_r, Nat.add_0_r, Hi.
  - pose proof (rest_at pre rest) as Hr. set (d := pre ++ rest) in *.
    assert (zlen d = zlen pre + zlen rest) as Hd by (unfold d; rewrite length_app; lia).
    replace (zlen d <=? zlen pre) with false by lia.
    replace (zlen d <? zlen pre + 4) with true by lia.
    assert ((if zlen pre + 2 <=? zlen d then
               c1 ← rd d (zlen pre); c2 ← rd d (zlen pre + 1); Ret (be16_of c1 c2)
             else Ret 0) = Ret (w6_code (cut rest))) as ->.
    { destruct (_ <=? zlen d) eqn:E.
      - destruct rest as [|c1 [|c2 r]]; try (simpl in *; lia).
        unfold d at 1 2. rewrite rd_suffix0, rd_suffix by lia. change (rd _ 1) with (Ret c2). xbind.
        apply Forall_cons_iff in Hok as [_ Hok]. apply Forall_cons_iff in Hok as [? _].
        by rewrite be16_of_eq.
      - destruct rest as [|c1 [|c2 r]]; try (simpl in *; lia). done. }
    xbind. rewrite Hr. xbind. eexists _, _. split; [reflexivity|].
    rewrite append_items, warn6_items. cbn [imap concat].
    by rewrite app_nil_r, Nat.add_0_r, Hi.
Qed.

Lemma walk_options_read field : bytes_ok field ->
  exists l w,
    walk_options field cf_dhcpv6__raw_item_list_init cf_warn_list_init = Ret (l, w) /\
    v_items l = imap raw_item_of (options_of field) /\
    wl_items w = concat (imap walk_warning (options_of field)).
Proof.
  intros Hok. destruct (walk_reads field _ (options_of_read field Hok) Hok [] (S (length field)) 0
    cf_dhcpv6__raw_item_list_init cf_warn_list_init) as (l & w & He & Hl & Hw); [lia|done|].
  exists l, w. done.
Qed.

(** ** The first option with a code *)

(** The value of the first option with a code; is there one? *)
Definition first (os : list wire6) (c : Z) : option (list Z) :=
  w6_value <$> head (filter (fun o => w6_code o = c) os).

Definition seen (os : list wire6) (c : Z) : bool := bool_decide (is_Some (first os c)).

Lemma first_snoc os o c : first (os ++ [o]) c =
  match first os c with
  | Some v => Some v
  | None => if w6_code o =? c then Some (w6_value o) else None
  end.
Proof.
  unfold first. rewrite list.filter_app, filter_cons.
  destruct (filter _ os); simpl; [|done].
  destruct (decide (w6_code o = c)), (w6_code o =? c) eqn:E; try lia; done.
Qed.

Lemma seen_snoc os o c : seen (os ++ [o]) c = seen os c || (w6_code o =? c).
Proof. unfold seen. rewrite first_snoc. by destruct (first os c), (w6_code o =? c). Qed.

Lemma not_seen os c : seen os c = false -> first os c = None.
Proof. unfold seen. by destruct (first os c). Qed.

Lemma seen_some os c : seen os c = true -> exists v, first os c = Some v.
Proof. unfold seen. destruct (first os c); [eauto|done]. Qed.

Lemma first_known os c v (k : Z) : c <> k ->
  match first os k with Some v => Some v | None => if c =? k then Some v else None end = first os k.
Proof. intros H. replace (c =? k) with false by lia. by destruct (first os k). Qed.

(** ** The walk over an IA *)

Section Decoded.
Variable inet_ntop : Z -> list Z -> list Z.

Definition ipv6_text (ip : list Z) : list Z := cf_dhcpv6__format_ipv6 inet_ntop ip.

(** The address of an option of an IA. *)
Definition ia_address (o : wire6) : list (list Z) :=
  match w6_fault o with
  | Some Cut_header => []
  | _ => if (w6_code o =? 5) && (16 <=? zlen (w6_value o)) then [ipv6_text (take 16 (w6_value o))] else []
  end.

Definition ia_path : list Z := bs "decoded.assigned_addresses".

(** The warnings of the option of an IA with which the bytes [ctx] begin. *)
Definition ia_option_warnings (o : wire6) (ctx : list Z) : list parser_warning :=
  match w6_fault o with
  | Some Cut_header => []
  | f =>
      (if (w6_code o =? 5) && negb (16 <=? zlen (w6_value o)) then
         [warning "iaaddr_len_short" "IAADDR suboption shorter than its 24-byte address/lifetimes" ia_path ctx]
       else []) ++
      (if f is Some _ then [warning "opt_len_overrun" "IA suboption length exceeds remaining IA option bytes" ia_path ctx]
       else [])
  end.

Fixpoint ia_warnings (os : list wire6) : list parser_warning :=
  match os with
  | [] => []
  | o :: os' => ia_option_warnings o (concat (map wire6_bytes os)) ++ ia_warnings os'
  end.

(** What the loop does with an option whose value it has. *)
Lemma ia_option d pos o ctx a w : w6_fault o <> Some Cut_header ->
  (16 <= zlen (w6_value o) -> rd_n d (pos + 4) 16 = Ret (take 16 (w6_value o))) ->
  rd_n d pos (zlen d - pos) = Ret ctx ->
  exists a' w',
    (if w6_code o =? OPT_IAADDR then
       if 16 <=? zlen (w6_value o) then
         ip ← rd_n d (pos + 4) 16;
         Ret ((vec_push 4 true a (cf_dhcpv6__format_ipv6 inet_ntop ip)).2, w)
       else
         ctx ← rd_n d pos (zlen d - pos);
         Ret (a, cf_dhcpv6__warn w "iaaddr_len_short"
                   "IAADDR suboption shorter than its 24-byte address/lifetimes"
                   (bs "decoded.assigned_addresses") ctx)
     else Ret (a, w)) = Ret (a', w') /\
    v_items a' = v_items a ++ ia_address o /\
    wl_items w' ++ (if w6_fault o is Some _ then [warning "opt_len_overrun"
                      "IA suboption length exceeds remaining IA option bytes" ia_path ctx] else []) =
    wl_items w ++ ia_option_warnings o ctx.
Proof.
  intros Hf Hip Hctx. unfold OPT_IAADDR, ia_address, ia_option_warnings.
  assert (forall A (x y : A), match w6_fault o with Some Cut_header => x | _ => y end = y) as Hc
    by (intros; destruct (w6_fault o) as [[]|]; done).
  destruct (w6_code o =? 5); [destruct (16 <=? zlen (w6_value o)) eqn:E|].
  - rewrite Hip by lia. xbind. eexists _, _. split; [reflexivity|]. rewrite vec_push_items, Hc.
    split; [done|]. by destruct (w6_fault o) as [[]|].
  - rewrite Hctx. xbind. eexists _, _. split; [reflexivity|]. rewrite Hc, warn6_items, app_nil_r.
    split; [done|]. rewrite <-app_assoc. by destruct (w6_fault o) as [[]|].
  - eexists _, _. split; [reflexivity|]. rewrite Hc, app_nil_r. split; [done|].
    by destruct (w6_fault o) as [[]|].
Qed.

Lemma ia_reads rest os : options_read rest os -> bytes_ok rest ->
  forall pre fuel a w, (length rest < fuel)%nat ->
  exists a' w', ia_loop inet_ntop fuel (pre ++ rest) (zlen pre) a w = Ret (a', w') /\
    v_items a' = v_items a ++ concat (map ia_address os) /\
    wl_items w' = wl_items w ++ ia_warnings os.
Proof.
  induction 1 as [|c1 c2 n1 n2 v r os Hv H1 IH|c1 c2 n1 n2 v Hv|rest Hl];
    intros Hok pre [|fuel] a w Hfuel; try lia; cbn [ia_loop].
  - rewrite app_nil_r. replace (_ <? _) with true by lia. exists a, w. by rewrite !app_nil_r.
  - set (d := pre ++ _) in *.
    destruct (header_at pre c1 c2 n1 n2 v r d Hok eq_refl) as (Hd & Hh & _ & Hip & Hctx).
    replace (zlen d <? zlen pre + 4) with false by lia. rewrite Hh. xbind.
    replace (_ <? n1 * 256 + n2) with false by lia. rewrite <-Hv.
    destruct (ia_option d (zlen pre) (whole (c1 * 256 + c2) v)
      (c1 :: c2 :: n1 :: n2 :: v ++ r) a w) as (a1 & w1 & He & Ha & Hw); [done|done|done|]. cbn [whole w6_code w6_value] in He. rewrite He. xbind.
    cbn [w6_fault whole] in Hw. rewrite app_nil_r in Hw.
    destruct (IH ltac:(do 4 (apply Forall_cons_iff in Hok as [_ Hok]); by apply Forall_app in Hok as [_ ?])
      (pre ++ [c1; c2; n1; n2] ++ v) fuel a1 w1) as (a' & w' & He' & Ha' & Hw').
    { cbn [length] in Hfuel. rewrite length_app in Hfuel. lia. }
    exists a', w'. split.
    + rewrite <-!app_assoc in He'. etrans; [|exact He']. f_equal. rewrite !length_app. simpl. lia.
    + rewrite Ha', Hw', Ha, Hw, <-!app_assoc. split; [done|]. cbn [ia_warnings].
      by rewrite (options_cover _ _ (OR_option _ _ _ _ _ _ _ Hv H1) Hok).
  - pose proof (options_cover _ _ (OR_overrun c1 c2 _ _ _ Hv) Hok) as Hcov.
    rewrite <-(app_nil_r v) in Hok. set (d := pre ++ _) in *.
    destruct (header_at pre c1 c2 n1 n2 v [] d Hok) as (Hd & Hh & _ & Hip & Hctx);
      [by rewrite app_nil_r|]. cbn [length] in Hd. rewrite app_nil_r in Hctx.
    replace (zlen d <? zlen pre + 4) with false by lia. rewrite Hh. xbind.
    replace (zlen d - (zlen pre + 4)) with (zlen v) by lia.
    replace (zlen v <? n1 * 256 + n2) with true by lia.
    destruct (ia_option d (zlen pre) (overrun (c1 * 256 + c2) (n1 * 256 + n2) v)
      (c1 :: c2 :: n1 :: n2 :: v) a w) as (a1 & w1 & He & Ha & Hw); [done|done|done|].
    cbn [overrun w6_code w6_value] in He. rewrite He. xbind. rewrite Hctx. xbind.
    eexists _, _. split; [reflexivity|]. split; [by rewrite Ha; cbn; rewrite app_nil_r|].
    rewrite warn6_items. cbn [ia_warnings]. by rewrite Hcov, app_nil_r, <-Hw.
  - replace (_ <? _) with true by (rewrite length_app; lia). exists a, w. cbn.
    by rewrite !app_nil_r.
Qed.

(** The addresses of an IA whose header has [hdr] bytes, and the warnings. *)
Definition ia_addresses (hdr : Z) (data : list Z) : list (list Z) :=
  if zlen data <? hdr then [] else concat (map ia_address (options_of (drop (Z.to_nat hdr) data))).

Definition ia_all_warnings (is_ia_na : bool) (data : list Z) : list parser_warning :=
  let hdr := if is_ia_na then 12 else 4 in
  if zlen data <? hdr then
    [warning "ia_len_short"
       (if is_ia_na then "IA_NA option shorter than its 12-byte IAID/T1/T2 header"
        else "IA_TA option shorter than its 4-byte IAID header") ia_path data]
  else ia_warnings (options_of (drop (Z.to_nat hdr) data)).

Lemma collect_reads data is_ia_na a w : bytes_ok data ->
  exists a' w', collect_addresses_from_ia inet_ntop data is_ia_na a w = Ret (a', w') /\
    v_items a' = v_items a ++ ia_addresses (if is_ia_na then 12 else 4) data /\
    wl_items w' = wl_items w ++ ia_all_warnings is_ia_na data.
Proof.
  intros Hok. unfold collect_addresses_from_ia, ia_addresses, ia_all_warnings.
  set (hdr := if is_ia_na then 12 else 4). assert (4 <= hdr) by (unfold hdr; destruct is_ia_na; lia).
  clearbody hdr. destruct (zlen data <? hdr) eqn:E.
  { eexists _, _. split; [reflexivity|]. by rewrite warn6_items, app_nil_r. }
  assert (bytes_ok (drop (Z.to_nat hdr) data)) as Hr by (by apply Forall_drop).
  destruct (ia_reads _ _ (options_of_read _ Hr) Hr (take (Z.to_nat hdr) data) (S (length data)) a w)
    as (a' & w' & He & Ha & Hw); [rewrite length_drop; lia|].
  rewrite take_drop, length_take in He. exists a', w'. split; [|done]. rewrite <-He. f_equal. lia.
Qed.

(** ** Vendor class *)

Definition class_path : list Z := bs "decoded.vendor_class".

Definition vendor_class_of (data : list Z) : list Z * list parser_warning :=
  if zlen data <? 4 then
    ([], [warning "opt_len_short" "option 16 (vendor class) shorter than its 4-byte enterprise number"
            class_path data])
  else
    match drop 4 data with
    | [] => ([], [])
    | n1 :: n2 :: r =>
        let n := n1 * 256 + n2 in
        if zlen r <? n then
          (text_or_hex6 r, [warning "opt_len_overrun" "vendor-class-data length exceeds remaining option bytes"
                              class_path r])
        else (text_or_hex6 (take (Z.to_nat n) r), [])
    | r => ([], [warning "opt_len_short" "vendor-class-data present but truncated before its length"
                   class_path r])
    end.

Lemma drop4_split (data : list Z) : 4 <= zlen data ->
  exists h, length h = 4%nat /\ data = h ++ drop 4 data.
Proof.
  intros H. exists (take 4 data). split; [rewrite length_take; lia|]. by rewrite take_drop.
Qed.

Lemma text_or_hex6_nil : text_or_hex6 [] = [].
Proof. done. Qed.

Lemma vendor_class_reads data d w : bytes_ok data -> d6_vendor_class d = [] ->
  exists w', decode_vendor_class data d w = Ret (set_vendor_class d (vendor_class_of data).1, w') /\
    wl_items w' = wl_items w ++ (vendor_class_of data).2.
Proof.
  intros Hok Hd. unfold decode_vendor_class, vendor_class_of. fold class_path.
  assert (set_vendor_class d [] = d) as Hset by (destruct d; simpl in *; by subst).
  destruct (zlen data <? 4) eqn:E4.
  { eexists. cbn [fst snd]. rewrite Hset. split; [reflexivity|]. apply warn6_items. }
  destruct (drop4_split data) as (h & Hh & Hdata); [lia|]. set (t := drop 4 data) in *. clearbody t.
  subst data. apply Forall_app in Hok as [_ Hok]. rewrite !length_app, !Hh.
  assert (zlen h = 4) as Hzh by lia.
  pose proof (rest_at h t) as Hrest. rewrite length_app, Hh in Hrest. change (Z.of_nat 4) with 4 in Hrest.
  destruct t as [|n1 [|n2 r]].
  - exists w. cbn [fst snd]. rewrite Hset, !app_nil_r.
    replace (_ <? 4 + 2) with true by done. by replace (4 <? _) with false by done.
  - replace (_ <? 4 + 2) with true by (simpl; lia). replace (4 <? _) with true by (simpl; lia).
    rewrite Hrest. xbind. cbn [fst snd]. rewrite Hset. eexists.
    split; [reflexivity|]. apply warn6_items.
  - replace (_ <? 4 + 2) with false by (simpl; lia).
    apply Forall_cons_iff in Hok as [Hn1 Hok]. apply Forall_cons_iff in Hok as [Hn2 Hok].
    assert (forall k, 0 <= k -> rd (h ++ n1 :: n2 :: r) (4 + k) = rd (n1 :: n2 :: r) k) as Hrd
      by (intros k Hk; rewrite <-Hzh; by apply rd_suffix).
    pose proof (Hrd 0 ltac:(lia)) as Hrd0. change (4 + 0) with 4 in Hrd0. rewrite Hrd0, Hrd by lia.
    change (rd _ 0) with (Ret n1). change (rd _ 1) with (Ret n2). xbind.
    rewrite be16_of_eq by done.
    assert (forall n, 0 <= n <= zlen r -> rd_n (h ++ n1 :: n2 :: r) (4 + 2) n = Ret (take (Z.to_nat n) r))
      as Hr.
    { intros n Hn. replace (4 + 2) with (zlen h + 2) by lia.
      rewrite rd_n_suffix by (simpl; lia). do 2 rewrite slice_cons by lia. done. }
    replace (Z.of_nat (4 + length (n1 :: n2 :: r)) - (4 + 2)) with (zlen r) by (simpl; lia).
    unfold is_byte in Hn1, Hn2. destruct (zlen r <? n1 * 256 + n2) eqn:E.
    + rewrite Hr by lia. xbind. rewrite take_ge by lia. eexists. split; [|apply warn6_items].
      destruct (0 <? zlen r) eqn:E0; [done|]. destruct r; [|simpl in *; lia]. cbn [fst].
      by rewrite text_or_hex6_nil, Hset.
    + rewrite Hr by lia. xbind. exists w. rewrite app_nil_r. split; [|done].
      destruct (0 <? n1 * 256 + n2) eqn:E0; [done|].
      replace (n1 * 256 + n2) with 0 by lia. by rewrite <-Hset at 1.
Qed.

(** ** Vendor options *)

Definition vendor_suboption_of (o : wire6) : DhcpV6VendorSuboption :=
  {| so_code := w6_code o; so_length := zlen (w6_value o);
     so_raw_value := cf_dhcpv6__set_bytes (w6_value o);
     so_decoded_value := text_or_hex6 (w6_value o) |}.

(** The options whose header is whole. *)
Definition headed (os : list wire6) : list wire6 :=
  filter (fun o => w6_fault o <> Some Cut_header) os.

Definition vendor_options_warnings (os : list wire6) : list parser_warning :=
  concat (map (fun o =>
    match w6_fault o with
    | Some (Overrun6 _) =>
        [warning "opt_len_overrun" "vendor suboption length exceeds remaining option bytes"
           (bs "decoded.vendor_options.suboptions") (w6_value o)]
    | _ => []
    end) os).

Definition vendor_options_of (data : list Z) : DhcpV6VendorOptions * list parser_warning :=
  if zlen data <? 4 then
    ({| vo_enterprise_number := 0; vo_suboptions := []; vo_raw_value := cf_dhcpv6__set_bytes data |},
     [warning "opt_len_short"
        "option 17 (vendor-specific info) shorter than its 4-byte enterprise number"
        (bs "decoded.vendor_options") data])
  else
    let os := options_of (drop 4 data) in
    ({| vo_enterprise_number := be_value 0 (take 4 data);
        vo_suboptions := map vendor_suboption_of (headed os);
        vo_raw_value := cf_dhcpv6__set_bytes data |}, vendor_options_warnings os).

Lemma vendor_options_loop_reads rest os : options_read rest os -> bytes_ok rest ->
  forall pre fuel a w, (length rest < fuel)%nat ->
  exists a' w', vendor_options_loop fuel (pre ++ rest) (zlen pre) a w = Ret (a', w') /\
    v_items a' = v_items a ++ map vendor_suboption_of (headed os) /\
    wl_items w' = wl_items w ++ vendor_options_warnings os.
Proof.
  induction 1 as [|c1 c2 n1 n2 v r os Hv H1 IH|c1 c2 n1 n2 v Hv|rest Hl];
    intros Hok pre [|fuel] a w Hfuel; try lia; cbn [vendor_options_loop].
  - rewrite app_nil_r. replace (_ <? _) with true by lia. exists a, w. by rewrite !app_nil_r.
  - set (d := pre ++ _) in *.
    destruct (header_at pre c1 c2 n1 n2 v r d Hok eq_refl) as (Hd & Hh & Hr & _).
    replace (zlen d <? zlen pre + 4) with false by lia. rewrite Hh. xbind.
    replace (_ <? n1 * 256 + n2) with false by lia. rewrite <-Hv, Hr. xbind.
    do 2 (apply Forall_cons_iff in Hok as [_ Hok]). apply Forall_cons_iff in Hok as [Hn1 Hok].
    apply Forall_cons_iff in Hok as [Hn2 Hok]. apply Forall_app in Hok as [_ Hok].
    unfold is_byte in Hn1, Hn2. rewrite u32_id by lia.
    fold (vendor_suboption_of (whole (c1 * 256 + c2) v)).
    destruct (IH Hok (pre ++ [c1; c2; n1; n2] ++ v) fuel
      (vec_push 4 true a (vendor_suboption_of (whole (c1 * 256 + c2) v))).2 w) as (a' & w' & He & Ha & Hw).
    { cbn [length] in Hfuel. rewrite length_app in Hfuel. lia. }
    exists a', w'. split.
    + rewrite <-!app_assoc in He. etrans; [|exact He]. f_equal. rewrite !length_app. simpl. lia.
    + rewrite Ha, Hw, vec_push_items, <-app_assoc. done.
  - rewrite <-(app_nil_r v) in Hok. set (d := pre ++ _) in *.
    destruct (header_at pre c1 c2 n1 n2 v [] d Hok) as (Hd & Hh & Hr & _);
      [by rewrite app_nil_r|]. cbn [length] in Hd.
    replace (zlen d <? zlen pre + 4) with false by lia. rewrite Hh. xbind.
    replace (zlen d - (zlen pre + 4)) with (zlen v) by lia.
    replace (zlen v <? n1 * 256 + n2) with true by lia. rewrite Hr. xbind.
    do 2 (apply Forall_cons_iff in Hok as [_ Hok]). apply Forall_cons_iff in Hok as [Hn1 Hok].
    apply Forall_cons_iff in Hok as [Hn2 Hok].
    unfold is_byte in Hn1, Hn2. rewrite u32_id by lia.
    eexists _, _. split; [reflexivity|]. rewrite vec_push_items, warn6_items. done.
  - replace (_ <? _) with true by (rewrite length_app; lia). exists a, w. cbn.
    by rewrite !app_nil_r.
Qed.

Lemma vendor_options_reads data d w : bytes_ok data ->
  exists w', decode_vendor_options data d w = Ret (set_vendor_options d (vendor_options_of data).1, w') /\
    wl_items w' = wl_items w ++ (vendor_options_of data).2.
Proof.
  intros Hok. unfold decode_vendor_options, vendor_options_of.
  destruct (zlen data <? 4) eqn:E4.
  { eexists. split; [reflexivity|]. apply warn6_items. }
  assert (bytes_ok (drop 4 data)) as Hr by (by apply Forall_drop).
  destruct (vendor_options_loop_reads _ _ (options_of_read _ Hr) Hr (take 4 data) (S (length data))
    vec_init w) as (a' & w' & He & Ha & Hw); [rewrite length_drop; lia|].
  rewrite take_drop, length_take in He. replace (Z.of_nat _) with 4 in He by lia.
  destruct data as [|a [|b [|c [|e r]]]]; try (simpl in E4; lia).
  do 4 (apply Forall_cons_iff in Hok as [? Hok]).
  change (rd _ 0) with (Ret a). change (rd _ 1) with (Ret b). change (rd _ 2) with (Ret c).
  change (rd _ 3) with (Ret e). xbind. rewrite He. xbind. rewrite be32_of_eq, Ha by done.
  exists w'. split; [done|exact Hw].
Qed.

(** ** Option requests *)

Fixpoint requests (l : list Z) : list Z :=
  match l with
  | a :: b :: r => a * 256 + b :: requests r
  | _ => []
  end.

Lemma oro_reads n : forall value pre rest j oro, value = pre ++ rest -> bytes_ok rest ->
  zlen pre = 2 * j -> n = (length rest / 2)%nat ->
  exists oro', oro_loop n j value oro = Ret oro' /\ v_items oro' = v_items oro ++ requests rest.
Proof.
  induction n as [|n IH]; intros value pre rest j oro Hv Hok Hj Hn.
  - exists oro. split; [done|]. destruct rest as [|a [|b r]]; try (by rewrite app_nil_r).
    cbn [length] in Hn. pose proof (Nat.div_le_mono 2 (S (S (length r))) 2). simpl in *. lia.
  - destruct rest as [|a [|b r]]; try done.
    apply Forall_cons_iff in Hok as [Ha Hok]. apply Forall_cons_iff in Hok as [Hb Hok].
    cbn [oro_loop]. rewrite <-Hj, Hv, rd_suffix0, rd_suffix by lia.
    change (rd _ 1) with (Ret b). xbind.
    rewrite be16_of_eq by done.
    destruct (IH (pre ++ a :: b :: r) (pre ++ [a; b]) r (j + 1) (append_u32 true oro (a * 256 + b)))
      as (oro' & He & Ho); [by rewrite <-app_assoc|done|rewrite length_app; simpl; lia| |].
    { change (length (a :: b :: r)) with (2 + length r)%nat in Hn.
      replace (2 + length r)%nat with (length r + 1 * 2)%nat in Hn by lia.
      rewrite Nat.div_add in Hn by lia. lia. }
    exists oro'. split; [exact He|]. rewrite Ho. unfold append_u32.
    by rewrite vec_push_items, <-app_assoc.
Qed.

(** ** The decoded view *)

(** What one option adds to the list-valued fields. *)
Definition addresses_of (o : wire6) : list (list Z) :=
  if w6_code o =? 3 then ia_addresses 12 (w6_value o)
  else if w6_code o =? 4 then ia_addresses 4 (w6_value o) else [].

Definition requests_of (o : wire6) : list Z :=
  if w6_code o =? 6 then requests (w6_value o) else [].

Definition decoded_of (os : list wire6) : DhcpV6DecodedOptions :=
  {| d6_client_duid := first os 1 ≫= cf_dhcpv6__set_bytes;
     d6_server_duid := first os 2 ≫= cf_dhcpv6__set_bytes;
     d6_assigned_addresses := concat (map addresses_of os);
     d6_option_request_option_codes := concat (map requests_of os);
     d6_vendor_class := default [] (fst ∘ vendor_class_of <$> first os 16);
     d6_vendor_options := fst ∘ vendor_options_of <$> first os 17 |}.

(** The warnings of an option after the options [earlier]. *)
Definition decode_warnings (earlier : list wire6) (o : wire6) : list parser_warning :=
  let v := w6_value o in
  if w6_code o =? 3 then ia_all_warnings true v
  else if w6_code o =? 4 then ia_all_warnings false v
  else if w6_code o =? 6 then
    if zlen v mod 2 =? 0 then []
    else [warning "opt_len_invalid" "option request option length is not a multiple of 2 bytes"
            (bs "decoded.option_request_option_codes") v]
  else if (w6_code o =? 16) && negb (seen earlier 16) then (vendor_class_of v).2
  else if (w6_code o =? 17) && negb (seen earlier 17) then (vendor_options_of v).2
  else [].

Fixpoint decoded_warnings6 (earlier os : list wire6) : list parser_warning :=
  match os with
  | [] => []
  | o :: os => decode_warnings earlier o ++ decoded_warnings6 (earlier ++ [o]) os
  end.

(** The locals after the options [os]. *)
Record built (os : list wire6) (b : build_t) : Prop := {
  bt_client : d6_client_duid (b_d b) = d6_client_duid (decoded_of os);
  bt_server : d6_server_duid (b_d b) = d6_server_duid (decoded_of os);
  bt_class : d6_vendor_class (b_d b) = d6_vendor_class (decoded_of os);
  bt_options : d6_vendor_options (b_d b) = d6_vendor_options (decoded_of os);
  bt_addrs : v_items (b_addrs b) = d6_assigned_addresses (decoded_of os);
  bt_oro : v_items (b_oro b) = d6_option_request_option_codes (decoded_of os);
  bt_have_client : b_have_client_duid b = seen os 1;
  bt_have_server : b_have_server_duid b = seen os 2;
  bt_have_class : b_have_vendor_class b = seen os 16;
  bt_have_options : b_have_vendor_opts b = seen os 17
}.

Lemma decoded_warnings_app os o : forall earlier,
  decoded_warnings6 earlier (os ++ [o]) =
  decoded_warnings6 earlier os ++ decode_warnings (earlier ++ os) o.
Proof.
  induction os as [|x os IH]; intros earlier; cbn [app decoded_warnings6]; [by rewrite !app_nil_r|].
  by rewrite IH, <-!app_assoc.
Qed.

Lemma decoded_snoc os o : decoded_of (os ++ [o]) =
  {| d6_client_duid := first (os ++ [o]) 1 ≫= cf_dhcpv6__set_bytes;
     d6_server_duid := first (os ++ [o]) 2 ≫= cf_dhcpv6__set_bytes;
     d6_assigned_addresses := d6_assigned_addresses (decoded_of os) ++ addresses_of o;
     d6_option_request_option_codes := d6_option_request_option_codes (decoded_of os) ++ requests_of o;
     d6_vendor_class := default [] (fst ∘ vendor_class_of <$> first (os ++ [o]) 16);
     d6_vendor_options := fst ∘ vendor_options_of <$> first (os ++ [o]) 17 |}.
Proof.
  unfold decoded_of. cbn [d6_assigned_addresses d6_option_request_option_codes].
  rewrite !map_app, !concat_app. cbn [map concat]. by rewrite !app_nil_r.
Qed.

(** The fields of [built] after an option. *)
Ltac built_fields H :=
  split; rewrite ?decoded_snoc;
  cbn [b_d b_addrs b_oro b_have_client_duid b_have_server_duid b_have_vendor_class
    b_have_vendor_opts d6_client_duid d6_server_duid d6_assigned_addresses
    d6_option_request_option_codes d6_vendor_class d6_vendor_options build_duid build_addrs build_oro
    build_vendor set_vendor_class set_vendor_options fst snd raw_item_of ri6_value negb];
  rewrite ?(bt_client _ _ H), ?(bt_server _ _ H), ?(bt_class _ _ H), ?(bt_options _ _ H),
    ?(bt_addrs _ _ H), ?(bt_oro _ _ H), ?(bt_have_client _ _ H), ?(bt_have_server _ _ H),
    ?(bt_have_class _ _ H), ?(bt_have_options _ _ H), ?first_snoc, ?seen_snoc;
  unfold addresses_of, requests_of;
  cbn [decoded_of d6_client_duid d6_server_duid d6_assigned_addresses
    d6_option_request_option_codes d6_vendor_class d6_vendor_options w6_code w6_value].

(** An option that adds nothing to the locals. *)
Lemma built_same os c v f b : built os b ->
  (c = 1 \/ c = 2 \/ c = 16 \/ c = 17 -> seen os c = true) -> c <> 3 -> c <> 4 -> c <> 6 ->
  built (os ++ [{| w6_code := c; w6_value := v; w6_fault := f |}]) b.
Proof.
  intros Hb Hs N3 N4 N6.
  assert (forall k, k = 1 \/ k = 2 \/ k = 16 \/ k = 17 ->
    match first os k with Some v => Some v | None => if c =? k then Some v else None end = first os k /\
    seen os k || (c =? k) = seen os k) as Hk.
  { intros k Hk. destruct (c =? k) eqn:E; [|split; [by destruct (first os k)|apply orb_false_r]].
    assert (c = k) as -> by lia. rewrite (Hs Hk). destruct (seen_some os k (Hs Hk)) as [x ->]. done. }
  destruct (Hk 1) as [F1 S1], (Hk 2) as [F2 S2], (Hk 16) as [F3 S3], (Hk 17) as [F4 S4]; [lia..|].
  built_fields Hb; rewrite ?F1, ?F2, ?F3, ?F4; try done; try (symmetry; done).
  - replace (c =? 3) with false by lia. replace (c =? 4) with false by lia. by rewrite app_nil_r.
  - replace (c =? 6) with false by lia. by rewrite app_nil_r.
Qed.

Lemma build_item_reads os i o b : built os b -> bytes_ok (w6_value o) ->
  exists b', build_item inet_ntop (raw_item_of i o) b = Ret b' /\ built (os ++ [o]) b' /\
    wl_items (b_warnings b') = wl_items (b_warnings b) ++ decode_warnings os o.
Proof.
  intros Hb Hok. unfold build_item, decode_warnings. cbn [raw_item_of ri6_value ri6_code].
  unfold OPT_CLIENTID, OPT_SERVERID, OPT_IA_NA, OPT_IA_TA, OPT_ORO, OPT_VENDOR_CLASS, OPT_VENDOR_OPTS.
  destruct o as [c v f]. cbn [w6_code w6_value] in *.
  destruct (c =? 1) eqn:E1; [assert (c = 1) as -> by lia|
    destruct (c =? 2) eqn:E2; [assert (c = 2) as -> by lia|
    destruct (c =? 3) eqn:E3; [assert (c = 3) as -> by lia|
    destruct (c =? 4) eqn:E4; [assert (c = 4) as -> by lia|
    destruct (c =? 6) eqn:E6; [assert (c = 6) as -> by lia|
    destruct (c =? 16) eqn:E16; [assert (c = 16) as -> by lia|
    destruct (c =? 17) eqn:E17; [assert (c = 17) as -> by lia|]]]]]]].
  - rewrite (bt_have_client _ _ Hb). eexists. split; [reflexivity|].
    destruct (seen os 1) eqn:Es; cbn [negb]; (split; [|by rewrite app_nil_r]); [by apply built_same|].
    built_fields Hb; rewrite ?(not_seen _ _ Es), ?first_known, ?Es, ?orb_false_r, ?app_nil_r by done; done.
  - rewrite (bt_have_server _ _ Hb). eexists. split; [reflexivity|].
    destruct (seen os 2) eqn:Es; cbn [negb]; (split; [|by rewrite app_nil_r]); [by apply built_same|].
    built_fields Hb; rewrite ?(not_seen _ _ Es), ?first_known, ?Es, ?orb_false_r, ?app_nil_r by done; done.
  - destruct (collect_reads v true (b_addrs b) (b_warnings b) Hok) as (a & w & -> & Ha & Hw). xbind.
    eexists. split; [reflexivity|]. split; [|exact Hw].
    built_fields Hb; rewrite ?first_known, ?orb_false_r, ?app_nil_r by done; try done.
    by rewrite Ha, (bt_addrs _ _ Hb).
  - destruct (collect_reads v false (b_addrs b) (b_warnings b) Hok) as (a & w & -> & Ha & Hw). xbind.
    eexists. split; [reflexivity|]. split; [|exact Hw].
    built_fields Hb; rewrite ?first_known, ?orb_false_r, ?app_nil_r by done; try done.
    by rewrite Ha, (bt_addrs _ _ Hb).
  - destruct (oro_reads (Z.to_nat (zlen v / 2)) v [] v 0 (b_oro b)) as (oro & -> & Ho);
      [done|done|done| |].
    { rewrite <-(Nat2Z.id (length v / 2)), Nat2Z.inj_div. done. }
    xbind. eexists. split; [reflexivity|]. split.
    + built_fields Hb; rewrite ?first_known, ?orb_false_r, ?app_nil_r by done; try done.
      by rewrite Ho, (bt_oro _ _ Hb).
    + cbn [b_warnings build_oro]. destruct (zlen v mod 2 =? 0); cbn [negb]; [by rewrite app_nil_r|].
      apply warn6_items.
  - rewrite (bt_have_class _ _ Hb). destruct (seen os 16) eqn:Es; cbn [negb andb].
    + eexists. split; [reflexivity|]. split; [by apply built_same|by rewrite app_nil_r].
    + destruct (vendor_class_reads v (b_d b) (b_warnings b) Hok) as (w & -> & Hw).
      { rewrite (bt_class _ _ Hb). unfold decoded_of. cbn [d6_vendor_class]. by rewrite not_seen. }
      xbind. eexists. split; [reflexivity|]. split; [|exact Hw].
      built_fields Hb; rewrite ?(not_seen _ _ Es), ?first_known, ?Es, ?orb_false_r, ?app_nil_r by done; done.
  - rewrite (bt_have_options _ _ Hb). destruct (seen os 17) eqn:Es; cbn [negb andb].
    + eexists. split; [reflexivity|]. split; [by apply built_same|by rewrite app_nil_r].
    + destruct (vendor_options_reads v (b_d b) (b_warnings b) Hok) as (w & -> & Hw).
      xbind. eexists. split; [reflexivity|]. split; [|exact Hw].
      built_fields Hb; rewrite ?(not_seen _ _ Es), ?first_known, ?Es, ?orb_false_r, ?app_nil_r by done; done.
  - eexists. split; [reflexivity|]. cbn [andb]. split; [|by rewrite app_nil_r].
    apply built_same; [done|lia..].
Qed.

Lemma build_loop_reads os : forall earlier i b, built earlier b ->
  Forall (fun o => bytes_ok (w6_value o)) os ->
  exists b', build_loop inet_ntop (imap (fun k o => raw_item_of (i + k) o) os) b = Ret b' /\
    built (earlier ++ os) b' /\
    wl_items (b_warnings b') = wl_items (b_warnings b) ++ decoded_warnings6 earlier os.
Proof.
  induction os as [|o os IH]; intros earlier i b Hb Hos.
  { exists b. by rewrite !app_nil_r. }
  apply Forall_cons_iff in Hos as [Ho Hos]. rewrite imap_cons. cbn [build_loop].
  destruct (build_item_reads earlier (i + 0) o b Hb Ho) as (b1 & -> & Hb1 & Hw1). xbind.
  destruct (IH (earlier ++ [o]) (S i) b1 Hb1 Hos) as (b' & He & Hb' & Hw').
  exists b'. split; [|split].
  - rewrite <-He. f_equal. apply imap_ext. intros k x _. simpl. f_equal. lia.
  - by rewrite <-app_assoc in Hb'.
  - cbn [decoded_warnings6]. by rewrite Hw', Hw1, <-app_assoc.
Qed.

Lemma build_decoded_reads os w : Forall (fun o => bytes_ok (w6_value o)) os ->
  exists w', cf_dhcpv6__build_decoded inet_ntop (imap raw_item_of os) w = Ret (decoded_of os, w') /\
    wl_items w' = wl_items w ++ decoded_warnings6 [] os.
Proof.
  intros Hos. destruct (build_loop_reads os [] 0 (build_init w)) as (b & He & Hb & Hw); [by split|done|].
  unfold cf_dhcpv6__build_decoded. cbn [Nat.add] in He.
  change (imap raw_item_of os) with (imap (fun k o => raw_item_of k o) os). rewrite He. xbind.
  exists (b_warnings b). split; [|exact Hw]. cbn [app] in Hb.
  rewrite (bt_client _ _ Hb), (bt_server _ _ Hb), (bt_class _ _ Hb), (bt_options _ _ Hb),
    (bt_addrs _ _ Hb), (bt_oro _ _ Hb). done.
Qed.

(** ** The header *)

Definition is_relay (payload : list Z) : bool :=
  match payload with t :: _ => (t =? 12) || (t =? 13) | [] => false end.

(** The options of a relay message come after its two addresses. *)
Definition options_area (payload : list Z) : list Z := drop (if is_relay payload then 34 else 4) payload.

Definition num6 (payload : list Z) (off n : Z) : Z := be_value 0 (slice payload off n).

Definition address_at (payload : list Z) (off : Z) : list Z :=
  if off + 16 <=? zlen payload then ipv6_text (slice payload off 16) else [].

Definition header6_of (payload : list Z) : DhcpV6Header :=
  let message_type := message_type_enum6 (num6 payload 0 1) in
  if is_relay payload then
    {| h6_message_type := message_type; h6_transaction_id := 0;
       h6_hop_count := num6 payload 1 1;
       h6_link_address := address_at payload 2; h6_peer_address := address_at payload 18 |}
  else
    {| h6_message_type := message_type; h6_transaction_id := num6 payload 1 3;
       h6_hop_count := 0; h6_link_address := []; h6_peer_address := [] |}.

Lemma get_be24_at d : bytes_ok d -> 4 <= zlen d ->
  cf_dhcpv6__get_be24 d 1 = Ret (Some (num6 d 1 3)).
Proof.
  intros Hok Hl. unfold cf_dhcpv6__get_be24. change (u64 (1 + 3)) with 4.
  replace (zlen d <? 4) with false by lia.
  destruct d as [|x [|a [|b [|c r]]]]; try (simpl in Hl; lia).
  do 4 (apply Forall_cons_iff in Hok as [? Hok]).
  change (rd _ 1) with (Ret a). change (rd _ (1 + 1)) with (Ret b). change (rd _ (1 + 2)) with (Ret c).
  xbind. by rewrite be24_of_eq.
Qed.

Lemma relay_address_at payload off : 0 <= off ->
  relay_address inet_ntop payload off = Ret (address_at payload off).
Proof.
  intros Ho. unfold relay_address, address_at. destruct (_ <=? zlen payload) eqn:E; [|done].
  by rewrite rd_n_ok by lia.
Qed.

Lemma build_header6_reads payload : bytes_ok payload -> 4 <= zlen payload ->
  build_header6 inet_ntop payload = Ret (header6_of payload, if is_relay payload then 34 else 4).
Proof.
  intros Hok Hl. unfold build_header6, header6_of, is_relay_message_type, DHCPV6_MSG_TYPE_OFF,
    DHCPV6_MSGTYPE_RELAY_FORW, DHCPV6_MSGTYPE_RELAY_REPL.
  destruct payload as [|t r] eqn:Hp; [simpl in Hl; lia|]. change (rd _ 0) with (Ret t). xbind.
  rewrite <-Hp in *. assert (num6 payload 0 1 = t) as ->.
  { subst. cbn [num6]. unfold num6, slice. simpl. lia. }
  assert (is_relay payload = (t =? 12) || (t =? 13)) as -> by (by subst).
  destruct (_ || _) eqn:Er.
  - change (cf_dhcpv6__get_u8 payload DHCPV6_RELAY_HOPCOUNT_OFF) with (cf_get_u8 payload 1).
    rewrite get_u8_at by (done || lia). xbind.
    unfold DHCPV6_RELAY_LINKADDR_OFF, DHCPV6_RELAY_PEERADDR_OFF.
    rewrite !relay_address_at by lia. xbind. unfold be_at.
    by replace (1 + 1 <=? zlen payload) with true by lia.
  - unfold DHCPV6_XID_OFF. rewrite get_be24_at by done. done.
Qed.

(** ** The event *)

Definition option6_view (i : nat) (o : wire6) : DhcpV6Option :=
  {| o6_code := w6_code o;
     o6_name := cf_dhcpv6__dup_str (cf_dhcpv6_option_name (w6_code o));
     o6_length := zlen (w6_value o);
     o6_raw_value := cf_dhcpv6__set_bytes (w6_value o);
     o6_ordinal := u32 (Z.of_nat i);
     o6_malformed := malformed6 o |}.

Lemma read_values l os : options_read l os -> bytes_ok l ->
  Forall (fun o => zlen (w6_value o) < 65536 /\ bytes_ok (w6_value o)) os.
Proof.
  induction 1 as [|c1 c2 n1 n2 v l os Hv H1 IH|c1 c2 n1 n2 v Hv|l Hl]; intros Hok.
  - constructor.
  - do 2 (apply Forall_cons_iff in Hok as [_ Hok]). apply Forall_cons_iff in Hok as [Hn1 Hok].
    apply Forall_cons_iff in Hok as [Hn2 Hok]. apply Forall_app in Hok as [Hok Hl].
    constructor; [|auto]. unfold is_byte in *. simpl. split; [lia|done].
  - do 2 (apply Forall_cons_iff in Hok as [_ Hok]). apply Forall_cons_iff in Hok as [Hn1 Hok].
    apply Forall_cons_iff in Hok as [Hn2 Hok]. constructor; [|constructor].
    unfold is_byte in *. simpl. split; [lia|done].
  - constructor; [|constructor]. simpl. split; [lia|done].
Qed.

(** The event of a payload, option by option. *)
Record event6_view (payload : list Z) (os : list wire6) (ev : DhcpV6PacketEvent) : Prop := {
  e6_header : ev6_header ev = header6_of payload;
  e6_options : ev6_raw_options ev = imap option6_view os;
  e6_decoded : ev6_decoded ev = decoded_of os;
  e6_warnings : ev6_parser_warnings ev = concat (imap walk_warning os) ++ decoded_warnings6 [] os;
  e6_payload : ev6_raw_dhcp_payload ev = Some payload;
  e6_truncated : ev6_raw_payload_truncated ev = false
}.

Lemma parse6_view payload : bytes_ok payload -> 4 <= zlen payload ->
  exists ev, cf_dhcpv6_parse inet_ntop payload =
      Ret (Some (ev, event_type_for_message_type6 (h6_message_type (header6_of payload)))) /\
    event6_view payload (options_of (options_area payload)) ev.
Proof.
  intros Hok Hl. unfold cf_dhcpv6_parse, DHCPV6_MIN_HEADER_LEN.
  replace (zlen payload <? 4) with false by lia. rewrite build_header6_reads by done. xbind.
  set (off := if is_relay payload then 34 else 4). set (os := options_of (options_area payload)).
  assert (options_area payload = drop (Z.to_nat off) payload) as Ha
    by (unfold options_area, off; by destruct (is_relay payload)).
  assert (0 <= off) by (unfold off; destruct (is_relay payload); lia). clearbody off.
  assert (bytes_ok (options_area payload)) as Hao by (rewrite Ha; by apply Forall_drop).
  assert (exists (l : cf_dhcpv6_raw_item_list_t) (w : cf_warn_list_t),
    (if off <? zlen payload then
       field ← rd_n payload off (zlen payload - off);
       walk_options field cf_dhcpv6__raw_item_list_init cf_warn_list_init
     else Ret (cf_dhcpv6__raw_item_list_init, cf_warn_list_init)) = Ret (l, w) /\
    v_items l = imap raw_item_of os /\ wl_items w = concat (imap walk_warning os))
    as (l & w & He & Hitems & Hw).
  { destruct (off <? zlen payload) eqn:E.
    - rewrite rd_n_ok by lia. xbind. unfold slice. rewrite <-Ha, take_ge
        by (rewrite Ha, length_drop; lia). by apply walk_options_read.
    - eexists _, _. split; [reflexivity|].
      assert (options_area payload = []) as Hn by (rewrite Ha; apply drop_ge; lia).
      unfold os. by rewrite Hn. }
  assert (Forall (fun o => zlen (w6_value o) < 65536 /\ bytes_ok (w6_value o)) os) as Hvs
    by (by apply (read_values (options_area payload)), Hao; apply options_of_read).
  destruct (build_decoded_reads os w) as (w' & Hd & Hw').
  { refine (List.Forall_impl _ _ Hvs). by intros o [_ ?]. }
  eexists. split.
  { eapply bind_eq; [exact He|]. cbv beta iota. rewrite Hitems.
    eapply bind_eq; [exact Hd|]. reflexivity. }
  split; cbn [ev6_header ev6_raw_options ev6_decoded ev6_parser_warnings ev6_raw_dhcp_payload
    ev6_raw_payload_truncated]; try done.
  - apply list_eq. intros i. rewrite list_lookup_fmap, !list_lookup_imap.
    destruct (os !! i) as [o|] eqn:E; [|done]. simpl. f_equal.
    destruct (proj1 (Forall_lookup _ _) Hvs _ _ E) as [Hlo _].
    unfold build_option6, option6_view. simpl. by rewrite u32_id by lia.
  - unfold cf_warn_list_take. cbn [fst]. by rewrite Hw', Hw.
  - by destruct payload.
Qed.
End Decoded.
