(* ===== verification/Dhcp6Properties.v ===== *)
(** * Dhcp6Properties: the DHCPv6 parser's theorems

    Every payload is read by the grammar of [Dhcp6Spec]; a message made by a
    reference encoder of typed options comes back; and an option cut inside its
    header is decoded as if its header were a value. *)

From S2P Require Import Prelude IpFmt ParseUtil Dhcp6 Dhcp6Spec.

(** ** A reference encoder *)

Definition encode6 (c : Z) (v : list Z) : list Z := be_bytes 2 c ++ be_bytes 2 (zlen v) ++ v.

(** An address of an IA with its two lifetimes. *)
Definition encode_address (a : list Z * Z * Z) : list Z :=
  encode6 5 (a.1.1 ++ be_bytes 4 a.1.2 ++ be_bytes 4 a.2).

Inductive option6 : Type :=
| Client_id (duid : list Z)
| Server_id (duid : list Z)
| Ia_na (iaid t1 t2 : Z) (addrs : list (list Z * Z * Z))
| Ia_ta (iaid : Z) (addrs : list (list Z * Z * Z))
| Oro (codes : list Z)
| Vendor_class (enterprise : Z) (text : list Z)
| Vendor_opts (enterprise : Z) (subs : list (Z * list Z))
| Other (code : Z) (value : list Z).

Definition option6_code (o : option6) : Z :=
  match o with
  | Client_id _ => 1
  | Server_id _ => 2
  | Ia_na _ _ _ _ => 3
  | Ia_ta _ _ => 4
  | Oro _ => 6
  | Vendor_class _ _ => 16
  | Vendor_opts _ _ => 17
  | Other c _ => c
  end.

Definition option6_value (o : option6) : list Z :=
  match o with
  | Client_id v | Server_id v | Other _ v => v
  | Ia_na iaid t1 t2 addrs =>
      be_bytes 4 iaid ++ be_bytes 4 t1 ++ be_bytes 4 t2 ++ concat (map encode_address addrs)
  | Ia_ta iaid addrs => be_bytes 4 iaid ++ concat (map encode_address addrs)
  | Oro codes => concat (map (be_bytes 2) codes)
  | Vendor_class e t => be_bytes 4 e ++ be_bytes 2 (zlen t) ++ t
  | Vendor_opts e subs => be_bytes 4 e ++ concat (map (fun s => encode6 s.1 s.2) subs)
  end.

Definition address_ok (a : list Z * Z * Z) : Prop := zlen a.1.1 = 16 /\ bytes_ok a.1.1.

Definition sub6_ok (s : Z * list Z) : Prop := 0 <= s.1 < 65536 /\ zlen s.2 < 65536 /\ bytes_ok s.2.

(** What can be encoded: two-byte codes and lengths, four-byte numbers. *)
Definition option6_ok (o : option6) : Prop :=
  zlen (option6_value o) < 65536 /\
  match o with
  | Client_id v | Server_id v => bytes_ok v
  | Ia_na _ _ _ addrs | Ia_ta _ addrs => Forall address_ok addrs
  | Oro codes => Forall (fun c => 0 <= c < 65536) codes
  | Vendor_class e t => 0 <= e < 2 ^ 32 /\ bytes_ok t
  | Vendor_opts e subs => 0 <= e < 2 ^ 32 /\ Forall sub6_ok subs
  | Other c v => 0 <= c < 65536 /\ c ∉ [1; 2; 3; 4; 6; 16; 17] /\ bytes_ok v
  end.

Definition wire6_of (o : option6) : wire6 := whole (option6_code o) (option6_value o).

Definition encode_options (os : list option6) : list Z :=
  concat (map (fun o => encode6 (option6_code o) (option6_value o)) os).

Definition client_message (t xid : Z) (os : list option6) : list Z :=
  t :: be_bytes 3 xid ++ encode_options os.

Definition relay_message (t hop : Z) (link peer : list Z) (os : list option6) : list Z :=
  t :: hop :: link ++ peer ++ encode_options os.

(** ** Encoded options are read back *)

Lemma be_bytes2 z : 0 <= z < 65536 ->
  exists a b, be_bytes 2 z = [a; b] /\ z = a * 256 + b /\ is_byte a /\ is_byte b.
Proof.
  intros Hz. exists (u8 (Z.shiftr z 8)), (u8 z). cbn [be_bytes]. rewrite Z.shiftr_0_r.
  split; [done|]. split; [|split; apply u8_byte]. unfold u8. rewrite Z.shiftr_div_pow2 by lia.
  change (2 ^ 8) with 256. rewrite (Z.mod_small (z / 256)).
  - pose proof (Z.div_mod z 256). lia.
  - split; [apply Z.div_pos; lia|]. apply Z.div_lt_upper_bound; lia.
Qed.

Lemma encode6_read c v l os : 0 <= c < 65536 -> zlen v < 65536 -> options_read l os ->
  options_read (encode6 c v ++ l) (whole c v :: os).
Proof.
  intros Hc Hv H. unfold encode6. destruct (be_bytes2 c Hc) as (c1 & c2 & -> & -> & _).
  destruct (be_bytes2 (zlen v)) as (n1 & n2 & -> & Hn & _); [lia|].
  rewrite <-!app_assoc. cbn [app]. by apply OR_option.
Qed.

Lemma encode6_bytes c v : bytes_ok v -> bytes_ok (encode6 c v).
Proof.
  intros Hv. unfold encode6. apply Forall_app_2; [apply be_bytes_ok|].
  apply Forall_app_2; [apply be_bytes_ok|done].
Qed.

Lemma concat_bytes_ok {A} (f : A -> list Z) (l : list A) :
  Forall (fun x => bytes_ok (f x)) l -> bytes_ok (concat (map f l)).
Proof. induction 1; [constructor|]. by apply Forall_app_2. Qed.

Lemma address_value a : address_ok a -> bytes_ok (a.1.1 ++ be_bytes 4 a.1.2 ++ be_bytes 4 a.2) /\
  zlen (a.1.1 ++ be_bytes 4 a.1.2 ++ be_bytes 4 a.2) = 24.
Proof.
  intros [Hl Hok]. split; [apply Forall_app_2; [done|]; apply Forall_app_2; apply be_bytes_ok|].
  rewrite !length_app, !be_bytes_length. lia.
Qed.

Lemma option6_bytes o : option6_ok o -> bytes_ok (option6_value o) /\ 0 <= option6_code o < 65536.
Proof.
  intros [_ H]. split; [|destruct o; cbn in *; lia || tauto]. destruct o; cbn [option6_value] in *.
  - done.
  - done.
  - do 3 (apply Forall_app_2; [apply be_bytes_ok|]). apply concat_bytes_ok.
    eapply List.Forall_impl; [|exact H]. intros a Ha. by apply encode6_bytes, address_value.
  - apply Forall_app_2; [apply be_bytes_ok|]. apply concat_bytes_ok.
    eapply List.Forall_impl; [|exact H]. intros a Ha. by apply encode6_bytes, address_value.
  - apply concat_bytes_ok, Forall_forall. intros c _. apply be_bytes_ok.
  - do 2 (apply Forall_app_2; [apply be_bytes_ok|]). apply H.
  - apply Forall_app_2; [apply be_bytes_ok|]. apply concat_bytes_ok.
    eapply List.Forall_impl; [|exact (proj2 H)]. intros s (_ & _ & ?). by apply encode6_bytes.
  - apply H.
Qed.

Lemma encoded_options_bytes os : Forall option6_ok os -> bytes_ok (encode_options os).
Proof.
  intros H. apply concat_bytes_ok. eapply List.Forall_impl; [|exact H].
  intros o Ho. by apply encode6_bytes, option6_bytes.
Qed.

Lemma encoded_options_read os l ws : Forall option6_ok os -> options_read l ws ->
  options_read (encode_options os ++ l) (map wire6_of os ++ ws).
Proof.
  intros Hos Hl. unfold encode_options. induction Hos as [|o os Ho _ IH]; [done|].
  cbn [map concat]. rewrite <-app_assoc. destruct (option6_bytes o Ho).
  apply encode6_read; [done|apply Ho|done].
Qed.

Lemma options_of_unique l os : bytes_ok l -> options_read l os -> options_of l = os.
Proof. intros Hok H. eapply options_read_det; [by apply options_of_read|done]. Qed.

(** ** Typed options among the options read *)

Definition typed_first {A} (f : option6 -> option A) (os : list option6) : option A :=
  head (omap f os).

Lemma first_typed {A} (g : list Z -> A) (sel : option6 -> option A) c os :
  Forall (fun o => (if option6_code o =? c then Some (g (option6_value o)) else None) = sel o) os ->
  g <$> first (map wire6_of os) c = typed_first sel os.
Proof.
  unfold first, typed_first. induction 1 as [|o os Ho _ IH]; [done|]. cbn [map]. rewrite filter_cons.
  cbn [omap list_omap]. rewrite <-Ho. cbn [wire6_of whole w6_code].
  destruct (option6_code o =? c) eqn:E.
  - rewrite decide_True by lia. done.
  - rewrite decide_False by lia. done.
Qed.

Lemma other_code c v k : option6_ok (Other c v) -> In k [1; 2; 3; 4; 6; 16; 17] -> (c =? k) = false.
Proof.
  intros (_ & _ & Hc & _) Hk. destruct (c =? k) eqn:E; [|done]. assert (c = k) as -> by lia.
  by apply list_elem_of_In in Hk.
Qed.

Lemma first_is {A} (g : list Z -> A) (sel : option6 -> option A) c os : Forall option6_ok os ->
  (forall o, option6_ok o -> (if option6_code o =? c then Some (g (option6_value o)) else None) = sel o) ->
  g <$> first (map wire6_of os) c = typed_first sel os.
Proof. intros H Hs. apply first_typed. eapply List.Forall_impl; [|exact H]. exact Hs. Qed.

(** The same of a field that aggregates. *)
Lemma concat_is {A B} (f : B -> list A) (g : option6 -> list A) (h : option6 -> B) os :
  Forall option6_ok os -> (forall o, option6_ok o -> f (h o) = g o) ->
  concat (map f (map h os)) = concat (map g os).
Proof. intros H Hs. induction H as [|o os Ho _ IH]; [done|]. cbn [map concat]. by rewrite IH, Hs. Qed.

(** ** What each encoded option decodes to *)

Section Decoded.
Variable inet_ntop : Z -> list Z -> list Z.

Lemma encoded_addresses addrs : Forall address_ok addrs ->
  concat (map (ia_address inet_ntop) (options_of (concat (map encode_address addrs)))) =
    map (fun a => ipv6_text inet_ntop a.1.1) addrs /\
  ia_warnings (options_of (concat (map encode_address addrs))) = [].
Proof.
  intros H. set (ws := map (fun a => whole 5 (a.1.1 ++ be_bytes 4 a.1.2 ++ be_bytes 4 a.2)) addrs).
  assert (options_of (concat (map encode_address addrs)) = ws) as ->.
  { apply options_of_unique.
    - apply concat_bytes_ok. eapply List.Forall_impl; [|exact H]. intros a Ha.
      by apply encode6_bytes, address_value.
    - unfold ws. clear ws. induction H as [|a addrs Ha _ IH]; [constructor|]. cbn [map concat].
      apply encode6_read; [lia| |done]. rewrite (proj2 (address_value a Ha)). lia. }
  unfold ws. clear ws. induction H as [|a addrs Ha _ [IH1 IH2]]; [done|]. cbn [map concat ia_warnings].
  rewrite IH1, IH2. destruct (address_value a Ha) as [_ Hl].
  unfold ia_address, ia_option_warnings. cbn [whole w6_fault w6_code w6_value].
  replace (16 <=? zlen (a.1.1 ++ be_bytes 4 a.1.2 ++ be_bytes 4 a.2)) with true by lia.
  cbn [negb andb]. change (5 =? 5) with true. cbn [andb app]. split; [|done]. f_equal.
  unfold ipv6_text. f_equal. destruct Ha as [Ha _]. rewrite take_app_le by lia. apply take_ge. lia.
Qed.

Lemma encoded_ia hdr addrs : Forall address_ok addrs -> forall h, length h = Z.to_nat hdr -> 0 <= hdr ->
  ia_addresses inet_ntop hdr (h ++ concat (map encode_address addrs)) =
    map (fun a => ipv6_text inet_ntop a.1.1) addrs.
Proof.
  intros H h Hh Hp. unfold ia_addresses. rewrite length_app.
  replace (_ <? hdr) with false by lia. rewrite drop_app_length' by done.
  by apply encoded_addresses.
Qed.

Lemma encoded_requests codes : Forall (fun c => 0 <= c < 65536) codes ->
  requests (concat (map (be_bytes 2) codes)) = codes /\
  zlen (concat (map (be_bytes 2) codes)) mod 2 = 0.
Proof.
  intros H. split.
  - induction H as [|c codes Hc _ IH]; [done|]. cbn [map concat].
    destruct (be_bytes2 c Hc) as (a & b & -> & -> & _). cbn [app requests]. by rewrite IH.
  - assert (length (concat (map (be_bytes 2) codes)) = (length codes * 2)%nat) as ->.
    { clear H. induction codes as [|c codes IH]; [done|]. cbn [map concat].
      rewrite length_app, IH, be_bytes_length. done. }
    rewrite Nat2Z.inj_mul. apply Z.mod_mul. lia.
Qed.

Lemma encoded_vendor_class e t : zlen t < 65536 -> bytes_ok t ->
  vendor_class_of (be_bytes 4 e ++ be_bytes 2 (zlen t) ++ t) = (text_or_hex6 t, []).
Proof.
  intros Ht Hok. unfold vendor_class_of.
  replace (_ <? 4) with false by (rewrite length_app, be_bytes_length; lia).
  rewrite drop_app_length' by (by rewrite be_bytes_length).
  destruct (be_bytes2 (zlen t)) as (n1 & n2 & -> & Hn & _); [lia|]. cbn [app]. rewrite <-Hn.
  replace (zlen t <? zlen t) with false by lia. by rewrite take_ge by lia.
Qed.

Lemma encoded_vendor_options e subs : 0 <= e < 2 ^ 32 -> Forall sub6_ok subs ->
  vendor_options_of (be_bytes 4 e ++ concat (map (fun s => encode6 s.1 s.2) subs)) =
  ({| vo_enterprise_number := e;
      vo_suboptions := map (fun s => vendor_suboption_of (whole s.1 s.2)) subs;
      vo_raw_value := Some (be_bytes 4 e ++ concat (map (fun s => encode6 s.1 s.2) subs)) |}, []).
Proof.
  intros He H. unfold vendor_options_of.
  replace (_ <? 4) with false by (rewrite length_app, be_bytes_length; lia).
  rewrite drop_app_length' by (by rewrite be_bytes_length).
  rewrite take_app_length' by (by rewrite be_bytes_length).
  assert (options_of (concat (map (fun s => encode6 s.1 s.2) subs)) =
    map (fun s => whole s.1 s.2) subs) as ->.
  { apply options_of_unique.
    - apply concat_bytes_ok. eapply List.Forall_impl; [|exact H].
      intros s (_ & _ & ?). by apply encode6_bytes.
    - induction H as [|s subs (? & ? & _) _ IH]; [constructor|]. cbn [map concat].
      apply encode6_read; assumption. }
  f_equal.
  - f_equal.
    + rewrite be_value_be_bytes, Z.mul_0_l, Z.add_0_l.
      replace (256 ^ Z.of_nat 4) with (2 ^ 32) by reflexivity. exact (Z.mod_small _ _ He).
    + clear H. induction subs as [|s subs IH]; [done|]. cbn [map]. unfold headed in *.
      rewrite filter_cons_True by done. cbn [map]. by rewrite IH.
  - unfold vendor_options_warnings. clear H. by induction subs.
Qed.

(** ** The decoded view of typed options *)

(** What a reader of the options expects. *)
Definition expected (os : list option6) : DhcpV6DecodedOptions :=
  {| d6_client_duid :=
       typed_first (fun o => match o with Client_id v => Some v | _ => None end) os ≫= cf_dhcpv6__set_bytes;
     d6_server_duid :=
       typed_first (fun o => match o with Server_id v => Some v | _ => None end) os ≫= cf_dhcpv6__set_bytes;
     d6_assigned_addresses :=
       concat (map (fun o =>
         match o with
         | Ia_na _ _ _ addrs | Ia_ta _ addrs => map (fun a => ipv6_text inet_ntop a.1.1) addrs
         | _ => []
         end) os);
     d6_option_request_option_codes :=
       concat (map (fun o => match o with Oro codes => codes | _ => [] end) os);
     d6_vendor_class :=
       default [] (typed_first (fun o => match o with Vendor_class _ t => Some (text_or_hex6 t) | _ => None end) os);
     d6_vendor_options :=
       typed_first (fun o =>
         match o with
         | Vendor_opts e subs =>
             Some {| vo_enterprise_number := e;
                     vo_suboptions := map (fun s => vendor_suboption_of (whole s.1 s.2)) subs;
                     vo_raw_value := Some (option6_value o) |}
         | _ => None
         end) os |}.

Lemma decoded_expected os : Forall option6_ok os ->
  decoded_of inet_ntop (map wire6_of os) = expected os.
Proof.
  intros H. unfold decoded_of, expected. f_equal.
  - rewrite <-(option_fmap_id (first _ 1)). f_equal. apply first_is; [done|].
    intros [] Ho; try done. cbn [option6_code]. by rewrite (other_code _ _ _ Ho) by (simpl; tauto).
  - rewrite <-(option_fmap_id (first _ 2)). f_equal. apply first_is; [done|].
    intros [] Ho; try done. cbn [option6_code]. by rewrite (other_code _ _ _ Ho) by (simpl; tauto).
  - apply concat_is; [done|]. intros [] Ho; try done; unfold addresses_of, wire6_of, whole;
      cbn [w6_code w6_value option6_code].
    + change (3 =? 3) with true. cbn [option6_value]. rewrite !app_assoc, <-(app_assoc (be_bytes 4 iaid)).
      apply encoded_ia; [apply Ho|rewrite !length_app, !be_bytes_length; done|lia].
    + change (4 =? 3) with false. change (4 =? 4) with true.
      apply encoded_ia; [apply Ho|by rewrite be_bytes_length|lia].
    + by rewrite !(other_code _ _ _ Ho) by (simpl; tauto).
  - apply concat_is; [done|]. intros [] Ho; try done; unfold requests_of, wire6_of, whole;
      cbn [w6_code w6_value option6_code].
    + change (6 =? 6) with true. by apply encoded_requests, Ho.
    + by rewrite !(other_code _ _ _ Ho) by (simpl; tauto).
  - f_equal. apply first_is; [done|]. intros [] Ho; try done; cbn [option6_code].
    + change (16 =? 16) with true. cbn [compose option6_value]. destruct Ho as [Hl [_ Ht]].
      cbn [option6_value] in Hl. rewrite !length_app in Hl. by rewrite encoded_vendor_class by (done || lia).
    + by rewrite !(other_code _ _ _ Ho) by (simpl; tauto).
  - apply first_is; [done|]. intros [] Ho; try done; cbn [option6_code].
    + change (17 =? 17) with true. cbn [compose option6_value].
      destruct Ho as [_ [He Hs]]. by rewrite encoded_vendor_options.
    + by rewrite !(other_code _ _ _ Ho) by (simpl; tauto).
Qed.

Lemma encoded_no_warnings os : forall earlier, Forall option6_ok os ->
  decoded_warnings6 earlier (map wire6_of os) = [].
Proof.
  induction os as [|o os IH]; intros earlier H; [done|]. apply Forall_cons_iff in H as [Ho H].
  cbn [map decoded_warnings6]. rewrite IH, app_nil_r by done.
  unfold decode_warnings, wire6_of, whole. cbn [w6_code w6_value].
  destruct o; try done; cbn [option6_code].
  - change (3 =? 3) with true. unfold ia_all_warnings. cbn [option6_value].
    rewrite !length_app, !be_bytes_length. replace (_ <? 12) with false by lia.
    rewrite !app_assoc, <-(app_assoc (be_bytes 4 iaid)), drop_app_length'
      by (by rewrite !length_app, !be_bytes_length). by apply encoded_addresses, Ho.
  - change (4 =? 3) with false. change (4 =? 4) with true. unfold ia_all_warnings. cbn [option6_value].
    rewrite length_app, be_bytes_length. replace (_ <? 4) with false by lia.
    rewrite drop_app_length' by (by rewrite be_bytes_length). by apply encoded_addresses, Ho.
  - change (6 =? 3) with false. change (6 =? 4) with false. change (6 =? 6) with true.
    cbn [option6_value]. by rewrite (proj2 (encoded_requests codes (proj2 Ho))).
  - replace (_ && _) with (negb (seen earlier 16)) by done. cbn [option6_value].
    destruct Ho as [Hl [_ Ht]]. cbn [option6_value] in Hl. rewrite !length_app in Hl.
    rewrite encoded_vendor_class by (done || lia). by destruct (seen earlier 16).
  - cbn [option6_value]. destruct Ho as [_ [He Hs]]. rewrite encoded_vendor_options by done.
    by destruct (seen earlier 17).
  - by rewrite !(other_code _ _ _ Ho) by (simpl; tauto).
Qed.
End Decoded.

(** ** Whole messages *)

(** The numbers of the enumeration in the schema. *)
Definition message_type_number (mt : MessageType6) : Z :=
  match mt with
  | MESSAGE_TYPE6_UNSPECIFIED => 0 | SOLICIT => 1 | ADVERTISE => 2 | REQUEST6 => 3 | CONFIRM => 4
  | RENEW => 5 | REBIND => 6 | REPLY => 7 | RELEASE6 => 8 | DECLINE6 => 9 | RECONFIGURE => 10
  | INFORMATION_REQUEST => 11 | RELAY_FORW => 12 | RELAY_REPL => 13 | LEASEQUERY6 => 14
  | LEASEQUERY_REPLY => 15 | LEASEQUERY_DONE => 16 | LEASEQUERY_DATA => 17
  end.

Lemma message_type_number_of t :
  message_type_number (message_type_enum6 t) = if (1 <=? t) && (t <=? 17) then t else 0.
Proof.
  unfold message_type_enum6. destruct (_ && _) eqn:E; [|done].
  assert (forallb (fun n => message_type_number
    (default MESSAGE_TYPE6_UNSPECIFIED (message_types6 !! n)) =? Z.of_nat n + 1) (seq 0 17) = true) as H
    by reflexivity.
  rewrite forallb_forall in H. specialize (H (Z.to_nat (t - 1))).
  rewrite in_seq in H. lia.
Qed.

(** Only the types the source names have an event type of their own. *)
Lemma event_type6_inj mt mt' :
  event_type_for_message_type6 mt = event_type_for_message_type6 mt' ->
  mt = mt' \/ event_type_for_message_type6 mt = bs "dhcpv6.packet.observed".
Proof. destruct mt, mt'; intros H; try (by left); try (by right); vm_compute in H; discriminate. Qed.

Lemma header6_type inet_ntop payload :
  h6_message_type (header6_of inet_ntop payload) = message_type_enum6 (num6 payload 0 1).
Proof. unfold header6_of. by destruct (is_relay payload). Qed.

(** C23. The DHCPv6 parser ends on every payload without an access outside it.  It
    refuses exactly a payload shorter than 4 bytes; otherwise the options are
    the only reading of the options area by the grammar and cover all its
    bytes, the header, raw options, decoded view and warnings of the event are
    those of that reading, and the event type is that of the message type,
    whose number is the first byte where that is one of the 17 known. *)
Theorem dhcpv6_parse_correct inet_ntop payload : bytes_ok payload ->
  (zlen payload < 4 -> cf_dhcpv6_parse inet_ntop payload = Ret None) /\
  (4 <= zlen payload ->
   exists os ev, options_read (options_area payload) os /\
     (forall os', options_read (options_area payload) os' -> os' = os) /\
     concat (map wire6_bytes os) = options_area payload /\
     cf_dhcpv6_parse inet_ntop payload =
       Ret (Some (ev, event_type_for_message_type6 (h6_message_type (ev6_header ev)))) /\
     message_type_number (h6_message_type (ev6_header ev)) =
       (let t := num6 payload 0 1 in if (1 <=? t) && (t <=? 17) then t else 0) /\
     event6_view inet_ntop payload os ev).
Proof.
  intros Hok. split.
  - intros Hl. unfold cf_dhcpv6_parse, DHCPV6_MIN_HEADER_LEN. by replace (zlen payload <? 4) with true by lia.
  - intros Hl. destruct (parse6_view inet_ntop payload Hok Hl) as (ev & He & Hv).
    assert (bytes_ok (options_area payload)) as Hao by (by apply Forall_drop).
    pose proof (options_of_read _ Hao) as Hr. exists (options_of (options_area payload)), ev.
    rewrite (e6_header _ _ _ _ Hv), header6_type, message_type_number_of.
    split; [done|]. split; [intros os' H; by eapply options_read_det|].
    split; [by apply options_cover|]. rewrite header6_type in He. done.
Qed.

(** A relay message cut inside its peer address. *)
Lemma dhcpv6_parse_correct_witness :
  exists ev, cf_dhcpv6_parse (fun _ _ => bs "::") (12 :: 3 :: replicate 20 0) =
      Ret (Some (ev, bs "dhcpv6.relay-forw.observed")) /\
    h6_link_address (ev6_header ev) = bs "::" /\ h6_peer_address (ev6_header ev) = [].
Proof.
  assert (bytes_ok (12 :: 3 :: replicate 20 0)) as Hok.
  { do 2 (apply Forall_cons_2; [done|]). apply Forall_replicate. done. }
  destruct (proj2 (dhcpv6_parse_correct (fun _ _ => bs "::") _ Hok) ltac:(vm_compute; done))
    as (os & ev & _ & _ & _ & He & _).
  exists ev. vm_compute in He. injection He as <-. split; [reflexivity|done].
Defined.

Lemma client_area t xid os : (t =? 12) || (t =? 13) = false ->
  options_area (client_message t xid os) = encode_options os.
Proof.
  intros Ht. unfold options_area, client_message, is_relay. rewrite Ht.
  apply (drop_app_length' (t :: be_bytes 3 xid)). done.
Qed.

Lemma relay_area t hop link peer os : (t =? 12) || (t =? 13) = true ->
  length link = 16%nat -> length peer = 16%nat ->
  options_area (relay_message t hop link peer os) = encode_options os.
Proof.
  intros Ht Hl Hp. unfold options_area, relay_message, is_relay. rewrite Ht.
  rewrite app_assoc. apply (drop_app_length' (t :: hop :: link ++ peer)).
  cbn [length]. rewrite length_app. lia.
Qed.

(** What the event of an encoded message says of its options. *)
Record encoded_view (inet_ntop : Z -> list Z -> list Z) (os : list option6) (ev : DhcpV6PacketEvent)
    : Prop := {
  en_options : ev6_raw_options ev = imap option6_view (map wire6_of os);
  en_decoded : ev6_decoded ev = expected inet_ntop os;
  en_warnings : ev6_parser_warnings ev = []
}.

Lemma encoded_walk_warnings os : concat (imap walk_warning (map wire6_of os)) = [].
Proof.
  assert (forall i, concat (imap (fun k => walk_warning (i + k)) (map wire6_of os)) = []) as H; [|apply (H 0%nat)].
  induction os as [|o os IH]; intros i; [done|]. cbn [map]. rewrite imap_cons. cbn [concat].
  change (walk_warning _ (wire6_of o)) with (@nil parser_warning). cbn [app].
  etrans; [|apply (IH (S i))]. apply (f_equal (@concat _)). apply imap_ext. intros k x _. simpl. f_equal. lia.
Qed.

Lemma encoded_parse inet_ntop payload os : bytes_ok payload -> 4 <= zlen payload ->
  Forall option6_ok os -> options_area payload = encode_options os ->
  exists ev, cf_dhcpv6_parse inet_ntop payload =
      Ret (Some (ev, event_type_for_message_type6 (h6_message_type (header6_of inet_ntop payload)))) /\
    ev6_header ev = header6_of inet_ntop payload /\ encoded_view inet_ntop os ev.
Proof.
  intros Hok Hl Hos Ha. destruct (parse6_view inet_ntop payload Hok Hl) as (ev & He & Hv).
  exists ev. split; [done|]. split; [apply Hv|].
  assert (options_of (options_area payload) = map wire6_of os) as Hr.
  { rewrite Ha. apply options_of_unique; [by apply encoded_options_bytes|].
    pose proof (encoded_options_read os [] [] Hos OR_end) as H. by rewrite !app_nil_r in H. }
  rewrite Hr in Hv. split.
  - apply Hv.
  - rewrite (e6_decoded _ _ _ _ Hv). by apply decoded_expected.
  - rewrite (e6_warnings _ _ _ _ Hv), encoded_walk_warnings. by apply encoded_no_warnings.
Qed.

Lemma message6_parses inet_ntop os t : Forall option6_ok os -> is_byte t ->
  (forall xid, 0 <= xid < 2 ^ 24 -> t <> 12 -> t <> 13 ->
   exists ev et, cf_dhcpv6_parse inet_ntop (client_message t xid os) = Ret (Some (ev, et)) /\
     ev6_header ev = {| h6_message_type := message_type_enum6 t; h6_transaction_id := xid;
                        h6_hop_count := 0; h6_link_address := []; h6_peer_address := [] |} /\
     et = event_type_for_message_type6 (message_type_enum6 t) /\
     encoded_view inet_ntop os ev) /\
  (forall hop link peer, is_byte hop -> t = 12 \/ t = 13 ->
   zlen link = 16 -> zlen peer = 16 -> bytes_ok link -> bytes_ok peer ->
   exists ev et, cf_dhcpv6_parse inet_ntop (relay_message t hop link peer os) = Ret (Some (ev, et)) /\
     ev6_header ev = {| h6_message_type := message_type_enum6 t; h6_transaction_id := 0;
                        h6_hop_count := hop; h6_link_address := ipv6_text inet_ntop link;
                        h6_peer_address := ipv6_text inet_ntop peer |} /\
     et = event_type_for_message_type6 (message_type_enum6 t) /\
     encoded_view inet_ntop os ev).
Proof.
  intros Hos Ht. assert (forall l, num6 (t :: l) 0 1 = t) as Hn by (intros l; unfold num6, slice; simpl; lia).
  split.
  - intros xid Hx N1 N2. assert ((t =? 12) || (t =? 13) = false) as Hr by lia.
    destruct (encoded_parse inet_ntop (client_message t xid os) os) as (ev & He & Hh & Hv).
    { apply Forall_cons_2; [done|]. apply Forall_app_2; [apply be_bytes_ok|by apply encoded_options_bytes]. }
    { unfold client_message. cbn [length]. rewrite length_app, be_bytes_length. lia. }
    { done. }
    { by apply client_area. }
    exists ev. eexists. split; [exact He|]. rewrite header6_type. unfold client_message at 1. rewrite Hn.
    split; [|done]. rewrite Hh. unfold header6_of, client_message. rewrite Hn. unfold is_relay. rewrite Hr.
    f_equal. unfold num6. rewrite slice_cons by lia. rewrite slice_app_l by (rewrite ?be_bytes_length; lia).
    rewrite slice_all by done. rewrite be_value_be_bytes, Z.mul_0_l, Z.add_0_l.
    replace (256 ^ Z.of_nat 3) with (2 ^ 24) by reflexivity. exact (Z.mod_small _ _ Hx).
  - intros hop link peer Hhop Htt Hl Hp Hlo Hpo. assert ((t =? 12) || (t =? 13) = true) as Hr by lia.
    destruct (encoded_parse inet_ntop (relay_message t hop link peer os) os) as (ev & He & Hh & Hv).
    { apply Forall_cons_2; [done|]. apply Forall_cons_2; [done|].
      apply Forall_app_2; [done|]. apply Forall_app_2; [done|by apply encoded_options_bytes]. }
    { unfold relay_message. cbn [length]. rewrite !length_app. lia. }
    { done. }
    { apply relay_area; [done|lia|lia]. }
    exists ev. eexists. split; [exact He|]. rewrite header6_type. unfold relay_message at 1. rewrite Hn.
    split; [|done]. rewrite Hh. unfold header6_of, relay_message. rewrite Hn. unfold is_relay. rewrite Hr.
    unfold address_at. cbn [length]. rewrite !length_app.
    replace (2 + 16 <=? _) with true by lia. replace (18 + 16 <=? _) with true by lia. f_equal.
    + do 2 rewrite slice_cons by lia. rewrite slice_app_l by lia. change (2 - 1 - 1) with 0.
      by rewrite slice_all by lia.
    + do 2 rewrite slice_cons by lia. rewrite slice_app_r by lia.
      replace (18 - 1 - 1 - zlen link) with 0 by lia. rewrite slice_app_l by lia.
      by rewrite slice_all by lia.
Qed.

(** C24. A client or server message, or a relay message, encoded with any typed
    options parses back with no warning: its type, its transaction id or its
    hop count and two addresses, its options one by one, and the decoded view
    holds the first DUIDs, vendor class and vendor options that were encoded,
    and every address of its IAs and every requested code in order. *)
Theorem dhcpv6_roundtrip inet_ntop os t : Forall option6_ok os -> is_byte t ->
  (forall xid, 0 <= xid < 2 ^ 24 -> t <> 12 -> t <> 13 ->
   exists ev et, cf_dhcpv6_parse inet_ntop (client_message t xid os) = Ret (Some (ev, et)) /\
     ev6_header ev = {| h6_message_type := message_type_enum6 t; h6_transaction_id := xid;
                        h6_hop_count := 0; h6_link_address := []; h6_peer_address := [] |} /\
     et = event_type_for_message_type6 (message_type_enum6 t) /\
     encoded_view inet_ntop os ev) /\
  (forall hop link peer, is_byte hop -> t = 12 \/ t = 13 ->
   zlen link = 16 -> zlen peer = 16 -> bytes_ok link -> bytes_ok peer ->
   exists ev et, cf_dhcpv6_parse inet_ntop (relay_message t hop link peer os) = Ret (Some (ev, et)) /\
     ev6_header ev = {| h6_message_type := message_type_enum6 t; h6_transaction_id := 0;
                        h6_hop_count := hop; h6_link_address := ipv6_text inet_ntop link;
                        h6_peer_address := ipv6_text inet_ntop peer |} /\
     et = event_type_for_message_type6 (message_type_enum6 t) /\
     encoded_view inet_ntop os ev).
Proof. apply message6_parses. Qed.

(** A reply that assigns one address. *)
Definition hex_text (family : Z) (ip : list Z) : list Z := concat (map hex_byte ip).

Definition assigned : list Z := [32; 1; 13; 184] ++ replicate 12 7.

Definition reply_options : list option6 :=
  [Client_id [0; 1; 2]; Ia_na 9 100 200 [(assigned, 300, 400)]; Oro [23; 24]; Client_id [5];
   Vendor_opts 311 [(1, bs "hi")]].

Lemma dhcpv6_roundtrip_witness :
  exists ev et, cf_dhcpv6_parse hex_text (client_message 7 66051 reply_options) = Ret (Some (ev, et)) /\
    et = bs "dhcpv6.reply.observed" /\
    h6_transaction_id (ev6_header ev) = 66051 /\
    d6_client_duid (ev6_decoded ev) = Some [0; 1; 2] /\
    d6_assigned_addresses (ev6_decoded ev) = [hex_text 6 assigned] /\
    d6_option_request_option_codes (ev6_decoded ev) = [23; 24].
Proof.
  assert (Forall option6_ok reply_options) as Hos.
  { apply Forall_cons_2; [split; [done|by apply bytes_okb]|].
    apply Forall_cons_2; [split; [done|]|].
    { apply Forall_cons_2; [|constructor]. split; [done|by apply bytes_okb]. }
    apply Forall_cons_2; [split; [done|repeat (apply Forall_cons_2; [done|]); constructor]|].
    apply Forall_cons_2; [split; [done|by apply bytes_okb]|].
    apply Forall_cons_2; [|constructor]. split; [done|]. split; [done|].
    apply Forall_cons_2; [|constructor]. split; [done|]. split; [done|by apply bytes_okb]. }
  destruct (proj1 (dhcpv6_roundtrip hex_text reply_options 7 Hos ltac:(done)) 66051 ltac:(done)
    ltac:(done) ltac:(done)) as (ev & et & He & Hh & Ht & Hv).
  exists ev, et. split; [exact He|]. split; [exact Ht|]. rewrite Hh, (en_decoded _ _ _ Hv).
  split; [reflexivity|]. split; [reflexivity|]. split; reflexivity.
Defined.

(** ** Cut headers *)

(** A message that ends two or three bytes into an option keeps those bytes as
    the value of a malformed option, with one warning; but the decoded view
    does not look at the mark: bytes that spell the code 1 become the client
    DUID of a message that has none, so the DUID is made of an option code. *)
Theorem cut_header_is_decoded inet_ntop t xid os rest :
  Forall option6_ok os -> is_byte t -> t <> 12 -> t <> 13 -> bytes_ok rest -> zlen rest < 2 ->
  (forall duid, Client_id duid ∉ os) ->
  exists ev et,
    cf_dhcpv6_parse inet_ntop (client_message t xid os ++ [0; 1] ++ rest) = Ret (Some (ev, et)) /\
    d6_client_duid (ev6_decoded ev) = Some ([0; 1] ++ rest) /\
    list.last (ev6_raw_options ev) =
      Some {| o6_code := 1; o6_name := bs "OPTION_CLIENTID"; o6_length := 2 + zlen rest;
              o6_raw_value := Some ([0; 1] ++ rest); o6_ordinal := u32 (zlen os);
              o6_malformed := true |} /\
    length (ev6_parser_warnings ev) = 1%nat.
Proof.
  intros Hos Ht N1 N2 Hrest Hl Hno. set (payload := client_message t xid os ++ [0; 1] ++ rest).
  assert (bytes_ok ([0; 1] ++ rest)) as Hcut by (repeat (apply Forall_cons_2; [done|]); done).
  assert (payload = (t :: be_bytes 3 xid) ++ encode_options os ++ [0; 1] ++ rest) as Hp
    by (unfold payload, client_message; cbn [app]; by rewrite <-app_assoc).
  assert (bytes_ok payload) as Hok.
  { rewrite Hp. apply Forall_app_2; [apply Forall_cons_2; [done|apply be_bytes_ok]|].
    apply Forall_app_2; [by apply encoded_options_bytes|done]. }
  assert (options_area payload = encode_options os ++ [0; 1] ++ rest) as Ha.
  { unfold options_area, is_relay. rewrite Hp. cbn [app].
    replace ((t =? 12) || (t =? 13)) with false by lia. done. }
  destruct (parse6_view inet_ntop payload Hok) as (ev & He & Hv).
  { rewrite Hp, length_app. cbn [length]. rewrite be_bytes_length. lia. }
  assert (options_of (options_area payload) = map wire6_of os ++ [cut ([0; 1] ++ rest)]) as Hr.
  { rewrite Ha. apply options_of_unique.
    - apply Forall_app_2; [by apply encoded_options_bytes|done].
    - apply encoded_options_read; [done|]. apply OR_cut. cbn [app length]. lia. }
  rewrite Hr in Hv. eexists ev, _. split; [exact He|].
  rewrite (e6_decoded _ _ _ _ Hv), (e6_options _ _ _ _ Hv), (e6_warnings _ _ _ _ Hv).
  assert (first (map wire6_of os) 1 = None) as Hf.
  { clear -Hos Hno. unfold first. induction Hos as [|o os Ho _ IH]; [done|]. cbn [map].
    rewrite filter_cons_False; [apply IH; intros d Hd; by apply (Hno d); right|].
    destruct o as [d| | | | | | |c v]; try done; [by destruct (Hno d); left|].
    pose proof (other_code c v 1 Ho ltac:(simpl; tauto)). cbn. lia. }
  unfold decoded_of. cbn [d6_client_duid]. rewrite first_snoc, Hf, imap_app. cbn [imap].
  split; [done|]. split.
  - rewrite list.last_snoc. cbn [compose]. unfold option6_view. cbn [cut w6_code w6_value w6_fault app].
    rewrite length_map, Nat.add_0_r. cbn [length]. do 2 f_equal. lia.
  - rewrite decoded_warnings_app, encoded_no_warnings, imap_app, concat_app, encoded_walk_warnings by done.
    done.
Qed.

Lemma cut_header_is_decoded_witness :
  exists ev et, cf_dhcpv6_parse hex_text (client_message 1 5 [Oro [23]] ++ [0; 1; 9]) = Ret (Some (ev, et)) /\
    d6_client_duid (ev6_decoded ev) = Some [0; 1; 9].
Proof.
  destruct (cut_header_is_decoded hex_text 1 5 [Oro [23]] [9]) as (ev & et & He & Hd & _).
  - apply Forall_cons_2; [|constructor]. split; [done|]. apply Forall_cons_2; [done|constructor].
  - done.
  - done.
  - done.
  - by apply bytes_okb.
  - done.
  - intros duid H%list_elem_of_singleton. done.
  - exists ev, et. split; [exact He|exact Hd].
Defined.
