(* ===== verification/Dns.v ===== *)
(** * Dns: the DNS message parser ([libs/cloudflow-packet/cf_dns.c])

    Name decompression, the RDATA text decoders, the header, the question and
    record sections, EDNS and the entry point.  Reads go through the
    [ParseUtil] readers or index the message directly, as in the source.
    Allocations of the tree succeed (their failure only drops nodes); a
    presentation buffer is its bytes before the terminating NUL, so [out_len]
    is the length of the list.  [inet_ntop] is libc's formatter of an address
    (family, bytes), whose result the code only stores. *)

From S2P Require Import Prelude IpFmt ParseUtil.

Definition DNS_HEADER_LEN : Z := 12.
Definition DNS_MAX_NAME_OCTETS : Z := 255.
Definition DNS_MAX_LABEL_LEN : Z := 63.
Definition DNS_MAX_POINTER_JUMPS : Z := 128.
Definition DNS_NAME_BUF : Z := 512.
Definition DNS_TYPE_A : Z := 1.
Definition DNS_TYPE_NS : Z := 2.
Definition DNS_TYPE_CNAME : Z := 5.
Definition DNS_TYPE_SOA : Z := 6.
Definition DNS_TYPE_PTR : Z := 12.
Definition DNS_TYPE_MX : Z := 15.
Definition DNS_TYPE_TXT : Z := 16.
Definition DNS_TYPE_AAAA : Z := 28.
Definition DNS_TYPE_SRV : Z := 33.
Definition DNS_TYPE_OPT : Z := 41.

Definition dns_type_names : list (Z * string) :=
  [(1, "A"); (2, "NS"); (5, "CNAME"); (6, "SOA"); (12, "PTR"); (13, "HINFO"); (15, "MX");
   (16, "TXT"); (17, "RP"); (24, "SIG"); (25, "KEY"); (28, "AAAA"); (29, "LOC"); (33, "SRV");
   (35, "NAPTR"); (39, "DNAME"); (41, "OPT"); (43, "DS"); (46, "RRSIG"); (47, "NSEC");
   (48, "DNSKEY"); (50, "NSEC3"); (51, "NSEC3PARAM"); (52, "TLSA"); (59, "CDS");
   (60, "CDNSKEY"); (64, "SVCB"); (65, "HTTPS"); (252, "AXFR"); (255, "ANY");
   (257, "CAA")]%string.

(** The switch, one case a pair; the default formats into 16 bytes. *)
Definition dns_type_name (t : Z) : list Z :=
  match list_find (fun p => p.1 = t) dns_type_names with
  | Some (_, (_, name)) => bs name
  | None => snprintf 16 (bs "TYPE" ++ dec t)
  end.

(** ** Name decompression *)

Definition lower (lowercase : bool) (c : Z) : Z :=
  if lowercase && (65 <=? c) && (c <=? 90) then u8 (c + 0x20) else c.

(** The byte loop of a label, [n] bytes left from [p]. *)
Fixpoint copy_label (n : nat) (msg : list Z) (p : Z) (lowercase : bool) (out : list Z)
    : exec (list Z) :=
  match n with
  | O => Ret out
  | S n' =>
      if zlen out + 1 <? DNS_NAME_BUF then
        c ← rd msg p;
        copy_label n' msg (p + 1) lowercase (out ++ [lower lowercase c])
      else Ret out
  end.

(** The loop; the result is the return code, [out] and [*consumed]. *)
Fixpoint name_loop (fuel : nat) (msg : list Z) (start : Z) (lowercase : bool) (pos : Z)
    (out : list Z) (name_octets jumps : Z) (first_ptr_seen first_label : bool) (consumed : Z)
    : exec (Z * list Z * Z) :=
  match fuel with
  | O => Spin
  | S fuel' =>
      let msg_len := zlen msg in
      if msg_len <=? pos then Ret (0, out, consumed) else
      label_len ← rd msg pos;
      if Z.land label_len 0xc0 =? 0x00 then
        if label_len =? 0 then
          let pos := pos + 1 in
          Ret (1, out, if first_ptr_seen then consumed else pos - start)
        else if msg_len <? pos + 1 + label_len then Ret (0, out, consumed)
        else
          let name_octets := name_octets + label_len + 1 in
          if DNS_MAX_NAME_OCTETS <? name_octets then Ret (0, out, consumed) else
          let out := if negb first_label && (zlen out + 1 <? DNS_NAME_BUF)
                     then out ++ [46] else out in
          out ← copy_label (Z.to_nat label_len) msg (pos + 1) lowercase out;
          name_loop fuel' msg start lowercase (pos + 1 + label_len) out name_octets jumps
            first_ptr_seen false consumed
      else if Z.land label_len 0xc0 =? 0xc0 then
        if msg_len <? pos + 2 then Ret (0, out, consumed) else
        low ← rd msg (pos + 1);
        let target := Z.lor (Z.shiftl (Z.land label_len 0x3f) 8) low in
        let consumed := if first_ptr_seen then consumed else pos + 2 - start in
        if pos <=? target then Ret (0, out, consumed) else
        let jumps := jumps + 1 in
        if DNS_MAX_POINTER_JUMPS <? jumps then Ret (0, out, consumed) else
        name_loop fuel' msg start lowercase target out name_octets jumps true first_label consumed
      else Ret (0, out, consumed)
  end.

(** At most 127 labels, 128 jumps and one last octet. *)
Definition NAME_FUEL : nat := 400.

Definition decode_name (msg : list Z) (start : Z) (lowercase : bool)
    : exec (Z * list Z * Z) :=
  name_loop NAME_FUEL msg start lowercase start [] 0 0 false true 0.

(** ** RDATA text

    Each decoder returns its text and the [malformed] flag. *)

Definition rdata_name_text (msg : list Z) (off : Z) (malformed : bool) : exec (list Z * bool) :=
  '(ok, name, _) ← decode_name msg off true;
  Ret (dup_str name, malformed || (ok =? 0)).

Definition rdata_mx_text (msg : list Z) (off rdlen : Z) (malformed : bool)
    : exec (list Z * bool) :=
  if rdlen <? 3 then Ret ([], true) else
  pref ← cf_get_be16 msg off;
  match pref with
  | None => Ret ([], true)
  | Some pref =>
      '(ok, name, _) ← decode_name msg (off + 2) true;
      let buf := snprintf (DNS_NAME_BUF + 16) (dec pref ++ bs " " ++ c_str name) in
      Ret (dup_str buf, malformed || (ok =? 0))
  end.

Definition rdata_srv_text (msg : list Z) (off rdlen : Z) (malformed : bool)
    : exec (list Z * bool) :=
  if rdlen <? 7 then Ret ([], true) else
  prio ← cf_get_be16 msg off;
  match prio with None => Ret ([], true) | Some prio =>
  weight ← cf_get_be16 msg (off + 2);
  match weight with None => Ret ([], true) | Some weight =>
  port ← cf_get_be16 msg (off + 4);
  match port with None => Ret ([], true) | Some port =>
  '(ok, name, _) ← decode_name msg (off + 6) true;
  let buf := snprintf (DNS_NAME_BUF + 32)
    (dec prio ++ bs " " ++ dec weight ++ bs " " ++ dec port ++ bs " " ++ c_str name) in
  Ret (dup_str buf, malformed || (ok =? 0))
  end end end.

(** [n] consecutive 32-bit fields, [None] at the first that does not fit. *)
Fixpoint get_be32s (n : nat) (msg : list Z) (p : Z) : exec (option (list Z)) :=
  match n with
  | O => Ret (Some [])
  | S n' =>
      v ← cf_get_be32 msg p;
      match v with
      | None => Ret None
      | Some v =>
          rest ← get_be32s n' msg (p + 4);
          Ret (match rest with Some vs => Some (v :: vs) | None => None end)
      end
  end.

Definition rdata_soa_text (msg : list Z) (off rdlen : Z) (malformed : bool)
    : exec (list Z * bool) :=
  let p := off in
  let rdata_end := off + rdlen in
  '(ok, mname, consumed) ← decode_name msg p true;
  if ok =? 0 then Ret (dup_str mname, true) else
  let p := p + consumed in
  '(ok, rname, consumed) ← decode_name msg p true;
  if ok =? 0 then Ret (dup_str rname, true) else
  let p := p + consumed in
  if (rdata_end <? p + 20) || (zlen msg <? p + 20) then Ret ([], true) else
  fields ← get_be32s 5 msg p;
  match fields with
  | None => Ret ([], true)
  | Some fs =>
      let buf := snprintf (2 * DNS_NAME_BUF + 96)
        (c_str mname ++ bs " " ++ c_str rname ++ concat (map (fun v => bs " " ++ dec v) fs)) in
      Ret (dup_str buf, malformed)
  end.

(** [for (i = 0; i < slen && buf_len < rdlen; i++)] *)
Fixpoint txt_copy (n : nat) (msg : list Z) (p rdlen : Z) (buf : list Z) : exec (list Z) :=
  match n with
  | O => Ret buf
  | S n' =>
      if zlen buf <? rdlen then
        c ← rd msg p; txt_copy n' msg (p + 1) rdlen (buf ++ [c])
      else Ret buf
  end.

Fixpoint txt_loop (fuel : nat) (msg : list Z) (p e rdlen : Z) (first malformed : bool)
    (buf : list Z) : exec (list Z * bool) :=
  match fuel with
  | O => Spin
  | S fuel' =>
      if p <? e then
        slen ← rd msg p;
        let p := p + 1 in
        let '(slen, malformed) := if e <? p + slen then (u8 (e - p), true) else (slen, malformed) in
        let buf := if negb first && (zlen buf <? rdlen) then buf ++ [32] else buf in
        buf ← txt_copy (Z.to_nat slen) msg p rdlen buf;
        txt_loop fuel' msg (p + slen) e rdlen false malformed buf
      else Ret (buf, malformed)
  end.

Definition rdata_txt_text (msg : list Z) (off rdlen : Z) (malformed : bool)
    : exec (list Z * bool) :=
  let p := off in
  let '(e, malformed) := if zlen msg <? off + rdlen then (zlen msg, true)
                         else (off + rdlen, malformed) in
  if e <=? p then Ret ([], malformed)
  else txt_loop (S (Z.to_nat rdlen)) msg p e rdlen true malformed [].

(** ** The message tree *)

Record dns_header := {
  h_id : Z; h_qr : bool; h_opcode : Z; h_aa : bool; h_tc : bool; h_rd : bool;
  h_ra : bool; h_ad : bool; h_cd : bool; h_rcode : Z;
  h_qdcount : Z; h_ancount : Z; h_nscount : Z; h_arcount : Z
}.

Record dns_question := {
  q_qname : list Z;
  q_qname_wire : option (list Z);
  q_qtype : Z;
  q_qtype_name : list Z;
  q_qclass : Z
}.

Record rr_hdr_t := {
  rh_name : list Z;
  rh_name_malformed : bool;
  rh_type : Z;
  rh_class : Z;
  rh_ttl : Z;
  rh_rdata_off : Z;
  rh_rdlength : Z;
  rh_rdata_overrun : bool
}.

Record dns_rr := {
  rr_name : list Z;
  rr_type : Z;
  rr_type_name : list Z;
  rr_class : Z;
  rr_ttl : Z;
  rr_rdata_raw : option (list Z);
  rr_rdata_text : list Z;
  rr_malformed : bool
}.

Record dns_edns_option := {
  eo_code : Z;
  eo_length : Z;
  eo_raw_value : option (list Z)
}.

Record dns_edns := {
  e_udp_payload_size : Z;
  e_extended_rcode : Z;
  e_version : Z;
  e_do_bit : bool;
  e_options : list dns_edns_option
}.

Record dns_message := {
  m_header : dns_header;
  m_questions : list dns_question;
  m_answers : list dns_rr;
  m_authority : list dns_rr;
  m_additional : list dns_rr;
  m_edns : option dns_edns
}.

Definition bit_set (flags mask : Z) : bool := negb (Z.land flags mask =? 0).

(** An output that a failed reader leaves uninitialised is not usable: reading
    it would be undefined. *)
Definition value (r : option Z) : exec Z :=
  match r with Some v => Ret v | None => Oob end.

Definition get16 (msg : list Z) (off : Z) : exec Z := r ← cf_get_be16 msg off; value r.

Definition build_header (msg : list Z) : exec dns_header :=
  id ← get16 msg 0;
  flags1 ← rd msg 2;
  flags2 ← rd msg 3;
  qd ← get16 msg 4;
  an ← get16 msg 6;
  ns ← get16 msg 8;
  ar ← get16 msg 10;
  Ret {| h_id := id; h_qr := bit_set flags1 0x80;
         h_opcode := Z.land (Z.shiftr flags1 3) 0x0f;
         h_aa := bit_set flags1 0x04; h_tc := bit_set flags1 0x02; h_rd := bit_set flags1 0x01;
         h_ra := bit_set flags2 0x80; h_ad := bit_set flags2 0x20; h_cd := bit_set flags2 0x10;
         h_rcode := Z.land flags2 0x0f; h_qdcount := qd; h_ancount := an; h_nscount := ns;
         h_arcount := ar |}.

(** [section[index]] and [section[index].field]. *)
Definition path_of (n : Z) (section : string) (index : Z) (field : string) : list Z :=
  snprintf n (bs section ++ bs "[" ++ dec index ++ bs "]" ++ bs field).

(** The first 16 bytes that remain at [off]. *)
Definition context_at (msg : list Z) (off : Z) : exec (list Z) :=
  rd_n msg off (if zlen msg - off <? 16 then zlen msg - off else 16).

(** The result is the question, the cursor and the warnings. *)
Definition build_question (msg : list Z) (pos index : Z) (warnings : cf_warn_list_t)
    : exec (option dns_question * Z * cf_warn_list_t) :=
  let name_start := pos in
  '(name_ok, name, consumed) ← decode_name msg name_start true;
  if consumed =? 0 then
    Ret (None, pos, warn warnings "dns_question_truncated"
           "question name runs past end of message" (path_of 48 "questions" index ".qname") None)
  else
    warnings ← (if name_ok =? 0 then
                  ctx ← context_at msg name_start;
                  Ret (warn warnings "dns_name_malformed"
                         "malformed compression/label in question name"
                         (path_of 48 "questions" index ".qname") (Some ctx))
                else Ret warnings);
    qtype ← cf_get_be16 msg (name_start + consumed);
    qclass ← match qtype with
             | None => Ret None
             | Some _ => cf_get_be16 msg (name_start + consumed + 2)
             end;
    match qtype, qclass with
    | Some qtype, Some qclass =>
        wire ← rd_n msg name_start consumed;
        Ret (Some {| q_qname := dup_str name; q_qname_wire := set_bytes wire;
                     q_qtype := qtype; q_qtype_name := dup_str (dns_type_name qtype);
                     q_qclass := qclass |},
             name_start + consumed + 4, warnings)
    | _, _ =>
        Ret (None, pos, warn warnings "dns_question_truncated"
               "question type/class runs past end of message"
               (path_of 48 "questions" index "") None)
    end.

(** The four fixed fields, [None] at the first that does not fit. *)
Definition rr_fixed (msg : list Z) (p : Z) : exec (option (Z * Z * Z * Z)) :=
  type ← cf_get_be16 msg p;
  match type with None => Ret None | Some type =>
  rr_class ← cf_get_be16 msg (p + 2);
  match rr_class with None => Ret None | Some rr_class =>
  ttl ← cf_get_be32 msg (p + 4);
  match ttl with None => Ret None | Some ttl =>
  rdlength ← cf_get_be16 msg (p + 8);
  match rdlength with None => Ret None | Some rdlength =>
  Ret (Some (type, rr_class, ttl, rdlength)) end end end end.

(** [None] is the return code 0. *)
Definition parse_rr_header (msg : list Z) (pos : Z) (warnings : cf_warn_list_t)
    (section : string) (index : Z) : exec (option rr_hdr_t * Z * cf_warn_list_t) :=
  let name_start := pos in
  let msg_len := zlen msg in
  '(ok, name, consumed) ← decode_name msg name_start true;
  let name_malformed := ok =? 0 in
  if consumed =? 0 then Ret (None, pos, warnings) else
  fixed ← rr_fixed msg (name_start + consumed);
  match fixed with
  | None =>
      Ret (None, pos, warn warnings "dns_rr_truncated"
             "resource record header runs past end of message" (path_of 64 section index "") None)
  | Some (type, rr_class, ttl, rdlength) =>
      let rdata_off := name_start + consumed + 10 in
      if msg_len <? rdata_off + rdlength then
        ctx ← context_at msg rdata_off;
        Ret (Some {| rh_name := name; rh_name_malformed := name_malformed; rh_type := type;
                     rh_class := rr_class; rh_ttl := ttl; rh_rdata_off := rdata_off;
                     rh_rdlength := msg_len - rdata_off; rh_rdata_overrun := true |},
             msg_len,
             warn warnings "dns_rdata_overrun" "record rdlength exceeds remaining message bytes"
               (path_of 64 section index ".rdata") (Some ctx))
      else
        warnings ← (if name_malformed then
                      ctx ← context_at msg name_start;
                      Ret (warn warnings "dns_name_malformed"
                             "malformed compression/label in record name"
                             (path_of 64 section index ".name") (Some ctx))
                    else Ret warnings);
        Ret (Some {| rh_name := name; rh_name_malformed := name_malformed; rh_type := type;
                     rh_class := rr_class; rh_ttl := ttl; rh_rdata_off := rdata_off;
                     rh_rdlength := rdlength; rh_rdata_overrun := false |},
             rdata_off + rdlength, warnings)
  end.

(** The option walk of an OPT record. *)
Fixpoint edns_loop (fuel : nat) (msg : list Z) (p e : Z) (warnings : cf_warn_list_t)
    (opts : list dns_edns_option) : exec (list dns_edns_option * cf_warn_list_t) :=
  match fuel with
  | O => Spin
  | S fuel' =>
      if p + 4 <=? e then
        code ← get16 msg p;
        olen ← get16 msg (p + 2);
        let p := p + 4 in
        let '(olen, warnings) :=
          if e <? p + olen then
            (u16 (e - p), warn warnings "dns_edns_option_overrun"
                            "EDNS option length exceeds OPT rdata" (bs "edns.options") None)
          else (olen, warnings) in
        raw ← rd_n msg p olen;
        edns_loop fuel' msg (p + olen) e warnings
          (opts ++ [{| eo_code := code; eo_length := olen; eo_raw_value := set_bytes raw |}])
      else Ret (opts, warnings)
  end.

Definition build_edns (msg : list Z) (h : rr_hdr_t) (warnings : cf_warn_list_t)
    : exec (dns_edns * cf_warn_list_t) :=
  let p := rh_rdata_off h in
  let e := rh_rdata_off h + rh_rdlength h in
  let e := if zlen msg <? e then zlen msg else e in
  '(opts, warnings) ← edns_loop (S (Z.to_nat (rh_rdlength h))) msg p e warnings [];
  Ret ({| e_udp_payload_size := rh_class h;
          e_extended_rcode := Z.land (Z.shiftr (rh_ttl h) 24) 0xff;
          e_version := Z.land (Z.shiftr (rh_ttl h) 16) 0xff;
          e_do_bit := bit_set (rh_ttl h) 0x8000;
          e_options := opts |}, warnings).

Section Records.
Variable inet_ntop : Z -> list Z -> list Z.

Definition rdata_text_for (msg : list Z) (type off rdlen : Z) (malformed : bool)
    : exec (list Z * bool) :=
  if type =? DNS_TYPE_A then
    if negb (rdlen =? 4) || (zlen msg <? off + 4) then Ret ([], true) else
    ip ← rd_n msg off 4;
    Ret (dup_str (cf_format_ip inet_ntop 4 (ip ++ replicate 12 0)), malformed)
  else if type =? DNS_TYPE_AAAA then
    if negb (rdlen =? 16) || (zlen msg <? off + 16) then Ret ([], true) else
    ip ← rd_n msg off 16;
    Ret (dup_str (cf_format_ip inet_ntop 6 ip), malformed)
  else if (type =? DNS_TYPE_NS) || (type =? DNS_TYPE_CNAME) || (type =? DNS_TYPE_PTR) then
    rdata_name_text msg off malformed
  else if type =? DNS_TYPE_MX then rdata_mx_text msg off rdlen malformed
  else if type =? DNS_TYPE_SRV then rdata_srv_text msg off rdlen malformed
  else if type =? DNS_TYPE_SOA then rdata_soa_text msg off rdlen malformed
  else if type =? DNS_TYPE_TXT then rdata_txt_text msg off rdlen malformed
  else Ret ([], malformed).

Definition build_rr (msg : list Z) (h : rr_hdr_t) : exec dns_rr :=
  let malformed := rh_name_malformed h || rh_rdata_overrun h in
  raw ← rd_n msg (rh_rdata_off h) (rh_rdlength h);
  '(text, malformed) ← rdata_text_for msg (rh_type h) (rh_rdata_off h) (rh_rdlength h) malformed;
  Ret {| rr_name := dup_str (rh_name h); rr_type := rh_type h;
         rr_type_name := dup_str (dns_type_name (rh_type h)); rr_class := rh_class h;
         rr_ttl := rh_ttl h; rr_rdata_raw := set_bytes raw; rr_rdata_text := text;
         rr_malformed := malformed |}.

(** The question loop, [n] iterations left, from index [i]. *)
Fixpoint parse_questions (n : nat) (i : Z) (msg : list Z) (pos : Z) (w : cf_warn_list_t)
    (qs : list dns_question) : exec (list dns_question * Z * cf_warn_list_t) :=
  match n with
  | O => Ret (qs, pos, w)
  | S n' =>
      if zlen msg <=? pos then
        Ret (qs, pos, warn w "dns_section_truncated" "qdcount exceeds available message bytes"
                        (bs "questions") None)
      else
        '(q, pos, w) ← build_question msg pos i w;
        match q with
        | None => Ret (qs, pos, w)
        | Some q => parse_questions n' (i + 1) msg pos w (qs ++ [q])
        end
  end.

Fixpoint parse_rr_section (n : nat) (i : Z) (msg : list Z) (pos : Z) (section : string)
    (field : list dns_rr) (w : cf_warn_list_t) : exec (list dns_rr * Z * cf_warn_list_t) :=
  match n with
  | O => Ret (field, pos, w)
  | S n' =>
      if zlen msg <=? pos then
        Ret (field, pos, warn w "dns_section_truncated"
                           "record count exceeds available message bytes" (bs section) None)
      else
        '(h, pos, w) ← parse_rr_header msg pos w section i;
        match h with
        | None => Ret (field, pos, w)
        | Some h =>
            rr ← build_rr msg h;
            if rh_rdata_overrun h then Ret (field ++ [rr], pos, w)
            else parse_rr_section n' (i + 1) msg pos section (field ++ [rr]) w
        end
  end.

(** The additional section also carries the EDNS record. *)
Fixpoint parse_additional (n : nat) (i : Z) (msg : list Z) (pos : Z) (hdr : dns_header)
    (edns : option dns_edns) (field : list dns_rr) (w : cf_warn_list_t)
    : exec (list dns_rr * option dns_edns * dns_header * cf_warn_list_t) :=
  match n with
  | O => Ret (field, edns, hdr, w)
  | S n' =>
      if zlen msg <=? pos then
        Ret (field, edns, hdr, warn w "dns_section_truncated"
               "arcount exceeds available message bytes" (bs "additional") None)
      else
        '(h, pos, w) ← parse_rr_header msg pos w "additional" i;
        match h with
        | None => Ret (field, edns, hdr, w)
        | Some h =>
            '(field, edns, hdr, w) ←
              (if rh_type h =? DNS_TYPE_OPT then
                 match edns with
                 | None =>
                     '(e, w) ← build_edns msg h w;
                     Ret (field, Some e,
                          {| h_id := h_id hdr; h_qr := h_qr hdr; h_opcode := h_opcode hdr;
                             h_aa := h_aa hdr; h_tc := h_tc hdr; h_rd := h_rd hdr;
                             h_ra := h_ra hdr; h_ad := h_ad hdr; h_cd := h_cd hdr;
                             h_rcode := Z.lor (Z.shiftl (e_extended_rcode e) 4)
                                          (Z.land (h_rcode hdr) 0x0f);
                             h_qdcount := h_qdcount hdr; h_ancount := h_ancount hdr;
                             h_nscount := h_nscount hdr; h_arcount := h_arcount hdr |}, w)
                 | Some _ =>
                     Ret (field, edns, hdr,
                          warn w "dns_multiple_opt"
                            "more than one OPT pseudo-record in additional section"
                            (bs "additional") None)
                 end
               else
                 rr ← build_rr msg h;
                 Ret (field ++ [rr], edns, hdr, w));
            if rh_rdata_overrun h then Ret (field, edns, hdr, w)
            else parse_additional n' (i + 1) msg pos hdr edns field w
        end
  end.

(** The return code 0 is [None] for the message.  [msg] is [None] when the
    pointer is NULL, [out] is whether the caller passed an output pointer. *)
Definition cf_dns_parse (msg : option (list Z)) (out : bool) (warnings : cf_warn_list_t)
    : exec (option dns_message * cf_warn_list_t) :=
  match msg with
  | None => Ret (None, warnings)
  | Some msg =>
      if negb out || (zlen msg <? DNS_HEADER_LEN) then Ret (None, warnings) else
      hdr ← build_header msg;
      '(qs, pos, w) ← parse_questions (Z.to_nat (h_qdcount hdr)) 0 msg DNS_HEADER_LEN warnings [];
      '(an, pos, w) ← parse_rr_section (Z.to_nat (h_ancount hdr)) 0 msg pos "answers" [] w;
      '(ns, pos, w) ← parse_rr_section (Z.to_nat (h_nscount hdr)) 0 msg pos "authority" [] w;
      '(ar, edns, hdr, w) ←
        parse_additional (Z.to_nat (h_arcount hdr)) 0 msg pos hdr None [] w;
      Ret (Some {| m_header := hdr; m_questions := qs; m_answers := an; m_authority := ns;
                   m_additional := ar; m_edns := edns |}, w)
  end.
End Records.

(** ** Names: the reference

    [name_at msg pos ls j n]: a name with labels [ls] starts at [pos], reached
    through [j] compression pointers, and occupies [n] bytes there. *)

Inductive name_at (msg : list Z) : Z -> list (list Z) -> Z -> Z -> Prop :=
| name_root pos :
    0 <= pos -> msg !! Z.to_nat pos = Some 0 -> name_at msg pos [] 0 1
| name_label pos l ls j n :
    0 <= pos -> msg !! Z.to_nat pos = Some (zlen l) -> 1 <= zlen l <= DNS_MAX_LABEL_LEN ->
    pos + 1 + zlen l <= zlen msg -> slice msg (pos + 1) (zlen l) = l ->
    name_at msg (pos + 1 + zlen l) ls j n ->
    name_at msg pos (l :: ls) j (1 + zlen l + n)
| name_pointer pos a b ls j n :
    0 <= pos -> msg !! Z.to_nat pos = Some a -> msg !! Z.to_nat (pos + 1) = Some b ->
    192 <= a -> (a - 192) * 256 + b < pos ->
    name_at msg ((a - 192) * 256 + b) ls j n ->
    name_at msg pos ls (j + 1) 2.

(** Octets a name costs: a length byte and the bytes of each label. *)
Definition octets (ls : list (list Z)) : Z := foldr (fun l acc => zlen l + 1 + acc) 0 ls.

(** Dot-separated presentation. *)
Definition render (lowercase : bool) (ls : list (list Z)) : list Z :=
  match ls with
  | [] => []
  | l :: ls' => map (lower lowercase) l ++ concat (map (fun l => 46 :: map (lower lowercase) l) ls')
  end.

Definition emit (lowercase first : bool) (out : list Z) (ls : list (list Z)) : list Z :=
  if first then out ++ render lowercase ls
  else out ++ concat (map (fun l => 46 :: map (lower lowercase) l) ls).

Lemma emit_cons lc first out l ls :
  emit lc first out (l :: ls) =
  emit lc false ((if first then out else out ++ [46]) ++ map (lower lc) l) ls.
Proof. destruct first; simpl; by rewrite <- !app_assoc. Qed.

Lemma emit_nil lc first out : emit lc first out [] = out.
Proof. destruct first; simpl; by rewrite app_nil_r. Qed.

Lemma land_c0 a : is_byte a -> Z.land a 0xc0 = a / 64 * 64.
Proof.
  intros Ha. unfold is_byte in Ha. change 0xc0 with (Z.shiftl 3 6).
  rewrite land_shiftl_mask, Z.shiftl_mul_pow2, Z.shiftr_div_pow2 by lia.
  change 3 with (Z.ones 2). rewrite Z.land_ones by lia. change (2 ^ 6) with 64.
  change (2 ^ 2) with 4. lia.
Qed.

Lemma pointer_target a b : is_byte a -> is_byte b -> 192 <= a ->
  Z.lor (Z.shiftl (Z.land a 0x3f) 8) b = (a - 192) * 256 + b.
Proof.
  intros Ha Hb H. unfold is_byte in *. rewrite lor_shiftl_add by lia.
  change 0x3f with (Z.ones 6). rewrite Z.land_ones by lia. change (2 ^ 6) with 64.
  change (2 ^ 8) with 256. lia.
Qed.

Lemma lower_byte lc c : is_byte c -> is_byte (lower lc c).
Proof. intros Hc. unfold lower. case_match; [apply u8_byte|done]. Qed.

Lemma lower_map_ok lc l : bytes_ok l -> bytes_ok (map (lower lc) l).
Proof. induction 1; simpl; constructor; auto using lower_byte. Qed.

Lemma copy_label_spec n msg p lc out : bytes_ok msg -> 0 <= p -> p + Z.of_nat n <= zlen msg ->
  zlen out + Z.of_nat n < DNS_NAME_BUF ->
  copy_label n msg p lc out = Ret (out ++ map (lower lc) (slice msg p (Z.of_nat n))).
Proof.
  intros Hok. revert p out. induction n as [|n IH]; intros p out Hp Hl Ho; cbn [copy_label].
  { by rewrite slice_0, app_nil_r. }
  unfold DNS_NAME_BUF in *. replace (zlen out + 1 <? 512) with true by lia.
  destruct (rd_in msg p Hok) as (c & -> & _ & Hc); [lia|]. xbind.
  rewrite IH by (rewrite ?length_app; simpl; lia). f_equal.
  rewrite (slice_S msg p _ c) by (done || lia). rewrite <- app_assoc. simpl.
  replace (Z.of_nat (S n) - 1) with (Z.of_nat n) by lia. done.
Qed.

(** ** Termination and bounds of decompression *)

Definition name_post (msg : list Z) (start : Z) (r : Z * list Z * Z) : Prop :=
  let '(rc, out, consumed) := r in
  (rc = 0 \/ rc = 1) /\ bytes_ok out /\ zlen out < DNS_MAX_NAME_OCTETS /\
  0 <= consumed /\ start + consumed <= zlen msg /\ (rc = 1 -> 0 < consumed).

Record name_inv (msg : list Z) (start pos : Z) (out : list Z) (oct jumps : Z)
    (fps fl : bool) (consumed : Z) : Prop := {
  ni_pos : 0 <= start <= zlen msg /\ 0 <= pos;
  ni_out : bytes_ok out /\ zlen out + (if fl then 0 else 1) <= oct /\ (fl = true -> out = []);
  ni_caps : 0 <= oct <= 255 /\ 0 <= jumps <= 128;
  ni_consumed : if fps then 0 < consumed /\ start + consumed <= zlen msg
                else consumed = 0 /\ start <= pos
}.

Lemma name_loop_runs fuel msg start lc pos out oct jumps fps fl consumed :
  bytes_ok msg -> name_inv msg start pos out oct jumps fps fl consumed ->
  (255 - oct) + (128 - jumps) < Z.of_nat fuel ->
  runs (name_loop fuel msg start lc pos out oct jumps fps fl consumed) (name_post msg start).
Proof.
  intros Hok. revert pos out oct jumps fps fl consumed.
  induction fuel as [|fuel IH]; intros pos out oct jumps fps fl consumed
    [[Hst Hpos] (Hout & Hol & Hfl) [Hoct Hj] Hc] Hf; [lia|]. cbn [name_loop].
  assert (zlen out < 255) as Hout255 by (destruct fl; [rewrite Hfl by done; simpl; lia|lia]).
  assert (name_post msg start (0, out, consumed)) as Hfail.
  { unfold name_post, DNS_MAX_NAME_OCTETS. split_and!; auto; destruct fps; lia. }
  apply runs_if; intros Hend; [exact Hfail|]. run1. apply runs_rd; [done|lia|].
  intros len Hlen Hb. rewrite land_c0 by done. unfold is_byte in Hb.
  apply runs_if; intros Hlab; [|apply runs_if; intros Hptr; [|exact Hfail]].
  - apply runs_if; intros Hroot; [apply runs_ret|].
    { unfold name_post, DNS_MAX_NAME_OCTETS. split_and!; auto; destruct fps; lia. }
    apply runs_if; intros Hbody; [exact Hfail|]. unfold DNS_MAX_NAME_OCTETS.
    apply runs_if; intros Hcap; [exact Hfail|].
    assert (zlen (if negb fl && (zlen out + 1 <? DNS_NAME_BUF) then out ++ [46] else out)
            <= oct) as Hdot.
    { destruct fl; simpl in *; [rewrite Hfl by done; simpl; lia|].
      destruct (zlen out + 1 <? _); rewrite ?length_app; simpl; lia. }
    rewrite copy_label_spec by (done || unfold DNS_NAME_BUF in *; lia).
    xbind. apply IH; [|lia].
    assert (zlen (slice msg (pos + 1) (Z.of_nat (Z.to_nat len))) = len) as Hsl
      by (rewrite zlen_slice; lia).
    split; [lia| |lia|destruct fps; lia].
    split_and!; [|rewrite length_app, length_map; lia|done].
    apply Forall_app_2; [|by apply lower_map_ok, slice_bytes_ok].
    destruct (negb fl && _); [|done]. apply Forall_app_2; [done|by repeat constructor].
  - apply runs_if; intros H2; [exact Hfail|]. run1. apply runs_rd; [done|lia|].
    intros low Hlow Hbl. rewrite pointer_target by (done || unfold is_byte; lia).
    assert (name_post msg start (0, out, if fps then consumed else pos + 2 - start)) as Hfail2.
    { unfold name_post, DNS_MAX_NAME_OCTETS. split_and!; auto; destruct fps; lia. }
    apply runs_if; intros Hfwd; [exact Hfail2|]. unfold DNS_MAX_POINTER_JUMPS.
    apply runs_if; intros Hcap; [exact Hfail2|].
    apply IH; [|lia]. unfold is_byte in Hbl. split; [lia|done|lia|destruct fps; lia].
Qed.

Lemma decode_name_runs msg start lc : bytes_ok msg -> 0 <= start <= zlen msg ->
  runs (decode_name msg start lc) (name_post msg start).
Proof.
  intros Hok Hs. apply name_loop_runs; [done| |unfold NAME_FUEL; lia].
  split; [lia|split_and!; [constructor|simpl; lia|done]|lia|lia].
Qed.

(** ** Decompression computes the reference *)

Lemma octets_nonneg ls : 0 <= octets ls.
Proof. induction ls; simpl; lia. Qed.

Lemma name_at_jumps msg pos ls j n : name_at msg pos ls j n -> 0 <= j /\ 0 < n.
Proof. induction 1; lia. Qed.

Lemma name_at_octets msg pos ls j n : name_at msg pos ls j n -> 2 * zlen ls <= octets ls.
Proof. induction 1; simpl in *; lia. Qed.

Lemma lookup_rd msg pos v : 0 <= pos -> msg !! Z.to_nat pos = Some v ->
  rd msg pos = Ret v /\ pos < zlen msg.
Proof. intros Hp Hv. split; [by apply rd_lookup|]. apply lookup_lt_Some in Hv. lia. Qed.

(** The dot and the label appended by one turn of the loop. *)
Lemma emit_step (lc first : bool) out l ls oct : zlen out <= oct -> oct <= 254 ->
  emit lc false ((if negb first && (zlen out + 1 <? DNS_NAME_BUF) then out ++ [46] else out)
                 ++ map (lower lc) l) ls = emit lc first out (l :: ls).
Proof.
  intros H1 H2. rewrite emit_cons. unfold DNS_NAME_BUF.
  replace (zlen out + 1 <? 512) with true by lia. by destruct first.
Qed.

Lemma dotted_length (first : bool) (out : list Z) oct :
  zlen out + (if first then 0 else 1) <= oct ->
  zlen (if negb first && (zlen out + 1 <? DNS_NAME_BUF) then out ++ [46] else out) <= oct.
Proof.
  destruct first; simpl; [lia|]. intros. destruct (zlen out + 1 <? _);
    rewrite ?length_app; simpl; lia.
Qed.

Lemma name_loop_complete msg start lc pos ls j n : bytes_ok msg -> name_at msg pos ls j n ->
  forall fuel out oct jumps (fps fl : bool) consumed,
  zlen out + (if fl then 0 else 1) <= oct -> oct + octets ls <= 255 ->
  0 <= jumps -> jumps + j <= 128 -> zlen ls + j < Z.of_nat fuel ->
  name_loop fuel msg start lc pos out oct jumps fps fl consumed =
  Ret (1, emit lc fl out ls, if fps then consumed else pos + n - start).
Proof.
  intros Hok. induction 1 as [pos Hp Hv|pos l ls j n Hp Hv Hl Hend Hs Hna IH|
    pos a b ls j n Hp Ha Hb H192 Hback Hna IH];
    intros fuel out oct jumps fps fl consumed Hout Hoct Hj0 Hj Hf;
    (destruct fuel as [|fuel]; [exfalso|]); cbn [name_loop].
  - simpl in Hf. lia.
  - destruct (lookup_rd msg pos 0 Hp Hv) as [-> Hlt].
    replace (zlen msg <=? pos) with false by lia. xbind. simpl. by rewrite emit_nil.
  - pose proof (name_at_jumps _ _ _ _ _ Hna). simpl in Hf. lia.
  - destruct (lookup_rd msg pos (zlen l) Hp Hv) as [-> Hlt].
    replace (zlen msg <=? pos) with false by lia. xbind.
    assert (is_byte (zlen l)) as Hb by by eapply bytes_ok_lookup.
    unfold DNS_MAX_LABEL_LEN in Hl. rewrite land_c0 by done. simpl octets in Hoct.
    pose proof (octets_nonneg ls) as Ho0. unfold DNS_MAX_NAME_OCTETS.
    replace (zlen l / 64 * 64 =? 0) with true by lia. replace (zlen l =? 0) with false by lia.
    replace (zlen msg <? pos + 1 + zlen l) with false by lia.
    replace (255 <? oct + zlen l + 1) with false by lia.
    pose proof (dotted_length fl out oct Hout) as Hdot.
    rewrite copy_label_spec by (done || unfold DNS_NAME_BUF in *; lia). xbind.
    rewrite Nat2Z.id, Hs. rewrite IH; [|rewrite length_app, length_map; lia|lia|lia|lia|simpl in Hf; lia].
    rewrite (emit_step lc fl out l ls oct) by (destruct fl; lia).
    do 2 f_equal. destruct fps; lia.
  - pose proof (name_at_jumps _ _ _ _ _ Hna). simpl in Hf. lia.
  - destruct (lookup_rd msg pos a Hp Ha) as [-> Hlt].
    assert (0 <= pos + 1) as Hp1 by lia.
    destruct (lookup_rd msg (pos + 1) b Hp1 Hb) as [-> Hlt1].
    replace (zlen msg <=? pos) with false by lia. xbind.
    assert (is_byte a) as Hba by by eapply bytes_ok_lookup.
    assert (is_byte b) as Hbb by by eapply bytes_ok_lookup.
    rewrite land_c0 by done. unfold is_byte in Hba, Hbb.
    replace (a / 64 * 64 =? 0) with false by lia. replace (a / 64 * 64 =? 0xc0) with true by lia.
    replace (zlen msg <? pos + 2) with false by lia.
    rewrite pointer_target by (unfold is_byte; lia).
    replace (pos <=? _) with false by lia. unfold DNS_MAX_POINTER_JUMPS.
    pose proof (name_at_jumps _ _ _ _ _ Hna).
    replace (128 <? jumps + 1) with false by lia.
    rewrite IH by lia. by destruct fps.
Qed.

Lemma name_loop_sound fuel msg start lc pos out oct jumps fps (fl : bool) consumed o c :
  bytes_ok msg -> 0 <= pos -> zlen out + (if fl then 0 else 1) <= oct -> oct <= 255 ->
  0 <= jumps <= 128 ->
  name_loop fuel msg start lc pos out oct jumps fps fl consumed = Ret (1, o, c) ->
  exists ls j n, name_at msg pos ls j n /\ oct + octets ls <= 255 /\ jumps + j <= 128 /\
    o = emit lc fl out ls /\ c = if fps then consumed else pos + n - start.
Proof.
  intros Hok. revert pos out oct jumps fps fl consumed.
  induction fuel as [|fuel IH]; intros pos out oct jumps fps fl consumed Hpos Hout Hoct Hj; [done|].
  cbn [name_loop]. destruct (zlen msg <=? pos) eqn:Eend; [done|].
  destruct (rd_in msg pos Hok) as (a & Hra & Ha & Hla); [lia|]. rewrite Hra. xbind.
  rewrite land_c0 by done. unfold is_byte in Ha.
  destruct (a / 64 * 64 =? 0) eqn:Elab; [|destruct (a / 64 * 64 =? 0xc0) eqn:Eptr; [|done]].
  - destruct (a =? 0) eqn:E0.
    { intros [= <- <-]. assert (a = 0) as -> by lia. exists [], 0, 1.
      split; [by constructor|]. rewrite emit_nil. simpl. split_and!; try lia; done. }
    destruct (zlen msg <? pos + 1 + a) eqn:Ebody; [done|]. unfold DNS_MAX_NAME_OCTETS.
    destruct (255 <? oct + a + 1) eqn:Ecap; [done|].
    pose proof (dotted_length fl out oct Hout) as Hdot.
    rewrite copy_label_spec by (done || unfold DNS_NAME_BUF in *; lia). xbind.
    rewrite Z2Nat.id by lia. set (l := slice msg (pos + 1) a).
    assert (zlen l = a) as Hll by (unfold l; rewrite zlen_slice; lia).
    intros H. apply IH in H as (ls & j & n & Hna & Ho & Hjj & -> & Hc);
      [|lia|rewrite length_app, length_map; lia|lia|lia].
    exists (l :: ls), j, (1 + zlen l + n). split.
    { apply name_label; unfold DNS_MAX_LABEL_LEN; rewrite ?Hll; try done; lia. }
    simpl octets. split; [lia|]. split; [lia|]. split.
    { apply emit_step with (oct := oct); [destruct fl; lia|lia]. }
    destruct fps; lia.
  - destruct (zlen msg <? pos + 2) eqn:E2; [done|].
    destruct (rd_in msg (pos + 1) Hok) as (b & Hrb & Hb & Hlb); [lia|]. rewrite Hrb. xbind.
    rewrite pointer_target by (done || unfold is_byte; lia). unfold is_byte in Hb.
    destruct (pos <=? _) eqn:Eback; [done|]. unfold DNS_MAX_POINTER_JUMPS.
    destruct (128 <? jumps + 1) eqn:Ej; [done|].
    intros H. apply IH in H as (ls & j & n & Hna & Ho & Hjj & -> & Hc); [|lia..].
    exists ls, (j + 1), 2. split; [by eapply name_pointer; eauto; lia|].
    split; [done|]. split; [lia|]. split; [done|]. destruct fps; lia.
Qed.

Lemma decode_name_complete msg start lc ls j n : bytes_ok msg -> name_at msg start ls j n ->
  octets ls <= DNS_MAX_NAME_OCTETS -> j <= DNS_MAX_POINTER_JUMPS ->
  decode_name msg start lc = Ret (1, render lc ls, n).
Proof.
  unfold DNS_MAX_NAME_OCTETS, DNS_MAX_POINTER_JUMPS. intros Hok Hna Ho Hj. unfold decode_name.
  pose proof (name_at_octets _ _ _ _ _ Hna).
  rewrite (name_loop_complete msg start lc start ls j n) by (done || simpl; unfold NAME_FUEL; lia).
  do 2 f_equal. lia.
Qed.

Lemma decode_name_sound msg start lc out consumed : bytes_ok msg -> 0 <= start ->
  decode_name msg start lc = Ret (1, out, consumed) ->
  exists ls j, name_at msg start ls j consumed /\ octets ls <= DNS_MAX_NAME_OCTETS /\
    j <= DNS_MAX_POINTER_JUMPS /\ out = render lc ls.
Proof.
  intros Hok Hs. unfold decode_name. generalize NAME_FUEL as fuel. intros fuel H.
  destruct (name_loop_sound fuel msg start lc start [] 0 0 false true 0 out consumed)
    as (ls & j & n & Hna & Ho & Hj & -> & ->); [done|done|simpl; lia|lia|lia|exact H|].
  exists ls, j. unfold DNS_MAX_NAME_OCTETS, DNS_MAX_POINTER_JUMPS.
  replace (start + n - start) with n by lia. split_and!; [done|lia|lia|done].
Qed.

(** C28. Name decompression is exactly the reference: on every message and from
    every offset it succeeds if and only if a name is there within the octet
    and pointer limits, with that name's presentation (lower-cased when asked)
    and the bytes it occupies at the offset, never those a pointer leads to. *)
Theorem decode_name_correct msg start lc out consumed :
  bytes_ok msg -> 0 <= start ->
  decode_name msg start lc = Ret (1, out, consumed) <->
  exists ls j, name_at msg start ls j consumed /\ octets ls <= DNS_MAX_NAME_OCTETS /\
    j <= DNS_MAX_POINTER_JUMPS /\ out = render lc ls.
Proof.
  intros Hok Hs. split.
  - by apply decode_name_sound.
  - intros (ls & j & Hna & Ho & Hj & ->). by eapply decode_name_complete.
Qed.

(** [www.example] compressed: the labels at 1 and a pointer back to 5. *)
Definition pointer_msg : list Z := [9; 3; 99; 111; 109; 0; 3; 87; 119; 119; 192; 1; 77].

Lemma decode_name_correct_witness :
  exists ls j, name_at pointer_msg 6 ls j 6 /\ octets ls <= DNS_MAX_NAME_OCTETS /\
    j <= DNS_MAX_POINTER_JUMPS /\ bs "www.com" = render true ls.
Proof.
  apply (decode_name_correct pointer_msg 6 true (bs "www.com") 6); [|lia|reflexivity].
  repeat (apply Forall_cons_2; [done|]). constructor.
Defined.

(** Decompression terminates within its fuel and stays inside the message
    for every message and offset, loops of pointers included; on success and
    on failure the presentation is under 255 bytes, so the 512-byte buffer is
    never cut, and the advance stays inside the message. *)
Theorem decode_name_total msg start lc :
  bytes_ok msg -> 0 <= start <= zlen msg ->
  runs (decode_name msg start lc) (name_post msg start).
Proof. apply decode_name_runs. Qed.

(** A pointer to itself. *)
Lemma decode_name_total_witness :
  runs (decode_name [192; 0] 0 true) (name_post [192; 0] 0).
Proof.
  apply (decode_name_total [192; 0] 0 true); [|simpl; lia].
  repeat (apply Forall_cons_2; [done|]). constructor.
Defined.

(** ** Safety of the parser *)

(** A message in memory: bytes, and small enough that no offset wraps. *)
Definition msg_ok (msg : list Z) : Prop := bytes_ok msg /\ zlen msg + 64 <= SIZE_MAX.

Lemma msg_ok_bytes msg : msg_ok msg -> bytes_ok msg.
Proof. by intros []. Qed.

Definition fits (msg : list Z) (off n : Z) (r : option Z) : Prop :=
  match r with
  | Some v => off + n <= zlen msg /\ 0 <= v < 256 ^ n
  | None => zlen msg < off + n
  end.

Lemma be_at_fits msg off n : bytes_ok msg -> 0 <= off -> 0 <= n -> fits msg off n (be_at msg off n).
Proof.
  intros Hok Ho Hn. destruct (be_at msg off n) as [v|] eqn:E; simpl.
  - by apply be_at_bound in E.
  - unfold be_at in E. case_match; [done|lia].
Qed.

Lemma runs_get_be16 msg off (Q : option Z -> Prop) : msg_ok msg -> 0 <= off <= zlen msg + 60 ->
  (forall r, r = be_at msg off 2 -> fits msg off 2 r -> Q r) -> runs (cf_get_be16 msg off) Q.
Proof.
  intros [Hok Hl] Ho HQ. unfold SIZE_MAX in Hl. rewrite get_be16_at by (done || lia).
  apply HQ; [done|]. apply be_at_fits; done || lia.
Qed.

Lemma runs_get_be32 msg off (Q : option Z -> Prop) : msg_ok msg -> 0 <= off <= zlen msg + 60 ->
  (forall r, r = be_at msg off 4 -> fits msg off 4 r -> Q r) -> runs (cf_get_be32 msg off) Q.
Proof.
  intros [Hok Hl] Ho HQ. unfold SIZE_MAX in Hl. rewrite get_be32_at by (done || lia).
  apply HQ; [done|]. apply be_at_fits; done || lia.
Qed.

Lemma runs_get16 msg off (Q : Z -> Prop) : msg_ok msg -> 0 <= off -> off + 2 <= zlen msg ->
  (forall v, be_at msg off 2 = Some v -> 0 <= v < 65536 -> Q v) -> runs (get16 msg off) Q.
Proof.
  intros Hm Ho Hl HQ. unfold get16. apply runs_bind, runs_get_be16; [done|lia|].
  intros r -> Hf. destruct (be_at msg off 2) as [v|] eqn:E; simpl in *; [|lia].
  apply HQ; [done|lia].
Qed.

(** [read r]: the next reader of the goal, its result [r] and its bound. *)
Tactic Notation "read" ident(r) :=
  apply runs_bind;
  lazymatch goal with
  | |- runs (cf_get_be16 _ _) _ => apply runs_get_be16; [done|lia|intros r ? ?]
  | |- runs (cf_get_be32 _ _) _ => apply runs_get_be32; [done|lia|intros r ? ?]
  | |- runs (get16 _ _) _ => apply runs_get16; [done|lia|lia|intros r ? ?]
  | |- runs (rd _ _) _ => apply runs_rd; [by apply msg_ok_bytes|lia|intros r ? ?]
  | |- runs (rd_n _ _ _) _ => apply runs_rd_n; [lia|lia|lia|]
  end.

(** [name ok out n]: the next name of the goal. *)
Tactic Notation "name" ident(ok) ident(out) ident(n) :=
  apply runs_bind; eapply runs_mono; [apply decode_name_runs; [by apply msg_ok_bytes|lia]|];
  intros [[ok out] n] (? & ? & ? & ? & ? & ?).

(** A decoder keeps a [malformed] flag that was already set. *)
Definition text_post (malformed : bool) (r : list Z * bool) : Prop :=
  malformed = true -> snd r = true.

Lemma text_true m t : text_post m (t, true).
Proof. done. Qed.
Lemma text_same m t : text_post m (t, m).
Proof. intros H. exact H. Qed.
Lemma text_or m t b : text_post m (t, m || b).
Proof. unfold text_post. simpl. by intros ->. Qed.

#[local] Hint Resolve text_true text_same text_or : cf.

Lemma rdata_name_runs msg off m : msg_ok msg -> 0 <= off <= zlen msg ->
  runs (rdata_name_text msg off m) (text_post m).
Proof. intros Hm Ho. unfold rdata_name_text. name ok nm n. apply runs_ret. auto with cf. Qed.

Lemma rdata_mx_runs msg off rdlen m : msg_ok msg -> 0 <= off <= zlen msg ->
  runs (rdata_mx_text msg off rdlen m) (text_post m).
Proof.
  intros Hm Ho. unfold rdata_mx_text. apply runs_if; intros Hr; [apply runs_ret; auto with cf|].
  read pref. destruct pref as [pref|]; [|apply runs_ret; auto with cf]. simpl in *.
  name ok nm n. apply runs_ret. auto with cf.
Qed.

Lemma rdata_srv_runs msg off rdlen m : msg_ok msg -> 0 <= off <= zlen msg ->
  runs (rdata_srv_text msg off rdlen m) (text_post m).
Proof.
  intros Hm Ho. unfold rdata_srv_text. apply runs_if; intros Hr; [apply runs_ret; auto with cf|].
  read prio. destruct prio as [prio|]; [|apply runs_ret; auto with cf].
  read weight. destruct weight as [weight|]; [|apply runs_ret; auto with cf].
  read port. destruct port as [port|]; [|apply runs_ret; auto with cf]. simpl in *.
  name ok nm n. apply runs_ret. auto with cf.
Qed.

Lemma get_be32s_runs n msg p : msg_ok msg -> 0 <= p -> p + 4 * Z.of_nat n <= zlen msg + 60 ->
  runs (get_be32s n msg p) (fun _ => True).
Proof.
  intros Hm. revert p. induction n as [|n IH]; intros p Hp Hl; cbn [get_be32s]; [done|].
  read v. destruct v; [|done]. apply runs_bind. eapply runs_mono; [apply IH; lia|done].
Qed.

Lemma rdata_soa_runs msg off rdlen m : msg_ok msg -> 0 <= off <= zlen msg ->
  runs (rdata_soa_text msg off rdlen m) (text_post m).
Proof.
  intros Hm Ho. unfold rdata_soa_text.
  name ok mn n. apply runs_if; intros Hk; [apply runs_ret; auto with cf|].
  name ok2 rn n2. apply runs_if; intros Hk2; [apply runs_ret; auto with cf|].
  apply runs_if; intros Hf; [apply runs_ret; auto with cf|].
  apply runs_bind. eapply runs_mono; [apply get_be32s_runs; [done|lia|lia]|].
  intros [fs|] _; apply runs_ret; auto with cf.
Qed.

Lemma txt_copy_spec n msg p rdlen buf : bytes_ok msg -> 0 <= p -> p + Z.of_nat n <= zlen msg ->
  zlen buf <= rdlen ->
  txt_copy n msg p rdlen buf =
  Ret (buf ++ slice msg p (Z.min (Z.of_nat n) (rdlen - zlen buf))).
Proof.
  intros Hok. revert p buf. induction n as [|n IH]; intros p buf Hp Hl Hb; cbn [txt_copy].
  { rewrite Z.min_l by lia. by rewrite slice_0, app_nil_r. }
  destruct (zlen buf <? rdlen) eqn:E.
  - destruct (rd_in msg p Hok) as (c & -> & _ & Hc); [lia|]. xbind.
    rewrite IH by (rewrite ?length_app; simpl; lia). rewrite <- app_assoc. do 2 f_equal.
    rewrite length_app. simpl.
    rewrite (slice_S msg p (Z.min _ _) c) by (done || lia). do 2 f_equal. lia.
  - replace (Z.min _ _) with 0 by lia. by rewrite slice_0, app_nil_r.
Qed.

Lemma txt_loop_runs fuel msg p e rdlen first m buf : bytes_ok msg -> 0 <= p <= e ->
  e <= zlen msg -> zlen buf <= rdlen -> e - p < Z.of_nat fuel ->
  runs (txt_loop fuel msg p e rdlen first m buf)
    (fun r => text_post m r /\ zlen (fst r) <= rdlen).
Proof.
  intros Hok. revert p first m buf. induction fuel as [|fuel IH]; intros p first m buf Hp He Hb Hf;
    [lia|]. cbn [txt_loop]. apply runs_if; intros Hlt; [|apply runs_ret; auto with cf].
  apply runs_bind, runs_rd; [done|lia|]. intros slen Hs Hsb. unfold is_byte in Hsb.
  set (buf' := if negb first && (zlen buf <? rdlen) then buf ++ [32] else buf).
  assert (zlen buf' <= rdlen) as Hb'
    by (unfold buf'; destruct (negb first); simpl; [|lia];
        destruct (zlen buf <? rdlen) eqn:?; rewrite ?length_app; simpl; lia).
  assert (forall s m', 0 <= s -> p + 1 + s <= e -> (m = true -> m' = true) ->
    runs (buf ← txt_copy (Z.to_nat s) msg (p + 1) rdlen buf';
          txt_loop fuel msg (p + 1 + s) e rdlen false m' buf)
      (fun r => text_post m r /\ zlen (fst r) <= rdlen)) as Hgo.
  { intros s m' Hs0 Hse Hm. rewrite txt_copy_spec by (done || lia). xbind.
    eapply runs_mono; [apply IH; try lia|].
    - rewrite length_app, length_slice by lia. lia.
    - intros r [Ht Hl]. split; [|done]. unfold text_post in *. auto. }
  destruct (e <? p + 1 + slen) eqn:Eover; apply Hgo; auto; try lia.
  - apply u8_byte.
  - rewrite u8_id by (unfold is_byte; lia). lia.
Qed.

Lemma rdata_txt_runs msg off rdlen m : msg_ok msg -> 0 <= off -> 0 <= rdlen -> off <= zlen msg ->
  runs (rdata_txt_text msg off rdlen m) (fun r => text_post m r /\ zlen (fst r) <= rdlen).
Proof.
  intros [Hok _] Ho Hr Hl. unfold rdata_txt_text.
  assert (forall e m', off + rdlen >= e -> e <= zlen msg -> (m = true -> m' = true) ->
    runs (if e <=? off then Ret ([], m')
          else txt_loop (S (Z.to_nat rdlen)) msg off e rdlen true m' [])
      (fun r => text_post m r /\ zlen (fst r) <= rdlen)) as Hgo.
  { intros e m' He1 He2 Hm. apply runs_if; intros Hlt; [apply runs_ret; by split|].
    eapply runs_mono; [apply txt_loop_runs; simpl; done || lia|].
    intros r [Ht Hz]. split; [|done]. unfold text_post in *. auto. }
  destruct (zlen msg <? off + rdlen) eqn:E; apply Hgo; done || lia.
Qed.

(** ** The ranges of the tree *)

Record header_ok (rcode_bound : Z) (h : dns_header) : Prop := {
  hk_id : 0 <= h_id h < 65536;
  hk_opcode : 0 <= h_opcode h < 16;
  hk_rcode : 0 <= h_rcode h < rcode_bound;
  hk_counts : Forall (fun c => 0 <= c < 65536) [h_qdcount h; h_ancount h; h_nscount h; h_arcount h]
}.

Definition question_ok (q : dns_question) : Prop :=
  zlen (q_qname q) < DNS_MAX_NAME_OCTETS /\ is_Some (q_qname_wire q) /\
  0 <= q_qtype q < 65536 /\ 0 <= q_qclass q < 65536.

Record rr_hdr_ok (msg : list Z) (h : rr_hdr_t) : Prop := {
  rk_name : zlen (rh_name h) < DNS_MAX_NAME_OCTETS;
  rk_type : 0 <= rh_type h < 65536 /\ 0 <= rh_class h < 65536;
  rk_ttl : 0 <= rh_ttl h < 2 ^ 32;
  rk_rdata : 0 <= rh_rdata_off h /\ 0 <= rh_rdlength h < 65536 /\
             rh_rdata_off h + rh_rdlength h <= zlen msg
}.

Definition rr_ok (r : dns_rr) : Prop :=
  zlen (rr_name r) < DNS_MAX_NAME_OCTETS /\ 0 <= rr_type r < 65536 /\
  0 <= rr_class r < 65536 /\ 0 <= rr_ttl r < 2 ^ 32.

Definition edns_ok (e : dns_edns) : Prop :=
  0 <= e_udp_payload_size e < 65536 /\ 0 <= e_extended_rcode e < 256 /\
  0 <= e_version e < 256 /\
  Forall (fun o => 0 <= eo_code o < 65536 /\ eo_length o = zlen (default [] (eo_raw_value o)))
    (e_options e).

(** The list of warnings only grows at its end. *)
Definition warned (w w' : cf_warn_list_t) : Prop :=
  exists l, wl_items w' = wl_items w ++ l.

Lemma warned_refl w : warned w w.
Proof. exists []. by rewrite app_nil_r. Qed.

Lemma warned_trans w1 w2 w3 : warned w1 w2 -> warned w2 w3 -> warned w1 w3.
Proof. intros [l1 E1] [l2 E2]. exists (l1 ++ l2). by rewrite E2, E1, app_assoc. Qed.

Lemma warn_one w code msg path ctx : exists x,
  wl_items (warn w code msg path ctx) = wl_items w ++ [x].
Proof. unfold warn, cf_warn, warn_list_grow. destruct (_ <? _); by eexists. Qed.

Lemma warn_warned w code msg path ctx : warned w (warn w code msg path ctx).
Proof. destruct (warn_one w code msg path ctx) as [x Hx]. by exists [x]. Qed.

#[local] Hint Resolve warned_refl warn_warned : cf.

Lemma c_str_length l : zlen (c_str l) <= zlen l.
Proof. induction l; simpl; [done|]. case_match; simpl; lia. Qed.

Lemma dup_str_length l : zlen (dup_str l) <= zlen l.
Proof.
  pose proof (c_str_length l). unfold dup_str, cf_dup_str. destruct (c_str l); simpl in *; lia.
Qed.

Lemma set_bytes_length b : zlen (default [] (set_bytes b)) = zlen b.
Proof. by destruct b. Qed.

Lemma context_runs msg off (Q : list Z -> Prop) : 0 <= off <= zlen msg ->
  (forall c, Q c) -> runs (context_at msg off) Q.
Proof.
  intros Ho HQ. unfold context_at. destruct (zlen msg - off <? 16) eqn:E;
    apply runs_rd_n; auto; lia.
Qed.

Lemma build_header_runs msg : msg_ok msg -> DNS_HEADER_LEN <= zlen msg ->
  runs (build_header msg) (header_ok 16).
Proof.
  unfold DNS_HEADER_LEN. intros Hm Hl. unfold build_header.
  read id. read f1. read f2. read qd. read an. read ns. read ar. apply runs_ret.
  split; simpl; try lia.
  - apply (land_range _ 4); done.
  - apply (land_range _ 4); done.
  - repeat constructor; lia.
Qed.

Lemma build_question_runs msg pos i w : msg_ok msg -> 0 <= pos < zlen msg ->
  runs (build_question msg pos i w) (fun '(q, pos', w') =>
    warned w w' /\
    match q with
    | Some q => pos < pos' <= zlen msg /\ question_ok q
    | None => pos' = pos /\ wl_items w' <> wl_items w
    end).
Proof.
  intros Hm Hp. unfold build_question. name ok nm n.
  assert (forall w' c t p x, warned w w' -> wl_items (warn w' c t p x) <> wl_items w) as Hne.
  { intros w' c t p x [l Hl] E. destruct (warn_one w' c t p x) as [y Hy].
    apply (f_equal length) in E. rewrite Hy, Hl, !length_app in E. simpl in E. lia. }
  apply runs_if; intros Hn; [apply runs_ret; split; [auto with cf|split; [done|apply Hne; auto with cf]]|].
  apply runs_bind. eapply runs_mono with (P := warned w).
  { apply runs_if; intros; [|apply runs_ret; auto with cf].
    apply runs_bind, context_runs; [lia|]. intros c. apply runs_ret. auto with cf. }
  intros w1 Hw1. read qt. destruct qt as [qt|]; cbn [fits] in *.
  2:{ xbind. apply runs_ret. split; [eapply warned_trans; eauto with cf|split; [done|by apply Hne]]. }
  read qc. destruct qc as [qc|]; cbn [fits] in *.
  2:{ apply runs_ret. split; [eapply warned_trans; eauto with cf|split; [done|by apply Hne]]. }
  apply runs_bind, runs_rd_n; [lia..|]. apply runs_ret. split; [done|].
  split; [lia|]. unfold question_ok. simpl. split_and!; try lia.
  - pose proof (dup_str_length nm). lia.
  - assert (zlen (slice msg pos n) = n) by (apply zlen_slice; lia).
    destruct (slice msg pos n); simpl in *; [lia|by eexists].
Qed.

Lemma rr_fixed_runs msg p : msg_ok msg -> 0 <= p <= zlen msg ->
  runs (rr_fixed msg p) (fun r =>
    match r with
    | Some (type, rr_class, ttl, rdlength) =>
        p + 10 <= zlen msg /\ 0 <= type < 65536 /\ 0 <= rr_class < 65536 /\
        0 <= ttl < 2 ^ 32 /\ 0 <= rdlength < 65536
    | None => True
    end).
Proof.
  intros Hm Hp. unfold rr_fixed.
  read t. destruct t; [|done]. read c. destruct c; [|done].
  read l. destruct l; [|done]. read r. destruct r; [|done]. cbn [fits] in *.
  apply runs_ret. lia.
Qed.

Lemma parse_rr_header_runs msg pos w section i : msg_ok msg -> 0 <= pos < zlen msg ->
  runs (parse_rr_header msg pos w section i) (fun '(h, pos', w') =>
    warned w w' /\
    match h with
    | Some h => pos < pos' <= zlen msg /\ rr_hdr_ok msg h /\
                (rh_rdata_overrun h = true -> pos' = zlen msg /\ wl_items w' <> wl_items w)
    | None => pos' = pos
    end).
Proof.
  intros Hm Hp. unfold parse_rr_header. name ok nm n.
  apply runs_if; intros Hn; [apply runs_ret; auto with cf|].
  apply runs_bind. eapply runs_mono; [apply rr_fixed_runs; [done|lia]|].
  intros [[[[t c] l] r]|]; [|intros _; apply runs_ret; auto with cf].
  intros (Hend & Ht & Hc & Hl & Hr). apply runs_if; intros Hover.
  - apply runs_bind, context_runs; [lia|]. intros ctx. apply runs_ret.
    split; [auto with cf|]. split; [lia|]. split; [split; simpl; lia|].
    intros _. split; [done|]. match goal with |- context [warn w ?a ?b ?c ?d] =>
      destruct (warn_one w a b c d) as [x ->] end.
    intros E. apply (f_equal length) in E. rewrite length_app in E. simpl in E. lia.
  - apply runs_bind. eapply runs_mono with (P := warned w).
    { apply runs_if; intros; [|apply runs_ret; auto with cf].
      apply runs_bind, context_runs; [lia|]. intros x. apply runs_ret. auto with cf. }
    intros w1 Hw1. apply runs_ret. split; [done|]. split; [lia|]. split; [split; simpl; lia|done].
Qed.

Lemma edns_loop_runs fuel msg p e w opts : msg_ok msg -> 0 <= p <= e -> e <= zlen msg ->
  e - p < Z.of_nat fuel ->
  Forall (fun o => 0 <= eo_code o < 65536 /\ eo_length o = zlen (default [] (eo_raw_value o))) opts ->
  runs (edns_loop fuel msg p e w opts) (fun '(opts', w') => warned w w' /\
    Forall (fun o => 0 <= eo_code o < 65536 /\ eo_length o = zlen (default [] (eo_raw_value o))) opts').
Proof.
  intros Hm. revert p w opts. induction fuel as [|fuel IH]; intros p w opts Hp He Hf Ho; [lia|].
  cbn [edns_loop]. apply runs_if; intros Hlt; [|apply runs_ret; auto with cf].
  read code. read olen.
  assert (forall n w1, 0 <= n -> p + 4 + n <= e -> warned w w1 ->
    runs (raw ← rd_n msg (p + 4) n;
          edns_loop fuel msg (p + 4 + n) e w1
            (opts ++ [{| eo_code := code; eo_length := n; eo_raw_value := set_bytes raw |}]))
      (fun '(opts', w') => warned w w' /\
        Forall (fun o => 0 <= eo_code o < 65536 /\
                  eo_length o = zlen (default [] (eo_raw_value o))) opts')) as Hgo.
  { intros n w1 Hn Hne Hw1. apply runs_bind, runs_rd_n; [lia..|].
    eapply runs_mono; [apply IH; try lia|].
    - apply Forall_app_2; [done|]. constructor; [|done]. simpl.
      rewrite set_bytes_length, zlen_slice; lia.
    - intros [o' w'] [Hw' Hall]. split; [by eapply warned_trans|done]. }
  destruct (e <? p + 4 + olen) eqn:E; apply Hgo; auto with cf; try lia.
  - apply u16_bound.
  - rewrite u16_id by lia. lia.
Qed.

Lemma build_edns_runs msg h w : msg_ok msg -> rr_hdr_ok msg h ->
  runs (build_edns msg h w) (fun '(e, w') => warned w w' /\ edns_ok e).
Proof.
  intros Hm [_ [_ Hc] _ (Hr1 & Hr2 & Hr3)]. unfold build_edns.
  replace (zlen msg <? _) with false by lia.
  apply runs_bind. eapply runs_mono; [apply edns_loop_runs; [done|lia|lia|lia|constructor]|].
  intros [opts w'] [Hw Ho]. apply runs_ret. split; [done|].
  split; [done|]. split_and!; try done; by apply (land_range _ 8).
Qed.

Section RecordsSafe.
Variable inet_ntop : Z -> list Z -> list Z.

Lemma rdata_text_runs msg type off rdlen m : msg_ok msg -> 0 <= off -> 0 <= rdlen ->
  off + rdlen <= zlen msg ->
  runs (rdata_text_for inet_ntop msg type off rdlen m) (text_post m).
Proof.
  intros Hm Ho Hr Hl. unfold rdata_text_for.
  apply runs_if; intros _.
  { apply runs_if; intros H; [apply runs_ret; auto with cf|].
    apply runs_bind, runs_rd_n; [lia..|]. apply runs_ret. auto with cf. }
  apply runs_if; intros _.
  { apply runs_if; intros H; [apply runs_ret; auto with cf|].
    apply runs_bind, runs_rd_n; [lia..|]. apply runs_ret. auto with cf. }
  apply runs_if; intros _; [apply rdata_name_runs; [done|lia]|].
  apply runs_if; intros _; [apply rdata_mx_runs; [done|lia]|].
  apply runs_if; intros _; [apply rdata_srv_runs; [done|lia]|].
  apply runs_if; intros _; [apply rdata_soa_runs; [done|lia]|].
  apply runs_if; intros _; [|apply runs_ret; auto with cf].
  eapply runs_mono; [apply rdata_txt_runs; done || lia|]. by intros r [].
Qed.

Lemma build_rr_runs msg h : msg_ok msg -> rr_hdr_ok msg h ->
  runs (build_rr inet_ntop msg h) (fun r => rr_ok r /\
    (rh_name_malformed h || rh_rdata_overrun h = true -> rr_malformed r = true)).
Proof.
  intros Hm [Hn [Ht Hc] Hl (Hr1 & Hr2 & Hr3)]. unfold build_rr.
  apply runs_bind, runs_rd_n; [lia..|].
  apply runs_bind. eapply runs_mono; [apply rdata_text_runs; [done|lia..]|].
  intros [txt m] Hm'. apply runs_ret. split; [|exact Hm'].
  unfold rr_ok. simpl. pose proof (dup_str_length (rh_name h)). split_and!; lia.
Qed.

Lemma parse_questions_runs n i msg pos w qs : msg_ok msg -> 0 <= pos <= zlen msg ->
  runs (parse_questions n i msg pos w qs) (fun '(qs', pos', w') =>
    warned w w' /\ pos <= pos' <= zlen msg /\
    exists new, qs' = qs ++ new /\ (length new <= n)%nat /\ Forall question_ok new /\
      ((length new < n)%nat -> wl_items w' <> wl_items w)).
Proof.
  intros Hm. revert i pos w qs. induction n as [|n IH]; intros i pos w qs Hp; cbn [parse_questions].
  { apply runs_ret. split; [auto with cf|]. split; [lia|]. exists []. rewrite app_nil_r.
    split_and!; simpl; try done; lia. }
  apply runs_if; intros Hend.
  { apply runs_ret. split; [auto with cf|]. split; [lia|]. exists []. rewrite app_nil_r.
    split_and!; simpl; try done; [lia|intros _].
    match goal with |- context [warn w ?a ?b ?c ?d] =>
      destruct (warn_one w a b c d) as [x ->] end.
    intros E. apply (f_equal length) in E. rewrite length_app in E. simpl in E. lia. }
  apply runs_bind. eapply runs_mono; [apply build_question_runs; [done|lia]|].
  intros [[[q|] pos1] w1] [Hw1 Hq].
  - destruct Hq as [Hpos Hqok]. eapply runs_mono; [apply IH; lia|].
    intros [[qs' pos'] w'] (Hw' & Hpos' & new & -> & Hlen & Hall & Hwarn).
    split; [by eapply warned_trans|]. split; [lia|]. exists (q :: new).
    rewrite <- app_assoc. split_and!; simpl; try done; [lia|by constructor|].
    intros Hlt E. destruct Hw1 as [l1 E1]. destruct Hw' as [l2 E2].
    apply Hwarn; [lia|]. rewrite E2, E1 in E |- *. rewrite <- app_assoc in E.
    rewrite <- (app_nil_r (wl_items w)) in E at 2. apply app_inv_head in E.
    apply app_eq_nil in E as [-> ->]. by rewrite !app_nil_r.
  - destruct Hq as [-> Hq]. apply runs_ret. split; [done|]. split; [lia|]. exists [].
    rewrite app_nil_r. split_and!; simpl; try done; lia.
Qed.

(** What a run of records adds to a section. *)
Definition section_post (msg : list Z) (pos : Z) (n : nat) (field field' : list dns_rr)
    (pos' : Z) (w w' : cf_warn_list_t) : Prop :=
  warned w w' /\ pos <= pos' <= zlen msg /\
  exists new, field' = field ++ new /\ (length new <= n)%nat /\ Forall rr_ok new.

Lemma parse_rr_section_runs n i msg pos section field w : msg_ok msg -> 0 <= pos <= zlen msg ->
  runs (parse_rr_section inet_ntop n i msg pos section field w) (fun '(field', pos', w') =>
    section_post msg pos n field field' pos' w w').
Proof.
  intros Hm. revert i pos field w. induction n as [|n IH]; intros i pos field w Hp;
    cbn [parse_rr_section].
  { apply runs_ret. split; [auto with cf|]. split; [lia|]. exists []. by rewrite app_nil_r. }
  apply runs_if; intros Hend.
  { apply runs_ret. split; [auto with cf|]. split; [lia|]. exists []. rewrite app_nil_r.
    split_and!; simpl; done || lia. }
  apply runs_bind. eapply runs_mono; [apply parse_rr_header_runs; [done|lia]|].
  intros [[[h|] pos1] w1] [Hw1 Hh].
  2:{ subst pos1. apply runs_ret. split; [done|]. split; [lia|]. exists []. rewrite app_nil_r.
      split_and!; simpl; done || lia. }
  destruct Hh as (Hpos & Hrh & _).
  apply runs_bind. eapply runs_mono; [by apply build_rr_runs|]. intros rr [Hrr _].
  apply runs_if; intros Hov.
  { apply runs_ret. split; [done|]. split; [lia|]. exists [rr].
    split_and!; [done|simpl; lia|by constructor]. }
  eapply runs_mono; [apply IH; lia|]. intros [[f' pos'] w'] (Hw' & Hpos' & new & -> & Hl & Hall).
  split; [by eapply warned_trans|]. split; [lia|]. exists (rr :: new). rewrite <- app_assoc.
  split_and!; [done|simpl; lia|by constructor].
Qed.

Definition opt_len {A} (o : option A) : nat := match o with Some _ => 1 | None => 0 end.

Lemma fold_rcode e h : edns_ok e -> header_ok 4096 h ->
  0 <= Z.lor (Z.shiftl (e_extended_rcode e) 4) (Z.land (h_rcode h) 0x0f) < 4096.
Proof.
  intros (_ & He & _) _. pose proof (land_range (h_rcode h) 4 0x0f ltac:(lia) eq_refl).
  rewrite lor_shiftl_add by lia. lia.
Qed.

Lemma parse_additional_runs n i msg pos hdr edns field w : msg_ok msg -> 0 <= pos <= zlen msg ->
  header_ok 4096 hdr -> (forall e, edns = Some e -> edns_ok e) ->
  runs (parse_additional inet_ntop n i msg pos hdr edns field w)
    (fun '(field', edns', hdr', w') =>
      warned w w' /\ header_ok 4096 hdr' /\ (forall e, edns' = Some e -> edns_ok e) /\
      [h_qdcount hdr'; h_ancount hdr'; h_nscount hdr'; h_arcount hdr'] =
      [h_qdcount hdr; h_ancount hdr; h_nscount hdr; h_arcount hdr] /\
      exists new, field' = field ++ new /\ Forall rr_ok new /\
        (length new + opt_len edns' <= n + opt_len edns)%nat).
Proof.
  intros Hm. revert i pos hdr edns field w.
  induction n as [|n IH]; intros i pos hdr edns field w Hp Hh He; cbn [parse_additional].
  { apply runs_ret. split_and!; auto with cf. exists []. by rewrite app_nil_r. }
  apply runs_if; intros Hend.
  { apply runs_ret. split_and!; auto with cf. exists []. rewrite app_nil_r.
    split_and!; simpl; done || lia. }
  apply runs_bind. eapply runs_mono; [apply parse_rr_header_runs; [done|lia]|].
  intros [[[h|] pos1] w1] [Hw1 Hhd].
  2:{ apply runs_ret. split_and!; auto with cf. exists []. rewrite app_nil_r.
      split_and!; simpl; done || lia. }
  destruct Hhd as (Hpos & Hrh & _).
  apply runs_bind. eapply runs_mono with (P := fun '(field', edns', hdr', w') =>
      warned w w' /\ header_ok 4096 hdr' /\ (forall e, edns' = Some e -> edns_ok e) /\
      [h_qdcount hdr'; h_ancount hdr'; h_nscount hdr'; h_arcount hdr'] =
      [h_qdcount hdr; h_ancount hdr; h_nscount hdr; h_arcount hdr] /\
      exists new, field' = field ++ new /\ Forall rr_ok new /\
        (length new + opt_len edns' <= 1 + opt_len edns)%nat).
  { apply runs_if; intros Hopt.
    - destruct edns as [e|].
      + apply runs_ret. split_and!; auto; [eapply warned_trans; [eassumption|auto with cf]|].
        exists []. rewrite app_nil_r. split_and!; simpl; done || lia.
      + apply runs_bind. eapply runs_mono; [by apply build_edns_runs|].
        intros [e w2] [Hw2 Heok]. apply runs_ret. pose proof (fold_rcode e hdr Heok Hh) as Hrc.
        split; [by eapply warned_trans|].
        split; [destruct Hh; split; [assumption|assumption|exact Hrc|assumption]|].
        split; [by intros ? [= <-]|]. split; [done|].
        exists []. rewrite app_nil_r. split_and!; simpl; done || lia.
    - apply runs_bind. eapply runs_mono; [by apply build_rr_runs|]. intros rr [Hrr _].
      apply runs_ret. split_and!; auto. exists [rr].
      split_and!; [done|by constructor|simpl; lia]. }
  intros [[[f1 e1] h1] w2] (Hw2 & Hh1 & He1 & Hc1 & new1 & -> & Hall1 & Hl1).
  apply runs_if; intros Hov.
  { apply runs_ret. split_and!; auto. exists new1. split_and!; [done|done|lia]. }
  eapply runs_mono; [apply IH; [lia|done|done]|].
  intros [[[f2 e2] h2] w3] (Hw3 & Hh2 & He2 & Hc2 & new2 & -> & Hall2 & Hl2).
  split_and!; auto; [by eapply warned_trans|by rewrite Hc2|].
  exists (new1 ++ new2). rewrite app_assoc. split_and!; [done|by apply Forall_app_2|].
  rewrite length_app. lia.
Qed.

Record message_ok (m : dns_message) : Prop := {
  mk_header : header_ok 4096 (m_header m);
  mk_questions : Forall question_ok (m_questions m) /\
                 zlen (m_questions m) <= h_qdcount (m_header m);
  mk_answers : Forall rr_ok (m_answers m) /\ zlen (m_answers m) <= h_ancount (m_header m);
  mk_authority : Forall rr_ok (m_authority m) /\ zlen (m_authority m) <= h_nscount (m_header m);
  mk_additional : Forall rr_ok (m_additional m) /\
    zlen (m_additional m) + Z.of_nat (opt_len (m_edns m)) <= h_arcount (m_header m);
  mk_edns : forall e, m_edns m = Some e -> edns_ok e
}.

Lemma dns_parse_runs msg w : msg_ok msg ->
  runs (cf_dns_parse inet_ntop (Some msg) true w) (fun '(m, w') =>
    warned w w' /\
    match m with
    | Some m => DNS_HEADER_LEN <= zlen msg /\ message_ok m
    | None => zlen msg < DNS_HEADER_LEN
    end).
Proof.
  intros Hm. unfold cf_dns_parse. unfold DNS_HEADER_LEN.
  apply runs_if; intros Hl; [apply runs_ret; split; [auto with cf|simpl in Hl; lia]|].
  simpl in Hl. apply runs_bind. eapply runs_mono; [apply build_header_runs; [done|unfold DNS_HEADER_LEN; lia]|].
  intros hdr Hh. apply runs_bind.
  pose proof (hk_counts _ _ Hh) as Hc. rewrite !Forall_cons_iff in Hc.
  eapply runs_mono; [apply parse_questions_runs; [done|lia]|].
  intros [[qs p1] w1] (Hw1 & Hp1 & nq & -> & Hlq & Hq & _).
  apply runs_bind. eapply runs_mono; [apply parse_rr_section_runs; [done|lia]|].
  intros [[an p2] w2] (Hw2 & Hp2 & na & -> & Hla & Ha).
  apply runs_bind. eapply runs_mono; [apply parse_rr_section_runs; [done|lia]|].
  intros [[ns p3] w3] (Hw3 & Hp3 & nn & -> & Hln & Hn).
  apply runs_bind. eapply runs_mono; [apply parse_additional_runs; [done|lia| |done]|].
  { destruct Hh. split; try done. lia. }
  intros [[[ar edns] h'] w4] (Hw4 & Hh' & He & [= Hc1 Hc2 Hc3 Hc4] & nr & -> & Hr & Hlr).
  apply runs_ret. split; [by do 3 (eapply warned_trans; [eassumption|])|].
  split; [lia|]. simpl in *. split; simpl; try done; split; try done; lia.
Qed.
End RecordsSafe.

(** ** The wire form of a message *)

Record rr_spec := {
  s_name : list (list Z);
  s_type : Z;
  s_class : Z;
  s_ttl : Z;
  s_rdata : list Z
}.

Definition wire_name (ls : list (list Z)) : list Z := concat (map (fun l => zlen l :: l) ls) ++ [0].

Definition wire_question (q : list (list Z) * Z * Z) : list Z :=
  let '(ls, qtype, qclass) := q in wire_name ls ++ be_bytes 2 qtype ++ be_bytes 2 qclass.

Definition wire_rr (s : rr_spec) : list Z :=
  wire_name (s_name s) ++ be_bytes 2 (s_type s) ++ be_bytes 2 (s_class s) ++
  be_bytes 4 (s_ttl s) ++ be_bytes 2 (zlen (s_rdata s)) ++ s_rdata s.

Definition label_ok (l : list Z) : Prop := 1 <= zlen l <= DNS_MAX_LABEL_LEN /\ bytes_ok l.

Definition labels_ok (ls : list (list Z)) : Prop :=
  Forall label_ok ls /\ octets ls <= DNS_MAX_NAME_OCTETS.

Definition question_spec_ok (q : list (list Z) * Z * Z) : Prop :=
  let '(ls, qtype, qclass) := q in
  labels_ok ls /\ 0 <= qtype < 65536 /\ 0 <= qclass < 65536.

Record rr_spec_ok (s : rr_spec) : Prop := {
  sk_name : labels_ok (s_name s);
  sk_type : 0 <= s_type s < 65536 /\ 0 <= s_class s < 65536;
  sk_ttl : 0 <= s_ttl s < 2 ^ 32;
  sk_rdata : bytes_ok (s_rdata s) /\ zlen (s_rdata s) < 65536
}.

Definition question_of (q : list (list Z) * Z * Z) : dns_question :=
  let '(ls, qtype, qclass) := q in
  {| q_qname := dup_str (render true ls); q_qname_wire := Some (wire_name ls);
     q_qtype := qtype; q_qtype_name := dup_str (dns_type_name qtype); q_qclass := qclass |}.

(** A parsed record carries the fields of its wire form; its text is whatever
    the type's decoder makes of the data. *)
Definition rr_matches (s : rr_spec) (r : dns_rr) : Prop :=
  rr_name r = dup_str (render true (s_name s)) /\ rr_type r = s_type s /\
  rr_type_name r = dup_str (dns_type_name (s_type s)) /\
  rr_class r = s_class s /\ rr_ttl r = s_ttl s /\ rr_rdata_raw r = set_bytes (s_rdata s).

Lemma wire_name_length ls : zlen (wire_name ls) = octets ls + 1.
Proof.
  unfold wire_name. rewrite length_app. induction ls as [|l ls IH]; simpl in *; [done|].
  rewrite length_app. lia.
Qed.

Lemma lookup_mid (pre : list Z) x post off : off = zlen pre ->
  (pre ++ x :: post) !! Z.to_nat off = Some x.
Proof. intros ->. rewrite Nat2Z.id. by apply list_lookup_middle. Qed.

Lemma slice_mid {A} (pre l post : list A) off n : off = zlen pre -> n = zlen l ->
  slice (pre ++ l ++ post) off n = l.
Proof.
  intros -> ->. rewrite slice_app_r by lia. rewrite Z.sub_diag, slice_app_l by lia.
  by apply slice_all.
Qed.

Lemma be_at_mid msg pre n v post off : msg = pre ++ be_bytes n v ++ post -> off = zlen pre ->
  0 <= v < 256 ^ Z.of_nat n -> be_at msg off (Z.of_nat n) = Some v.
Proof.
  intros -> -> Hv. unfold be_at. rewrite slice_mid by (rewrite ?be_bytes_length; lia).
  rewrite !length_app, be_bytes_length. replace (_ <=? _) with true by lia.
  rewrite be_value_be_bytes, Z.mod_small by done. done.
Qed.

Lemma name_at_wire pre ls rest : Forall label_ok ls ->
  name_at (pre ++ wire_name ls ++ rest) (zlen pre) ls 0 (zlen (wire_name ls)).
Proof.
  intros H. revert pre. induction H as [|l ls [Hl Hb] Hls IH]; intros pre.
  - constructor; [lia|]. by apply lookup_mid.
  - assert (pre ++ wire_name (l :: ls) ++ rest = (pre ++ zlen l :: l) ++ wire_name ls ++ rest) as Hm
      by (unfold wire_name; simpl; by rewrite <- !app_assoc, <- app_comm_cons).
    rewrite Hm. replace (zlen (wire_name (l :: ls))) with (1 + zlen l + zlen (wire_name ls))
      by (rewrite !wire_name_length; simpl; lia).
    assert (zlen (pre ++ zlen l :: l) = zlen pre + 1 + zlen l) as Hpl
      by (rewrite length_app; simpl; lia).
    constructor; try done; try lia.
    + rewrite <- app_assoc. simpl. by apply lookup_mid.
    + rewrite length_app. lia.
    + replace ((pre ++ zlen l :: l) ++ wire_name ls ++ rest)
        with ((pre ++ [zlen l]) ++ l ++ wire_name ls ++ rest)
        by (by rewrite <- !app_assoc).
      apply slice_mid; [rewrite length_app; simpl; lia|done].
    + rewrite <- Hpl. apply IH.
Qed.

Lemma decode_wire_name msg pre ls rest : msg_ok msg -> labels_ok ls ->
  msg = pre ++ wire_name ls ++ rest ->
  decode_name msg (zlen pre) true = Ret (1, render true ls, zlen (wire_name ls)).
Proof.
  intros [Hok _] [Hl Ho] ->. apply decode_name_complete with 0; [done| |done|done].
  by apply name_at_wire.
Qed.

Lemma get_be16_mid msg pre v post off : msg_ok msg -> msg = pre ++ be_bytes 2 v ++ post ->
  off = zlen pre -> 0 <= v < 65536 -> cf_get_be16 msg off = Ret (Some v).
Proof.
  intros [Hok Hl] Hm Ho Hv. unfold SIZE_MAX in Hl.
  assert (zlen pre <= zlen msg) by (rewrite Hm, length_app; lia).
  rewrite get_be16_at by (done || lia). f_equal. by apply (be_at_mid msg pre 2 v post).
Qed.

Lemma get_be32_mid msg pre v post off : msg_ok msg -> msg = pre ++ be_bytes 4 v ++ post ->
  off = zlen pre -> 0 <= v < 2 ^ 32 -> cf_get_be32 msg off = Ret (Some v).
Proof.
  intros [Hok Hl] Hm Ho Hv. unfold SIZE_MAX in Hl.
  assert (zlen pre <= zlen msg) by (rewrite Hm, length_app; lia).
  rewrite get_be32_at by (done || lia). f_equal. by apply (be_at_mid msg pre 4 v post).
Qed.

Lemma wire_name_pos ls : 0 < zlen (wire_name ls).
Proof. rewrite wire_name_length. pose proof (octets_nonneg ls). lia. Qed.

(** The side conditions of a read in the middle of an encoded message. *)
Ltac mid Hmsg :=
  first [ done | by rewrite Hmsg, <- !app_assoc
        | rewrite ?length_app, ?be_bytes_length; lia ].

Lemma build_question_wire msg pre q rest i w : msg_ok msg -> question_spec_ok q ->
  msg = pre ++ wire_question q ++ rest ->
  build_question msg (zlen pre) i w =
  Ret (Some (question_of q), zlen (pre ++ wire_question q), w).
Proof.
  intros Hm Hq Hmsg. destruct q as [[ls qt] qc]. destruct Hq as (Hls & Hqt & Hqc).
  unfold wire_question in Hmsg. rewrite <- !app_assoc in Hmsg.
  unfold build_question. rewrite (decode_wire_name msg pre ls _ Hm Hls Hmsg). xbind.
  pose proof (wire_name_pos ls). replace (zlen (wire_name ls) =? 0) with false by lia.
  change (1 =? 0) with false. cbv iota. xbind.
  rewrite (get_be16_mid msg (pre ++ wire_name ls) qt (be_bytes 2 qc ++ rest)
    (zlen pre + zlen (wire_name ls)))
    by mid Hmsg. xbind.
  rewrite (get_be16_mid msg (pre ++ wire_name ls ++ be_bytes 2 qt) qc rest
    (zlen pre + zlen (wire_name ls) + 2))
    by mid Hmsg.
  xbind. rewrite rd_n_ok by (rewrite ?Hmsg, ?length_app; lia). xbind.
  rewrite Hmsg at 1. rewrite slice_mid by done.
  unfold wire_question. rewrite !length_app, !be_bytes_length.
  replace (set_bytes (wire_name ls)) with (Some (wire_name ls))
    by (destruct (wire_name ls) eqn:E; [simpl in *; lia|done]).
  do 4 f_equal. lia.
Qed.

Lemma parse_questions_wire msg qs : forall pre rest i w acc, msg_ok msg ->
  Forall question_spec_ok qs -> msg = pre ++ concat (map wire_question qs) ++ rest ->
  parse_questions (length qs) i msg (zlen pre) w acc =
  Ret (acc ++ map question_of qs, zlen (pre ++ concat (map wire_question qs)), w).
Proof.
  induction qs as [|q qs IH]; intros pre rest i w acc Hm Hq Hmsg; cbn [length parse_questions].
  { by rewrite !app_nil_r. }
  simpl in Hmsg. rewrite <- app_assoc in Hmsg. apply Forall_cons_iff in Hq as [Hq0 Hq].
  assert (0 < zlen (wire_question q)) as Hlen.
  { destruct q as [[ls qt] qc]. simpl. rewrite length_app. pose proof (wire_name_pos ls). lia. }
  replace (zlen msg <=? zlen pre) with false by (rewrite Hmsg, !length_app; lia).
  rewrite (build_question_wire msg pre q _ i w Hm Hq0 Hmsg). xbind.
  rewrite (IH (pre ++ wire_question q) rest) by (done || by rewrite Hmsg, <- !app_assoc).
  cbn [map concat]. by rewrite <- !app_assoc.
Qed.

Definition hdr_of (s : rr_spec) (off : Z) : rr_hdr_t :=
  {| rh_name := render true (s_name s); rh_name_malformed := false; rh_type := s_type s;
     rh_class := s_class s; rh_ttl := s_ttl s; rh_rdata_off := off;
     rh_rdlength := zlen (s_rdata s); rh_rdata_overrun := false |}.

Lemma rr_fixed_wire msg pre s rest : msg_ok msg -> rr_spec_ok s ->
  msg = pre ++ be_bytes 2 (s_type s) ++ be_bytes 2 (s_class s) ++ be_bytes 4 (s_ttl s) ++
        be_bytes 2 (zlen (s_rdata s)) ++ rest ->
  rr_fixed msg (zlen pre) = Ret (Some (s_type s, s_class s, s_ttl s, zlen (s_rdata s))).
Proof.
  intros Hm [_ [Ht Hc] Hl [_ Hr]] Hmsg. unfold rr_fixed.
  rewrite (get_be16_mid msg pre (s_type s) (be_bytes 2 (s_class s) ++ be_bytes 4 (s_ttl s) ++
    be_bytes 2 (zlen (s_rdata s)) ++ rest) (zlen pre)) by mid Hmsg. xbind.
  rewrite (get_be16_mid msg (pre ++ be_bytes 2 (s_type s)) (s_class s) (be_bytes 4 (s_ttl s) ++
    be_bytes 2 (zlen (s_rdata s)) ++ rest) (zlen pre + 2)) by mid Hmsg. xbind.
  rewrite (get_be32_mid msg (pre ++ be_bytes 2 (s_type s) ++ be_bytes 2 (s_class s)) (s_ttl s)
    (be_bytes 2 (zlen (s_rdata s)) ++ rest) (zlen pre + 4)) by mid Hmsg. xbind.
  rewrite (get_be16_mid msg (pre ++ be_bytes 2 (s_type s) ++ be_bytes 2 (s_class s) ++
    be_bytes 4 (s_ttl s)) (zlen (s_rdata s)) rest (zlen pre + 8)) by mid Hmsg. done.
Qed.

Lemma wire_rr_length s : zlen (wire_rr s) = zlen (wire_name (s_name s)) + 10 + zlen (s_rdata s).
Proof. unfold wire_rr. rewrite !length_app, !be_bytes_length. lia. Qed.

Lemma parse_rr_header_wire msg pre s rest section i w : msg_ok msg -> rr_spec_ok s ->
  msg = pre ++ wire_rr s ++ rest ->
  parse_rr_header msg (zlen pre) w section i =
  Ret (Some (hdr_of s (zlen (pre ++ wire_rr s) - zlen (s_rdata s))), zlen (pre ++ wire_rr s), w).
Proof.
  intros Hm Hs Hmsg. pose proof Hmsg as Hmsg2. unfold wire_rr in Hmsg2.
  rewrite <- !app_assoc in Hmsg2.
  unfold parse_rr_header. rewrite (decode_wire_name msg pre _ _ Hm (sk_name _ Hs) Hmsg2). xbind.
  pose proof (wire_name_pos (s_name s)). replace (zlen (wire_name _) =? 0) with false by lia.
  change (1 =? 0) with false.
  replace (zlen pre + zlen (wire_name (s_name s))) with (zlen (pre ++ wire_name (s_name s)))
    by (rewrite length_app; lia).
  rewrite (rr_fixed_wire msg (pre ++ wire_name (s_name s)) s (s_rdata s ++ rest))
    by mid Hmsg2. xbind.
  assert (zlen (pre ++ wire_rr s) = zlen (pre ++ wire_name (s_name s)) + 10 + zlen (s_rdata s)) as Hl
    by (rewrite !length_app, Nat2Z.inj_add, wire_rr_length; lia).
  replace (zlen msg <? _) with false
    by (rewrite Hmsg, app_assoc, length_app; lia).
  cbv iota. xbind. rewrite <- Hl. unfold hdr_of. do 4 f_equal. f_equal. lia.
Qed.

Section RoundTrip.
Variable inet_ntop : Z -> list Z -> list Z.

Lemma build_rr_wire msg pre s rest : msg_ok msg -> rr_spec_ok s ->
  msg = pre ++ wire_rr s ++ rest ->
  exists r, build_rr inet_ntop msg (hdr_of s (zlen (pre ++ wire_rr s) - zlen (s_rdata s))) = Ret r /\
    rr_matches s r.
Proof.
  intros Hm Hs Hmsg. unfold build_rr, hdr_of. cbn [rh_name rh_name_malformed rh_type rh_class
    rh_ttl rh_rdata_off rh_rdlength rh_rdata_overrun].
  set (off := zlen (pre ++ wire_rr s) - zlen (s_rdata s)).
  assert (off = zlen (pre ++ wire_name (s_name s) ++ be_bytes 2 (s_type s) ++
    be_bytes 2 (s_class s) ++ be_bytes 4 (s_ttl s) ++ be_bytes 2 (zlen (s_rdata s)))) as Hoff.
  { unfold off. rewrite !length_app, Nat2Z.inj_add, wire_rr_length, !be_bytes_length. lia. }
  assert (0 <= off /\ off + zlen (s_rdata s) <= zlen msg) as Hb.
  { split; [rewrite Hoff; lia|]. unfold off. rewrite Hmsg, app_assoc, (length_app (pre ++ _)). lia. }
  rewrite rd_n_ok by lia. xbind.
  assert (slice msg off (zlen (s_rdata s)) = s_rdata s) as ->.
  { rewrite Hmsg. unfold wire_rr.
    replace (pre ++ _) with ((pre ++ wire_name (s_name s) ++ be_bytes 2 (s_type s) ++
      be_bytes 2 (s_class s) ++ be_bytes 4 (s_ttl s) ++ be_bytes 2 (zlen (s_rdata s))) ++
      s_rdata s ++ rest) by (by rewrite <- !app_assoc).
    by apply slice_mid. }
  destruct (runs_inv _ _ (rdata_text_runs inet_ntop msg (s_type s) off (zlen (s_rdata s))
    (false || false) Hm ltac:(lia) ltac:(lia) ltac:(lia))) as ([txt m] & -> & _).
  eexists. split; [reflexivity|]. done.
Qed.

Lemma wire_rr_pos s : 0 < zlen (wire_rr s).
Proof. rewrite wire_rr_length. pose proof (wire_name_pos (s_name s)). lia. Qed.

Lemma parse_rr_section_wire msg section ss : forall pre rest i w acc, msg_ok msg ->
  Forall rr_spec_ok ss -> msg = pre ++ concat (map wire_rr ss) ++ rest ->
  exists rs, parse_rr_section inet_ntop (length ss) i msg (zlen pre) section acc w =
    Ret (acc ++ rs, zlen (pre ++ concat (map wire_rr ss)), w) /\ Forall2 rr_matches ss rs.
Proof.
  induction ss as [|s ss IH]; intros pre rest i w acc Hm Hs Hmsg; cbn [length parse_rr_section].
  { exists []. by rewrite !app_nil_r. }
  simpl in Hmsg. rewrite <- app_assoc in Hmsg. apply Forall_cons_iff in Hs as [Hs0 Hs].
  pose proof (wire_rr_pos s).
  replace (zlen msg <=? zlen pre) with false by (rewrite Hmsg, !length_app; lia).
  rewrite (parse_rr_header_wire msg pre s _ section i w Hm Hs0 Hmsg). xbind.
  destruct (build_rr_wire msg pre s _ Hm Hs0 Hmsg) as (r & -> & Hr). xbind.
  destruct (IH (pre ++ wire_rr s) rest (i + 1) w (acc ++ [r])) as (rs & Hrs & Hall);
    [done|done|by rewrite Hmsg, <- !app_assoc|].
  exists (r :: rs). split; [|by constructor]. cbn [rh_rdata_overrun hdr_of]. rewrite Hrs.
  cbn [map concat]. by rewrite <- !app_assoc.
Qed.

Lemma parse_additional_wire msg ss : forall pre rest i hdr w acc, msg_ok msg ->
  Forall rr_spec_ok ss -> Forall (fun s => s_type s <> DNS_TYPE_OPT) ss ->
  msg = pre ++ concat (map wire_rr ss) ++ rest ->
  exists rs, parse_additional inet_ntop (length ss) i msg (zlen pre) hdr None acc w =
    Ret (acc ++ rs, None, hdr, w) /\ Forall2 rr_matches ss rs.
Proof.
  induction ss as [|s ss IH]; intros pre rest i hdr w acc Hm Hs Hno Hmsg;
    cbn [length parse_additional].
  { exists []. by rewrite !app_nil_r. }
  simpl in Hmsg. rewrite <- app_assoc in Hmsg. apply Forall_cons_iff in Hs as [Hs0 Hs].
  apply Forall_cons_iff in Hno as [Hno0 Hno]. pose proof (wire_rr_pos s).
  replace (zlen msg <=? zlen pre) with false by (rewrite Hmsg, !length_app; lia).
  rewrite (parse_rr_header_wire msg pre s _ _ i w Hm Hs0 Hmsg). xbind.
  cbn [rh_type hdr_of]. replace (s_type s =? DNS_TYPE_OPT) with false by lia.
  destruct (build_rr_wire msg pre s _ Hm Hs0 Hmsg) as (r & -> & Hr). xbind.
  destruct (IH (pre ++ wire_rr s) rest (i + 1) hdr w (acc ++ [r])) as (rs & Hrs & Hall);
    [done|done|done|by rewrite Hmsg, <- !app_assoc|].
  exists (r :: rs). split; [|by constructor]. cbn [rh_rdata_overrun hdr_of]. rewrite Hrs.
  by rewrite <- !app_assoc.
Qed.

End RoundTrip.

(** The header word of flags. *)
Definition flags_byte1 (qr : bool) (opcode : Z) (aa tc rd : bool) : Z :=
  (if qr then 0x80 else 0) + opcode * 8 + (if aa then 4 else 0) + (if tc then 2 else 0) +
  (if rd then 1 else 0).
Definition flags_byte2 (ra ad cd : bool) (rcode : Z) : Z :=
  (if ra then 0x80 else 0) + (if ad then 0x20 else 0) + (if cd then 0x10 else 0) + rcode.

Record header_spec := {
  hs_id : Z; hs_qr : bool; hs_opcode : Z; hs_aa : bool; hs_tc : bool; hs_rd : bool;
  hs_ra : bool; hs_ad : bool; hs_cd : bool; hs_rcode : Z
}.

Definition wire_header (h : header_spec) (qd an ns ar : Z) : list Z :=
  be_bytes 2 (hs_id h) ++
  [flags_byte1 (hs_qr h) (hs_opcode h) (hs_aa h) (hs_tc h) (hs_rd h);
   flags_byte2 (hs_ra h) (hs_ad h) (hs_cd h) (hs_rcode h)] ++
  be_bytes 2 qd ++ be_bytes 2 an ++ be_bytes 2 ns ++ be_bytes 2 ar.

Definition header_of (h : header_spec) (qd an ns ar : Z) : dns_header :=
  {| h_id := hs_id h; h_qr := hs_qr h; h_opcode := hs_opcode h; h_aa := hs_aa h;
     h_tc := hs_tc h; h_rd := hs_rd h; h_ra := hs_ra h; h_ad := hs_ad h; h_cd := hs_cd h;
     h_rcode := hs_rcode h; h_qdcount := qd; h_ancount := an; h_nscount := ns;
     h_arcount := ar |}.

(** The bits of the two flag bytes, by evaluation over every value. *)
Definition flags1_ok : bool :=
  forallb (fun opcode => forallb (fun qr => forallb (fun aa => forallb (fun tc => forallb (fun rd =>
    let f := flags_byte1 qr (Z.of_nat opcode) aa tc rd in
    eqb (bit_set f 0x80) qr && (Z.land (Z.shiftr f 3) 0x0f =? Z.of_nat opcode) &&
    eqb (bit_set f 0x04) aa && eqb (bit_set f 0x02) tc && eqb (bit_set f 0x01) rd)
  [true; false]) [true; false]) [true; false]) [true; false]) (seq 0 16).

Definition flags2_ok : bool :=
  forallb (fun rcode => forallb (fun ra => forallb (fun ad => forallb (fun cd =>
    let f := flags_byte2 ra ad cd (Z.of_nat rcode) in
    eqb (bit_set f 0x80) ra && eqb (bit_set f 0x20) ad && eqb (bit_set f 0x10) cd &&
    (Z.land f 0x0f =? Z.of_nat rcode))
  [true; false]) [true; false]) [true; false]) (seq 0 16).

Lemma flags1_checked : flags1_ok = true.
Proof. vm_compute. reflexivity. Qed.
Lemma flags2_checked : flags2_ok = true.
Proof. vm_compute. reflexivity. Qed.

Lemma bool_in (b : bool) : In b [true; false].
Proof. destruct b; simpl; auto. Qed.

Lemma flags1_bits qr op aa tc rd : 0 <= op < 16 ->
  let f := flags_byte1 qr op aa tc rd in
  bit_set f 0x80 = qr /\ Z.land (Z.shiftr f 3) 0x0f = op /\ bit_set f 0x04 = aa /\
  bit_set f 0x02 = tc /\ bit_set f 0x01 = rd.
Proof.
  intros Hop f. pose proof flags1_checked as H. unfold flags1_ok in H.
  rewrite forallb_forall in H. specialize (H (Z.to_nat op)). rewrite in_seq in H.
  specialize (H ltac:(lia)). rewrite Z2Nat.id in H by lia.
  rewrite forallb_forall in H. specialize (H qr (bool_in qr)).
  rewrite forallb_forall in H. specialize (H aa (bool_in aa)).
  rewrite forallb_forall in H. specialize (H tc (bool_in tc)).
  rewrite forallb_forall in H. specialize (H rd (bool_in rd)). cbv zeta in H. fold f in H.
  rewrite !andb_true_iff, !eqb_true_iff, Z.eqb_eq in H. tauto.
Qed.

Lemma flags2_bits ra ad cd rc : 0 <= rc < 16 ->
  let f := flags_byte2 ra ad cd rc in
  bit_set f 0x80 = ra /\ bit_set f 0x20 = ad /\ bit_set f 0x10 = cd /\ Z.land f 0x0f = rc.
Proof.
  intros Hrc f. pose proof flags2_checked as H. unfold flags2_ok in H.
  rewrite forallb_forall in H. specialize (H (Z.to_nat rc)). rewrite in_seq in H.
  specialize (H ltac:(lia)). rewrite Z2Nat.id in H by lia.
  rewrite forallb_forall in H. specialize (H ra (bool_in ra)).
  rewrite forallb_forall in H. specialize (H ad (bool_in ad)).
  rewrite forallb_forall in H. specialize (H cd (bool_in cd)). cbv zeta in H. fold f in H.
  rewrite !andb_true_iff, !eqb_true_iff, Z.eqb_eq in H. tauto.
Qed.

Record header_spec_ok (h : header_spec) : Prop := {
  hsk_id : 0 <= hs_id h < 65536;
  hsk_bits : 0 <= hs_opcode h < 16 /\ 0 <= hs_rcode h < 16
}.

Lemma get16_mid msg pre v post off : msg_ok msg -> msg = pre ++ be_bytes 2 v ++ post ->
  off = zlen pre -> 0 <= v < 65536 -> get16 msg off = Ret v.
Proof. intros. unfold get16. by rewrite (get_be16_mid msg pre v post). Qed.

Lemma build_header_wire msg h qd an ns ar rest : msg_ok msg -> header_spec_ok h ->
  Forall (fun c => 0 <= c < 65536) [qd; an; ns; ar] ->
  msg = wire_header h qd an ns ar ++ rest -> build_header msg = Ret (header_of h qd an ns ar).
Proof.
  intros Hm [Hid [Hop Hrc]] Hc Hmsg. rewrite !Forall_cons_iff in Hc.
  destruct Hc as (Hqd & Han & Hns & Har & _).
  unfold wire_header in Hmsg. rewrite <- !app_assoc in Hmsg.
  set (f1 := flags_byte1 _ _ _ _ _) in Hmsg. set (f2 := flags_byte2 _ _ _ _) in Hmsg.
  unfold build_header.
  rewrite (get16_mid msg [] (hs_id h) ([f1; f2] ++ be_bytes 2 qd ++ be_bytes 2 an ++
    be_bytes 2 ns ++ be_bytes 2 ar ++ rest) 0) by done. xbind.
  assert (rd msg 2 = Ret f1) as -> by (rewrite Hmsg; reflexivity).
  assert (rd msg 3 = Ret f2) as -> by (rewrite Hmsg; reflexivity). xbind.
  rewrite (get16_mid msg (be_bytes 2 (hs_id h) ++ [f1; f2]) qd (be_bytes 2 an ++
    be_bytes 2 ns ++ be_bytes 2 ar ++ rest) 4) by mid Hmsg. xbind.
  rewrite (get16_mid msg (be_bytes 2 (hs_id h) ++ [f1; f2] ++ be_bytes 2 qd) an
    (be_bytes 2 ns ++ be_bytes 2 ar ++ rest) 6) by mid Hmsg. xbind.
  rewrite (get16_mid msg (be_bytes 2 (hs_id h) ++ [f1; f2] ++ be_bytes 2 qd ++ be_bytes 2 an) ns
    (be_bytes 2 ar ++ rest) 8) by mid Hmsg. xbind.
  rewrite (get16_mid msg (be_bytes 2 (hs_id h) ++ [f1; f2] ++ be_bytes 2 qd ++ be_bytes 2 an ++
    be_bytes 2 ns) ar rest 10) by mid Hmsg. xbind.
  subst f1 f2.
  destruct (flags1_bits (hs_qr h) _ (hs_aa h) (hs_tc h) (hs_rd h) Hop) as (-> & -> & -> & -> & ->).
  destruct (flags2_bits (hs_ra h) (hs_ad h) (hs_cd h) _ Hrc) as (-> & -> & -> & ->). done.
Qed.

(** A whole message on the wire, names uncompressed. *)
Definition wire (h : header_spec) (qs : list (list (list Z) * Z * Z)) (an ns ar : list rr_spec)
    : list Z :=
  wire_header h (zlen qs) (zlen an) (zlen ns) (zlen ar) ++ concat (map wire_question qs) ++
  concat (map wire_rr an) ++ concat (map wire_rr ns) ++ concat (map wire_rr ar).

Record wire_ok (h : header_spec) (qs : list (list (list Z) * Z * Z)) (an ns ar : list rr_spec)
    : Prop := {
  wo_header : header_spec_ok h;
  wo_questions : Forall question_spec_ok qs;
  wo_records : Forall rr_spec_ok (an ++ ns ++ ar);
  wo_no_opt : Forall (fun s => s_type s <> DNS_TYPE_OPT) ar;
  wo_counts : Forall (fun c => 0 <= c < 65536) [zlen qs; zlen an; zlen ns; zlen ar];
  wo_size : msg_ok (wire h qs an ns ar)
}.

(** ** Properties *)

(** C16. Parsing is total and memory safe on every message: it returns a tree
    exactly when the 12-byte header is there, never reads outside the message
    and never runs forever; the tree's fields are in range, no section holds
    more records than its count says, the folded rcode fits in 12 bits, and
    the caller's warnings are kept. *)
Theorem dns_parse_total inet_ntop msg w :
  msg_ok msg ->
  runs (cf_dns_parse inet_ntop (Some msg) true w) (fun '(m, w') =>
    warned w w' /\
    match m with
    | Some m => DNS_HEADER_LEN <= zlen msg /\ message_ok m
    | None => zlen msg < DNS_HEADER_LEN
    end).
Proof. apply dns_parse_runs. Qed.

Definition no_ntop (family : Z) (addr : list Z) : list Z := addr.

(** A header that promises 65535 questions over a pointer to itself. *)
Definition hostile : list Z := [0; 0; 0; 0; 255; 255; 0; 0; 0; 0; 0; 0; 192; 12].

Lemma dns_parse_total_witness :
  runs (cf_dns_parse no_ntop (Some hostile) true cf_warn_list_init) (fun '(m, w') =>
    warned cf_warn_list_init w' /\
    match m with
    | Some m => DNS_HEADER_LEN <= zlen hostile /\ message_ok m
    | None => zlen hostile < DNS_HEADER_LEN
    end).
Proof.
  apply (dns_parse_total no_ntop hostile cf_warn_list_init).
  split; [by apply bytes_okb|done].
Defined.

(** C17. Round trip: parsing the wire form of a header, questions and records
    returns exactly those, in order, with lower-cased dotted names, and adds no
    warning. *)
Theorem dns_roundtrip inet_ntop h qs an ns ar w :
  wire_ok h qs an ns ar ->
  exists an' ns' ar',
    cf_dns_parse inet_ntop (Some (wire h qs an ns ar)) true w =
      Ret (Some {| m_header := header_of h (zlen qs) (zlen an) (zlen ns) (zlen ar);
                   m_questions := map question_of qs; m_answers := an'; m_authority := ns';
                   m_additional := ar'; m_edns := None |}, w) /\
    Forall2 rr_matches an an' /\ Forall2 rr_matches ns ns' /\ Forall2 rr_matches ar ar'.
Proof.
  intros [Hh Hq Hr Hno Hc Hm]. rewrite !Forall_app in Hr. destruct Hr as (Hra & Hrn & Hrr).
  set (msg := wire h qs an ns ar) in *. assert (msg = wire h qs an ns ar) as Hmsg by done.
  unfold wire in Hmsg. set (wh := wire_header _ _ _ _ _) in Hmsg.
  assert (zlen wh = 12) as Hwh by (unfold wh, wire_header; by rewrite !length_app, !be_bytes_length).
  unfold cf_dns_parse, DNS_HEADER_LEN. simpl negb. cbn [orb].
  replace (zlen msg <? 12) with false by (rewrite Hmsg, length_app; lia).
  rewrite (build_header_wire msg h _ _ _ _ _ Hm Hh Hc Hmsg). xbind.
  set (hd := header_of h _ _ _ _).
  change (h_qdcount hd) with (zlen qs). change (h_ancount hd) with (zlen an).
  change (h_nscount hd) with (zlen ns). change (h_arcount hd) with (zlen ar).
  rewrite !Nat2Z.id.
  pose proof (parse_questions_wire msg qs wh _ 0 w [] Hm Hq Hmsg) as Hpq.
  rewrite Hwh in Hpq. rewrite Hpq. xbind.
  rewrite app_assoc in Hmsg.
  destruct (parse_rr_section_wire inet_ntop msg "answers" an _ _ 0 w [] Hm Hra Hmsg)
    as (an' & -> & Ha). xbind.
  rewrite app_assoc in Hmsg.
  destruct (parse_rr_section_wire inet_ntop msg "authority" ns _ _ 0 w [] Hm Hrn Hmsg)
    as (ns' & -> & Hn). xbind.
  rewrite app_assoc in Hmsg. rewrite <- (app_nil_r (concat (map wire_rr ar))) in Hmsg.
  destruct (parse_additional_wire inet_ntop msg ar _ _ 0
    hd w [] Hm Hrr Hno Hmsg)
    as (ar' & Har & Hr). rewrite Har. xbind. by exists an', ns', ar'.
Qed.

Definition sample_header : header_spec :=
  {| hs_id := 0x1234; hs_qr := true; hs_opcode := 0; hs_aa := false; hs_tc := false;
     hs_rd := true; hs_ra := true; hs_ad := false; hs_cd := false; hs_rcode := 3 |}.
Definition sample_name : list (list Z) := [bs "WWW"; bs "example"; bs "com"].
Definition sample_rr : rr_spec :=
  {| s_name := sample_name; s_type := 1; s_class := 1; s_ttl := 300; s_rdata := [192; 0; 2; 1] |}.

Lemma sample_labels : labels_ok sample_name.
Proof.
  split; [|vm_compute; discriminate].
  repeat (apply Forall_cons_2; [split; [vm_compute; split; discriminate|apply bs_bytes_ok]|]).
  constructor.
Qed.

Lemma dns_roundtrip_witness :
  exists an' ns' ar',
    cf_dns_parse no_ntop (Some (wire sample_header [(sample_name, 1, 1)] [sample_rr] [] []))
      true cf_warn_list_init =
      Ret (Some {| m_header := header_of sample_header 1 1 0 0;
                   m_questions := [question_of (sample_name, 1, 1)]; m_answers := an';
                   m_authority := ns'; m_additional := ar'; m_edns := None |}, cf_warn_list_init) /\
    Forall2 rr_matches [sample_rr] an' /\ Forall2 rr_matches [] ns' /\ Forall2 rr_matches [] ar'.
Proof.
  apply (dns_roundtrip no_ntop sample_header [(sample_name, 1, 1)] [sample_rr] [] []
           cf_warn_list_init).
  split.
  - split; [split; [discriminate|reflexivity]|]. repeat split; discriminate.
  - constructor; [|constructor]. split; [exact sample_labels|]. repeat split; discriminate.
  - constructor; [|constructor]. split; [exact sample_labels|repeat split; discriminate| |].
    + split; [discriminate|reflexivity].
    + split; [by apply bytes_okb|reflexivity].
  - constructor.
  - repeat (apply Forall_cons_2; [split; [discriminate|reflexivity]|]). constructor.
  - split; [by apply bytes_okb|vm_compute; discriminate].
Defined.

(** ** TXT and EDNS data *)

Definition txt_rdata (ss : list (list Z)) : list Z := concat (map (fun s => zlen s :: s) ss).

Definition txt_join (ss : list (list Z)) : list Z :=
  match ss with [] => [] | s :: r => s ++ concat (map (cons 32) r) end.

Definition txt_emit (first : bool) (buf : list Z) (ss : list (list Z)) : list Z :=
  if first then buf ++ txt_join ss else buf ++ concat (map (cons 32) ss).

Lemma txt_loop_join fuel msg ss : forall pre rest e rdlen (first : bool) m buf, bytes_ok msg ->
  msg = pre ++ txt_rdata ss ++ rest -> e = zlen pre + zlen (txt_rdata ss) ->
  zlen buf + (if first then 0 else 1) + zlen (txt_rdata ss) <= rdlen + 1 ->
  (first = true -> buf = []) ->
  (length ss < fuel)%nat ->
  txt_loop fuel msg (zlen pre) e rdlen first m buf = Ret (txt_emit first buf ss, m).
Proof.
  revert fuel. induction ss as [|s ss IH]; intros fuel pre rest e rdlen first m buf Hok Hmsg He Hb
    Hfirst Hf; (destruct fuel as [|fuel]; [simpl in Hf; lia|]); cbn [txt_loop].
  { replace (zlen pre <? e) with false by (simpl in He; lia).
    destruct first; simpl; by rewrite app_nil_r. }
  assert (zlen (txt_rdata (s :: ss)) = 1 + zlen s + zlen (txt_rdata ss)) as Hl
    by (unfold txt_rdata; simpl; rewrite length_app; lia).
  rewrite Hl in *. replace (zlen pre <? e) with true by lia.
  assert (msg = (pre ++ [zlen s]) ++ s ++ txt_rdata ss ++ rest) as Hm2
    by (rewrite Hmsg; unfold txt_rdata; simpl; by rewrite <- !app_assoc).
  assert (msg = ((pre ++ [zlen s]) ++ s) ++ txt_rdata ss ++ rest) as Hm3
    by (rewrite Hm2; by rewrite <- !app_assoc).
  assert (msg !! Z.to_nat (zlen pre) = Some (zlen s)) as Hs
    by (rewrite Hmsg; by apply lookup_mid).
  rewrite (rd_lookup msg (zlen pre) (zlen s)) by (done || lia). xbind.
  replace (e <? zlen pre + 1 + zlen s) with false by lia.
  set (buf' := if negb first && (zlen buf <? rdlen) then buf ++ [32] else buf).
  assert (zlen buf' + zlen s <= rdlen /\ buf' = if first then buf else buf ++ [32]) as [Hb' Hbe].
  { unfold buf'. destruct first; cbn [negb andb]; [split; [|done]; rewrite Hfirst in Hb |- * by done;
      simpl in Hb |- *; lia|].
    replace (zlen buf <? rdlen) with true by lia. split; [|done].
    rewrite length_app. simpl. lia. }
  assert (zlen pre + 1 = zlen (pre ++ [zlen s])) as Hp1 by (rewrite length_app; simpl; lia).
  assert (zlen pre + 1 + zlen s <= zlen msg) by (rewrite Hm2, !length_app; simpl; lia).
  rewrite txt_copy_spec by (done || lia). xbind.
  rewrite Nat2Z.id, Z.min_l by lia. rewrite Hp1.
  replace (slice msg (zlen (pre ++ [zlen s])) (zlen s)) with s
    by (rewrite Hm2; symmetry; by apply slice_mid).
  replace (zlen (pre ++ [zlen s]) + zlen s) with (zlen ((pre ++ [zlen s]) ++ s))
    by (rewrite (length_app _ s); lia).
  rewrite (IH fuel ((pre ++ [zlen s]) ++ s) rest e rdlen false m (buf' ++ s) Hok Hm3); [|..].
  - rewrite Hbe. destruct first; simpl; by rewrite <- ?app_assoc.
  - rewrite !length_app in *. simpl in *. lia.
  - rewrite length_app. destruct first; rewrite Hbe in *; rewrite ?length_app in *; simpl in *; [|lia].
    rewrite Hfirst in * by done. simpl in *. lia.
  - done.
  - simpl in Hf. lia.
Qed.

(** A TXT record of any character strings decodes to those strings joined
    by single spaces: the buffer of one byte per data byte never cuts them. *)
Theorem txt_text_joined pre ss rest m :
  bytes_ok (pre ++ txt_rdata ss ++ rest) ->
  rdata_txt_text (pre ++ txt_rdata ss ++ rest) (zlen pre) (zlen (txt_rdata ss)) m =
    Ret (txt_join ss, m).
Proof.
  intros Hok. unfold rdata_txt_text.
  replace (zlen (pre ++ txt_rdata ss ++ rest) <? _) with false by (rewrite !length_app; lia).
  destruct (_ <=? zlen pre) eqn:E.
  - destruct ss as [|s ss]; [done|]. exfalso. unfold txt_rdata in E. simpl in E. lia.
  - assert (length ss <= length (txt_rdata ss))%nat as Hlen.
    { clear. induction ss as [|s ss IH]; simpl; [lia|]. rewrite length_app.
      unfold txt_rdata in IH. lia. }
    rewrite (txt_loop_join _ _ ss pre rest) by (done || simpl; lia). done.
Qed.

Lemma txt_text_joined_witness :
  rdata_txt_text ([7] ++ txt_rdata [bs "v=spf1"; bs "-all"] ++ []) 1 12 false =
    Ret (bs "v=spf1 -all", false).
Proof. apply (txt_text_joined [7] [bs "v=spf1"; bs "-all"] [] false). by apply bytes_okb. Defined.

Definition edns_rdata (os : list (Z * list Z)) : list Z :=
  concat (map (fun '(code, data) => be_bytes 2 code ++ be_bytes 2 (zlen data) ++ data) os).

Definition edns_option_of (o : Z * list Z) : dns_edns_option :=
  {| eo_code := o.1; eo_length := zlen o.2; eo_raw_value := set_bytes o.2 |}.

Definition edns_spec_ok (os : list (Z * list Z)) : Prop :=
  Forall (fun o => 0 <= o.1 < 65536 /\ zlen o.2 < 65536) os.

Lemma edns_loop_wire fuel msg os : forall pre rest e w acc, msg_ok msg -> edns_spec_ok os ->
  msg = pre ++ edns_rdata os ++ rest -> e = zlen pre + zlen (edns_rdata os) ->
  (length os < fuel)%nat ->
  edns_loop fuel msg (zlen pre) e w acc = Ret (acc ++ map edns_option_of os, w).
Proof.
  revert fuel. induction os as [|[code data] os IH]; intros fuel pre rest e w acc Hm Hos Hmsg He Hf;
    (destruct fuel as [|fuel]; [simpl in Hf; lia|]); cbn [edns_loop].
  { replace (zlen pre + 4 <=? e) with false by (simpl in He; lia). by rewrite app_nil_r. }
  apply Forall_cons_iff in Hos as [[Hc Hd] Hos]. simpl in Hc, Hd.
  assert (zlen (edns_rdata ((code, data) :: os)) = 4 + zlen data + zlen (edns_rdata os)) as Hl
    by (unfold edns_rdata; simpl; rewrite length_app; simpl; lia).
  rewrite Hl in He. replace (zlen pre + 4 <=? e) with true by lia.
  assert (msg = pre ++ be_bytes 2 code ++ be_bytes 2 (zlen data) ++ data ++ edns_rdata os ++ rest)
    as Hm2 by (rewrite Hmsg; unfold edns_rdata; simpl; by rewrite <- !app_assoc).
  rewrite (get16_mid msg pre code (be_bytes 2 (zlen data) ++ data ++ edns_rdata os ++ rest)
    (zlen pre)) by mid Hm2. xbind.
  rewrite (get16_mid msg (pre ++ be_bytes 2 code) (zlen data) (data ++ edns_rdata os ++ rest)
    (zlen pre + 2)) by mid Hm2. xbind.
  replace (e <? zlen pre + 4 + zlen data) with false by lia.
  assert (zlen msg = zlen pre + 4 + zlen data + zlen (edns_rdata os) + zlen rest) as Hml
    by (rewrite Hm2, !length_app, !be_bytes_length; lia).
  rewrite rd_n_ok by lia. xbind.
  set (p4 := (pre ++ be_bytes 2 code ++ be_bytes 2 (zlen data))).
  assert (zlen p4 = zlen pre + 4) as Hp4
    by (unfold p4; rewrite !length_app, !be_bytes_length; lia).
  rewrite <- Hp4.
  assert (slice msg (zlen p4) (zlen data) = data) as ->.
  { replace msg with (p4 ++ data ++ edns_rdata os ++ rest)
      by (rewrite Hm2; unfold p4; by rewrite <- !app_assoc). by apply slice_mid. }
  replace (zlen p4 + zlen data) with (zlen (p4 ++ data)) by (rewrite length_app; lia).
  rewrite (IH fuel (p4 ++ data) rest e w).
  - by rewrite <- app_assoc.
  - done.
  - done.
  - rewrite Hm2. unfold p4. by rewrite <- !app_assoc.
  - rewrite length_app. lia.
  - simpl in Hf. lia.
Qed.

(** An OPT record: the class is the payload size, the TTL splits into
    extended rcode, version and the DO bit, and every option comes back with
    its code, length and bytes, in order, without a warning. *)
Theorem edns_roundtrip pre os rest name udp ext ver z w :
  let msg := pre ++ edns_rdata os ++ rest in
  let h := {| rh_name := name; rh_name_malformed := false; rh_type := DNS_TYPE_OPT;
              rh_class := udp; rh_ttl := ext * 2 ^ 24 + ver * 2 ^ 16 + z;
              rh_rdata_off := zlen pre; rh_rdlength := zlen (edns_rdata os);
              rh_rdata_overrun := false |} in
  msg_ok msg -> edns_spec_ok os -> 0 <= ext < 256 -> 0 <= ver < 256 -> 0 <= z < 65536 ->
  build_edns msg h w =
    Ret ({| e_udp_payload_size := udp; e_extended_rcode := ext; e_version := ver;
            e_do_bit := 0x8000 <=? z; e_options := map edns_option_of os |}, w).
Proof.
  intros msg h Hm Hos Hext Hver Hz. unfold build_edns. cbn [h rh_rdata_off rh_rdlength rh_ttl rh_class].
  replace (zlen msg <? _) with false by (unfold msg; rewrite !length_app; lia).
  assert (length os <= length (edns_rdata os))%nat as Hlen.
  { clear. induction os as [|[c d] os IH]; [simpl; lia|].
    change (edns_rdata ((c, d) :: os)) with
      ((be_bytes 2 c ++ be_bytes 2 (zlen d) ++ d) ++ edns_rdata os).
    rewrite !length_app, !be_bytes_length. simpl length at 1. lia. }
  rewrite (edns_loop_wire _ msg os pre rest) by (done || lia). xbind. do 3 f_equal.
  - replace (ext * 2 ^ 24 + ver * 2 ^ 16 + z) with (ext * 2 ^ 24 + (ver * 2 ^ 16 + z)) by lia.
    rewrite shiftr_small by lia. change 0xff with (Z.ones 8). rewrite Z.land_ones by lia.
    by apply Z.mod_small.
  - replace (ext * 2 ^ 24 + ver * 2 ^ 16 + z) with ((ext * 2 ^ 8 + ver) * 2 ^ 16 + z) by lia.
    rewrite shiftr_small by lia. by apply (land_small ext ver 8).
  - unfold bit_set. change 0x8000 with (Z.shiftl 1 15) at 1. rewrite land_shiftl_mask by lia.
    replace (ext * 2 ^ 24 + ver * 2 ^ 16 + z)
      with ((ext * 2 ^ 9 + ver * 2) * 2 ^ 15 + z) by lia.
    rewrite Z.shiftr_div_pow2 by lia. rewrite Z.div_add_l by lia.
    change 1 with (Z.ones 1) at 1. rewrite Z.land_ones, Z.shiftl_mul_pow2 by lia.
    change (2 ^ 15) with 32768. change (2 ^ 1) with 2. lia.
Qed.

Lemma edns_roundtrip_witness :
  build_edns ([1] ++ edns_rdata [(10, [7; 7]); (12, [])] ++ [9])
    {| rh_name := []; rh_name_malformed := false; rh_type := DNS_TYPE_OPT; rh_class := 1232;
       rh_ttl := 1 * 2 ^ 24 + 0 * 2 ^ 16 + 0x8000; rh_rdata_off := 1; rh_rdlength := 10;
       rh_rdata_overrun := false |} cf_warn_list_init =
  Ret ({| e_udp_payload_size := 1232; e_extended_rcode := 1; e_version := 0; e_do_bit := true;
          e_options := [edns_option_of (10, [7; 7]); edns_option_of (12, [])] |},
       cf_warn_list_init).
Proof.
  apply (edns_roundtrip [1] [(10, [7; 7]); (12, [])] [9] [] 1232 1 0 0x8000 cf_warn_list_init);
    try (split; [lia|lia]).
  - split; [by apply bytes_okb|vm_compute; discriminate].
  - repeat (apply Forall_cons_2; [simpl; lia|]). constructor.
Defined.

(** ** Behaviours at the edges *)

(** The text of a name record is not confined to its RDATA: an NS record
    of zero data bytes takes its text from the bytes after it, without the
    [malformed] flag and without a warning. *)
Theorem name_text_outside_rdata :
  exists msg m r,
    cf_dns_parse no_ntop (Some msg) true cf_warn_list_init = Ret (Some m, cf_warn_list_init) /\
    In r (m_answers m) /\ rr_type r = DNS_TYPE_NS /\ rr_rdata_raw r = None /\
    rr_rdata_text r = bs "com" /\ rr_malformed r = false.
Proof.
  exists ([0; 1; 128; 0; 0; 0; 0; 2; 0; 0; 0; 0] ++
          [0; 0; 2; 0; 1; 0; 0; 0; 60; 0; 0] ++
          [3; 99; 111; 109; 0; 0; 1; 0; 1; 0; 0; 0; 60; 0; 4; 1; 2; 3; 4]).
  do 2 eexists. split; [vm_compute; reflexivity|]. split; [left; reflexivity|].
  repeat split; reflexivity.
Qed.

(** A record whose name cannot be advanced over (here a reserved label
    type) ends its section without any warning, although bytes and counted
    records remain. *)
Theorem silent_section_stop :
  exists msg m,
    cf_dns_parse no_ntop (Some msg) true cf_warn_list_init = Ret (Some m, cf_warn_list_init) /\
    h_ancount (m_header m) = 1 /\ m_answers m = [] /\ DNS_HEADER_LEN < zlen msg.
Proof.
  exists ([0; 1; 128; 0; 0; 0; 0; 1; 0; 0; 0; 0] ++ [64; 0; 0; 1; 0; 1; 0; 0; 0; 60; 0; 0]).
  eexists. split; [vm_compute; reflexivity|]. repeat split; reflexivity.
Qed.

(** The octet cap does not count the root octet: a name that occupies 256
    bytes on the wire is accepted. *)
Theorem name_of_256_octets :
  exists msg out, decode_name msg 0 true = Ret (1, out, 256).
Proof.
  exists (wire_name (replicate 3 (replicate 63 97) ++ [replicate 62 97])).
  eexists. vm_compute. reflexivity.
Qed.
