(* ===== verification/LegClassify.v ===== *)
(** * LegClassify: which leg a DNS packet belongs to
    ([sources/cloudflow-source-dns/src/leg_classify.c])

    The address set, the address-to-label role map and the decision function.
    A backing array is the list of its used entries ([count] is the length)
    next to its capacity; the outcome of each [realloc] and [strdup] is an
    argument.  An [ip] argument is the 16 bytes the caller passes.
    [inet_pton] is libc's parser of an address literal: a family and a string
    give the bytes it writes, or nothing. *)

From stdpp Require Import gmap.
From S2P Require Import Prelude.

Definition CF_DNS_SERVER_PORT : Z := 53.

Record cf_dns_addr_entry_t := { ae_ip_version : Z; ae_ip : list Z }.
Record cf_dns_addr_set := { as_entries : list cf_dns_addr_entry_t; as_cap : Z }.

Definition cf_dns_addr_width (ip_version : Z) : Z := if ip_version =? 4 then 4 else 16.

Definition cf_dns_addr_set_new : cf_dns_addr_set := {| as_entries := []; as_cap := 0 |}.

Definition cf_dns_addr_set_reserve (realloc_ok : bool) (set : cf_dns_addr_set)
    : bool * cf_dns_addr_set :=
  if zlen (as_entries set) <? as_cap set then (true, set)
  else
    let new_cap := if as_cap set =? 0 then 8 else u64 (as_cap set * 2) in
    if negb realloc_ok then (false, set)
    else (true, {| as_entries := as_entries set; as_cap := new_cap |}).

(** [memset(dst, 0, 16); memcpy(dst, ip, width)]. *)
Definition store_ip (ip_version : Z) (ip : list Z) : list Z :=
  splice (replicate 16 0) 0 (slice ip 0 (cf_dns_addr_width ip_version)).

Definition family_ok (ip_version : Z) : bool := (ip_version =? 4) || (ip_version =? 6).

Definition cf_dns_addr_set_add_ip (realloc_ok : bool) (set : cf_dns_addr_set)
    (ip_version : Z) (ip : list Z) : cf_dns_addr_set :=
  if negb (family_ok ip_version) then set
  else
    let '(ok, set) := cf_dns_addr_set_reserve realloc_ok set in
    if negb ok then set
    else {| as_entries := as_entries set ++
              [{| ae_ip_version := ip_version; ae_ip := store_ip ip_version ip |}];
            as_cap := as_cap set |}.

(** [memcmp(a, b, n) == 0]. *)
Definition memcmp_eq (a b : list Z) (n : Z) : bool := bool_decide (slice a 0 n = slice b 0 n).

Definition AF_INET : Z := 2.
Definition AF_INET6 : Z := 10.

Section Pton.
Context (inet_pton : Z -> list Z -> option (list Z)).

(** [buf] is what the 16 bytes of the stack buffer hold before the call. *)
Definition pton_buf (buf : list Z) (b : list Z) : list Z := splice buf 0 b.

Definition cf_dns_addr_set_add_str (realloc_ok : bool) (buf : list Z)
    (set : cf_dns_addr_set) (ip : option (list Z)) : Z * cf_dns_addr_set :=
  match ip with
  | None => (0, set)
  | Some ip =>
      match inet_pton AF_INET ip with
      | Some b => (1, cf_dns_addr_set_add_ip realloc_ok set 4 (pton_buf buf b))
      | None =>
          match inet_pton AF_INET6 ip with
          | Some b => (1, cf_dns_addr_set_add_ip realloc_ok set 6 (pton_buf buf b))
          | None => (0, set)
          end
      end
  end.
End Pton.

(** The scan of the entries, in order. *)
Definition cf_dns_addr_set_contains (set : option cf_dns_addr_set) (ip_version : Z)
    (ip : list Z) : bool :=
  match set with
  | None => false
  | Some set =>
      if negb (family_ok ip_version) then false
      else
        let width := cf_dns_addr_width ip_version in
        existsb (fun e => (ae_ip_version e =? ip_version) && memcmp_eq (ae_ip e) ip width)
          (as_entries set)
  end.

(** ** The role map *)

Record cf_dns_role_entry_t := { re_ip_version : Z; re_ip : list Z; re_label : list Z }.
Record cf_dns_role_map := { rm_entries : list cf_dns_role_entry_t; rm_cap : Z }.

Definition cf_dns_role_map_new : cf_dns_role_map := {| rm_entries := []; rm_cap := 0 |}.

Definition cf_dns_role_map_reserve (realloc_ok : bool) (map : cf_dns_role_map)
    : bool * cf_dns_role_map :=
  if zlen (rm_entries map) <? rm_cap map then (true, map)
  else
    let new_cap := if rm_cap map =? 0 then 8 else u64 (rm_cap map * 2) in
    if negb realloc_ok then (false, map)
    else (true, {| rm_entries := rm_entries map; rm_cap := new_cap |}).

(** [label] is a C string: [None] is NULL, [Some []] the empty string. *)
Definition cf_dns_role_map_add_ip (realloc_ok strdup_ok : bool) (map : cf_dns_role_map)
    (ip_version : Z) (ip : list Z) (label : option (list Z)) : cf_dns_role_map :=
  match label with
  | None | Some [] => map
  | Some label =>
      if negb (family_ok ip_version) then map
      else
        let '(ok, map) := cf_dns_role_map_reserve realloc_ok map in
        if negb ok then map
        else if negb strdup_ok then map
        else {| rm_entries := rm_entries map ++
                  [{| re_ip_version := ip_version; re_ip := store_ip ip_version ip;
                      re_label := label |}];
                rm_cap := rm_cap map |}
  end.

Definition cf_dns_role_map_add_str (inet_pton : Z -> list Z -> option (list Z))
    (realloc_ok strdup_ok : bool) (buf : list Z) (map : cf_dns_role_map)
    (ip label : option (list Z)) : Z * cf_dns_role_map :=
  match ip, label with
  | None, _ | _, None | _, Some [] => (0, map)
  | Some ip, Some _ =>
      let add v b :=
        let map' := cf_dns_role_map_add_ip realloc_ok strdup_ok map v (pton_buf buf b) label in
        (if zlen (rm_entries map) <? zlen (rm_entries map') then 1 else 0, map') in
      match inet_pton AF_INET ip with
      | Some b => add 4 b
      | None =>
          match inet_pton AF_INET6 ip with
          | Some b => add 6 b
          | None => (0, map)
          end
      end
  end.

(** The scan for the first matching entry. *)
Fixpoint role_scan (entries : list cf_dns_role_entry_t) (ip_version : Z) (ip : list Z)
    (width : Z) : option (list Z) :=
  match entries with
  | [] => None
  | e :: entries =>
      if (re_ip_version e =? ip_version) && memcmp_eq (re_ip e) ip width
      then Some (re_label e) else role_scan entries ip_version ip width
  end.

Definition cf_dns_role_lookup (map : option cf_dns_role_map) (ip_version : Z)
    (ip : list Z) : option (list Z) :=
  match map with
  | None => None
  | Some map =>
      if negb (family_ok ip_version) then None
      else role_scan (rm_entries map) ip_version ip (cf_dns_addr_width ip_version)
  end.

(** ** The decision *)

Inductive DnsLeg := DNS_LEG_CLIENT_FACING | DNS_LEG_BACKEND | DNS_LEG_RECURSION_UPSTREAM
  | DNS_LEG_UNKNOWN.

Inductive cf_dns_capture_dir_t := CF_DNS_DIR_UNKNOWN | CF_DNS_DIR_INGRESS | CF_DNS_DIR_EGRESS.

Record cf_dns_leg_config_t := {
  lc_local_addrs : option cf_dns_addr_set;
  lc_backend_addrs : option cf_dns_addr_set
}.

(** The role and [*local_is_server_out]. *)
Definition cf_dns_classify_leg (cfg : option cf_dns_leg_config_t) (ip_version : Z)
    (src_ip : list Z) (src_port : Z) (dst_ip : list Z) (dst_port : Z)
    (direction : cf_dns_capture_dir_t) : DnsLeg * Z :=
  let local := match cfg with Some c => lc_local_addrs c | None => None end in
  let backend := match cfg with Some c => lc_backend_addrs c | None => None end in
  let server_ip :=
    if (dst_port =? CF_DNS_SERVER_PORT) && negb (src_port =? CF_DNS_SERVER_PORT)
    then Some dst_ip
    else if (src_port =? CF_DNS_SERVER_PORT) && negb (dst_port =? CF_DNS_SERVER_PORT)
    then Some src_ip
    else None in
  match server_ip with
  | None => (DNS_LEG_UNKNOWN, 0)
  | Some server_ip =>
      if cf_dns_addr_set_contains local ip_version server_ip then (DNS_LEG_CLIENT_FACING, 1)
      else if cf_dns_addr_set_contains backend ip_version server_ip then (DNS_LEG_BACKEND, 0)
      else (DNS_LEG_RECURSION_UPSTREAM, 0)
  end.

(** ** The set as a finite set of addresses *)

(** The bytes of an address that its family makes significant. *)
Definition significant (ip_version : Z) (ip : list Z) : list Z :=
  slice ip 0 (cf_dns_addr_width ip_version).

Definition ip16 (ip : list Z) : Prop := length ip = 16%nat.

(** [set] holds exactly the addresses of [S]. *)
Definition holds (set : option cf_dns_addr_set) (S : gset (Z * list Z)) : Prop :=
  forall v ip, ip16 ip ->
    cf_dns_addr_set_contains set v ip = bool_decide ((v, significant v ip) ∈ S).

Lemma width_range v : 4 <= cf_dns_addr_width v <= 16.
Proof. unfold cf_dns_addr_width. case_match; lia. Qed.

Lemma store_ip_significant v ip : ip16 ip -> significant v (store_ip v ip) = significant v ip.
Proof.
  intros Hip. unfold significant, store_ip. pose proof (width_range v). unfold ip16 in Hip.
  apply slice_splice_same; [lia|lia|]. rewrite zlen_slice by lia. done.
Qed.

Lemma memcmp_stored v ip ip' : ip16 ip ->
  memcmp_eq (store_ip v ip) ip' (cf_dns_addr_width v) =
    bool_decide (significant v ip = significant v ip').
Proof.
  intros Hip. unfold memcmp_eq. fold (significant v (store_ip v ip)).
  by rewrite store_ip_significant.
Qed.

(** One insertion of a history: the allocation outcome and the arguments. *)
Definition add_all (hist : list (bool * Z * list Z)) (set : cf_dns_addr_set) : cf_dns_addr_set :=
  foldl (fun s '(ok, v, ip) => cf_dns_addr_set_add_ip ok s v ip) set hist.

(** The addresses a history asks for. *)
Definition asked (hist : list (bool * Z * list Z)) : gset (Z * list Z) :=
  list_to_set (map (fun '(_, v, ip) => (v, significant v ip))
    (filter (fun '(_, v, _) => family_ok v = true) hist)).

Definition cap_ok (n cap : Z) : Prop := n <= cap <= 8 + 2 * n.

Lemma reserve_cap ok set : zlen (as_entries set) < 2 ^ 62 ->
  cap_ok (zlen (as_entries set)) (as_cap set) ->
  let '(r, set') := cf_dns_addr_set_reserve ok set in
  as_entries set' = as_entries set /\ cap_ok (zlen (as_entries set)) (as_cap set') /\
  (r = true -> zlen (as_entries set) < as_cap set') /\ (ok = true -> r = true).
Proof.
  unfold cap_ok, cf_dns_addr_set_reserve. intros Hn Hc.
  destruct (_ <? _) eqn:E; [split_and!; [done|lia|lia|lia|done]|].
  destruct ok; cbn [negb]; [|split_and!; [done|lia|lia|done|done]]. simpl.
  destruct (_ =? 0) eqn:E0; [split_and!; try done; lia|].
  rewrite u64_id by lia. split_and!; try done; lia.
Qed.

Lemma add_ip_entries ok set v ip : zlen (as_entries set) < 2 ^ 62 ->
  cap_ok (zlen (as_entries set)) (as_cap set) ->
  let set' := cf_dns_addr_set_add_ip ok set v ip in
  cap_ok (zlen (as_entries set')) (as_cap set') /\
  (as_entries set' = as_entries set \/
   family_ok v = true /\
   as_entries set' = as_entries set ++ [{| ae_ip_version := v; ae_ip := store_ip v ip |}]) /\
  (ok = true -> family_ok v = true ->
   as_entries set' = as_entries set ++ [{| ae_ip_version := v; ae_ip := store_ip v ip |}]).
Proof.
  intros Hn Hc. unfold cf_dns_addr_set_add_ip.
  destruct (family_ok v) eqn:Hv; cbn [negb]; [|split_and!; [done|by left|done]].
  pose proof (reserve_cap ok set Hn Hc) as H.
  destruct (cf_dns_addr_set_reserve ok set) as [r set'] eqn:E.
  destruct H as (He & Hc' & Hr & Ho). destruct r; cbn [negb].
  - specialize (Hr eq_refl). simpl. rewrite He. split_and!; [|by right|done].
    unfold cap_ok in *. rewrite length_app. simpl. lia.
  - rewrite He. split_and!; [done|by left|]. intros Hok. discriminate (Ho Hok).
Qed.

Lemma contains_nil_holds set : as_entries set = [] -> holds (Some set) ∅.
Proof.
  intros He v ip Hip. unfold cf_dns_addr_set_contains. rewrite He. simpl.
  rewrite bool_decide_eq_false_2 by set_solver. by case_match.
Qed.

Lemma contains_snoc set es v ip S : ip16 ip -> family_ok v = true ->
  as_entries set = es ++ [{| ae_ip_version := v; ae_ip := store_ip v ip |}] ->
  holds (Some {| as_entries := es; as_cap := 0 |}) S ->
  holds (Some set) (S ∪ {[ (v, significant v ip) ]}).
Proof.
  intros Hip Hv He HS v' ip' Hip'. specialize (HS v' ip' Hip').
  unfold cf_dns_addr_set_contains in *. rewrite He. simpl in HS.
  destruct (family_ok v') eqn:Hv'; cbn [negb] in *.
  - rewrite existsb_app, HS. simpl. rewrite orb_false_r.
    destruct (Z.eqb_spec v v') as [<-|Hne]; cbn [andb].
    + rewrite memcmp_stored by done. rewrite <- bool_decide_or. apply bool_decide_ext.
      rewrite elem_of_union, elem_of_singleton. split; intros [|Hs]; try (by left); right;
        [by rewrite Hs|by simplify_eq].
    + rewrite orb_false_r. apply bool_decide_ext. rewrite elem_of_union, elem_of_singleton.
      split; [by left|]. intros [|Hs]; [done|]. by simplify_eq.
  - symmetry in HS. apply bool_decide_eq_false in HS. symmetry. apply bool_decide_eq_false.
    rewrite elem_of_union, elem_of_singleton. intros [|Hs]; [done|]. injection Hs as -> _. congruence.
Qed.

Lemma holds_entries set cap S : holds (Some {| as_entries := as_entries set; as_cap := cap |}) S ->
  holds (Some set) S.
Proof. done. Qed.

Lemma asked_cons ok v ip hist : asked ((ok, v, ip) :: hist) =
  if family_ok v then {[ (v, significant v ip) ]} ∪ asked hist else asked hist.
Proof.
  unfold asked. destruct (family_ok v) eqn:E.
  - by rewrite filter_cons_True by done.
  - rewrite filter_cons_False by (by rewrite E). done.
Qed.

Section Sandwich.
Context (S S1 S2 A B : gset (Z * list Z)).

(** Two steps that add part of [A] and of [B] add part of both. *)
Lemma sandwich_trans : S ⊆ S1 -> S1 ⊆ S ∪ A -> S1 ⊆ S2 -> S2 ⊆ S1 ∪ B ->
  S ⊆ S2 /\ S2 ⊆ S ∪ (A ∪ B).
Proof. set_solver. Qed.

Lemma union_step : S1 = S ∪ A -> S2 = S1 ∪ B -> S2 = S ∪ (A ∪ B).
Proof. intros -> ->. by rewrite (assoc_L (∪)). Qed.

Lemma sandwich_refl : S ⊆ S /\ S ⊆ S ∪ A.
Proof. set_solver. Qed.
End Sandwich.

Lemma asked_step h hist : asked (h :: hist) = asked [h] ∪ asked hist.
Proof.
  destruct h as [[ok v] ip]. rewrite !asked_cons. change (asked []) with (∅ : gset (Z * list Z)).
  case_match; [by rewrite (right_id_L ∅ (∪))|by rewrite (left_id_L ∅ (∪))].
Qed.

(** One insertion adds part of what it asks for, and all of it with memory. *)
Lemma add_ip_holds ok set v ip S : zlen (as_entries set) < 2 ^ 62 -> ip16 ip ->
  cap_ok (zlen (as_entries set)) (as_cap set) -> holds (Some set) S ->
  exists S1, holds (Some (cf_dns_addr_set_add_ip ok set v ip)) S1 /\
    S ⊆ S1 /\ S1 ⊆ S ∪ asked [(ok, v, ip)] /\ (ok = true -> S1 = S ∪ asked [(ok, v, ip)]).
Proof.
  intros Hn Hip Hc HS. destruct (add_ip_entries ok set v ip Hn Hc) as (_ & He & Ho).
  rewrite asked_cons. change (asked []) with (∅ : gset (Z * list Z)).
  destruct (family_ok v) eqn:Hv.
  - rewrite (right_id_L ∅ (∪)). destruct He as [He|[_ He]].
    + exists S. split; [|split; [done|split; [by apply (sandwich_refl S {[ (v, significant v ip) ]})|]]].
      * intros v' ip' Hip'. rewrite <- (HS v' ip' Hip'). unfold cf_dns_addr_set_contains.
        by rewrite He.
      * intros ->. specialize (Ho eq_refl eq_refl). rewrite He in Ho.
        apply (f_equal length) in Ho. rewrite length_app in Ho. simpl in Ho. lia.
    + exists (S ∪ {[ (v, significant v ip) ]}).
      split; [by apply (contains_snoc _ (as_entries set))|].
      split; [apply union_subseteq_l|done].
  - exists S. rewrite (right_id_L ∅ (∪)). unfold cf_dns_addr_set_add_ip. rewrite Hv. done.
Qed.

Lemma add_all_inv hist : forall set S, Forall (fun h => ip16 h.2) hist ->
  zlen (as_entries set) + zlen hist < 2 ^ 62 ->
  cap_ok (zlen (as_entries set)) (as_cap set) -> holds (Some set) S ->
  let set' := add_all hist set in
  cap_ok (zlen (as_entries set')) (as_cap set') /\
  exists S', holds (Some set') S' /\ S ⊆ S' /\ S' ⊆ S ∪ asked hist /\
    (Forall (fun h => h.1.1 = true) hist -> S' = S ∪ asked hist).
Proof.
  induction hist as [|[[ok v] ip] hist IH]; intros set S Hips Hn Hc HS.
  { split; [done|]. exists S. change (asked []) with (∅ : gset (Z * list Z)).
    by rewrite (right_id_L ∅ (∪)). }
  apply Forall_cons_iff in Hips as [Hip Hips]. cbn [snd length] in *.
  destruct (add_ip_entries ok set v ip) as (Hc1 & He & _); [lia|done|].
  destruct (add_ip_holds ok set v ip S) as (S1 & HS1 & Ha & Hb & Heq); [lia|done|done|done|].
  destruct (IH (cf_dns_addr_set_add_ip ok set v ip) S1 Hips) as (Hc2 & S2 & HS2 & Ha2 & Hb2 & Heq2);
    [|done|done|].
  { destruct He as [->|[_ ->]]; [|rewrite length_app; simpl]; lia. }
  split; [exact Hc2|]. exists S2. split; [exact HS2|]. rewrite asked_step.
  destruct (sandwich_trans S S1 S2 _ _ Ha Hb Ha2 Hb2) as [Hx Hy].
  split; [exact Hx|split; [exact Hy|]]. intros [Hk Hks]%Forall_cons_iff.
  by apply (union_step _ S1); [apply Heq|apply Heq2].
Qed.

(** The address set is a set of addresses: after any history of
    insertions its answers are those of one finite set, which holds only
    addresses asked for, and all of them when every allocation succeeds.  The
    family and the 4 or 16 bytes it makes significant are all that counts, and
    the used entries never pass the allocated capacity. *)
Theorem addr_set_refines hist :
  Forall (fun h => ip16 h.2) hist -> zlen hist < 2 ^ 62 ->
  let set := add_all hist cf_dns_addr_set_new in
  zlen (as_entries set) <= as_cap set /\
  exists S, holds (Some set) S /\ S ⊆ asked hist /\
    (Forall (fun h => h.1.1 = true) hist -> S = asked hist).
Proof.
  intros Hips Hn set.
  destruct (add_all_inv hist cf_dns_addr_set_new ∅ Hips) as ([Hc _] & S & HS & _ & Hsub & Heq).
  - simpl. lia.
  - done.
  - by apply contains_nil_holds.
  - split; [exact Hc|]. exists S. split; [exact HS|].
    rewrite (left_id_L ∅ (∪)) in Hsub, Heq. done.
Qed.

Definition v4 (a b c d : Z) : list Z := [a; b; c; d] ++ replicate 12 0.

Lemma addr_set_refines_witness :
  let hist := [(true, 4, v4 192 0 2 1); (true, 6, v4 32 1 13 184); (true, 5, v4 1 1 1 1)] in
  exists S, holds (Some (add_all hist cf_dns_addr_set_new)) S /\ S = asked hist.
Proof.
  intros hist.
  destruct (addr_set_refines hist) as (_ & S & HS & _ & Heq);
    [repeat (apply Forall_cons_2; [reflexivity|]); constructor|reflexivity|].
  exists S. split; [exact HS|]. apply Heq.
  repeat (apply Forall_cons_2; [reflexivity|]). constructor.
Defined.

(** [cf_dns_addr_set_add_str] answers 1 for every well-formed literal,
    also when the allocation failed and nothing was added, although the header
    promises 0 then; the role map's twin does report it. *)
Theorem addr_add_str_hides_oom inet_pton buf set ip b :
  inet_pton AF_INET ip = Some b -> as_cap set <= zlen (as_entries set) ->
  cf_dns_addr_set_add_str inet_pton false buf set (Some ip) = (1, set) /\
  forall strdup_ok map label, rm_cap map <= zlen (rm_entries map) ->
    cf_dns_role_map_add_str inet_pton false strdup_ok buf map (Some ip) label = (0, map).
Proof.
  intros Hp Hc. split.
  - unfold cf_dns_addr_set_add_str. rewrite Hp. unfold cf_dns_addr_set_add_ip. simpl.
    unfold cf_dns_addr_set_reserve. by replace (_ <? _) with false by lia.
  - intros strdup_ok map label Hm. unfold cf_dns_role_map_add_str.
    destruct label as [[|c l]|]; [done| |done]. rewrite Hp.
    unfold cf_dns_role_map_add_ip. simpl. unfold cf_dns_role_map_reserve.
    replace (zlen (rm_entries map) <? rm_cap map) with false by lia. simpl.
    by rewrite Z.ltb_irrefl.
Qed.

Definition pton_of_v4 (family : Z) (ip : list Z) : option (list Z) :=
  if family =? AF_INET then Some [192; 0; 2; 1] else None.

Lemma addr_add_str_hides_oom_witness :
  cf_dns_addr_set_add_str pton_of_v4 false (replicate 16 0) cf_dns_addr_set_new
    (Some (bs "192.0.2.1")) = (1, cf_dns_addr_set_new).
Proof.
  destruct (addr_add_str_hides_oom pton_of_v4 (replicate 16 0) cf_dns_addr_set_new
    (bs "192.0.2.1") [192; 0; 2; 1]) as [H _]; [reflexivity|discriminate|exact H].
Defined.

(** ** The role map as an ordered table *)

Record role_req := { q_version : Z; q_ip : list Z; q_label : option (list Z) }.

(** The label of the first usable request for the address. *)
Fixpoint first_label (reqs : list role_req) (v : Z) (ip : list Z) : option (list Z) :=
  match reqs with
  | [] => None
  | r :: reqs =>
      match q_label r with
      | Some (c :: l) =>
          if (q_version r =? v) && family_ok v &&
             bool_decide (significant v (q_ip r) = significant v ip)
          then Some (c :: l) else first_label reqs v ip
      | _ => first_label reqs v ip
      end
  end.

Definition role_add_all (reqs : list (bool * bool * role_req)) (m : cf_dns_role_map)
    : cf_dns_role_map :=
  foldl (fun m '(realloc_ok, strdup_ok, r) =>
    cf_dns_role_map_add_ip realloc_ok strdup_ok m (q_version r) (q_ip r) (q_label r)) m reqs.

(** [m] answers as the requests [reqs]. *)
Definition answers (m : cf_dns_role_map) (reqs : list role_req) : Prop :=
  forall v ip, cf_dns_role_lookup (Some m) v ip = first_label reqs v ip.

Lemma role_scan_app es es' v ip w :
  role_scan (es ++ es') v ip w =
    match role_scan es v ip w with Some l => Some l | None => role_scan es' v ip w end.
Proof. induction es as [|e es IH]; simpl; [done|]. by destruct (_ && _). Qed.

Lemma first_label_app rs rs' v ip :
  first_label (rs ++ rs') v ip =
    match first_label rs v ip with Some l => Some l | None => first_label rs' v ip end.
Proof.
  induction rs as [|r rs IH]; simpl; [done|].
  destruct (q_label r) as [[|c l]|]; [done| |done]. by destruct (_ && _).
Qed.

Lemma first_label_family rs v ip : family_ok v = false -> first_label rs v ip = None.
Proof.
  intros Hv. induction rs as [|r rs IH]; simpl; [done|].
  destruct (q_label r) as [[|c l]|]; [done| |done]. by rewrite Hv, andb_false_r.
Qed.

Definition usable (r : role_req) : bool :=
  match q_label r with Some (_ :: _) => family_ok (q_version r) | _ => false end.

Lemma first_label_unusable r v ip : usable r = false -> first_label [r] v ip = None.
Proof.
  unfold usable. simpl. destruct (q_label r) as [[|c l]|]; [done| |done]. intros Hv.
  destruct (Z.eqb_spec (q_version r) v) as [<-|]; [by rewrite Hv|done].
Qed.

(** One insertion appends its request or, short of memory, changes nothing. *)
Lemma role_add_entries realloc_ok strdup_ok m r :
  let m' := cf_dns_role_map_add_ip realloc_ok strdup_ok m (q_version r) (q_ip r) (q_label r) in
  if usable r then
    (exists c l, q_label r = Some (c :: l) /\ rm_entries m' = rm_entries m ++
      [{| re_ip_version := q_version r; re_ip := store_ip (q_version r) (q_ip r);
          re_label := c :: l |}]) \/
    (realloc_ok && strdup_ok = false /\ rm_entries m' = rm_entries m)
  else rm_entries m' = rm_entries m.
Proof.
  unfold usable, cf_dns_role_map_add_ip. destruct (q_label r) as [[|c l]|]; [done| |done].
  destruct (family_ok (q_version r)); [|done]. cbn [negb]. unfold cf_dns_role_map_reserve.
  destruct (_ <? _); [|destruct realloc_ok]; (destruct strdup_ok; simpl;
    solve [left; by exists c, l|right; by rewrite ?andb_false_r]).
Qed.

Lemma role_add_answers realloc_ok strdup_ok m r reqs : ip16 (q_ip r) -> answers m reqs ->
  let m' := cf_dns_role_map_add_ip realloc_ok strdup_ok m (q_version r) (q_ip r) (q_label r) in
  answers m' (reqs ++ [r]) \/ (realloc_ok && strdup_ok = false /\ answers m' reqs).
Proof.
  intros Hip Hm m'. pose proof (role_add_entries realloc_ok strdup_ok m r) as H.
  fold m' in H. cbv zeta in H.
  assert (rm_entries m' = rm_entries m -> answers m' reqs) as Hsame
    by (intros He v ip; rewrite <- Hm; unfold cf_dns_role_lookup; by rewrite He).
  destruct (usable r) eqn:Hu; [destruct H as [(c & l & Hl & He)|[Ho He]]|].
  - left. intros v ip. rewrite first_label_app, <- Hm. unfold cf_dns_role_lookup.
    destruct (family_ok v) eqn:Hv; cbn [negb]; [|symmetry; by apply first_label_family].
    rewrite He, role_scan_app. destruct (role_scan (rm_entries m) _ _ _); [done|].
    simpl. rewrite Hl, Hv, andb_true_r.
    destruct (Z.eqb_spec (q_version r) v) as [<-|]; cbn [andb]; [|done].
    by rewrite memcmp_stored.
  - right. auto.
  - left. intros v ip. rewrite first_label_app, (Hsame H v ip), first_label_unusable by done.
    by case_match.
Qed.

(** The role map is an ordered table: whatever the allocations do, a
    lookup returns the label of the first matching request among those that
    were stored, a subsequence of the requests and all of them when every
    allocation succeeds.  A later request never replaces an earlier label. *)
Theorem role_lookup_first_match reqs :
  Forall (fun r => ip16 (q_ip r.2)) reqs ->
  exists stored, answers (role_add_all reqs cf_dns_role_map_new) stored /\
    sublist stored (map snd reqs) /\
    (Forall (fun r => r.1.1 && r.1.2 = true) reqs -> stored = map snd reqs).
Proof.
  intros Hips. unfold role_add_all.
  cut (forall m pre, answers m pre -> exists stored,
    answers (role_add_all reqs m) (pre ++ stored) /\ sublist stored (map snd reqs) /\
    (Forall (fun r => r.1.1 && r.1.2 = true) reqs -> stored = map snd reqs)).
  { intros H. destruct (H cf_dns_role_map_new []) as (stored & Ha & Hs); [|by exists stored].
    intros v ip. unfold cf_dns_role_lookup. simpl. by case_match. }
  induction Hips as [|[[a b] r] reqs Hip Hips IH]; intros m pre Hm.
  { exists []. rewrite app_nil_r. by repeat split. }
  simpl in Hip. destruct (role_add_answers a b m r pre Hip Hm) as [Hm1|[Hab Hm1]].
  - destruct (IH _ _ Hm1) as (stored & Ha & Hs & Hall). exists (r :: stored).
    split_and!; [by rewrite <- app_assoc in Ha|simpl; by apply sublist_skip|].
    intros [_ H]%Forall_cons_iff. simpl. by rewrite Hall.
  - destruct (IH _ _ Hm1) as (stored & Ha & Hs & _). exists stored.
    split_and!; [done|simpl; by apply sublist_cons|].
    intros [H _]%Forall_cons_iff. simpl in H. congruence.
Qed.

Lemma role_lookup_first_match_witness :
  let reqs := [(true, true, {| q_version := 4; q_ip := v4 192 0 2 1; q_label := Some (bs "dnsdist") |});
               (true, true, {| q_version := 4; q_ip := v4 192 0 2 1; q_label := Some (bs "pdns") |})] in
  exists stored, answers (role_add_all reqs cf_dns_role_map_new) stored /\ stored = map snd reqs /\
    first_label stored 4 (v4 192 0 2 1) = Some (bs "dnsdist").
Proof.
  intros reqs. destruct (role_lookup_first_match reqs) as (stored & Ha & _ & Hall);
    [repeat (apply Forall_cons_2; [reflexivity|]); constructor|].
  rewrite Hall in * by (repeat (apply Forall_cons_2; [reflexivity|]); constructor).
  exists (map snd reqs). split; [exact Ha|]. split; reflexivity.
Defined.

(** ** The decision *)

(** What the address sets say of the server endpoint. *)
Definition leg_of_server (L B : gset (Z * list Z)) (addr : Z * list Z) : DnsLeg * Z :=
  if decide (addr ∈ L) then (DNS_LEG_CLIENT_FACING, 1)
  else if decide (addr ∈ B) then (DNS_LEG_BACKEND, 0)
  else (DNS_LEG_RECURSION_UPSTREAM, 0).

(** Both halves of a transaction get one classification: a query to port
    53 and its response from port 53 are given the same leg and the same
    [local_is_server], which depend only on the server's address (local first,
    then backend, else upstream) and never on the capture direction; when
    neither or both ports are 53 the leg is unknown, in either order. *)
Theorem classify_leg_transaction local backend L B v client cport server sport dir dir' :
  holds local L -> holds backend B -> ip16 client -> ip16 server ->
  let cfg := Some {| lc_local_addrs := local; lc_backend_addrs := backend |} in
  let query := cf_dns_classify_leg cfg v client cport server sport dir in
  let response := cf_dns_classify_leg cfg v server sport client cport dir' in
  query = response /\
  (sport = 53 -> cport <> 53 -> query = leg_of_server L B (v, significant v server)) /\
  ((sport = 53 <-> cport = 53) -> query = (DNS_LEG_UNKNOWN, 0)).
Proof.
  intros HL HB Hc Hs cfg query response.
  unfold query, response, cf_dns_classify_leg, CF_DNS_SERVER_PORT. simpl.
  destruct (Z.eqb_spec sport 53), (Z.eqb_spec cport 53); simpl; split_and!; try done; try tauto.
  intros _ _. rewrite (HL v server Hs), (HB v server Hs). unfold leg_of_server.
  destruct (decide (_ ∈ L)) as [Hl|Hl]; [by rewrite (bool_decide_eq_true_2 _ Hl)|].
  rewrite (bool_decide_eq_false_2 _ Hl).
  destruct (decide (_ ∈ B)) as [Hb|Hb]; [by rewrite (bool_decide_eq_true_2 _ Hb)|].
  by rewrite (bool_decide_eq_false_2 _ Hb).
Qed.

Lemma classify_leg_transaction_witness :
  let local := Some (add_all [(true, 4, v4 192 0 2 53)] cf_dns_addr_set_new) in
  let cfg := Some {| lc_local_addrs := local; lc_backend_addrs := None |} in
  cf_dns_classify_leg cfg 4 (v4 198 51 100 7) 40000 (v4 192 0 2 53) 53 CF_DNS_DIR_INGRESS =
  cf_dns_classify_leg cfg 4 (v4 192 0 2 53) 53 (v4 198 51 100 7) 40000 CF_DNS_DIR_UNKNOWN.
Proof.
  intros local cfg.
  assert (holds local (asked [(true, 4, v4 192 0 2 53)])) as HL.
  { destruct (add_ip_holds true cf_dns_addr_set_new 4 (v4 192 0 2 53) ∅) as (S1 & H & _ & _ & Heq);
      [done|done|done|by apply contains_nil_holds|].
    rewrite Heq in H by done. by rewrite (left_id_L ∅ (∪)) in H. }
  assert (holds None ∅) as HB by (intros v ip _; symmetry; by apply bool_decide_eq_false_2).
  destruct (classify_leg_transaction local None _ ∅ 4 (v4 198 51 100 7) 40000 (v4 192 0 2 53) 53
    CF_DNS_DIR_INGRESS CF_DNS_DIR_UNKNOWN HL HB) as [H _]; [reflexivity|reflexivity|exact H].
Defined.
