(* ===== verification/Correlation.v ===== *)
(** * Correlation: the pending-query table
    ([sources/cloudflow-source-dns/src/correlation.c])

    The pool of entries with its three intrusive lists (bucket chains, the
    time-ordered FIFO, the free list), all through [int32] indices, as the code
    has it.  Contexts are opaque pointers.  The [emit] callback is the list of
    its calls, in order, each with the statistics a call may read
    meanwhile ([calls], the object behind [user]).  An
    index outside an array is [Oob], as is a signed subtraction that leaves
    [int64_t]; a loop that uses up its fuel is [Spin]. *)

From S2P Require Import Prelude.

Definition CF_DNS_NIL : Z := -1.
Definition CF_DNS_AMORTIZED_EVICT_MAX : Z := 8.

Record cf_dns_txn_key_t := {
  k_transport : Z; k_local_is_server : Z; k_ip_version : Z;
  k_client_ip : list Z; k_server_ip : list Z;
  k_client_port : Z; k_server_port : Z; k_dns_id : Z; k_qtype : Z; k_qclass : Z;
  k_qname_canonical : list Z; k_qname_len : Z
}.

Inductive cf_dns_txn_outcome_t := CF_DNS_TXN_OBSERVED | CF_DNS_TXN_UNANSWERED | CF_DNS_TXN_UNMATCHED.

(** One call of [emit]; [None] is a NULL context. *)
Record emission := {
  m_outcome : cf_dns_txn_outcome_t; m_query : option Z; m_response : option Z;
  m_rtt_nanos : Z; m_rtt_valid : Z; m_key : cf_dns_txn_key_t
}.

Definition CF_DNS_ON_FULL_DROP_NEWEST : Z := 0.
Definition CF_DNS_ON_FULL_DROP_OLDEST : Z := 1.

Record cf_dns_correlator_config_t := {
  cc_capacity : Z; cc_query_timeout_nanos : Z; cc_on_table_full : Z
}.

Record cf_dns_correlator_stats_t := {
  transactions_observed : Z; query_unanswered : Z; response_unmatched : Z;
  pending_evicted_collision : Z; pending_drop : Z; rtt_invalid : Z; pending_depth : Z
}.

Record cf_dns_entry_t := {
  e_key : cf_dns_txn_key_t; e_observed_time : Z; e_query_ctx : Z;
  e_hnext : Z; e_fifo_prev : Z; e_fifo_next : Z
}.

Record cf_dns_correlator := {
  entries : list cf_dns_entry_t; buckets : list Z;
  capacity : Z; nbuckets : Z; bucket_mask : Z;
  free_head : Z; fifo_head : Z; fifo_tail : Z; count : Z;
  query_timeout_nanos : Z; on_table_full : Z;
  calls : list (emission * cf_dns_correlator_stats_t); stats : cf_dns_correlator_stats_t
}.

(** What [cf_dns_correlator_stats] copies out. *)
Definition stats_now (c : cf_dns_correlator) : cf_dns_correlator_stats_t :=
  let s := stats c in
  {| transactions_observed := transactions_observed s;
     query_unanswered := query_unanswered s; response_unmatched := response_unmatched s;
     pending_evicted_collision := pending_evicted_collision s;
     pending_drop := pending_drop s; rtt_invalid := rtt_invalid s;
     pending_depth := count c |}.

Definition emitted (c : cf_dns_correlator) : list emission := map fst (calls c).

(** ** Field updates *)

Definition set_entries (f : list cf_dns_entry_t -> list cf_dns_entry_t)
    (c : cf_dns_correlator) : cf_dns_correlator :=
  {| entries := f (entries c); buckets := buckets c; capacity := capacity c;
     nbuckets := nbuckets c; bucket_mask := bucket_mask c; free_head := free_head c;
     fifo_head := fifo_head c; fifo_tail := fifo_tail c; count := count c;
     query_timeout_nanos := query_timeout_nanos c; on_table_full := on_table_full c;
     calls := calls c; stats := stats c |}.

Definition set_buckets (bs : list Z) (c : cf_dns_correlator) : cf_dns_correlator :=
  {| entries := entries c; buckets := bs; capacity := capacity c;
     nbuckets := nbuckets c; bucket_mask := bucket_mask c; free_head := free_head c;
     fifo_head := fifo_head c; fifo_tail := fifo_tail c; count := count c;
     query_timeout_nanos := query_timeout_nanos c; on_table_full := on_table_full c;
     calls := calls c; stats := stats c |}.

(** [free_head], [fifo_head], [fifo_tail], [count]. *)
Definition set_heads (fr hd tl n : Z) (c : cf_dns_correlator) : cf_dns_correlator :=
  {| entries := entries c; buckets := buckets c; capacity := capacity c;
     nbuckets := nbuckets c; bucket_mask := bucket_mask c; free_head := fr;
     fifo_head := hd; fifo_tail := tl; count := n;
     query_timeout_nanos := query_timeout_nanos c; on_table_full := on_table_full c;
     calls := calls c; stats := stats c |}.

(** A counter update followed by a call of [emit], which may read the
    statistics. *)
Definition emit (f : cf_dns_correlator_stats_t -> cf_dns_correlator_stats_t) (m : emission)
    (c : cf_dns_correlator) : cf_dns_correlator :=
  let c' := {| entries := entries c; buckets := buckets c; capacity := capacity c;
     nbuckets := nbuckets c; bucket_mask := bucket_mask c; free_head := free_head c;
     fifo_head := fifo_head c; fifo_tail := fifo_tail c; count := count c;
     query_timeout_nanos := query_timeout_nanos c; on_table_full := on_table_full c;
     calls := calls c; stats := f (stats c) |} in
  {| entries := entries c; buckets := buckets c; capacity := capacity c;
     nbuckets := nbuckets c; bucket_mask := bucket_mask c; free_head := free_head c;
     fifo_head := fifo_head c; fifo_tail := fifo_tail c; count := count c;
     query_timeout_nanos := query_timeout_nanos c; on_table_full := on_table_full c;
     calls := calls c ++ [(m, stats_now c')]; stats := f (stats c) |}.

Definition with_key (k : cf_dns_txn_key_t) (t ctx : Z) (e : cf_dns_entry_t) : cf_dns_entry_t :=
  {| e_key := k; e_observed_time := t; e_query_ctx := ctx; e_hnext := e_hnext e;
     e_fifo_prev := e_fifo_prev e; e_fifo_next := e_fifo_next e |}.
Definition with_hnext (n : Z) (e : cf_dns_entry_t) : cf_dns_entry_t :=
  {| e_key := e_key e; e_observed_time := e_observed_time e; e_query_ctx := e_query_ctx e;
     e_hnext := n; e_fifo_prev := e_fifo_prev e; e_fifo_next := e_fifo_next e |}.
Definition with_prev (p : Z) (e : cf_dns_entry_t) : cf_dns_entry_t :=
  {| e_key := e_key e; e_observed_time := e_observed_time e; e_query_ctx := e_query_ctx e;
     e_hnext := e_hnext e; e_fifo_prev := p; e_fifo_next := e_fifo_next e |}.
Definition with_next (n : Z) (e : cf_dns_entry_t) : cf_dns_entry_t :=
  {| e_key := e_key e; e_observed_time := e_observed_time e; e_query_ctx := e_query_ctx e;
     e_hnext := e_hnext e; e_fifo_prev := e_fifo_prev e; e_fifo_next := n |}.

(** The counters, each a [uint64_t]. *)
Definition add_stats (obs una unm col drp inv : Z) (s : cf_dns_correlator_stats_t)
    : cf_dns_correlator_stats_t :=
  {| transactions_observed := u64 (transactions_observed s + obs);
     query_unanswered := u64 (query_unanswered s + una);
     response_unmatched := u64 (response_unmatched s + unm);
     pending_evicted_collision := u64 (pending_evicted_collision s + col);
     pending_drop := u64 (pending_drop s + drp);
     rtt_invalid := u64 (rtt_invalid s + inv);
     pending_depth := pending_depth s |}.

(** ** Array accesses *)

Definition ent (c : cf_dns_correlator) (idx : Z) : exec cf_dns_entry_t :=
  if 0 <=? idx then
    match entries c !! Z.to_nat idx with Some e => Ret e | None => Oob end
  else Oob.

Definition upd (c : cf_dns_correlator) (idx : Z) (f : cf_dns_entry_t -> cf_dns_entry_t)
    : exec cf_dns_correlator :=
  _ ← ent c idx; Ret (set_entries (alter f (Z.to_nat idx)) c).

Definition bkt (c : cf_dns_correlator) (b : Z) : exec Z := rd (buckets c) b.
Definition bkt_set (c : cf_dns_correlator) (b v : Z) : exec cf_dns_correlator :=
  bs ← wr_n (buckets c) b [v]; Ret (set_buckets bs c).

(** [a - b] on [int64_t]; overflow is undefined. *)
Definition sub64 (a b : Z) : exec Z :=
  if (- 2 ^ 63 <=? a - b) && (a - b <? 2 ^ 63) then Ret (a - b) else Oob.

(** ** Keys *)

Definition key_qname_len (k : cf_dns_txn_key_t) : Z :=
  if 256 <? k_qname_len k then 256 else k_qname_len k.

Definition fnv_byte (h b : Z) : Z := u64 (Z.lxor h (u8 b) * 1099511628211).

(** The bytes hashed, in order. *)
Definition key_bytes (k : cf_dns_txn_key_t) : list Z :=
  let qn := key_qname_len k in
  [k_transport k; k_local_is_server k; k_ip_version k] ++
  slice (k_client_ip k) 0 16 ++ slice (k_server_ip k) 0 16 ++
  [Z.land (k_client_port k) 0xff; Z.shiftr (k_client_port k) 8;
   Z.land (k_server_port k) 0xff; Z.shiftr (k_server_port k) 8;
   Z.land (k_dns_id k) 0xff; Z.shiftr (k_dns_id k) 8;
   Z.land (k_qtype k) 0xff; Z.shiftr (k_qtype k) 8;
   Z.land (k_qclass k) 0xff; Z.shiftr (k_qclass k) 8] ++
  slice (k_qname_canonical k) 0 qn ++
  [Z.land qn 0xff; Z.land (Z.shiftr qn 8) 0xff].

Definition key_hash (k : cf_dns_txn_key_t) : Z :=
  foldl fnv_byte 1469598103934665603 (key_bytes k).

Definition key_equal (a b : cf_dns_txn_key_t) : bool :=
  let qa := key_qname_len a in
  let qb := key_qname_len b in
  if negb (k_transport a =? k_transport b) || negb (k_local_is_server a =? k_local_is_server b) ||
     negb (k_ip_version a =? k_ip_version b) || negb (k_client_port a =? k_client_port b) ||
     negb (k_server_port a =? k_server_port b) || negb (k_dns_id a =? k_dns_id b) ||
     negb (k_qtype a =? k_qtype b) || negb (k_qclass a =? k_qclass b) || negb (qa =? qb)
  then false
  else if negb (bool_decide (slice (k_client_ip a) 0 16 = slice (k_client_ip b) 0 16)) then false
  else if negb (bool_decide (slice (k_server_ip a) 0 16 = slice (k_server_ip b) 0 16)) then false
  else if negb (bool_decide
    (slice (k_qname_canonical a) 0 qa = slice (k_qname_canonical b) 0 qa)) then false
  else true.

(** ** List plumbing *)

Definition bucket_of (c : cf_dns_correlator) (h : Z) : Z := u32 (Z.land h (bucket_mask c)).

Definition fifo_append (c : cf_dns_correlator) (idx : Z) : exec cf_dns_correlator :=
  c ← upd c idx (fun e => with_prev (fifo_tail c) (with_next CF_DNS_NIL e));
  c ← (if negb (fifo_tail c =? CF_DNS_NIL) then upd c (fifo_tail c) (with_next idx)
       else Ret (set_heads (free_head c) idx (fifo_tail c) (count c) c));
  Ret (set_heads (free_head c) (fifo_head c) idx (count c) c).

Definition fifo_unlink (c : cf_dns_correlator) (idx : Z) : exec cf_dns_correlator :=
  e ← ent c idx;
  c ← (if negb (e_fifo_prev e =? CF_DNS_NIL) then upd c (e_fifo_prev e) (with_next (e_fifo_next e))
       else Ret (set_heads (free_head c) (e_fifo_next e) (fifo_tail c) (count c) c));
  e ← ent c idx;
  if negb (e_fifo_next e =? CF_DNS_NIL) then upd c (e_fifo_next e) (with_prev (e_fifo_prev e))
  else Ret (set_heads (free_head c) (fifo_head c) (e_fifo_prev e) (count c) c).

(** The walk of a bucket chain up to [idx]: the last [prev] and [cur]. *)
Fixpoint chain_walk (fuel : nat) (c : cf_dns_correlator) (idx prev cur : Z) : exec (Z * Z) :=
  match fuel with
  | O => Spin
  | S fuel =>
      if negb (cur =? CF_DNS_NIL) && negb (cur =? idx) then
        e ← ent c cur;
        chain_walk fuel c idx cur (e_hnext e)
      else Ret (prev, cur)
  end.

(** Fuel of a walk: every entry once, and the end. *)
Definition walk_fuel (c : cf_dns_correlator) : nat := S (length (entries c)).

Definition entry_release (c : cf_dns_correlator) (idx : Z) : exec cf_dns_correlator :=
  e ← ent c idx;
  let b := bucket_of c (key_hash (e_key e)) in
  cur ← bkt c b;
  '(prev, cur) ← chain_walk (walk_fuel c) c idx CF_DNS_NIL cur;
  c ← (if cur =? idx then
         e ← ent c idx;
         if prev =? CF_DNS_NIL then bkt_set c b (e_hnext e)
         else upd c prev (with_hnext (e_hnext e))
       else Ret c);
  c ← fifo_unlink c idx;
  c ← upd c idx (with_hnext (free_head c));
  Ret (set_heads idx (fifo_head c) (fifo_tail c) (u64 (count c - 1)) c).

Fixpoint find_loop (fuel : nat) (c : cf_dns_correlator) (key : cf_dns_txn_key_t) (idx : Z)
    : exec Z :=
  match fuel with
  | O => Spin
  | S fuel =>
      if negb (idx =? CF_DNS_NIL) then
        e ← ent c idx;
        if key_equal (e_key e) key then Ret idx
        else find_loop fuel c key (e_hnext e)
      else Ret CF_DNS_NIL
  end.

Definition entry_find (c : cf_dns_correlator) (key : cf_dns_txn_key_t) (h : Z) : exec Z :=
  idx ← bkt c (bucket_of c h);
  find_loop (walk_fuel c) c key idx.

Definition unanswered (ctx : Z) (key : cf_dns_txn_key_t) : emission :=
  {| m_outcome := CF_DNS_TXN_UNANSWERED; m_query := Some ctx; m_response := None;
     m_rtt_nanos := 0; m_rtt_valid := 0; m_key := key |}.

(** [counter] is the counter to bump. *)
Definition evict_as_unanswered (c : cf_dns_correlator) (idx : Z)
    (counter : cf_dns_correlator_stats_t -> cf_dns_correlator_stats_t) : exec cf_dns_correlator :=
  e ← ent c idx;
  c ← entry_release c idx;
  Ret (emit counter (unanswered (e_query_ctx e) (e_key e)) c).

Definition inc_unanswered := add_stats 0 1 0 0 0 0.
Definition inc_drop := add_stats 0 0 0 0 1 0.

Fixpoint evict_loop (fuel : nat) (c : cf_dns_correlator) (now budget n : Z)
    : exec (Z * cf_dns_correlator) :=
  match fuel with
  | O => Spin
  | S fuel =>
      if (n <? budget) && negb (fifo_head c =? CF_DNS_NIL) then
        let idx := fifo_head c in
        e ← ent c idx;
        age ← sub64 now (e_observed_time e);
        if age <=? query_timeout_nanos c then Ret (n, c)
        else
          c ← evict_as_unanswered c idx inc_unanswered;
          evict_loop fuel c now budget (n + 1)
      else Ret (n, c)
  end.

Definition evict_expired (c : cf_dns_correlator) (now budget : Z) : exec (Z * cf_dns_correlator) :=
  evict_loop (walk_fuel c) c now budget 0.

(** ** The interface *)

(** [while (p < n) p <<= 1], [p] a [size_t]. *)
Fixpoint pow2_loop (fuel : nat) (p n : Z) : exec Z :=
  match fuel with
  | O => Spin
  | S fuel => if p <? n then pow2_loop fuel (u64 (Z.shiftl p 1)) n else Ret p
  end.

Definition next_pow2 (n : Z) : exec Z := pow2_loop 65 1 n.

Definition stats_zero : cf_dns_correlator_stats_t :=
  {| transactions_observed := 0; query_unanswered := 0; response_unmatched := 0;
     pending_evicted_collision := 0; pending_drop := 0; rtt_invalid := 0; pending_depth := 0 |}.

(** The loop that threads the slots [i ..] of the pool onto the free list. *)
Fixpoint thread_free (i cap : Z) (mem : list cf_dns_entry_t) : list cf_dns_entry_t :=
  match mem with
  | [] => []
  | e :: mem =>
      with_hnext (if i + 1 <? cap then i + 1 else CF_DNS_NIL) e :: thread_free (i + 1) cap mem
  end.

(** [alloc] says whether every allocation succeeds, and [mem] what the pool's
    uninitialised bytes hold. *)
Definition cf_dns_correlator_new (cfg : option cf_dns_correlator_config_t) (has_emit alloc : bool)
    (mem : list cf_dns_entry_t) : exec (option cf_dns_correlator) :=
  match cfg with
  | None => Ret None
  | Some cfg =>
      if negb has_emit || (cc_capacity cfg =? 0) || (cc_query_timeout_nanos cfg <=? 0) then Ret None
      else if INT32_MAX <? cc_capacity cfg then Ret None
      else if negb alloc then Ret None
      else
        nb ← next_pow2 (cc_capacity cfg);
        Ret (Some {| entries := thread_free 0 (cc_capacity cfg) (take (Z.to_nat (cc_capacity cfg)) mem);
                     buckets := replicate (Z.to_nat nb) CF_DNS_NIL;
                     capacity := cc_capacity cfg; nbuckets := nb; bucket_mask := u32 (nb - 1);
                     free_head := 0; fifo_head := CF_DNS_NIL; fifo_tail := CF_DNS_NIL; count := 0;
                     query_timeout_nanos := cc_query_timeout_nanos cfg;
                     on_table_full := cc_on_table_full cfg; calls := []; stats := stats_zero |})
  end.

(** The drain of [cf_dns_correlator_free]; the table is gone, the calls of
    [emit] remain. *)
Fixpoint drain_loop (fuel : nat) (c : cf_dns_correlator) : exec cf_dns_correlator :=
  match fuel with
  | O => Spin
  | S fuel =>
      if negb (fifo_head c =? CF_DNS_NIL) then
        c ← evict_as_unanswered c (fifo_head c) inc_unanswered;
        drain_loop fuel c
      else Ret c
  end.

Definition cf_dns_correlator_free (c : option cf_dns_correlator) : exec (list (emission * cf_dns_correlator_stats_t)) :=
  match c with
  | None => Ret []
  | Some c => c ← drain_loop (walk_fuel c) c; Ret (calls c)
  end.

(** The same-key branch of a query: the older one is handed back and the entry
    reused, as the newest. *)
Definition replace_pending (c : cf_dns_correlator) (idx : Z) (key : cf_dns_txn_key_t)
    (time ctx : Z) : exec cf_dns_correlator :=
  e ← ent c idx;
  let c := emit (add_stats 0 0 0 1 0 0) (unanswered (e_query_ctx e) (e_key e)) c in
  c ← upd c idx (with_key key time ctx);
  c ← fifo_unlink c idx;
  fifo_append c idx.

(** A fresh slot for the query, its bucket [b]. *)
Definition insert_fresh (c : cf_dns_correlator) (key : cf_dns_txn_key_t) (h time ctx : Z)
    : exec cf_dns_correlator :=
  let idx := free_head c in
  e ← ent c idx;
  let c := set_heads (e_hnext e) (fifo_head c) (fifo_tail c) (count c) c in
  c ← upd c idx (with_key key time ctx);
  b ← bkt c (bucket_of c h);
  c ← upd c idx (with_hnext b);
  c ← bkt_set c (bucket_of c h) idx;
  c ← fifo_append c idx;
  Ret (set_heads (free_head c) (fifo_head c) (fifo_tail c) (u64 (count c + 1)) c).

Definition on_query (c : cf_dns_correlator) (key : cf_dns_txn_key_t) (time ctx : Z)
    : exec cf_dns_correlator :=
  '(_, c) ← evict_expired c time CF_DNS_AMORTIZED_EVICT_MAX;
  let h := key_hash key in
  idx ← entry_find c key h;
  if negb (idx =? CF_DNS_NIL) then replace_pending c idx key time ctx
  else if free_head c =? CF_DNS_NIL then
    if (on_table_full c =? CF_DNS_ON_FULL_DROP_OLDEST) && negb (fifo_head c =? CF_DNS_NIL) then
      c ← evict_as_unanswered c (fifo_head c) inc_drop;
      insert_fresh c key h time ctx
    else Ret (emit inc_drop (unanswered ctx key) c)
  else insert_fresh c key h time ctx.

Definition cf_dns_correlator_on_query (c : option cf_dns_correlator)
    (key : option cf_dns_txn_key_t) (time ctx : Z) : exec (option cf_dns_correlator) :=
  match c, key with
  | Some c, Some key => c ← on_query c key time ctx; Ret (Some c)
  | _, _ => Ret c
  end.

Definition on_response (c : cf_dns_correlator) (key : cf_dns_txn_key_t) (time ctx : Z)
    : exec cf_dns_correlator :=
  let h := key_hash key in
  idx ← entry_find c key h;
  if idx =? CF_DNS_NIL then
    Ret (emit (add_stats 0 0 1 0 0 0)
      {| m_outcome := CF_DNS_TXN_UNMATCHED; m_query := None; m_response := Some ctx;
         m_rtt_nanos := 0; m_rtt_valid := 0; m_key := key |} c)
  else
    e ← ent c idx;
    rtt ← sub64 time (e_observed_time e);
    let rtt_valid :=
      if (rtt <? 0) || (query_timeout_nanos c <? rtt) then 0 else 1 in
    c ← entry_release c idx;
    Ret (emit (add_stats 1 0 0 0 0 (1 - rtt_valid))
      {| m_outcome := CF_DNS_TXN_OBSERVED; m_query := Some (e_query_ctx e);
         m_response := Some ctx; m_rtt_nanos := rtt; m_rtt_valid := rtt_valid;
         m_key := e_key e |} c).

Definition cf_dns_correlator_on_response (c : option cf_dns_correlator)
    (key : option cf_dns_txn_key_t) (time ctx : Z) : exec (option cf_dns_correlator) :=
  match c, key with
  | Some c, Some key => c ← on_response c key time ctx; Ret (Some c)
  | _, _ => Ret c
  end.

Definition cf_dns_correlator_tick (c : option cf_dns_correlator) (now : Z)
    : exec (option cf_dns_correlator) :=
  match c with
  | None => Ret None
  | Some c => '(_, c) ← evict_expired c now SIZE_MAX; Ret (Some c)
  end.

Definition cf_dns_correlator_stats (c : option cf_dns_correlator)
    : option cf_dns_correlator_stats_t :=
  match c with
  | None => None
  | Some c => Some (stats_now c)
  end.
