(* ===== verification/CorrelationRep.v ===== *)
(** * CorrelationRep: the intrusive lists of the pending-query table

    The representation invariant [rep] of the pool (FIFO, free list and bucket
    chains as segments over the entries) and what each piece of list surgery of
    [Correlation] does to it: unlink, append, release, replace, insert. *)

From stdpp Require Import sets.
From S2P Require Import Prelude Correlation.

(** ** Keys, as a relation *)

(** The part of a key that counts. *)
Definition key_sig (k : cf_dns_txn_key_t) :=
  (k_transport k, k_local_is_server k, k_ip_version k, slice (k_client_ip k) 0 16,
   slice (k_server_ip k) 0 16, k_client_port k, k_server_port k, k_dns_id k, k_qtype k,
   k_qclass k, slice (k_qname_canonical k) 0 (key_qname_len k), key_qname_len k).

Lemma key_equal_sig a b : key_equal a b = true <-> key_sig a = key_sig b.
Proof.
  unfold key_equal, key_sig. split.
  - intros H. repeat case_match; try done.
    repeat match goal with
    | H : _ || _ = false |- _ => apply orb_false_iff in H as [? ?]
    | H : negb _ = false |- _ => apply negb_false_iff in H
    | H : (_ =? _) = true |- _ => apply Z.eqb_eq in H
    | H : bool_decide _ = true |- _ => apply bool_decide_eq_true in H
    end. congruence.
  - intros H. injection H as H1 H2 H3 H4 H5 H6 H7 H8 H9 H10 H11 H12. rewrite H12 in H11.
    rewrite H1, H2, H3, H4, H5, H6, H7, H8, H9, H10, H12, H11, !Z.eqb_refl.
    by rewrite !bool_decide_eq_true_2.
Qed.

Lemma key_hash_sig a b : key_sig a = key_sig b -> key_hash a = key_hash b.
Proof.
  unfold key_sig, key_hash, key_bytes. intros H.
  injection H as H1 H2 H3 H4 H5 H6 H7 H8 H9 H10 H11 H12. rewrite H12 in H11.
  by rewrite H1, H2, H3, H4, H5, H6, H7, H8, H9, H10, H12, H11.
Qed.

(** ** Segments of the intrusive lists

    [sseg l p ids nxt]: following [hnext] from [p] visits [ids] and arrives at
    [nxt].  [dseg l prev p ids nxt last]: the same on the FIFO links, with the
    back links. *)

Fixpoint sseg (l : list cf_dns_entry_t) (p : Z) (ids : list nat) (nxt : Z) : Prop :=
  match ids with
  | [] => p = nxt
  | i :: ids => p = Z.of_nat i /\ exists e, l !! i = Some e /\ sseg l (e_hnext e) ids nxt
  end.

Fixpoint dseg (l : list cf_dns_entry_t) (prev p : Z) (ids : list nat) (nxt last : Z) : Prop :=
  match ids with
  | [] => p = nxt /\ prev = last
  | i :: ids => p = Z.of_nat i /\ exists e, l !! i = Some e /\ e_fifo_prev e = prev /\
      dseg l (Z.of_nat i) (e_fifo_next e) ids nxt last
  end.

(** Two pools agree on a part of every entry. *)
Definition same {A} (f : cf_dns_entry_t -> A) (l l' : list cf_dns_entry_t) : Prop :=
  forall j, f <$> l' !! j = f <$> l !! j.

Definition fifo_links (e : cf_dns_entry_t) : Z * Z := (e_fifo_prev e, e_fifo_next e).

Record pend := { p_key : cf_dns_txn_key_t; p_time : Z; p_ctx : Z }.
Definition pend_of (e : cf_dns_entry_t) : pend :=
  {| p_key := e_key e; p_time := e_observed_time e; p_ctx := e_query_ctx e |}.

Section Same.
Context {A : Type} (f : cf_dns_entry_t -> A).

Lemma same_refl l : same f l l.
Proof. done. Qed.

Lemma same_trans l1 l2 l3 : same f l1 l2 -> same f l2 l3 -> same f l1 l3.
Proof. intros H1 H2 j. by rewrite H2, H1. Qed.

Lemma same_alter g i l : (forall e, f (g e) = f e) -> same f l (alter g i l).
Proof.
  intros Hg j. destruct (decide (i = j)) as [<-|Hne].
  - rewrite list_lookup_alter_eq. destruct (l !! i); simpl; [by rewrite Hg|done].
  - by rewrite list_lookup_alter_ne.
Qed.

Lemma same_lookup l l' j e : same f l l' -> l !! j = Some e ->
  exists e', l' !! j = Some e' /\ f e' = f e.
Proof.
  intros H He. specialize (H j). rewrite He in H. simpl in H.
  destruct (l' !! j) as [e'|]; simplify_eq/=. by exists e'.
Qed.

Lemma same_length l l' : same f l l' -> length l' = length l.
Proof.
  intros H. apply Nat.le_antisymm; apply Nat.nlt_ge; intros Hlt.
  - destruct (lookup_lt_is_Some_2 l' (length l) Hlt) as [e He]. specialize (H (length l)).
    rewrite He, lookup_ge_None_2 in H by lia. done.
  - destruct (lookup_lt_is_Some_2 l (length l') Hlt) as [e He]. specialize (H (length l')).
    rewrite He, (lookup_ge_None_2 l') in H by lia. done.
Qed.
End Same.
#[local] Hint Resolve same_refl : core.

Lemma sseg_agree l l' ids : forall p nxt,
  (forall j, j ∈ ids -> e_hnext <$> l' !! j = e_hnext <$> l !! j) ->
  sseg l p ids nxt -> sseg l' p ids nxt.
Proof.
  induction ids as [|i ids IH]; intros p nxt Hs; simpl; [done|].
  intros (-> & e & He & Hr). split; [done|].
  pose proof (Hs i ltac:(left)) as Hi. rewrite He in Hi. simpl in Hi.
  destruct (l' !! i) as [e'|] eqn:E; simplify_eq/=. exists e'. split; [done|].
  rewrite Hi. apply IH; [|done]. intros j Hj. apply Hs. by right.
Qed.

Lemma sseg_same l l' p ids nxt : same e_hnext l l' -> sseg l p ids nxt -> sseg l' p ids nxt.
Proof. intros H. apply sseg_agree. intros j _. apply H. Qed.

Lemma dseg_agree l l' ids : forall prev p nxt last,
  (forall j, j ∈ ids -> fifo_links <$> l' !! j = fifo_links <$> l !! j) ->
  dseg l prev p ids nxt last -> dseg l' prev p ids nxt last.
Proof.
  induction ids as [|i ids IH]; intros prev p nxt last Hs; simpl; [done|].
  intros (-> & e & He & Hp & Hr). split; [done|].
  pose proof (Hs i ltac:(left)) as Hi. rewrite He in Hi. simpl in Hi.
  destruct (l' !! i) as [e'|] eqn:E; [|done]. injection Hi as Hi1 Hi2. exists e'.
  split_and!; [done|congruence|]. rewrite Hi2. apply IH; [|done].
  intros j Hj. apply Hs. by right.
Qed.

Lemma dseg_same l l' prev p ids nxt last : same fifo_links l l' ->
  dseg l prev p ids nxt last -> dseg l' prev p ids nxt last.
Proof. intros H. apply dseg_agree. intros j _. apply H. Qed.

Lemma sseg_app l a b : forall p nxt,
  sseg l p (a ++ b) nxt <-> exists q, sseg l p a q /\ sseg l q b nxt.
Proof.
  induction a as [|i a IH]; intros p nxt; simpl; [naive_solver|].
  split.
  - intros (-> & e & He & Hr). apply IH in Hr as (q & H1 & H2). naive_solver.
  - intros (q & (-> & e & He & H1) & H2). split; [done|]. exists e. split; [done|].
    apply IH. by exists q.
Qed.

Lemma dseg_app l a b : forall prev p nxt last,
  dseg l prev p (a ++ b) nxt last <->
  exists q r, dseg l prev p a r q /\ dseg l q r b nxt last.
Proof.
  induction a as [|i a IH]; intros prev p nxt last; simpl; [naive_solver|].
  split.
  - intros (-> & e & He & Hp & Hr). apply IH in Hr as (q & r & H1 & H2). naive_solver.
  - intros (q & r & (-> & e & He & Hp & H1) & H2). split; [done|]. exists e.
    split_and!; [done|done|]. apply IH. by exists q, r.
Qed.

Lemma sseg_lookup l ids i : forall p nxt, sseg l p ids nxt -> i ∈ ids -> is_Some (l !! i).
Proof.
  induction ids as [|j ids IH]; intros p nxt; simpl; [by intros _ ?%not_elem_of_nil|].
  intros (-> & e & He & Hr) [->|Hi]%elem_of_cons; [by exists e|by eapply IH].
Qed.

Lemma dseg_lookup l ids i : forall prev p nxt last, dseg l prev p ids nxt last -> i ∈ ids ->
  is_Some (l !! i).
Proof.
  induction ids as [|j ids IH]; intros prev p nxt last; simpl; [by intros _ ?%not_elem_of_nil|].
  intros (-> & e & He & _ & Hr) [->|Hi]%elem_of_cons; [by exists e|by eapply IH].
Qed.

(** The last element of a segment, or what came before it. *)
Fixpoint last_ix (d : Z) (ids : list nat) : Z :=
  match ids with
  | [] => d
  | i :: ids => last_ix (Z.of_nat i) ids
  end.

Lemma dseg_last l ids : forall prev p nxt last,
  dseg l prev p ids nxt last -> last = last_ix prev ids.
Proof.
  induction ids as [|i ids IH]; intros prev p nxt last; [by intros [_ ->]|].
  intros (-> & e & He & Hp & Hr). by rewrite (IH _ _ _ _ Hr).
Qed.

Lemma last_ix_snoc d ids i : last_ix d (ids ++ [i]) = Z.of_nat i.
Proof. revert d. by induction ids; simpl. Qed.

Lemma last_ix_cases d ids : (ids = [] /\ last_ix d ids = d) \/
  exists pre i, ids = pre ++ [i] /\ last_ix d ids = Z.of_nat i.
Proof.
  destruct ids as [|i pre] using rev_ind; [by left|]. right. exists pre, i.
  by rewrite last_ix_snoc.
Qed.

Lemma dseg_first l i ids prev p nxt last : dseg l prev p (i :: ids) nxt last -> p = Z.of_nat i.
Proof. by intros [-> _]. Qed.

(** Redirecting the end, or the beginning, of a segment. *)
Lemma sseg_set_last l p pre i nxt n : i ∉ pre -> sseg l p (pre ++ [i]) nxt ->
  sseg (alter (with_hnext n) i l) p (pre ++ [i]) n.
Proof.
  intros Hi (q & H1 & Hq & e & He & _)%sseg_app. apply sseg_app. exists q. split.
  - eapply sseg_agree; [|exact H1]. intros j Hj. rewrite list_lookup_alter_ne by set_solver. done.
  - split; [done|]. exists (with_hnext n e). by rewrite list_lookup_alter_eq, He.
Qed.

Lemma dseg_set_last l prev p pre i nxt last n : i ∉ pre -> dseg l prev p (pre ++ [i]) nxt last ->
  dseg (alter (with_next n) i l) prev p (pre ++ [i]) n last.
Proof.
  intros Hi (q & r & H1 & Hr & e & He & Hp & _ & Hl)%dseg_app. apply dseg_app. exists q, r. split.
  - eapply dseg_agree; [|exact H1]. intros j Hj. rewrite list_lookup_alter_ne by set_solver. done.
  - split; [done|]. exists (with_next n e). by rewrite list_lookup_alter_eq, He.
Qed.

Lemma dseg_set_first l prev p i post nxt last q : i ∉ post -> dseg l prev p (i :: post) nxt last ->
  dseg (alter (with_prev q) i l) q p (i :: post) nxt last.
Proof.
  intros Hi (-> & e & He & Hp & H1). split; [done|]. exists (with_prev q e).
  rewrite list_lookup_alter_eq, He. split_and!; [done|done|].
  eapply dseg_agree; [|exact H1]. intros j Hj. rewrite list_lookup_alter_ne by set_solver. done.
Qed.

Lemma same_h_next l i n : same e_hnext l (alter (with_next n) i l).
Proof. by apply same_alter. Qed.
Lemma same_h_prev l i n : same e_hnext l (alter (with_prev n) i l).
Proof. by apply same_alter. Qed.
Lemma same_f_hnext l i n : same fifo_links l (alter (with_hnext n) i l).
Proof. by apply same_alter. Qed.
Lemma same_p_next l i n : same pend_of l (alter (with_next n) i l).
Proof. by apply same_alter. Qed.
Lemma same_p_prev l i n : same pend_of l (alter (with_prev n) i l).
Proof. by apply same_alter. Qed.
Lemma same_p_hnext l i n : same pend_of l (alter (with_hnext n) i l).
Proof. by apply same_alter. Qed.
#[local] Hint Resolve same_h_next same_h_prev same_f_hnext same_p_next same_p_prev same_p_hnext : core.

(** ** Array accesses that succeed *)

Lemma ent_ok c i e : entries c !! i = Some e -> ent c (Z.of_nat i) = Ret e.
Proof.
  intros He. unfold ent. replace (0 <=? Z.of_nat i) with true by lia.
  by rewrite Nat2Z.id, He.
Qed.

Lemma upd_ok c i f : is_Some (entries c !! i) ->
  upd c (Z.of_nat i) f = Ret (set_entries (alter f i) c).
Proof. intros [e He]. unfold upd. rewrite (ent_ok _ _ _ He). xbind. by rewrite Nat2Z.id. Qed.

Lemma nil_neq i : (Z.of_nat i =? CF_DNS_NIL) = false.
Proof. unfold CF_DNS_NIL. lia. Qed.

(** What the list surgery leaves alone. *)
Definition cfg_of (c : cf_dns_correlator) :=
  (capacity c, nbuckets c, bucket_mask c, query_timeout_nanos c, on_table_full c,
   map fst (calls c), stats c).

(** ** The FIFO *)

Lemma fifo_unlink_spec c a i b :
  NoDup (a ++ i :: b) ->
  dseg (entries c) CF_DNS_NIL (fifo_head c) (a ++ i :: b) CF_DNS_NIL (fifo_tail c) ->
  exists c', fifo_unlink c (Z.of_nat i) = Ret c' /\
    dseg (entries c') CF_DNS_NIL (fifo_head c') (a ++ b) CF_DNS_NIL (fifo_tail c') /\
    same e_hnext (entries c) (entries c') /\ same pend_of (entries c) (entries c') /\
    (cfg_of c', buckets c', free_head c', count c') = (cfg_of c, buckets c, free_head c, count c).
Proof.
  intros Hnd (q & r & Ha & Hr & e & He & Hp & Hb)%dseg_app.
  apply list.NoDup_app in Hnd as (Hna & Hab & [Hib Hnb]%list.NoDup_cons).
  assert (i ∉ a) as Hia by (intros ?; eapply Hab; [done|left]).
  assert (forall x, x ∈ a -> x ∉ b) as Hdis by (intros x Hx Hxb; eapply Hab; [done|by right]).
  unfold fifo_unlink. rewrite (ent_ok _ _ _ He). xbind. rewrite Hp.
  pose proof (dseg_last _ _ _ _ _ _ Ha) as Hq.
  (* the element before *)
  assert (exists c1, (if negb (q =? CF_DNS_NIL) then upd c q (with_next (e_fifo_next e))
       else Ret (set_heads (free_head c) (e_fifo_next e) (fifo_tail c) (count c) c)) = Ret c1 /\
    dseg (entries c1) CF_DNS_NIL (fifo_head c1) a (e_fifo_next e) q /\
    dseg (entries c1) (Z.of_nat i) (e_fifo_next e) b CF_DNS_NIL (fifo_tail c) /\
    entries c1 !! i = Some e /\ fifo_tail c1 = fifo_tail c /\
    same e_hnext (entries c) (entries c1) /\ same pend_of (entries c) (entries c1) /\
    (cfg_of c1, buckets c1, free_head c1, count c1) = (cfg_of c, buckets c, free_head c, count c))
    as (c1 & -> & Ha1 & Hb1 & He1 & Ht1 & Hh1 & Hp1 & Hc1).
  { destruct (last_ix_cases CF_DNS_NIL a) as [[-> Hl]|(pre & j & -> & Hl)];
      rewrite Hl in Hq; rewrite Hq in *.
    - change (CF_DNS_NIL =? CF_DNS_NIL) with true. eexists. split; [reflexivity|]. by split_and!.
    - rewrite nil_neq. cbn [negb].
      assert (is_Some (entries c !! j)) as Hj by (eapply dseg_lookup; [exact Ha|set_solver]).
      rewrite upd_ok by done. eexists. split; [reflexivity|].
      apply list.NoDup_app in Hna as (_ & Hnj & _).
      assert (j ∉ pre) by (intros Hx; by apply (Hnj j Hx); left).
      split_and!; try done.
      + by eapply dseg_set_last.
      + eapply dseg_agree; [|exact Hb]. intros x Hx. simpl.
        rewrite list_lookup_alter_ne; [done|]. intros ->. eapply Hdis; [|done]. set_solver.
      + simpl. rewrite list_lookup_alter_ne; [done|]. intros ->. set_solver.
      + apply same_h_next.
      + apply same_p_next. }
  xbind. rewrite (ent_ok _ _ _ He1). xbind. rewrite Hp.
  (* the element after *)
  destruct b as [|k b].
  - destruct Hb1 as [Hn _]. rewrite Hn in *. eexists. split; [reflexivity|].
    rewrite app_nil_r. simpl. by split_and!.
  - pose proof (dseg_first _ _ _ _ _ _ _ Hb1) as Hn. rewrite Hn, nil_neq. cbn [negb].
    rewrite upd_ok by (eapply dseg_lookup; [exact Hb1|left]). eexists. split; [reflexivity|].
    simpl. rewrite Hn in *. apply list.NoDup_cons in Hnb as [Hkb _]. split_and!; try done.
    + apply dseg_app. exists q, (Z.of_nat k). split.
      * eapply dseg_agree; [|exact Ha1]. intros x Hx. rewrite list_lookup_alter_ne; [done|].
        intros ->. eapply Hdis; [done|left].
      * rewrite Ht1. by eapply dseg_set_first.
    + eapply same_trans; [exact Hh1|done].
    + eapply same_trans; [exact Hp1|done].
Qed.

Lemma fifo_append_spec c fifo i :
  i ∉ fifo -> NoDup fifo -> is_Some (entries c !! i) ->
  dseg (entries c) CF_DNS_NIL (fifo_head c) fifo CF_DNS_NIL (fifo_tail c) ->
  exists c', fifo_append c (Z.of_nat i) = Ret c' /\
    dseg (entries c') CF_DNS_NIL (fifo_head c') (fifo ++ [i]) CF_DNS_NIL (fifo_tail c') /\
    same e_hnext (entries c) (entries c') /\ same pend_of (entries c) (entries c') /\
    (cfg_of c', buckets c', free_head c', count c') = (cfg_of c, buckets c, free_head c, count c).
Proof.
  intros Hi Hnd [e He] Hd. unfold fifo_append. rewrite upd_ok by (by exists e). xbind.
  set (f := fun e : cf_dns_entry_t => with_prev (fifo_tail c) (with_next CF_DNS_NIL e)).
  cbn [set_entries fifo_tail free_head count].
  assert (dseg (alter f i (entries c)) CF_DNS_NIL (fifo_head c) fifo CF_DNS_NIL (fifo_tail c)) as Hd1.
  { eapply dseg_agree; [|exact Hd]. intros j Hj. by rewrite list_lookup_alter_ne by set_solver. }
  assert (alter f i (entries c) !! i = Some (f e)) as Hf by (by rewrite list_lookup_alter_eq, He).
  assert (same e_hnext (entries c) (alter f i (entries c))) as Hh by (by apply same_alter).
  assert (same pend_of (entries c) (alter f i (entries c))) as Hp by (by apply same_alter).
  pose proof (dseg_last _ _ _ _ _ _ Hd) as Ht.
  destruct (last_ix_cases CF_DNS_NIL fifo) as [[-> Hl]|(pre & j & -> & Hl)]; rewrite Hl in Ht.
  - rewrite Ht. change (CF_DNS_NIL =? CF_DNS_NIL) with true. xbind.
    eexists. split; [reflexivity|]. split_and!; [|done|done|done].
    simpl. split; [done|]. exists (f e). split_and!; [done|done|done|done].
  - rewrite Ht, nil_neq. cbn [negb].
    assert (j <> i) as Hji by set_solver.
    rewrite upd_ok by (simpl; rewrite list_lookup_alter_ne by done; eapply dseg_lookup;
      [exact Hd|set_solver]). xbind.
    apply list.NoDup_app in Hnd as (_ & Hnj & _).
    assert (j ∉ pre) by (intros Hx; by apply (Hnj j Hx); left).
    eexists. split; [reflexivity|]. simpl. split_and!; [| | |done].
    + apply dseg_app. exists (fifo_tail c), (Z.of_nat i). split.
      * eapply dseg_set_last; [done|]. exact Hd1.
      * split; [done|]. exists (f e). rewrite list_lookup_alter_ne by done. by split_and!.
    + eapply same_trans; [exact Hh|apply same_h_next].
    + eapply same_trans; [exact Hp|apply same_p_next].
Qed.

(** ** The chains *)

Definition key_at (l : list cf_dns_entry_t) (i : nat) (k : cf_dns_txn_key_t) : Prop :=
  exists e, l !! i = Some e /\ e_key e = k.

Lemma find_loop_spec c key ids : forall fuel p,
  sseg (entries c) p ids CF_DNS_NIL -> (length ids < fuel)%nat ->
  (exists i e, i ∈ ids /\ entries c !! i = Some e /\ key_equal (e_key e) key = true /\
     find_loop fuel c key p = Ret (Z.of_nat i)) \/
  ((forall i e, i ∈ ids -> entries c !! i = Some e -> key_equal (e_key e) key = false) /\
   find_loop fuel c key p = Ret CF_DNS_NIL).
Proof.
  induction ids as [|i ids IH]; intros fuel p Hs Hf;
    (destruct fuel as [|fuel]; [simpl in Hf; lia|]); cbn [find_loop].
  - simpl in Hs. subst p. right. split; [by intros ? ? ?%not_elem_of_nil|done].
  - destruct Hs as (-> & e & He & Hr). rewrite nil_neq. cbn [negb].
    rewrite (ent_ok _ _ _ He). xbind. destruct (key_equal (e_key e) key) eqn:Hk.
    + left. exists i, e. split_and!; [left|done|done|done].
    + destruct (IH fuel _ Hr) as [(j & e' & Hj & ? & ? & ?)|[Hno ?]]; [simpl in Hf; lia| |].
      * left. exists j, e'. split_and!; [by right|done|done|done].
      * right. split; [|done]. intros j e' [->|Hj]%elem_of_cons He'; [congruence|by eapply Hno].
Qed.

Lemma chain_walk_spec c i a : forall fuel p prev, i ∉ a -> (length a < fuel)%nat ->
  sseg (entries c) p a (Z.of_nat i) ->
  chain_walk fuel c (Z.of_nat i) prev p = Ret (last_ix prev a, Z.of_nat i).
Proof.
  induction a as [|j a IH]; intros fuel p prev Hi Hf Hs;
    (destruct fuel as [|fuel]; [simpl in Hf; lia|]); cbn [chain_walk].
  - simpl in Hs. subst p. by rewrite nil_neq, Z.eqb_refl.
  - destruct Hs as (-> & e & He & Hr). rewrite nil_neq.
    replace (Z.of_nat j =? Z.of_nat i) with false by (apply not_elem_of_cons in Hi as [? _]; lia).
    cbn [negb andb]. rewrite (ent_ok _ _ _ He). xbind. cbn [last_ix].
    apply IH; [set_solver|simpl in Hf; lia|done].
Qed.

(** ** The table's invariant

    [fifo] are the slots in use, oldest first, [fr] the free slots and [ch b]
    the slots of bucket [b]. *)

Record rep (c : cf_dns_correlator) (fifo fr : list nat) (ch : nat -> list nat) : Prop := {
  r_cap : zlen (entries c) = capacity c /\ 1 <= capacity c <= INT32_MAX;
  r_mask : 0 <= bucket_mask c < zlen (buckets c) /\ bucket_mask c < 2 ^ 32;
  r_perm : fifo ++ fr ≡ₚ seq 0 (length (entries c));
  r_count : count c = zlen fifo;
  r_fifo : dseg (entries c) CF_DNS_NIL (fifo_head c) fifo CF_DNS_NIL (fifo_tail c);
  r_free : sseg (entries c) (free_head c) fr CF_DNS_NIL;
  r_chain : forall b h, buckets c !! b = Some h -> sseg (entries c) h (ch b) CF_DNS_NIL;
  r_chain_nodup : forall b, NoDup (ch b);
  r_chain_mem : forall b i, i ∈ ch b <-> i ∈ fifo /\ exists e, entries c !! i = Some e /\
    bucket_of c (key_hash (e_key e)) = Z.of_nat b;
  r_keys : forall i j e e', i ∈ fifo -> j ∈ fifo -> entries c !! i = Some e ->
    entries c !! j = Some e' -> key_equal (e_key e) (e_key e') = true -> i = j
}.

Section Rep.
Context {c : cf_dns_correlator} {fifo fr : list nat} {ch : nat -> list nat}.
Context (HR : rep c fifo fr ch).

Lemma rep_nodup : NoDup (fifo ++ fr).
Proof. rewrite (r_perm _ _ _ _ HR). apply NoDup_seq. Qed.

Lemma rep_lengths : (length fifo + length fr = length (entries c))%nat.
Proof. rewrite <- length_app, (r_perm _ _ _ _ HR). by rewrite length_seq. Qed.

Lemma rep_entry i : i ∈ fifo \/ i ∈ fr -> is_Some (entries c !! i).
Proof.
  intros Hi. apply lookup_lt_is_Some_2. assert (i ∈ fifo ++ fr) as H by set_solver.
  rewrite (r_perm _ _ _ _ HR) in H. apply elem_of_seq in H. lia.
Qed.

Lemma bucket_range h : 0 <= bucket_of c h <= bucket_mask c.
Proof.
  destruct (r_mask _ _ _ _ HR) as [[Hm _] Hm2]. unfold bucket_of.
  assert (0 <= Z.land h (bucket_mask c)) by (apply Z.land_nonneg; lia).
  assert (Z.land h (bucket_mask c) <= bucket_mask c).
  { rewrite Z.land_comm. apply Z.ldiff_le; [done|].
    apply Z.bits_inj'. intros n Hn. rewrite Z.ldiff_spec, Z.land_spec, Z.bits_0.
    destruct (Z.testbit (bucket_mask c) n); [|done]. by rewrite andb_false_r. }
  rewrite u32_id; lia.
Qed.

Lemma bkt_ok h : exists b v, bucket_of c h = Z.of_nat b /\ buckets c !! b = Some v /\
  bkt c (bucket_of c h) = Ret v.
Proof.
  pose proof (bucket_range h). destruct (r_mask _ _ _ _ HR) as [Hm _].
  destruct (lookup_lt_is_Some_2 (buckets c) (Z.to_nat (bucket_of c h))) as [v Hv]; [lia|].
  exists (Z.to_nat (bucket_of c h)), v. split_and!; [lia|done|].
  apply rd_lookup; [lia|done].
Qed.

Lemma chain_length b : (length (ch b) <= length (entries c))%nat.
Proof.
  pose proof rep_lengths.
  assert (length (ch b) <= length fifo)%nat; [|lia].
  apply submseteq_length, NoDup_submseteq; [apply (r_chain_nodup _ _ _ _ HR)|].
  intros i Hi. by apply (r_chain_mem _ _ _ _ HR) in Hi as [? _].
Qed.

(** Lookup is exact: it finds the slot of the key, and only misses when no
    slot in use has it. *)
Lemma entry_find_spec key :
  (exists i e, i ∈ fifo /\ entries c !! i = Some e /\ key_equal (e_key e) key = true /\
     entry_find c key (key_hash key) = Ret (Z.of_nat i)) \/
  ((forall i e, i ∈ fifo -> entries c !! i = Some e -> key_equal (e_key e) key = false) /\
   entry_find c key (key_hash key) = Ret CF_DNS_NIL).
Proof.
  destruct (bkt_ok (key_hash key)) as (b & v & Hb & Hv & Hbk).
  unfold entry_find. rewrite Hbk. xbind.
  destruct (find_loop_spec c key (ch b) (walk_fuel c) v) as [(i & e & Hi & He & Hk & ->)|[Hno ->]].
  - by apply (r_chain _ _ _ _ HR).
  - pose proof (chain_length b). unfold walk_fuel. lia.
  - left. exists i, e. apply (r_chain_mem _ _ _ _ HR) in Hi as [Hi _]. done.
  - right. split; [|done]. intros i e Hi He. destruct (key_equal (e_key e) key) eqn:Hk; [|done].
    exfalso. rewrite (Hno i e) in Hk; [done| |done]. apply (r_chain_mem _ _ _ _ HR). split; [done|].
    exists e. split; [done|]. apply key_equal_sig, key_hash_sig in Hk. by rewrite Hk.
Qed.
End Rep.

Lemma bkt_set_ok c b v : (b < length (buckets c))%nat ->
  bkt_set c (Z.of_nat b) v = Ret (set_buckets (<[b := v]> (buckets c)) c).
Proof.
  intros Hb. unfold bkt_set. rewrite wr_n_ok by (simpl; lia). xbind. do 2 f_equal.
  unfold splice. rewrite Nat2Z.id. simpl. rewrite Nat.add_1_r. symmetry.
  by apply insert_take_drop.
Qed.

(** The chains after the removal of a slot, or after an insertion. *)
Definition ch_set (ch : nat -> list nat) (b : nat) (ids : list nat) : nat -> list nat :=
  fun b' => if decide (b' = b) then ids else ch b'.

Definition chains_ok (c : cf_dns_correlator) (ch : nat -> list nat) : Prop :=
  forall b h, buckets c !! b = Some h -> sseg (entries c) h (ch b) CF_DNS_NIL.

Lemma ch_remove_sub ch b x i y b' : ch b = x ++ i :: y -> ch_set ch b (x ++ y) b' ⊆ ch b'.
Proof.
  unfold ch_set. intros Hch j. case_decide; subst; [|done]. rewrite Hch. set_solver.
Qed.

(** The first half of [entry_release]: the slot leaves its bucket chain. *)
Lemma chain_remove c fifo fr ch i e x y b : rep c fifo fr ch -> i ∈ fifo ->
  entries c !! i = Some e -> bucket_of c (key_hash (e_key e)) = Z.of_nat b ->
  ch b = x ++ i :: y ->
  exists c1, (if last_ix CF_DNS_NIL x =? CF_DNS_NIL then bkt_set c (Z.of_nat b) (e_hnext e)
              else upd c (last_ix CF_DNS_NIL x) (with_hnext (e_hnext e))) = Ret c1 /\
    chains_ok c1 (ch_set ch b (x ++ y)) /\ entries c1 !! i = Some e /\
    sseg (entries c1) (free_head c) fr CF_DNS_NIL /\
    same fifo_links (entries c) (entries c1) /\ same pend_of (entries c) (entries c1) /\
    length (buckets c1) = length (buckets c) /\
    (cfg_of c1, free_head c1, fifo_head c1, fifo_tail c1, count c1) =
      (cfg_of c, free_head c, fifo_head c, fifo_tail c, count c).
Proof.
  intros HR Hi He Hb Hch.
  pose proof (bucket_range HR (key_hash (e_key e))) as Hbr.
  destruct (r_mask _ _ _ _ HR) as [Hm _].
  pose proof (r_chain_nodup _ _ _ _ HR b) as Hnd. rewrite Hch in Hnd.
  apply list.NoDup_app in Hnd as (Hnx & Hxi & [Hiy Hny]%list.NoDup_cons).
  assert (forall j, j ∈ x ++ i :: y -> j ∈ fifo) as Hxf
    by (intros j Hj; rewrite <- Hch in Hj; by apply (r_chain_mem _ _ _ _ HR) in Hj as [? _]).
  pose proof (rep_nodup HR) as Hndf. apply list.NoDup_app in Hndf as (_ & Hff & _).
  destruct (last_ix_cases CF_DNS_NIL x) as [[-> Hl]|(pre & j & -> & Hl)]; rewrite Hl.
  - rewrite Z.eqb_refl, bkt_set_ok by lia. eexists. split; [reflexivity|]. simpl.
    split_and!; try done; [|apply (r_free _ _ _ _ HR)|by rewrite length_insert].
    intros b' h. simpl. unfold ch_set. case_decide as Hbb.
    + subst b'. rewrite list_lookup_insert_eq by lia. intros [= <-].
      destruct (lookup_lt_is_Some_2 (buckets c) b) as [v Hv]; [lia|].
      pose proof (r_chain _ _ _ _ HR b v Hv) as Hs. rewrite Hch in Hs.
      destruct Hs as (_ & e' & He' & Hs). congruence.
    + rewrite list_lookup_insert_ne by done. apply (r_chain _ _ _ _ HR).
  - rewrite nil_neq. rewrite upd_ok by (apply (rep_entry HR); left; apply Hxf; set_solver).
    eexists. split; [reflexivity|]. simpl.
    assert (j ∉ pre) as Hjp by (apply list.NoDup_app in Hnx as (_ & H & _); intros Hx;
      by apply (H j Hx); left).
    assert (i <> j) as Hij by (intros ->; apply (Hxi j); set_solver).
    split_and!; try done.
    + intros b' h Hh. simpl in Hh |- *. unfold ch_set. case_decide as Hbb.
      * subst b'. pose proof (r_chain _ _ _ _ HR b h Hh) as Hs. rewrite Hch in Hs.
        apply sseg_app in Hs as (q & Hs1 & _ & e' & He' & Hs2). apply sseg_app.
        exists (e_hnext e). split; [by eapply sseg_set_last|].
        replace e' with e in Hs2 by congruence. eapply sseg_agree; [|exact Hs2].
        intros z Hz. rewrite list_lookup_alter_ne; [done|]. intros ->. apply (Hxi z); set_solver.
      * eapply sseg_agree; [|by apply (r_chain _ _ _ _ HR)]. intros z Hz.
        rewrite list_lookup_alter_ne; [done|]. intros ->. apply Hbb.
        assert (z ∈ ch b) as Hz' by (rewrite Hch; set_solver).
        apply (r_chain_mem _ _ _ _ HR) in Hz as (_ & e1 & He1 & Hb1).
        apply (r_chain_mem _ _ _ _ HR) in Hz' as (_ & e2 & He2 & Hb2).
        assert (e1 = e2) by congruence. subst e2. lia.
    + by rewrite list_lookup_alter_ne.
    + eapply sseg_agree; [|apply (r_free _ _ _ _ HR)]. intros z Hz.
      rewrite list_lookup_alter_ne; [done|]. intros ->. eapply Hff; [|done]. apply Hxf. set_solver.
Qed.

(** Membership of a chain depends on the keys and the mask only. *)
Lemma in_bucket_same c c' j b : same pend_of (entries c) (entries c') ->
  bucket_mask c' = bucket_mask c ->
  (exists e, entries c !! j = Some e /\ bucket_of c (key_hash (e_key e)) = Z.of_nat b) ->
  exists e, entries c' !! j = Some e /\ bucket_of c' (key_hash (e_key e)) = Z.of_nat b.
Proof.
  intros Hp Hm (e & He & Hb). destruct (same_lookup _ _ _ _ _ Hp He) as (e' & He' & Hq).
  exists e'. split; [done|]. injection Hq as -> _ _. unfold bucket_of in *. by rewrite Hm.
Qed.

Lemma same_sym {A} (f : cf_dns_entry_t -> A) l l' : same f l l' -> same f l' l.
Proof. intros H j. by rewrite H. Qed.

Lemma elem_of_remove (i j : nat) x y : NoDup (x ++ i :: y) ->
  j ∈ x ++ y <-> j ∈ x ++ i :: y /\ j <> i.
Proof.
  intros (_ & Hxi & [Hiy _]%list.NoDup_cons)%list.NoDup_app.
  rewrite !elem_of_app, elem_of_cons. split; [|tauto].
  intros [Hj|Hj]; (split; [tauto|]); intros ->; [|done]. eapply Hxi; [done|left].
Qed.

Lemma ch_remove_mem c fifo fr ch i e b x y b' j : rep c fifo fr ch ->
  entries c !! i = Some e -> bucket_of c (key_hash (e_key e)) = Z.of_nat b ->
  ch b = x ++ i :: y -> j ∈ ch_set ch b (x ++ y) b' <-> j ∈ ch b' /\ j <> i.
Proof.
  intros HR He Hb Hch. unfold ch_set. case_decide as Hbb.
  - subst b'. rewrite Hch. apply elem_of_remove. rewrite <- Hch. apply (r_chain_nodup _ _ _ _ HR).
  - split; [|tauto]. intros Hj. split; [done|]. intros ->. apply Hbb.
    apply (r_chain_mem _ _ _ _ HR) in Hj as (_ & e' & He' & Hb').
    replace e' with e in Hb' by congruence. lia.
Qed.

(** Release: the slot moves from the FIFO to the free list, nothing else does. *)
Lemma entry_release_spec c a i b fr ch : rep c (a ++ i :: b) fr ch ->
  exists c', entry_release c (Z.of_nat i) = Ret c' /\ (exists ch', rep c' (a ++ b) (i :: fr) ch') /\
    same pend_of (entries c) (entries c') /\ cfg_of c' = cfg_of c.
Proof.
  intros HR. assert (i ∈ a ++ i :: b) as Hi by set_solver.
  destruct (rep_entry HR i (or_introl Hi)) as [e He].
  unfold entry_release. rewrite (ent_ok _ _ _ He). xbind.
  destruct (bkt_ok HR (key_hash (e_key e))) as (bn & v & Hbn & Hv & Hbk). rewrite Hbk. xbind.
  assert (i ∈ ch bn) as Hic by (apply (r_chain_mem _ _ _ _ HR); eauto).
  apply list_elem_of_split in Hic as (x & y & Hch).
  pose proof (r_chain _ _ _ _ HR bn v Hv) as Hs. rewrite Hch in Hs.
  apply sseg_app in Hs as (q & Hs1 & Hq & _). subst q.
  pose proof (r_chain_nodup _ _ _ _ HR bn) as Hnd. rewrite Hch in Hnd.
  pose proof (chain_length HR bn) as Hlen. rewrite Hch, length_app in Hlen.
  assert (i ∉ x) as Hix by (apply list.NoDup_app in Hnd as (_ & H & _); intros Hx; by apply (H i Hx); left).
  rewrite (chain_walk_spec c i x) by (done || unfold walk_fuel; lia). xbind.
  rewrite Z.eqb_refl.
  destruct (chain_remove c _ fr ch i e x y bn HR Hi He Hbn Hch)
    as (c1 & Hc1 & Hch1 & He1 & Hfr1 & Hl1 & Hp1 & Hbl1 & Hcfg1).
  rewrite Hbn, Hc1. xbind. injection Hcfg1 as Hcap Hnb Hmask Hto Hpol Hem Hst Hfh Hhd Htl Hct.
  pose proof (rep_nodup HR) as Hndf. apply list.NoDup_app in Hndf as (Hndf & Hdisj & Hndr).
  destruct (fifo_unlink_spec c1 a i b Hndf) as (c2 & -> & Hd2 & Hh2 & Hp2 & Hcfg2).
  { rewrite Hhd, Htl. eapply dseg_same; [exact Hl1|apply (r_fifo _ _ _ _ HR)]. }
  xbind. injection Hcfg2 as Hcap2 Hnb2 Hmask2 Hto2 Hpol2 Hem2 Hst2 Hbk2 Hfh2 Hct2.
  destruct (same_lookup _ _ _ _ _ Hh2 He1) as (e2 & He2 & _).
  rewrite upd_ok by (by exists e2). xbind. eexists. split; [reflexivity|].
  set (l3 := alter (with_hnext (free_head c2)) i (entries c2)).
  assert (same pend_of (entries c) l3) as Hp3
    by (eapply same_trans; [exact Hp1|]; eapply same_trans; [exact Hp2|apply same_p_hnext]).
  assert (length l3 = length (entries c)) as Hlen3 by (by apply (same_length pend_of)).
  assert (forall j, j <> i -> e_hnext <$> l3 !! j = e_hnext <$> entries c1 !! j) as Hh3.
  { intros j Hj. unfold l3. rewrite list_lookup_alter_ne by done. apply Hh2. }
  assert (i ∉ a ++ b) as Hiab.
  { rewrite not_elem_of_app. apply list.NoDup_app in Hndf as (_ & Hab & [Hib _]%list.NoDup_cons).
    split; [|done]. intros Hx. eapply Hab; [done|left]. }
  split; [|split; [exact Hp3|]].
  - exists (ch_set ch bn (x ++ y)). split; simpl; fold l3.
    + rewrite Hlen3, Hcap2, Hcap. apply (r_cap _ _ _ _ HR).
    + rewrite Hmask2, Hmask, Hbk2, Hbl1. apply (r_mask _ _ _ _ HR).
    + rewrite Hlen3, <- (r_perm _ _ _ _ HR). rewrite <- !app_assoc.
      apply Permutation_app_head. symmetry. apply Permutation_middle.
    + pose proof (rep_lengths HR) as Hls. destruct (r_cap _ _ _ _ HR). unfold INT32_MAX in *.
      rewrite Hct2, Hct, (r_count _ _ _ _ HR) in *. rewrite !length_app in *. simpl in *.
      rewrite u64_id; lia.
    + eapply dseg_same; [apply same_f_hnext|exact Hd2].
    + split; [done|]. exists (with_hnext (free_head c2) e2).
      unfold l3. rewrite list_lookup_alter_eq, He2. split; [done|]. simpl.
      rewrite Hfh2, Hfh. eapply sseg_agree; [|exact Hfr1]. intros j Hj. rewrite <- Hfh, <- Hfh2.
      apply Hh3. intros ->. by apply (Hdisj i).
    + intros b' h Hh. simpl in Hh. rewrite Hbk2 in Hh. eapply sseg_agree; [|by apply Hch1].
      intros j Hj. apply Hh3.
      by apply (ch_remove_mem c _ fr ch i e bn x y b' j HR He Hbn Hch) in Hj as [_ ?].
    + intros b'. unfold ch_set. case_decide; [|apply (r_chain_nodup _ _ _ _ HR)].
      apply list.NoDup_app in Hnd as (H1 & H2 & [H3 H4]%list.NoDup_cons).
      apply list.NoDup_app. split_and!; [done| |done]. intros z Hz Hzy. by apply (H2 z Hz); right.
    + intros b' j. rewrite (ch_remove_mem c _ fr ch i e bn x y b' j HR He Hbn Hch).
      rewrite (r_chain_mem _ _ _ _ HR), (elem_of_remove i j a b Hndf).
      set (c3 := set_heads _ _ _ _ _).
      assert (bucket_mask c3 = bucket_mask c) as Hm3 by (simpl; congruence).
      pose proof (in_bucket_same c c3 j b' Hp3 Hm3).
      pose proof (in_bucket_same c3 c j b' (same_sym _ _ _ Hp3) (eq_sym Hm3)). tauto.
    + intros j j' ej ej' Hj Hj' Hej Hej' Hk.
      destruct (same_lookup _ _ _ _ _ (fun z => eq_sym (Hp3 z)) Hej) as (f1 & Hf1 & Hq1).
      destruct (same_lookup _ _ _ _ _ (fun z => eq_sym (Hp3 z)) Hej') as (f2 & Hf2 & Hq2).
      unfold pend_of in Hq1, Hq2. injection Hq1 as Hk1 _ _. injection Hq2 as Hk2 _ _.
      apply (r_keys _ _ _ _ HR j j' f1 f2); [set_solver|set_solver|done|done|congruence].
  - unfold cfg_of. simpl. congruence.
Qed.
