(* ===== verification/CorrelationSpec.v ===== *)
(** * CorrelationSpec: what the pending-query table promises

    The abstract table (the ordered list of pending queries), the refinement of
    every operation, the ledger of contexts and counters, and the properties of
    whole sessions. *)

From stdpp Require Import sets.
From S2P Require Import Prelude Correlation CorrelationRep.

(** ** What the table promises

    The abstract table: the pending queries, oldest first, the counters and
    the calls of [emit] so far. *)

Record table := {
  t_cap : Z; t_timeout : Z; t_policy : Z;
  t_pending : list pend; t_emitted : list emission; t_stats : cf_dns_correlator_stats_t
}.

Definition t_set (q : list pend) (t : table) : table :=
  {| t_cap := t_cap t; t_timeout := t_timeout t; t_policy := t_policy t;
     t_pending := q; t_emitted := t_emitted t; t_stats := t_stats t |}.

Definition t_emit (f : cf_dns_correlator_stats_t -> cf_dns_correlator_stats_t) (m : emission)
    (t : table) : table :=
  {| t_cap := t_cap t; t_timeout := t_timeout t; t_policy := t_policy t;
     t_pending := t_pending t; t_emitted := t_emitted t ++ [m]; t_stats := f (t_stats t) |}.

(** The oldest pending query is handed back. *)
Definition spec_drop_head (f : cf_dns_correlator_stats_t -> cf_dns_correlator_stats_t)
    (t : table) : table :=
  match t_pending t with
  | [] => t
  | p :: q => t_emit f (unanswered (p_ctx p) (p_key p)) (t_set q t)
  end.

Fixpoint spec_evict (n : nat) (now : Z) (t : table) : table :=
  match n, t_pending t with
  | S n, p :: _ =>
      if now - p_time p <=? t_timeout t then t
      else spec_evict n now (spec_drop_head inc_unanswered t)
  | _, _ => t
  end.

Definition has_key (key : cf_dns_txn_key_t) (p : pend) : Prop := key_equal (p_key p) key = true.

#[export] Instance has_key_dec key p : Decision (has_key key p).
Proof. unfold has_key. apply _. Defined.

Definition spec_query (key : cf_dns_txn_key_t) (time ctx : Z) (t : table) : table :=
  let t := spec_evict (Z.to_nat CF_DNS_AMORTIZED_EVICT_MAX) time t in
  let new := {| p_key := key; p_time := time; p_ctx := ctx |} in
  match list_find (has_key key) (t_pending t) with
  | Some (n, p) =>
      t_set (delete n (t_pending t) ++ [new])
        (t_emit (add_stats 0 0 0 1 0 0) (unanswered (p_ctx p) (p_key p)) t)
  | None =>
      if zlen (t_pending t) <? t_cap t then t_set (t_pending t ++ [new]) t
      else if t_policy t =? CF_DNS_ON_FULL_DROP_OLDEST then
        let t := spec_drop_head inc_drop t in t_set (t_pending t ++ [new]) t
      else t_emit inc_drop (unanswered ctx key) t
  end.

Definition rtt_ok (timeout rtt : Z) : Z := if (rtt <? 0) || (timeout <? rtt) then 0 else 1.

Definition observed (p : pend) (time ctx timeout : Z) : emission :=
  {| m_outcome := CF_DNS_TXN_OBSERVED; m_query := Some (p_ctx p); m_response := Some ctx;
     m_rtt_nanos := time - p_time p; m_rtt_valid := rtt_ok timeout (time - p_time p);
     m_key := p_key p |}.

Definition unmatched (ctx : Z) (key : cf_dns_txn_key_t) : emission :=
  {| m_outcome := CF_DNS_TXN_UNMATCHED; m_query := None; m_response := Some ctx;
     m_rtt_nanos := 0; m_rtt_valid := 0; m_key := key |}.

Definition spec_response (key : cf_dns_txn_key_t) (time ctx : Z) (t : table) : table :=
  match list_find (has_key key) (t_pending t) with
  | None => t_emit (add_stats 0 0 1 0 0 0) (unmatched ctx key) t
  | Some (n, p) =>
      t_emit (add_stats 1 0 0 0 0 (1 - rtt_ok (t_timeout t) (time - p_time p)))
        (observed p time ctx (t_timeout t)) (t_set (delete n (t_pending t)) t)
  end.

Definition spec_tick (now : Z) (t : table) : table := spec_evict (length (t_pending t)) now t.

Fixpoint spec_drain (n : nat) (t : table) : table :=
  match n with O => t | S n => spec_drain n (spec_drop_head inc_unanswered t) end.

(** ** Refinement *)

Definition pending_of (l : list cf_dns_entry_t) (fifo : list nat) : list pend :=
  omap (fun i => pend_of <$> l !! i) fifo.

Definition scalars (c : cf_dns_correlator) :=
  (capacity c, query_timeout_nanos c, on_table_full c, map fst (calls c), stats c).

Definition rel (c : cf_dns_correlator) (t : table) : Prop :=
  (exists fifo fr ch, rep c fifo fr ch /\ t_pending t = pending_of (entries c) fifo) /\
  scalars c = (t_cap t, t_timeout t, t_policy t, t_emitted t, t_stats t).

(** A capture time, as nanoseconds since 1970 in an [int64_t]. *)
Definition time_ok (t : Z) : Prop := 0 <= t < 2 ^ 63.
Definition times_ok (t : table) : Prop := Forall (fun p => time_ok (p_time p)) (t_pending t).

Lemma pending_same l l' fifo : same pend_of l l' -> pending_of l' fifo = pending_of l fifo.
Proof.
  intros H. unfold pending_of. induction fifo as [|i fifo IH]; simpl; [done|].
  rewrite (H i). destruct (pend_of <$> l !! i); [f_equal|]; apply IH.
Qed.

Lemma pending_app l a b : pending_of l (a ++ b) = pending_of l a ++ pending_of l b.
Proof.
  unfold pending_of. induction a as [|i a IH]; simpl; [done|].
  destruct (pend_of <$> l !! i); simpl; [f_equal|]; apply IH.
Qed.

Lemma pending_cons l i b e : l !! i = Some e ->
  pending_of l (i :: b) = pend_of e :: pending_of l b.
Proof. intros He. unfold pending_of. simpl. by rewrite He. Qed.

Lemma pending_length l fifo : (forall i, i ∈ fifo -> is_Some (l !! i)) ->
  length (pending_of l fifo) = length fifo.
Proof.
  induction fifo as [|i fifo IH]; intros H; [done|].
  destruct (H i ltac:(left)) as [e He]. rewrite (pending_cons _ _ _ e He). simpl.
  rewrite IH; [done|]. intros j Hj. apply H. by right.
Qed.

Lemma rep_pending_length c fifo fr ch : rep c fifo fr ch ->
  length (pending_of (entries c) fifo) = length fifo.
Proof. intros HR. apply pending_length. intros i Hi. apply (rep_entry HR). by left. Qed.

Lemma rep_emit f m c fifo fr ch : rep c fifo fr ch -> rep (emit f m c) fifo fr ch.
Proof. by intros []. Qed.

(** Handing back the query of slot [i], wherever it is in the FIFO. *)
Lemma evict_spec c a i b fr ch e f : rep c (a ++ i :: b) fr ch -> entries c !! i = Some e ->
  exists c', evict_as_unanswered c (Z.of_nat i) f = Ret c' /\
    (exists ch', rep c' (a ++ b) (i :: fr) ch') /\
    same pend_of (entries c) (entries c') /\
    cfg_of c' = cfg_of (emit f (unanswered (e_query_ctx e) (e_key e)) c).
Proof.
  intros HR He. unfold evict_as_unanswered. rewrite (ent_ok _ _ _ He). xbind.
  destruct (entry_release_spec c a i b fr ch HR) as (c' & -> & [ch' HR'] & Hp & Hcfg). xbind.
  eexists. split; [reflexivity|]. split_and!; [by eexists; apply rep_emit|exact Hp|].
  unfold cfg_of in *. simpl. rewrite !map_app. simpl. congruence.
Qed.

Lemma fifo_head_nil c fr ch : rep c [] fr ch -> fifo_head c = CF_DNS_NIL.
Proof. intros HR. apply (r_fifo _ _ _ _ HR). Qed.

Lemma fifo_head_cons c i fifo fr ch : rep c (i :: fifo) fr ch -> fifo_head c = Z.of_nat i.
Proof. intros HR. apply (r_fifo _ _ _ _ HR). Qed.

Lemma drop_head_refines c t i fifo fr ch f : rep c (i :: fifo) fr ch ->
  t_pending t = pending_of (entries c) (i :: fifo) ->
  scalars c = (t_cap t, t_timeout t, t_policy t, t_emitted t, t_stats t) ->
  exists c' ch', evict_as_unanswered c (fifo_head c) f = Ret c' /\
    rep c' fifo (i :: fr) ch' /\
    t_pending (spec_drop_head f t) = pending_of (entries c') fifo /\
    rel c' (spec_drop_head f t) /\ entries c' !! i <> None /\ length (entries c') = length (entries c).
Proof.
  intros HR Hq Hsc. rewrite (fifo_head_cons _ _ _ _ _ HR).
  destruct (rep_entry HR i) as [e He]; [left; left|].
  destruct (evict_spec c [] i fifo fr ch e f HR He) as (c' & -> & [ch' HR'] & Hp & Hcfg).
  exists c', ch'. rewrite (pending_cons _ _ _ e He) in Hq.
  unfold spec_drop_head. rewrite Hq. split; [done|]. split; [done|]. simpl.
  assert (pending_of (entries c) fifo = pending_of (entries c') fifo) as Hpe
    by (symmetry; by apply pending_same).
  split_and!; [done| | |].
  - split; [by exists fifo, (i :: fr), ch'|]. simpl. unfold cfg_of in Hcfg. simpl in Hcfg.
    rewrite map_app in Hcfg. simpl in Hcfg. unfold scalars in *. congruence.
  - destruct (same_lookup _ _ _ _ _ Hp He) as (e' & -> & _). done.
  - by apply (same_length pend_of).
Qed.

Lemma sub64_ok a b : time_ok a -> time_ok b -> sub64 a b = Ret (a - b).
Proof.
  unfold time_ok, sub64. intros Ha Hb.
  replace ((- 2 ^ 63 <=? a - b) && (a - b <? 2 ^ 63)) with true by lia. done.
Qed.

Lemma rel_pending_length c t : rel c t ->
  (length (t_pending t) <= length (entries c))%nat /\ count c = zlen (t_pending t) /\
  zlen (t_pending t) <= t_cap t /\ 1 <= t_cap t <= INT32_MAX.
Proof.
  intros [(fifo & fr & ch & HR & Hq) Hsc]. unfold scalars in Hsc. simplify_eq.
  rewrite Hq, (rep_pending_length _ _ _ _ HR). pose proof (rep_lengths HR).
  destruct (r_cap _ _ _ _ HR). rewrite (r_count _ _ _ _ HR). split_and!; lia.
Qed.

Lemma times_drop f t : times_ok t -> times_ok (spec_drop_head f t).
Proof.
  unfold times_ok, spec_drop_head. destruct (t_pending t) as [|p q] eqn:E; simpl;
    [by rewrite E|]. by intros [_ ?]%Forall_cons_iff.
Qed.

Lemma evict_loop_refines now budget fuel : forall c t n,
  rel c t -> times_ok t -> time_ok now -> (length (t_pending t) < fuel)%nat ->
  exists n' c', evict_loop fuel c now budget n = Ret (n', c') /\
    rel c' (spec_evict (Z.to_nat (budget - n)) now t).
Proof.
  induction fuel as [|fuel IH]; intros c t n Hrel Ht Hnow Hf; [lia|]. cbn [evict_loop].
  destruct (n <? budget) eqn:En; cbn [andb];
    [|replace (Z.to_nat (budget - n)) with 0%nat by lia; by exists n, c].
  replace (Z.to_nat (budget - n)) with (S (Z.to_nat (budget - (n + 1)))) by lia.
  cbn [spec_evict]. pose proof Hrel as [(fifo & fr & ch & HR & Hq) Hsc].
  destruct fifo as [|i fifo].
  { rewrite (fifo_head_nil _ _ _ HR), Hq. simpl. by exists n, c. }
  destruct (rep_entry HR i) as [e He]; [left; left|].
  rewrite (fifo_head_cons _ _ _ _ _ HR), nil_neq. cbn [negb].
  rewrite (ent_ok _ _ _ He). xbind. rewrite Hq, (pending_cons _ _ _ e He).
  pose proof Ht as Ht0. unfold times_ok in Ht0. rewrite Hq, (pending_cons _ _ _ e He) in Ht0.
  apply Forall_cons_iff in Ht0 as [Hte _]. simpl in Hte.
  rewrite sub64_ok by done. xbind. change (p_time (pend_of e)) with (e_observed_time e).
  replace (t_timeout t) with (query_timeout_nanos c) by (unfold scalars in Hsc; congruence).
  destruct (_ <=? query_timeout_nanos c); [by exists n, c|].
  destruct (drop_head_refines c t i fifo fr ch inc_unanswered HR Hq Hsc)
    as (c' & ch' & Hev & _ & _ & Hrel' & _).
  rewrite <- (fifo_head_cons _ _ _ _ _ HR), Hev. xbind.
  apply (IH c' (spec_drop_head inc_unanswered t) (n + 1)); [done|by apply times_drop|done|].
  unfold spec_drop_head. rewrite Hq, (pending_cons _ _ _ e He) in *. simpl in *. lia.
Qed.

Lemma evict_expired_refines c t now budget : rel c t -> times_ok t -> time_ok now ->
  exists n' c', evict_expired c now budget = Ret (n', c') /\
    rel c' (spec_evict (Z.to_nat budget) now t).
Proof.
  intros Hrel Ht Hnow. unfold evict_expired.
  pose proof (evict_loop_refines now budget (walk_fuel c) c t 0 Hrel Ht Hnow) as H.
  rewrite Z.sub_0_r in H. apply H.
  apply rel_pending_length in Hrel as [? _]. unfold walk_fuel. lia.
Qed.

Lemma spec_evict_cap n now : forall t, t_cap (spec_evict n now t) = t_cap t /\
  t_timeout (spec_evict n now t) = t_timeout t /\ t_policy (spec_evict n now t) = t_policy t.
Proof.
  induction n as [|n IH]; intros t; simpl; [done|].
  destruct (t_pending t) as [|p q] eqn:E; [done|]. case_match; [done|].
  destruct (IH (spec_drop_head inc_unanswered t)) as (-> & -> & ->).
  unfold spec_drop_head. by rewrite E.
Qed.

Lemma times_evict n now : forall t, times_ok t -> times_ok (spec_evict n now t).
Proof.
  induction n as [|n IH]; intros t Ht; simpl; [done|].
  destruct (t_pending t) as [|p q] eqn:E; [done|]. case_match; [done|]. by apply IH, times_drop.
Qed.

Lemma spec_evict_enough now : forall n t, (length (t_pending t) <= n)%nat ->
  spec_evict n now t = spec_evict (length (t_pending t)) now t.
Proof.
  intros n t. remember (length (t_pending t)) as m eqn:Hm. revert t n Hm.
  induction m as [|m IH]; intros t n Hm Hn.
  - destruct n as [|n]; [done|]. simpl. by destruct (t_pending t).
  - destruct n as [|n]; [lia|]. simpl. destruct (t_pending t) as [|p q] eqn:E; [done|].
    case_match; [done|]. apply IH; [|lia]. unfold spec_drop_head. rewrite E. simpl.
    simpl in Hm. lia.
Qed.

(** The lookup of the code and that of the promise agree. *)
Lemma find_refines c t fifo fr ch key : rep c fifo fr ch ->
  t_pending t = pending_of (entries c) fifo ->
  match list_find (has_key key) (t_pending t) with
  | Some (n, p) => exists a i b e, fifo = a ++ i :: b /\ n = length a /\
      entries c !! i = Some e /\ p = pend_of e /\
      entry_find c key (key_hash key) = Ret (Z.of_nat i) /\ key_equal (e_key e) key = true
  | None => entry_find c key (key_hash key) = Ret CF_DNS_NIL /\
      forall i e, i ∈ fifo -> entries c !! i = Some e -> key_equal (e_key e) key = false
  end.
Proof.
  intros HR Hq. rewrite Hq.
  destruct (entry_find_spec HR key) as [(i & e & Hi & He & Hk & Hf)|[Hno Hf]].
  - pose proof Hi as Hi'. apply list_elem_of_split in Hi' as (a & b & ->).
    rewrite pending_app, (pending_cons _ _ _ e He).
    pose proof (rep_nodup HR) as Hnd. apply list.NoDup_app in Hnd as (Hnd & _ & _).
    rewrite list_find_app_r.
    + cbn [list_find]. rewrite decide_True by done. simpl. exists a, i, b, e.
      rewrite pending_length; [done|].
      intros j Hj. apply (rep_entry HR). set_solver.
    + apply list_find_None, list.Forall_forall. intros p Hp Hkp.
      apply list_elem_of_omap in Hp as (j & Hj & Hjp).
      destruct (entries c !! j) as [ej|] eqn:Hej; [|done]. injection Hjp as <-.
      unfold has_key in Hkp. simpl in Hkp.
      assert (j = i); [|subst j].
      { eapply (r_keys _ _ _ _ HR j i ej e); [set_solver|done|done|done|].
        apply key_equal_sig. apply key_equal_sig in Hk, Hkp. congruence. }
      apply list.NoDup_app in Hnd as (_ & Hai & _). apply (Hai i Hj). left.
  - assert (list_find (has_key key) (pending_of (entries c) fifo) = None) as ->.
    { apply list_find_None, list.Forall_forall. intros p Hp Hkp.
      apply list_elem_of_omap in Hp as (j & Hj & Hjp).
      destruct (entries c !! j) as [ej|] eqn:Hej; [|done]. injection Hjp as <-.
      unfold has_key in Hkp. simpl in Hkp. rewrite (Hno j ej) in Hkp; done. }
    done.
Qed.

(** What an array update at [i] leaves of the other slots. *)
Lemma pending_alter_other f l i fifo : i ∉ fifo -> pending_of (alter f i l) fifo = pending_of l fifo.
Proof.
  unfold pending_of. induction fifo as [|j fifo IH]; intros Hi; [done|].
  apply not_elem_of_cons in Hi as [Hne Hi]. cbn [omap list_omap].
  rewrite list_lookup_alter_ne by done. simpl.
  destruct (pend_of <$> l !! j); [f_equal|]; by apply IH.
Qed.

Lemma same_pend_key l l' j e e' : same pend_of l l' -> l !! j = Some e -> l' !! j = Some e' ->
  e_key e' = e_key e.
Proof. intros H He He'. specialize (H j). rewrite He, He' in H. by injection H. Qed.

(** The invariant survives a reordering of the FIFO and equal keys. *)
Lemma rep_transport c c' fifo fifo' fr ch : rep c fifo fr ch -> fifo' ≡ₚ fifo ->
  same e_hnext (entries c) (entries c') ->
  dseg (entries c') CF_DNS_NIL (fifo_head c') fifo' CF_DNS_NIL (fifo_tail c') ->
  (capacity c', bucket_mask c', buckets c', free_head c', count c') =
    (capacity c, bucket_mask c, buckets c, free_head c, count c) ->
  (forall j e', entries c' !! j = Some e' -> exists e, entries c !! j = Some e /\
     key_sig (e_key e') = key_sig (e_key e)) ->
  rep c' fifo' fr ch.
Proof.
  intros HR Hperm Hh Hd [= Hcap Hm Hb Hf Hc] Hkeys.
  pose proof (same_length _ _ _ Hh) as Hlen. split.
  - rewrite Hlen, Hcap. apply (r_cap _ _ _ _ HR).
  - rewrite Hm, Hb. apply (r_mask _ _ _ _ HR).
  - rewrite Hlen, Hperm. apply (r_perm _ _ _ _ HR).
  - rewrite Hc, Hperm. apply (r_count _ _ _ _ HR).
  - exact Hd.
  - rewrite Hf. eapply sseg_same; [exact Hh|apply (r_free _ _ _ _ HR)].
  - intros b h. rewrite Hb. intros Hbh. eapply sseg_same; [exact Hh|by apply (r_chain _ _ _ _ HR)].
  - apply (r_chain_nodup _ _ _ _ HR).
  - intros b j. rewrite Hperm, (r_chain_mem _ _ _ _ HR). unfold bucket_of. rewrite Hm.
    split; (intros [Hj (e & He & Hbe)]; split; [done|]).
    + destruct (same_lookup _ _ _ _ _ Hh He) as (e' & He' & _). exists e'. split; [done|].
      destruct (Hkeys j e' He') as (e0 & He0 & Hs). rewrite (key_hash_sig _ _ Hs). congruence.
    + destruct (Hkeys j e He) as (e0 & He0 & Hs). exists e0. split; [done|].
      by rewrite <- (key_hash_sig _ _ Hs).
  - intros j j' e e' Hj Hj' He He' Hk. rewrite Hperm in Hj, Hj'.
    destruct (Hkeys j e He) as (f & Hfe & Hs). destruct (Hkeys j' e' He') as (f' & Hfe' & Hs').
    apply (r_keys _ _ _ _ HR j j' f f'); try done. apply key_equal_sig.
    apply key_equal_sig in Hk. congruence.
Qed.

Lemma replace_rep c a i b fr ch e key time ctx : rep c (a ++ i :: b) fr ch ->
  entries c !! i = Some e -> key_equal (e_key e) key = true ->
  exists c', replace_pending c (Z.of_nat i) key time ctx = Ret c' /\
    rep c' (a ++ b ++ [i]) fr ch /\
    pending_of (entries c') (a ++ b ++ [i]) =
      pending_of (entries c) a ++ pending_of (entries c) b ++
      [{| p_key := key; p_time := time; p_ctx := ctx |}] /\
    cfg_of c' = cfg_of (emit (add_stats 0 0 0 1 0 0) (unanswered (e_query_ctx e) (e_key e)) c).
Proof.
  intros HR He Hk. unfold replace_pending. rewrite (ent_ok _ _ _ He). xbind.
  rewrite upd_ok by (by exists e). xbind. cbn [emit set_entries entries].
  set (l1 := alter (with_key key time ctx) i (entries c)).
  set (c1 := set_entries _ (emit _ _ c)).
  assert (entries c1 = l1) as Hl1 by done.
  pose proof (rep_nodup HR) as Hnd. apply list.NoDup_app in Hnd as (Hnd & Hdisj & _).
  assert (i ∉ a ++ b) as Hiab by (intros [_ ?]%(elem_of_remove i i a b Hnd); done).
  assert (l1 !! i = Some (with_key key time ctx e)) as Hi1
    by (unfold l1; by rewrite list_lookup_alter_eq, He).
  destruct (fifo_unlink_spec c1 a i b Hnd) as (c2 & -> & Hd2 & Hh2 & Hp2 & Hcfg2).
  { eapply dseg_same; [|apply (r_fifo _ _ _ _ HR)]. by apply same_alter. }
  xbind. injection Hcfg2 as Hcap2 Hnb2 Hmask2 Hto2 Hpol2 Hem2 Hst2 Hbk2 Hfh2 Hct2.
  destruct (fifo_append_spec c2 (a ++ b) i) as (c3 & -> & Hd3 & Hh3 & Hp3 & Hcfg3); [done| | |done|].
  { apply (list.NoDup_app (A:=nat)) in Hnd as (H1 & H2 & [H3 H4]%list.NoDup_cons).
    apply list.NoDup_app. split_and!; [done| |done]. intros z Hz Hzb. by apply (H2 z Hz); right. }
  { destruct (same_lookup _ _ _ _ _ Hh2 Hi1) as (e2 & ? & _). by exists e2. }
  injection Hcfg3 as Hcap3 Hnb3 Hmask3 Hto3 Hpol3 Hem3 Hst3 Hbk3 Hfh3 Hct3.
  exists c3. split; [done|].
  assert (same e_hnext (entries c) (entries c3)) as Hh.
  { eapply same_trans; [|eapply same_trans; [exact Hh2|exact Hh3]]. by apply same_alter. }
  assert (same pend_of l1 (entries c3)) as Hp by (eapply same_trans; [exact Hp2|exact Hp3]).
  assert (forall j ej, entries c3 !! j = Some ej -> exists e0, entries c !! j = Some e0 /\
    key_sig (e_key ej) = key_sig (e_key e0)) as Hkeys.
  { intros j ej Hej. destruct (same_lookup _ _ _ _ _ (same_sym _ _ _ Hp) Hej) as (f1 & Hf1 & Hq1).
    injection Hq1 as Hq1 _ _. unfold l1 in Hf1. destruct (decide (i = j)) as [<-|Hne].
    - rewrite list_lookup_alter_eq, He in Hf1. injection Hf1 as <-. exists e. split; [done|].
      rewrite <- Hq1. symmetry. by apply key_equal_sig.
    - rewrite list_lookup_alter_ne in Hf1 by done. exists f1. by rewrite Hq1. }
  split; [|split].
  - apply (rep_transport c c3 (a ++ i :: b)); [done| |done| | |exact Hkeys].
    + apply Permutation_app_head. symmetry. apply Permutation_cons_append.
    + by rewrite app_assoc.
    + simpl in *. congruence.
  - rewrite (pending_same l1 (entries c3)) by done. rewrite !pending_app.
    rewrite (pending_cons _ _ _ _ Hi1). unfold l1.
    by rewrite !pending_alter_other by set_solver.
  - unfold cfg_of in *. simpl. congruence.
Qed.

(** The invariant after the insertion: [c'] is the table with the new slot
    linked everywhere. *)
Lemma insert_rep_inv c c' fifo i fr ch bn v key e :
  rep c fifo (i :: fr) ch -> entries c !! i = Some e ->
  (forall j e, j ∈ fifo -> entries c !! j = Some e -> key_equal (e_key e) key = false) ->
  bucket_of c (key_hash key) = Z.of_nat bn -> buckets c !! bn = Some v ->
  (forall j, j <> i -> e_hnext <$> entries c' !! j = e_hnext <$> entries c !! j /\
     pend_of <$> entries c' !! j = pend_of <$> entries c !! j) ->
  (exists e', entries c' !! i = Some e' /\ e_hnext e' = v /\ e_key e' = key) ->
  dseg (entries c') CF_DNS_NIL (fifo_head c') (fifo ++ [i]) CF_DNS_NIL (fifo_tail c') ->
  length (entries c') = length (entries c) ->
  (capacity c', bucket_mask c', buckets c', free_head c', count c') =
    (capacity c, bucket_mask c, <[bn := Z.of_nat i]> (buckets c), e_hnext e, u64 (count c + 1)) ->
  rep c' (fifo ++ [i]) fr (ch_set ch bn (i :: ch bn)).
Proof.
  intros HR He Hno Hbn Hv Hother (e' & He' & Hhn & Hke) Hd Hlen [= Hcap Hm Hb Hf Hc].
  pose proof (rep_nodup HR) as Hnd. apply list.NoDup_app in Hnd as (Hnd & Hdisj & Hndr).
  apply list.NoDup_cons in Hndr as [Hir Hndr].
  assert (i ∉ fifo) as Hif by (intros Hx; apply (Hdisj i Hx); left).
  assert (forall b j, j ∈ ch b -> j ∈ fifo /\ j <> i) as Hchf.
  { intros b j Hj. apply (r_chain_mem _ _ _ _ HR) in Hj as [Hj _]. split; [done|]. by intros ->. }
  assert (forall j ej, j ∈ fifo -> entries c' !! j = Some ej -> exists e0,
    entries c !! j = Some e0 /\ e_key ej = e_key e0) as Hkeys.
  { intros j ej Hj Hej. destruct (Hother j) as [_ Hp]; [by intros ->|]. rewrite Hej in Hp.
    destruct (entries c !! j) as [e0|]; [|done]. injection Hp as Hk _ _. by exists e0. }
  split.
  - rewrite Hlen, Hcap. apply (r_cap _ _ _ _ HR).
  - rewrite Hm, Hb, length_insert. apply (r_mask _ _ _ _ HR).
  - rewrite Hlen, <- (r_perm _ _ _ _ HR). by rewrite <- app_assoc.
  - pose proof (rep_lengths HR) as Hls. destruct (r_cap _ _ _ _ HR). unfold INT32_MAX in *.
    rewrite Hc, (r_count _ _ _ _ HR), length_app. simpl in *. rewrite u64_id; lia.
  - exact Hd.
  - rewrite Hf. destruct (r_free _ _ _ _ HR) as (_ & e0 & He0 & Hfr).
    replace e0 with e in Hfr by congruence. eapply sseg_agree; [|exact Hfr].
    intros j Hj. apply Hother. by intros ->.
  - intros b h. rewrite Hb. unfold ch_set. case_decide as Hbb.
    + subst b. rewrite list_lookup_insert_eq by (by eapply lookup_lt_Some). intros [= <-].
      split; [done|]. exists e'. split; [done|]. rewrite Hhn.
      eapply sseg_agree; [|by apply (r_chain _ _ _ _ HR)]. intros j Hj. apply Hother.
      by apply (Hchf bn).
    + rewrite list_lookup_insert_ne by done. intros Hh.
      eapply sseg_agree; [|by apply (r_chain _ _ _ _ HR)]. intros j Hj. apply Hother.
      by apply (Hchf b).
  - intros b. unfold ch_set. case_decide; [|apply (r_chain_nodup _ _ _ _ HR)].
    apply list.NoDup_cons. split; [|apply (r_chain_nodup _ _ _ _ HR)].
    by intros [_ ?]%Hchf.
  - intros b j. unfold bucket_of. rewrite Hm. fold (bucket_of c). unfold ch_set.
    destruct (decide (j = i)) as [->|Hji].
    + split.
      * case_decide as Hbb; [|by intros [_ ?]%Hchf]. intros _. subst b. split; [set_solver|].
        exists e'. by rewrite Hke.
      * intros (_ & e2 & He2 & Hb2). replace e2 with e' in Hb2 by congruence.
        rewrite Hke in Hb2. change (bucket_of c (key_hash key) = Z.of_nat b) in Hb2.
        rewrite decide_True by lia. left.
    + transitivity (j ∈ ch b); [case_decide; [subst b; set_solver|done]|].
      rewrite (r_chain_mem _ _ _ _ HR), elem_of_app, list_elem_of_singleton.
      destruct (Hother j Hji) as [_ Hpj]. split.
      * intros (Hj & ej & Hej & Hbj). split; [by left|]. rewrite Hej in Hpj. simpl in Hpj.
        destruct (entries c' !! j) as [e2|]; [|done]. injection Hpj as Hk _ _. exists e2.
        by rewrite Hk.
      * intros ([Hj|?] & ej & Hej & Hbj); [|done]. split; [done|].
        destruct (Hkeys j ej Hj Hej) as (e0 & He0 & Hk). exists e0. by rewrite <- Hk.
  - intros j j' ej ej' Hj Hj' Hej Hej' Hk.
    apply elem_of_app in Hj as [Hj|Hj], Hj' as [Hj'|Hj'];
      rewrite ?list_elem_of_singleton in *; subst.
    + destruct (Hkeys j ej Hj Hej) as (f & Hfe & Hs).
      destruct (Hkeys j' ej' Hj' Hej') as (f' & Hfe' & Hs').
      apply (r_keys _ _ _ _ HR j j' f f'); try done. by rewrite <- Hs, <- Hs'.
    + destruct (Hkeys j ej Hj Hej) as (f & Hfe & Hs). replace ej' with e' in Hk by congruence.
      rewrite Hs in Hk. rewrite (Hno j f Hj Hfe) in Hk. done.
    + destruct (Hkeys j' ej' Hj' Hej') as (f & Hfe & Hs). replace ej with e' in Hk by congruence.
      apply key_equal_sig in Hk. assert (key_equal (e_key f) (e_key e') = true) as Hk'
        by (apply key_equal_sig; congruence).
      rewrite (Hno j' f Hj' Hfe) in Hk'. done.
    + done.
Qed.

(** A new key takes the first free slot, at the head of its chain and as the
    newest of the FIFO. *)
Lemma insert_rep c fifo i fr ch key time ctx : rep c fifo (i :: fr) ch ->
  (forall j e, j ∈ fifo -> entries c !! j = Some e -> key_equal (e_key e) key = false) ->
  exists c', insert_fresh c key (key_hash key) time ctx = Ret c' /\
    (exists ch', rep c' (fifo ++ [i]) fr ch') /\
    pending_of (entries c') (fifo ++ [i]) =
      pending_of (entries c) fifo ++ [{| p_key := key; p_time := time; p_ctx := ctx |}] /\
    cfg_of c' = cfg_of c.
Proof.
  intros HR Hno. unfold insert_fresh.
  destruct (r_free _ _ _ _ HR) as (Hfh & e & He & Hfr). rewrite Hfh, (ent_ok _ _ _ He). xbind.
  rewrite upd_ok by (by exists e). xbind.
  destruct (bkt_ok HR (key_hash key)) as (bn & v & Hbn & Hv & Hbk).
  set (l1 := alter (with_key key time ctx) i (entries c)).
  set (c1 := set_entries _ (set_heads _ _ _ _ c)).
  change (bkt c1 (bucket_of c1 (key_hash key))) with (bkt c (bucket_of c (key_hash key))).
  rewrite Hbk. xbind.
  assert (l1 !! i = Some (with_key key time ctx e)) as Hi1
    by (unfold l1; by rewrite list_lookup_alter_eq, He).
  rewrite upd_ok by (by exists (with_key key time ctx e)). xbind.
  set (l2 := alter (with_hnext v) i l1). set (c2 := set_entries _ c1).
  change (bucket_of c2 (key_hash key)) with (bucket_of c (key_hash key)). rewrite Hbn.
  pose proof (lookup_lt_Some _ _ _ Hv) as Hbl. rewrite bkt_set_ok by done. xbind.
  set (c3 := set_buckets _ c2).
  pose proof (rep_nodup HR) as Hnd. apply list.NoDup_app in Hnd as (Hnd & Hdisj & Hndr).
  assert (i ∉ fifo) as Hif by (intros Hx; apply (Hdisj i Hx); left).
  assert (same fifo_links (entries c) l2) as Hl2.
  { eapply same_trans; [|apply same_f_hnext]. by apply same_alter. }
  assert (forall j, j <> i -> l2 !! j = entries c !! j) as Hother.
  { intros j Hj. unfold l2, l1. by rewrite !list_lookup_alter_ne by done. }
  destruct (fifo_append_spec c3 fifo i) as (c4 & -> & Hd4 & Hh4 & Hp4 & Hcfg4); [done|done| | |].
  { exists (with_hnext v (with_key key time ctx e)). change (entries c3) with l2. unfold l2.
    by rewrite list_lookup_alter_eq, Hi1. }
  { eapply dseg_same; [exact Hl2|apply (r_fifo _ _ _ _ HR)]. }
  xbind. injection Hcfg4 as Hcap4 Hnb4 Hmask4 Hto4 Hpol4 Hem4 Hst4 Hbk4 Hfh4 Hct4.
  assert (same e_hnext l2 (entries c4)) as Hh by exact Hh4.
  assert (same pend_of l2 (entries c4)) as Hp by exact Hp4.
  assert (l2 !! i = Some (with_hnext v (with_key key time ctx e))) as Hi2
    by (unfold l2; by rewrite list_lookup_alter_eq, Hi1).
  assert (pending_of l2 fifo = pending_of (entries c) fifo) as Hpf
    by (unfold l2, l1; by rewrite !pending_alter_other).
  eexists. split; [reflexivity|]. split; [|split]; simpl.
  - exists (ch_set ch bn (i :: ch bn)).
    apply (insert_rep_inv c _ fifo i fr ch bn v key e HR He Hno Hbn Hv); simpl.
    + intros j Hj. by rewrite (Hh j), (Hp j), (Hother j Hj).
    + destruct (same_lookup _ _ _ _ _ Hh Hi2) as (e4 & He4 & Hhn). exists e4.
      split_and!; [done|done|]. by rewrite (same_pend_key _ _ _ _ _ Hp Hi2 He4).
    + exact Hd4.
    + rewrite (same_length _ _ _ Hh). unfold l2, l1. by rewrite !length_alter.
    + simpl in *. congruence.
  - rewrite (pending_same l2 _ _ Hp), pending_app, Hpf. by rewrite (pending_cons _ _ _ _ Hi2).
  - unfold cfg_of. simpl in *. congruence.
Qed.

(** ** The operations refine the promise *)

Lemma delete_middle {A} (a : list A) x b : delete (length a) (a ++ x :: b) = a ++ b.
Proof. by rewrite delete_middle. Qed.

Lemma insert_refines c t fifo i fr ch key time ctx : rep c fifo (i :: fr) ch ->
  t_pending t = pending_of (entries c) fifo ->
  scalars c = (t_cap t, t_timeout t, t_policy t, t_emitted t, t_stats t) ->
  list_find (has_key key) (t_pending t) = None ->
  exists c', insert_fresh c key (key_hash key) time ctx = Ret c' /\
    rel c' (t_set (t_pending t ++ [{| p_key := key; p_time := time; p_ctx := ctx |}]) t).
Proof.
  intros HR Hq Hsc Hno.
  pose proof (find_refines c t fifo _ ch key HR Hq) as Hf. rewrite Hno in Hf. destruct Hf as [_ Hf].
  destruct (insert_rep c fifo i fr ch key time ctx HR Hf) as (c' & -> & [ch' HR'] & Hp & Hcfg).
  exists c'. split; [done|]. split.
  - exists (fifo ++ [i]), fr, ch'. split; [done|]. simpl. by rewrite Hq, Hp.
  - unfold scalars, cfg_of in *. simpl. congruence.
Qed.

Lemma list_find_tail key p q : list_find (has_key key) (p :: q) = None ->
  list_find (has_key key) q = None.
Proof. rewrite !list_find_None. by intros [_ ?]%Forall_cons_iff. Qed.

Lemma on_query_refines c t key time ctx : rel c t -> times_ok t -> time_ok time ->
  exists c', on_query c key time ctx = Ret c' /\ rel c' (spec_query key time ctx t).
Proof.
  intros Hrel0 Ht0 Htime. unfold on_query, spec_query.
  destruct (evict_expired_refines c t time CF_DNS_AMORTIZED_EVICT_MAX Hrel0 Ht0 Htime)
    as (n & c1 & -> & Hrel). xbind.
  set (t1 := spec_evict _ time t) in *. clearbody t1. clear c t Hrel0 Ht0.
  pose proof Hrel as [(fifo & fr & ch & HR & Hq) Hsc].
  pose proof (find_refines c1 t1 fifo fr ch key HR Hq) as Hf.
  destruct (list_find (has_key key) (t_pending t1)) as [[m p]|] eqn:El.
  - destruct Hf as (a & i & b & e & -> & -> & He & -> & -> & Hk). xbind.
    rewrite nil_neq. cbn [negb].
    destruct (replace_rep c1 a i b fr ch e key time ctx HR He Hk) as (c' & -> & HR' & Hp & Hcfg).
    exists c'. split; [done|]. split.
    + exists (a ++ b ++ [i]), fr, ch. split; [done|].
      rewrite Hp. cbn [t_set t_pending]. rewrite Hq, pending_app, (pending_cons _ _ _ e He).
      rewrite <- (pending_length (entries c1) a), delete_middle by
        (intros j Hj; apply (rep_entry HR); set_solver). by rewrite <- app_assoc.
    + unfold scalars, cfg_of in *. simpl in *. rewrite map_app in Hcfg. simpl in Hcfg. congruence.
  - destruct Hf as [-> Hno]. xbind. change (negb (CF_DNS_NIL =? CF_DNS_NIL)) with false. cbv iota.
    pose proof (rep_lengths HR) as Hls. destruct (r_cap _ _ _ _ HR) as [Hcap Hcap1].
    pose proof (rep_pending_length _ _ _ _ HR) as Hpl. rewrite <- Hq in Hpl.
    assert (t_cap t1 = capacity c1 /\ t_policy t1 = on_table_full c1) as [Hc Hpol]
      by (unfold scalars in Hsc; by simplify_eq).
    destruct fr as [|i fr].
    + rewrite (r_free _ _ _ _ HR). change (CF_DNS_NIL =? CF_DNS_NIL) with true. cbv iota.
      simpl in Hls. replace (zlen (t_pending t1) <? t_cap t1) with false by lia.
      rewrite Hpol. destruct fifo as [|i fifo]; [simpl in Hls; unfold INT32_MAX in *; lia|].
      rewrite (fifo_head_cons _ _ _ _ _ HR), nil_neq. cbn [negb]. rewrite andb_true_r.
      destruct (on_table_full c1 =? CF_DNS_ON_FULL_DROP_OLDEST).
      * destruct (drop_head_refines c1 t1 i fifo [] ch inc_drop HR Hq Hsc)
          as (c2 & ch2 & Hev & HR2 & Hq2 & [_ Hsc2] & _).
        rewrite <- (fifo_head_cons _ _ _ _ _ HR), Hev. xbind.
        apply (insert_refines c2 _ fifo i [] ch2); [done|done|done|].
        unfold spec_drop_head. destruct (t_pending t1); [done|]. by eapply list_find_tail.
      * eexists. split; [reflexivity|]. split; [|unfold scalars in *; simpl; rewrite map_app; simpl; congruence].
        exists (i :: fifo), [], ch. split; [by apply rep_emit|done].
    + destruct (r_free _ _ _ _ HR) as [Hfh _]. rewrite Hfh, nil_neq.
      simpl in Hls. replace (zlen (t_pending t1) <? t_cap t1) with true by lia.
      by apply (insert_refines c1 t1 fifo i fr ch).
Qed.

Lemma on_response_refines c t key time ctx : rel c t -> times_ok t -> time_ok time ->
  exists c', on_response c key time ctx = Ret c' /\ rel c' (spec_response key time ctx t).
Proof.
  intros Hrel Ht Htime. unfold on_response, spec_response.
  pose proof Hrel as [(fifo & fr & ch & HR & Hq) Hsc].
  pose proof (find_refines c t fifo fr ch key HR Hq) as Hf.
  destruct (list_find (has_key key) (t_pending t)) as [[m p]|] eqn:El.
  - destruct Hf as (a & i & b & e & -> & -> & He & -> & -> & Hk). xbind. rewrite nil_neq.
    rewrite (ent_ok _ _ _ He). xbind.
    assert (time_ok (e_observed_time e)).
    { unfold times_ok in Ht. rewrite Hq, pending_app, (pending_cons _ _ _ e He) in Ht.
      apply Forall_app in Ht as [_ [Hte _]%Forall_cons_iff]. done. }
    rewrite sub64_ok by done. xbind.
    destruct (entry_release_spec c a i b fr ch HR) as (c' & -> & [ch' HR'] & Hp & Hcfg). xbind.
    assert (query_timeout_nanos c = t_timeout t) as Hto by (unfold scalars in Hsc; by simplify_eq).
    eexists. split; [reflexivity|]. split.
    + exists (a ++ b), (i :: fr), ch'. split; [by apply rep_emit|].
      cbn [emit entries t_emit t_set t_pending]. rewrite (pending_same _ _ _ Hp), Hq.
      rewrite !pending_app, (pending_cons _ _ _ e He).
      rewrite <- (pending_length (entries c) a), delete_middle by
        (intros j Hj; apply (rep_entry HR); set_solver). done.
    + unfold observed, rtt_ok. rewrite <- Hto. simpl.
      unfold scalars, cfg_of in *. simpl in *. rewrite map_app. simpl. congruence.
  - destruct Hf as [-> _]. xbind. change (CF_DNS_NIL =? CF_DNS_NIL) with true. cbv iota.
    eexists. split; [reflexivity|]. split; [|unfold scalars, unmatched in *; simpl; rewrite map_app; simpl; congruence].
    exists fifo, fr, ch. split; [by apply rep_emit|done].
Qed.

Lemma on_tick_refines c t now : rel c t -> times_ok t -> time_ok now ->
  exists c', cf_dns_correlator_tick (Some c) now = Ret (Some c') /\ rel c' (spec_tick now t).
Proof.
  intros Hrel Ht Hnow. unfold cf_dns_correlator_tick.
  destruct (evict_expired_refines c t now SIZE_MAX Hrel Ht Hnow) as (n & c1 & -> & Hrel1). xbind.
  exists c1. split; [done|]. unfold spec_tick. rewrite <- (spec_evict_enough now (Z.to_nat SIZE_MAX));
    [done|]. apply rel_pending_length in Hrel as (_ & _ & ? & ?). unfold INT32_MAX, SIZE_MAX in *. lia.
Qed.

Lemma drain_refines fuel : forall c t, rel c t -> (length (t_pending t) < fuel)%nat ->
  exists c', drain_loop fuel c = Ret c' /\ rel c' (spec_drain (length (t_pending t)) t).
Proof.
  induction fuel as [|fuel IH]; intros c t Hrel Hf; [lia|]. cbn [drain_loop].
  pose proof Hrel as [(fifo & fr & ch & HR & Hq) Hsc]. destruct fifo as [|i fifo].
  - rewrite (fifo_head_nil _ _ _ HR), Hq. by exists c.
  - destruct (drop_head_refines c t i fifo fr ch inc_unanswered HR Hq Hsc)
      as (c' & ch' & Hev & _ & _ & Hrel' & _).
    rewrite Hev, (fifo_head_cons _ _ _ _ _ HR), nil_neq. cbn [negb]. xbind.
    destruct (rep_entry HR i) as [e He]; [left; left|].
    assert (t_pending t = pend_of e :: pending_of (entries c) fifo) as Hq'
      by (by rewrite Hq, (pending_cons _ _ _ e He)).
    destruct (IH c' _ Hrel') as (c2 & -> & Hrel2);
      [unfold spec_drop_head; rewrite Hq' in *; simpl in *; lia|].
    exists c2. split; [done|]. revert Hrel2. rewrite Hq'. simpl.
    unfold spec_drop_head at 1. by rewrite Hq'.
Qed.

(** ** Construction *)

Lemma pow2_loop_spec n fuel : forall j, 0 <= j <= 31 -> n <= 2 ^ 31 -> 31 - j < Z.of_nat fuel ->
  exists m, pow2_loop fuel (2 ^ j) n = Ret (2 ^ m) /\ n <= 2 ^ m /\ j <= m <= 31.
Proof.
  induction fuel as [|fuel IH]; intros j Hj Hn Hf; [lia|]. cbn [pow2_loop].
  destruct (2 ^ j <? n) eqn:E; [|exists j; split_and!; [done|lia|lia|lia]].
  assert (j < 31) as Hj31.
  { destruct (Z.eq_dec j 31) as [->|]; lia. }
  assert (u64 (Z.shiftl (2 ^ j) 1) = 2 ^ (j + 1)) as ->.
  { rewrite Z.shiftl_mul_pow2, Z.pow_1_r, Z.pow_add_r, Z.pow_1_r by lia. apply u64_id.
    assert (2 ^ j <= 2 ^ 31) by (apply Z.pow_le_mono_r; lia).
    assert (0 < 2 ^ j) by (apply Z.pow_pos_nonneg; lia). lia. }
  destruct (IH (j + 1)) as (m & -> & ? & ?); [lia|lia|lia|]. exists m. split_and!; [done|done|lia|lia].
Qed.

(** The bucket count: a power of two, at least the capacity. *)
Lemma next_pow2_spec n : 1 <= n <= INT32_MAX -> exists m, next_pow2 n = Ret (2 ^ m) /\
  n <= 2 ^ m /\ 0 <= m <= 31.
Proof. intros Hn. apply (pow2_loop_spec n 65 0); unfold INT32_MAX in *; lia. Qed.

Lemma thread_free_lookup cap mem : forall i j,
  thread_free i cap mem !! j =
    with_hnext (if i + Z.of_nat j + 1 <? cap then i + Z.of_nat j + 1 else CF_DNS_NIL) <$> mem !! j.
Proof.
  induction mem as [|e mem IH]; intros i j; [done|]. destruct j as [|j]; cbn [thread_free lookup list_lookup].
  - simpl. by replace (i + Z.of_nat 0 + 1) with (i + 1) by lia.
  - rewrite IH. by replace (i + 1 + Z.of_nat j + 1) with (i + Z.of_nat (S j) + 1) by lia.
Qed.

Lemma thread_free_sseg mem n : length mem = n -> forall m k, (m + k = n)%nat ->
  sseg (thread_free 0 (Z.of_nat n) mem)
    (if Z.of_nat k <? Z.of_nat n then Z.of_nat k else CF_DNS_NIL) (seq k m) CF_DNS_NIL.
Proof.
  intros Hn. induction m as [|m IH]; intros k Hk.
  - simpl. by replace (Z.of_nat k <? Z.of_nat n) with false by lia.
  - cbn [seq sseg]. replace (Z.of_nat k <? Z.of_nat n) with true by lia. split; [done|].
    destruct (lookup_lt_is_Some_2 mem k) as [e He]; [lia|].
    eexists. rewrite thread_free_lookup, He. split; [reflexivity|]. cbn [with_hnext e_hnext].
    rewrite Z.add_0_l. replace (Z.of_nat k + 1) with (Z.of_nat (S k)) by lia. apply IH. lia.
Qed.

Definition config_ok (cfg : cf_dns_correlator_config_t) : Prop :=
  1 <= cc_capacity cfg <= INT32_MAX /\ 0 < cc_query_timeout_nanos cfg.

Definition table_new (cfg : cf_dns_correlator_config_t) : table :=
  {| t_cap := cc_capacity cfg; t_timeout := cc_query_timeout_nanos cfg;
     t_policy := cc_on_table_full cfg; t_pending := []; t_emitted := []; t_stats := stats_zero |}.

Lemma new_refines cfg mem : config_ok cfg -> cc_capacity cfg <= zlen mem ->
  exists c, cf_dns_correlator_new (Some cfg) true true mem = Ret (Some c) /\ rel c (table_new cfg).
Proof.
  intros [Hcap Hto] Hmem. unfold cf_dns_correlator_new. cbn [negb orb].
  replace (cc_capacity cfg =? 0) with false by lia.
  replace (cc_query_timeout_nanos cfg <=? 0) with false by lia. cbn [orb].
  replace (INT32_MAX <? cc_capacity cfg) with false by lia.
  destruct (next_pow2_spec _ Hcap) as (m & -> & Hm & Hm31). xbind. eexists. split; [reflexivity|].
  set (mem' := take (Z.to_nat (cc_capacity cfg)) mem).
  assert (length mem' = Z.to_nat (cc_capacity cfg)) as Hl by (unfold mem'; rewrite length_take; lia).
  assert (length (thread_free 0 (cc_capacity cfg) mem') = length mem') as Htl.
  { generalize 0. clear. induction mem' as [|e mem' IH]; intros i; simpl; [done|]. by rewrite IH. }
  assert (0 < 2 ^ m <= 2 ^ 31) as Hpm
    by (split; [apply Z.pow_pos_nonneg; lia|apply Z.pow_le_mono_r; lia]).
  split; [|done]. exists [], (seq 0 (length mem')), (fun _ => []). split; [|done].
  split; cbn [entries buckets capacity bucket_mask count fifo_head fifo_tail free_head].
  - rewrite Htl, Hl. lia.
  - rewrite length_replicate, u32_id by lia. lia.
  - by rewrite Htl.
  - done.
  - done.
  - pose proof (thread_free_sseg mem' _ eq_refl (length mem') 0 ltac:(lia)) as H.
    replace (Z.of_nat (length mem')) with (cc_capacity cfg) in H by lia.
    by replace (Z.of_nat 0 <? cc_capacity cfg) with true in H by lia.
  - intros b h Hh. apply lookup_replicate in Hh as [-> _]. done.
  - intros b. constructor.
  - intros b i. split; [by intros ?%not_elem_of_nil|by intros [?%not_elem_of_nil _]].
  - by intros i j e e' ?%not_elem_of_nil.
Qed.

(** ** Histories *)

Inductive op :=
| OpQuery (key : cf_dns_txn_key_t) (time ctx : Z)
| OpResponse (key : cf_dns_txn_key_t) (time ctx : Z)
| OpTick (now : Z).

Definition op_time (o : op) : Z :=
  match o with OpQuery _ t _ | OpResponse _ t _ | OpTick t => t end.

Definition run_op (c : option cf_dns_correlator) (o : op) : exec (option cf_dns_correlator) :=
  match o with
  | OpQuery key time ctx => cf_dns_correlator_on_query c (Some key) time ctx
  | OpResponse key time ctx => cf_dns_correlator_on_response c (Some key) time ctx
  | OpTick now => cf_dns_correlator_tick c now
  end.

Fixpoint run_ops (c : option cf_dns_correlator) (os : list op) : exec (option cf_dns_correlator) :=
  match os with
  | [] => Ret c
  | o :: os => c ← run_op c o; run_ops c os
  end.

Definition spec_op (t : table) (o : op) : table :=
  match o with
  | OpQuery key time ctx => spec_query key time ctx t
  | OpResponse key time ctx => spec_response key time ctx t
  | OpTick now => spec_tick now t
  end.

Definition spec_ops (t : table) (os : list op) : table := foldl spec_op t os.

Lemma times_op t o : times_ok t -> time_ok (op_time o) -> times_ok (spec_op t o).
Proof.
  assert (forall t n, times_ok t -> Forall (fun p => time_ok (p_time p)) (delete n (t_pending t)))
    as Hdel by (intros t' n Ht'; by apply Forall_delete).
  assert (forall q p, Forall (fun p => time_ok (p_time p)) q -> time_ok (p_time p) ->
    Forall (fun p => time_ok (p_time p)) (q ++ [p])) as Hsnoc
    by (intros q p Hq Hp; apply Forall_app; split; [done|by constructor]).
  destruct o as [key time ctx|key time ctx|now]; simpl; intros Ht Htm; unfold times_ok.
  - unfold spec_query. pose proof (times_evict (Z.to_nat CF_DNS_AMORTIZED_EVICT_MAX) time t Ht) as He.
    destruct (list_find _ _) as [[n p]|]; [by apply Hsnoc; [apply Hdel|]|].
    case_match; [by apply Hsnoc|]. case_match; [|done].
    apply Hsnoc; [by apply times_drop|done].
  - unfold spec_response. destruct (list_find _ _) as [[n p]|]; [by apply Hdel|done].
  - by apply times_evict.
Qed.

Lemma run_ops_refines os : forall c t, rel c t -> times_ok t ->
  Forall (fun o => time_ok (op_time o)) os ->
  exists c', run_ops (Some c) os = Ret (Some c') /\ rel c' (spec_ops t os) /\
    times_ok (spec_ops t os).
Proof.
  induction os as [|o os IH]; intros c t Hrel Ht Hos; [by exists c|].
  apply Forall_cons_iff in Hos as [Ho Hos]. cbn [run_ops spec_ops foldl].
  assert (exists c1, run_op (Some c) o = Ret (Some c1) /\ rel c1 (spec_op t o)) as (c1 & -> & Hrel1).
  { destruct o as [key time ctx|key time ctx|now]; simpl in *.
    - by destruct (on_query_refines c t key time ctx Hrel Ht Ho) as (c1 & -> & H1); exists c1.
    - by destruct (on_response_refines c t key time ctx Hrel Ht Ho) as (c1 & -> & H1); exists c1.
    - destruct (on_tick_refines c t now Hrel Ht Ho) as (c1 & H & H1). exists c1.
      by rewrite <- H. }
  xbind. apply IH; [done|by apply times_op|done].
Qed.

(** ** Who owns a context *)

Definition queries_in (os : list op) : list Z :=
  omap (fun o => match o with OpQuery _ _ ctx => Some ctx | _ => None end) os.
Definition responses_in (os : list op) : list Z :=
  omap (fun o => match o with OpResponse _ _ ctx => Some ctx | _ => None end) os.
Definition queries_out (es : list emission) : list Z := omap m_query es.
Definition responses_out (es : list emission) : list Z := omap m_response es.

(** The contexts handed back, then those still pending. *)
Definition accounted (t : table) : list Z :=
  queries_out (t_emitted t) ++ map p_ctx (t_pending t).

#[export] Instance outcome_eq_dec : EqDecision cf_dns_txn_outcome_t.
Proof. solve_decision. Defined.

Definition count_out (o : cf_dns_txn_outcome_t) (es : list emission) : Z :=
  zlen (filter (fun m => m_outcome m = o) es).

(** A call of [emit] is explained by the history: a matched pair of equal
    keys with its delta, an unanswered query, or an unmatched response. *)
Definition explained (timeout : Z) (os : list op) (m : emission) : Prop :=
  (exists p key time ctx, m = observed p time ctx timeout /\
     OpQuery (p_key p) (p_time p) (p_ctx p) ∈ os /\ OpResponse key time ctx ∈ os /\
     key_equal (p_key p) key = true) \/
  (exists key time ctx, m = unanswered ctx key /\ OpQuery key time ctx ∈ os) \/
  (exists key time ctx, m = unmatched ctx key /\ OpResponse key time ctx ∈ os).

(** The counters say what was emitted. *)
Definition counters_ok (t : table) : Prop :=
  let s := t_stats t in
  u64 (count_out CF_DNS_TXN_OBSERVED (t_emitted t)) = transactions_observed s /\
  u64 (count_out CF_DNS_TXN_UNMATCHED (t_emitted t)) = response_unmatched s /\
  u64 (count_out CF_DNS_TXN_UNANSWERED (t_emitted t)) =
    u64 (query_unanswered s + pending_evicted_collision s + pending_drop s).

Record ledger (os : list op) (t : table) : Prop := {
  l_queries : accounted t ≡ₚ queries_in os;
  l_responses : responses_out (t_emitted t) = responses_in os;
  l_pending : Forall (fun p => OpQuery (p_key p) (p_time p) (p_ctx p) ∈ os) (t_pending t);
  l_explained : Forall (explained (t_timeout t) os) (t_emitted t);
  l_counters : counters_ok t
}.

Lemma queries_out_snoc es m : queries_out (es ++ [m]) =
  queries_out es ++ match m_query m with Some c => [c] | None => [] end.
Proof. unfold queries_out. rewrite omap_app. simpl. by destruct (m_query m). Qed.

Lemma responses_out_snoc es m : responses_out (es ++ [m]) =
  responses_out es ++ match m_response m with Some c => [c] | None => [] end.
Proof. unfold responses_out. rewrite omap_app. simpl. by destruct (m_response m). Qed.

Lemma count_out_snoc o es m : count_out o (es ++ [m]) =
  count_out o es + (if decide (m_outcome m = o) then 1 else 0).
Proof.
  unfold count_out. rewrite list.filter_app, length_app. simpl.
  rewrite list.filter_cons. case_decide; simpl; lia.
Qed.

Lemma u64_add3 a b c x y z : u64 (u64 (a + x) + u64 (b + y) + u64 (c + z)) =
  u64 (a + b + c + (x + y + z)).
Proof.
  transitivity (u64 (a + x + u64 (b + y) + u64 (c + z)));
    [rewrite <- (Z.add_assoc (u64 _)), u64_add; f_equal; lia|].
  transitivity (u64 (u64 (b + y) + (a + x + u64 (c + z)))); [f_equal; lia|].
  rewrite u64_add. transitivity (u64 (u64 (c + z) + (a + x + (b + y)))); [f_equal; lia|].
  rewrite u64_add. f_equal. lia.
Qed.

(** The counters follow one emission of each outcome. *)
Lemma counters_unanswered t ctx key una col drp : una + col + drp = 1 -> counters_ok t ->
  counters_ok (t_emit (add_stats 0 una 0 col drp 0) (unanswered ctx key) t).
Proof.
  unfold counters_ok. intros H1 (Ho & Hm & Hu). cbn [t_emit t_emitted t_stats add_stats
    transactions_observed response_unmatched query_unanswered pending_evicted_collision pending_drop].
  rewrite !count_out_snoc, u64_add3, H1. simpl. rewrite !Z.add_0_r, <- Ho, <- Hm, !u64_u64.
  split_and!; [done|done|]. by rewrite <- u64_add, Hu, u64_add.
Qed.

Lemma counters_unmatched t ctx key : counters_ok t ->
  counters_ok (t_emit (add_stats 0 0 1 0 0 0) (unmatched ctx key) t).
Proof.
  unfold counters_ok. intros (Ho & Hm & Hu). cbn [t_emit t_emitted t_stats add_stats
    transactions_observed response_unmatched query_unanswered pending_evicted_collision pending_drop].
  rewrite !count_out_snoc, u64_add3. simpl. rewrite !Z.add_0_r, <- Ho, <- Hm, !u64_u64, u64_add.
  by rewrite Hu.
Qed.

Lemma counters_observed t p time ctx timeout inv : counters_ok t ->
  counters_ok (t_emit (add_stats 1 0 0 0 0 inv) (observed p time ctx timeout) t).
Proof.
  unfold counters_ok. intros (Ho & Hm & Hu). cbn [t_emit t_emitted t_stats add_stats
    transactions_observed response_unmatched query_unanswered pending_evicted_collision pending_drop].
  rewrite !count_out_snoc, u64_add3. simpl. rewrite !Z.add_0_r, <- Ho, <- Hm, !u64_u64, u64_add.
  by rewrite Hu.
Qed.

(** ** The ledger is kept *)

Lemma explained_mono timeout os os' m : os ⊆ os' -> explained timeout os m -> explained timeout os' m.
Proof.
  intros Hs [(p & key & time & ctx & ? & ? & ? & ?)|[(key & time & ctx & ? & ?)|(key & time & ctx & ? & ?)]];
    [left; exists p, key, time, ctx|right; left; exists key, time, ctx|right; right; exists key, time, ctx];
    split_and!; auto.
Qed.

(** Handing back the query [p] of the pending list. *)
Lemma ledger_unanswered os t p q una col drp : una + col + drp = 1 ->
  t_pending t ≡ₚ p :: q -> ledger os t ->
  ledger os (t_emit (add_stats 0 una 0 col drp 0) (unanswered (p_ctx p) (p_key p)) (t_set q t)).
Proof.
  intros H1 Hp [Hq Hr Hpe Hex Hc].
  rewrite Hp in Hpe. apply Forall_cons_iff in Hpe as [Hpp Hpq]. split; simpl.
  - rewrite <- Hq. unfold accounted. cbn [t_emit t_set t_emitted t_pending].
    rewrite queries_out_snoc. simpl. rewrite <- app_assoc. apply Permutation_app_head.
    by rewrite Hp.
  - rewrite responses_out_snoc. simpl. by rewrite app_nil_r.
  - done.
  - apply Forall_app. split; [done|]. constructor; [|done]. right. left. by eexists _, _, _.
  - by apply (counters_unanswered (t_set q t)).
Qed.

Lemma ledger_drop_head os t f una drp : una + drp = 1 -> f = add_stats 0 una 0 0 drp 0 ->
  ledger os t -> ledger os (spec_drop_head f t).
Proof.
  intros H1 -> Hl. unfold spec_drop_head. destruct (t_pending t) as [|p q] eqn:E; [done|].
  apply ledger_unanswered; [lia|by rewrite E|done].
Qed.

Lemma ledger_evict os n now : forall t, ledger os t -> ledger os (spec_evict n now t).
Proof.
  induction n as [|n IH]; intros t Hl; simpl; [done|].
  destruct (t_pending t) as [|p q]; [done|]. case_match; [done|].
  apply IH. by apply (ledger_drop_head os t _ 1 0).
Qed.

Lemma queries_in_snoc os o : queries_in (os ++ [o]) =
  queries_in os ++ match o with OpQuery _ _ c => [c] | _ => [] end.
Proof. unfold queries_in. rewrite omap_app. simpl. by destruct o. Qed.

Lemma responses_in_snoc os o : responses_in (os ++ [o]) =
  responses_in os ++ match o with OpResponse _ _ c => [c] | _ => [] end.
Proof. unfold responses_in. rewrite omap_app. simpl. by destruct o. Qed.

(** The entry found is one of the pending ones. *)
Lemma find_pending key q n p : list_find (has_key key) q = Some (n, p) ->
  q ≡ₚ p :: delete n q /\ key_equal (p_key p) key = true.
Proof.
  intros H. apply list_find_Some in H as (Hn & Hk & _). split; [|exact Hk].
  by apply delete_Permutation.
Qed.

Lemma ledger_push os t key time ctx : ledger os t ->
  ledger (os ++ [OpQuery key time ctx])
    (t_set (t_pending t ++ [{| p_key := key; p_time := time; p_ctx := ctx |}]) t).
Proof.
  intros [Hq Hr Hpe Hex Hc]. split; cbn [t_set t_pending t_emitted t_timeout].
  - rewrite queries_in_snoc, <- Hq. unfold accounted. cbn [t_set t_pending t_emitted].
    by rewrite map_app, app_assoc.
  - by rewrite responses_in_snoc, app_nil_r.
  - apply Forall_app. split; [|constructor; [set_solver|done]].
    eapply list.Forall_impl; [exact Hpe|]. intros p. set_solver.
  - eapply list.Forall_impl; [exact Hex|]. intros m. apply explained_mono. set_solver.
  - exact Hc.
Qed.

Lemma ledger_query os t key time ctx : ledger os t ->
  ledger (os ++ [OpQuery key time ctx]) (spec_query key time ctx t).
Proof.
  intros Hl0. unfold spec_query.
  pose proof (ledger_evict os (Z.to_nat CF_DNS_AMORTIZED_EVICT_MAX) time t Hl0) as Hl.
  set (t1 := spec_evict _ time t) in *. clearbody t1.
  destruct (list_find _ _) as [[n p]|] eqn:El.
  - apply find_pending in El as [Hp _].
    apply (ledger_push os (t_emit (add_stats 0 0 0 1 0 0) (unanswered (p_ctx p) (p_key p))
      (t_set (delete n (t_pending t1)) t1))).
    by apply ledger_unanswered.
  - destruct (_ <? _); [by apply ledger_push|]. destruct (_ =? _).
    + apply ledger_push. by apply (ledger_drop_head os t1 _ 0 1).
    + pose proof (ledger_push os t1 key time ctx Hl) as Hp.
      apply (ledger_unanswered _ _ {| p_key := key; p_time := time; p_ctx := ctx |} (t_pending t1)
        0 0 1 eq_refl) in Hp; [by destruct t1|]. simpl. symmetry. apply Permutation_cons_append.
Qed.

Lemma ledger_response os t key time ctx : ledger os t ->
  ledger (os ++ [OpResponse key time ctx]) (spec_response key time ctx t).
Proof.
  intros [Hq Hr Hpe Hex Hc]. unfold spec_response.
  assert (Forall (fun p => OpQuery (p_key p) (p_time p) (p_ctx p) ∈ os ++ [OpResponse key time ctx])
    (t_pending t)) as Hpe' by (eapply list.Forall_impl; [exact Hpe|]; intros p; set_solver).
  assert (Forall (explained (t_timeout t) (os ++ [OpResponse key time ctx])) (t_emitted t)) as Hex'
    by (eapply list.Forall_impl; [exact Hex|]; intros m; apply explained_mono; set_solver).
  assert (OpResponse key time ctx ∈ os ++ [OpResponse key time ctx]) as Hin by set_solver.
  destruct (list_find _ _) as [[n p]|] eqn:El.
  - apply find_pending in El as [Hp Hk].
    pose proof Hpe' as Hpp. rewrite Hp in Hpp. apply Forall_cons_iff in Hpp as [Hpp Hpd].
    split; cbn [t_emit t_set t_pending t_emitted t_timeout].
    + rewrite queries_in_snoc, app_nil_r, <- Hq. unfold accounted.
      cbn [t_emit t_set t_emitted t_pending]. rewrite queries_out_snoc. simpl.
      rewrite <- app_assoc. apply Permutation_app_head. rewrite Hp at 2. done.
    + by rewrite responses_out_snoc, responses_in_snoc, Hr.
    + exact Hpd.
    + apply Forall_app. split; [done|]. constructor; [|done]. left.
      exists p, key, time, ctx. by split_and!.
    + by apply (counters_observed (t_set (delete n (t_pending t)) t)).
  - split; cbn [t_emit t_set t_pending t_emitted t_timeout].
    + rewrite queries_in_snoc, app_nil_r, <- Hq. unfold accounted.
      cbn [t_emit t_set t_emitted t_pending]. rewrite queries_out_snoc. simpl.
      by rewrite app_nil_r.
    + by rewrite responses_out_snoc, responses_in_snoc, Hr.
    + exact Hpe'.
    + apply Forall_app. split; [done|]. constructor; [|done]. right. right.
      by exists key, time, ctx.
    + by apply counters_unmatched.
Qed.

Lemma ledger_tick os t now : ledger os t -> ledger (os ++ [OpTick now]) (spec_tick now t).
Proof.
  intros Hl. unfold spec_tick. destruct (ledger_evict os (length (t_pending t)) now t Hl) as [Hq Hr Hpe Hex Hc].
  split.
  - by rewrite queries_in_snoc, app_nil_r.
  - by rewrite responses_in_snoc, app_nil_r.
  - eapply list.Forall_impl; [exact Hpe|]. intros p. set_solver.
  - eapply list.Forall_impl; [exact Hex|]. intros m. apply explained_mono. set_solver.
  - exact Hc.
Qed.

Lemma ledger_ops os : forall pre t, ledger pre t -> ledger (pre ++ os) (spec_ops t os).
Proof.
  induction os as [|o os IH]; intros pre t Hl; [by rewrite app_nil_r|].
  cbn [spec_ops foldl]. replace (pre ++ o :: os) with ((pre ++ [o]) ++ os) by (by rewrite <- app_assoc).
  apply IH. destruct o; [by apply ledger_query|by apply ledger_response|by apply ledger_tick].
Qed.

Lemma ledger_new cfg : ledger [] (table_new cfg).
Proof. by split; try constructor. Qed.

Lemma ledger_drain os n : forall t, ledger os t -> ledger os (spec_drain n t).
Proof.
  induction n as [|n IH]; intros t Hl; simpl; [done|]. apply IH.
  by apply (ledger_drop_head os t _ 1 0).
Qed.

Lemma drain_empties n : forall t, length (t_pending t) = n -> t_pending (spec_drain n t) = [].
Proof.
  induction n as [|n IH]; intros t Hn; simpl; [by apply nil_length_inv|]. apply IH.
  unfold spec_drop_head. destruct (t_pending t) eqn:E; simpl in *; [done|lia].
Qed.

Lemma spec_op_config t o : t_cap (spec_op t o) = t_cap t /\ t_timeout (spec_op t o) = t_timeout t /\
  t_policy (spec_op t o) = t_policy t.
Proof.
  destruct o as [key time ctx|key time ctx|now]; simpl.
  - unfold spec_query. pose proof (spec_evict_cap (Z.to_nat CF_DNS_AMORTIZED_EVICT_MAX) time t) as H.
    set (t1 := spec_evict _ time t) in *. clearbody t1.
    destruct (list_find _ _) as [[n p]|]; [done|]. case_match; [done|]. case_match; [|done].
    unfold spec_drop_head. by destruct (t_pending t1).
  - unfold spec_response. by destruct (list_find _ _) as [[n p]|].
  - apply spec_evict_cap.
Qed.

Lemma spec_ops_config os : forall t, t_cap (spec_ops t os) = t_cap t /\
  t_timeout (spec_ops t os) = t_timeout t /\ t_policy (spec_ops t os) = t_policy t.
Proof.
  induction os as [|o os IH]; intros t; [done|]. cbn [spec_ops foldl].
  destruct (IH (spec_op t o)) as (Ha & Hb & Hc). destruct (spec_op_config t o) as (Hd & He & Hf).
  unfold spec_ops in *. rewrite Ha, Hb, Hc. by split_and!.
Qed.

(** ** Distinct keys and age order *)

Definition sigs (q : list pend) := (fun p => key_sig (p_key p)) <$> q.

Lemma sigs_sublist q q' : sublist q' q -> sublist (sigs q') (sigs q).
Proof. intros H. by apply fmap_sublist. Qed.

Lemma find_none_sig key q : list_find (has_key key) q = None <-> key_sig key ∉ sigs q.
Proof.
  rewrite list_find_None, list.Forall_forall. unfold sigs, has_key. split.
  - intros H (p & Hs & Hp)%list_elem_of_fmap. apply (H p Hp). by apply key_equal_sig.
  - intros H p Hp Hk. apply H, list_elem_of_fmap. exists p. split; [|done].
    symmetry. by apply key_equal_sig.
Qed.

(** A list that only loses members in order, then gains [new]. *)
Inductive kept : list pend -> list pend -> Prop :=
| kept_refl q : kept q q
| kept_tail p q q' : kept q q' -> kept (p :: q) q'
| kept_delete n q : kept q (delete n q).

Lemma spec_evict_kept n now : forall t, kept (t_pending t) (t_pending (spec_evict n now t)).
Proof.
  induction n as [|n IH]; intros t; simpl; [constructor|].
  destruct (t_pending t) as [|p q] eqn:E; [rewrite E; constructor|].
  case_match; [rewrite E; constructor|]. apply kept_tail.
  replace q with (t_pending (spec_drop_head inc_unanswered t)); [apply IH|].
  unfold spec_drop_head. by rewrite E.
Qed.

Lemma kept_sublist q q' : kept q q' -> sublist q' q.
Proof. induction 1; [done|by apply sublist_cons|apply sublist_delete]. Qed.

Lemma kept_distinct q q' : kept q q' -> NoDup (sigs q) -> NoDup (sigs q').
Proof.
  intros H%kept_sublist Hnd. eapply sublist_NoDup; [exact Hnd|].
  by apply sigs_sublist.
Qed.

(** What a query leaves pending: earlier ones of other keys, then itself. *)
Lemma spec_query_pending t key time ctx : NoDup (sigs (t_pending t)) ->
  let t' := spec_query key time ctx t in
  let new := {| p_key := key; p_time := time; p_ctx := ctx |} in
  (exists q, sublist q (t_pending t) /\ key_sig key ∉ sigs q /\ t_pending t' = q ++ [new]) \/
  (t_policy t <> CF_DNS_ON_FULL_DROP_OLDEST /\ t_cap t <= zlen (t_pending t) /\
   sublist (t_pending t') (t_pending t)).
Proof.
  intros Hnd. unfold spec_query.
  pose proof (spec_evict_kept (Z.to_nat CF_DNS_AMORTIZED_EVICT_MAX) time t) as Hk.
  pose proof (spec_evict_cap (Z.to_nat CF_DNS_AMORTIZED_EVICT_MAX) time t) as (Hc & _ & Hpol).
  set (t1 := spec_evict _ time t) in *. clearbody t1.
  pose proof (kept_distinct _ _ Hk Hnd) as Hnd1. apply kept_sublist in Hk.
  destruct (list_find _ _) as [[n p]|] eqn:El.
  - left. exists (delete n (t_pending t1)). split; [|split; [|done]].
    + etrans; [apply sublist_delete|done].
    + apply find_pending in El as [Hp Hkp]. apply key_equal_sig in Hkp.
      assert (NoDup (sigs (p :: delete n (t_pending t1)))) as Hnd2.
      { unfold sigs in *. by rewrite <- Hp. }
      apply list.NoDup_cons in Hnd2 as [Hni _]. by rewrite <- Hkp.
  - pose proof El as El'. apply find_none_sig in El'. destruct (_ <? _) eqn:Ec.
    { left. by exists (t_pending t1). }
    destruct (_ =? _) eqn:Ep.
    + left. exists (t_pending (spec_drop_head inc_drop t1)).
      assert (sublist (t_pending (spec_drop_head inc_drop t1)) (t_pending t1)) as Hs.
      { unfold spec_drop_head. destruct (t_pending t1) eqn:E1; [by rewrite E1|].
        by apply sublist_cons. }
      split; [by etrans|]. split; [|done]. intros Hin. apply El'.
      eapply elem_of_sublist; [exact Hin|by apply sigs_sublist].
    + right. simpl. split_and!; [lia| |done]. apply sublist_length in Hk. lia.
Qed.

(** The pending list of every operation: kept members, then the new query. *)
Lemma spec_op_pending t o : NoDup (sigs (t_pending t)) ->
  sublist (t_pending (spec_op t o)) (t_pending t) \/
  (exists key time ctx q, o = OpQuery key time ctx /\ sublist q (t_pending t) /\
     key_sig key ∉ sigs q /\
     t_pending (spec_op t o) = q ++ [{| p_key := key; p_time := time; p_ctx := ctx |}]).
Proof.
  intros Hnd. destruct o as [key time ctx|key time ctx|now]; simpl.
  - destruct (spec_query_pending t key time ctx Hnd) as [(q & H)|(_ & _ & H)]; [right|by left].
    by exists key, time, ctx, q.
  - left. unfold spec_response. destruct (list_find _ _) as [[n p]|]; [apply sublist_delete|done].
  - left. apply kept_sublist, spec_evict_kept.
Qed.

Lemma distinct_op t o : NoDup (sigs (t_pending t)) -> NoDup (sigs (t_pending (spec_op t o))).
Proof.
  intros Hnd. destruct (spec_op_pending t o Hnd) as [Hs|(key & time & ctx & q & _ & Hs & Hni & ->)].
  - eapply sublist_NoDup; [exact Hnd|by apply sigs_sublist].
  - unfold sigs. rewrite fmap_app. apply list.NoDup_app. split_and!.
    + eapply sublist_NoDup; [exact Hnd|by apply sigs_sublist].
    + intros x Hx Hx'. apply list_elem_of_singleton in Hx'. by subst x.
    + apply NoDup_singleton.
Qed.

Lemma distinct_ops os : forall t, NoDup (sigs (t_pending t)) ->
  NoDup (sigs (t_pending (spec_ops t os))).
Proof.
  induction os as [|o os IH]; intros t Hnd; [done|]. by apply IH, distinct_op.
Qed.

(** Oldest first: each pending query is no younger than those behind it. *)
Fixpoint aged (last : Z) (q : list pend) : Prop :=
  match q with
  | [] => True
  | p :: q => p_time p <= last /\ Forall (fun p' => p_time p <= p_time p') q /\ aged last q
  end.

Lemma aged_sublist last q q' : sublist q' q -> aged last q -> aged last q'.
Proof.
  induction 1 as [|p q' q Hs IH|p q' q Hs IH]; simpl; [done| |tauto].
  intros (? & Hf & ?). split_and!; [done| |by apply IH].
  apply list.Forall_forall. intros x Hx. rewrite list.Forall_forall in Hf. apply Hf.
  by eapply elem_of_sublist.
Qed.

Lemma aged_mono last last' q : last <= last' -> aged last q -> aged last' q.
Proof. intros H. induction q as [|p q IH]; simpl; [done|]. intros (? & ? & ?). split_and!; auto. lia. Qed.

Lemma aged_le last q : aged last q -> Forall (fun p => p_time p <= last) q.
Proof. induction q as [|p q IH]; simpl; constructor; naive_solver. Qed.

Lemma aged_snoc last q p : aged last q -> last <= p_time p -> aged (p_time p) (q ++ [p]).
Proof.
  intros H Hp. pose proof (aged_le _ _ H) as Hle. induction q as [|x q IH]; simpl in *.
  - split_and!; [lia|constructor|done].
  - destruct H as (Hx & Hf & Hq). apply Forall_cons_iff in Hle as [_ Hle]. split_and!; [lia| |auto].
    apply Forall_app. split; [done|]. constructor; [lia|done].
Qed.

(** The operation times never decrease. *)
Fixpoint in_order (last : Z) (os : list op) : Prop :=
  match os with
  | [] => True
  | o :: os => last <= op_time o /\ in_order (op_time o) os
  end.

Definition last_time (last : Z) (os : list op) : Z := foldl (fun _ o => op_time o) last os.

Lemma aged_ops os : forall last t, NoDup (sigs (t_pending t)) -> in_order last os ->
  aged last (t_pending t) -> aged (last_time last os) (t_pending (spec_ops t os)).
Proof.
  induction os as [|o os IH]; intros last t Hnd Hin Ha; [done|].
  destruct Hin as [Ho Hin]. apply (IH (op_time o)); [by apply distinct_op|done|].
  destruct (spec_op_pending t o Hnd) as [Hs|(key & time & ctx & q & -> & Hs & _ & ->)].
  - eapply aged_mono; [exact Ho|]. by eapply aged_sublist.
  - apply (aged_snoc last q {| p_key := key; p_time := time; p_ctx := ctx |});
      [by eapply aged_sublist|done].
Qed.

Lemma tick_aged now : forall n t, aged now (t_pending t) -> length (t_pending t) = n ->
  Forall (fun p => now - p_time p <= t_timeout t) (t_pending (spec_evict n now t)).
Proof.
  induction n as [|n IH]; intros t Ha Hn; simpl; [by apply nil_length_inv in Hn as ->|].
  destruct (t_pending t) as [|p q] eqn:E; [done|]. destruct (_ <=? _) eqn:Et.
  - rewrite E. destruct Ha as (_ & Hf & _). constructor; [lia|].
    eapply list.Forall_impl; [exact Hf|]. simpl. intros x. lia.
  - assert (t_pending (spec_drop_head inc_unanswered t) = q) as Hq
      by (unfold spec_drop_head; by rewrite E).
    replace (t_timeout t) with (t_timeout (spec_drop_head inc_unanswered t))
      by (unfold spec_drop_head; by rewrite E).
    apply IH; rewrite Hq; [apply Ha|simpl in Hn; lia].
Qed.

(** ** Sessions *)

Record session_ok (cfg : cf_dns_correlator_config_t) (mem : list cf_dns_entry_t) (os : list op)
    : Prop := {
  so_config : config_ok cfg;
  so_mem : cc_capacity cfg <= zlen mem;
  so_times : Forall (fun o => time_ok (op_time o)) os
}.

Definition session (cfg : cf_dns_correlator_config_t) (mem : list cf_dns_entry_t) (os : list op)
    : exec (option cf_dns_correlator) :=
  c ← cf_dns_correlator_new (Some cfg) true true mem;
  run_ops c os.

Lemma session_refines cfg mem os : session_ok cfg mem os ->
  exists c, session cfg mem os = Ret (Some c) /\ rel c (spec_ops (table_new cfg) os) /\
    times_ok (spec_ops (table_new cfg) os).
Proof.
  intros [Hcfg Hmem Htimes]. unfold session.
  destruct (new_refines cfg mem Hcfg Hmem) as (c0 & -> & Hrel). xbind.
  apply run_ops_refines; [done|constructor|done].
Qed.

Lemma free_refines c t : rel c t ->
  exists es, cf_dns_correlator_free (Some c) = Ret es /\
    map fst es = t_emitted (spec_drain (length (t_pending t)) t).
Proof.
  intros Hrel. unfold cf_dns_correlator_free.
  destruct (drain_refines (walk_fuel c) c t Hrel) as (c' & -> & [_ Hsc]).
  - apply rel_pending_length in Hrel as [? _]. unfold walk_fuel. lia.
  - xbind. exists (calls c'). split; [done|]. unfold scalars in Hsc. by injection Hsc as _ _ _ ? _.
Qed.

Lemma count_queries timeout os es : Forall (explained timeout os) es ->
  zlen (queries_out es) = count_out CF_DNS_TXN_OBSERVED es + count_out CF_DNS_TXN_UNANSWERED es /\
  zlen (responses_out es) = count_out CF_DNS_TXN_OBSERVED es + count_out CF_DNS_TXN_UNMATCHED es.
Proof.
  induction es as [|m es IH] using rev_ind; [done|].
  intros [H [Hm _]%Forall_cons_iff]%Forall_app. destruct (IH H) as [Hq Hr].
  rewrite queries_out_snoc, responses_out_snoc, !count_out_snoc, !length_app.
  destruct Hm as [(p & key & time & ctx & -> & _)|[(key & time & ctx & -> & _)|(key & time & ctx & -> & _)]];
    simpl; lia.
Qed.

(** ** Properties *)

(** C31. The pooled table with its hash chains, FIFO and free list implements
    the abstract one: every history of queries, responses and ticks runs to
    completion without a stray index or an endless walk, calls [emit] exactly
    as the ordered list of pending queries would, counts the same, and the
    drain at teardown hands back what is left, oldest first. *)
Theorem correlator_refines cfg mem os : session_ok cfg mem os ->
  let t := spec_ops (table_new cfg) os in
  exists c, session cfg mem os = Ret (Some c) /\
    emitted c = t_emitted t /\ stats c = t_stats t /\ count c = zlen (t_pending t) /\
    exists es, cf_dns_correlator_free (Some c) = Ret es /\
      map fst es = t_emitted (spec_drain (length (t_pending t)) t).
Proof.
  intros Hok t. destruct (session_refines cfg mem os Hok) as (c & Hs & Hrel & _).
  exists c. split; [done|]. pose proof (free_refines _ _ Hrel) as Hfree.
  pose proof (rel_pending_length _ _ Hrel) as (_ & Hc & _). destruct Hrel as [_ Hsc].
  unfold scalars in Hsc. injection Hsc as _ _ _ He Hst. by split_and!.
Qed.

(** C32. Every context has exactly one owner: over a whole session the contexts
    of the queries come back once each, and those of the responses once each
    and in order; every call of [emit] is a response matched with a query of
    the same key and their time difference, an unanswered query, or an
    unmatched response. *)
Theorem correlator_ownership cfg mem os : session_ok cfg mem os ->
  exists es, (c ← session cfg mem os; cf_dns_correlator_free c) = Ret es /\
    queries_out (map fst es) ≡ₚ queries_in os /\ responses_out (map fst es) = responses_in os /\
    Forall (explained (cc_query_timeout_nanos cfg) os) (map fst es).
Proof.
  intros Hok. destruct (session_refines cfg mem os Hok) as (c & -> & Hrel & _). xbind.
  destruct (free_refines _ _ Hrel) as (es & -> & Hes). exists es. split; [reflexivity|]. rewrite Hes.
  set (t := spec_ops (table_new cfg) os) in *.
  pose proof (ledger_ops os [] (table_new cfg) (ledger_new cfg)) as Hl. simpl in Hl.
  destruct (ledger_drain os (length (t_pending t)) t Hl) as [Hq Hr _ Hex _].
  unfold accounted in Hq. rewrite (drain_empties _ t eq_refl) in Hq. simpl in Hq.
  rewrite app_nil_r in Hq. split_and!; [done|done|].
  assert (forall n t, t_timeout (spec_drain n t) = t_timeout t) as Hto.
  { induction n as [|n IH]; intros t'; simpl; [done|]. rewrite IH. unfold spec_drop_head.
    by destruct (t_pending t'). }
  rewrite Hto in Hex. destruct (spec_ops_config os (table_new cfg)) as (_ & Ht & _).
  fold t in Ht. by rewrite Ht in Hex.
Qed.

(** Nothing is lost in silence: at every point the pending depth is at most
    the capacity, and (in 64-bit arithmetic) every query is counted as
    observed, unanswered, evicted by a collision, dropped or still pending,
    every response as observed or unmatched. *)
Theorem correlator_accounting cfg mem os : session_ok cfg mem os ->
  exists c s, session cfg mem os = Ret (Some c) /\ cf_dns_correlator_stats (Some c) = Some s /\
    0 <= pending_depth s <= cc_capacity cfg /\
    u64 (zlen (queries_in os)) =
      u64 (transactions_observed s + query_unanswered s + pending_evicted_collision s +
           pending_drop s + pending_depth s) /\
    u64 (zlen (responses_in os)) = u64 (transactions_observed s + response_unmatched s).
Proof.
  intros Hok. destruct (session_refines cfg mem os Hok) as (c & Hs & Hrel & _).
  set (t := spec_ops (table_new cfg) os) in *. exists c. eexists. split; [exact Hs|].
  split; [reflexivity|].
  pose proof (rel_pending_length _ _ Hrel) as (_ & Hc & Hcap & _). destruct Hrel as [_ Hsc].
  unfold scalars in Hsc. injection Hsc as _ _ _ _ Hst.
  destruct (spec_ops_config os (table_new cfg)) as (Hcap' & _ & _). fold t in Hcap'.
  cbn [table_new t_cap] in Hcap'.
  destruct (ledger_ops os [] (table_new cfg) (ledger_new cfg)) as [Hq Hr _ Hex (Ho & Hm & Hu)].
  simpl in Hq, Hr, Hex. fold t in Hq, Hr, Hex, Ho, Hm, Hu.
  destruct (count_queries _ _ _ Hex) as [Hcq Hcr].
  unfold stats_now. cbn [pending_depth transactions_observed query_unanswered
    pending_evicted_collision pending_drop response_unmatched]. rewrite Hst. split; [lia|]. split.
  - rewrite <- Hq. unfold accounted. rewrite length_app, length_map, Nat2Z.inj_add, Hcq, Hc.
    rewrite <- Ho, <- !Z.add_assoc, u64_add, (Z.add_comm (count_out CF_DNS_TXN_OBSERVED _)).
    rewrite <- !Z.add_assoc, <- u64_add, Hu, u64_add. f_equal. lia.
  - rewrite <- Hr, Hcr, <- Ho, <- Hm, u64_add, Z.add_comm, <- u64_add, Z.add_comm. f_equal.
Qed.

(** A query is matched by its response: after any history, a query that is
    kept (there is room, or the policy is to drop the oldest) and then a
    response with an equal key are observed together, with the exact time
    difference, valid precisely when it lies between 0 and the timeout. *)
Theorem query_response_observed cfg mem os key t q key' t' r :
  session_ok cfg mem (os ++ [OpQuery key t q; OpResponse key' t' r]) ->
  key_equal key key' = true ->
  cc_on_table_full cfg = CF_DNS_ON_FULL_DROP_OLDEST \/
    zlen (t_pending (spec_ops (table_new cfg) os)) < cc_capacity cfg ->
  exists c es, session cfg mem (os ++ [OpQuery key t q; OpResponse key' t' r]) = Ret (Some c) /\
    emitted c = es ++ [{| m_outcome := CF_DNS_TXN_OBSERVED; m_query := Some q;
      m_response := Some r; m_rtt_nanos := t' - t;
      m_rtt_valid := if (0 <=? t' - t) && (t' - t <=? cc_query_timeout_nanos cfg) then 1 else 0;
      m_key := key |}].
Proof.
  intros Hok Hk Hroom. destruct (session_refines _ _ _ Hok) as (c & Hs & [_ Hsc] & _).
  exists c. eexists. split; [exact Hs|].
  unfold scalars in Hsc. injection Hsc as _ _ _ He _. unfold emitted. rewrite He.
  unfold spec_ops. rewrite foldl_app. cbn [foldl spec_op].
  set (t1 := foldl spec_op (table_new cfg) os) in *.
  assert (NoDup (sigs (t_pending t1))) as Hnd by (apply distinct_ops; constructor).
  destruct (spec_ops_config os (table_new cfg)) as (Hcap & Hto & Hpol).
  change (spec_ops (table_new cfg) os) with t1 in *. cbn [table_new t_cap t_timeout t_policy] in *.
  destruct (spec_query_pending t1 key t q Hnd) as [(rest & _ & Hni & Hp)|(Hn & Hc & _)];
    [|exfalso; rewrite Hpol, Hcap in *; destruct Hroom; [done|lia]].
  apply key_equal_sig in Hk. unfold spec_response. rewrite Hp.
  rewrite list_find_app_r by (apply find_none_sig; by rewrite <- Hk).
  cbn [list_find]. rewrite decide_True by (by apply key_equal_sig). simpl.
  destruct (spec_op_config t1 (OpQuery key t q)) as (_ & Hto' & _). simpl in Hto'.
  rewrite Hto', Hto. unfold observed, rtt_ok. simpl. do 2 f_equal.
  destruct (_ || _) eqn:E1, (_ && _) eqn:E2; (reflexivity || lia).
Qed.

(** When capture times never decrease, a tick leaves no expired query: all
    that is pending afterwards is within the timeout of its time. *)
Theorem tick_drains_expired cfg mem os now : session_ok cfg mem (os ++ [OpTick now]) ->
  in_order 0 (os ++ [OpTick now]) ->
  exists c, session cfg mem (os ++ [OpTick now]) = Ret (Some c) /\
    exists fifo, count c = zlen fifo /\
      Forall (fun i => exists e, entries c !! i = Some e /\
        now - e_observed_time e <= query_timeout_nanos c) fifo /\
      dseg (entries c) CF_DNS_NIL (fifo_head c) fifo CF_DNS_NIL (fifo_tail c).
Proof.
  intros Hok Hin. destruct (session_refines _ _ _ Hok) as (c & Hs & Hrel & _).
  exists c. split; [exact Hs|]. destruct Hrel as [(fifo & fr & ch & HR & Hq) Hsc].
  exists fifo. split; [apply (r_count _ _ _ _ HR)|]. split; [|apply (r_fifo _ _ _ _ HR)].
  unfold scalars in Hsc. injection Hsc as _ Hto _ _ _. rewrite Hto.
  unfold spec_ops in *. rewrite foldl_app in Hq |- *. cbn [foldl spec_op] in Hq |- *.
  set (t1 := foldl spec_op (table_new cfg) os) in *.
  assert (in_order 0 os /\ last_time 0 os <= now) as [Hin1 Hlast].
  { clear -Hin. revert Hin. unfold last_time. generalize 0.
    induction os as [|o os IH]; intros z; simpl; [tauto|]. intros [? H]. naive_solver. }
  pose proof (aged_ops os 0 (table_new cfg) ltac:(constructor) Hin1 I) as Ha.
  apply (aged_mono _ now) in Ha; [|done].
  pose proof (tick_aged now _ t1 Ha eq_refl) as Hf.
  destruct (spec_evict_cap (length (t_pending t1)) now t1) as (_ & Hto1 & _).
  unfold spec_tick in *. rewrite Hto1. rewrite Hq in Hf. clear -HR Hf.
  apply list.Forall_forall. intros i Hi. destruct (rep_entry HR i (or_introl Hi)) as [e He].
  exists e. split; [done|]. rewrite list.Forall_forall in Hf.
  apply (Hf (pend_of e)). apply list_elem_of_omap. exists i. by rewrite He.
Qed.

(** ** Concrete sessions *)

Definition sample_key (id : Z) : cf_dns_txn_key_t :=
  {| k_transport := 0; k_local_is_server := 1; k_ip_version := 4;
     k_client_ip := replicate 16 7; k_server_ip := replicate 16 9;
     k_client_port := 40000; k_server_port := 53; k_dns_id := id; k_qtype := 1; k_qclass := 1;
     k_qname_canonical := bs "example.com" ++ replicate 245 0; k_qname_len := 11 |}.

Definition blank_entry : cf_dns_entry_t :=
  {| e_key := sample_key 0; e_observed_time := 0; e_query_ctx := 0; e_hnext := 77;
     e_fifo_prev := 77; e_fifo_next := 77 |}.

Definition sample_config : cf_dns_correlator_config_t :=
  {| cc_capacity := 2; cc_query_timeout_nanos := 100; cc_on_table_full := 1 |}.
Definition sample_mem : list cf_dns_entry_t := replicate 2 blank_entry.

(** Three queries in a table of two, a retransmission, a match, a timeout. *)
Definition sample_ops : list op :=
  [OpQuery (sample_key 1) 10 101; OpQuery (sample_key 2) 20 102; OpQuery (sample_key 3) 30 103;
   OpQuery (sample_key 2) 40 104; OpResponse (sample_key 3) 50 203; OpResponse (sample_key 9) 60 209;
   OpTick 200].

Lemma sample_times os : forallb (fun o => (0 <=? op_time o) && (op_time o <? 2 ^ 63)) os = true ->
  Forall (fun o => time_ok (op_time o)) os.
Proof.
  intros H. rewrite forallb_forall in H. apply Forall_forall. intros o Ho.
  specialize (H o Ho). unfold time_ok. lia.
Qed.

Lemma sample_session os : forallb (fun o => (0 <=? op_time o) && (op_time o <? 2 ^ 63)) os = true ->
  session_ok sample_config sample_mem os.
Proof.
  intros H. split; [split; vm_compute; done|vm_compute; discriminate|by apply sample_times].
Qed.

Lemma correlator_refines_witness :
  cf_dns_correlator_free None = Ret [] /\
  exists c, session sample_config sample_mem sample_ops = Ret (Some c) /\
    map m_query (emitted c) = [Some 101; Some 102; Some 103; None; Some 104].
Proof.
  split; [reflexivity|].
  destruct (correlator_refines sample_config sample_mem sample_ops) as (c & Hs & He & _);
    [by apply sample_session|].
  exists c. split; [exact Hs|]. rewrite He. vm_compute. reflexivity.
Defined.

Lemma correlator_ownership_witness :
  exists es, (c ← session sample_config sample_mem sample_ops; cf_dns_correlator_free c) = Ret es /\
    queries_out (map fst es) ≡ₚ [101; 102; 103; 104] /\ responses_out (map fst es) = [203; 209].
Proof.
  destruct (correlator_ownership sample_config sample_mem sample_ops) as (es & H & Hq & Hr & _);
    [by apply sample_session|].
  exists es. split; [exact H|]. split; [exact Hq|exact Hr].
Defined.

Lemma correlator_accounting_witness :
  exists c s, session sample_config sample_mem sample_ops = Ret (Some c) /\
    cf_dns_correlator_stats (Some c) = Some s /\ 0 <= pending_depth s <= 2.
Proof.
  destruct (correlator_accounting sample_config sample_mem sample_ops) as (c & s & H & Hs & Hd & _);
    [by apply sample_session|].
  exists c, s. split; [exact H|]. split; [exact Hs|exact Hd].
Defined.

Lemma query_response_observed_witness :
  exists c es,
    session sample_config sample_mem
      ([OpQuery (sample_key 1) 10 101; OpQuery (sample_key 2) 20 102] ++
       [OpQuery (sample_key 3) 30 103; OpResponse (sample_key 3) 55 203]) = Ret (Some c) /\
    emitted c = es ++ [{| m_outcome := CF_DNS_TXN_OBSERVED; m_query := Some 103;
      m_response := Some 203; m_rtt_nanos := 25; m_rtt_valid := 1; m_key := sample_key 3 |}].
Proof.
  apply (query_response_observed sample_config sample_mem _ (sample_key 3) 30 103 (sample_key 3) 55 203).
  - by apply sample_session.
  - vm_compute. reflexivity.
  - left. reflexivity.
Defined.

Lemma tick_drains_expired_witness :
  exists c, session sample_config sample_mem (take 6 sample_ops ++ [OpTick 200]) = Ret (Some c) /\
    exists fifo : list nat, count c = zlen fifo.
Proof.
  destruct (tick_drains_expired sample_config sample_mem (take 6 sample_ops) 200) as (c & H & fifo & Hc & _).
  - by apply sample_session.
  - repeat split; discriminate.
  - exists c. split; [exact H|]. exists fifo. exact Hc.
Defined.
