(* ===== verification/Sampling.v ===== *)
(** * Sampling: which transactions are emitted
    ([sources/cloudflow-source-dns/src/sampling.c])

    The emit decision and the mixer it samples with.  The mixer is shown to be
    a permutation of the 64-bit keys, by its explicit inverse, so that one key
    in [sample_denominator] is kept exactly. *)

From S2P Require Import Prelude Correlation.

Definition CF_DNS_QTYPE_A : Z := 1.
Definition CF_DNS_QTYPE_AAAA : Z := 28.
Definition CF_DNS_RCODE_NOERROR : Z := 0.

Inductive cf_dns_emit_mode_t := CF_DNS_EMIT_ALL | CF_DNS_EMIT_PREDICATE.

Record cf_dns_emit_policy_t := { ep_mode : cf_dns_emit_mode_t; ep_sample_denominator : Z }.

Record cf_dns_emit_facts_t := {
  ef_outcome : cf_dns_txn_outcome_t; ef_rcode : Z; ef_qtype : Z; ef_has_response : Z;
  ef_sample_key : Z
}.

Definition cf_dns_splitmix64 (x : Z) : Z :=
  let x := u64 (x + 0x9e3779b97f4a7c15) in
  let x := u64 (Z.lxor x (Z.shiftr x 30) * 0xbf58476d1ce4e5b9) in
  let x := u64 (Z.lxor x (Z.shiftr x 27) * 0x94d049bb133111eb) in
  Z.lxor x (Z.shiftr x 31).

Definition cf_dns_qtype_is_routine (qtype : Z) : bool :=
  (qtype =? CF_DNS_QTYPE_A) || (qtype =? CF_DNS_QTYPE_AAAA).

Definition cf_dns_emit_decide (policy : option cf_dns_emit_policy_t)
    (f : option cf_dns_emit_facts_t) : Z :=
  match policy with
  | None => 1
  | Some policy =>
      match ep_mode policy with
      | CF_DNS_EMIT_ALL => 1
      | CF_DNS_EMIT_PREDICATE =>
          match f with
          | None => 0
          | Some f =>
              match ef_outcome f with
              | CF_DNS_TXN_UNANSWERED | CF_DNS_TXN_UNMATCHED => 1
              | CF_DNS_TXN_OBSERVED =>
                  if negb (ef_rcode f =? CF_DNS_RCODE_NOERROR) then 1
                  else if negb (cf_dns_qtype_is_routine (ef_qtype f)) then 1
                  else
                    let denom := ep_sample_denominator policy in
                    if denom <=? 1 then 1
                    else
                      let mixed := cf_dns_splitmix64 (ef_sample_key f) in
                      if mixed mod denom =? 0 then 1 else 0
              end
          end
      end
  end.

(** ** The mixer is a permutation *)

Definition word64 (x : Z) : Prop := 0 <= x < 2 ^ 64.

(** [x ^ (x >> s)] and its inverse for a shift over 21. *)
Definition xorshift (s x : Z) : Z := Z.lxor x (Z.shiftr x s).
Definition unxorshift (s x : Z) : Z := Z.lxor (Z.lxor x (Z.shiftr x s)) (Z.shiftr x (2 * s)).

Lemma word64_bits x : word64 x <-> 0 <= x /\ forall n, 64 <= n -> Z.testbit x n = false.
Proof.
  unfold word64. split.
  - intros [H0 H1]. split; [done|]. intros n Hn.
    replace x with (x mod 2 ^ 64) by (by apply Z.mod_small). by apply Z.mod_pow2_bits_high.
  - intros [H0 H]. split; [done|]. apply Z.nle_gt. intros Hle.
    assert (64 <= Z.log2 x) by (by apply Z.log2_le_pow2; lia).
    specialize (H (Z.log2 x)). rewrite Z.bit_log2 in H by lia. by discriminate H.
Qed.

Lemma shiftr_word64 s x : 0 <= s -> word64 x -> word64 (Z.shiftr x s).
Proof.
  intros Hs [H0 H]%word64_bits. apply word64_bits. split; [by apply Z.shiftr_nonneg|].
  intros n Hn. rewrite Z.shiftr_spec by lia. apply H. lia.
Qed.

Lemma lxor_word64 x y : word64 x -> word64 y -> word64 (Z.lxor x y).
Proof.
  intros [Hx0 Hx]%word64_bits [Hy0 Hy]%word64_bits. apply word64_bits.
  split; [by apply Z.lxor_nonneg|]. intros n Hn. by rewrite Z.lxor_spec, Hx, Hy.
Qed.

Lemma xorshift_word64 s x : 0 <= s -> word64 x -> word64 (xorshift s x).
Proof. intros. by apply lxor_word64; [|apply shiftr_word64]. Qed.

Lemma unxorshift_word64 s x : 0 <= s -> word64 x -> word64 (unxorshift s x).
Proof.
  intros. apply lxor_word64; [apply lxor_word64|]; [done| |]; by apply shiftr_word64; [lia|].
Qed.

(** Both compositions leave only the bits shifted out. *)
Lemma xorshift_cancel s x : 22 <= s -> word64 x ->
  xorshift s (unxorshift s x) = x /\ unxorshift s (xorshift s x) = x.
Proof.
  intros Hs [H0 H]%word64_bits. unfold xorshift, unxorshift.
  split; apply Z.bits_inj'; intros n Hn;
    rewrite ?Z.lxor_spec, ?Z.shiftr_spec, ?Z.lxor_spec, ?Z.shiftr_spec by lia;
    rewrite ?(H (n + 2 * s + s)), ?(H (n + s + 2 * s)) by lia.
  - replace (n + s + s) with (n + 2 * s) by lia.
    by destruct (Z.testbit x n), (Z.testbit x (n + s)), (Z.testbit x (n + 2 * s)).
  - replace (n + s + s) with (n + 2 * s) by lia.
    by destruct (Z.testbit x n), (Z.testbit x (n + s)), (Z.testbit x (n + 2 * s)).
Qed.

(** Multiplication by an odd constant, with its inverse modulo [2 ^ 64]. *)
Lemma mul_cancel a b x : u64 (a * b) = 1 -> word64 x -> u64 (u64 (x * a) * b) = x.
Proof.
  unfold u64, word64. intros Hab Hx. rewrite Z.mul_mod_idemp_l, <- Z.mul_assoc by lia.
  rewrite <- Z.mul_mod_idemp_r, Hab, Z.mul_1_r by lia. by apply Z.mod_small.
Qed.

Definition splitmix64_inverse (y : Z) : Z :=
  let y := unxorshift 31 y in
  let y := unxorshift 27 (u64 (y * 0x319642b2d24d8ec3)) in
  let y := unxorshift 30 (u64 (y * 0x96de1b173f119089)) in
  u64 (y - 0x9e3779b97f4a7c15).

Lemma splitmix64_eq x : cf_dns_splitmix64 x =
  xorshift 31 (u64 (xorshift 27 (u64 (xorshift 30 (u64 (x + 0x9e3779b97f4a7c15)) *
    0xbf58476d1ce4e5b9)) * 0x94d049bb133111eb)).
Proof. reflexivity. Qed.

Lemma splitmix64_of_inverse y : word64 y -> cf_dns_splitmix64 (splitmix64_inverse y) = y.
Proof.
  intros Hy. rewrite splitmix64_eq. unfold splitmix64_inverse.
  set (y1 := unxorshift 31 y). assert (word64 y1) as H1 by (by apply unxorshift_word64; [lia|]).
  set (y2 := unxorshift 27 (u64 (y1 * _))).
  assert (word64 y2) as H2 by (apply unxorshift_word64; [lia|apply u64_bound]).
  set (y3 := unxorshift 30 (u64 (y2 * _))).
  assert (word64 y3) as H3 by (apply unxorshift_word64; [lia|apply u64_bound]).
  assert (u64 (u64 (y3 - 0x9e3779b97f4a7c15) + 0x9e3779b97f4a7c15) = y3) as ->.
  { unfold u64. rewrite Zplus_mod_idemp_l. replace (_ - _ + _) with y3 by lia. by apply Z.mod_small. }
  unfold y3. rewrite (proj1 (xorshift_cancel 30 _ ltac:(lia) (u64_bound _))).
  rewrite mul_cancel by done. unfold y2.
  rewrite (proj1 (xorshift_cancel 27 _ ltac:(lia) (u64_bound _))).
  rewrite mul_cancel by done. unfold y1. apply xorshift_cancel; [lia|done].
Qed.

Lemma splitmix64_inverse_of x : word64 x -> splitmix64_inverse (cf_dns_splitmix64 x) = x.
Proof.
  intros Hx. rewrite splitmix64_eq. unfold splitmix64_inverse.
  set (x1 := u64 (xorshift 30 (u64 (x + 0x9e3779b97f4a7c15)) * _)).
  set (x2 := u64 (xorshift 27 x1 * _)).
  rewrite (proj2 (xorshift_cancel 31 x2 ltac:(lia) (u64_bound _))). unfold x2.
  rewrite mul_cancel by (done || (apply xorshift_word64; [lia|apply u64_bound])).
  rewrite (proj2 (xorshift_cancel 27 x1 ltac:(lia) (u64_bound _))). unfold x1.
  rewrite mul_cancel by (done || (apply xorshift_word64; [lia|apply u64_bound])).
  rewrite (proj2 (xorshift_cancel 30 _ ltac:(lia) (u64_bound _))).
  unfold u64. rewrite Zminus_mod_idemp_l. replace (_ + _ - _) with x by lia. by apply Z.mod_small.
Qed.

Lemma splitmix64_word x : word64 (cf_dns_splitmix64 x).
Proof. rewrite splitmix64_eq. apply xorshift_word64; [lia|apply u64_bound]. Qed.

(** ** Properties *)

(** The transactions the predicate mode may sample out. *)
Definition routine (f : cf_dns_emit_facts_t) : Prop :=
  ef_outcome f = CF_DNS_TXN_OBSERVED /\ ef_rcode f = CF_DNS_RCODE_NOERROR /\
  (ef_qtype f = CF_DNS_QTYPE_A \/ ef_qtype f = CF_DNS_QTYPE_AAAA).

(** C39. The emit policy never drops an anomaly and samples exactly: only a
    routine transaction under the predicate mode can be dropped, and of the
    [2 ^ 64] keys those kept with denominator [N > 1] are exactly the images
    of the multiples of [N] under a permutation of the keys, one key each. *)
Theorem emit_decide_correct policy f :
  word64 (ef_sample_key f) ->
  (cf_dns_emit_decide policy (Some f) = 0 \/ cf_dns_emit_decide policy (Some f) = 1) /\
  (cf_dns_emit_decide policy (Some f) = 0 ->
     exists p, policy = Some p /\ ep_mode p = CF_DNS_EMIT_PREDICATE /\ routine f /\
       1 < ep_sample_denominator p) /\
  (forall p, policy = Some p -> ep_mode p = CF_DNS_EMIT_PREDICATE -> routine f ->
     1 < ep_sample_denominator p ->
     cf_dns_emit_decide policy (Some f) = 1 <->
     exists m, 0 <= m * ep_sample_denominator p < 2 ^ 64 /\
       ef_sample_key f = splitmix64_inverse (m * ep_sample_denominator p)) /\
  (forall a b, word64 a -> word64 b -> splitmix64_inverse a = splitmix64_inverse b -> a = b).
Proof.
  intros Hkey. split_and!.
  - unfold cf_dns_emit_decide. repeat (case_match; auto).
  - unfold cf_dns_emit_decide, routine, cf_dns_qtype_is_routine. intros H.
    destruct policy as [p|]; [|done]. exists p. destruct (ep_mode p); [done|].
    destruct (ef_outcome f); try done.
    destruct (ef_rcode f =? _) eqn:E1; [|done]. destruct (_ || _) eqn:E2; [|done]. simpl in H.
    destruct (_ <=? 1) eqn:E3; [done|]. split_and!; auto; lia.
  - intros p -> Hmode (Ho & Hr & Hq) Hn. unfold cf_dns_emit_decide. rewrite Hmode, Ho, Hr.
    replace (cf_dns_qtype_is_routine (ef_qtype f)) with true
      by (unfold cf_dns_qtype_is_routine; destruct Hq as [-> | ->]; done).
    simpl. replace (ep_sample_denominator p <=? 1) with false by lia.
    pose proof (splitmix64_word (ef_sample_key f)) as Hw. unfold word64 in Hw.
    set (y := cf_dns_splitmix64 (ef_sample_key f)) in *. set (d := ep_sample_denominator p) in *.
    split.
    + destruct (_ =? 0) eqn:E; [|done]. intros _. exists (y / d).
      assert (y / d * d = y) as Hy by (pose proof (Z.div_mod y d); lia). rewrite Hy.
      split; [done|]. symmetry. by apply splitmix64_inverse_of.
    + intros (m & Hm & Hk). unfold y. rewrite Hk, splitmix64_of_inverse by done.
      by rewrite Z.mod_mul by lia.
  - intros a b Ha Hb H. by rewrite <- (splitmix64_of_inverse a), H, splitmix64_of_inverse.
Qed.

Lemma emit_decide_correct_witness :
  let f := {| ef_outcome := CF_DNS_TXN_OBSERVED; ef_rcode := 0; ef_qtype := 28;
              ef_has_response := 1; ef_sample_key := 7 |} in
  let p := {| ep_mode := CF_DNS_EMIT_PREDICATE; ep_sample_denominator := 1000 |} in
  cf_dns_emit_decide (Some p) (Some f) = 0 /\
  ~ exists m, 0 <= m * 1000 < 2 ^ 64 /\ 7 = splitmix64_inverse (m * 1000).
Proof.
  intros f p. assert (cf_dns_emit_decide (Some p) (Some f) = 0) as H0 by (vm_compute; reflexivity).
  split; [exact H0|].
  destruct (emit_decide_correct (Some p) f) as (_ & _ & H & _); [split; [discriminate|reflexivity]|].
  destruct (H p eq_refl eq_refl) as [_ Hr]; [repeat split; right; reflexivity|reflexivity|].
  intros Hm. rewrite (Hr Hm) in H0. discriminate.
Defined.
