(* ===== verification/Worker.v ===== *)
(** * Worker: a thread between the capture queue and its stage

    [sources/cloudflow-source-dns/src/dns_stage.c] and
    [sources/cloudflow-source-dhcp/src/formatter.c] run the same loop: while the
    stop flag is clear, take one frame from the input queue and process it, or
    do what is done on an empty queue; then drain what is still queued.  The
    capture thread may push frames before every iteration ([turn]), and the
    loop makes one turn each time it reads the stop flag clear.  A process
    ([wk_process]) and an idle step ([wk_idle]) over a state of any type make a
    worker; what they preserve, the loop preserves, counting the frames.
    Logging, sleeping and the thread's name are left out. *)

From S2P Require Import Prelude Core Queue QueuePolicy Observation.

(** One iteration of the loop: what the capture thread pushes before it, and
    the environments of the process and of the idle step. *)
Record turn {E T : Type} := {
  tn_arrivals : list (list Z); tn_frame : E; tn_idle : T
}.
Arguments turn : clear implicits.

(** Environments [E] of a frame and [T] of an idle step, state [S]. *)
Record worker (E T S : Type) := {
  wk_process : E -> cf_packet_item_t -> S -> exec S;
  wk_idle : T -> S -> exec S
}.
Arguments wk_process {_ _ _}.
Arguments wk_idle {_ _ _}.

Definition frame_image (b : list Z) : Prop :=
  zlen b = SIZEOF_PACKET_ITEM /\ packet_ok (packet_of_image b).

Lemma image_ok p : packet_ok p -> fields_ok p -> frame_image (packet_image p).
Proof. intros Hp Hf. destruct (image_roundtrip p Hp Hf) as [He Hl]. split; [done|by rewrite He]. Qed.

(** The queue of events to the Redis producer. *)
Definition out_ok {Q : Type} `{BoundedFifo Q} (q : Q) : Prop :=
  fifo_wf q /\ fifo_element_size q = SIZEOF_EVENT_ITEM.

Section Worker.
Context {R : Type} `{BoundedFifo R} {E T S : Type}.
Variable w : worker E T S.

(** ** The loop *)

(** The capture thread's pushes and how many were accepted. *)
Fixpoint arrive (frames : list (list Z)) (iq : R) : exec (R * Z) :=
  match frames with
  | [] => Ret (iq, 0)
  | b :: frames =>
      '(rc, iq) ← fifo_push iq b;
      '(iq, n) ← arrive frames iq;
      Ret (iq, if rc =? 0 then n + 1 else n)
  end.

(** The frames accepted so far are counted in [n]. *)
Definition worker_turn (tn : turn E T) (iq : R) (s : S) (n : Z) : exec (R * S * Z) :=
  '(iq, k) ← arrive (tn_arrivals tn) iq;
  '(rc, iq, b) ← fifo_pop iq;
  if rc =? 0 then
    s ← wk_process w (tn_frame tn) (packet_of_image b) s;
    Ret (iq, s, n + k)
  else
    s ← wk_idle w (tn_idle tn) s;
    Ret (iq, s, n + k).

Fixpoint worker_loop (turns : list (turn E T)) (iq : R) (s : S) (n : Z) : exec (R * S * Z) :=
  match turns with
  | [] => Ret (iq, s, n)
  | tn :: turns => '(iq, s, n) ← worker_turn tn iq s n; worker_loop turns iq s n
  end.

Fixpoint worker_drain (fuel : nat) (envs : nat -> E) (i : nat) (iq : R) (s : S) : exec (R * S) :=
  match fuel with
  | O => Spin
  | Datatypes.S fuel =>
      '(rc, iq, b) ← fifo_pop iq;
      if rc =? 0 then
        s ← wk_process w (envs i) (packet_of_image b) s;
        worker_drain fuel envs (Datatypes.S i) iq s
      else Ret (iq, s)
  end.

(** Fuel of the drain: one step per queued frame, and the end. *)
Definition worker_main (turns : list (turn E T)) (envs : nat -> E) (iq : R) (s : S)
    : exec (R * S * Z) :=
  '(iq, s, n) ← worker_loop turns iq s 0;
  '(iq, s) ← worker_drain (Datatypes.S (length (fifo_items iq))) envs 0 iq s;
  Ret (iq, s, n).

(** ** Every frame is processed *)

(** A queue of elements of [size] bytes, each with the property [P]. *)
Definition holds_images (size : Z) (P : list Z -> Prop) (iq : R) : Prop :=
  fifo_wf iq /\ fifo_element_size iq = size /\ Forall P (fifo_items iq).

Definition in_ok (iq : R) : Prop := holds_images SIZEOF_PACKET_ITEM frame_image iq.

Variable env_fine : E -> Prop.
Variable idle_fine : T -> Prop.

Definition turn_ok (tn : turn E T) : Prop :=
  Forall frame_image (tn_arrivals tn) /\ env_fine (tn_frame tn) /\ idle_fine (tn_idle tn).

(** [inv f s]: [s] is a state after [f] frames. *)
Variable inv : Z -> S -> Prop.
Hypothesis process_inv : forall e pkt f s, env_fine e -> packet_ok pkt -> inv f s ->
  runs (wk_process w e pkt s) (inv (f + 1)).
Hypothesis idle_inv : forall t f s, idle_fine t -> inv f s -> runs (wk_idle w t s) (inv f).

(** The accepted pushes [k] end the queue. *)
Lemma arrive_images size (P : list Z -> Prop) l : forall iq, (forall b, P b -> zlen b = size) ->
  holds_images size P iq -> Forall P l ->
  runs (arrive l iq) (fun '(iq', n) => holds_images size P iq' /\ fifo_bound iq' = fifo_bound iq /\
    exists k, fifo_items iq' = fifo_items iq ++ k /\ zlen k = n /\ zlen k <= zlen l).
Proof.
  intros iq HP. revert iq. induction l as [|b l IH]; intros iq Hin Hl; cbn [arrive].
  { cbn [runs]. split_and!; [done|done|]. exists []. by rewrite app_nil_r. }
  apply Forall_cons_iff in Hl as [Hb Hl]. destruct Hin as (Hwf & Hes & Hit).
  apply runs_bind. eapply runs_mono; [apply fifo_push_spec; [done|by rewrite Hes, (HP b)]|].
  intros [rc q1] (Hwf1 & Hb1 & Hes1 & Hp). apply runs_bind.
  assert (holds_images size P q1 /\ exists k1, fifo_items q1 = fifo_items iq ++ k1 /\
    zlen k1 = (if rc =? 0 then 1 else 0)) as (Hin1 & k1 & Hk1 & Hn1).
  { destruct (_ <? _); destruct Hp as [-> Hp].
    - split; [split_and!; [done|congruence|rewrite Hp; apply Forall_app; split; [done|by constructor]]|].
      by exists [b].
    - subst q1. split; [done|]. exists []. by rewrite app_nil_r. }
  eapply runs_mono; [by apply IH|]. intros [q2 n] (Hin2 & Hb2 & k & Hk & Hn & Hle). cbn [runs].
  split_and!; [done|congruence|]. exists (k1 ++ k). rewrite Hk, Hk1, app_assoc, length_app.
  simpl. destruct (rc =? 0); split_and!; done || lia.
Qed.

Lemma arrive_runs l : forall iq, in_ok iq -> Forall frame_image l ->
  runs (arrive l iq) (fun '(iq', n) => in_ok iq' /\
    zlen (fifo_items iq') = zlen (fifo_items iq) + n).
Proof.
  intros iq Hin Hl. eapply runs_mono; [by apply (arrive_images SIZEOF_PACKET_ITEM frame_image); [intros b []|..]|].
  intros [iq' n] (Hin' & _ & k & -> & Hn & _). split; [done|]. rewrite length_app. lia.
Qed.

Lemma pop_images size (P : list Z -> Prop) iq : holds_images size P iq ->
  runs (fifo_pop iq) (fun '(rc, iq', b) => holds_images size P iq' /\ fifo_bound iq' = fifo_bound iq /\
  match fifo_items iq with
  | [] => rc = 1 /\ fifo_items iq' = []
  | x :: l => rc = 0 /\ b = x /\ P b /\ fifo_items iq' = l
  end).
Proof.
  intros (Hwf & Hes & Hit). eapply runs_mono; [by apply fifo_pop_spec|].
  intros [[rc q1] b] (Hwf1 & Hb1 & Hes1 & Hp). destruct (fifo_items iq) as [|x l] eqn:E'.
  - destruct Hp as (-> & -> & _). rewrite E'. split; [split_and!; [done|done|rewrite E'; done]|done].
  - destruct Hp as (-> & -> & Hl). apply Forall_cons_iff in Hit as [Hx Hit].
    split; [split_and!; [done|congruence|by rewrite Hl]|done].
Qed.

Lemma pop_runs iq : in_ok iq -> runs (fifo_pop iq) (fun '(rc, iq', b) => in_ok iq' /\
  match fifo_items iq with
  | [] => rc = 1 /\ fifo_items iq' = []
  | x :: l => rc = 0 /\ b = x /\ frame_image b /\ fifo_items iq' = l
  end).
Proof.
  intros Hin. eapply runs_mono; [by apply pop_images|]. intros [[rc q1] b] (Hin1 & _ & Hp). done.
Qed.

(** Every accepted frame is still queued or was processed. *)
Definition in_step (k : Z) (iq : R) (s : S) (n : Z) : Prop :=
  in_ok iq /\ exists f, inv f s /\ f + zlen (fifo_items iq) = k + n.

Lemma turn_runs tn k iq s n : turn_ok tn -> in_step k iq s n ->
  runs (worker_turn tn iq s n) (fun '(iq', s', n') => in_step k iq' s' n').
Proof.
  intros (Ha & Hv & Ht) (Hin & f & Hadv & Hsum). unfold worker_turn.
  apply runs_bind. eapply runs_mono; [by apply arrive_runs|]. intros [q1 m] [Hin1 Hm].
  apply runs_bind. eapply runs_mono; [by apply pop_runs|]. intros [[rc q2] b] [Hin2 Hp].
  destruct (fifo_items q1) as [|x l].
  - destruct Hp as [-> Hp]. cbn [Z.eqb]. apply runs_bind. eapply runs_mono; [by apply idle_inv|].
    intros s' Hs'. split; [done|]. exists f. split; [done|]. rewrite Hp. simpl in *. lia.
  - destruct Hp as (-> & -> & [_ Hx] & Hp). cbn [Z.eqb]. apply runs_bind.
    eapply runs_mono; [by apply process_inv|]. intros s' Hs'. split; [done|].
    exists (f + 1). split; [done|]. rewrite Hp. simpl in *. lia.
Qed.

Lemma loop_runs turns : forall k iq s n, Forall turn_ok turns -> in_step k iq s n ->
  runs (worker_loop turns iq s n) (fun '(iq', s', n') => in_step k iq' s' n').
Proof.
  induction turns as [|tn turns IH]; intros k iq s n Hts Hst; cbn [worker_loop]; [done|].
  apply Forall_cons_iff in Hts as [Ht Hts]. apply runs_bind.
  eapply runs_mono; [by apply turn_runs|]. intros [[iq' s'] n'] Hst'. by apply IH.
Qed.

Lemma drain_runs envs n k fuel : forall i iq s, (forall i, env_fine (envs i)) ->
  in_step k iq s n -> (length (fifo_items iq) < fuel)%nat ->
  runs (worker_drain fuel envs i iq s) (fun '(iq', s') =>
    fifo_items iq' = [] /\ in_step k iq' s' n).
Proof.
  induction fuel as [|fuel IH]; intros i iq s Henv (Hin & f & Hadv & Hsum) Hf; [lia|].
  cbn [worker_drain]. apply runs_bind. eapply runs_mono; [by apply pop_runs|].
  intros [[rc q2] b] [Hin2 Hp]. destruct (fifo_items iq) as [|x l].
  - destruct Hp as [-> Hp]. cbn [Z.eqb runs]. split; [done|]. split; [done|]. exists f.
    split; [done|]. rewrite Hp. done.
  - destruct Hp as (-> & -> & [_ Hx] & Hp). cbn [Z.eqb]. apply runs_bind.
    eapply runs_mono; [by apply process_inv|]. intros s' Hs'. apply IH; [done| |].
    + split; [done|]. exists (f + 1). split; [done|]. rewrite Hp. simpl in *. lia.
    + rewrite Hp. simpl in *. lia.
Qed.

(** The worker ends with its queue empty, after as many frames as were queued
    or accepted. *)
Lemma worker_runs turns envs iq s : in_ok iq -> inv 0 s -> Forall turn_ok turns ->
  (forall i, env_fine (envs i)) ->
  runs (worker_main turns envs iq s) (fun '(iq', s', n) =>
    fifo_items iq' = [] /\ inv (zlen (fifo_items iq) + n) s').
Proof.
  intros Hin Hs Hts Henvs. unfold worker_main. apply runs_bind.
  eapply runs_mono; [apply (loop_runs turns (zlen (fifo_items iq)) iq s 0 Hts)|].
  { split; [done|]. exists 0. split; [done|lia]. }
  intros [[iq1 s1] n] Hst1. apply runs_bind.
  eapply runs_mono; [apply (drain_runs envs n _ _ 0 iq1 s1 Henvs Hst1); lia|].
  intros [iq2 s2] [He (_ & f & Hs2 & Hsum)]. cbn [runs]. split; [done|].
  rewrite He in Hsum. simpl in Hsum. by replace (zlen (fifo_items iq) + n) with f by lia.
Qed.
End Worker.

(** An input queue for three frames. *)
Definition sample_in : option cf_queue_t := snd (cf_queue_init true (Some null_queue) 3 SIZEOF_PACKET_ITEM).

Lemma sample_in_ok : in_ok sample_in.
Proof.
  destruct (init_wf true null_queue 3 SIZEOF_PACKET_ITEM sample_in) as (Hwf & Hi & _ & He); [done|done|].
  split; [exact Hwf|]. split; [exact He|].
  change (fifo_items sample_in) with (queue_items sample_in). rewrite Hi. constructor.
Qed.
