(* ===== verification/DnsKey.v ===== *)
(** * DnsKey: from a captured frame to a correlation key
    ([sources/cloudflow-source-dns/src/dns_stage.c])

    The normalized view of a frame, the DNS-over-TCP length prefix, the
    correlation key and its renderings.  A packet's frame is the first
    [captured_len] bytes of its [data]; the [dns] pointer of a view is its
    offset in the frame.  The stage's statistics pointer is never NULL
    ([dns_stage_new] refuses it), so the guards on it are not repeated. *)

From S2P Require Import Prelude Counters IpFmt ParseUtil Decap Observation Dns LegClassify Correlation.

(** ** Counters of [dns_source_stats.h] *)

Inductive stat :=
| packets_skipped_total | decode_parse_failure_total | dns_tcp_partial_total
| dns_queries_parsed_total | dns_responses_parsed_total
| dns_transactions_emitted_total
| dns_transactions_emitted_client_facing_total | dns_transactions_emitted_backend_total
| dns_transactions_emitted_recursion_upstream_total | dns_transactions_emitted_unknown_total
| dns_query_unanswered_total | dns_response_unmatched_total | dns_pending_drop_total
| dns_pending_evicted_collision_total | dns_rtt_invalid_total | dns_pending_table_depth
| dns_sampled_out_total | protobuf_encode_failure_total | events_oversize_dropped_total
| formatter_queue_drop_total | formatter_queue_depth.

#[export] Instance stat_eq_dec : EqDecision stat.
Proof. solve_decision. Defined.

(** The atomic counters, each an [unsigned long]. *)
Definition cf_dns_source_stats_t : Type := stat -> Z.

(** ** Packets and their view *)

Record dns_l2l4_t := {
  d_transport : Z;
  d_l3 : l3;
  d_src_port : Z; d_dst_port : Z;
  d_udp_length : Z; d_udp_checksum_present : Z;
  d_tcp_flags : Z; d_tcp_payload_len : Z;
  d_dns : Z; d_dns_len : Z
}.

(** The view, when the function returns 0, and the counters. *)
Definition dns_decode_frame (st : cf_dns_source_stats_t) (frame : list Z)
    : exec (option dns_l2l4_t * cf_dns_source_stats_t) :=
  '(ru, u) ← cf_decap_udp frame;
  match ru with
  | CF_DECAP_OK =>
      Ret (Some {| d_transport := 0; d_l3 := u_l3 u; d_src_port := u_src_port u;
                   d_dst_port := u_dst_port u; d_udp_length := udp_length u;
                   d_udp_checksum_present := udp_checksum_present u; d_tcp_flags := 0;
                   d_tcp_payload_len := 0; d_dns := u_payload u; d_dns_len := u_payload_len u |}, st)
  | CF_DECAP_NOT_UDP =>
      '(rt, t) ← cf_decap_tcp frame;
      match rt with
      | CF_DECAP_OK =>
          if t_payload_len t <? 2 then Ret (None, stat_inc packets_skipped_total st)
          else
            b0 ← rd frame (t_payload t);
            b1 ← rd frame (t_payload t + 1);
            let declared := u16 (be16_of b0 b1) in
            let avail := t_payload_len t - 2 in
            if avail <? declared then Ret (None, stat_inc dns_tcp_partial_total st)
            else
              Ret (Some {| d_transport := 1; d_l3 := t_l3 t; d_src_port := t_src_port t;
                           d_dst_port := t_dst_port t; d_udp_length := 0;
                           d_udp_checksum_present := 0; d_tcp_flags := tcp_flags t;
                           d_tcp_payload_len := u32 (t_payload_len t);
                           d_dns := t_payload t + 2; d_dns_len := declared |}, st)
      | _ => Ret (None, stat_inc packets_skipped_total st)
      end
  | _ => Ret (None, stat_inc packets_skipped_total st)
  end.

(** ** The correlation key *)

(** Server and client endpoints, as (address, port). *)
Definition orient (d : dns_l2l4_t) : (list Z * Z) * (list Z * Z) :=
  let src := (src_ip (d_l3 d), d_src_port d) in
  let dst := (dst_ip (d_l3 d), d_dst_port d) in
  if d_dst_port d =? 53 then (dst, src)
  else if d_src_port d =? 53 then (src, dst)
  else (dst, src).

(** The 0x20 normalization of one byte. *)
Definition fold_case (c : Z) : Z := if (65 <=? c) && (c <=? 90) then u8 (c + 32) else c.

(** The question part: type, class, canonical name and its length. *)
Definition key_question (msg : dns_message) : Z * Z * list Z * Z :=
  match m_questions msg with
  | [] => (0, 0, replicate 256 0, 0)
  | q0 :: _ =>
      let qn := q_qname q0 in
      let n := if 256 <? zlen qn then 256 else zlen qn in
      (u16 (q_qtype q0), u16 (q_qclass q0),
       splice (replicate 256 0) 0 (map fold_case (take (Z.to_nat n) qn)), u16 n)
  end.

Definition dns_build_key (d : dns_l2l4_t) (msg : dns_message) (local_is_server : Z)
    : cf_dns_txn_key_t :=
  let '((server_ip, server_port), (client_ip, client_port)) := orient d in
  let '(qtype, qclass, qname, qlen) := key_question msg in
  {| k_transport := d_transport d;
     k_local_is_server := if negb (local_is_server =? 0) then 1 else 0;
     k_ip_version := ip_version (d_l3 d);
     k_client_ip := slice client_ip 0 16; k_server_ip := slice server_ip 0 16;
     k_client_port := client_port; k_server_port := server_port;
     k_dns_id := u16 (h_id (m_header msg)); k_qtype := qtype; k_qclass := qclass;
     k_qname_canonical := qname; k_qname_len := qlen |}.

(** The bytes of the sampling hash: the key's, without the name length. *)
Definition sample_bytes (k : cf_dns_txn_key_t) : list Z :=
  let qn := if 256 <? k_qname_len k then 256 else k_qname_len k in
  [k_transport k; k_local_is_server k; k_ip_version k] ++
  slice (k_client_ip k) 0 16 ++ slice (k_server_ip k) 0 16 ++
  [Z.land (k_client_port k) 0xff; Z.shiftr (k_client_port k) 8;
   Z.land (k_server_port k) 0xff; Z.shiftr (k_server_port k) 8;
   Z.land (k_dns_id k) 0xff; Z.shiftr (k_dns_id k) 8;
   Z.land (k_qtype k) 0xff; Z.shiftr (k_qtype k) 8;
   Z.land (k_qclass k) 0xff; Z.shiftr (k_qclass k) 8] ++
  slice (k_qname_canonical k) 0 qn.

Definition dns_key_sample_hash (k : cf_dns_txn_key_t) : Z :=
  foldl fnv_byte 1469598103934665603 (sample_bytes k).

(** The provenance string, in a buffer of [out_len] bytes. *)
Definition dns_format_txn_key (inet_ntop : Z -> list Z -> list Z) (out_len : Z)
    (k : cf_dns_txn_key_t) : list Z :=
  let qn := if 256 <? k_qname_len k then 256 else k_qname_len k in
  let qname := c_str (slice (k_qname_canonical k) 0 qn) in
  let client := cf_format_ip inet_ntop (k_ip_version k) (k_client_ip k) in
  let server := cf_format_ip inet_ntop (k_ip_version k) (k_server_ip k) in
  snprintf out_len
    ((if k_transport k =? 1 then bs "tcp" else bs "udp") ++ bs " " ++ client ++ bs ":" ++
     dec (k_client_port k) ++ bs "->" ++ server ++ bs ":" ++ dec (k_server_port k) ++
     bs " id=" ++ dec (k_dns_id k) ++ bs " " ++ qname ++ bs "/" ++ dec (k_qtype k) ++ bs "/" ++
     dec (k_qclass k)).

(** ** Decoding a frame *)

(** A usable view: addresses and ports in range, the message inside the frame;
    on TCP it is what the two bytes before it declare. *)
Record view_of (frame : list Z) (d : dns_l2l4_t) : Prop := {
  vo_l3 : l3_ok (d_l3 d);
  vo_ports : 0 <= d_src_port d < 65536 /\ 0 <= d_dst_port d < 65536;
  vo_transport : d_transport d = 0 \/ d_transport d = 1 /\ 2 <= d_dns d /\
    be_value 0 (slice frame (d_dns d - 2) 2) = d_dns_len d;
  vo_dns : view_ok (zlen frame) (d_dns d) (d_dns_len d)
}.

Lemma slice_2 (d : list Z) off a b : 0 <= off -> d !! Z.to_nat off = Some a ->
  d !! Z.to_nat (off + 1) = Some b -> slice d off 2 = [a; b].
Proof.
  intros Ho Ha Hb. rewrite (slice_S _ _ _ a) by (done || lia).
  rewrite (slice_S _ _ _ b) by (done || lia). done.
Qed.

Lemma decode_frame_runs st frame : bytes_ok frame ->
  runs (dns_decode_frame st frame) (fun '(r, st') =>
    match r with
    | Some d => view_of frame d /\ st' = st
    | None => counted packets_skipped_total st st' \/ counted dns_tcp_partial_total st st'
    end).
Proof.
  intros Hok. unfold dns_decode_frame. apply runs_bind.
  eapply runs_mono; [by apply decap_udp_ok|]. intros [ru u] (Hl & _ & Hu).
  destruct ru; try (apply runs_ret; left; apply counted_inc).
  - destruct (Hu eq_refl) as (Hv & _ & _ & _ & Hs & Hd). apply runs_ret. split; [|done].
    split; simpl; auto.
  - apply runs_bind. eapply runs_mono; [by apply decap_tcp_ok|]. intros [rt t] (Hlt & _ & Ht).
    destruct rt; try (apply runs_ret; left; apply counted_inc).
    destruct (Ht eq_refl) as (Hv & _ & _ & Hs & Hd & _). unfold view_ok in Hv.
    apply runs_if; intros Hlen; [apply runs_ret; left; apply counted_inc|].
    apply runs_bind, runs_rd; [done|lia|]. intros b0 Hb0 Hok0.
    apply runs_bind, runs_rd; [done|lia|]. intros b1 Hb1 Hok1.
    pose proof (be16_of_bound b0 b1 Hok0 Hok1) as Hbd. rewrite u16_id by done.
    apply runs_if; intros Hav; [apply runs_ret; right; apply counted_inc|].
    apply runs_ret. split; [|done]. split; simpl; auto; [|unfold view_ok; lia].
    right. split; [done|]. split; [lia|].
    replace (t_payload t + 2 - 2) with (t_payload t) by lia.
    rewrite (slice_2 _ _ b0 b1) by (done || lia). by rewrite be16_of_eq.
Qed.

(** Decoding any frame is safe: it yields a view whose DNS message lies
    inside the frame (on TCP exactly the bytes its length prefix declares), or
    counts the frame once, as skipped or as a partial TCP message. *)
Theorem decode_frame_safe st frame : bytes_ok frame ->
  runs (dns_decode_frame st frame) (fun '(r, st') =>
    match r with
    | Some d => view_of frame d /\ st' = st
    | None => counted packets_skipped_total st st' \/ counted dns_tcp_partial_total st st'
    end).
Proof. apply decode_frame_runs. Qed.

Lemma decode_frame_safe_witness :
  runs (dns_decode_frame (fun _ => 0) [1; 2; 3]) (fun '(r, st') =>
    match r with
    | Some d => view_of [1; 2; 3] d /\ st' = (fun _ => 0)
    | None => counted packets_skipped_total (fun _ => 0) st' \/
              counted dns_tcp_partial_total (fun _ => 0) st'
    end).
Proof.
  apply (decode_frame_safe (fun _ => 0) [1; 2; 3]).
  repeat (apply Forall_cons_2; [done|]). constructor.
Defined.

(** ** The two halves of a transaction *)

(** The reverse direction: the same transport with the endpoints exchanged. *)
Record reversed (d d' : dns_l2l4_t) : Prop := {
  rv_transport : d_transport d' = d_transport d;
  rv_version : ip_version (d_l3 d') = ip_version (d_l3 d);
  rv_src : src_ip (d_l3 d') = dst_ip (d_l3 d) /\ d_src_port d' = d_dst_port d;
  rv_dst : dst_ip (d_l3 d') = src_ip (d_l3 d) /\ d_dst_port d' = d_src_port d
}.

(** The same question up to the case of its name, under the same id. *)
Record same_question (m m' : dns_message) : Prop := {
  sq_id : h_id (m_header m') = h_id (m_header m);
  sq_question : match m_questions m, m_questions m' with
    | [], [] => True
    | q :: _, q' :: _ => q_qtype q' = q_qtype q /\ q_qclass q' = q_qclass q /\
        map fold_case (q_qname q') = map fold_case (q_qname q)
    | _, _ => False
    end
}.

(** The key the stage gives a decoded packet. *)
Definition packet_key (cfg : option cf_dns_leg_config_t) (d : dns_l2l4_t) (m : dns_message)
    : cf_dns_txn_key_t :=
  dns_build_key d m (snd (cf_dns_classify_leg cfg (ip_version (d_l3 d)) (src_ip (d_l3 d))
    (d_src_port d) (dst_ip (d_l3 d)) (d_dst_port d) CF_DNS_DIR_UNKNOWN)).

Definition one_server (d : dns_l2l4_t) : Prop :=
  (d_src_port d = 53 /\ d_dst_port d <> 53) \/ (d_src_port d <> 53 /\ d_dst_port d = 53).

Lemma key_question_same m m' : same_question m m' -> key_question m' = key_question m.
Proof.
  intros [_ H]. unfold key_question.
  destruct (m_questions m) as [|q qs], (m_questions m') as [|q' qs']; try done.
  destruct H as (-> & -> & Hn). assert (length (q_qname q') = length (q_qname q)) as ->
    by (apply (f_equal length) in Hn; by rewrite !length_map in Hn).
  do 2 f_equal. f_equal. rewrite <- !firstn_map. unfold take in *. by rewrite Hn.
Qed.

Lemma orient_reversed d d' : reversed d d' -> one_server d -> orient d' = orient d.
Proof.
  intros [_ _ [Hs Hsp] [Hd Hdp]] H. unfold orient. rewrite Hs, Hsp, Hd, Hdp.
  destruct H as [[-> H]|[H ->]]; simpl.
  - by replace (d_dst_port d =? 53) with false by lia.
  - by replace (d_src_port d =? 53) with false by lia.
Qed.

Lemma classify_reversed cfg d d' : reversed d d' ->
  cf_dns_classify_leg cfg (ip_version (d_l3 d')) (src_ip (d_l3 d')) (d_src_port d')
    (dst_ip (d_l3 d')) (d_dst_port d') CF_DNS_DIR_UNKNOWN =
  cf_dns_classify_leg cfg (ip_version (d_l3 d)) (src_ip (d_l3 d)) (d_src_port d)
    (dst_ip (d_l3 d)) (d_dst_port d) CF_DNS_DIR_UNKNOWN.
Proof.
  intros [_ -> [-> ->] [-> ->]]. unfold cf_dns_classify_leg, CF_DNS_SERVER_PORT.
  by destruct (d_src_port d =? 53), (d_dst_port d =? 53).
Qed.

Lemma packet_key_reversed cfg d d' m m' : reversed d d' -> same_question m m' -> one_server d ->
  packet_key cfg d' m' = packet_key cfg d m.
Proof.
  intros Hr Hq H1. unfold packet_key. rewrite (classify_reversed _ _ _ Hr).
  unfold dns_build_key. rewrite (orient_reversed _ _ Hr H1), (key_question_same _ _ Hq).
  destruct Hr as [-> -> _ _]. by rewrite (sq_id _ _ Hq).
Qed.

(** A query and its response get one key: for packets of opposite
    directions with exactly one endpoint on port 53, the same id and the same
    question up to letter case, the keys are equal byte for byte. *)
Theorem key_halves_agree cfg d d' m m' :
  reversed d d' -> same_question m m' -> one_server d ->
  packet_key cfg d' m' = packet_key cfg d m.
Proof. apply packet_key_reversed. Qed.

Lemma slice_idem {A} (l : list A) n : slice (slice l 0 n) 0 n = slice l 0 n.
Proof.
  unfold slice. change (Z.to_nat 0) with 0%nat. by rewrite !drop_0, take_take, Nat.min_id.
Qed.

(** When both ports are 53 (a resolver with a fixed source port), or
    neither, the two halves never share a key unless the endpoints coincide:
    the destination is taken as the server in both directions, against the
    comment that both halves still agree. *)
Theorem key_halves_disagree cfg d d' m m' :
  reversed d d' -> (d_src_port d = 53 <-> d_dst_port d = 53) ->
  (slice (src_ip (d_l3 d)) 0 16, d_src_port d) <> (slice (dst_ip (d_l3 d)) 0 16, d_dst_port d) ->
  key_equal (packet_key cfg d m) (packet_key cfg d' m') = false.
Proof.
  intros [_ _ [Hs Hsp] [Hd Hdp]] Hports Hne. unfold packet_key, dns_build_key, orient.
  rewrite Hs, Hsp, Hd, Hdp.
  assert (forall A (x y : A), (if d_dst_port d =? 53 then x else if d_src_port d =? 53 then y else x) = x)
    as E1 by (intros; destruct (Z.eqb_spec (d_dst_port d) 53), (Z.eqb_spec (d_src_port d) 53); tauto).
  assert (forall A (x y : A), (if d_src_port d =? 53 then x else if d_dst_port d =? 53 then y else x) = x)
    as E2 by (intros; destruct (Z.eqb_spec (d_dst_port d) 53), (Z.eqb_spec (d_src_port d) 53); tauto).
  rewrite E1, E2. destruct (key_question m) as [[[? ?] ?] ?], (key_question m') as [[[? ?] ?] ?].
  unfold key_equal. cbn [k_transport k_local_is_server k_ip_version k_client_ip k_server_ip
    k_client_port k_server_port k_dns_id k_qtype k_qclass].
  destruct (Z.eqb_spec (d_src_port d) (d_dst_port d)) as [Hp|Hp].
  - match goal with |- (if ?b then false else _) = false => destruct b; [done|] end.
    assert (slice (src_ip (d_l3 d)) 0 16 <> slice (dst_ip (d_l3 d)) 0 16) as Hn by congruence.
    rewrite (bool_decide_eq_false_2 (slice (slice (src_ip _) 0 16) 0 16 = _)); [done|].
    intros Hx. apply Hn. by rewrite !slice_idem in Hx.
  - simpl. by rewrite !orb_true_r.
Qed.

(** A view of a made-up packet. *)
Definition sample_view (src dst : list Z) (sp dp : Z) : dns_l2l4_t :=
  {| d_transport := 0;
     d_l3 := set_ip 4 src dst 17 64 0 0 l3_zero;
     d_src_port := sp; d_dst_port := dp; d_udp_length := 0; d_udp_checksum_present := 0;
     d_tcp_flags := 0; d_tcp_payload_len := 0; d_dns := 0; d_dns_len := 0 |}.

Definition sample_msg (qr : bool) (name : list Z) : dns_message :=
  {| m_header := {| h_id := 4660; h_qr := qr; h_opcode := 0; h_aa := false; h_tc := false;
                    h_rd := true; h_ra := false; h_ad := false; h_cd := false; h_rcode := 0;
                    h_qdcount := 1; h_ancount := 0; h_nscount := 0; h_arcount := 0 |};
     m_questions := [{| q_qname := name; q_qname_wire := None; q_qtype := 1;
                        q_qtype_name := bs "A"; q_qclass := 1 |}];
     m_answers := []; m_authority := []; m_additional := []; m_edns := None |}.

Lemma sample_reversed a b sp dp : reversed (sample_view a b sp dp) (sample_view b a dp sp).
Proof. by split. Qed.

Lemma key_halves_agree_witness :
  packet_key None (sample_view ip4 (replicate 16 9) 53 40000) (sample_msg true (bs "Example.COM")) =
  packet_key None (sample_view (replicate 16 9) ip4 40000 53) (sample_msg false (bs "example.com")).
Proof.
  apply (key_halves_agree None (sample_view (replicate 16 9) ip4 40000 53)).
  - apply sample_reversed.
  - split; [reflexivity|]. simpl. split; [reflexivity|]. split; reflexivity.
  - right. split; [discriminate|reflexivity].
Defined.

Lemma key_halves_disagree_witness :
  let d := sample_view ip4 (replicate 16 9) 53 53 in
  let d' := sample_view (replicate 16 9) ip4 53 53 in
  key_equal (packet_key None d (sample_msg false (bs "a")))
    (packet_key None d' (sample_msg true (bs "a"))) = false.
Proof.
  intros d d'. apply (key_halves_disagree None d d').
  - apply sample_reversed.
  - split; reflexivity.
  - discriminate.
Defined.
