(* ===== verification/DnsEvent.v ===== *)
(** * DnsEvent: the event a DNS transaction becomes
    ([sources/cloudflow-source-dns/src/dns_stage.c], the builders)

    The observation trees, the per-frame context, the transaction event, its
    envelope and the queue item.  A tree built by hand is freed as a whole when
    one of its allocations fails, so a builder is a function to [option]; each
    allocation has a name ([site]) and [al] says whether it succeeds.  The
    generated [__init] functions zero the fields a builder does not set; such
    fields are not listed.  [inet_ntop] is a parameter. *)

From S2P Require Import Prelude IpFmt Core ParseUtil Sha256 EventId Decap Dns LegClassify.
From S2P Require Import Counters Observation.
From S2P Require Import Correlation DnsKey.

(** ** The transport layer *)

(** A parsed message with the wire bytes the stage keeps. *)
Record DnsMessage := {
  dm_tree : dns_message; dm_raw_dns_payload : list Z; dm_raw_payload_truncated : Z
}.

Section Builders.
Variable inet_ntop : Z -> list Z -> list Z.
Variable al : site -> bool.

Definition dns_build_transport (d : dns_l2l4_t) : option TransportLayerObservation :=
  if negb (al A_transport) then None
  else if d_transport d =? 1 then
    if negb (al A_tcp) then None
    else Some {| to_protocol := TRANSPORT_PROTOCOL_TCP;
                 to_ip_protocol_number := next_header (d_l3 d);
                 to_src_port := d_src_port d; to_dst_port := d_dst_port d;
                 to_details := DETAILS_TCP (d_tcp_flags d) (d_tcp_payload_len d) |}
  else
    if negb (al A_udp) then None
    else Some {| to_protocol := TRANSPORT_PROTOCOL_UDP; to_ip_protocol_number := 17;
                 to_src_port := d_src_port d; to_dst_port := d_dst_port d;
                 to_details := DETAILS_UDP (d_udp_length d)
                   (if d_udp_checksum_present d =? 0 then 0 else 1) |}.

Definition dns_build_network (d : dns_l2l4_t) : option NetworkLayerObservation :=
  network_of inet_ntop al (d_l3 d).

Definition dns_build_link (d : dns_l2l4_t) : exec (option LinkLayerObservation) :=
  link_of al (d_l3 d).

Definition dns_build_pobs (pkt : cf_packet_item_t) (d : dns_l2l4_t)
    : exec (option PacketObservation) :=
  if negb (al A_pobs) then Ret None
  else
    link ← dns_build_link d;
    Ret (observation_of pkt link (dns_build_network d) (dns_build_transport d)).

(** The parsed message with its wire bytes, when there is room for them. *)
Definition keep_payload (tree : dns_message) (body : list Z) : DnsMessage :=
  {| dm_tree := tree;
     dm_raw_dns_payload := if (0 <? zlen body) && al A_raw_dns_payload then body else [];
     dm_raw_payload_truncated := 0 |}.

(** ** The per-frame context *)

Record dns_ctx_t := {
  c_msg : DnsMessage; c_pobs : PacketObservation; c_warnings : list parser_warning;
  c_role : DnsLeg; c_rcode : Z; c_qtype : Z; c_observed_time : Z; c_frame : list Z
}.

(** ** The transaction event *)

Record DnsTransactionEvent := {
  te_query_packet : option PacketObservation; te_response_packet : option PacketObservation;
  te_query : option DnsMessage; te_response : option DnsMessage;
  te_parser_warnings : list parser_warning; te_role : DnsLeg;
  te_rtt_nanos : Z; te_rtt_valid : Z; te_transaction_key : list Z;
  te_client_ip : list Z; te_client_port : Z; te_server_ip : list Z; te_service_role : list Z
}.

Definition warnings_of (c : option dns_ctx_t) : list parser_warning :=
  match c with Some c => c_warnings c | None => [] end.

#[export] Instance DnsLeg_eq_dec : EqDecision DnsLeg.
Proof. solve_decision. Defined.

Definition build_txn (role_map : option cf_dns_role_map) (role : DnsLeg)
    (q r : option dns_ctx_t) (m : emission) : option DnsTransactionEvent :=
  let key := m_key m in
  if negb (al A_txn) then None
  else
    let total := warnings_of q ++ warnings_of r in
    let service_role :=
      if bool_decide (role <> DNS_LEG_UNKNOWN)
      then cf_dns_role_lookup role_map (k_ip_version key) (k_server_ip key) else None in
    match dup_field (al A_transaction_key) (Some (dns_format_txn_key inet_ntop 400 key)),
          dup_field (al A_client_ip) (Some (cf_format_ip inet_ntop (k_ip_version key) (k_client_ip key))),
          dup_field (al A_server_ip) (Some (cf_format_ip inet_ntop (k_ip_version key) (k_server_ip key))),
          dup_field (al A_service_role) service_role with
    | Some transaction_key, Some client_ip, Some server_ip, Some service_role =>
        Some {| te_query_packet := c_pobs <$> q; te_response_packet := c_pobs <$> r;
                te_query := c_msg <$> q; te_response := c_msg <$> r;
                te_parser_warnings := if al A_warnings then total else [];
                te_role := role; te_rtt_nanos := m_rtt_nanos m;
                te_rtt_valid := if m_rtt_valid m =? 0 then 0 else 1;
                te_transaction_key := transaction_key; te_client_ip := client_ip;
                te_client_port := k_client_port key; te_server_ip := server_ip;
                te_service_role := service_role |}
    | _, _, _, _ => None
    end.

(** ** The envelope *)

Definition build_envelope (uninit : sha256_ctx) (now : Z) (p : provenance) (event_type : list Z)
    (primary : dns_ctx_t) : exec (option EventEnvelope) :=
  envelope_of al uninit now p (bs "dns") (bs "cloudflow.v1.DnsTransactionEvent") CF_STREAM_DNS
    event_type (c_observed_time primary) (c_frame primary).
End Builders.

(** ** The event and its queue item *)

(** The event of [CLOUD_FLOW_EVENT__PAYLOAD_DNS_TRANSACTION]. *)
Record CloudFlowEvent := {
  ev_envelope : EventEnvelope; ev_dns_transaction : DnsTransactionEvent
}.

(** On a NULL message nothing happens. *)
Definition dns_clear_raw_payload (m : option DnsMessage) : option DnsMessage :=
  (fun m => {| dm_tree := dm_tree m; dm_raw_dns_payload := []; dm_raw_payload_truncated := 1 |})
  <$> m.

Definition clear_raw (ev : CloudFlowEvent) : CloudFlowEvent :=
  let t := ev_dns_transaction ev in
  {| ev_envelope := ev_envelope ev;
     ev_dns_transaction :=
       {| te_query_packet := te_query_packet t; te_response_packet := te_response_packet t;
          te_query := dns_clear_raw_payload (te_query t);
          te_response := dns_clear_raw_payload (te_response t);
          te_parser_warnings := te_parser_warnings t; te_role := te_role t;
          te_rtt_nanos := te_rtt_nanos t; te_rtt_valid := te_rtt_valid t;
          te_transaction_key := te_transaction_key t; te_client_ip := te_client_ip t;
          te_client_port := te_client_port t; te_server_ip := te_server_ip t;
          te_service_role := te_service_role t |} |}.

Definition event_type_of (outcome : cf_dns_txn_outcome_t) : list Z :=
  match outcome with
  | CF_DNS_TXN_OBSERVED => bs "dns.transaction.observed"
  | CF_DNS_TXN_UNANSWERED => bs "dns.query.unanswered"
  | CF_DNS_TXN_UNMATCHED => bs "dns.response.unmatched"
  end.

