(* ===== verification/DnsStage.v ===== *)
(** * DnsStage: the engine between the capture and the output queue
    ([sources/cloudflow-source-dns/src/dns_stage.c])

    One value of [dns_stage] is the engine with everything it reaches: the
    correlator, the shared statistics, the output queue and the heap of
    per-frame contexts (a context is its address; using or freeing an address
    that is not allocated is [Oob]).  What the rest of the world decides during
    a call is an argument: [emit_env] and [frame_env].  The correlator calls
    [dns_stage_emit] during an operation; its calls are run in their order once
    the operation is over, each with the statistics it could read ([calls]). *)

From stdpp Require Import gmap.
From S2P Require Import Prelude Core IpFmt ParseUtil Queue QueuePolicy Sha256 EventId.
From S2P Require Import Counters Observation.
From S2P Require Import Decap Dns LegClassify Correlation Sampling DnsKey DnsEvent.

Record dns_stage_config_t := {
  cfg_provenance : provenance;
  cfg_on_full : cf_queue_full_policy_t;
  cfg_correlator : cf_dns_correlator_config_t;
  cfg_local_addrs : option cf_dns_addr_set; cfg_backend_addrs : option cf_dns_addr_set;
  cfg_role_map : option cf_dns_role_map;
  cfg_emit_policy : cf_dns_emit_policy_t
}.

(** During one frame: the allocations, the address [calloc] gives the context
    when the given ones are in use, and the environments of the emissions of
    the operation and of the sweep. *)
Record frame_env := {
  fe_alloc : site -> bool; fe_ctx : gset Z -> option Z; fe_emit : nat -> emit_env; fe_sweep : nat -> emit_env
}.

Definition DNS_STAGE_TICK_EVERY : Z := 64.

(** What becomes of a transaction. *)
Inductive verdict :=
| SampledOut | NoMemory | Oversize | EncodeFailure
| Send (item : cf_event_item_t).

Section Stage.
Context {Q : Type} `{GaugedFifo Q}.
Variable inet_ntop : Z -> list Z -> list Z.
(** The generated codec: the encoding of an event and its announced size. *)
Variable pack : CloudFlowEvent -> list Z.
Variable get_packed_size : CloudFlowEvent -> Z.

Record dns_stage := {
  s_cfg : dns_stage_config_t; s_leg : cf_dns_leg_config_t;
  s_correlator : option cf_dns_correlator; s_processed : Z;
  s_synced : cf_dns_correlator_stats_t;
  s_stats : cf_dns_source_stats_t; s_out : Q;
  s_heap : gmap Z dns_ctx_t; s_popped : list (list Z)
}.

Definition set_stats (st : cf_dns_source_stats_t) (s : dns_stage) : dns_stage :=
  {| s_cfg := s_cfg s; s_leg := s_leg s; s_correlator := s_correlator s;
     s_processed := s_processed s; s_synced := s_synced s; s_stats := st; s_out := s_out s;
     s_heap := s_heap s; s_popped := s_popped s |}.
Definition count_stat (c : stat) (s : dns_stage) : dns_stage := set_stats (stat_inc c (s_stats s)) s.
Definition set_heap (h : gmap Z dns_ctx_t) (s : dns_stage) : dns_stage :=
  {| s_cfg := s_cfg s; s_leg := s_leg s; s_correlator := s_correlator s;
     s_processed := s_processed s; s_synced := s_synced s; s_stats := s_stats s; s_out := s_out s;
     s_heap := h; s_popped := s_popped s |}.
Definition set_correlator (c : option cf_dns_correlator) (s : dns_stage) : dns_stage :=
  {| s_cfg := s_cfg s; s_leg := s_leg s; s_correlator := c;
     s_processed := s_processed s; s_synced := s_synced s; s_stats := s_stats s; s_out := s_out s;
     s_heap := s_heap s; s_popped := s_popped s |}.
Definition set_processed (n : Z) (s : dns_stage) : dns_stage :=
  {| s_cfg := s_cfg s; s_leg := s_leg s; s_correlator := s_correlator s;
     s_processed := n; s_synced := s_synced s; s_stats := s_stats s; s_out := s_out s;
     s_heap := s_heap s; s_popped := s_popped s |}.
Definition set_synced (cs : cf_dns_correlator_stats_t) (s : dns_stage) : dns_stage :=
  {| s_cfg := s_cfg s; s_leg := s_leg s; s_correlator := s_correlator s;
     s_processed := s_processed s; s_synced := cs; s_stats := s_stats s; s_out := s_out s;
     s_heap := s_heap s; s_popped := s_popped s |}.
Definition set_out (q : Q) (popped : list (list Z)) (s : dns_stage) : dns_stage :=
  {| s_cfg := s_cfg s; s_leg := s_leg s; s_correlator := s_correlator s;
     s_processed := s_processed s; s_synced := s_synced s; s_stats := s_stats s; s_out := q;
     s_heap := s_heap s; s_popped := s_popped s ++ popped |}.

(** ** Statistics *)

Definition delta (now before : Z) : Z := u64 (now - before).

(** The counters after publishing the snapshot [cs]. *)
Definition publish (cs synced : cf_dns_correlator_stats_t) (st : cf_dns_source_stats_t)
    : cf_dns_source_stats_t :=
  let st := stat_add dns_query_unanswered_total
    (delta (query_unanswered cs) (query_unanswered synced)) st in
  let st := stat_add dns_response_unmatched_total
    (delta (response_unmatched cs) (response_unmatched synced)) st in
  let st := stat_add dns_pending_drop_total
    (delta (pending_drop cs) (pending_drop synced)) st in
  let st := stat_add dns_pending_evicted_collision_total
    (delta (pending_evicted_collision cs) (pending_evicted_collision synced)) st in
  let st := stat_add dns_rtt_invalid_total (delta (rtt_invalid cs) (rtt_invalid synced)) st in
  stat_store dns_pending_table_depth (pending_depth cs) st.

Definition sync_with (cs : cf_dns_correlator_stats_t) (s : dns_stage) : dns_stage :=
  set_synced cs (set_stats (publish cs (s_synced s) (s_stats s)) s).

(** Without a correlator the snapshot would be uninitialised. *)
Definition dns_stage_sync_stats (s : dns_stage) : exec dns_stage :=
  match cf_dns_correlator_stats (s_correlator s) with
  | Some cs => Ret (sync_with cs s)
  | None => Oob
  end.

(** ** Contexts *)

Definition ctx_load (h : gmap Z dns_ctx_t) (p : option Z) : exec (option dns_ctx_t) :=
  match p with
  | None => Ret None
  | Some p => match h !! p with Some c => Ret (Some c) | None => Oob end
  end.

Definition dns_ctx_free (p : option Z) (h : gmap Z dns_ctx_t) : exec (gmap Z dns_ctx_t) :=
  match p with
  | None => Ret h
  | Some p => match h !! p with Some _ => Ret (delete p h) | None => Oob end
  end.

(** ** The emit callback *)

(** Size cap, encoding and item: the end of the function up to the push. *)
Definition encode_event (ev : CloudFlowEvent) (event_type : list Z) (observed_time : Z)
    : exec verdict :=
  let packed := get_packed_size ev in
  let '(ev, packed) :=
    if CLOUDFLOW_EVENT_MAX_SIZE <? packed
    then (clear_raw ev, get_packed_size (clear_raw ev)) else (ev, packed) in
  if CLOUDFLOW_EVENT_MAX_SIZE <? packed then Ret Oversize
  else
    payload ← wr_n (it_payload zero_item) 0 (pack ev);
    let payload_len := u32 (zlen (pack ev)) in
    if payload_len =? 0 then Ret EncodeFailure
    else
      event_type ← event_type_field (it_event_type zero_item) event_type;
      Ret (Send {| it_observed_time_unix_nano := observed_time; it_stream_id := CF_STREAM_DNS;
                   it_protocol := CF_PROTO_DNS; it_event_type := event_type;
                   it_payload_len := payload_len; it_payload := payload |}).

Definition emit_facts (q r : option dns_ctx_t) (m : emission) : cf_dns_emit_facts_t :=
  {| ef_outcome := m_outcome m;
     ef_rcode := match r, q with Some r, _ => c_rcode r | None, Some q => c_rcode q
                 | None, None => 0 end;
     ef_qtype := match q, r with Some q, _ => c_qtype q | None, Some r => c_qtype r
                 | None, None => 0 end;
     ef_has_response := match r with Some _ => 1 | None => 0 end;
     ef_sample_key := dns_key_sample_hash (m_key m) |}.

(** The decision on a transaction whose primary context is [primary]. *)
Definition emit_verdict (cfg : dns_stage_config_t) (e : emit_env) (q r : option dns_ctx_t)
    (primary : dns_ctx_t) (m : emission) : exec verdict :=
  if cf_dns_emit_decide (Some (cfg_emit_policy cfg)) (Some (emit_facts q r m)) =? 0
  then Ret SampledOut
  else
    match build_txn inet_ntop (en_alloc e) (cfg_role_map cfg) (c_role primary) q r m with
    | None => Ret NoMemory
    | Some txn =>
        env ← build_envelope (en_alloc e) (en_uninit e) (en_now e) (cfg_provenance cfg)
          (event_type_of (m_outcome m)) primary;
        match env with
        | None => Ret NoMemory
        | Some env =>
            if negb (en_alloc e A_event) then Ret NoMemory
            else encode_event {| ev_envelope := env; ev_dns_transaction := txn |}
                   (event_type_of (m_outcome m)) (c_observed_time primary)
        end
    end.

Definition role_counter (role : DnsLeg) : stat :=
  match role with
  | DNS_LEG_CLIENT_FACING => dns_transactions_emitted_client_facing_total
  | DNS_LEG_BACKEND => dns_transactions_emitted_backend_total
  | DNS_LEG_RECURSION_UPSTREAM => dns_transactions_emitted_recursion_upstream_total
  | DNS_LEG_UNKNOWN => dns_transactions_emitted_unknown_total
  end.

(** The push into the output queue and the counters after it. *)
Definition send_item (e : emit_env) (role : DnsLeg) (item : cf_event_item_t) (s : dns_stage)
    : exec dns_stage :=
  '(_, q, ctr, popped) ← cf_queue_push_policy (en_stop e) (en_consumer e) (s_out s)
    (Some (item_bytes item)) SIZEOF_EVENT_ITEM (cfg_on_full (s_cfg s))
    (Some (s_stats s formatter_queue_drop_total));
  let st := match ctr with
            | Some n => stat_store formatter_queue_drop_total n (s_stats s) | None => s_stats s end in
  let s := set_out q popped (set_stats st s) in
  let s := count_stat dns_transactions_emitted_total s in
  let s := count_stat (role_counter role) s in
  Ret (set_stats (stat_store formatter_queue_depth (fifo_length (s_out s)) (s_stats s)) s).

Definition apply_verdict (e : emit_env) (role : DnsLeg) (v : verdict) (s : dns_stage)
    : exec dns_stage :=
  match v with
  | SampledOut => Ret (count_stat dns_sampled_out_total s)
  | NoMemory => Ret s
  | Oversize => Ret (count_stat events_oversize_dropped_total s)
  | EncodeFailure => Ret (count_stat protobuf_encode_failure_total s)
  | Send item => send_item e role item s
  end.

Definition dns_stage_emit (e : emit_env) (m : emission) (snapshot : cf_dns_correlator_stats_t)
    (s : dns_stage) : exec dns_stage :=
  q ← ctx_load (s_heap s) (m_query m);
  r ← ctx_load (s_heap s) (m_response m);
  match (match q with Some q => Some q | None => r end) with
  | None => Ret s
  | Some primary =>
      v ← emit_verdict (s_cfg s) e q r primary m;
      s ← apply_verdict e (c_role primary) v s;
      h ← dns_ctx_free (m_query m) (s_heap s);
      h ← dns_ctx_free (m_response m) h;
      Ret (sync_with snapshot (set_heap h s))
  end.

(** The calls of [emit], from number [i] on. *)
Fixpoint run_calls (env : nat -> emit_env) (i : nat)
    (cs : list (emission * cf_dns_correlator_stats_t)) (s : dns_stage) : exec dns_stage :=
  match cs with
  | [] => Ret s
  | (m, snapshot) :: cs => s ← dns_stage_emit (env i) m snapshot s; run_calls env (S i) cs s
  end.

Definition calls_of (c : option cf_dns_correlator) : list (emission * cf_dns_correlator_stats_t) :=
  match c with Some c => calls c | None => [] end.

(** A correlator operation left [c]: its calls of [emit] are run. *)
Definition deliver (env : nat -> emit_env) (c : option cf_dns_correlator) (s : dns_stage)
    : exec dns_stage :=
  run_calls env 0 (drop (length (calls_of (s_correlator s))) (calls_of c)) (set_correlator c s).

(** ** The interface *)

(** [alloc] and [calloc_ok] are the allocations of the correlator and of the
    engine, [mem] the stale bytes of the correlator's pool. *)
Definition dns_stage_new (cfg : option dns_stage_config_t) (out : option Q)
    (st : option cf_dns_source_stats_t) (calloc_ok alloc : bool) (mem : list cf_dns_entry_t)
    : exec (option dns_stage) :=
  match cfg, out, st with
  | Some cfg, Some out, Some st =>
      if negb calloc_ok then Ret None
      else
        c ← cf_dns_correlator_new (Some (cfg_correlator cfg)) true alloc mem;
        match c with
        | None => Ret None
        | Some c =>
            Ret (Some {| s_cfg := cfg;
                         s_leg := {| lc_local_addrs := cfg_local_addrs cfg;
                                     lc_backend_addrs := cfg_backend_addrs cfg |};
                         s_correlator := Some c; s_processed := 0; s_synced := stats_zero;
                         s_stats := st; s_out := out; s_heap := ∅; s_popped := [] |})
        end
  | _, _, _ => Ret None
  end.

(** Teardown; the engine is gone, the shared objects and the heap remain. *)
Definition dns_stage_free (env : nat -> emit_env) (s : option dns_stage) : exec (option dns_stage) :=
  match s with
  | None => Ret None
  | Some s =>
      cs ← cf_dns_correlator_free (s_correlator s);
      s ← run_calls env 0 (drop (length (calls_of (s_correlator s))) cs) s;
      Ret (Some s)
  end.

(** The sweep every [DNS_STAGE_TICK_EVERY] frames. *)
Definition amortized_sweep (v : frame_env) (time : Z) (s : dns_stage) : exec dns_stage :=
  let n := u64 (s_processed s + 1) in
  let s := set_processed n s in
  if n mod DNS_STAGE_TICK_EVERY =? 0 then
    c ← cf_dns_correlator_tick (s_correlator s) time;
    deliver (fe_sweep v) c s
  else Ret s.

(** The context [p] is handed to the correlator. *)
Definition feed_correlator (v : frame_env) (is_response : bool) (key : cf_dns_txn_key_t) (time p : Z)
    (s : dns_stage) : exec dns_stage :=
  if is_response then
    let s := count_stat dns_responses_parsed_total s in
    c ← cf_dns_correlator_on_response (s_correlator s) (Some key) time p;
    deliver (fe_emit v) c s
  else
    let s := count_stat dns_queries_parsed_total s in
    c ← cf_dns_correlator_on_query (s_correlator s) (Some key) time p;
    deliver (fe_emit v) c s.

Definition process_packet (v : frame_env) (pkt : cf_packet_item_t) (s : dns_stage)
    : exec (Z * dns_stage) :=
  frame ← packet_frame pkt;
  '(d, st) ← dns_decode_frame (s_stats s) frame;
  match d with
  | None => Ret (1, set_stats st s)
  | Some d =>
      body ← rd_n frame (d_dns d) (d_dns_len d);
      '(tree, warnings) ← cf_dns_parse inet_ntop (Some body) true cf_warn_list_init;
      match tree with
      | None => Ret (1, count_stat decode_parse_failure_total (set_stats st s))
      | Some tree =>
          let msg := keep_payload (fe_alloc v) tree body in
          let '(role, local_is_server) :=
            cf_dns_classify_leg (Some (s_leg s)) (ip_version (d_l3 d)) (src_ip (d_l3 d))
              (d_src_port d) (dst_ip (d_l3 d)) (d_dst_port d) CF_DNS_DIR_UNKNOWN in
          let key := dns_build_key d tree local_is_server in
          pobs ← dns_build_pobs inet_ntop (fe_alloc v) pkt d;
          match pobs, fe_ctx v (dom (s_heap s)), fe_alloc v A_frame with
          | Some pobs, Some p, true =>
              let ctx := {| c_msg := msg; c_pobs := pobs;
                            c_warnings := fst (cf_warn_list_take warnings); c_role := role;
                            c_rcode := h_rcode (m_header tree); c_qtype := k_qtype key;
                            c_observed_time := pk_observed_time_unix_nano pkt;
                            c_frame := frame |} in
              let s := set_heap (<[p := ctx]> (s_heap s)) (set_stats st s) in
              s ← feed_correlator v (h_qr (m_header tree)) key (pk_observed_time_unix_nano pkt) p s;
              s ← amortized_sweep v (pk_observed_time_unix_nano pkt) s;
              s ← dns_stage_sync_stats s;
              Ret (0, s)
          | _, _, _ => Ret (1, count_stat packets_skipped_total (set_stats st s))
          end
      end
  end.

Definition dns_stage_process_packet (v : frame_env) (s : option dns_stage)
    (pkt : option cf_packet_item_t) : exec (Z * option dns_stage) :=
  match s, pkt with
  | Some s, Some pkt => '(rc, s) ← process_packet v pkt s; Ret (rc, Some s)
  | _, _ => Ret (-1, s)
  end.

Definition dns_stage_tick (env : nat -> emit_env) (now : Z) (s : option dns_stage)
    : exec (option dns_stage) :=
  match s with
  | None => Ret None
  | Some s =>
      c ← cf_dns_correlator_tick (s_correlator s) now;
      s ← deliver env c s;
      s ← dns_stage_sync_stats s;
      Ret (Some s)
  end.
End Stage.
