(* ===== verification/DnsStats.v ===== *)
(** * DnsStats: the periodic statistics line
    ([sources/cloudflow-source-dns/src/stats.c])

    Reading the shared counters, with or without reset, and the line they make:
    the keys and values given to [cf_log].  Counters are functions from their
    names; [seen] is the environment of the local variables. *)

From S2P Require Import Prelude Counters Queue DnsKey.

Definition stage_counters : list stat :=
  [packets_skipped_total; decode_parse_failure_total; dns_tcp_partial_total;
   dns_queries_parsed_total; dns_responses_parsed_total; dns_transactions_emitted_total;
   dns_transactions_emitted_client_facing_total; dns_transactions_emitted_backend_total;
   dns_transactions_emitted_recursion_upstream_total; dns_transactions_emitted_unknown_total;
   dns_query_unanswered_total; dns_response_unmatched_total; dns_pending_drop_total;
   dns_pending_evicted_collision_total; dns_rtt_invalid_total; dns_sampled_out_total;
   protobuf_encode_failure_total; events_oversize_dropped_total; formatter_queue_drop_total].

(** The line, and the counters after the report; a queue may be NULL. *)
Definition cf_dns_stats_report {Q : Type} `{GaugedFifo Q} (rx : cf_rx_stats_t)
    (st : cf_dns_source_stats_t) (redis : cf_redis_stats_t) (q_rx q_redis : option Q) (reset : bool)
    : list (list Z * list Z) * cf_rx_stats_t * cf_dns_source_stats_t :=
  let '(rv, rx') := read_counters rx_counters reset rx (fun _ => 0) in
  let '(v, st') := read_counters stage_counters reset st (fun _ => 0) in
  let depth_rx := match q_rx with Some q => fifo_length q | None => rx' rx_queue_depth end in
  let depth_redis := match q_redis with Some q => fifo_length q | None => 0 end in
  let avg := if redis xadd_total =? 0 then 0 else redis xadd_latency_ns_total / redis xadd_total in
  (map (fun '(k, n) => (bs k, dec n))
    [("packets_received_total"%string, rv packets_received_total);
     ("packets_dropped_total"%string, rv packets_dropped_total);
     ("rx_queue_drop_total"%string, rv rx_queue_drop_total);
     ("rx_queue_depth"%string, depth_rx);
     ("packets_truncated_total"%string, rv packets_truncated_total);
     ("rx_bytes_copied_total"%string, rv rx_bytes_copied_total);
     ("packets_snap_truncated_total"%string, rv packets_snap_truncated_total);
     ("packets_skipped_total"%string, v packets_skipped_total);
     ("decode_parse_failure_total"%string, v decode_parse_failure_total);
     ("dns_tcp_partial_total"%string, v dns_tcp_partial_total);
     ("dns_queries_parsed_total"%string, v dns_queries_parsed_total);
     ("dns_responses_parsed_total"%string, v dns_responses_parsed_total);
     ("dns_transactions_emitted_total"%string, v dns_transactions_emitted_total);
     ("dns_transactions_emitted_client_facing_total"%string,
        v dns_transactions_emitted_client_facing_total);
     ("dns_transactions_emitted_backend_total"%string, v dns_transactions_emitted_backend_total);
     ("dns_transactions_emitted_recursion_upstream_total"%string,
        v dns_transactions_emitted_recursion_upstream_total);
     ("dns_transactions_emitted_unknown_total"%string, v dns_transactions_emitted_unknown_total);
     ("dns_query_unanswered_total"%string, v dns_query_unanswered_total);
     ("dns_response_unmatched_total"%string, v dns_response_unmatched_total);
     ("dns_pending_drop_total"%string, v dns_pending_drop_total);
     ("dns_pending_evicted_collision_total"%string, v dns_pending_evicted_collision_total);
     ("dns_rtt_invalid_total"%string, v dns_rtt_invalid_total);
     ("dns_pending_table_depth"%string, st' dns_pending_table_depth);
     ("dns_sampled_out_total"%string, v dns_sampled_out_total);
     ("protobuf_encode_failure_total"%string, v protobuf_encode_failure_total);
     ("events_oversize_dropped_total"%string, v events_oversize_dropped_total);
     ("formatter_queue_drop_total"%string, v formatter_queue_drop_total);
     ("formatter_queue_depth"%string, st' formatter_queue_depth);
     ("redis_queue_depth"%string, depth_redis);
     ("xadd_total"%string, redis xadd_total);
     ("xadd_errors_total"%string, redis xadd_errors_total);
     ("events_lost_total"%string, redis events_lost_total);
     ("redis_reconnects_total"%string, redis redis_reconnects_total);
     ("xadd_avg_latency_ns"%string, avg)],
   rx', st').
