(* ===== verification/DnsStageSpec.v ===== *)
(** * DnsStageSpec: what the DNS event stage promises

    Memory safety and ownership of the contexts over any history of frames and
    ticks, conservation of every frame, transaction and item in the counters,
    the publication of the correlator's totals, and what one transaction
    becomes. *)

From stdpp Require Import gmap.
From S2P Require Import Prelude Core IpFmt ParseUtil Queue QueuePolicy Sha256 EventId.
From S2P Require Import Decap Dns LegClassify Correlation CorrelationRep.
From S2P Require Import Counters Observation Worker.
From S2P Require Import CorrelationSpec Sampling DnsKey DnsEvent DnsStage DnsStats.

(** ** Sums of counters *)

Definition frame_stats : list stat :=
  [packets_skipped_total; dns_tcp_partial_total; decode_parse_failure_total;
   dns_queries_parsed_total; dns_responses_parsed_total].
Definition outcome_stats : list stat :=
  [dns_sampled_out_total; events_oversize_dropped_total; protobuf_encode_failure_total;
   dns_transactions_emitted_total].
Definition role_stats : list stat :=
  [dns_transactions_emitted_client_facing_total; dns_transactions_emitted_backend_total;
   dns_transactions_emitted_recursion_upstream_total; dns_transactions_emitted_unknown_total].

(** The correlator's totals and the counters they are published in. *)
Definition synced_stats : list (stat * (cf_dns_correlator_stats_t -> Z)) :=
  [(dns_query_unanswered_total, query_unanswered);
   (dns_response_unmatched_total, response_unmatched);
   (dns_pending_drop_total, pending_drop);
   (dns_pending_evicted_collision_total, pending_evicted_collision);
   (dns_rtt_invalid_total, rtt_invalid)].

(** ** What is handed over *)

Definition ids_of (m : emission) : list Z :=
  match m_query m with Some c => [c] | None => [] end ++
  match m_response m with Some c => [c] | None => [] end.

Lemma ids_split es : concat (map ids_of es) ≡ₚ queries_out es ++ responses_out es.
Proof.
  unfold queries_out, responses_out. induction es as [|m es IH]; simpl; [done|]. rewrite IH. unfold ids_of.
  destruct (m_query m), (m_response m); simpl; try done; solve_Permutation.
Qed.

Lemma explained_ids timeout os m : explained timeout os m -> ids_of m <> [].
Proof.
  by intros [(p & key & time & ctx & -> & _)|[(key & time & ctx & -> & _)|(key & time & ctx & -> & _)]].
Qed.

(** An operation only appends to what was emitted. *)
Definition extends (t t' : table) : Prop := exists es, t_emitted t' = t_emitted t ++ es.

Lemma extends_refl t : extends t t.
Proof. exists []. by rewrite app_nil_r. Qed.

Lemma extends_trans t1 t2 t3 : extends t1 t2 -> extends t2 t3 -> extends t1 t3.
Proof. intros [a Ha] [b Hb]. exists (a ++ b). by rewrite Hb, Ha, app_assoc. Qed.

Lemma extends_set q t : extends t (t_set q t).
Proof. exists []. by rewrite app_nil_r. Qed.

Lemma extends_emit f m t : extends t (t_emit f m t).
Proof. by exists [m]. Qed.

Lemma extends_drop f t : extends t (spec_drop_head f t).
Proof.
  unfold spec_drop_head. destruct (t_pending t); [apply extends_refl|apply (extends_emit f _ (t_set _ t))].
Qed.

Lemma extends_evict n now : forall t, extends t (spec_evict n now t).
Proof.
  induction n as [|n IH]; intros t; simpl; [apply extends_refl|].
  destruct (t_pending t); [apply extends_refl|]. case_match; [apply extends_refl|].
  eapply extends_trans; [apply extends_drop|apply IH].
Qed.

Lemma extends_op t o : extends t (spec_op t o).
Proof.
  destruct o as [key time ctx|key time ctx|now]; simpl.
  - unfold spec_query. eapply extends_trans; [apply (extends_evict (Z.to_nat CF_DNS_AMORTIZED_EVICT_MAX) time)|].
    set (t1 := spec_evict _ time t). clearbody t1.
    destruct (list_find _ _) as [[n p]|]; [apply (extends_emit (add_stats 0 0 0 1 0 0))|].
    destruct (_ <? _); [apply extends_set|]. destruct (_ =? _); [|apply extends_emit].
    eapply extends_trans; [apply (extends_drop inc_drop)|apply extends_set].
  - unfold spec_response. destruct (list_find _ _) as [[n p]|]; [|apply extends_emit].
    apply (extends_emit _ _ (t_set (delete n (t_pending t)) t)).
  - apply extends_evict.
Qed.

Lemma extends_drain n : forall t, extends t (spec_drain n t).
Proof.
  induction n as [|n IH]; intros t; simpl; [apply extends_refl|].
  eapply extends_trans; [apply (extends_drop inc_unanswered)|apply IH].
Qed.

Definition pending_ctxs (t : table) : list Z := map p_ctx (t_pending t).

(** What [es] hands back and what stays pending is what was pending and what
    came in. *)
Lemma handover os os' t t' es qs rs : ledger os t -> ledger os' t' ->
  t_emitted t' = t_emitted t ++ es ->
  queries_in os' = queries_in os ++ qs -> responses_in os' = responses_in os ++ rs ->
  concat (map ids_of es) ++ pending_ctxs t' ≡ₚ pending_ctxs t ++ qs ++ rs /\ Forall (fun m => ids_of m <> []) es.
Proof.
  intros [Hq Hr _ _ _] [Hq' Hr' _ Hex _] He Hqs Hrs. split.
  - unfold accounted in *. rewrite He in *. unfold queries_out, responses_out in *.
    rewrite omap_app in *. fold (pending_ctxs t) in *. fold (pending_ctxs t') in *.
    rewrite Hqs, <- Hq, <- !app_assoc in Hq'. apply Permutation_app_inv_l in Hq'.
    rewrite Hrs, Hr in Hr'. apply app_inv_head in Hr'.
    rewrite ids_split. unfold queries_out, responses_out. rewrite Hr'.
    rewrite <- app_assoc, (Permutation_app_comm rs), app_assoc, Hq'. by rewrite <- app_assoc.
  - rewrite He in Hex. apply Forall_app in Hex as [_ Hex].
    eapply list.Forall_impl; [exact Hex|]. intros m. apply explained_ids.
Qed.

Lemma op_handover os t o : ledger os t -> exists es,
  t_emitted (spec_op t o) = t_emitted t ++ es /\ ledger (os ++ [o]) (spec_op t o) /\ concat (map ids_of es) ++ pending_ctxs (spec_op t o) ≡ₚ
    pending_ctxs t ++ queries_in [o] ++ responses_in [o] /\ Forall (fun m => ids_of m <> []) es.
Proof.
  intros Hl. destruct (extends_op t o) as [es He].
  pose proof (ledger_ops [o] os t Hl) as Hl'. cbn [spec_ops foldl] in Hl'.
  exists es. split; [done|]. split; [done|]. eapply handover; [exact Hl|exact Hl'|exact He| |].
  - unfold queries_in. by rewrite omap_app.
  - unfold responses_in. by rewrite omap_app.
Qed.

Definition leftovers (t : table) : list emission :=
  map (fun p => unanswered (p_ctx p) (p_key p)) (t_pending t).

Lemma drain_emitted n : forall t, length (t_pending t) = n ->
  t_emitted (spec_drain n t) = t_emitted t ++ leftovers t.
Proof.
  unfold leftovers. induction n as [|n IH]; intros t Hn; simpl.
  - apply nil_length_inv in Hn. by rewrite Hn, app_nil_r.
  - unfold spec_drop_head. destruct (t_pending t) as [|p q] eqn:E; [done|]. simpl in Hn.
    rewrite IH by (simpl; lia). simpl. by rewrite <- app_assoc.
Qed.

Lemma leftovers_ids t : concat (map ids_of (leftovers t)) = pending_ctxs t.
Proof. unfold leftovers, pending_ctxs. induction (t_pending t) as [|p q IH]; simpl; [done|]. by rewrite IH. Qed.

(** ** Contexts on the heap *)

Definition dom_is (h : gmap Z dns_ctx_t) (l : list Z) : Prop := forall p, is_Some (h !! p) <-> p ∈ l.
Definition frames_ok (h : gmap Z dns_ctx_t) : Prop := map_Forall (fun _ c => bytes_ok (c_frame c)) h.

Lemma load_ok h l p : dom_is h l -> (forall a, p = Some a -> a ∈ l) ->
  exists c, ctx_load h p = Ret c /\ (p <> None -> c <> None) /\ (p = None -> c = None) /\
    (forall x, c = Some x -> exists a, h !! a = Some x).
Proof.
  intros Hd Hp. destruct p as [a|]; [|by exists None].
  destruct (proj2 (Hd a) (Hp a eq_refl)) as [c Hc]. exists (Some c). simpl. rewrite Hc.
  split_and!; [done|done|done|]. intros x [= <-]. by exists a.
Qed.

Lemma free_ok h l p : dom_is h (match p with Some a => [a] | None => [] end ++ l) -> frames_ok h ->
  NoDup (match p with Some a => [a] | None => [] end ++ l) ->
  exists h', dns_ctx_free p h = Ret h' /\ dom_is h' l /\ frames_ok h'.
Proof.
  intros Hd Hf Hnd. destruct p as [a|]; [|by exists h]. simpl in *.
  destruct (proj2 (Hd a)) as [c Hc]; [left|]. rewrite Hc. eexists. split; [done|]. split.
  - apply list.NoDup_cons in Hnd as [Ha _]. intros p. destruct (decide (p = a)) as [->|Hne].
    + rewrite lookup_delete_eq. split; [by intros []|done].
    + rewrite lookup_delete_ne, (Hd p), elem_of_cons by done. tauto.
  - by apply map_Forall_delete.
Qed.

Section StageSpec.
Context {Q : Type} `{GaugedFifo Q}.
Variable inet_ntop : Z -> list Z -> list Z.
Variable pack : CloudFlowEvent -> list Z.
Variable get_packed_size : CloudFlowEvent -> Z.
(** The encoder writes as many bytes as announced. *)
Hypothesis pack_size : forall ev, zlen (pack ev) = get_packed_size ev.

Abbreviation stage := (@dns_stage Q).
Implicit Types s : stage.

Definition sendable (v : verdict) : Prop :=
  match v with Send item => zlen (item_bytes item) = SIZEOF_EVENT_ITEM | _ => True end.

Definition allocs_ok (env : nat -> emit_env) : Prop := forall i a, en_alloc (env i) a = true.
Definition env_ok (env : nat -> emit_env) : Prop := forall i, uninit_ok (en_uninit (env i)).

Lemma encode_runs ev et time :
  runs (encode_event pack get_packed_size ev et time) (fun v => sendable v /\ v <> NoMemory).
Proof.
  unfold encode_event. set (p := if _ : bool then _ else _).
  assert (p.2 = get_packed_size p.1) as Hp by (unfold p; by destruct (_ <? _)).
  destruct p as [ev' packed]. simpl in Hp.
  destruct (CLOUDFLOW_EVENT_MAX_SIZE <? packed) eqn:E; [done|].
  rewrite <- pack_size in Hp. unfold CLOUDFLOW_EVENT_MAX_SIZE in *.
  assert (zlen (it_payload zero_item) = 8192) as Hb
    by (cbn [zero_item it_payload]; rewrite length_replicate; done).
  revert Hb. generalize (it_payload zero_item). intros buf Hb.
  rewrite wr_n_ok by lia. xbind. destruct (_ =? 0); [done|]. apply runs_bind. eapply runs_mono; [by apply event_type_runs|].
  intros f Hf. cbn [runs sendable]. split; [|done].
  apply item_length; cbn [it_event_type it_payload]; [done|].
  rewrite length_splice; lia.
Qed.

Lemma envelope_runs al uninit now p et c : uninit_ok uninit -> provenance_ok p ->
  bytes_ok (c_frame c) ->
  runs (build_envelope al uninit now p et c) (fun env => (forall a, al a = true) -> env <> None).
Proof.
  intros Hu Hp Hc. eapply runs_mono; [by apply envelope_built|]. intros env He Ha.
  by destruct (built_some _ _ _ Ha He) as (x & -> & _).
Qed.

Lemma txn_all_ok al map role q r m : (forall a, al a = true) ->
  build_txn inet_ntop al map role q r m <> None.
Proof. intros Ha. unfold build_txn, dup_field. by rewrite !Ha. Qed.

Lemma verdict_runs cfg e q r primary m : provenance_ok (cfg_provenance cfg) ->
  uninit_ok (en_uninit e) -> bytes_ok (c_frame primary) ->
  runs (emit_verdict inet_ntop pack get_packed_size cfg e q r primary m)
    (fun v => sendable v /\ ((forall a, en_alloc e a = true) -> v <> NoMemory)).
Proof.
  intros Hp Hu Hf. unfold emit_verdict. destruct (_ =? 0); [by simpl|].
  destruct (build_txn _ _ _ _ _ _ _) as [txn|] eqn:Et;
    [|split; [done|]; intros Ha; by destruct (txn_all_ok _ _ _ _ _ _ Ha Et)].
  apply runs_bind. eapply runs_mono; [by apply envelope_runs|]. intros [env|] He;
    [|split; [done|]; intros Ha; by destruct (He Ha)].
  destruct (en_alloc e A_event) eqn:Ea; cbn [negb]; [|split; [done|]; intros Ha; congruence].
  eapply runs_mono; [apply encode_runs|]. by intros v [? ?].
Qed.

(** ** The effect on the counters *)

(** Items announced as emitted that are neither queued, nor taken by the
    consumer, nor counted as dropped. *)
Definition missing s : Z :=
  s_stats s dns_transactions_emitted_total - s_stats s formatter_queue_drop_total -
  (zlen (fifo_items (s_out s)) + zlen (s_popped s)).

(** [f] frames were counted and [n] transactions decided between [s] and [s'];
    under [mem] no allocation failed. *)
Record effect (mem : Prop) (f n : Z) s s' : Prop := {
  ef_frames : total frame_stats (s_stats s') = u64 (total frame_stats (s_stats s) + f);
  ef_outcomes : exists k, 0 <= k <= n /\ (mem -> k = 0) /\
    total outcome_stats (s_stats s') = u64 (total outcome_stats (s_stats s) + (n - k));
  ef_roles : u64 (total role_stats (s_stats s') - s_stats s' dns_transactions_emitted_total) =
    u64 (total role_stats (s_stats s) - s_stats s dns_transactions_emitted_total);
  ef_queue : u64 (missing s') = u64 (missing s);
  ef_synced : Forall (fun '(c, f) => u64 (s_stats s' c - f (s_synced s')) =
    u64 (s_stats s c - f (s_synced s))) synced_stats
}.

Lemma effect_refl mem s : effect mem 0 0 s s.
Proof.
  split; try done.
  - by rewrite Z.add_0_r, total_u64.
  - exists 0. split; [lia|]. split; [done|]. by rewrite Z.add_0_r, total_u64.
  - by repeat constructor.
Qed.

Lemma effect_trans mem f n f' n' s1 s2 s3 : effect mem f n s1 s2 -> effect mem f' n' s2 s3 ->
  effect mem (f + f') (n + n') s1 s3.
Proof.
  intros [Hf1 (k1 & Hk1 & Hm1 & Ho1) Hr1 Hq1 Hs1] [Hf2 (k2 & Hk2 & Hm2 & Ho2) Hr2 Hq2 Hs2].
  split; [rewrite Hf2, Hf1, u64_add; f_equal; lia| |congruence|congruence|].
  - exists (k1 + k2). split; [lia|]. split; [intros Hm; rewrite Hm1, Hm2 by done; lia|].
    rewrite Ho2, Ho1, u64_add. f_equal. lia.
  - apply Forall_forall. intros [c g] Hin. rewrite Forall_forall in Hs1, Hs2.
    specialize (Hs1 _ Hin). specialize (Hs2 _ Hin). simpl in *. congruence.
Qed.

Definition core s := (s_cfg s, s_leg s, s_correlator s, s_processed s).

Lemma effect_count mem c s :
  c ∈ [dns_sampled_out_total; events_oversize_dropped_total; protobuf_encode_failure_total] ->
  effect mem 0 1 s (count_stat c s).
Proof.
  intros Hc. assert (c ∉ frame_stats /\ c ∉ role_stats /\ hits c outcome_stats = 1 /\
    c <> dns_transactions_emitted_total /\ c <> formatter_queue_drop_total /\
    Forall (fun '(c', _) => c' <> c) synced_stats) as (Hf & Hr & Ho & Hn & Hd & Hs).
  { repeat (apply elem_of_cons in Hc as [->|Hc]); [..|by apply not_elem_of_nil in Hc];
      (split_and!; [notin|notin|done|done|done|by repeat constructor]). }
  split; unfold count_stat, missing; cbn [set_stats s_stats s_out s_popped s_synced].
  - rewrite Z.add_0_r, total_u64. by apply total_store.
  - exists 0. split; [lia|]. split; [done|]. unfold stat_inc. rewrite total_add, Ho. f_equal.
  - unfold stat_inc, stat_add. by rewrite total_store, stat_store_ne.
  - unfold stat_inc, stat_add. by rewrite !stat_store_ne.
  - eapply list.Forall_impl; [exact Hs|]. intros [c' f] Hne. unfold stat_inc, stat_add.
    by rewrite stat_store_ne.
Qed.

Lemma role_counter_hits role : hits (role_counter role) role_stats = 1 /\
  role_counter role ∉ frame_stats /\ role_counter role ∉ outcome_stats /\
  role_counter role <> dns_transactions_emitted_total /\
  role_counter role <> formatter_queue_drop_total /\
  Forall (fun '(c, _) => c <> role_counter role) synced_stats.
Proof. destruct role; (split_and!; [done|notin|notin|done|done|by repeat constructor]). Qed.

Lemma send_runs e role item s : out_ok (s_out s) -> zlen (item_bytes item) = SIZEOF_EVENT_ITEM ->
  runs (send_item e role item s) (fun s' => core s' = core s /\ s_heap s' = s_heap s /\
    s_synced s' = s_synced s /\ out_ok (s_out s') /\ forall mem, effect mem 0 1 s s').
Proof.
  intros [Hwf Hes] Hl. unfold send_item. rewrite <- Hes. apply runs_bind.
  eapply runs_mono; [apply push_policy_spec; [done|by rewrite Hes|]|].
  { unfold size_ok. rewrite Hes. done. }
  intros [[[rc q] ctr] xs] (Hwf' & Hb & Hes' & Hout).
  destruct (push_flow _ _ _ _ _ _ _ _ Hwf Hout) as (d' & -> & Hfl). cbn [runs].
  unfold core, count_stat, set_stats, set_out. cbn [s_cfg s_leg s_correlator s_processed s_heap s_synced
    s_out s_stats s_popped]. split_and!; [done|done|done|split; [done|congruence]|].
  intros mem. destruct (role_counter_hits role) as (Hr & Hrf & Hro & Hre & Hrd & Hrs).
  split; unfold missing; cbn [s_cfg s_leg s_correlator s_processed s_heap s_synced s_out s_stats s_popped];
    unfold stat_inc.
  - rewrite Z.add_0_r, total_u64, total_store by notin. unfold stat_add at 1.
    rewrite total_store by done. unfold stat_add at 1. by rewrite !total_store by notin.
  - exists 0. split; [lia|]. split; [done|].
    rewrite total_store by notin. unfold stat_add at 1. rewrite total_store by done.
    rewrite total_add, total_store by notin. f_equal.
  - rewrite total_store, total_add, Hr, stat_store_ne by (done || notin). unfold stat_add at 1.
    rewrite total_store by notin. rewrite (total_store formatter_queue_drop_total) by notin.
    unfold stat_add. rewrite (stat_store_ne (role_counter role)) by done.
    rewrite stat_store_eq, (stat_store_ne formatter_queue_drop_total), u64_sub, u64_sub_r by done.
    f_equal. lia.
  - rewrite !(stat_store_ne formatter_queue_depth) by done. unfold stat_add.
    rewrite !(stat_store_ne (role_counter role)) by done.
    rewrite stat_store_eq, !(stat_store_ne dns_transactions_emitted_total), stat_store_eq by done.
    rewrite (stat_store_ne formatter_queue_drop_total) by done. rewrite length_app.
    set (E := s_stats s dns_transactions_emitted_total). set (D := s_stats s formatter_queue_drop_total) in *.
    set (P := zlen (s_popped s)). clearbody E D.
    rewrite Nat2Z.inj_add. fold P. clearbody P.
    rewrite <- !Z.sub_add_distr, u64_sub.
    rewrite <- (u64_sub_r _ (D + _)), <- (u64_sub_r _ (u64 d' + _)).
    rewrite u64_add. rewrite !Z.add_assoc.
    replace (d' + zlen (fifo_items q) + P + zlen xs) with (d' + (zlen (fifo_items q) + zlen xs) + P) by lia.
    rewrite <- (u64_add (d' + _)), Hfl, u64_add, !u64_sub_r. f_equal. lia.
  - eapply list.Forall_impl; [|intros x Hx; exact Hx].
    apply Forall_forall. intros [c f] Hin.
    assert (c <> formatter_queue_depth /\ c <> role_counter role /\
      c <> dns_transactions_emitted_total /\ c <> formatter_queue_drop_total) as (H1 & H2 & H3 & H4).
    { rewrite Forall_forall in Hrs. pose proof (Hrs _ Hin) as Hx. simpl in Hx.
      split_and!; [| exact Hx | |]; intros ->; clear - Hin; simpl in Hin; intuition discriminate. }
    unfold stat_add. by rewrite !stat_store_ne.
Qed.

Lemma apply_verdict_runs e role v s : out_ok (s_out s) -> sendable v ->
  runs (apply_verdict e role v s) (fun s' => core s' = core s /\ s_heap s' = s_heap s /\
    s_synced s' = s_synced s /\ out_ok (s_out s') /\ effect (v <> NoMemory) 0 1 s s').
Proof.
  intros Hout Hv.
  assert (forall s', core s' = core s -> s_heap s' = s_heap s -> s_synced s' = s_synced s ->
    s_out s' = s_out s -> effect (v <> NoMemory) 0 1 s s' -> runs (Ret s') (fun s' => core s' = core s /\ s_heap s' = s_heap s /\
    s_synced s' = s_synced s /\ out_ok (s_out s') /\ effect (v <> NoMemory) 0 1 s s')) as Hret.
  { intros s' ? ? ? Ho ?. cbn [runs]. rewrite Ho. by split_and!. }
  destruct v as [| | | |item]; cbn [apply_verdict].
  - apply Hret; try done. apply effect_count. left.
  - apply Hret; try done. split; try done; [by rewrite Z.add_0_r, total_u64| |by repeat constructor].
    exists 1. split_and!; [lia|lia|done|]. by rewrite Z.add_0_r, total_u64.
  - apply Hret; try done. apply effect_count. right; left.
  - apply Hret; try done. apply effect_count. do 2 right; left.
  - eapply runs_mono; [by apply send_runs|]. intros s' (? & ? & ? & ? & He). by split_and!.
Qed.

(** ** Publishing *)

Lemma publish_other cs sy c st : Forall (fun '(c', _) => c <> c') synced_stats ->
  c <> dns_pending_table_depth -> publish cs sy st c = st c.
Proof.
  intros Hs Hd. unfold synced_stats in Hs. rewrite !Forall_cons_iff in Hs.
  destruct Hs as (? & ? & ? & ? & ? & _). unfold publish, stat_add. by rewrite !stat_store_ne.
Qed.

Lemma publish_total cs sy l st : Forall (fun '(c, _) => c ∉ l) synced_stats ->
  dns_pending_table_depth ∉ l -> total l (publish cs sy st) = total l st.
Proof.
  intros Hs Hd. unfold synced_stats in Hs. rewrite !Forall_cons_iff in Hs.
  destruct Hs as (? & ? & ? & ? & ? & _). unfold publish, stat_add. by rewrite !total_store.
Qed.

Lemma publish_synced cs sy st : Forall (fun '(c, f) => u64 (publish cs sy st c - f cs) =
  u64 (st c - f sy)) synced_stats.
Proof.
  assert (forall a b c, u64 (u64 (a + delta b c) - b) = u64 (a - c)) as Hd.
  { intros a b c. unfold delta. rewrite u64_sub. replace (a + u64 (b - c) - b) with (a - b + u64 (b - c)) by lia.
    rewrite u64_add_r. f_equal. lia. }
  unfold publish, stat_add, synced_stats. repeat (apply Forall_cons_2); [..|done];
    repeat (rewrite stat_store_ne by done); rewrite stat_store_eq;
    repeat (rewrite stat_store_ne by done); apply Hd.
Qed.

Lemma sync_effect mem cs s : effect mem 0 0 s (sync_with cs s).
Proof.
  split; unfold missing; cbn [sync_with set_synced set_stats s_stats s_synced s_out s_popped].
  - rewrite Z.add_0_r, total_u64. apply publish_total; [repeat (apply Forall_cons_2; [notin|]); done|notin].
  - exists 0. split; [lia|]. split; [done|]. rewrite publish_total, Z.add_0_r, total_u64; [done|..|notin].
    repeat (apply Forall_cons_2; [notin|]); done.
  - rewrite publish_total, publish_other; [done|by repeat constructor|done|..|notin].
    repeat (apply Forall_cons_2; [notin|]); done.
  - by rewrite !publish_other by (done || by repeat constructor).
  - apply publish_synced.
Qed.

(** ** One emission *)

Definition emitted_ok (e : emit_env) s : Prop :=
  uninit_ok (en_uninit e) /\ provenance_ok (cfg_provenance (s_cfg s)) /\ out_ok (s_out s) /\
  frames_ok (s_heap s).

Lemma emit_runs e m snap s rest : emitted_ok e s -> ids_of m <> [] ->
  NoDup (ids_of m ++ rest) -> dom_is (s_heap s) (ids_of m ++ rest) ->
  runs (dns_stage_emit inet_ntop pack get_packed_size e m snap s) (fun s' =>
    core s' = core s /\ dom_is (s_heap s') rest /\ frames_ok (s_heap s') /\ out_ok (s_out s') /\
    s_synced s' = snap /\ effect (forall a, en_alloc e a = true) 0 1 s s').
Proof.
  intros (Hu & Hp & Hout & Hf) Hne Hnd Hdom. unfold dns_stage_emit.
  destruct (load_ok _ _ (m_query m) Hdom) as (q & -> & Hq1 & Hq2 & Hq3).
  { intros a Ha. unfold ids_of. rewrite Ha. left. }
  destruct (load_ok _ _ (m_response m) Hdom) as (r & -> & Hr1 & Hr2 & Hr3).
  { intros a Ha. unfold ids_of. rewrite Ha. set_solver. }
  xbind.
  assert (exists primary, (match q with Some q => Some q | None => r end) = Some primary /\
    bytes_ok (c_frame primary)) as (primary & -> & Hfr).
  { destruct q as [q|]; [exists q|destruct r as [r|]; [exists r|]].
    - split; [done|]. destruct (Hq3 q eq_refl) as [a Ha]. apply (Hf _ _ Ha).
    - split; [done|]. destruct (Hr3 r eq_refl) as [a Ha]. apply (Hf _ _ Ha).
    - exfalso. apply Hne. unfold ids_of.
      destruct (m_query m); [by destruct Hq1|]. by destruct (m_response m); [destruct Hr1|]. }
  apply runs_bind. eapply runs_mono; [by apply verdict_runs|]. intros v [Hv Hmem].
  apply runs_bind. eapply runs_mono; [by apply apply_verdict_runs|].
  intros s1 (Hc & Hh & Hsy & Hout1 & Heff). rewrite Hh.
  unfold ids_of in *. rewrite <- app_assoc in *.
  destruct (free_ok _ _ _ Hdom Hf Hnd) as (h1 & -> & Hd1 & Hf1). xbind.
  assert (NoDup (match m_response m with Some c => [c] | None => [] end ++ rest)) as Hnd1
    by (by apply list.NoDup_app in Hnd as (_ & _ & ?)).
  destruct (free_ok _ _ _ Hd1 Hf1 Hnd1) as (h2 & -> & Hd2 & Hf2). cbn [mbind exec_bind runs].
  split_and!; try done. change 1 with (1 + 0). change 0 with (0 + 0) at 1. eapply effect_trans.
  - destruct Heff as [E1 (k & Hk & Hkm & E2) E3 E4 E5]. split; [exact E1| |exact E3|exact E4|exact E5].
    exists k. split; [done|]. split; [tauto|exact E2].
  - destruct (sync_effect (forall a, en_alloc e a = true) snap s1) as [E1 E2 E3 E4 E5].
    split; [exact E1|exact E2|exact E3|exact E4|exact E5].
Qed.

(** ** The emissions of an operation *)

Lemma calls_run env cs : forall i s rest, (forall i, emitted_ok (env i) s) ->
  Forall (fun m => ids_of m <> []) (map fst cs) ->
  NoDup (concat (map ids_of (map fst cs)) ++ rest) ->
  dom_is (s_heap s) (concat (map ids_of (map fst cs)) ++ rest) ->
  runs (run_calls inet_ntop pack get_packed_size env i cs s) (fun s' =>
    core s' = core s /\ dom_is (s_heap s') rest /\ frames_ok (s_heap s') /\ out_ok (s_out s') /\
    effect (allocs_ok env) 0 (zlen cs) s s').
Proof.
  induction cs as [|[m snap] cs IH]; intros i s rest Hok Hne Hnd Hdom.
  { destruct (Hok 0%nat) as (_ & _ & ? & ?). cbn. split_and!; try done. apply effect_refl. }
  cbn [map concat] in *. apply Forall_cons_iff in Hne as [Hm Hne]. rewrite <- app_assoc in *.
  cbn [run_calls]. apply runs_bind. eapply runs_mono; [by apply emit_runs|].
  intros s1 (Hc & Hd & Hf & Ho & _ & He). eapply runs_mono.
  - apply (IH (S i) s1 rest); [|done| |done].
    + intros j. destruct (Hok j) as (Hu & Hp & _). split_and!; try done. unfold core in Hc. by simplify_eq/=; congruence.
    + by apply list.NoDup_app in Hnd as (_ & _ & ?).
  - intros s2 (Hc2 & Hd2 & Hf2 & Ho2 & He2). split_and!; [congruence|done|done|done|].
    replace (zlen ((m, snap) :: cs)) with (1 + zlen cs) by (simpl; lia).
    change 0 with (0 + 0) at 1. eapply effect_trans; [|exact He2]. destruct He as [E1 (k & Hk & Hkm & E2) E3 E4 E5].
    split; [exact E1| |exact E3|exact E4|exact E5]. exists k. split; [done|]. split; [|exact E2].
    intros Ha. apply Hkm. apply Ha.
Qed.

(** ** Operations of the engine *)

(** The engine refines the table [t] with history [os]; the contexts on the
    heap are the pending ones and the ones in [new]. *)
Record holding (os : list op) (t : table) (new : list Z) s : Prop := {
  hd_correlator : exists c, s_correlator s = Some c /\ rel c t;
  hd_times : times_ok t;
  hd_ledger : ledger os t;
  hd_nodup : NoDup (pending_ctxs t ++ new);
  hd_heap : dom_is (s_heap s) (pending_ctxs t ++ new);
  hd_frames : frames_ok (s_heap s);
  hd_out : out_ok (s_out s);
  hd_provenance : provenance_ok (cfg_provenance (s_cfg s))
}.

(** Between operations nothing is unpublished. *)
Definition stage_ok (os : list op) (t : table) s : Prop :=
  holding os t [] s /\ cf_dns_correlator_stats (s_correlator s) = Some (s_synced s).

Definition kept s := (s_cfg s, s_leg s, s_processed s).

Lemma op_effect env o os t s : holding os t (queries_in [o] ++ responses_in [o]) s ->
  time_ok (op_time o) -> env_ok env ->
  runs (c ← run_op (s_correlator s) o; deliver inet_ntop pack get_packed_size env c s) (fun s' =>
    holding (os ++ [o]) (spec_op t o) [] s' /\ kept s' = kept s /\
    effect (allocs_ok env) 0 (zlen (t_emitted (spec_op t o)) - zlen (t_emitted t)) s s').
Proof.
  intros [(c & Hc & Hrel) Ht Hl Hnd Hdom Hf Ho Hp] Htime Henv. rewrite Hc.
  destruct (run_ops_refines [o] c t Hrel Ht) as (c' & Hrun & Hrel' & Ht'); [by constructor|].
  cbn [run_ops] in Hrun. destruct (run_op (Some c) o) as [c1| |]; [|done|done].
  cbn [mbind exec_bind] in *. injection Hrun as ->. unfold deliver. rewrite Hc. cbn [calls_of].
  cbn [spec_ops foldl] in *.
  destruct (op_handover os t o Hl) as (es & He & Hl' & Hperm & Hne).
  assert (map fst (drop (length (calls c)) (calls c')) = es) as Hes.
  { destruct Hrel as [_ Hsc], Hrel' as [_ Hsc']. unfold scalars in *.
    injection Hsc as _ _ _ Hem _. injection Hsc' as _ _ _ Hem' _.
    rewrite <- skipn_map, Hem', He, <- Hem. rewrite <- (length_map fst (calls c)). apply drop_app_length. }
  eapply runs_mono.
  - apply (calls_run env _ 0 (set_correlator (Some c') s) (pending_ctxs (spec_op t o))).
    + intros i. by split_and!.
    + by rewrite Hes.
    + by rewrite Hes, Hperm.
    + cbn [set_correlator s_heap]. rewrite Hes. intros p. by rewrite (Hdom p), Hperm.
  - intros s' (Hcore & Hd & Hf' & Ho' & Heff).
    assert (zlen (drop (length (calls c)) (calls c')) = zlen (t_emitted (spec_op t o)) - zlen (t_emitted t)) as Hn
      by (rewrite <- (length_map fst), Hes, He, length_app; lia).
    rewrite Hn in Heff. unfold core in Hcore. injection Hcore as Hcfg Hleg Hcc Hpr.
    cbn [set_correlator s_cfg s_leg s_correlator s_processed] in *.
    split; [|split; [unfold kept; congruence|]].
    + split; rewrite ?app_nil_r; try done; [by exists c'| |congruence].
      rewrite <- Hperm in Hnd. by apply list.NoDup_app in Hnd as (_ & _ & ?).
    + destruct Heff as [E1 E2 E3 E4 E5]. split; [exact E1|exact E2|exact E3|exact E4|exact E5].
Qed.

Lemma sync_runs os t s : holding os t [] s ->
  runs (dns_stage_sync_stats s) (fun s' => stage_ok os t s' /\ kept s' = kept s /\
    (forall mem, effect mem 0 0 s s') /\
    s_stats s' dns_pending_table_depth = u64 (zlen (t_pending t))).
Proof.
  intros [(c & Hc & Hrel) Ht Hl Hnd Hdom Hf Ho Hp]. unfold dns_stage_sync_stats. rewrite Hc. simpl.
  split_and!; [|done|intros mem; apply sync_effect|].
  - split; [by split; try done; exists c|]. cbn [s_correlator sync_with set_synced set_stats].
    rewrite Hc. done.
  - unfold publish. rewrite stat_store_eq. unfold stats_now. cbn [pending_depth].
    apply rel_pending_length in Hrel as (_ & -> & _). done.
Qed.

(** ** One frame *)

Lemma pobs_runs al pkt d : l3_ok (d_l3 d) ->
  runs (dns_build_pobs inet_ntop al pkt d) (fun p => (forall a, al a = true) -> p <> None).
Proof.
  intros Hl. unfold dns_build_pobs.
  destruct (al A_pobs) eqn:Ep; cbn [negb]; [|intros Ha; congruence].
  apply runs_bind. eapply runs_mono; [by apply (link_built al (d_l3 d))|]. intros l Hln.
  apply runs_ret. intros Ha. destruct (built_some _ _ _ Ha Hln) as (l' & -> & _).
  destruct (built_some _ _ _ Ha (network_built inet_ntop al (d_l3 d) Hl)) as (n & Hn & _).
  unfold dns_build_network, observation_of. rewrite Hn. unfold dns_build_transport. rewrite !Ha. cbn [negb].
  by destruct (_ =? 1).
Qed.

(** What is asked of the world during a frame: the context is allocated at an
    address not in use. *)
Record frame_ok (v : frame_env) : Prop := {
  fo_emit : env_ok (fe_emit v); fo_sweep : env_ok (fe_sweep v);
  fo_ctx : forall used p, fe_ctx v used = Some p -> p ∉ used
}.

Definition calm (v : frame_env) : Prop :=
  (forall a, fe_alloc v a = true) /\ (forall used, fe_ctx v used <> None) /\ allocs_ok (fe_emit v) /\ allocs_ok (fe_sweep v).

(** [n] emissions were decided on the way from the table [t] to [t']. *)
Definition decided (t t' : table) : Z := zlen (t_emitted t') - zlen (t_emitted t).

Lemma effect_weaken (m m' : Prop) f n s s' : (m' -> m) -> effect m f n s s' -> effect m' f n s s'.
Proof.
  intros Hm [E1 (k & Hk & Hkm & E2) E3 E4 E5]. split; [exact E1| |exact E3|exact E4|exact E5].
  exists k. split_and!; [lia|lia|tauto|exact E2].
Qed.

Lemma counted_effect mem c s st : c ∈ frame_stats -> counted c (s_stats s) st ->
  effect mem 1 0 s (set_stats st s).
Proof.
  intros Hc [Heq Hne].
  assert (forall l, total l st = total l (stat_inc c (s_stats s))) as Ht.
  { intros l. unfold total. f_equal. induction l as [|c' l IH]; simpl; [done|]. rewrite IH. f_equal.
    unfold stat_inc, stat_add. destruct (decide (c' = c)) as [->|Hn].
    - by rewrite stat_store_eq.
    - by rewrite stat_store_ne, Hne. }
  assert (c ∉ outcome_stats /\ c ∉ role_stats /\ hits c frame_stats = 1 /\
    c <> dns_transactions_emitted_total /\ c <> formatter_queue_drop_total /\
    Forall (fun '(c', _) => c' <> c) synced_stats) as (Ho & Hr & Hf & Hn & Hd & Hs).
  { clear - Hc. repeat (apply elem_of_cons in Hc as [->|Hc]); [..|by apply not_elem_of_nil in Hc];
      (split_and!; [notin|notin|done|done|done|by repeat constructor]). }
  split; unfold missing; cbn [set_stats s_stats s_out s_popped s_synced]; rewrite ?Ht, ?(Hne _ (not_eq_sym Hn)),
    ?(Hne _ (not_eq_sym Hd)).
  - unfold stat_inc. rewrite total_add, Hf. f_equal.
  - exists 0. split; [lia|]. split; [done|]. unfold stat_inc, stat_add.
    by rewrite total_store, Z.add_0_r, total_u64.
  - unfold stat_inc, stat_add. by rewrite total_store.
  - done.
  - eapply list.Forall_impl; [exact Hs|]. intros [c' f] Hx. by rewrite Hne.
Qed.

Definition conf s := (s_cfg s, s_leg s).

(** [s'] follows [s] after [f] frames and the operations that take the table
    from [t] to [t']. *)
Record follows (mem : Prop) (f : Z) (os : list op) (t : table) s (os' : list op) (t' : table) s'
    : Prop := {
  fw_conf : conf s' = conf s;
  fw_effect : effect mem f (decided t t') s s';
  fw_history : exists l, os' = os ++ l /\ t' = spec_ops t l
}.

Lemma follows_trans mem f1 f2 os1 t1 s1 os2 t2 s2 os3 t3 s3 :
  follows mem f1 os1 t1 s1 os2 t2 s2 -> follows mem f2 os2 t2 s2 os3 t3 s3 ->
  follows mem (f1 + f2) os1 t1 s1 os3 t3 s3.
Proof.
  intros [Hc1 He1 (l1 & -> & ->)] [Hc2 He2 (l2 & -> & ->)]. split; [congruence| |].
  - replace (decided _ _) with (decided t1 (spec_ops t1 l1) + decided (spec_ops t1 l1)
      (spec_ops (spec_ops t1 l1) l2)) by (unfold decided; lia). by eapply effect_trans.
  - exists (l1 ++ l2). unfold spec_ops. by rewrite <- app_assoc, foldl_app.
Qed.

Lemma follows_still mem f os t s s' : conf s' = conf s -> effect mem f 0 s s' ->
  follows mem f os t s os t s'.
Proof.
  intros Hc He. split; [done| |exists []; by rewrite app_nil_r].
  by replace (decided t t) with 0 by (unfold decided; lia).
Qed.

Lemma follows_op mem f os t s o s' : kept s' = kept s ->
  effect mem f (zlen (t_emitted (spec_op t o)) - zlen (t_emitted t)) s s' ->
  follows mem f os t s (os ++ [o]) (spec_op t o) s'.
Proof. intros Hk He. split; [unfold kept, conf in *; congruence|exact He|by exists [o]]. Qed.

Lemma holding_stats os t new s st : holding os t new s -> holding os t new (set_stats st s).
Proof. by intros []. Qed.

Lemma feed_runs v is_response key time p os t s : holding os t [p] s -> time_ok time ->
  env_ok (fe_emit v) ->
  runs (feed_correlator inet_ntop pack get_packed_size v is_response key time p s) (fun s' =>
    exists os' t', holding os' t' [] s' /\ follows (allocs_ok (fe_emit v)) 1 os t s os' t' s').
Proof.
  intros Hh Ht Henv. unfold feed_correlator.
  assert (forall c o, c ∈ frame_stats -> queries_in [o] ++ responses_in [o] = [p] -> op_time o = time ->
    runs (c' ← run_op (s_correlator s) o;
          deliver inet_ntop pack get_packed_size (fe_emit v) c' (count_stat c s)) (fun s' =>
      exists os' t', holding os' t' [] s' /\ follows (allocs_ok (fe_emit v)) 1 os t s os' t' s'))
    as Hop.
  { intros c o Hc Hn Hto. eapply runs_mono.
    - apply (op_effect (fe_emit v) o os t (count_stat c s)); [|by rewrite Hto|done].
      rewrite Hn. by apply holding_stats.
    - intros s' (Hh' & Hk & He). exists (os ++ [o]), (spec_op t o). split; [done|].
      change 1 with (1 + 0). eapply follows_trans.
      + apply (follows_still _ 1 os t s (count_stat c s)); [done|].
        apply (counted_effect _ c s (stat_inc c (s_stats s))); [done|]. apply counted_inc.
      + by apply follows_op. }
  destruct is_response.
  - apply (Hop dns_responses_parsed_total (OpResponse key time p)); [|done|done].
    unfold frame_stats. set_solver.
  - apply (Hop dns_queries_parsed_total (OpQuery key time p)); [|done|done].
    unfold frame_stats. set_solver.
Qed.

Lemma sweep_runs v time os t s : holding os t [] s -> time_ok time -> env_ok (fe_sweep v) ->
  runs (amortized_sweep inet_ntop pack get_packed_size v time s) (fun s' =>
    exists os' t', holding os' t' [] s' /\ follows (allocs_ok (fe_sweep v)) 0 os t s os' t' s').
Proof.
  intros Hh Ht Henv. unfold amortized_sweep. set (s1 := set_processed _ s).
  assert (holding os t [] s1 /\ follows (allocs_ok (fe_sweep v)) 0 os t s os t s1) as [Hh1 Hf1].
  { split; [by destruct Hh|]. apply follows_still; [done|].
    destruct (effect_refl (allocs_ok (fe_sweep v)) s) as [E1 E2 E3 E4 E5].
    split; [exact E1|exact E2|exact E3|exact E4|exact E5]. }
  apply runs_if; intros _; [|by exists os, t].
  eapply runs_mono; [apply (op_effect (fe_sweep v) (OpTick time) os t s1); done|].
  intros s' (Hh' & Hk & He). exists (os ++ [OpTick time]), (spec_op t (OpTick time)).
  split; [done|]. change 0 with (0 + 0). eapply follows_trans; [exact Hf1|by apply follows_op].
Qed.

Lemma follows_weaken (m m' : Prop) f os t s os' t' s' : (m' -> m) ->
  follows m f os t s os' t' s' -> follows m' f os t s os' t' s'.
Proof. intros Hm [H1 H2 H3]. split; [done|by eapply effect_weaken|done]. Qed.

Lemma skip_ok mem c st os t s : stage_ok os t s -> c ∈ frame_stats -> counted c (s_stats s) st ->
  stage_ok os t (set_stats st s) /\ follows mem 1 os t s os t (set_stats st s).
Proof.
  intros [Hh Hs] Hc Hct. split; [by split; [apply holding_stats|]|].
  apply follows_still; [done|]. by eapply counted_effect.
Qed.

Lemma hold_new os t s st p ctx : stage_ok os t s -> s_heap s !! p = None -> bytes_ok (c_frame ctx) ->
  holding os t [p] (set_heap (<[p := ctx]> (s_heap s)) (set_stats st s)).
Proof.
  intros [[Hc Ht Hl Hnd Hd Hf Ho Hp] _] Hfresh Hb.
  rewrite app_nil_r in Hnd, Hd.
  assert (p ∉ pending_ctxs t) as Hn by (rewrite <- (Hd p), Hfresh; by intros []).
  split; try done.
  - rewrite Permutation_app_comm. simpl. by constructor.
  - intros a. cbn [set_heap s_heap]. rewrite elem_of_app, list_elem_of_singleton.
    destruct (decide (a = p)) as [->|Hne].
    + rewrite lookup_insert_eq. split; [by right|by eexists].
    + rewrite lookup_insert_ne, (Hd a) by done. tauto.
  - cbn [set_heap s_heap]. by apply map_Forall_insert_2.
Qed.

Lemma fed_ok v is_response key time p os t s : holding os t [p] s -> time_ok time ->
  env_ok (fe_emit v) -> env_ok (fe_sweep v) ->
  runs (s ← feed_correlator inet_ntop pack get_packed_size v is_response key time p s;
        s ← amortized_sweep inet_ntop pack get_packed_size v time s;
        s ← dns_stage_sync_stats s; Ret (0, s)) (fun '(rc, s') => rc = 0 /\
    exists os' t', stage_ok os' t' s' /\
      follows (allocs_ok (fe_emit v) /\ allocs_ok (fe_sweep v)) 1 os t s os' t' s').
Proof.
  intros Hh Ht He Hs. apply runs_bind. eapply runs_mono; [by apply feed_runs|].
  intros s1 (os1 & t1 & Hh1 & Hf1).
  apply runs_bind. eapply runs_mono; [by apply sweep_runs|]. intros s2 (os2 & t2 & Hh2 & Hf2).
  apply runs_bind. eapply runs_mono; [by apply (sync_runs os2 t2)|]. intros s3 (Hok & Hk & He3 & _).
  cbn [runs]. split; [done|]. exists os2, t2. split; [done|].
  change 1 with (1 + (0 + 0)). eapply follows_trans; [eapply follows_weaken; [|exact Hf1]; by intros []|].
  eapply follows_trans; [eapply follows_weaken; [|exact Hf2]; by intros []|].
  apply follows_still; [unfold kept, conf in *; congruence|done].
Qed.

Lemma process_runs v pkt os t s : stage_ok os t s -> packet_ok pkt -> frame_ok v ->
  runs (process_packet inet_ntop pack get_packed_size v pkt s) (fun '(rc, s') =>
    (rc = 0 \/ rc = 1) /\
    exists os' t', stage_ok os' t' s' /\ follows (calm v) 1 os t s os' t' s').
Proof.
  intros Hok [Hb [[Hc0 Hc1] Hc2] Ht] [He Hs Hfresh]. unfold process_packet.
  apply runs_bind. unfold packet_frame. apply runs_rd_n; [lia|lia|lia|].
  set (frame := slice (pk_data pkt) 0 (pk_captured_len pkt)).
  assert (bytes_ok frame) as Hfb by (by apply slice_bytes_ok).
  assert (zlen frame <= 2048) as Hfl
    by (unfold frame; rewrite zlen_slice by lia; unfold CLOUDFLOW_PACKET_MAX_SIZE in *; lia).
  apply runs_bind. eapply runs_mono; [by apply decode_frame_runs|]. intros [[d|] st] Hd.
  2: { apply runs_ret. split; [by right|]. exists os, t.
       destruct Hd as [Hct|Hct]; eapply skip_ok; try done; unfold frame_stats; set_solver. }
  destruct Hd as [[Hl3 _ _ Hv] ->]. unfold view_ok in Hv.
  assert (set_stats (s_stats s) s = s) as Hid by (by destruct s).
  assert (forall c, c ∈ frame_stats -> runs (Ret (1, count_stat c (set_stats (s_stats s) s)))
    (fun '(rc, s') => (rc = 0 \/ rc = 1) /\
      exists os' t', stage_ok os' t' s' /\ follows (calm v) 1 os t s os' t' s')) as Hskip.
  { intros c Hc. rewrite Hid. split; [by right|]. exists os, t.
    eapply skip_ok; [done|exact Hc|apply counted_inc]. }
  apply runs_bind, runs_rd_n; [lia|lia|lia|].
  apply runs_bind. eapply runs_mono; [apply dns_parse_runs|].
  { split; [by apply slice_bytes_ok|]. rewrite zlen_slice by lia. unfold SIZE_MAX. lia. }
  intros [[tree|] w] _.
  2: { apply Hskip. unfold frame_stats. set_solver. }
  destruct (cf_dns_classify_leg _ _ _ _ _ _ _) as [role lis].
  apply runs_bind. eapply runs_mono; [by apply pobs_runs|]. intros pobs _.
  specialize (Hskip packets_skipped_total ltac:(left)).
  destruct pobs as [pobs|]; [|exact Hskip]. destruct (fe_ctx v (dom (s_heap s))) as [p|] eqn:Ep; [|exact Hskip].
  destruct (fe_alloc v A_frame); [|exact Hskip]. clear Hskip.
  eapply runs_mono.
  { apply (fed_ok v _ _ _ p os t); [apply hold_new; [done|by apply not_elem_of_dom, Hfresh|done]|done|done|done]. }
  intros [rc s'] (-> & os' & t' & Hok' & [Hcf Heff Hhist]). split; [by left|].
  exists os', t'. split; [done|]. split; [exact Hcf| |exact Hhist].
  destruct Heff as [E1 (k & Hk & Hkm & E2) E3 E4 E5].
  split; [exact E1| |exact E3|exact E4|exact E5]. exists k. split; [done|]. split; [|exact E2].
  intros (_ & _ & Ha1 & Ha2). by apply Hkm.
Qed.

Lemma tick_runs env now os t s : stage_ok os t s -> time_ok now -> env_ok env ->
  runs (dns_stage_tick inet_ntop pack get_packed_size env now (Some s)) (fun r =>
    exists s' os' t', r = Some s' /\ stage_ok os' t' s' /\
      follows (allocs_ok env) 0 os t s os' t' s').
Proof.
  intros [Hh _] Ht He. unfold dns_stage_tick.
  pose proof (op_effect env (OpTick now) os t s Hh Ht He) as Hop. cbn [run_op] in Hop.
  destruct (cf_dns_correlator_tick (s_correlator s) now) as [c| |]; [|done|done].
  cbn [mbind exec_bind] in *. apply runs_bind. eapply runs_mono; [exact Hop|].
  intros s1 (Hh1 & Hk & He1). apply runs_bind. eapply runs_mono; [by apply sync_runs|].
  intros s2 (Hok2 & Hk2 & He2 & _). exists s2, (os ++ [OpTick now]), (spec_op t (OpTick now)).
  split; [done|]. split; [done|]. change 0 with (0 + 0).
  eapply follows_trans; [by apply follows_op|]. apply follows_still; [unfold kept, conf in *; congruence|done].
Qed.

Lemma free_runs env os t s : stage_ok os t s -> env_ok env ->
  runs (dns_stage_free inet_ntop pack get_packed_size env (Some s)) (fun r =>
    exists s', r = Some s' /\ s_heap s' = ∅ /\ out_ok (s_out s') /\
      effect (allocs_ok env) 0 (zlen (t_pending t)) s s').
Proof.
  intros [[(c & Hc & Hrel) Ht Hl Hnd Hdom Hf Ho Hp] _] Henv. unfold dns_stage_free. rewrite Hc.
  destruct (free_refines c t Hrel) as (cs & -> & Hcs). cbn [mbind exec_bind calls_of].
  rewrite (drain_emitted _ t eq_refl) in Hcs. rewrite app_nil_r in *.
  assert (map fst (drop (length (calls c)) cs) = leftovers t) as Hes.
  { destruct Hrel as [_ Hsc]. unfold scalars in *. injection Hsc as _ _ _ Hem _.
    rewrite <- skipn_map, Hcs, <- Hem. rewrite <- (length_map fst (calls c)). apply drop_app_length. }
  apply runs_bind. eapply runs_mono.
  - apply (calls_run env _ 0 s []).
    + intros i. by split_and!.
    + rewrite Hes. unfold leftovers. by apply Forall_map, Forall_true.
    + by rewrite Hes, app_nil_r, leftovers_ids.
    + by rewrite Hes, app_nil_r, leftovers_ids.
  - intros s' (_ & Hd & _ & Ho' & Heff). exists s'. split; [done|]. split.
    { apply map_empty. intros p. specialize (Hd p). rewrite elem_of_nil in Hd.
      destruct (s_heap s' !! p); [|done]. destruct Hd as [[] _]. by eexists. }
    split; [done|].
    replace (zlen (t_pending t)) with (zlen (drop (length (calls c)) cs)); [done|].
    rewrite <- (length_map fst), Hes. unfold leftovers. by rewrite length_map.
Qed.

(** ** Histories

    Frames, idle ticks, the consumer taking items, and statistics reports, in
    any order.  [w_reported] adds up what the reports that reset have logged. *)

Record world := { w_stage : stage; w_reported : stat -> Z }.

Inductive event :=
| EvFrame (v : frame_env) (pkt : cf_packet_item_t)
| EvTick (env : nat -> emit_env) (now : Z)
| EvTake (n : nat)
| EvReport (rx : cf_rx_stats_t) (redis : cf_redis_stats_t) (q_rx q_redis : option Q) (reset : bool).

Definition world_step (e : event) (w : world) : exec world :=
  let s := w_stage w in
  match e with
  | EvFrame v pkt =>
      '(_, s) ← process_packet inet_ntop pack get_packed_size v pkt s;
      Ret {| w_stage := s; w_reported := w_reported w |}
  | EvTick env now =>
      s ← dns_stage_tick inet_ntop pack get_packed_size env now (Some s);
      match s with
      | Some s => Ret {| w_stage := s; w_reported := w_reported w |}
      | None => Oob
      end
  | EvTake n =>
      '(q, xs) ← consume n (s_out s);
      Ret {| w_stage := set_out q xs s; w_reported := w_reported w |}
  | EvReport rx redis q_rx q_redis reset =>
      let '(_, _, st) := cf_dns_stats_report rx (s_stats s) redis q_rx q_redis reset in
      let seen := (read_counters stage_counters reset (s_stats s) (fun _ => 0)).1 in
      Ret {| w_stage := set_stats st s;
             w_reported := if reset then fun c => w_reported w c + seen c else w_reported w |}
  end.

Fixpoint world_run (es : list event) (w : world) : exec world :=
  match es with
  | [] => Ret w
  | e :: es => w ← world_step e w; world_run es w
  end.

Definition event_ok (e : event) : Prop :=
  match e with
  | EvFrame v pkt => frame_ok v /\ packet_ok pkt
  | EvTick env now => env_ok env /\ time_ok now
  | _ => True
  end.

Definition event_calm (e : event) : Prop :=
  match e with EvFrame v _ => calm v | EvTick env _ => allocs_ok env | _ => True end.

Definition is_frame (e : event) : bool := match e with EvFrame _ _ => true | _ => false end.
Definition frames (es : list event) : Z := zlen (filter (fun e => is_frame e = true) es).

(** The counters with what was already reported. *)
Definition shift (r : stat -> Z) s : stage := set_stats (fun c => s_stats s c + r c) s.
Definition whole (w : world) : stage := shift (w_reported w) (w_stage w).

Lemma effect_shift r mem f n s s' : effect mem f n s s' -> effect mem f n (shift r s) (shift r s').
Proof.
  intros [E1 (k & Hk & Hkm & E2) E3 E4 E5]. split; unfold missing in *; unfold shift;
    cbn [set_stats s_stats s_out s_popped s_synced].
  - rewrite !total_shift, E1, !u64_add. f_equal. lia.
  - exists k. split; [done|]. split; [done|]. rewrite !total_shift, E2, !u64_add. f_equal. lia.
  - rewrite !total_shift, !u64_sub.
    set (c := total role_stats r - r dns_transactions_emitted_total).
    transitivity (u64 (total role_stats (s_stats s') - s_stats s' dns_transactions_emitted_total + c));
      [f_equal; unfold c; lia|]. rewrite (u64_congr _ _ c E3). f_equal. unfold c. lia.
  - set (c := r dns_transactions_emitted_total - r formatter_queue_drop_total).
    match type of E4 with u64 ?a = u64 ?b => transitivity (u64 (a + c)); [f_equal; unfold c; lia|];
      transitivity (u64 (b + c)); [by apply u64_congr|f_equal; unfold c; lia] end.
  - eapply list.Forall_impl; [exact E5|]. intros [c g] Hc.
    transitivity (u64 (s_stats s' c - g (s_synced s') + r c)); [f_equal; lia|].
    rewrite (u64_congr _ _ (r c) Hc). f_equal. lia.
Qed.

Lemma effect_same mem s s' : (forall c, s_stats s' c = s_stats s c) -> missing s' = missing s ->
  s_synced s' = s_synced s -> effect mem 0 0 s s'.
Proof.
  intros Hst Hm Hs.
  assert (forall l, total l (s_stats s') = total l (s_stats s)) as Ht.
  { intros l. unfold total. f_equal. induction l as [|c l IH]; simpl; [done|]. by rewrite IH, Hst. }
  split; rewrite ?Ht, ?Hst, ?Hm, ?Hs.
  - by rewrite Z.add_0_r, total_u64.
  - exists 0. split; [lia|]. split; [done|]. by rewrite Z.add_0_r, total_u64.
  - done.
  - done.
  - apply Forall_forall. intros [c g] _. by rewrite Hst.
Qed.

(** One step: the engine stays sound, and the counters follow. *)
Lemma step_runs e w os t : stage_ok os t (w_stage w) -> event_ok e ->
  runs (world_step e w) (fun w' => exists os' t', stage_ok os' t' (w_stage w') /\
    follows (event_calm e) (frames [e]) os t (whole w) os' t' (whole w')).
Proof.
  intros Hok He. destruct e as [v pkt|env now|n|rx redis q_rx q_redis reset]; cbn [world_step].
  - destruct He as [Hf Hp]. apply runs_bind. eapply runs_mono; [by apply process_runs|].
    intros [rc s'] (_ & os' & t' & Hok' & [Hc Heff Hh]). exists os', t'. split; [done|].
    split; [exact Hc|by apply effect_shift|exact Hh].
  - destruct He as [Henv Ht]. apply runs_bind. eapply runs_mono; [by apply tick_runs|].
    intros r (s' & os' & t' & -> & Hok' & [Hc Heff Hh]). exists os', t'. split; [done|].
    split; [exact Hc|by apply effect_shift|exact Hh].
  - destruct Hok as [[Hc Ht Hl Hnd Hd Hf [Hwf Hes] Hp] Hs]. apply runs_bind.
    eapply runs_mono; [by apply consume_spec|]. intros [q xs] (Hwf' & Hb & Hes' & Hxs & Hi).
    exists os, t. split; [split; [split; try done; split; [done|by rewrite <- Hes]|done]|].
    apply follows_still; [done|]. apply effect_same; [done| |done].
    unfold missing, whole, shift. cbn [set_stats set_out s_stats s_out s_popped w_stage w_reported].
    rewrite Hi, Hxs, length_app, length_take, length_drop. lia.
  - unfold cf_dns_stats_report. assert (NoDup stage_counters) as Hnd by notin.
    assert (NoDup rx_counters) as Hnd' by notin.
    destruct (read_counters rx_counters reset rx (fun _ => 0)) as [rv rx'].
    pose proof (read_counters_spec stage_counters reset (s_stats (w_stage w)) (fun _ => 0) Hnd) as [H1 H2].
    destruct (read_counters stage_counters reset (s_stats (w_stage w)) (fun _ => 0)) as [v st'].
    cbn [fst snd runs] in *. exists os, t. cbn [w_stage].
    split; [by destruct Hok; split; [apply holding_stats|]|].
    apply follows_still; [done|]. apply effect_same; [|unfold missing|done].
    + intros c. unfold whole, shift. cbn [w_stage w_reported set_stats s_stats]. rewrite H2.
      destruct reset; simpl; [rewrite H1; destruct (bool_decide _); lia|lia].
    + unfold whole, shift. cbn [w_stage w_reported set_stats s_stats s_out s_popped]. rewrite !H2.
      destruct reset; simpl; [rewrite !H1; simpl; lia|lia].
Qed.

Lemma run_runs es : forall w os t, stage_ok os t (w_stage w) -> Forall event_ok es ->
  runs (world_run es w) (fun w' => exists os' t', stage_ok os' t' (w_stage w') /\
    follows (Forall event_calm es) (frames es) os t (whole w) os' t' (whole w')).
Proof.
  induction es as [|e es IH]; intros w os t Hok Hes; cbn [world_run].
  { exists os, t. split; [done|]. apply follows_still; [done|]. apply effect_refl. }
  apply Forall_cons_iff in Hes as [He Hes]. apply runs_bind.
  eapply runs_mono; [by apply step_runs|]. intros w1 (os1 & t1 & Hok1 & Hf1).
  eapply runs_mono; [by apply (IH w1 os1 t1)|]. intros w2 (os2 & t2 & Hok2 & Hf2).
  exists os2, t2. split; [done|].
  replace (frames (e :: es)) with (frames [e] + frames es)
    by (unfold frames; rewrite (list.filter_app _ [e] es), length_app; lia).
  eapply follows_trans; [eapply follows_weaken; [|exact Hf1]|eapply follows_weaken; [|exact Hf2]];
    intros Hc; by inversion Hc.
Qed.

(** ** From the start *)

Definition start (cfg : dns_stage_config_t) (out : Q) (mem : list cf_dns_entry_t) : exec world :=
  s ← dns_stage_new (Some cfg) (Some out) (Some (fun _ => 0)) true true mem;
  match s with
  | Some s => Ret {| w_stage := s; w_reported := fun _ => 0 |}
  | None => Oob
  end.

Record start_ok (cfg : dns_stage_config_t) (out : Q) (mem : list cf_dns_entry_t) : Prop := {
  st_config : config_ok (cfg_correlator cfg);
  st_mem : cc_capacity (cfg_correlator cfg) <= zlen mem;
  st_provenance : provenance_ok (cfg_provenance cfg);
  st_out : out_ok out;
  st_empty : fifo_items out = []
}.

Lemma start_runs cfg out mem : start_ok cfg out mem ->
  runs (start cfg out mem) (fun w => stage_ok [] (table_new (cfg_correlator cfg)) (w_stage w) /\
    (forall c, s_stats (whole w) c = 0) /\ missing (whole w) = 0 /\
    s_synced (whole w) = stats_zero /\ s_cfg (w_stage w) = cfg /\
    s_processed (w_stage w) = 0 /\ s_heap (w_stage w) = ∅ /\
    fifo_items (s_out (w_stage w)) = []).
Proof.
  intros [Hcfg Hmem Hp Ho He]. unfold start, dns_stage_new. cbn [negb].
  destruct (new_refines (cfg_correlator cfg) mem Hcfg Hmem) as (c & Hnew & Hrel).
  rewrite Hnew. cbn [mbind exec_bind runs w_stage].
  split_and!; [split; [split|]|done| |done|done|done|done|done].
  - by exists c.
  - constructor.
  - apply ledger_new.
  - constructor.
  - intros p. cbn [s_heap]. rewrite lookup_empty. split; [by intros []|by intros ?%elem_of_nil].
  - apply map_Forall_empty.
  - exact Ho.
  - exact Hp.
  - unfold cf_dns_correlator_new in Hnew. repeat (case_match; try done).
    apply bind_Ret_inv in Hnew as (nb & _ & [= <-]). done.
  - unfold missing, whole, shift. cbn [set_stats s_stats s_out s_popped w_stage w_reported].
    rewrite He. done.
Qed.

Lemma heap_size h l : dom_is h l -> NoDup l -> size h = length l.
Proof.
  intros Hd Hn. rewrite <- size_dom. rewrite <- (size_list_to_set (C := gset Z) l Hn).
  f_equal. apply set_eq. intros p. by rewrite elem_of_dom, (Hd p), elem_of_list_to_set.
Qed.

(** C1. Memory safety and ownership: over any history of frames (well formed or
    hostile), idle ticks, consumer pops and reports, with any allocation
    failing, the engine runs without touching memory outside an object or a
    context that is not allocated; it holds exactly one context per pending
    query, at most the table's capacity; and its teardown frees them all, each
    once. *)
Theorem stage_ownership cfg out mem es env :
  start_ok cfg out mem -> Forall event_ok es -> env_ok env ->
  runs (w ← start cfg out mem; w ← world_run es w;
        s ← dns_stage_free inet_ntop pack get_packed_size env (Some (w_stage w)); Ret (w, s))
    (fun '(w, s) =>
       (exists cs, cf_dns_correlator_stats (s_correlator (w_stage w)) = Some cs /\
          Z.of_nat (size (s_heap (w_stage w))) = pending_depth cs /\
          pending_depth cs <= cc_capacity (cfg_correlator cfg)) /\
       exists s', s = Some s' /\ s_heap s' = ∅).
Proof.
  intros Hst Hes Henv. apply runs_bind. eapply runs_mono; [by apply start_runs|].
  intros w0 (Hok0 & _). apply runs_bind. eapply runs_mono; [by apply (run_runs es _ _ _ Hok0)|].
  intros w (os & t & Hok & [_ _ (l & -> & ->)]). apply runs_bind.
  eapply runs_mono; [by apply (free_runs env _ _ _ Hok)|]. intros r (s' & -> & Hh & _). cbn [runs].
  split; [|by exists s']. destruct Hok as [[(c & Hc & Hrel) _ _ Hnd Hd _ _ _] _].
  rewrite app_nil_r in *. exists (stats_now c). rewrite Hc. split; [done|].
  rewrite (heap_size _ _ Hd Hnd). unfold pending_ctxs, stats_now. cbn [pending_depth].
  rewrite length_map. destruct (rel_pending_length _ _ Hrel) as (_ & -> & Hcap & _).
  split; [done|].
  destruct (spec_ops_config l (table_new (cfg_correlator cfg))) as (Hcc & _).
  rewrite Hcc in Hcap. exact Hcap.
Qed.


(** Publication: after any history the correlator's five loss totals are
    exactly what the reports that reset have logged plus what the shared
    counters still hold: nothing is lost or published twice. *)
Theorem stage_publication cfg out mem es :
  start_ok cfg out mem -> Forall event_ok es ->
  runs (w ← start cfg out mem; world_run es w) (fun w =>
    exists cs, cf_dns_correlator_stats (s_correlator (w_stage w)) = Some cs /\
      Forall (fun '(c, f) => u64 (w_reported w c + s_stats (w_stage w) c) = u64 (f cs)) synced_stats).
Proof.
  intros Hst Hes. apply runs_bind. eapply runs_mono; [by apply start_runs|].
  intros w0 (Hok0 & Hz & _ & Hs0 & _). eapply runs_mono; [by apply (run_runs es _ _ _ Hok0)|].
  intros w (os & t & [_ Hs] & [_ [_ _ _ _ E5] _]). exists (s_synced (w_stage w)). split; [done|].
  apply Forall_forall. intros [c f] Hin. rewrite Forall_forall in E5. specialize (E5 _ Hin).
  cbn beta iota in E5.
  rewrite Hz, Hs0 in E5. assert (f stats_zero = 0) as Hf0
    by (clear - Hin; simpl in Hin; repeat (destruct Hin as [[= <- <-]|Hin]; [done|]); done).
  rewrite Hf0 in E5. apply (u64_congr _ _ (f (s_synced (w_stage w)))) in E5.
  rewrite Z.sub_add in E5. cbn [whole shift set_stats s_stats] in E5.
  rewrite Z.add_comm. exact E5.
Qed.
(** ** One transaction end to end *)

(** The packet carries the DNS message [tree] in the view [d]. *)
Record reads (pkt : cf_packet_item_t) (d : dns_l2l4_t) (tree : dns_message) : Prop := {
  rs_decode : forall st, dns_decode_frame st (frame_of pkt) = Ret (Some d, st);
  rs_parse : exists w, cf_dns_parse inet_ntop (Some (slice (frame_of pkt) (d_dns d) (d_dns_len d)))
    true cf_warn_list_init = Ret (Some tree, w)
}.

(** The context of such a packet. *)
Record ctx_for (leg : cf_dns_leg_config_t) (pkt : cf_packet_item_t) (d : dns_l2l4_t)
    (tree : dns_message) (ctx : dns_ctx_t) : Prop := {
  cx_tree : dm_tree (c_msg ctx) = tree;
  cx_raw : dm_raw_dns_payload (c_msg ctx) = slice (frame_of pkt) (d_dns d) (d_dns_len d);
  cx_role : c_role ctx = fst (cf_dns_classify_leg (Some leg) (ip_version (d_l3 d)) (src_ip (d_l3 d))
    (d_src_port d) (dst_ip (d_l3 d)) (d_dst_port d) CF_DNS_DIR_UNKNOWN);
  cx_time : c_observed_time ctx = pk_observed_time_unix_nano pkt;
  cx_frame : c_frame ctx = frame_of pkt
}.

Lemma process_reads v pkt d tree s : packet_ok pkt -> reads pkt d tree -> calm v ->
  exists p ctx, fe_ctx v (dom (s_heap s)) = Some p /\ ctx_for (s_leg s) pkt d tree ctx /\
    process_packet inet_ntop pack get_packed_size v pkt s =
      (s ← feed_correlator inet_ntop pack get_packed_size v (h_qr (m_header tree))
             (packet_key (Some (s_leg s)) d tree) (pk_observed_time_unix_nano pkt) p
             (set_heap (<[p := ctx]> (s_heap s)) s);
       s ← amortized_sweep inet_ntop pack get_packed_size v (pk_observed_time_unix_nano pkt) s;
       s ← dns_stage_sync_stats s; Ret (0, s)).
Proof.
  intros [Hb [[Hc0 Hc1] Hc2] Ht] [Hd [w Hw]] (Hal & Hcx & _).
  destruct (fe_ctx v (dom (s_heap s))) as [p|] eqn:Ep; [|by destruct (Hcx (dom (s_heap s)))].
  pose proof (decode_frame_runs (s_stats s) (frame_of pkt) (slice_bytes_ok _ _ _ Hb)) as Hv.
  rewrite Hd in Hv. destruct Hv as [[Hl3 _ _ Hv] _]. unfold view_ok in Hv.
  destruct (runs_inv _ _ (pobs_runs (fe_alloc v) pkt d Hl3)) as (po & Hpo & Hne).
  destruct po as [po|]; [|by destruct (Hne Hal)]. clear Hne.
  exists p. eexists. split; [done|]. split; [|].
  2: { unfold process_packet, packet_frame. rewrite rd_n_ok by lia. fold (frame_of pkt).
       xbind. rewrite Hd. xbind. rewrite rd_n_ok by lia.
       xbind. rewrite Hw. xbind. rewrite Hpo.
       rewrite (surjective_pairing (cf_dns_classify_leg _ _ _ _ _ _ _)).
       xbind. rewrite Ep, Hal.
       assert (set_stats (s_stats s) s = s) as -> by (by destruct s). reflexivity. }
  split; try done. cbn [c_msg keep_payload dm_raw_dns_payload]. rewrite Hal, andb_true_r.
  destruct (0 <? _) eqn:E; [done|]. destruct (slice _ _ _); [done|simpl in E; lia].
Qed.

Lemma deliver_calls env c c' t t' es s : s_correlator s = Some c -> rel c t -> rel c' t' ->
  t_emitted t' = t_emitted t ++ es -> exists cs, map fst cs = es /\
  deliver inet_ntop pack get_packed_size env (Some c') s =
    run_calls inet_ntop pack get_packed_size env 0 cs (set_correlator (Some c') s).
Proof.
  intros Hc [_ Hsc] [_ Hsc'] He. unfold scalars in *. injection Hsc as _ _ _ Hem _.
  injection Hsc' as _ _ _ Hem' _. unfold deliver. rewrite Hc. cbn [calls_of].
  eexists. split; [|reflexivity]. rewrite <- skipn_map, Hem', He, <- Hem.
  rewrite <- (length_map fst (calls c)). apply drop_app_length.
Qed.

(** The event of an observed pair. *)
Record event_for (cfg : dns_stage_config_t) (e : emit_env) (q r : dns_ctx_t) (m : emission)
    (ev : CloudFlowEvent) : Prop := {
  ef_query : te_query (ev_dns_transaction ev) = Some (c_msg q);
  ef_response : te_response (ev_dns_transaction ev) = Some (c_msg r);
  ef_role : te_role (ev_dns_transaction ev) = c_role q;
  ef_rtt : te_rtt_nanos (ev_dns_transaction ev) = m_rtt_nanos m /\
           te_rtt_valid (ev_dns_transaction ev) = (if m_rtt_valid m =? 0 then 0 else 1);
  ef_warnings : te_parser_warnings (ev_dns_transaction ev) = c_warnings q ++ c_warnings r;
  ef_id : ee_event_id (ev_envelope ev) = c_str (event_id_of (default [] (source_host (cfg_provenance cfg)))
    (default [] (capture_interface (cfg_provenance cfg))) (c_observed_time q) (c_frame q) ++ [0]);
  ef_type : ee_event_type (ev_envelope ev) = event_type_of (m_outcome m)
}.

Abbreviation item_for ev := (item_holds (pack ev) CF_STREAM_DNS).

Lemma encode_fits ev outcome time : 1 <= get_packed_size ev <= CLOUDFLOW_EVENT_MAX_SIZE ->
  exists item, encode_event pack get_packed_size ev (event_type_of outcome) time = Ret (Send item) /\
    item_for ev time (event_type_of outcome) item /\ zlen (item_bytes item) = SIZEOF_EVENT_ITEM.
Proof.
  intros [H1 H2]. pose proof (encode_runs ev (event_type_of outcome) time) as Hr.
  unfold encode_event in *. replace (CLOUDFLOW_EVENT_MAX_SIZE <? get_packed_size ev) with false in * by lia.
  rewrite <- pack_size in *. unfold CLOUDFLOW_EVENT_MAX_SIZE in *.
  assert (zlen (it_payload zero_item) = 8192) as Hb
    by (cbn [zero_item it_payload]; rewrite length_replicate; done).
  revert Hb Hr. generalize (it_payload zero_item). intros buf Hb.
  replace (8192 <? zlen (pack ev)) with false by lia.
  rewrite wr_n_ok by lia. xbind. rewrite u32_id by lia.
  replace (zlen (pack ev) =? 0) with false by lia.
  destruct (event_type_fits (it_event_type zero_item) (event_type_of outcome)) as (f & Ef & Hcf & _);
    [done|by destruct outcome; repeat constructor|by destruct outcome|].
  rewrite Ef. cbn [mbind exec_bind runs]. intros [Hs _]. eexists. split; [reflexivity|].
  split; [|exact Hs].
  split; cbn [it_payload it_payload_len it_observed_time_unix_nano it_stream_id it_event_type]; try done.
  by apply slice_splice_same; lia.
Qed.

(** With room in the queue, no failed allocation and everything emitted, the
    pair is freed and its item queued. *)
Lemma emit_sends e m snap s p1 p2 q r : emitted_ok e s ->
  (forall a, en_alloc e a = true) -> ep_mode (cfg_emit_policy (s_cfg s)) = CF_DNS_EMIT_ALL ->
  zlen (fifo_items (s_out s)) < fifo_bound (s_out s) ->
  m_query m = Some p1 -> m_response m = Some p2 -> p1 <> p2 ->
  s_heap s !! p1 = Some q -> s_heap s !! p2 = Some r ->
  runs (dns_stage_emit inet_ntop pack get_packed_size e m snap s) (fun s' =>
    core s' = core s /\ s_heap s' = delete p2 (delete p1 (s_heap s)) /\
    exists ev, event_for (s_cfg s) e q r m ev /\
      (1 <= get_packed_size ev <= CLOUDFLOW_EVENT_MAX_SIZE -> exists item,
        item_for ev (c_observed_time q) (event_type_of (m_outcome m)) item /\
        fifo_items (s_out s') = fifo_items (s_out s) ++ [item_bytes item])).
Proof.
  intros (Hu & [Hh Hi] & [Hwf Hes] & Hf) Hal Hall Hroom Hq Hr Hne Hp1 Hp2. unfold dns_stage_emit.
  rewrite Hq, Hr. cbn [ctx_load]. rewrite Hp1, Hp2. xbind.
  unfold emit_verdict, cf_dns_emit_decide. rewrite Hall. change (1 =? 0) with false. cbv iota.
  unfold build_txn, dup_field. rewrite !Hal. cbn [negb].
  unfold build_envelope, envelope_of, dup_field. rewrite !Hal. cbn [negb].
  rewrite cf_event_id_of by (done || apply (Hf _ _ Hp1)). xbind. rewrite ?Hal. cbn [negb].
  set (ev := {| ev_envelope := _; ev_dns_transaction := _ |}).
  assert (event_for (s_cfg s) e q r m ev) as Hev by (split; done). clearbody ev.
  destruct (runs_inv _ _ (encode_runs ev (event_type_of (m_outcome m)) (c_observed_time q)))
    as (v & Hv & Hsend & Hnm). rewrite Hv. xbind.
  assert (forall s1, s_heap s1 = s_heap s -> core s1 = core s ->
    (forall item, v = Send item -> fifo_items (s_out s1) = fifo_items (s_out s) ++ [item_bytes item]) ->
    runs (h ← dns_ctx_free (Some p1) (s_heap s1);
     h0 ← dns_ctx_free (Some p2) h; Ret (sync_with snap (set_heap h0 s1))) (fun s' =>
    core s' = core s /\ s_heap s' = delete p2 (delete p1 (s_heap s)) /\
    exists ev, event_for (s_cfg s) e q r m ev /\
      (1 <= get_packed_size ev <= CLOUDFLOW_EVENT_MAX_SIZE -> exists item,
        item_for ev (c_observed_time q) (event_type_of (m_outcome m)) item /\
        fifo_items (s_out s') = fifo_items (s_out s) ++ [item_bytes item]))) as Hend.
  { intros s1 Hh1 Hc1 Hit. rewrite Hh1. cbn [dns_ctx_free]. rewrite Hp1. xbind.
    rewrite lookup_delete_ne, Hp2 by done. cbn [mbind exec_bind runs]. split; [done|]. split; [done|].
    exists ev. split; [done|]. intros Hfit.
    destruct (encode_fits ev (m_outcome m) (c_observed_time q) Hfit) as (item & Hx & Hitem & _).
    rewrite Hv in Hx. injection Hx as ->. exists item. split; [done|]. by apply Hit. }
  destruct v as [| | | |item]; cbn [apply_verdict mbind exec_bind]; try (by apply Hend).
  apply runs_bind. unfold send_item. rewrite <- Hes. apply runs_bind.
  eapply runs_mono; [apply push_policy_spec; [done|by rewrite Hes|]|].
  { unfold size_ok. rewrite Hes. done. }
  intros [[[rc q'] ctr] xs] (_ & _ & _ & Hout). unfold push_outcome in Hout.
  replace (zlen (fifo_items (s_out s)) <? fifo_bound (s_out s)) with true in Hout by lia.
  destruct Hout as (-> & Hi' & -> & ->). cbn [runs]. apply Hend; [done|done|].
  intros item' [= <-]. exact Hi'.
Qed.

(** No sweep is due: only the counters are published. *)
Lemma tail_quiet v time c s : s_correlator s = Some c -> 0 <= s_processed s < 62 ->
  (s ← amortized_sweep inet_ntop pack get_packed_size v time s;
   s ← dns_stage_sync_stats s; Ret (0, s)) =
  Ret (0, sync_with (stats_now c) (set_processed (s_processed s + 1) s)).
Proof.
  intros Hc Hn. unfold amortized_sweep. rewrite u64_id by lia.
  replace ((s_processed s + 1) mod DNS_STAGE_TICK_EVERY =? 0) with false
    by (unfold DNS_STAGE_TICK_EVERY; rewrite Z.mod_small by lia; lia).
  xbind. unfold dns_stage_sync_stats. cbn [set_processed s_correlator]. by rewrite Hc.
Qed.

Definition fresh_stage (cfg : dns_stage_config_t) s : Prop :=
  stage_ok [] (table_new (cfg_correlator cfg)) s /\ s_cfg s = cfg /\ s_processed s = 0 /\
  s_heap s = ∅ /\ fifo_items (s_out s) = [].

(** After the query: it is pending, and nothing else happened. *)
Lemma query_pends cfg v pkt d m s : fresh_stage cfg s -> config_ok (cfg_correlator cfg) ->
  packet_ok pkt -> frame_ok v -> calm v -> reads pkt d m -> h_qr (m_header m) = false ->
  exists p ctx s', process_packet inet_ntop pack get_packed_size v pkt s = Ret (0, s') /\
    ctx_for (s_leg s) pkt d m ctx /\ s_heap s' = {[ p := ctx ]} /\
    conf s' = conf s /\ s_processed s' = 1 /\ s_out s' = s_out s /\
    exists c, s_correlator s' = Some c /\
      rel c (t_set [{| p_key := packet_key (Some (s_leg s)) d m; p_time := pk_observed_time_unix_nano pkt;
                       p_ctx := p |}] (table_new (cfg_correlator cfg))).
Proof.
  intros ([Hh Hsy] & Hcfg & Hn & Hheap & Hit) [Hcap _] Hpk Hfo Hcalm Hrd Hqr.
  destruct (process_reads v pkt d m s Hpk Hrd Hcalm) as (p & ctx & Hp & Hctx & ->).
  rewrite Hqr. unfold feed_correlator. set (s1 := count_stat _ _).
  destruct Hh as [(c & Hc & Hrel) Htm _ _ _ _ _ _]. destruct (pk_time _ Hpk) as [? ?].
  destruct (on_query_refines c _ (packet_key (Some (s_leg s)) d m) (pk_observed_time_unix_nano pkt) p Hrel Htm)
    as (c' & Hon & Hrel'); [done|].
  assert (spec_query (packet_key (Some (s_leg s)) d m) (pk_observed_time_unix_nano pkt) p
    (table_new (cfg_correlator cfg)) = t_set [{| p_key := packet_key (Some (s_leg s)) d m;
      p_time := pk_observed_time_unix_nano pkt; p_ctx := p |}] (table_new (cfg_correlator cfg))) as Hspec.
  { unfold spec_query. assert (forall n now, spec_evict n now (table_new (cfg_correlator cfg)) =
      table_new (cfg_correlator cfg)) as -> by (intros [|n] now; done).
    cbn [list_find table_new t_pending t_cap length]. match goal with |- context [if ?b then _ else _] => by replace b with true by (simpl; lia) end. }
  rewrite Hspec in Hrel'. change (s_correlator s1) with (s_correlator s). rewrite Hc.
  unfold cf_dns_correlator_on_query. rewrite Hon. xbind.
  destruct (deliver_calls (fe_emit v) c c' _ _ [] s1 Hc Hrel Hrel' eq_refl) as (cs & Hcs & ->).
  apply map_eq_nil in Hcs as ->. cbn [run_calls mbind exec_bind].
  rewrite (tail_quiet v _ c') by (cbn [set_correlator s_processed s_correlator s1 count_stat set_stats
    set_heap]; rewrite ?Hn; done || lia).
  exists p, ctx. eexists. split; [reflexivity|]. split; [done|].
  cbn [sync_with set_synced set_stats set_processed set_correlator s1 count_stat set_heap s_heap conf
    s_processed s_out s_correlator]. rewrite Hheap, Hn. split_and!; try done. by exists c'.
Qed.

(** What the matched pair leads to. *)
Definition delivered (cfg : dns_stage_config_t) (e : emit_env) (q r : dns_ctx_t) (t rtt : Z) s : Prop :=
  exists m ev, m_outcome m = CF_DNS_TXN_OBSERVED /\ m_rtt_nanos m = rtt /\
    m_rtt_valid m = rtt_ok (cc_query_timeout_nanos (cfg_correlator cfg)) rtt /\
    event_for cfg e q r m ev /\
    (1 <= get_packed_size ev <= CLOUDFLOW_EVENT_MAX_SIZE -> exists item,
      item_for ev t (bs "dns.transaction.observed") item /\
      fifo_items (s_out s) = [item_bytes item]).

Lemma response_sends cfg v pkt d m s c pa q t : s_cfg s = cfg ->
  s_correlator s = Some c -> s_processed s = 1 -> s_heap s = {[ pa := q ]} ->
  rel c (t_set [{| p_key := packet_key (Some (s_leg s)) d m; p_time := t; p_ctx := pa |}]
    (table_new (cfg_correlator cfg))) -> time_ok t -> c_observed_time q = t -> bytes_ok (c_frame q) ->
  provenance_ok (cfg_provenance cfg) -> out_ok (s_out s) -> fifo_items (s_out s) = [] ->
  ep_mode (cfg_emit_policy cfg) = CF_DNS_EMIT_ALL ->
  packet_ok pkt -> frame_ok v -> calm v -> reads pkt d m -> h_qr (m_header m) = true ->
  exists r s', process_packet inet_ntop pack get_packed_size v pkt s = Ret (0, s') /\
    ctx_for (s_leg s) pkt d m r /\ s_heap s' = ∅ /\
    delivered cfg (fe_emit v 0%nat) q r t (pk_observed_time_unix_nano pkt - t) s'.
Proof.
  intros Hcfg Hc Hn Hh Hrel Ht Htq Hbq Hp Ho Hit Hall Hpk Hfo Hcalm Hrd Hqr.
  destruct (process_reads v pkt d m s Hpk Hrd Hcalm) as (pb & r & Hpb & Hctx & ->).
  assert (pa <> pb) as Hne.
  { pose proof (fo_ctx _ Hfo _ _ Hpb) as Hx. rewrite Hh, dom_singleton_L in Hx. set_solver. }
  rewrite Hqr. unfold feed_correlator.
  set (key := packet_key (Some (s_leg s)) d m) in *. set (s2 := count_stat _ _).
  destruct (on_response_refines c _ key (pk_observed_time_unix_nano pkt) pb Hrel) as (c' & Hon & Hrel');
    [apply Forall_cons_2; [done|constructor]|apply Hpk|].
  unfold spec_response in Hrel'. cbn [t_set t_pending list_find] in Hrel'.
  rewrite decide_True in Hrel' by (by apply key_equal_sig).
  change (s_correlator s2) with (s_correlator s). rewrite Hc.
  unfold cf_dns_correlator_on_response. rewrite Hon. xbind.
  match type of Hrel' with rel _ (t_emit _ ?m _) => set (mo := m) in * end.
  destruct (deliver_calls (fe_emit v) c c' _ _ [mo] s2 Hc Hrel Hrel' eq_refl) as (cs & Hcs & ->).
  destruct cs as [|[m' snap] [|]]; [done| |done]. injection Hcs as ->. cbn [run_calls].
  set (s2' := set_correlator (Some c') s2).
  assert (s_heap s2' = <[pb := r]> {[pa := q]}) as Hh2 by (cbn; by rewrite Hh).
  assert (emitted_ok (fe_emit v 0%nat) s2') as Hem.
  { split; [apply Hfo|]. cbn. rewrite Hcfg. split_and!; [done|done|]. rewrite Hh.
    apply map_Forall_insert_2; [|by apply map_Forall_singleton].
    rewrite (cx_frame _ _ _ _ _ Hctx). apply slice_bytes_ok, Hpk. }
  assert (zlen (fifo_items (s_out s2')) < fifo_bound (s_out s2')) as Hroom.
  { cbn. rewrite Hit. destruct Ho as [Hwf _]. pose proof (fifo_bound_pos _ Hwf). simpl. lia. }
  assert (ep_mode (cfg_emit_policy (s_cfg s2')) = CF_DNS_EMIT_ALL) as Hmode by (cbn; by rewrite Hcfg).
  assert (s_heap s2' !! pa = Some q /\ s_heap s2' !! pb = Some r) as [Hpa Hpb'].
  { rewrite Hh2, lookup_insert_ne, lookup_singleton_eq, lookup_insert_eq by done. done. }
  destruct (runs_inv _ _ (emit_sends (fe_emit v 0%nat) mo snap s2' pa pb q r Hem
    (proj1 (proj2 (proj2 Hcalm)) 0%nat) Hmode Hroom eq_refl eq_refl Hne Hpa Hpb'))
    as (s3 & Hs3 & Hcore & Hh3 & ev & Hev & Hfit).
  rewrite Hs3. cbn [run_calls mbind exec_bind]. injection Hcore as Hcfg3 Hleg3 Hcc3 Hn3.
  cbn in Hcc3, Hn3. rewrite (tail_quiet v _ c' s3) by (done || lia). exists r. eexists.
  split; [reflexivity|]. split; [done|]. split.
  - cbn. rewrite Hh3, Hh2, delete_insert_ne, delete_singleton_eq, insert_empty by done.
    by rewrite delete_singleton_eq.
  - exists mo, ev. change (s_cfg s2') with (s_cfg s) in Hev. rewrite Hcfg in Hev.
    rewrite Htq in Hfit. cbn in Hfit. rewrite Hit in Hfit. by split_and!.
Qed.

(** C3. From frame to event: a query and its response, in packets of opposite
    directions with one endpoint on port 53, are matched and become one
    [dns.transaction.observed] event that carries both messages with their wire
    bytes, the role of the query, the exact time difference and the identifier
    of the query's frame; when it fits it is the one item in the output queue,
    and no context is left. *)
Theorem transaction_observed cfg out mem v1 v2 pkt1 pkt2 d1 d2 m1 m2 :
  start_ok cfg out mem -> ep_mode (cfg_emit_policy cfg) = CF_DNS_EMIT_ALL ->
  packet_ok pkt1 -> packet_ok pkt2 -> frame_ok v1 -> frame_ok v2 -> calm v1 -> calm v2 ->
  reads pkt1 d1 m1 -> reads pkt2 d2 m2 ->
  h_qr (m_header m1) = false -> h_qr (m_header m2) = true ->
  reversed d1 d2 -> same_question m1 m2 -> one_server d1 ->
  runs (w ← start cfg out mem; world_run [EvFrame v1 pkt1; EvFrame v2 pkt2] w) (fun w =>
    s_heap (w_stage w) = ∅ /\
    exists leg q r, ctx_for leg pkt1 d1 m1 q /\ ctx_for leg pkt2 d2 m2 r /\
      delivered cfg (fe_emit v2 0%nat) q r (pk_observed_time_unix_nano pkt1)
        (pk_observed_time_unix_nano pkt2 - pk_observed_time_unix_nano pkt1) (w_stage w)).
Proof.
  intros Hst Hall Hp1 Hp2 Hf1 Hf2 Hc1 Hc2 Hr1 Hr2 Hq1 Hq2 Hrev Hsame Hone.
  apply runs_bind. eapply runs_mono; [by apply start_runs|].
  intros [s0 rep] (Hok0 & _ & _ & _ & Hcfg & Hn & Hheap & Hout). cbn [w_stage] in *.
  destruct (query_pends cfg v1 pkt1 d1 m1 s0) as (pa & q & s1 & Hrun1 & Hctx1 & Hh1 & Hconf & Hn1 & Ho1 & c & Hc & Hrel);
    [by split_and!|apply Hst|done..|].
  cbn [world_run world_step w_stage w_reported]. rewrite Hrun1. cbn [mbind exec_bind w_stage w_reported].
  injection Hconf as Hcfg1 Hleg1.
  rewrite <- Hleg1, <- (packet_key_reversed _ d1 d2 m1 m2) in Hrel by done.
  destruct (response_sends cfg v2 pkt2 d2 m2 s1 c pa q (pk_observed_time_unix_nano pkt1))
    as (r & s2 & -> & Hctx2 & Hh2 & Hdel); try done; [congruence|apply Hp1|apply Hctx1| |apply Hst| |congruence|].
  - rewrite (cx_frame _ _ _ _ _ Hctx1). apply slice_bytes_ok, Hp1.
  - rewrite Ho1. apply Hok0.
  - cbn [mbind exec_bind runs w_stage]. split; [done|]. exists (s_leg s1), q, r.
    rewrite Hleg1 in *. by split_and!.
Qed.
End StageSpec.

(** ** A sample engine *)

Definition sample_pack (ev : CloudFlowEvent) : list Z := [1; 2; 3].
Definition sample_size (ev : CloudFlowEvent) : Z := 3.

Definition sample_out : option cf_queue_t := snd (cf_queue_init true (Some null_queue) 3 SIZEOF_EVENT_ITEM).

Definition sample_stage_config : dns_stage_config_t :=
  {| cfg_provenance := {| source_host := Some (bs "probe-1"); source_instance := None;
       capture_interface := Some (bs "eth0"); observation_method := Some (bs "rxring") |};
     cfg_on_full := CF_ONFULL_DROP_OLDEST; cfg_correlator := sample_config;
     cfg_local_addrs := None; cfg_backend_addrs := None; cfg_role_map := None;
     cfg_emit_policy := {| ep_mode := CF_DNS_EMIT_ALL; ep_sample_denominator := 1 |} |}.

Definition sample_env (i : nat) : emit_env :=
  {| en_alloc := all_ok; en_now := 0; en_stop := fun _ => false; en_consumer := fun _ => 0%nat;
     en_uninit := stale_ctx |}.

Definition sample_frame_env : frame_env :=
  {| fe_alloc := all_ok; fe_ctx := fun used => Some (fresh used); fe_emit := sample_env;
     fe_sweep := sample_env |}.

(** A UDP packet between two hosts with the question for [name]. *)
Definition host_a : list Z := ip4.
Definition host_b : list Z := [192; 0; 2; 53] ++ replicate 12 0.
Definition dns_frame (response : bool) (src dst : list Z) (sp dp : Z) (name : list (list Z)) : list Z :=
  let x := set_ip 4 src dst 17 64 0 0 (sample ETHERTYPE_IPV4 4 17 src) in
  let h := {| hs_id := 0x1234; hs_qr := response; hs_opcode := 0; hs_aa := false; hs_tc := false;
              hs_rd := true; hs_ra := response; hs_ad := false; hs_cd := false; hs_rcode := 0 |} in
  let body := wire h [(name, 1, 1)] [] [] [] in
  encode x [] (V4 0 0 0 []) (udp_bytes sp dp 0 (zlen body) ++ body) [].

Definition query_packet : cf_packet_item_t :=
  packet_of (dns_frame false host_a host_b 40000 53 [bs "Example"; bs "COM"]) 1000.
Definition response_packet : cf_packet_item_t :=
  packet_of (dns_frame true host_b host_a 53 40000 [bs "example"; bs "com"]) 1040.

Definition view_or (d0 : dns_l2l4_t) (pkt : cf_packet_item_t) : dns_l2l4_t :=
  match dns_decode_frame (fun _ => 0) (frame_of pkt) with Ret (Some d, _) => d | _ => d0 end.
Definition msg_or (m0 : dns_message) (pkt : cf_packet_item_t) (d : dns_l2l4_t) : dns_message :=
  match cf_dns_parse no_ntop (Some (slice (frame_of pkt) (d_dns d) (d_dns_len d))) true
          cf_warn_list_init with
  | Ret (Some m, _) => m
  | _ => m0
  end.

Definition query_view : dns_l2l4_t := Eval vm_compute in view_or (sample_view [] [] 0 0) query_packet.
Definition response_view : dns_l2l4_t :=
  Eval vm_compute in view_or (sample_view [] [] 0 0) response_packet.
Definition query_msg : dns_message :=
  Eval vm_compute in msg_or (sample_msg false []) query_packet query_view.
Definition response_msg : dns_message :=
  Eval vm_compute in msg_or (sample_msg false []) response_packet response_view.

Lemma query_reads : reads no_ntop query_packet query_view query_msg.
Proof.
  split; [intros st; vm_compute; reflexivity|]. eexists. vm_compute. reflexivity.
Qed.

Lemma response_reads : reads no_ntop response_packet response_view response_msg.
Proof.
  split; [intros st; vm_compute; reflexivity|]. eexists. vm_compute. reflexivity.
Qed.

Lemma sample_start : start_ok sample_stage_config sample_out sample_mem.
Proof.
  destruct (init_wf true null_queue 3 SIZEOF_EVENT_ITEM sample_out) as (Hwf & Hi & _ & He);
    [done|done|].
  split; [split; vm_compute; done|vm_compute; discriminate| |by split|exact Hi].
  split; apply bs_bytes_ok.
Qed.

Lemma sample_env_ok : env_ok sample_env.
Proof. intros i. split; [done|]. apply Forall_replicate. done. Qed.

Lemma sample_frame_ok : frame_ok sample_frame_env.
Proof.
  split; [apply sample_env_ok|apply sample_env_ok|]. intros used p [= <-]. apply is_fresh.
Qed.

Lemma sample_calm : calm sample_frame_env.
Proof. by split_and!. Qed.

Lemma query_packet_ok : packet_ok query_packet.
Proof. apply packet_of_ok; [apply bytes_okb; vm_compute; done|vm_compute; discriminate|done]. Qed.

Lemma response_packet_ok : packet_ok response_packet.
Proof. apply packet_of_ok; [apply bytes_okb; vm_compute; done|vm_compute; discriminate|done]. Qed.

(** The query, hostile bytes, the response, a report and a sweep. *)
Definition sample_events : list (@event (option cf_queue_t)) :=
  [EvFrame sample_frame_env query_packet; EvFrame sample_frame_env (packet_of [1; 2; 3] 1010);
   EvFrame sample_frame_env response_packet;
   EvReport (fun _ => 0) (fun _ => 0) None None true;
   EvTake 1; EvTick sample_env 5000].

Lemma sample_events_ok : Forall event_ok sample_events.
Proof.
  repeat (apply Forall_cons_2); [..|done]; cbn [event_ok]; try done;
    (split; [first [apply sample_frame_ok|apply sample_env_ok]|]); try done.
  - apply query_packet_ok.
  - apply packet_of_ok; [|done|done]. repeat (apply Forall_cons_2; [done|]). constructor.
  - apply response_packet_ok.
Qed.

Lemma stage_ownership_witness :
  runs (w ← start sample_stage_config sample_out sample_mem;
        w ← world_run no_ntop sample_pack sample_size sample_events w;
        s ← dns_stage_free no_ntop sample_pack sample_size sample_env (Some (w_stage w)); Ret (w, s))
    (fun '(w, s) => exists s', s = Some s' /\ s_heap s' = ∅).
Proof.
  eapply runs_mono.
  - apply (stage_ownership no_ntop sample_pack sample_size (fun _ => eq_refl) sample_stage_config
      sample_out sample_mem sample_events sample_env);
      [apply sample_start|apply sample_events_ok|apply sample_env_ok].
  - intros [w s] [_ H]. exact H.
Defined.


Lemma stage_publication_witness :
  runs (w ← start sample_stage_config sample_out sample_mem;
        world_run no_ntop sample_pack sample_size sample_events w)
    (fun w => exists cs, cf_dns_correlator_stats (s_correlator (w_stage w)) = Some cs /\
      u64 (w_reported w dns_rtt_invalid_total + s_stats (w_stage w) dns_rtt_invalid_total) =
        u64 (rtt_invalid cs)).
Proof.
  eapply runs_mono.
  - apply (stage_publication no_ntop sample_pack sample_size (fun _ => eq_refl) sample_stage_config
      sample_out sample_mem sample_events); [apply sample_start|apply sample_events_ok].
  - intros w (cs & Hcs & H). exists cs. split; [exact Hcs|].
    unfold synced_stats in H. rewrite !Forall_cons_iff in H. apply H.
Defined.

Lemma transaction_observed_witness :
  runs (w ← start sample_stage_config sample_out sample_mem;
        world_run no_ntop sample_pack sample_size
          [EvFrame sample_frame_env query_packet; EvFrame sample_frame_env response_packet] w)
    (fun w => exists item, fifo_items (s_out (w_stage w)) = [item_bytes item] /\
       slice (it_payload item) 0 (it_payload_len item) = [1; 2; 3]).
Proof.
  eapply runs_mono.
  - apply (transaction_observed no_ntop sample_pack sample_size (fun _ => eq_refl) sample_stage_config
      sample_out sample_mem sample_frame_env sample_frame_env query_packet response_packet
      query_view response_view query_msg response_msg);
      [apply sample_start|done|apply query_packet_ok|apply response_packet_ok|apply sample_frame_ok
      |apply sample_frame_ok|apply sample_calm|apply sample_calm
      |apply query_reads|apply response_reads
      |reflexivity|reflexivity|by split|by split|right; split; [discriminate|reflexivity]].
  - intros w (_ & leg & q & r & _ & _ & m & ev & _ & _ & _ & _ & H).
    destruct H as (item & Hit & Hout); [unfold sample_size, CLOUDFLOW_EVENT_MAX_SIZE; lia|].
    exists item. split; [exact Hout|apply Hit].
Defined.
