(* ===== verification/DnsThread.v ===== *)
(** * DnsThread: the pipeline thread around the DNS stage
    ([sources/cloudflow-source-dns/src/dns_stage.c], [dns_stage_start] and
    [dns_stage_stop])

    The thread owns the engine from [pthread_create] to [pthread_join]; its run
    is placed at the join, and is the [Worker] that processes a frame or, on an
    empty queue, ticks. *)

From stdpp Require Import gmap.
From S2P Require Import Prelude IpFmt Core Queue QueuePolicy Sha256 EventId Dns Correlation.
From S2P Require Import Counters Observation Worker.
From S2P Require Import CorrelationSpec DnsKey DnsEvent DnsStage DnsStageSpec.

(** A tick's environment: that of its emissions, and the clock. *)
Abbreviation dns_turn := (turn frame_env ((nat -> emit_env) * Z)).

Section Thread.
Context {Q : Type} `{GaugedFifo Q} {R : Type} `{BoundedFifo R}.
Variable inet_ntop : Z -> list Z -> list Z.
Variable pack : CloudFlowEvent -> list Z.
Variable get_packed_size : CloudFlowEvent -> Z.

Abbreviation stage := (@dns_stage Q).

(** The body of the loop and of [dns_stage_drain]. *)
Definition dns_stage_worker : worker frame_env ((nat -> emit_env) * Z) (option stage) :=
  {| wk_process := fun e pkt s =>
       '(_, s) ← dns_stage_process_packet inet_ntop pack get_packed_size e s (Some pkt); Ret s;
     wk_idle := fun '(env, now) s =>
       dns_stage_tick inet_ntop pack get_packed_size env now s |}.

Definition dns_stage_thread_main (turns : list dns_turn) (envs : nat -> frame_env) (iq : R)
    (s : option stage) : exec (R * option stage * Z) :=
  worker_main dns_stage_worker turns envs iq s.

(** The static [g_dns_stage]. *)
Record dns_stage_thread_t := { g_engine : option stage; g_started : bool }.

(** [has_in]: the input queue is not NULL; [create_ok]: [pthread_create]
    succeeds.  A failed creation frees the engine, whose table is empty. *)
Definition dns_stage_start (cfg : option dns_stage_config_t) (has_in : bool) (out : option Q)
    (st : option cf_dns_source_stats_t) (calloc_ok alloc create_ok : bool)
    (mem : list cf_dns_entry_t) (env : nat -> emit_env) (g : dns_stage_thread_t)
    : exec (Z * dns_stage_thread_t) :=
  match cfg, has_in, out, st with
  | Some cfg, true, Some out, Some st =>
      if g_started g then Ret (-1, g)
      else
        e ← dns_stage_new (Some cfg) (Some out) (Some st) calloc_ok alloc mem;
        match e with
        | None => Ret (-1, {| g_engine := None; g_started := false |})
        | Some e =>
            if negb create_ok then
              _ ← dns_stage_free inet_ntop pack get_packed_size env (Some e);
              Ret (-1, {| g_engine := None; g_started := false |})
            else Ret (0, {| g_engine := Some e; g_started := true |})
        end
  | _, _, _, _ => Ret (-1, g)
  end.

(** The joined thread's input queue and count, and the shared objects the
    engine leaves behind, when there was a thread. *)
Definition dns_stage_stop (turns : list dns_turn) (envs : nat -> frame_env) (env : nat -> emit_env)
    (iq : R) (sync : cf_sync_state) (g : dns_stage_thread_t)
    : exec (option (R * option stage * Z) * cf_sync_state * dns_stage_thread_t) :=
  if negb (g_started g) then Ret (None, sync, g)
  else
    let sync := cf_stop_notify 0 sync in
    '(iq, s, n) ← dns_stage_thread_main turns envs iq (g_engine g);
    left ← dns_stage_free inet_ntop pack get_packed_size env s;
    Ret (Some (iq, left, n), sync, {| g_engine := None; g_started := false |}).

(** ** Lossless shutdown *)

Hypothesis pack_size : forall ev, zlen (pack ev) = get_packed_size ev.

Definition tick_ok (t : (nat -> emit_env) * Z) : Prop := env_ok t.1 /\ time_ok t.2.

(** The engine after [f] frames. *)
Definition advanced (f : Z) (s0 : stage) (s : option stage) : Prop :=
  exists s1 os t, s = Some s1 /\ stage_ok os t s1 /\
    total frame_stats (s_stats s1) = u64 (total frame_stats (s_stats s0) + f).

Lemma advanced_refl os t s : stage_ok os t s -> advanced 0 s (Some s).
Proof. intros Hs. exists s, os, t. by rewrite Z.add_0_r, total_u64. Qed.

Lemma frame_runs s0 e pkt f s : frame_ok e -> packet_ok pkt -> advanced f s0 s ->
  runs (wk_process dns_stage_worker e pkt s) (advanced (f + 1) s0).
Proof.
  intros Hv Hb (s1 & os & t & -> & Hok & Ht). cbn [dns_stage_worker wk_process].
  unfold dns_stage_process_packet. do 2 apply runs_bind.
  eapply runs_mono; [by apply (process_runs inet_ntop pack get_packed_size pack_size e _ os t s1)|].
  intros [rc s2] (_ & os' & t' & Hok' & [_ He _]). exists s2, os', t'. split_and!; [done|done|].
  rewrite (ef_frames _ _ _ _ _ He), Ht, u64_add. f_equal. lia.
Qed.

Lemma idle_runs s0 t f s : tick_ok t -> advanced f s0 s ->
  runs (wk_idle dns_stage_worker t s) (advanced f s0).
Proof.
  destruct t as [env now]. intros [Henv Hnow] (s1 & os & t & -> & Hok & Ht).
  cbn [dns_stage_worker wk_idle].
  eapply runs_mono; [by apply (tick_runs inet_ntop pack get_packed_size pack_size env now os t s1)|].
  intros r (s2 & os' & t' & -> & Hok' & [_ He _]). exists s2, os', t'. split_and!; [done|done|].
  by rewrite (ef_frames _ _ _ _ _ He), Z.add_0_r, total_u64, Ht.
Qed.

(** C38. Lossless shutdown: stopping a started stage lets its thread take every
    frame that was queued or accepted, each counted exactly once; the input
    queue ends empty, the engine is gone with every context freed, the stop
    flag is set, and stopping again does nothing. *)
Theorem stop_lossless turns envs env iq sync s os t :
  in_ok iq -> stage_ok os t s -> Forall (turn_ok frame_ok tick_ok) turns -> (forall i, frame_ok (envs i)) ->
  env_ok env ->
  let gone := {| g_engine := None; g_started := false |} in
  runs (dns_stage_stop turns envs env iq sync {| g_engine := Some s; g_started := true |})
    (fun '(r, sync', g') =>
       g' = gone /\ cf_stop_notified sync' = true /\
       dns_stage_stop turns envs env iq sync' g' = Ret (None, sync', gone) /\
       exists iq' s' n, r = Some (iq', Some s', n) /\ fifo_items iq' = [] /\ s_heap s' = ∅ /\
         total frame_stats (s_stats s') =
           u64 (total frame_stats (s_stats s) + (zlen (fifo_items iq) + n))).
Proof.
  intros Hin Hok Hts Henvs Henv gone. unfold dns_stage_stop at 1, dns_stage_thread_main.
  cbn [g_started g_engine negb]. apply runs_bind. eapply runs_mono.
  { apply (worker_runs dns_stage_worker frame_ok tick_ok (fun f => advanced f s)); try done.
    - intros e pkt f s1. apply frame_runs.
    - intros t1 f s1. apply idle_runs.
    - by eapply advanced_refl. }
  intros [[iq1 s1] n] [He (s3 & os' & t' & -> & Hok3 & Ht3)].
  apply runs_bind. eapply runs_mono;
    [by apply (free_runs inet_ntop pack get_packed_size pack_size env os' t' s3)|].
  intros r (s4 & -> & Hh & _ & Heff). cbn [runs]. split_and!; [done|done|done|].
  exists iq1, s4, n. split_and!; [done|done|done|].
  by rewrite (ef_frames _ _ _ _ _ Heff), Ht3, Z.add_0_r, u64_u64.
Qed.
End Thread.

(** Two frames arrive, then the stop is requested. *)
Definition sample_turn : dns_turn :=
  {| tn_arrivals := [packet_image query_packet; packet_image response_packet];
     tn_frame := sample_frame_env; tn_idle := (sample_env, 0) |}.

Lemma stop_lossless_witness :
  runs (w ← start sample_stage_config sample_out sample_mem;
        dns_stage_stop no_ntop sample_pack sample_size [sample_turn] (fun _ => sample_frame_env)
          sample_env sample_in cf_sync_init {| g_engine := Some (w_stage w); g_started := true |})
    (fun '(r, sync', g') => cf_stop_notified sync' = true /\
       exists iq' s' n, r = Some (iq', Some s', n) /\ fifo_items iq' = [] /\ s_heap s' = ∅).
Proof.
  apply runs_bind. eapply runs_mono; [apply (start_runs sample_stage_config _ _ sample_start)|].
  intros w (Hok & _).
  eapply runs_mono.
  - apply (stop_lossless no_ntop sample_pack sample_size (fun _ => eq_refl) [sample_turn]
      (fun _ => sample_frame_env) sample_env sample_in cf_sync_init _ _ _ sample_in_ok Hok).
    + apply Forall_cons_2; [|constructor]. split; [|split; [apply sample_frame_ok|split; [apply sample_env_ok|done]]].
      repeat (apply Forall_cons_2); [apply image_ok..|constructor];
        [apply query_packet_ok|split; vm_compute; split; done|apply response_packet_ok|split; vm_compute; split; done].
    + intros i. apply sample_frame_ok.
    + apply sample_env_ok.
  - intros [[r sync'] g'] (_ & Hs & _ & iq' & s' & n & Hr & Hi & Hh & _).
    split; [exact Hs|]. exists iq', s', n. split; [exact Hr|]. split; [exact Hi|exact Hh].
Defined.
