(* ===== verification/DhcpFormat.v ===== *)
(** * DhcpFormat: the DHCP event formatter
    ([sources/cloudflow-source-dhcp/src/formatter.c])

    From a captured frame to the event item pushed to the Redis producer:
    classification by UDP port, the parsers of [Dhcp4] and [Dhcp6], the
    observation trees and the envelope of [Observation], the oversize policy,
    and the formatter's thread, a [Worker].  [pack] and [get_packed_size] are
    the generated encoder, [inet_ntop] the library's; the warning logged when
    an allocation fails is counted in [fm_logged]. *)

From S2P Require Import Prelude IpFmt Core Queue QueuePolicy Sha256 EventId ParseUtil Decap.
From S2P Require Import Counters Observation Worker Dhcp4 Dhcp6.

(** ** The counters of the source *)

Inductive dhcp_stat :=
| events_formatted_total | events_formatted_dhcpv4_total | events_formatted_dhcpv6_total
| packets_skipped_total | parse_warnings_total | events_oversize_dropped_total
| formatter_queue_depth | formatter_queue_drop_total.

#[export] Instance dhcp_stat_eq_dec : EqDecision dhcp_stat.
Proof. solve_decision. Defined.

Definition cf_source_stats_t : Type := dhcp_stat -> Z.

(** The configuration, but for the queues and the counters, which are shared
    objects. *)
Record formatter_config_t := { fc_provenance : provenance; fc_on_full : cf_queue_full_policy_t }.

Definition CF_FORMAT_SKIP : Z := 1.

(** The counters may be NULL. *)
Definition count (c : dhcp_stat) (st : option cf_source_stats_t) : option cf_source_stats_t :=
  stat_inc c <$> st.

(** ** The event *)

Inductive dhcp_event :=
| DHCPV4_PACKET (e : DhcpV4PacketEvent)
| DHCPV6_PACKET (e : DhcpV6PacketEvent).

(** The parsed event with its [packet], under its envelope. *)
Record CloudFlowEvent := {
  ce_envelope : EventEnvelope; ce_packet : PacketObservation; ce_payload : dhcp_event
}.

Definition n_parser_warnings (e : dhcp_event) : Z :=
  match e with
  | DHCPV4_PACKET e => zlen (ev_parser_warnings e)
  | DHCPV6_PACKET e => zlen (ev6_parser_warnings e)
  end.

Definition clear_raw_payload (e : dhcp_event) : dhcp_event :=
  match e with
  | DHCPV4_PACKET e =>
      DHCPV4_PACKET {| ev_header := ev_header e; ev_raw_options := ev_raw_options e;
        ev_decoded := ev_decoded e; ev_interpretation := ev_interpretation e;
        ev_parser_warnings := ev_parser_warnings e; ev_raw_dhcp_payload := None;
        ev_raw_payload_truncated := true |}
  | DHCPV6_PACKET e =>
      DHCPV6_PACKET {| ev6_header := ev6_header e; ev6_raw_options := ev6_raw_options e;
        ev6_decoded := ev6_decoded e; ev6_parser_warnings := ev6_parser_warnings e;
        ev6_raw_dhcp_payload := None; ev6_raw_payload_truncated := true |}
  end.

Definition clear_event (ev : CloudFlowEvent) : CloudFlowEvent :=
  {| ce_envelope := ce_envelope ev; ce_packet := ce_packet ev;
     ce_payload := clear_raw_payload (ce_payload ev) |}.

Section Format.
Variable inet_ntop : Z -> list Z -> list Z.
Variable pack : CloudFlowEvent -> list Z.
Variable get_packed_size : CloudFlowEvent -> Z.

(** ** Observations *)

Definition build_udp_observation (al : site -> bool) (d : cf_decap_udp_t)
    : option transport_details :=
  if negb (al A_udp) then None
  else Some (DETAILS_UDP (udp_length d) (if udp_checksum_present d =? 0 then 0 else 1)).

Definition build_transport (al : site -> bool) (d : cf_decap_udp_t)
    : option TransportLayerObservation :=
  if negb (al A_transport) then None
  else
    udp ← build_udp_observation al d;
    Some {| to_protocol := TRANSPORT_PROTOCOL_UDP; to_ip_protocol_number := 17;
            to_src_port := u_src_port d; to_dst_port := u_dst_port d; to_details := udp |}.

Definition build_network (al : site -> bool) (d : cf_decap_udp_t) : option NetworkLayerObservation :=
  network_of inet_ntop al (u_l3 d).

Definition build_link (al : site -> bool) (d : cf_decap_udp_t)
    : exec (option LinkLayerObservation) :=
  link_of al (u_l3 d).

Definition build_packet_observation (al : site -> bool) (pkt : cf_packet_item_t)
    (d : cf_decap_udp_t) : exec (option PacketObservation) :=
  if negb (al A_pobs) then Ret None
  else
    link ← build_link al d;
    Ret (observation_of pkt link (build_network al d) (build_transport al d)).

(** ** The envelope *)

Definition is_dhcpv4 (p : cf_protocol_t) : bool := bool_decide (p = CF_PROTO_DHCPV4).

Definition build_envelope (e : emit_env) (cfg : formatter_config_t) (pkt : cf_packet_item_t)
    (protocol : cf_protocol_t) (event_type : list Z) (stream_id : cf_stream_id_t)
    : exec (option EventEnvelope) :=
  frame ← packet_frame pkt;
  envelope_of (en_alloc e) (en_uninit e) (en_now e) (fc_provenance cfg)
    (if is_dhcpv4 protocol then bs "dhcpv4" else bs "dhcpv6")
    (if is_dhcpv4 protocol then bs "cloudflow.v1.DhcpV4PacketEvent"
     else bs "cloudflow.v1.DhcpV6PacketEvent")
    stream_id event_type (pk_observed_time_unix_nano pkt) frame.

(** ** One packet *)

(** The protocol of a datagram, by its ports. *)
Definition classify (d : cf_decap_udp_t) : option (cf_protocol_t * cf_stream_id_t) :=
  if (u_src_port d =? 67) || (u_src_port d =? 68) || (u_dst_port d =? 67) || (u_dst_port d =? 68)
  then Some (CF_PROTO_DHCPV4, CF_STREAM_DHCPV4)
  else if (u_src_port d =? 546) || (u_src_port d =? 547) || (u_dst_port d =? 546)
          || (u_dst_port d =? 547)
  then Some (CF_PROTO_DHCPV6, CF_STREAM_DHCPV6)
  else None.

(** The parsed payload and its event type. *)
Definition parse_payload (protocol : cf_protocol_t) (payload : list Z)
    : exec (option (dhcp_event * list Z)) :=
  if is_dhcpv4 protocol then
    r ← cf_dhcpv4_parse inet_ntop payload;
    Ret match r with Some (e, et) => Some (DHCPV4_PACKET e, et) | None => None end
  else
    r ← cf_dhcpv6_parse inet_ntop payload;
    Ret match r with Some (e, et) => Some (DHCPV6_PACKET e, et) | None => None end.

(** The event of a parsed payload; [None] is a failed allocation. *)
Definition build_event (e : emit_env) (cfg : formatter_config_t) (pkt : cf_packet_item_t)
    (d : cf_decap_udp_t) (protocol : cf_protocol_t) (stream_id : cf_stream_id_t)
    (payload : dhcp_event) (event_type : list Z) : exec (option CloudFlowEvent) :=
  pobs ← build_packet_observation (en_alloc e) pkt d;
  match pobs with
  | None => Ret None
  | Some pobs =>
      envelope ← build_envelope e cfg pkt protocol event_type stream_id;
      Ret match envelope with
          | Some envelope =>
              if negb (en_alloc e A_event) then None
              else Some {| ce_envelope := envelope; ce_packet := pobs; ce_payload := payload |}
          | None => None
          end
  end.

(** The event under the size limit: without its raw payload when it is over. *)
Definition fit_event (ev : CloudFlowEvent) : CloudFlowEvent :=
  if CLOUDFLOW_EVENT_MAX_SIZE <? get_packed_size ev then clear_event ev else ev.

(** The item filled with the packed event. *)
Definition fill_item (pkt : cf_packet_item_t) (protocol : cf_protocol_t) (stream_id : cf_stream_id_t)
    (event_type : list Z) (ev : CloudFlowEvent) (item : cf_event_item_t) : exec cf_event_item_t :=
  payload ← wr_n (it_payload item) 0 (pack ev);
  event_type ← event_type_field (it_event_type item) event_type;
  Ret {| it_observed_time_unix_nano := pk_observed_time_unix_nano pkt; it_stream_id := stream_id;
         it_protocol := protocol; it_event_type := event_type;
         it_payload_len := u32 (zlen (pack ev)); it_payload := payload |}.

(** The counters of a formatted event. *)
Definition count_event (protocol : cf_protocol_t) (n_warnings : Z) (st : option cf_source_stats_t)
    : option cf_source_stats_t :=
  let st := count events_formatted_total st in
  let st := count (if is_dhcpv4 protocol then events_formatted_dhcpv4_total
                   else events_formatted_dhcpv6_total) st in
  stat_add parse_warnings_total n_warnings <$> st.

(** The packet of a frame whose payload was parsed. *)
Definition format_parsed (e : emit_env) (cfg : formatter_config_t) (pkt : cf_packet_item_t)
    (d : cf_decap_udp_t) (protocol : cf_protocol_t) (stream_id : cf_stream_id_t)
    (payload : dhcp_event) (event_type : list Z) (item : cf_event_item_t)
    (st : option cf_source_stats_t) : exec (Z * cf_event_item_t * option cf_source_stats_t) :=
  ev ← build_event e cfg pkt d protocol stream_id payload event_type;
  match ev with
  | None => Ret (-1, item, st)
  | Some ev =>
      let ev := fit_event ev in
      if CLOUDFLOW_EVENT_MAX_SIZE <? get_packed_size ev then
        Ret (CF_FORMAT_SKIP, item, count events_oversize_dropped_total st)
      else
        item ← fill_item pkt protocol stream_id event_type ev item;
        Ret (0, item, count_event protocol (n_parser_warnings payload) st)
  end.

Definition cf_format_packet (e : emit_env) (cfg : option formatter_config_t)
    (st : option cf_source_stats_t) (pkt : option cf_packet_item_t) (item : option cf_event_item_t)
    : exec (Z * option cf_event_item_t * option cf_source_stats_t) :=
  match cfg, pkt, item with
  | Some cfg, Some pkt, Some item =>
      frame ← packet_frame pkt;
      '(rc, decap) ← cf_decap_udp frame;
      if negb (bool_decide (rc = CF_DECAP_OK)) then
        Ret (CF_FORMAT_SKIP, Some item, count packets_skipped_total st)
      else
        match classify decap with
        | None => Ret (CF_FORMAT_SKIP, Some item, count packets_skipped_total st)
        | Some (protocol, stream_id) =>
            payload ← rd_n frame (u_payload decap) (u_payload_len decap);
            parsed ← parse_payload protocol payload;
            match parsed with
            | None => Ret (CF_FORMAT_SKIP, Some item, count packets_skipped_total st)
            | Some (ev, event_type) =>
                '(rc, item, st) ←
                  format_parsed e cfg pkt decap protocol stream_id ev event_type item st;
                Ret (rc, Some item, st)
            end
        end
  | _, _, _ => Ret (-1, item, st)
  end.

(** ** The thread *)

Context {Q : Type} `{GaugedFifo Q}.

(** The formatter's shared objects, with what the consumer popped while a push
    slept, and the number of warnings logged. *)
Record formatter := {
  fm_stats : option cf_source_stats_t; fm_out : Q; fm_popped : list (list Z); fm_logged : Z
}.

Definition formatter_process_one (cfg : formatter_config_t) (e : emit_env) (pkt : cf_packet_item_t)
    (s : formatter) : exec formatter :=
  '(rc, item, st) ← cf_format_packet e (Some cfg) (fm_stats s) (Some pkt) (Some zero_item);
  s ← (if rc =? 0 then
         '(_, q, ctr, popped) ← cf_queue_push_policy (en_stop e) (en_consumer e) (fm_out s)
           (item_bytes <$> item) SIZEOF_EVENT_ITEM (fc_on_full cfg)
           ((fun st => st formatter_queue_drop_total) <$> st);
         let st := match ctr with
                   | Some n => stat_store formatter_queue_drop_total n <$> st | None => st end in
         Ret {| fm_stats := st; fm_out := q; fm_popped := fm_popped s ++ popped;
                fm_logged := fm_logged s |}
       else
         Ret {| fm_stats := st; fm_out := fm_out s; fm_popped := fm_popped s;
                fm_logged := fm_logged s + (if rc <? 0 then 1 else 0) |});
  Ret {| fm_stats := stat_store formatter_queue_depth (fifo_length (fm_out s)) <$> fm_stats s;
         fm_out := fm_out s; fm_popped := fm_popped s; fm_logged := fm_logged s |}.

(** The body of the loop and of [formatter_drain]; an empty queue only waits. *)
Definition formatter_worker (cfg : formatter_config_t) : worker emit_env unit formatter :=
  {| wk_process := formatter_process_one cfg; wk_idle := fun _ s => Ret s |}.

Definition formatter_thread_main {R : Type} `{BoundedFifo R} (cfg : formatter_config_t)
    (turns : list (turn emit_env unit)) (envs : nat -> emit_env) (iq : R) (s : formatter)
    : exec (R * formatter * Z) :=
  worker_main (formatter_worker cfg) turns envs iq s.

(** The static [g_formatter]. *)
Record cf_formatter_state_t := { g_cfg : option formatter_config_t; g_started : bool }.

(** [has_in]: the input queue is not NULL; [create_ok]: [pthread_create]
    succeeds. *)
Definition formatter_start (cfg : option formatter_config_t) (has_in : bool) (out : option Q)
    (st : option cf_source_stats_t) (create_ok : bool) (g : cf_formatter_state_t)
    : Z * cf_formatter_state_t :=
  match cfg, has_in, out, st with
  | Some cfg, true, Some _, Some _ =>
      if g_started g then (-1, g)
      else
        let g := {| g_cfg := Some cfg; g_started := false |} in
        if negb create_ok then (-1, g) else (0, {| g_cfg := Some cfg; g_started := true |})
  | _, _, _, _ => (-1, g)
  end.

(** The joined thread's input queue, formatter and count, when there was one. *)
Definition formatter_stop {R : Type} `{BoundedFifo R} (turns : list (turn emit_env unit))
    (envs : nat -> emit_env) (iq : R) (s : formatter) (sync : cf_sync_state)
    (g : cf_formatter_state_t)
    : exec (option (R * formatter * Z) * cf_sync_state * cf_formatter_state_t) :=
  match g_started g, g_cfg g with
  | true, Some cfg =>
      let sync := cf_stop_notify 0 sync in
      r ← formatter_thread_main cfg turns envs iq s;
      Ret (Some r, sync, {| g_cfg := Some cfg; g_started := false |})
  | _, _ => Ret (None, sync, g)
  end.
End Format.
