(* ===== verification/DhcpFormatSpec.v ===== *)
(** * DhcpFormatSpec: what the DHCP formatter promises

    Every captured frame runs without a memory error and ends in exactly one of
    four ways; a formatted event holds the frame's addresses, ports and parsed
    payload, its item the packed event; the counters conserve the frames and
    the items; stopping loses nothing; and a datagram built by an encoder
    becomes the event of the encoded message. *)

From S2P Require Import Prelude IpFmt Core Queue QueuePolicy Sha256 EventId ParseUtil Decap.
From S2P Require Import Dhcp4Spec Dhcp4 Dhcp6 Dhcp6Spec.
From S2P Require Import Counters Observation Worker DhcpFormat DhcpStats.

(** ** The event of a frame *)

(** The observation of [pkt], whose headers are [d]. *)
Definition observation_view (inet_ntop : Z -> list Z -> list Z) (pkt : cf_packet_item_t)
    (d : cf_decap_udp_t) : PacketObservation :=
  {| po_observed_time_unix_nano := pk_observed_time_unix_nano pkt; po_link := link_view (u_l3 d);
     po_network := network_view inet_ntop (u_l3 d);
     po_transport :=
       {| to_protocol := TRANSPORT_PROTOCOL_UDP; to_ip_protocol_number := 17;
          to_src_port := u_src_port d; to_dst_port := u_dst_port d;
          to_details := DETAILS_UDP (udp_length d) (if udp_checksum_present d =? 0 then 0 else 1) |};
     po_packet_len := pk_packet_len pkt; po_captured_len := pk_captured_len pkt;
     po_truncated := truncated_flag pkt |}.

Definition source_type_of (p : cf_protocol_t) : list Z :=
  if is_dhcpv4 p then bs "dhcpv4" else bs "dhcpv6".
Definition schema_of (p : cf_protocol_t) : list Z :=
  if is_dhcpv4 p then bs "cloudflow.v1.DhcpV4PacketEvent" else bs "cloudflow.v1.DhcpV6PacketEvent".

(** The shortest payload that is parsed. *)
Definition header_length (p : cf_protocol_t) : Z := if is_dhcpv4 p then 236 else 4.

(** The event of a payload parsed at [now]. *)
Definition event_of (inet_ntop : Z -> list Z -> list Z) (cfg : formatter_config_t) (now : Z)
    (pkt : cf_packet_item_t) (d : cf_decap_udp_t) (p : cf_protocol_t) (sid : cf_stream_id_t)
    (payload : dhcp_event) (et : list Z) : CloudFlowEvent :=
  {| ce_envelope := envelope_view (fc_provenance cfg) now (source_type_of p) (schema_of p) sid et
       (pk_observed_time_unix_nano pkt) (frame_of pkt);
     ce_packet := observation_view inet_ntop pkt d; ce_payload := payload |}.

(** [frame] is a datagram on a DHCP port, long enough to be parsed. *)
Definition datagram (frame : list Z) (d : cf_decap_udp_t) (p : cf_protocol_t)
    (sid : cf_stream_id_t) (payload : list Z) : Prop :=
  cf_decap_udp frame = Ret (CF_DECAP_OK, d) /\ classify d = Some (p, sid) /\
  payload = slice frame (u_payload d) (u_payload_len d) /\ header_length p <= zlen payload.

(** An event type that fits its field. *)
Definition type_fits (et : list Z) : Prop :=
  Forall (fun b => b <> 0) et /\ zlen et < CLOUDFLOW_EVENT_TYPE_MAX.

Lemma type4_fits mt : type_fits (event_type_for_message_type mt).
Proof. destruct mt; (split; [by repeat constructor|done]). Qed.

Lemma type6_fits mt : type_fits (event_type_for_message_type6 mt).
Proof. destruct mt; (split; [by repeat constructor|done]). Qed.

Definition item_ok (item : cf_event_item_t) : Prop :=
  length (it_event_type item) = 64%nat /\ zlen (it_payload item) = CLOUDFLOW_EVENT_MAX_SIZE.

Lemma zero_item_ok : item_ok zero_item.
Proof. split; cbn [zero_item it_event_type it_payload]; by rewrite length_replicate. Qed.

Section Spec.
Variable inet_ntop : Z -> list Z -> list Z.
Variable pack : CloudFlowEvent -> list Z.
Variable get_packed_size : CloudFlowEvent -> Z.
(** The encoder writes as many bytes as announced. *)
Hypothesis pack_size : forall ev, zlen (pack ev) = get_packed_size ev.

Lemma observation_built al pkt d : l3_ok (u_l3 d) ->
  runs (build_packet_observation inet_ntop al pkt d)
    (built al (fun po => po = observation_view inet_ntop pkt d)).
Proof.
  intros Hl. unfold build_packet_observation, build_link. alloc A_pobs. apply runs_bind.
  eapply runs_mono; [by apply link_built|]. intros [l|] Hlk; cbn [built] in Hlk; [subst l|done].
  apply runs_ret. pose proof (network_built inet_ntop al (u_l3 d) Hl) as Hn.
  unfold build_network, build_transport, build_udp_observation.
  destruct (network_of _ _ _) as [n|]; cbn [built] in Hn; [subst n|done].
  alloc A_transport. alloc A_udp. unfold observation_of. by rewrite truncated_of.
Qed.

Lemma event_built e cfg pkt d p sid payload et : packet_ok pkt -> l3_ok (u_l3 d) ->
  uninit_ok (en_uninit e) -> provenance_ok (fc_provenance cfg) ->
  runs (build_event inet_ntop e cfg pkt d p sid payload et) (built (en_alloc e)
    (fun ev => ev = event_of inet_ntop cfg (en_now e) pkt d p sid payload et)).
Proof.
  intros Hp Hl Hu Hc. destruct (packet_frame_of pkt Hp) as (Hf & Hb & _). unfold build_event.
  apply runs_bind. eapply runs_mono; [by apply observation_built|].
  intros [po|] Hpo; cbn [built] in Hpo; [subst po|done]. apply runs_bind. unfold build_envelope.
  rewrite Hf. xbind. eapply runs_mono; [by apply envelope_built|].
  intros [env|] Henv; cbn [built] in Henv; [subst env|done]. apply runs_ret. alloc A_event. done.
Qed.

(** A payload long enough is parsed, a shorter one refused. *)
Lemma payload_parsed p payload : bytes_ok payload ->
  if header_length p <=? zlen payload then
    exists pe et, parse_payload inet_ntop p payload = Ret (Some (pe, et)) /\ type_fits et
  else parse_payload inet_ntop p payload = Ret None.
Proof.
  intros Hok. unfold header_length, parse_payload. destruct (is_dhcpv4 p).
  - destruct (236 <=? zlen payload) eqn:E.
    + destruct (parse_view inet_ntop payload Hok) as (oo & fo & so & r & ev & _ & -> & _); [lia|].
      xbind. eexists _, _. split; [reflexivity|apply type4_fits].
    + unfold cf_dhcpv4_parse, BOOTP_FIXED_LEN. by replace (zlen payload <? 236) with true by lia.
  - destruct (4 <=? zlen payload) eqn:E.
    + destruct (parse6_view inet_ntop payload Hok) as (ev & -> & _); [lia|].
      xbind. eexists _, _. split; [reflexivity|apply type6_fits].
    + unfold cf_dhcpv6_parse, DHCPV6_MIN_HEADER_LEN. by replace (zlen payload <? 4) with true by lia.
Qed.

Lemma fill_runs pkt p sid et ev item : item_ok item -> type_fits et ->
  get_packed_size ev <= CLOUDFLOW_EVENT_MAX_SIZE ->
  runs (fill_item pack pkt p sid et ev item) (fun item' => item_ok item' /\ it_protocol item' = p /\
    item_holds (pack ev) sid (pk_observed_time_unix_nano pkt) et item').
Proof.
  intros [He Hp] [Hnz Hlt] Hs. rewrite <-pack_size in Hs. unfold fill_item, item_ok.
  unfold CLOUDFLOW_EVENT_MAX_SIZE in *. rewrite wr_n_ok by lia. xbind.
  destruct (event_type_fits (it_event_type item) et) as (f & -> & Hc & Hl); [done..|]. xbind.
  cbn [runs it_event_type it_payload it_protocol]. rewrite length_splice by lia.
  split; [done|]. split; [done|]. rewrite u32_id by lia.
  split; cbn [it_payload it_payload_len it_observed_time_unix_nano it_stream_id it_event_type]; try done.
  apply slice_splice_same; lia.
Qed.
(** ** The outcome of a frame *)

(** What becomes of [pkt]: the result, the item and the counters after. *)
Inductive outcome (e : emit_env) (cfg : formatter_config_t) (pkt : cf_packet_item_t)
    (item : cf_event_item_t) (st : option cf_source_stats_t)
    : Z -> cf_event_item_t -> option cf_source_stats_t -> Prop :=
| out_skipped :
    (forall d p sid pl, ~ datagram (frame_of pkt) d p sid pl) ->
    outcome e cfg pkt item st CF_FORMAT_SKIP item (count packets_skipped_total st)
| out_failed d p sid pl a :
    datagram (frame_of pkt) d p sid pl -> en_alloc e a = false ->
    outcome e cfg pkt item st (-1) item st
| out_oversize d p sid pl pe et :
    datagram (frame_of pkt) d p sid pl -> parse_payload inet_ntop p pl = Ret (Some (pe, et)) ->
    let ev := event_of inet_ntop cfg (en_now e) pkt d p sid pe et in
    CLOUDFLOW_EVENT_MAX_SIZE < get_packed_size ev ->
    CLOUDFLOW_EVENT_MAX_SIZE < get_packed_size (clear_event ev) ->
    outcome e cfg pkt item st CF_FORMAT_SKIP item (count events_oversize_dropped_total st)
| out_formatted d p sid pl pe et ev item' :
    datagram (frame_of pkt) d p sid pl -> parse_payload inet_ntop p pl = Ret (Some (pe, et)) ->
    let full := event_of inet_ntop cfg (en_now e) pkt d p sid pe et in
    (ev = full \/ CLOUDFLOW_EVENT_MAX_SIZE < get_packed_size full /\ ev = clear_event full) ->
    get_packed_size ev <= CLOUDFLOW_EVENT_MAX_SIZE ->
    item_ok item' -> it_protocol item' = p ->
    item_holds (pack ev) sid (pk_observed_time_unix_nano pkt) et item' ->
    outcome e cfg pkt item st 0 item' (count_event p (n_parser_warnings pe) st).

Definition env_fine (e : emit_env) : Prop := uninit_ok (en_uninit e).

Lemma parsed_runs e cfg pkt item st d p sid pl pe et :
  packet_ok pkt -> l3_ok (u_l3 d) -> env_fine e -> provenance_ok (fc_provenance cfg) ->
  item_ok item -> datagram (frame_of pkt) d p sid pl ->
  parse_payload inet_ntop p pl = Ret (Some (pe, et)) -> type_fits et ->
  runs (format_parsed inet_ntop pack get_packed_size e cfg pkt d p sid pe et item st)
    (fun '(rc, item', st') => outcome e cfg pkt item st rc item' st').
Proof.
  intros Hp Hl Hu Hc Hi Hd Hpe Het. unfold format_parsed. apply runs_bind.
  eapply runs_mono; [by apply event_built|]. intros [ev|] Hev; cbn [built] in Hev.
  2: { destruct Hev as [a Ha]. by eapply out_failed. }
  set (full := event_of _ _ _ _ _ _ _ _ _) in Hev. subst ev. unfold fit_event.
  destruct (CLOUDFLOW_EVENT_MAX_SIZE <? get_packed_size full) eqn:E1.
  - destruct (CLOUDFLOW_EVENT_MAX_SIZE <? get_packed_size (clear_event full)) eqn:E2.
    + eapply out_oversize; try done; fold full; lia.
    + apply runs_bind. eapply runs_mono; [apply fill_runs; [done|done|lia]|].
      intros item' (Hi' & Hp' & Hh). eapply out_formatted; try done; [right; split; [|done]|]; fold full; lia.
  - rewrite E1. apply runs_bind. eapply runs_mono; [apply fill_runs; [done|done|lia]|].
    intros item' (Hi' & Hp' & Hh). eapply out_formatted; try done; [by left|]. fold full. lia.
Qed.

Lemma format_runs e cfg pkt item st :
  packet_ok pkt -> env_fine e -> provenance_ok (fc_provenance cfg) -> item_ok item ->
  runs (cf_format_packet inet_ntop pack get_packed_size e (Some cfg) st (Some pkt) (Some item))
    (fun '(rc, item', st') => exists i, item' = Some i /\ outcome e cfg pkt item st rc i st').
Proof.
  intros Hp Hu Hc Hi. destruct (packet_frame_of pkt Hp) as (Hf & Hb & _). unfold cf_format_packet.
  rewrite Hf. xbind. destruct (runs_inv _ _ (decap_udp_ok (frame_of pkt) Hb)) as ([rc d] & Hd & Hl3 & _ & Hok).
  rewrite Hd. xbind.
  assert ((forall d' p sid pl, ~ datagram (frame_of pkt) d' p sid pl) ->
    exists i, Some item = Some i /\ outcome e cfg pkt item st CF_FORMAT_SKIP i (count packets_skipped_total st))
    as Hskip by (intros Hn; exists item; split; [done|by apply out_skipped]).
  destruct (decide (rc = CF_DECAP_OK)) as [->|Hrc].
  2: { rewrite bool_decide_false by done. apply Hskip. intros d' p sid pl (Hd' & _). congruence. }
  rewrite bool_decide_true by done. cbn [negb]. destruct (Hok eq_refl) as (Hv & _). unfold view_ok in Hv.
  destruct (classify d) as [[p sid]|] eqn:Ec.
  2: { apply Hskip. intros d' p sid pl (Hd' & Hc' & _). rewrite Hd in Hd'. injection Hd' as <-. congruence. }
  rewrite rd_n_ok by lia. xbind. set (pl := slice _ _ _).
  pose proof (payload_parsed p pl (slice_bytes_ok _ _ _ Hb)) as Hpl.
  destruct (header_length p <=? zlen pl) eqn:El.
  - destruct Hpl as (pe & et & Hpe & Het). rewrite Hpe. xbind. apply runs_bind.
    eapply runs_mono; [apply (parsed_runs e cfg pkt item st d p sid pl); try done|].
    { split_and!; try done. lia. }
    intros [[r i] st'] Ho. cbn [runs]. by exists i.
  - rewrite Hpl. xbind. apply Hskip. intros d' p' sid' pl' (Hd' & Hc' & -> & Hlen).
    rewrite Hd in Hd'. injection Hd' as <-. rewrite Ec in Hc'. injection Hc' as <- <-. fold pl in Hlen. lia.
Qed.

(** ** The effect on the counters and the queue *)

Context {Q : Type} `{GaugedFifo Q}.
Implicit Types s : (@formatter Q).

Definition frame_stats : list dhcp_stat :=
  [events_formatted_total; packets_skipped_total; events_oversize_dropped_total].
Definition protocol_stats : list dhcp_stat :=
  [events_formatted_dhcpv4_total; events_formatted_dhcpv6_total].

Definition stats_of s : cf_source_stats_t := default (fun _ => 0) (fm_stats s).

(** Every item that left the formatter and was not dropped, oldest first. *)
Definition sent s : list (list Z) := fm_popped s ++ fifo_items (fm_out s).

Definition fm_ok s : Prop := is_Some (fm_stats s) /\ out_ok (fm_out s).

(** From [s] to [s'], [f] frames were processed, of which [n] had an allocation
    fail, and the items [ms] were formatted. *)
Record effect (f n : Z) (ms : list (list Z)) s s' : Prop := {
  ef_ok : fm_ok s';
  ef_logged : fm_logged s' = fm_logged s + n;
  ef_frames : total frame_stats (stats_of s') = u64 (total frame_stats (stats_of s) + (f - n));
  ef_formatted : total [events_formatted_total] (stats_of s') =
    u64 (total [events_formatted_total] (stats_of s) + zlen ms);
  ef_protocols : total protocol_stats (stats_of s') =
    u64 (total protocol_stats (stats_of s) + zlen ms);
  ef_lost : u64 (stats_of s' formatter_queue_drop_total + zlen (sent s')) =
    u64 (stats_of s formatter_queue_drop_total + (zlen (sent s) + zlen ms));
  ef_order : sent s' `sublist_of` sent s ++ ms
}.

Lemma no_effect s : fm_ok s -> effect 0 0 [] s s.
Proof.
  intros Hs. split; rewrite ?app_nil_r, ?Z.add_0_r, ?total_u64; cbn [length Z.of_nat]; try done;
    rewrite ?Z.add_0_r, ?total_u64; done.
Qed.

Lemma effects_compose f n ms f' n' ms' s1 s2 s3 : effect f n ms s1 s2 -> effect f' n' ms' s2 s3 ->
  effect (f + f') (n + n') (ms ++ ms') s1 s3.
Proof.
  intros [O1 L1 F1 E1 P1 Q1 S1] [O2 L2 F2 E2 P2 Q2 S2].
  split; rewrite ?length_app, ?Nat2Z.inj_add; [done|lia|..].
  - rewrite F2, F1, u64_add. f_equal. lia.
  - rewrite E2, E1, u64_add. f_equal. lia.
  - rewrite P2, P1, u64_add. f_equal. lia.
  - rewrite Q2, Z.add_assoc, <-u64_add, Q1, u64_add. f_equal. lia.
  - etrans; [exact S2|]. rewrite app_assoc. by apply sublist_app.
Qed.

(** The increases of an outcome's counters: a frame counts once, unless an
    allocation failed, and a formatted one under its protocol too. *)
Lemma outcome_counts e cfg pkt item st rc item' st' :
  outcome e cfg pkt item (Some st) rc item' st' ->
  exists bs, st' = Some (bump bs st) /\
    bumps bs frame_stats = (if rc <? 0 then 0 else 1) /\
    bumps bs protocol_stats = (if rc =? 0 then 1 else 0) /\
    bumps bs [events_formatted_total] = (if rc =? 0 then 1 else 0) /\
    bumps bs [formatter_queue_drop_total] = 0 /\
    (rc < 0 -> exists a, en_alloc e a = false) /\ (rc = 0 -> item_ok item').
Proof.
  intros Ho. inversion Ho; subst.
  - exists [(packets_skipped_total, 1)]. by split_and!.
  - exists []. split_and!; try done. intros _. by exists a.
  - exists [(events_oversize_dropped_total, 1)]. by split_and!.
  - exists [(events_formatted_total, 1);
      (if is_dhcpv4 (it_protocol item') then events_formatted_dhcpv4_total
       else events_formatted_dhcpv6_total, 1); (parse_warnings_total, n_parser_warnings pe)].
    unfold count_event. destruct (is_dhcpv4 _); count_hits; (split_and!; first [done|lia|intros; lia]).
Qed.

(** A formatted item is pushed or counted as dropped. *)
Lemma push_effect cfg e st bs item s : fm_stats s = Some st -> fm_ok s -> item_ok item ->
  bumps bs frame_stats = 1 -> bumps bs protocol_stats = 1 -> bumps bs [events_formatted_total] = 1 ->
  bumps bs [formatter_queue_drop_total] = 0 ->
  runs (s ← ('(_, q, ctr, popped) ← cf_queue_push_policy (en_stop e) (en_consumer e) (fm_out s)
               (Some (item_bytes item)) SIZEOF_EVENT_ITEM (fc_on_full cfg)
               (Some (bump bs st formatter_queue_drop_total));
             let st := match ctr with
                       | Some n => Some (stat_store formatter_queue_drop_total n (bump bs st))
                       | None => Some (bump bs st) end in
             Ret {| fm_stats := st; fm_out := q; fm_popped := fm_popped s ++ popped;
                    fm_logged := fm_logged s |});
        Ret {| fm_stats := stat_store formatter_queue_depth (fifo_length (fm_out s)) <$> fm_stats s;
               fm_out := fm_out s; fm_popped := fm_popped s; fm_logged := fm_logged s |})
    (effect 1 0 [item_bytes item] s).
Proof.
  intros Hst [_ [Hwf Hes]] [He Hp] Hf Hpr Hfm Hd. rewrite <-Hes. do 2 apply runs_bind.
  eapply runs_mono; [apply push_policy_spec; [done|..]|].
  { rewrite Hes. by apply item_length. }
  { unfold size_ok. rewrite Hes. done. }
  intros [[[rc q'] ctr] xs] (Hwf' & Hb' & Hes' & Hout).
  destruct (push_flow _ _ _ _ _ _ _ _ Hwf Hout) as (d' & -> & Hfl). cbn [runs].
  split; unfold stats_of, sent, fm_ok; cbn [fm_stats fm_out fm_popped fm_logged from_option id fmap option_fmap option_map].
  + split; [by eexists|split; [done|congruence]].
  + lia.
  + rewrite !total_store, total_bump, Hst, Hf by notin. reflexivity.
  + rewrite !total_store, total_bump, Hst, Hfm by notin. reflexivity.
  + rewrite !total_store, total_bump, Hst, Hpr by notin. reflexivity.
  + rewrite stat_store_ne, stat_store_eq, Hst by done.
    assert (u64 (bump bs st formatter_queue_drop_total) = u64 (st formatter_queue_drop_total)) as Hbd
      by (rewrite <-!total_one, total_bump, Hd, Z.add_0_r; apply total_u64).
    rewrite !length_app. cbn [from_option id length]. revert Hfl Hbd.
    generalize (bump bs st formatter_queue_drop_total). intros b Hfl Hbd.
    rewrite !Nat2Z.inj_add, u64_add.
    replace (d' + _) with (d' + (zlen (fifo_items q') + zlen xs) + zlen (fm_popped s)) by lia.
    rewrite (u64_congr _ _ _ Hfl).
    replace (b + _ + _) with (b + (zlen (fm_popped s) + zlen (fifo_items (fm_out s)) + 1)) by lia.
    by apply u64_congr.
  + rewrite <-!app_assoc. apply sublist_app; [reflexivity|]. by eapply push_order.
Qed.

Lemma process_effect cfg e pkt s : packet_ok pkt -> env_fine e -> provenance_ok (fc_provenance cfg) ->
  fm_ok s ->
  runs (formatter_process_one inet_ntop pack get_packed_size cfg e pkt s) (fun s' =>
    exists n ms, effect 1 n ms s s' /\ 0 <= n /\ (0 < n -> exists a, en_alloc e a = false) /\
      (ms = [] \/ exists item st', ms = [item_bytes item] /\
         outcome e cfg pkt zero_item (fm_stats s) 0 item st')).
Proof.
  intros Hp He Hc Hok. pose proof Hok as [[st Hst] Ho']. unfold formatter_process_one. apply runs_bind.
  eapply runs_mono; [by apply format_runs; [..|apply zero_item_ok]|].
  intros [[rc oi] st'] (item & -> & Ho). rewrite Hst in Ho.
  destruct (outcome_counts _ _ _ _ _ _ _ _ Ho) as (bs & -> & Hf & Hpr & Hfm & Hd & Hal & Hi).
  destruct (rc =? 0) eqn:Erc.
  - assert (rc = 0) as -> by lia. cbn [fmap option_fmap option_map].
    eapply runs_mono; [by apply (push_effect cfg e st bs item s Hst Hok (Hi eq_refl))|].
    intros s' Hs'. exists 0, [item_bytes item]. split; [done|].
    split_and!; [lia|lia|right; eexists _, _; split; [done|]; rewrite Hst; exact Ho].
  - cbn [mbind exec_bind runs]. exists (if rc <? 0 then 1 else 0), [].
    split; [|split_and!; [by destruct (rc <? 0)|intros ?; apply Hal; destruct (rc <? 0) eqn:?; lia|by left]].
    split; unfold stats_of, sent, fm_ok; cbn [fm_stats fm_out fm_popped fm_logged from_option id fmap option_fmap option_map].
    + split; [by eexists|done].
    + done.
    + rewrite total_store, total_bump, Hst, Hf by notin. f_equal. cbn [from_option id]. destruct (rc <? 0); lia.
    + rewrite total_store, total_bump, Hst, Hfm by notin. reflexivity.
    + rewrite total_store, total_bump, Hst, Hpr by notin. reflexivity.
    + rewrite stat_store_ne, Hst by done. cbn [from_option id length]. rewrite Z.add_0_r.
      apply u64_congr. rewrite <-!total_one, total_bump, Hd, Z.add_0_r. apply total_u64.
    + rewrite app_nil_r. reflexivity.
Qed.

(** ** Histories *)

(** The formatter, and what the resetting reports have logged. *)
Record world := { w_formatter : (@formatter Q); w_reported : dhcp_stat -> Z }.

Inductive event :=
| EvFrame (e : emit_env) (pkt : cf_packet_item_t)
| EvTake (n : nat)
| EvReport (rx : cf_rx_stats_t) (redis : cf_redis_stats_t) (q_rx q_redis : option Q) (reset : bool).

Definition set_out (q : Q) (xs : list (list Z)) s : (@formatter Q) :=
  {| fm_stats := fm_stats s; fm_out := q; fm_popped := fm_popped s ++ xs; fm_logged := fm_logged s |}.

Definition set_stats (st : cf_source_stats_t) s : (@formatter Q) :=
  {| fm_stats := Some st; fm_out := fm_out s; fm_popped := fm_popped s; fm_logged := fm_logged s |}.

Definition world_step (cfg : formatter_config_t) (ev : event) (w : world) : exec world :=
  let s := w_formatter w in
  match ev with
  | EvFrame e pkt =>
      s ← formatter_process_one inet_ntop pack get_packed_size cfg e pkt s;
      Ret {| w_formatter := s; w_reported := w_reported w |}
  | EvTake n =>
      '(q, xs) ← consume n (fm_out s);
      Ret {| w_formatter := set_out q xs s; w_reported := w_reported w |}
  | EvReport rx redis q_rx q_redis reset =>
      let '(_, _, st) := cf_stats_report rx (stats_of s) redis q_rx q_redis reset in
      let seen := (read_counters formatter_counters reset (stats_of s) (fun _ => 0)).1 in
      Ret {| w_formatter := set_stats st s;
             w_reported := if reset then fun c => w_reported w c + seen c else w_reported w |}
  end.

Fixpoint world_run (cfg : formatter_config_t) (es : list event) (w : world) : exec world :=
  match es with
  | [] => Ret w
  | e :: es => w ← world_step cfg e w; world_run cfg es w
  end.

Definition event_ok (ev : event) : Prop :=
  match ev with EvFrame e pkt => packet_ok pkt /\ env_fine e | _ => True end.

Definition calm (ev : event) : Prop :=
  match ev with EvFrame e _ => forall a, en_alloc e a = true | _ => True end.

Definition is_frame (ev : event) : bool := match ev with EvFrame _ _ => true | _ => false end.
Definition frames (es : list event) : Z := zlen (filter (fun e => is_frame e = true) es).

(** [ms] are items formatted from frames of the history, in its order. *)
Inductive made (cfg : formatter_config_t) : list event -> list (list Z) -> Prop :=
| made_nil : made cfg [] []
| made_none ev es ms : made cfg es ms -> made cfg (ev :: es) ms
| made_item e pkt item st st' es ms :
    outcome e cfg pkt zero_item st 0 item st' -> made cfg es ms ->
    made cfg (EvFrame e pkt :: es) (item_bytes item :: ms).

(** The formatter with what was already reported. *)
Definition shift (r : dhcp_stat -> Z) s : (@formatter Q) := set_stats (fun c => stats_of s c + r c) s.
Definition whole (w : world) : (@formatter Q) := shift (w_reported w) (w_formatter w).

Lemma effect_reported r f n ms s s' : effect f n ms s s' -> effect f n ms (shift r s) (shift r s').
Proof.
  intros [O L F E P D S].
  split; unfold shift, sent, stats_of in *; cbn [set_stats fm_stats fm_out fm_popped fm_logged from_option id] in *.
  - split; [by eexists|apply O].
  - done.
  - rewrite !total_shift, F, !u64_add. f_equal. lia.
  - rewrite !total_shift, E, !u64_add. f_equal. lia.
  - rewrite !total_shift, P, !u64_add. f_equal. lia.
  - rewrite <-!Z.add_assoc, !(Z.add_comm (r _)), !Z.add_assoc. by apply u64_congr; rewrite <-!Z.add_assoc in *.
  - done.
Qed.

Lemma effect_unchanged s s' : fm_ok s' -> (forall c, stats_of s' c = stats_of s c) -> sent s' = sent s ->
  fm_logged s' = fm_logged s -> effect 0 0 [] s s'.
Proof.
  intros Ho Hst Hs Hl.
  assert (forall l, total l (stats_of s') = total l (stats_of s)) as Ht.
  { intros l. unfold total. f_equal. induction l as [|c l IH]; simpl; [done|]. by rewrite IH, Hst. }
  split; rewrite ?Ht, ?Hst, ?Hs, ?app_nil_r, ?Z.add_0_r, ?total_u64; cbn [length Z.of_nat];
    rewrite ?Z.add_0_r, ?total_u64; done || lia.
Qed.

Lemma event_effect cfg ev w : fm_ok (w_formatter w) -> provenance_ok (fc_provenance cfg) -> event_ok ev ->
  runs (world_step cfg ev w) (fun w' => fm_ok (w_formatter w') /\
    exists n ms, effect (frames [ev]) n ms (whole w) (whole w') /\ 0 <= n /\ (calm ev -> n = 0) /\
      forall es ms', made cfg es ms' -> made cfg (ev :: es) (ms ++ ms')).
Proof.
  intros Hok Hc He. destruct ev as [e pkt|n|rx redis q_rx q_redis reset]; cbn [world_step].
  - destruct He as [Hp Hu]. apply runs_bind. eapply runs_mono; [by apply process_effect|].
    intros s' (n & ms & Heff & Hn & Hal & Hms). cbn [runs w_formatter]. split; [apply Heff|].
    exists n, ms. split; [by apply effect_reported|]. split; [done|]. split.
    + intros Hcalm. cbn [calm] in Hcalm. destruct (decide (n = 0)) as [|Hne]; [done|].
      destruct Hal as [a Ha]; [lia|]. by rewrite Hcalm in Ha.
    + intros es ms' Hm. destruct Hms as [->|(item & st' & -> & Ho)]; [by apply made_none|].
      by eapply made_item.
  - destruct Hok as [Hst [Hwf Hes]]. apply runs_bind. eapply runs_mono; [by apply consume_spec|].
    intros [q xs] (Hwf' & Hb & Hes' & Hxs & Hi). cbn [runs w_formatter].
    assert (fm_ok (set_out q xs (w_formatter w))) as Hok' by (split; [done|split; [done|by rewrite <-Hes]]).
    split; [done|]. exists 0, []. split_and!; [|done|done|intros es ms'; apply made_none].
    apply effect_unchanged; [split; [by eexists|apply Hok']|done| |done].
    unfold sent, whole, shift. cbn [set_stats set_out fm_out fm_popped w_formatter w_reported].
    by rewrite Hi, Hxs, <-app_assoc, take_drop.
  - unfold cf_stats_report. assert (NoDup formatter_counters) as Hnd by notin.
    destruct (read_counters rx_counters reset rx (fun _ => 0)) as [rv rx'].
    pose proof (read_counters_spec formatter_counters reset (stats_of (w_formatter w)) (fun _ => 0) Hnd) as [H1 H2].
    destruct (read_counters formatter_counters reset (stats_of (w_formatter w)) (fun _ => 0)) as [v st'].
    cbn [fst snd runs w_formatter] in *. split; [split; [by eexists|apply Hok]|].
    exists 0, []. split_and!; [|done|done|intros es ms'; apply made_none].
    apply effect_unchanged; [split; [by eexists|apply Hok]| |done|done].
    intros c. unfold whole, shift, stats_of at 1 3.
    cbn [w_formatter w_reported set_stats fm_stats from_option id]. unfold stats_of at 1.
    cbn [set_stats fm_stats from_option id]. rewrite H2.
    destruct reset; cbn [andb]; [rewrite H1; destruct (bool_decide _); lia|lia].
Qed.

Lemma history_effect cfg es : forall w, fm_ok (w_formatter w) -> provenance_ok (fc_provenance cfg) ->
  Forall event_ok es ->
  runs (world_run cfg es w) (fun w' => fm_ok (w_formatter w') /\
    exists n ms, effect (frames es) n ms (whole w) (whole w') /\ 0 <= n /\ (Forall calm es -> n = 0) /\
      made cfg es ms).
Proof.
  induction es as [|ev es IH]; intros w Hok Hc Hes; cbn [world_run].
  { split; [done|]. exists 0, []. split_and!; [|done|done|constructor].
    apply no_effect. split; [by eexists|apply Hok]. }
  apply Forall_cons_iff in Hes as [He Hes]. apply runs_bind. eapply runs_mono; [by apply event_effect|].
  intros w1 (Hok1 & n1 & ms1 & E1 & N1 & C1 & M1). eapply runs_mono; [by apply IH|].
  intros w2 (Hok2 & n2 & ms2 & E2 & N2 & C2 & M2). split; [done|]. exists (n1 + n2), (ms1 ++ ms2).
  split; [|split_and!; [lia| |by apply M1]].
  - replace (frames (ev :: es)) with (frames [ev] + frames es)
      by (unfold frames; rewrite (list.filter_app _ [ev] es), length_app; lia).
    by eapply effects_compose.
  - intros Hcs. apply Forall_cons_iff in Hcs as [Hc1 Hc2]. by rewrite C1, C2.
Qed.

(** ** From the start *)

Definition start_world (out : Q) : world :=
  {| w_formatter := {| fm_stats := Some (fun _ => 0); fm_out := out; fm_popped := []; fm_logged := 0 |};
     w_reported := fun _ => 0 |}.

End Spec.
