(* ===== verification/DhcpFormatProperties.v ===== *)
(** * DhcpFormatProperties: the DHCP source, end to end

    The outcome of every packet, the lossless shutdown of the formatter's
    thread, and the composition of the encoders: a UDP frame that carries an
    encoded DHCP message becomes the event of that message. *)

From S2P Require Import Prelude IpFmt Core Queue QueuePolicy Sha256 EventId ParseUtil Decap.
From S2P Require Import Dhcp4Decode Dhcp4DecodeSpec Dhcp4 Dhcp4Spec Dhcp4Properties Dhcp6 Dhcp6Spec Dhcp6Properties.
From S2P Require Import Counters Observation Worker DhcpFormat DhcpStats DhcpFormatSpec.

Section Properties.
Variable inet_ntop : Z -> list Z -> list Z.
Variable pack : CloudFlowEvent -> list Z.
Variable get_packed_size : CloudFlowEvent -> Z.
Hypothesis pack_size : forall ev, zlen (pack ev) = get_packed_size ev.

(** ** One packet *)

Lemma datagram_det frame d p sid pl d' p' sid' pl' :
  datagram frame d p sid pl -> datagram frame d' p' sid' pl' ->
  d = d' /\ p = p' /\ sid = sid' /\ pl = pl'.
Proof.
  intros (D & C & -> & _) (D' & C' & -> & _). rewrite D in D'. injection D' as <-.
  rewrite C in C'. by injection C' as <- <-.
Qed.

(** A datagram whose event fits is formatted. *)
Lemma datagram_formatted e cfg pkt item st d p sid pl pe et :
  packet_ok pkt -> env_fine e -> provenance_ok (fc_provenance cfg) -> item_ok item ->
  (forall a, en_alloc e a = true) -> datagram (frame_of pkt) d p sid pl ->
  parse_payload inet_ntop p pl = Ret (Some (pe, et)) ->
  let ev := event_of inet_ntop cfg (en_now e) pkt d p sid pe et in
  get_packed_size ev <= CLOUDFLOW_EVENT_MAX_SIZE ->
  runs (cf_format_packet inet_ntop pack get_packed_size e (Some cfg) st (Some pkt) (Some item))
    (fun '(rc, item', st') => rc = 0 /\ st' = count_event p (n_parser_warnings pe) st /\
       exists i, item' = Some i /\ item_ok i /\ it_protocol i = p /\
         item_holds (pack ev) sid (pk_observed_time_unix_nano pkt) et i).
Proof.
  intros Hp Hu Hc Hi Hal Hd Hpe ev Hfit. eapply runs_mono; [by apply format_runs|].
  intros [[rc oi] st'] (i & -> & Ho). inversion Ho as [Hn|d' p' sid' pl' a Hd' Ha|
    d' p' sid' pl' pe' et' Hd' Hpe' ev' Hbig|d' p' sid' pl' pe' et' ev' i' Hd' Hpe' full Hev Hs Hio Hpr Hh]; subst.
  - by destruct (Hn d p sid pl).
  - by rewrite Hal in Ha.
  - destruct (datagram_det _ _ _ _ _ _ _ _ _ Hd Hd') as (<- & <- & <- & <-).
    rewrite Hpe in Hpe'. injection Hpe' as <- <-. unfold ev', ev in *. lia.
  - destruct (datagram_det _ _ _ _ _ _ _ _ _ Hd Hd') as (<- & Hpp & <- & <-). subst p.
    rewrite Hpe in Hpe'. injection Hpe' as <- <-. unfold full, ev in *.
    destruct Hev as [->|[Hbig _]]; [|lia]. split; [done|]. split; [done|]. by exists i.
Qed.

(** C20. The outcome of every packet.  For any captured bytes, any allocation
    failing, a call with its three arguments runs without an access outside an
    object and ends in exactly one way: skipped and counted when the frame is no
    DHCP datagram of at least the fixed header; failed, the item and counters
    untouched; dropped as oversize when the event is over the limit even
    without its raw payload; or formatted into the item with the whole event,
    without its raw payload only when that was needed.  A missing argument is
    refused. *)
Theorem format_packet_correct e cfg st pkt item :
  packet_ok pkt -> env_fine e -> provenance_ok (fc_provenance cfg) -> item_ok item ->
  runs (cf_format_packet inet_ntop pack get_packed_size e (Some cfg) st (Some pkt) (Some item))
    (fun '(rc, item', st') => exists i, item' = Some i /\
       outcome inet_ntop pack get_packed_size e cfg pkt item st rc i st') /\
  (forall oc op oi, oc = None \/ op = None \/ oi = None ->
     cf_format_packet inet_ntop pack get_packed_size e oc st op oi = Ret (-1, oi, st)).
Proof.
  intros Hp Hu Hc Hi. split; [by apply format_runs|].
  intros oc op oi [-> |[-> | ->]]; [done|by destruct oc|by destruct oc, op].
Qed.

(** ** The thread *)

Context {Q : Type} `{GaugedFifo Q} {R : Type} `{BoundedFifo R}.

(** C19. Conservation: in any history of frames, pops and reports, whatever the
    reports reset, every frame is counted exactly once as formatted, skipped or
    oversize, unless an allocation failed and a warning was logged; the
    formatted events add up by protocol; every item was formatted from a frame
    of the history; and what the consumer took and the queue holds are those
    items in order, less the ones counted as dropped. *)
Theorem formatter_conservation cfg out es :
  out_ok out -> fifo_items out = [] -> provenance_ok (fc_provenance cfg) -> Forall event_ok es ->
  runs (world_run inet_ntop pack get_packed_size cfg es (start_world out)) (fun w =>
    let s := w_formatter w in let g := stats_of (whole w) in
    exists ms, made inet_ntop pack get_packed_size cfg es ms /\
      u64 (total frame_stats g + fm_logged s) = u64 (frames es) /\
      (Forall calm es -> fm_logged s = 0) /\
      total [events_formatted_total] g = u64 (zlen ms) /\
      total protocol_stats g = u64 (zlen ms) /\
      u64 (g formatter_queue_drop_total + zlen (sent s)) = u64 (zlen ms) /\
      sent s `sublist_of` ms).
Proof.
  intros Hout Hemp Hc Hes. eapply runs_mono; [apply (history_effect inet_ntop pack get_packed_size pack_size cfg es); try done|].
  intros w (Hok & n & ms & [_ L F E P D S] & Hn & Hcalm & Hm). cbn zeta. exists ms.
  unfold sent, whole, shift in L, S, D. cbn [start_world set_stats w_formatter fm_out fm_popped fm_logged] in L, S, D.
  assert (forall l, total l (stats_of (whole (start_world out))) = 0) as Hz.
  { intros l. unfold total. induction l as [|c l IH]; cbn [foldr]; [done|]. by rewrite Z.add_0_l. }
  rewrite Hz, Z.add_0_l in F, E, P. rewrite Hemp in D, S. cbn [app length] in D, S.
  assert (fm_logged (w_formatter w) = n) as Hl by lia. rewrite F, Hl, u64_add.
  split; [done|]. split; [f_equal; lia|]. by split_and!.
Qed.
(** The formatter after [f] frames. *)
Definition advanced (s0 : @formatter Q) (f : Z) (s : formatter) : Prop :=
  exists n ms, effect f n ms s0 s.

Lemma process_advances cfg s0 e pkt f s : provenance_ok (fc_provenance cfg) -> env_fine e ->
  packet_ok pkt -> advanced s0 f s ->
  runs (wk_process (formatter_worker inet_ntop pack get_packed_size cfg) e pkt s) (advanced s0 (f + 1)).
Proof.
  intros Hc He Hp (n & ms & Heff). eapply runs_mono;
    [by apply process_effect; [..|apply Heff]|].
  intros s' (n' & ms' & Heff' & _). exists (n + n'), (ms ++ ms'). by eapply effects_compose.
Qed.

(** Lossless shutdown: stopping a started formatter lets its thread take every
    frame that was queued or accepted, each counted exactly once or logged;
    every formatted item was pushed or counted as dropped; the input queue ends
    empty, the stop flag is set, and stopping again does nothing. *)
Theorem formatter_stop_lossless cfg turns envs (iq : R) s sync :
  in_ok iq -> fm_ok s -> provenance_ok (fc_provenance cfg) ->
  Forall (turn_ok env_fine (fun _ => True)) turns -> (forall i, env_fine (envs i)) ->
  let stopped := {| g_cfg := Some cfg; g_started := false |} in
  runs (formatter_stop inet_ntop pack get_packed_size turns envs iq s sync
          {| g_cfg := Some cfg; g_started := true |})
    (fun '(r, sync', g') => g' = stopped /\ cf_stop_notified sync' = true /\
       formatter_stop inet_ntop pack get_packed_size turns envs iq s sync' g' = Ret (None, sync', stopped) /\
       exists iq' s' k, r = Some (iq', s', k) /\ fifo_items iq' = [] /\
         u64 (total frame_stats (stats_of s') + (fm_logged s' - fm_logged s)) =
           u64 (total frame_stats (stats_of s) + (zlen (fifo_items iq) + k)) /\
         u64 (stats_of s' formatter_queue_drop_total + zlen (sent s') +
              (stats_of s events_formatted_total)) =
           u64 (stats_of s formatter_queue_drop_total + zlen (sent s) +
                stats_of s' events_formatted_total)).
Proof.
  intros Hin Hs Hc Hts Henvs stopped. unfold formatter_stop at 1. cbn [g_started g_cfg].
  apply runs_bind. unfold formatter_thread_main. eapply runs_mono.
  { apply (worker_runs _ env_fine (fun _ => True) (advanced s)); try done.
    - intros e pkt f s1. by apply process_advances.
    - exists 0, []. by apply no_effect. }
  intros [[iq' s'] k] [He (n & ms & [O L F E P D S])]. cbn [runs]. split_and!; [done|done|done|].
  exists iq', s', k. split_and!; [done|done| |].
  - rewrite F, L, u64_add. f_equal. lia.
  - rewrite !total_one in E. rewrite (u64_congr _ _ _ D). symmetry.
    rewrite Z.add_comm. rewrite u64_add in E. rewrite (u64_congr _ _ _ E). f_equal. lia.
Qed.
End Properties.

(** ** From the wire to the event *)

(** A DHCP message as its sender encodes it. *)
Inductive dhcp_message :=
| V4_packet (fixed : list Z) (opts : list (Z * list Z)) (pad : list Z)
| V6_message (t xid : Z) (os : list option6)
| V6_relay (t hop : Z) (link peer : list Z) (os : list option6).

Definition message_bytes (m : dhcp_message) : list Z :=
  match m with
  | V4_packet fixed opts pad => dhcp_packet fixed opts pad
  | V6_message t xid os => client_message t xid os
  | V6_relay t hop link peer os => relay_message t hop link peer os
  end.

Definition message_ok (m : dhcp_message) : Prop :=
  match m with
  | V4_packet fixed opts pad =>
      length fixed = 236%nat /\ bytes_ok fixed /\ bytes_ok pad /\ Forall plain_option opts
  | V6_message t xid os =>
      Forall option6_ok os /\ is_byte t /\ 0 <= xid < 2 ^ 24 /\ t <> 12 /\ t <> 13
  | V6_relay t hop link peer os =>
      Forall option6_ok os /\ is_byte hop /\ (t = 12 \/ t = 13) /\ zlen link = 16 /\ zlen peer = 16 /\
      bytes_ok link /\ bytes_ok peer
  end.

Definition message_protocol (m : dhcp_message) : cf_protocol_t * cf_stream_id_t :=
  match m with
  | V4_packet _ _ _ => (CF_PROTO_DHCPV4, CF_STREAM_DHCPV4)
  | _ => (CF_PROTO_DHCPV6, CF_STREAM_DHCPV6)
  end.

(** Ports a message of the protocol travels on: a server or client port of
    DHCPv4, or one of DHCPv6 and none of DHCPv4. *)
Definition message_ports (m : dhcp_message) (sp dp : Z) : Prop :=
  match m with
  | V4_packet _ _ _ => sp = 67 \/ sp = 68 \/ dp = 67 \/ dp = 68
  | _ => (sp = 546 \/ sp = 547 \/ dp = 546 \/ dp = 547) /\
         sp <> 67 /\ sp <> 68 /\ dp <> 67 /\ dp <> 68
  end.

(** The payload [pe] and the type [et] of the event of [m]. *)
Definition message_event (inet_ntop : Z -> list Z -> list Z) (m : dhcp_message) (pe : dhcp_event)
    (et : list Z) : Prop :=
  match m, pe with
  | V4_packet fixed opts pad, DHCPV4_PACKET ev =>
      et = event_type_for_message_type (d_message_type (ev_decoded ev)) /\
      header_view inet_ntop (dhcp_packet fixed opts pad) (ev_header ev) /\
      ev_raw_options ev = option_views (wire_of opts) [] [] /\
      exists r, decoded_view inet_ntop (cm_of (wire_of opts) [] []) (ev_decoded ev) r
  | V6_message t xid os, DHCPV6_PACKET ev =>
      et = event_type_for_message_type6 (message_type_enum6 t) /\
      ev6_header ev = {| h6_message_type := message_type_enum6 t; h6_transaction_id := xid;
                         h6_hop_count := 0; h6_link_address := []; h6_peer_address := [] |} /\
      encoded_view inet_ntop os ev
  | V6_relay t hop link peer os, DHCPV6_PACKET ev =>
      et = event_type_for_message_type6 (message_type_enum6 t) /\
      ev6_header ev = {| h6_message_type := message_type_enum6 t; h6_transaction_id := 0;
                         h6_hop_count := hop; h6_link_address := ipv6_text inet_ntop link;
                         h6_peer_address := ipv6_text inet_ntop peer |} /\
      encoded_view inet_ntop os ev
  | _, _ => False
  end.

Lemma message_parses inet_ntop m : message_ok m ->
  exists pe et, parse_payload inet_ntop (message_protocol m).1 (message_bytes m) = Ret (Some (pe, et)) /\
    message_event inet_ntop m pe et /\
    header_length (message_protocol m).1 <= zlen (message_bytes m).
Proof.
  destruct m as [fixed opts pad|t xid os|t hop link peer os]; cbn [message_ok message_bytes message_protocol fst].
  - intros (Hl & Hf & Hp & Ho).
    destruct (packet_parses inet_ntop fixed opts pad Hl Hf Hp Ho) as (r & ev & He & Hh & Hr & Hd & _).
    unfold parse_payload, is_dhcpv4. rewrite bool_decide_true by done. rewrite He. xbind.
    eexists _, _. split; [reflexivity|]. split; [cbn; split_and!; [done..|by exists r]|].
    unfold header_length, is_dhcpv4, dhcp_packet. rewrite bool_decide_true by done. rewrite length_app. lia.
  - intros (Ho & Ht & Hx & N1 & N2).
    destruct (proj1 (message6_parses inet_ntop os t Ho Ht) xid Hx N1 N2) as (ev & et & He & Hh & Het & Hv).
    unfold parse_payload, is_dhcpv4. rewrite bool_decide_false by done. rewrite He. xbind.
    eexists _, _. split; [reflexivity|]. split; [done|].
    unfold header_length, is_dhcpv4, client_message. rewrite bool_decide_false by done.
    cbn [length]. rewrite length_app, be_bytes_length. lia.
  - intros (Ho & Hh & Ht & Hl & Hp & Hlo & Hpo).
    assert (is_byte t) as Hb by (unfold is_byte; lia).
    destruct (proj2 (message6_parses inet_ntop os t Ho Hb) hop link peer Hh Ht Hl Hp Hlo Hpo)
      as (ev & et & He & Hhd & Het & Hv).
    unfold parse_payload, is_dhcpv4. rewrite bool_decide_false by done. rewrite He. xbind.
    eexists _, _. split; [reflexivity|]. split; [done|].
    unfold header_length, is_dhcpv4, relay_message. rewrite bool_decide_false by done.
    cbn [length]. rewrite length_app. lia.
Qed.

Lemma message_classified m d : message_ports m (u_src_port d) (u_dst_port d) ->
  classify d = Some (message_protocol m).
Proof.
  unfold classify. destruct m; cbn [message_ports message_protocol]; intros Hp.
  - by replace (_ || _) with true by lia.
  - replace (_ || (u_dst_port d =? 68)) with false by lia. by replace (_ || _) with true by lia.
  - replace (_ || (u_dst_port d =? 68)) with false by lia. by replace (_ || _) with true by lia.
Qed.

(** C18. From the wire to the event: a frame with any addresses, up to two VLAN
    tags, IPv4 options or IPv6 extension headers, padding, and a datagram that
    carries an encoded DHCPv4 packet, DHCPv6 message or relay message on its
    ports, is formatted with success: the event holds the frame's layers, its
    ports, the parsed message with every option that was encoded, its type,
    and the item carries the packed event on the protocol's stream, if it is
    within the size limit. *)
Theorem frame_to_event inet_ntop pack get_packed_size e cfg st pkt item m x tags n sp dp ck trailer :
  (forall ev, zlen (pack ev) = get_packed_size ev) ->
  packet_ok pkt -> env_fine e -> provenance_ok (fc_provenance cfg) -> item_ok item ->
  (forall a, en_alloc e a = true) ->
  let payload := message_bytes m in
  let dgram := udp_bytes sp dp ck (zlen payload) ++ payload in
  message_ok m -> message_ports m sp dp ->
  encodable x tags n (zlen dgram) -> next_header x = IP_PROTO_UDP ->
  Forall (fun v => 0 <= v < 65536) [sp; dp; ck; 8 + zlen payload] ->
  frame_of pkt = encode x tags n dgram trailer ->
  exists pe et, message_event inet_ntop m pe et /\
    let ev :=
      {| ce_envelope := envelope_view (fc_provenance cfg) (en_now e)
           (source_type_of (message_protocol m).1) (schema_of (message_protocol m).1)
           (message_protocol m).2 et (pk_observed_time_unix_nano pkt) (frame_of pkt);
         ce_packet :=
           {| po_observed_time_unix_nano := pk_observed_time_unix_nano pkt; po_link := link_view x;
              po_network := network_view inet_ntop x;
              po_transport :=
                {| to_protocol := TRANSPORT_PROTOCOL_UDP; to_ip_protocol_number := 17;
                   to_src_port := sp; to_dst_port := dp;
                   to_details := DETAILS_UDP (8 + zlen payload) (if ck =? 0 then 0 else 1) |};
              po_packet_len := pk_packet_len pkt; po_captured_len := pk_captured_len pkt;
              po_truncated := truncated_flag pkt |};
         ce_payload := pe |} in
    get_packed_size ev <= CLOUDFLOW_EVENT_MAX_SIZE ->
    runs (cf_format_packet inet_ntop pack get_packed_size e (Some cfg) st (Some pkt) (Some item))
      (fun '(rc, item', st') => rc = 0 /\
         st' = count_event (message_protocol m).1 (n_parser_warnings pe) st /\
         exists i, item' = Some i /\
           item_holds (pack ev) (message_protocol m).2 (pk_observed_time_unix_nano pkt) et i).
Proof.
  intros Hsize Hp Hu Hc Hi Hal payload dgram Hm Hports Hen Hnh Hr Hf.
  destruct (udp_encoded x tags n sp dp ck payload trailer Hen Hnh Hr) as (Hd & Hpl & _).
  fold dgram in Hd, Hpl. rewrite <-Hf in Hd, Hpl.
  destruct (message_parses inet_ntop m Hm) as (pe & et & Hpe & Hev & Hlen).
  exists pe, et. split; [done|]. intros ev Hfit.
  match type of Hd with _ = Ret (_, ?r) => set (d := r) in Hd end.
  assert (datagram (frame_of pkt) d (message_protocol m).1 (message_protocol m).2 payload) as Hdg.
  { split; [done|]. split; [|split; [symmetry; exact Hpl|exact Hlen]].
    rewrite (message_classified m d Hports). by destruct (message_protocol m). }
  assert (ev = event_of inet_ntop cfg (en_now e) pkt d (message_protocol m).1 (message_protocol m).2 pe et) as Heq.
  { unfold ev, event_of, observation_view, d. cbn [u_l3 u_src_port u_dst_port udp_length udp_checksum_present].
    by destruct (ck =? 0). }
  eapply runs_mono; [apply (datagram_formatted inet_ntop pack get_packed_size Hsize e cfg pkt item st d
    _ _ payload pe et Hp Hu Hc Hi Hal Hdg Hpe)|]; [by rewrite <-Heq|].
  intros [[rc i] st'] (-> & Hst & i' & -> & _ & _ & Hh). split; [done|]. split; [done|].
  exists i'. split; [done|]. by rewrite <-Heq in Hh.
Qed.

(** ** Examples *)

Definition sample_provenance : provenance :=
  {| source_host := Some (bs "host"); source_instance := None; capture_interface := Some (bs "eth0");
     observation_method := Some (bs "rxring") |}.
Definition sample_cfg : formatter_config_t :=
  {| fc_provenance := sample_provenance; fc_on_full := CF_ONFULL_DROP_NEWEST |}.
Definition sample_emit_env : emit_env :=
  {| en_alloc := all_ok; en_now := 7; en_stop := fun _ => false; en_consumer := fun _ => 0%nat;
     en_uninit := stale_ctx |}.
Definition sample_pack (ev : CloudFlowEvent) : list Z := [1; 2; 3].
Definition sample_size (ev : CloudFlowEvent) : Z := 3.

(** A DISCOVER broadcast by a client, on VLAN 100. *)
Definition discover : dhcp_message :=
  V4_packet (replicate 236 0) [(53, [1]); (12, [112; 99]); (55, [1; 3; 6])] [].
Definition discover_dgram : list Z :=
  udp_bytes 68 67 0 (zlen (message_bytes discover)) ++ message_bytes discover.
Definition discover_frame : list Z :=
  encode (sample 0x0800 4 17 ip4) [(0x8100, 0xA064)] (V4 2 7 0 []) discover_dgram [0; 0].
Definition discover_packet : cf_packet_item_t := packet_of discover_frame 1000.

Lemma cfg_provenance_ok : provenance_ok (fc_provenance sample_cfg).
Proof. split; by apply bytes_okb. Qed.

Lemma sample_env_fine : env_fine sample_emit_env.
Proof. split; [reflexivity|by apply bytes_okb]. Qed.

Lemma discover_packet_ok : packet_ok discover_packet.
Proof.
  apply packet_of_ok; [by apply bytes_okb|by apply Z.leb_le|done].
Qed.

Definition sample_queue : option cf_queue_t :=
  snd (cf_queue_init true (Some null_queue) 3 SIZEOF_EVENT_ITEM).

Lemma sample_queue_ok : out_ok sample_queue /\ fifo_items sample_queue = [].
Proof.
  destruct (init_wf true null_queue 3 SIZEOF_EVENT_ITEM sample_queue) as (Hwf & Hi & _ & He); [done|done|].
  split; [split; [exact Hwf|exact He]|exact Hi].
Qed.

Lemma format_packet_correct_witness :
  runs (cf_format_packet dotted_quad sample_pack sample_size sample_emit_env (Some sample_cfg) None
          (Some discover_packet) (Some zero_item))
    (fun '(rc, item', st') => exists i, item' = Some i) /\
  cf_format_packet dotted_quad sample_pack sample_size sample_emit_env (Some sample_cfg) None
    (Some discover_packet) None = Ret (-1, None, None).
Proof.
  destruct (format_packet_correct dotted_quad sample_pack sample_size (fun _ => eq_refl) sample_emit_env
    sample_cfg None discover_packet zero_item discover_packet_ok sample_env_fine cfg_provenance_ok
    zero_item_ok) as [H1 H2].
  split; [|by apply H2; right; right].
  eapply runs_mono; [exact H1|]. intros [[rc i] st'] (i' & -> & _). by exists i'.
Defined.

Definition dhcp_history : list (@event (option cf_queue_t)) :=
  [EvFrame sample_emit_env discover_packet; EvFrame sample_emit_env (packet_of [1; 2; 3] 1010);
   EvReport (fun _ => 0) (fun _ => 0) None None true;
   EvTake 1; EvFrame sample_emit_env discover_packet].

Lemma formatter_conservation_witness :
  runs (world_run dotted_quad sample_pack sample_size sample_cfg dhcp_history (start_world sample_queue))
    (fun w => exists ms, fm_logged (w_formatter w) = 0 /\
       u64 (total frame_stats (stats_of (whole w))) = 3 /\ sent (w_formatter w) `sublist_of` ms).
Proof.
  eapply runs_mono.
  - apply (formatter_conservation dotted_quad sample_pack sample_size (fun _ => eq_refl) sample_cfg
      sample_queue dhcp_history).
    + apply sample_queue_ok.
    + apply sample_queue_ok.
    + exact cfg_provenance_ok.
    + apply Forall_cons_2; [split; [exact discover_packet_ok|exact sample_env_fine]|].
      apply Forall_cons_2; [split; [|exact sample_env_fine]|].
      { apply packet_of_ok; [by apply bytes_okb|done|done]. }
      apply Forall_cons_2; [exact I|]. apply Forall_cons_2; [exact I|].
      apply Forall_cons_2; [split; [exact discover_packet_ok|exact sample_env_fine]|constructor].
  - intros w (ms & _ & Hf & Hl & _ & _ & _ & Hs). exists ms.
    assert (fm_logged (w_formatter w) = 0) as Hlog.
    { apply Hl. apply Forall_cons_2; [done|]. apply Forall_cons_2; [done|]. apply Forall_cons_2; [done|].
      apply Forall_cons_2; [done|]. apply Forall_cons_2; [done|constructor]. }
    split; [exact Hlog|]. split; [|exact Hs]. rewrite Hlog, Z.add_0_r in Hf. exact Hf.
Defined.

Definition dhcp_turn : turn emit_env unit :=
  {| tn_arrivals := [packet_image discover_packet]; tn_frame := sample_emit_env; tn_idle := tt |}.

Lemma formatter_stop_lossless_witness :
  runs (formatter_stop dotted_quad sample_pack sample_size [dhcp_turn] (fun _ => sample_emit_env) sample_in
          (w_formatter (start_world sample_queue)) cf_sync_init
          {| g_cfg := Some sample_cfg; g_started := true |})
    (fun '(r, sync', g') => g_started g' = false /\ cf_stop_notified sync' = true /\
       exists iq' s' k, r = Some (iq', s', k) /\ fifo_items iq' = []).
Proof.
  eapply runs_mono.
  - apply (formatter_stop_lossless dotted_quad sample_pack sample_size (fun _ => eq_refl) sample_cfg
      [dhcp_turn] (fun _ => sample_emit_env) sample_in (w_formatter (start_world sample_queue)) cf_sync_init
      sample_in_ok).
    + split; [by eexists|apply sample_queue_ok].
    + exact cfg_provenance_ok.
    + apply Forall_cons_2; [|constructor]. split; [|split; [exact sample_env_fine|exact I]].
      apply Forall_cons_2; [|constructor]. apply image_ok; [exact discover_packet_ok|].
      split; vm_compute; split; done.
    + intros i. exact sample_env_fine.
  - intros [[r sync'] g'] (-> & Hs & _ & iq' & s' & k & Hr & He & _).
    split; [reflexivity|]. split; [exact Hs|]. by exists iq', s', k.
Defined.

Lemma frame_to_event_witness :
  exists ev et, et = bs "dhcpv4.discover.observed" /\ d_host_name (ev_decoded ev) = bs "pc" /\
    runs (cf_format_packet dotted_quad sample_pack sample_size sample_emit_env (Some sample_cfg)
            (Some (fun _ => 0)) (Some discover_packet) (Some zero_item))
      (fun '(rc, item', st') => rc = 0 /\ exists i, item' = Some i /\
         item_holds [1; 2; 3] CF_STREAM_DHCPV4 1000 et i).
Proof.
  destruct (frame_to_event dotted_quad sample_pack sample_size sample_emit_env sample_cfg
    (Some (fun _ => 0)) discover_packet zero_item discover (sample 0x0800 4 17 ip4)
    [(0x8100, 0xA064)] (V4 2 7 0 []) 68 67 0 [0; 0] (fun _ => eq_refl) discover_packet_ok
    sample_env_fine cfg_provenance_ok zero_item_ok (fun _ => eq_refl)) as (pe & et & Hev & Hrun).
  - split_and!; [done|by apply bytes_okb|constructor|].
    apply Forall_cons_2; [by split_and!; [..|apply bytes_okb]|].
    apply Forall_cons_2; [by split_and!; [..|apply bytes_okb]|].
    apply Forall_cons_2; [by split_and!; [..|apply bytes_okb]|constructor].
  - right; left. reflexivity.
  - split; [by apply sample_ok|split; [by repeat constructor|simpl; lia]|done|done|].
    split; [|done]. split; [lia|done| |simpl; lia]. split_and!; [done|simpl; lia|]. constructor.
  - done.
  - repeat (apply Forall_cons_2; [vm_compute; split; done|]). constructor.
  - apply frame_of_packet. by apply Z.leb_le.
  - destruct pe as [ev|ev]; [|destruct Hev]. destruct Hev as (Het & _ & _ & r & Hd).
    assert (et = bs "dhcpv4.discover.observed") as ->.
    { rewrite Het, (dv_message_type _ _ _ _ Hd). by vm_compute. }
    exists ev, (bs "dhcpv4.discover.observed"). split; [reflexivity|].
    split; [rewrite (dv_host_name _ _ _ _ Hd); by vm_compute|].
    eapply runs_mono; [apply Hrun; discriminate|].
    intros [[rc i] st'] (Hrc & _ & i' & Hi' & Hi). split; [exact Hrc|].
    exists i'. split; [exact Hi'|exact Hi].
Defined.
