(* ===== verification/Bpf.v ===== *)
(** * Bpf: the assembler of the kernel's packet filters
    ([libs/cloudflow-capture/cf_bpf.c])

    A filter is emitted as instructions with symbolic jump labels, which
    [bpf_asm_finish] turns into the forward offsets of classic BPF.  The arrays
    of [bpf_asm_t] are lists of what was emitted, and [n] and [n_fixups] their
    lengths; [label_pos] is its whole array.  The codes are the values of
    [<linux/filter.h>].  What the kernel does with a program is not part of the
    repository: [bpf_machine] states the documented effect of the instructions
    the filters use, and the theorems hold for any machine with these laws. *)

From S2P Require Import Prelude.

(** ** Instructions *)

Definition BPF_LD : Z := 0x00.
Definition BPF_LDX : Z := 0x01.
Definition BPF_JMP : Z := 0x05.
Definition BPF_RET : Z := 0x06.
Definition BPF_H : Z := 0x08.
Definition BPF_B : Z := 0x10.
Definition BPF_IMM : Z := 0x00.
Definition BPF_ABS : Z := 0x20.
Definition BPF_IND : Z := 0x40.
Definition BPF_MSH : Z := 0xa0.
Definition BPF_JEQ : Z := 0x10.
Definition BPF_JSET : Z := 0x40.
Definition BPF_K : Z := 0x00.
Definition IPPROTO_TCP : Z := 6.
Definition IPPROTO_UDP : Z := 17.

Infix ".|" := Z.lor (at level 45, left associativity).

Record sock_filter := { code : Z; jt : Z; jf : Z; k : Z }.

(** ** The assembler *)

Definition CF_BPF_ASM_MAX_INSNS : Z := 96.
Definition CF_BPF_ASM_MAX_FIXUPS : Z := 96.
Definition CF_BPF_ASM_MAX_LABELS : Z := 32.
Definition CF_BPF_ASM_FALLTHROUGH : Z := -1.
Definition CF_BPF_UDP_SRC_PORT_OFF : Z := 0.
Definition CF_BPF_UDP_DST_PORT_OFF : Z := 2.
Definition CF_BPF_TCP_SRC_PORT_OFF : Z := 0.
Definition CF_BPF_TCP_DST_PORT_OFF : Z := 2.

Record fixup := { fixup_insn : Z; fixup_is_jt : bool; fixup_label : Z }.

Record bpf_asm_t := {
  insns : list sock_filter; label_pos : list Z; fixups : list fixup; error : bool
}.

Definition bpf_asm_init : bpf_asm_t :=
  {| insns := []; label_pos := replicate (Z.to_nat CF_BPF_ASM_MAX_LABELS) (-1); fixups := []; error := false |}.

Definition set_error (a : bpf_asm_t) : bpf_asm_t :=
  {| insns := insns a; label_pos := label_pos a; fixups := fixups a; error := true |}.

Definition bad_label (label : Z) : bool := (label <? 0) || (CF_BPF_ASM_MAX_LABELS <=? label).

Definition bpf_asm_label (label : Z) (a : bpf_asm_t) : bpf_asm_t :=
  if bad_label label then set_error a
  else {| insns := insns a; label_pos := <[Z.to_nat label := zlen (insns a)]> (label_pos a);
          fixups := fixups a; error := error a |}.

(** The instruction written at [n]; [None] when the array is full. *)
Definition emit (c v : Z) (a : bpf_asm_t) : option bpf_asm_t :=
  if CF_BPF_ASM_MAX_INSNS <=? zlen (insns a) then None
  else Some {| insns := insns a ++ [{| code := c; jt := 0; jf := 0; k := v |}];
               label_pos := label_pos a; fixups := fixups a; error := error a |}.

Definition bpf_asm_stmt (c v : Z) (a : bpf_asm_t) : bpf_asm_t :=
  match emit c v a with None => set_error a | Some a => a end.

(** One side of a jump, [None] when there is no room for it. *)
Definition add_fixup (idx : Z) (is_jt : bool) (label : Z) (a : bpf_asm_t) : option bpf_asm_t :=
  if label =? CF_BPF_ASM_FALLTHROUGH then Some a
  else if CF_BPF_ASM_MAX_FIXUPS <=? zlen (fixups a) then None
  else Some {| insns := insns a; label_pos := label_pos a; error := error a;
               fixups := fixups a ++ [{| fixup_insn := idx; fixup_is_jt := is_jt; fixup_label := label |}] |}.

Definition bpf_asm_jump (c v jt_label jf_label : Z) (a : bpf_asm_t) : bpf_asm_t :=
  let idx := zlen (insns a) in
  match emit c v a with
  | None => set_error a
  | Some a =>
      match add_fixup idx true jt_label a with
      | None => set_error a
      | Some a =>
          match add_fixup idx false jf_label a with
          | None => set_error a
          | Some a => a
          end
      end
  end.

(** The offset of a fixup, [None] where [bpf_asm_finish] returns -1. *)
Definition fixup_delta (labels : list Z) (f : fixup) : option Z :=
  if bad_label (fixup_label f) then None
  else
    match labels !! Z.to_nat (fixup_label f) with
    | None => None
    | Some target =>
        let delta := target - (fixup_insn f + 1) in
        if (target <? 0) || (delta <? 0) || (255 <? delta) then None else Some delta
    end.

Definition set_jump (is_jt : bool) (delta : Z) (i : sock_filter) : sock_filter :=
  if is_jt then {| code := code i; jt := u8 delta; jf := jf i; k := k i |}
  else {| code := code i; jt := jt i; jf := u8 delta; k := k i |}.

Fixpoint resolve (labels : list Z) (fs : list fixup) (prog : list sock_filter) : Z * list sock_filter :=
  match fs with
  | [] => (0, prog)
  | f :: fs =>
      match fixup_delta labels f with
      | None => (-1, prog)
      | Some delta => resolve labels fs (alter (set_jump (fixup_is_jt f) delta) (Z.to_nat (fixup_insn f)) prog)
      end
  end.

Definition bpf_asm_finish (a : bpf_asm_t) : Z * bpf_asm_t :=
  if error a then (-1, a)
  else
    let '(rc, prog) := resolve (label_pos a) (fixups a) (insns a) in
    (rc, {| insns := prog; label_pos := label_pos a; fixups := fixups a; error := error a |}).

(** ** The branches *)

Section Branches.
Variables (ip_base port1 port2 accept_label mismatch_label : Z).

Definition bpf_asm_check_two_ports (ind_k final_jf_label : Z) (a : bpf_asm_t) : bpf_asm_t :=
  let a := bpf_asm_stmt (BPF_LD .| BPF_H .| BPF_IND) ind_k a in
  let a := bpf_asm_jump (BPF_JMP .| BPF_JEQ .| BPF_K) port1 accept_label CF_BPF_ASM_FALLTHROUGH a in
  bpf_asm_jump (BPF_JMP .| BPF_JEQ .| BPF_K) port2 accept_label final_jf_label a.

(** [bpf_asm_ipv4_udp_ports_branch] and [bpf_asm_ipv4_tcp_ports_branch]. *)
Definition ipv4_ports_branch (protocol src_off dst_off : Z) (a : bpf_asm_t) : bpf_asm_t :=
  let a := bpf_asm_stmt (BPF_LD .| BPF_B .| BPF_ABS) (ip_base + 9) a in
  let a := bpf_asm_jump (BPF_JMP .| BPF_JEQ .| BPF_K) protocol CF_BPF_ASM_FALLTHROUGH mismatch_label a in
  let a := bpf_asm_stmt (BPF_LD .| BPF_H .| BPF_ABS) (ip_base + 6) a in
  let a := bpf_asm_jump (BPF_JMP .| BPF_JSET .| BPF_K) 0x1fff mismatch_label CF_BPF_ASM_FALLTHROUGH a in
  let a := bpf_asm_stmt (BPF_LDX .| BPF_B .| BPF_MSH) ip_base a in
  let a := bpf_asm_check_two_ports (ip_base + src_off) CF_BPF_ASM_FALLTHROUGH a in
  bpf_asm_check_two_ports (ip_base + dst_off) mismatch_label a.

Definition bpf_asm_ipv4_udp_ports_branch : bpf_asm_t -> bpf_asm_t :=
  ipv4_ports_branch IPPROTO_UDP CF_BPF_UDP_SRC_PORT_OFF CF_BPF_UDP_DST_PORT_OFF.
Definition bpf_asm_ipv4_tcp_ports_branch : bpf_asm_t -> bpf_asm_t :=
  ipv4_ports_branch IPPROTO_TCP CF_BPF_TCP_SRC_PORT_OFF CF_BPF_TCP_DST_PORT_OFF.

Definition ipv6_ports_branch (protocol src_off dst_off : Z) (a : bpf_asm_t) : bpf_asm_t :=
  let a := bpf_asm_stmt (BPF_LD .| BPF_B .| BPF_ABS) (ip_base + 6) a in
  let a := bpf_asm_jump (BPF_JMP .| BPF_JEQ .| BPF_K) protocol CF_BPF_ASM_FALLTHROUGH mismatch_label a in
  let a := bpf_asm_stmt (BPF_LDX .| BPF_IMM) (ip_base + 40) a in
  let a := bpf_asm_check_two_ports src_off CF_BPF_ASM_FALLTHROUGH a in
  bpf_asm_check_two_ports dst_off mismatch_label a.

Definition bpf_asm_ipv6_udp_ports_branch : bpf_asm_t -> bpf_asm_t :=
  ipv6_ports_branch IPPROTO_UDP CF_BPF_UDP_SRC_PORT_OFF CF_BPF_UDP_DST_PORT_OFF.
Definition bpf_asm_ipv6_tcp_ports_branch : bpf_asm_t -> bpf_asm_t :=
  ipv6_ports_branch IPPROTO_TCP CF_BPF_TCP_SRC_PORT_OFF CF_BPF_TCP_DST_PORT_OFF.
End Branches.

(** ** The kernel's machine *)

(** The loads: [None] past the end of the packet, which ends the program with 0. *)
Definition load8 (pkt : list Z) (off : Z) : option Z :=
  if 0 <=? off then pkt !! Z.to_nat off else None.
Definition load16 (pkt : list Z) (off : Z) : option Z :=
  match load8 pkt off, load8 pkt (off + 1) with
  | Some a, Some b => Some (a * 256 + b)
  | _, _ => None
  end.

Definition jump_to (pc : nat) (offset : Z) : nat := (S pc + Z.to_nat offset)%nat.

(** [run prog pkt pc A X]: the bytes of [pkt] accepted from instruction [pc] on
    with these registers. *)
Record bpf_machine (run : list sock_filter -> list Z -> nat -> Z -> Z -> Z) : Prop := {
  bm_ld_h_abs prog pkt pc A X t f v : prog !! pc = Some {| code := BPF_LD .| BPF_H .| BPF_ABS; jt := t; jf := f; k := v |} ->
    run prog pkt pc A X = match load16 pkt v with Some a => run prog pkt (S pc) a X | None => 0 end;
  bm_ld_b_abs prog pkt pc A X t f v : prog !! pc = Some {| code := BPF_LD .| BPF_B .| BPF_ABS; jt := t; jf := f; k := v |} ->
    run prog pkt pc A X = match load8 pkt v with Some a => run prog pkt (S pc) a X | None => 0 end;
  bm_ld_h_ind prog pkt pc A X t f v : prog !! pc = Some {| code := BPF_LD .| BPF_H .| BPF_IND; jt := t; jf := f; k := v |} ->
    run prog pkt pc A X = match load16 pkt (u32 (X + v)) with Some a => run prog pkt (S pc) a X | None => 0 end;
  bm_ldx_msh prog pkt pc A X t f v : prog !! pc = Some {| code := BPF_LDX .| BPF_B .| BPF_MSH; jt := t; jf := f; k := v |} ->
    run prog pkt pc A X = match load8 pkt v with Some a => run prog pkt (S pc) A (4 * Z.land a 15) | None => 0 end;
  bm_ldx_imm prog pkt pc A X t f v : prog !! pc = Some {| code := BPF_LDX .| BPF_IMM; jt := t; jf := f; k := v |} ->
    run prog pkt pc A X = run prog pkt (S pc) A v;
  bm_jeq prog pkt pc A X t f v : prog !! pc = Some {| code := BPF_JMP .| BPF_JEQ .| BPF_K; jt := t; jf := f; k := v |} ->
    run prog pkt pc A X = run prog pkt (jump_to pc (if A =? v then t else f)) A X;
  bm_jset prog pkt pc A X t f v : prog !! pc = Some {| code := BPF_JMP .| BPF_JSET .| BPF_K; jt := t; jf := f; k := v |} ->
    run prog pkt pc A X = run prog pkt (jump_to pc (if Z.land A v =? 0 then f else t)) A X;
  bm_ret prog pkt pc A X t f v : prog !! pc = Some {| code := BPF_RET .| BPF_K; jt := t; jf := f; k := v |} ->
    run prog pkt pc A X = v
}.
