(* ===== verification/BpfSpec.v ===== *)
(** * BpfSpec: the assembler against a reference

    A program of labels, statements and jumps is assembled by [Bpf] exactly as
    by [assemble], which looks every label up in the whole program: the same
    instructions, or a refusal in the same cases. *)

From S2P Require Import Prelude Bpf.

(** ** Programs *)

Inductive asm_op :=
| Label (label : Z)
| Stmt (c v : Z)
| Jump (c v jt_label jf_label : Z).

Definition asm_step (a : bpf_asm_t) (o : asm_op) : bpf_asm_t :=
  match o with
  | Label l => bpf_asm_label l a
  | Stmt c v => bpf_asm_stmt c v a
  | Jump c v t f => bpf_asm_jump c v t f a
  end.
Definition asm_run (ops : list asm_op) (a : bpf_asm_t) : bpf_asm_t := foldl asm_step a ops.

(** ** The reference *)

Definition op_size (o : asm_op) : Z := match o with Label _ => 0 | _ => 1 end.

(** Where [l] was last placed, from position [i] on. *)
Fixpoint place (l i : Z) (ops : list asm_op) : option Z :=
  match ops with
  | [] => None
  | o :: ops =>
      match place l (i + op_size o) ops with
      | Some p => Some p
      | None => match o with Label l' => if l' =? l then Some i else None | _ => None end
      end
  end.

(** The offset from instruction [i] to label [l]. *)
Definition offset_to (where_ : Z -> option Z) (i l : Z) : option Z :=
  if l =? CF_BPF_ASM_FALLTHROUGH then Some 0
  else
    p ← where_ l;
    let d := p - (i + 1) in
    if (0 <=? d) && (d <=? 255) then Some d else None.

Fixpoint link (where_ : Z -> option Z) (i : Z) (ops : list asm_op) : option (list sock_filter) :=
  match ops with
  | [] => Some []
  | Label _ :: ops => link where_ i ops
  | Stmt c v :: ops =>
      prog ← link where_ (i + 1) ops; Some ({| code := c; jt := 0; jf := 0; k := v |} :: prog)
  | Jump c v t f :: ops =>
      dt ← offset_to where_ i t; df ← offset_to where_ i f;
      prog ← link where_ (i + 1) ops; Some ({| code := c; jt := dt; jf := df; k := v |} :: prog)
  end.

Definition sides (o : asm_op) : Z :=
  match o with
  | Jump _ _ t f => (if t =? CF_BPF_ASM_FALLTHROUGH then 0 else 1) + (if f =? CF_BPF_ASM_FALLTHROUGH then 0 else 1)
  | _ => 0
  end.
Definition sum_of (f : asm_op -> Z) (ops : list asm_op) : Z := foldr (fun o n => f o + n) 0 ops.
Definition label_ok (o : asm_op) : bool := match o with Label l => negb (bad_label l) | _ => true end.

(** The limits of the arrays. *)
Definition fits_asm (ops : list asm_op) : bool :=
  forallb label_ok ops && (sum_of op_size ops <=? CF_BPF_ASM_MAX_INSNS) && (sum_of sides ops <=? CF_BPF_ASM_MAX_FIXUPS).

Definition assemble (ops : list asm_op) : option (list sock_filter) :=
  if fits_asm ops then link (fun l => place l 0 ops) 0 ops else None.

(** ** What emission leaves *)

Definition op_insn (o : asm_op) : list sock_filter :=
  match o with
  | Label _ => []
  | Stmt c v | Jump c v _ _ => [{| code := c; jt := 0; jf := 0; k := v |}]
  end.
Definition side (i : Z) (is_jt : bool) (l : Z) : list fixup :=
  if l =? CF_BPF_ASM_FALLTHROUGH then [] else [{| fixup_insn := i; fixup_is_jt := is_jt; fixup_label := l |}].
Definition op_fixups (i : Z) (o : asm_op) : list fixup :=
  match o with Jump _ _ t f => side i true t ++ side i false f | _ => [] end.
Fixpoint all_fixups (i : Z) (ops : list asm_op) : list fixup :=
  match ops with [] => [] | o :: ops => op_fixups i o ++ all_fixups (i + op_size o) ops end.
Definition raw (ops : list asm_op) : list sock_filter := foldr (fun o l => op_insn o ++ l) [] ops.

Lemma sum_app f l1 l2 : sum_of f (l1 ++ l2) = sum_of f l1 + sum_of f l2.
Proof. induction l1 as [|o l1 IH]; cbn [app sum_of foldr]; [done|]. unfold sum_of in *. lia. Qed.

Lemma raw_app l1 l2 : raw (l1 ++ l2) = raw l1 ++ raw l2.
Proof. induction l1 as [|o l1 IH]; cbn [app raw foldr]; [done|]. unfold raw in *. by rewrite IH, app_assoc. Qed.

Lemma raw_length ops : zlen (raw ops) = sum_of op_size ops.
Proof.
  induction ops as [|o ops IH]; [done|]. cbn [raw foldr sum_of]. unfold raw, sum_of in IH.
  rewrite length_app, Nat2Z.inj_add, IH. by destruct o.
Qed.

Lemma all_fixups_app l1 : forall l2 i,
  all_fixups i (l1 ++ l2) = all_fixups i l1 ++ all_fixups (i + sum_of op_size l1) l2.
Proof.
  induction l1 as [|o l1 IH]; intros l2 i; cbn [app all_fixups sum_of foldr]; [by rewrite Z.add_0_r|].
  rewrite IH, app_assoc. do 2 f_equal. unfold sum_of. lia.
Qed.

Lemma fixups_length ops : forall i, zlen (all_fixups i ops) = sum_of sides ops.
Proof.
  induction ops as [|o ops IH]; intros i; [done|]. cbn [all_fixups sum_of foldr]. unfold sum_of in IH.
  rewrite length_app, Nat2Z.inj_add, IH. destruct o; try done. cbn [op_fixups sides]. unfold side.
  destruct (_ =? _), (_ =? _); simpl; lia.
Qed.

Lemma sum_nonneg f ops : (forall o, 0 <= f o) -> 0 <= sum_of f ops.
Proof. intros Hf. induction ops as [|o ops IH]; [done|]. cbn [sum_of foldr]. specialize (Hf o). unfold sum_of in *. lia. Qed.

Lemma place_app l l1 : forall l2 i, place l i (l1 ++ l2) =
  match place l (i + sum_of op_size l1) l2 with Some p => Some p | None => place l i l1 end.
Proof.
  induction l1 as [|o l1 IH]; intros l2 i; cbn [app place sum_of foldr].
  { rewrite Z.add_0_r. by destruct (place l i l2). }
  rewrite IH. unfold sum_of. rewrite Z.add_assoc. by destruct (place l (i + op_size o + _) l2).
Qed.

(** The assembler's state after [ops]. *)
Definition emitted (ops : list asm_op) (a : bpf_asm_t) : Prop :=
  insns a = raw ops /\ fixups a = all_fixups 0 ops /\ error a = false /\
  length (label_pos a) = Z.to_nat CF_BPF_ASM_MAX_LABELS /\
  forall l, bad_label l = false -> label_pos a !! Z.to_nat l = Some (default (-1) (place l 0 ops)).

Lemma init_emitted : emitted [] bpf_asm_init.
Proof.
  split_and!; try done. intros l Hl. unfold bad_label in Hl. cbn [bpf_asm_init label_pos place].
  apply lookup_replicate_2. unfold CF_BPF_ASM_MAX_LABELS in *. lia.
Qed.

(** An error stays. *)
Lemma error_sticks o a : error a = true -> error (asm_step a o) = true.
Proof.
  intros He. destruct o; cbn [asm_step].
  - unfold bpf_asm_label. by destruct (bad_label label).
  - unfold bpf_asm_stmt, emit. by destruct (_ <=? _).
  - unfold bpf_asm_jump, emit. destruct (_ <=? _); [done|]. unfold add_fixup.
    destruct (jt_label =? _); [|destruct (_ <=? _); [done|]]; cbn [fixups];
      (destruct (jf_label =? _); [done|by destruct (_ <=? _)]).
Qed.

Lemma fits_app ops o : fits_asm (ops ++ [o]) =
  fits_asm ops && label_ok o && (sum_of op_size ops + op_size o <=? CF_BPF_ASM_MAX_INSNS) &&
  (sum_of sides ops + sides o <=? CF_BPF_ASM_MAX_FIXUPS).
Proof.
  unfold fits_asm. rewrite forallb_app, !sum_app. cbn [forallb sum_of foldr]. rewrite !Z.add_0_r, andb_true_r.
  assert (0 <= op_size o /\ 0 <= sides o) as [Ho Hs].
  { destruct o; cbn [op_size sides]; repeat (destruct (_ =? _)); lia. }
  destruct (forallb _ _), (label_ok o); cbn [andb]; lia.
Qed.

Lemma emitted_label ops a l : emitted ops a -> bad_label l = false ->
  emitted (ops ++ [Label l]) (bpf_asm_label l a).
Proof.
  intros (Hi & Hf & He & Hl & Hp) Hb. unfold bpf_asm_label. rewrite Hb.
  split_and!; cbn [insns fixups error label_pos].
  - by rewrite raw_app, app_nil_r.
  - by rewrite all_fixups_app, app_nil_r.
  - done.
  - by rewrite length_insert.
  - intros l' Hb'. rewrite place_app. cbn [place]. unfold bad_label, CF_BPF_ASM_MAX_LABELS in *.
    destruct (l =? l') eqn:E.
    + assert (l' = l) as -> by lia. rewrite list_lookup_insert_eq by lia. by rewrite Hi, raw_length.
    + rewrite list_lookup_insert_ne by lia. apply Hp. lia.
Qed.

Lemma emitted_insn ops a c v o : emitted ops a -> op_insn o = [{| code := c; jt := 0; jf := 0; k := v |}] ->
  op_size o = 1 -> (forall l i, place l i [o] = None) ->
  match emit c v a with
  | None => CF_BPF_ASM_MAX_INSNS <= sum_of op_size ops
  | Some a' => sum_of op_size ops + 1 <= CF_BPF_ASM_MAX_INSNS /\ insns a' = raw (ops ++ [o]) /\
      fixups a' = fixups a /\ error a' = false /\ length (label_pos a') = Z.to_nat CF_BPF_ASM_MAX_LABELS /\
      forall l, bad_label l = false -> label_pos a' !! Z.to_nat l = Some (default (-1) (place l 0 (ops ++ [o])))
  end.
Proof.
  intros (Hi & Hf & He & Hl & Hp) Ho Hs Hpl. unfold emit. rewrite Hi, raw_length.
  destruct (_ <=? _) eqn:E; [lia|]. cbn [insns fixups error label_pos]. split_and!; [lia| |done|done|done|].
  - rewrite raw_app. cbn [raw foldr]. by rewrite Ho.
  - intros l Hb. rewrite place_app, Hpl. by apply Hp.
Qed.

Lemma add_fixup_spec i is_jt l a :
  match add_fixup i is_jt l a with
  | None => zlen (fixups a) + zlen (side i is_jt l) > CF_BPF_ASM_MAX_FIXUPS
  | Some a' => (zlen (fixups a) <= CF_BPF_ASM_MAX_FIXUPS ->
                zlen (fixups a) + zlen (side i is_jt l) <= CF_BPF_ASM_MAX_FIXUPS) /\
      insns a' = insns a /\ fixups a' = fixups a ++ side i is_jt l /\ error a' = error a /\
      label_pos a' = label_pos a
  end.
Proof.
  unfold add_fixup, side. destruct (l =? _); [by rewrite app_nil_r; split_and!; [simpl; lia|..]|].
  destruct (_ <=? _) eqn:E; [simpl; lia|]. split_and!; [simpl; lia|done..].
Qed.

Lemma emitted_jump ops a c v t f : emitted ops a -> sum_of sides ops <= CF_BPF_ASM_MAX_FIXUPS ->
  let o := Jump c v t f in
  if (sum_of op_size ops + 1 <=? CF_BPF_ASM_MAX_INSNS) && (sum_of sides ops + sides o <=? CF_BPF_ASM_MAX_FIXUPS)
  then emitted (ops ++ [o]) (bpf_asm_jump c v t f a)
  else error (bpf_asm_jump c v t f a) = true.
Proof.
  intros Hem Hsd o. pose proof (emitted_insn ops a c v o Hem eq_refl eq_refl (fun _ _ => eq_refl)) as H1.
  pose proof Hem as (Hi & Hf & _). unfold bpf_asm_jump. rewrite Hi, raw_length.
  destruct (emit c v a) as [a1|].
  2: { by replace (sum_of op_size ops + 1 <=? _) with false by lia. }
  destruct H1 as (Hn & Hi1 & Hf1 & He1 & Hl1 & Hp1). replace (sum_of op_size ops + 1 <=? _) with true by lia.
  pose proof (fixups_length ops 0) as Hfl. rewrite <- Hf, <- Hf1 in Hfl. cbn [andb].
  assert (sides o = zlen (side (sum_of op_size ops) true t) + zlen (side (sum_of op_size ops) false f)) as Hso.
  { unfold o, side. cbn [sides]. by destruct (t =? _), (f =? _). }
  pose proof (add_fixup_spec (sum_of op_size ops) true t a1) as H2.
  destruct (add_fixup _ true t a1) as [a2|]; [|by replace (_ <=? _) with false by lia].
  destruct H2 as (Hle & Hi2 & Hf2 & He2 & Hl2).
  pose proof (add_fixup_spec (sum_of op_size ops) false f a2) as H3. rewrite Hf2, length_app in H3.
  destruct (add_fixup _ false f a2) as [a3|]; [|by replace (_ <=? _) with false by lia].
  destruct H3 as (Hle3 & Hi3 & Hf3 & He3 & Hl3).
  replace (sum_of sides ops + sides o <=? _) with true by lia.
  split_and!; [congruence| |congruence|congruence|by rewrite Hl3, Hl2].
  rewrite all_fixups_app, Hf3, Hf1, Hf. unfold o. cbn [all_fixups op_fixups]. by rewrite app_nil_r, <- app_assoc.
Qed.

Lemma run_emitted ops : if fits_asm ops then emitted ops (asm_run ops bpf_asm_init)
  else error (asm_run ops bpf_asm_init) = true.
Proof.
  induction ops as [|o ops IH] using rev_ind; [exact init_emitted|].
  unfold asm_run in *. rewrite foldl_app. cbn [foldl]. rewrite fits_app.
  destruct (fits_asm ops) eqn:Ef; cbn [andb].
  2: { by apply error_sticks. }
  set (a := foldl asm_step bpf_asm_init ops) in *. unfold fits_asm in Ef.
  assert (sum_of op_size ops <= CF_BPF_ASM_MAX_INSNS /\ sum_of sides ops <= CF_BPF_ASM_MAX_FIXUPS) as [Hs1 Hs2]
    by lia.
  destruct o as [l|c v|c v t f]; cbn [label_ok asm_step op_size sides].
  - destruct (bad_label l) eqn:Eb; cbn [negb].
    + unfold bpf_asm_label. by rewrite Eb.
    + replace (_ && _) with true by lia. by apply emitted_label.
  - pose proof (emitted_insn ops a c v (Stmt c v) IH eq_refl eq_refl (fun _ _ => eq_refl)) as H1.
    unfold bpf_asm_stmt. destruct (emit c v a) as [a'|].
    + destruct H1 as (Hn & Hi & Hf & He & Hl & Hp). replace (_ && _) with true by lia.
      split_and!; [done| |done|done|done]. rewrite Hf. destruct IH as (_ & -> & _).
      by rewrite all_fixups_app, app_nil_r.
    + by replace (_ && _) with false by lia.
  - by apply emitted_jump.
Qed.

(** ** Linking *)

Section Linking.
Variables (labels : list Z) (where_ : Z -> option Z).
Hypothesis labels_ok : forall l, bad_label l = false -> labels !! Z.to_nat l = Some (default (-1) (where_ l)).
Hypothesis no_bad : forall l, bad_label l = true -> where_ l = None.
Hypothesis where_nonneg : forall l p, where_ l = Some p -> 0 <= p.

Lemma delta_offset i is_jt l : l <> CF_BPF_ASM_FALLTHROUGH ->
  fixup_delta labels {| fixup_insn := i; fixup_is_jt := is_jt; fixup_label := l |} = offset_to where_ i l.
Proof.
  intros Hl. unfold fixup_delta, offset_to. cbn [fixup_label fixup_insn].
  replace (l =? CF_BPF_ASM_FALLTHROUGH) with false by lia.
  destruct (bad_label l) eqn:Eb; [by rewrite no_bad|]. rewrite labels_ok by done.
  destruct (where_ l) as [p|] eqn:Ew; cbn [default from_option id mbind option_bind]; [|done].
  specialize (where_nonneg l p Ew).
  replace (p <? 0) with false by lia. cbn [orb].
  destruct (p - (i + 1) <? 0) eqn:E1, (255 <? p - (i + 1)) eqn:E2; cbn [orb]; by repeat case_match; try lia.
Qed.

Lemma offset_u8 i l d : offset_to where_ i l = Some d -> u8 d = d.
Proof.
  unfold offset_to. destruct (_ =? _); [by intros [= <-]|].
  destruct (where_ l); cbn [mbind option_bind]; [|done]. destruct (_ && _) eqn:E; [|done]. intros [= <-].
  unfold u8. change (2 ^ 8) with 256. rewrite Z.mod_small; lia.
Qed.

Lemma alter_mid {A} (f : A -> A) l x l' : alter f (length l) (l ++ x :: l') = l ++ f x :: l'.
Proof. induction l as [|y l IH]; [done|]. change (y :: alter f (length l) (l ++ x :: l') = y :: l ++ f x :: l'). by rewrite IH. Qed.

(** One side resolved. *)
Lemma resolve_side is_jt l fs pre x rest :
  resolve labels (side (zlen pre) is_jt l ++ fs) (pre ++ x :: rest) =
  match offset_to where_ (zlen pre) l with
  | Some d => resolve labels fs
      (pre ++ (if l =? CF_BPF_ASM_FALLTHROUGH then x else set_jump is_jt d x) :: rest)
  | None => (-1, pre ++ x :: rest)
  end.
Proof.
  unfold side. destruct (l =? CF_BPF_ASM_FALLTHROUGH) eqn:El.
  { unfold offset_to. by rewrite El. }
  cbn [app resolve fixup_is_jt fixup_insn]. rewrite delta_offset by lia.
  destruct (offset_to where_ (zlen pre) l); [|done]. by rewrite Nat2Z.id, alter_mid.
Qed.

Lemma resolve_link ops : forall pre,
  let '(rc, prog) := resolve labels (all_fixups (zlen pre) ops) (pre ++ raw ops) in
  match link where_ (zlen pre) ops with
  | Some p => rc = 0 /\ prog = pre ++ p
  | None => rc = -1
  end.
Proof.
  induction ops as [|o ops IH]; intros pre; [done|].
  assert (forall x, zlen pre + 1 = zlen (pre ++ [x : sock_filter])) as Hlen by (intros x; rewrite length_app; simpl; lia).
  assert (forall x (l : list sock_filter), pre ++ x :: l = (pre ++ [x]) ++ l) as Hsplit by (intros; by rewrite <- app_assoc).
  destruct o as [l|c v|c v t f]; cbn [all_fixups op_fixups op_size raw foldr op_insn link app].
  - rewrite Z.add_0_r. apply IH.
  - fold (raw ops). set (x := {| code := c; jt := 0; jf := 0; k := v |}). rewrite Hsplit, (Hlen x).
    specialize (IH (pre ++ [x])). destruct (resolve _ _ _) as [rc prog].
    destruct (link where_ _ ops) as [p|]; cbn [mbind option_bind]; [|done].
    by rewrite (Hsplit x p).
  - fold (raw ops). rewrite <- app_assoc, resolve_side.
    destruct (offset_to where_ (zlen pre) t) as [dt|] eqn:Et; cbn [mbind option_bind]; [|done].
    rewrite resolve_side. destruct (offset_to where_ (zlen pre) f) as [df|] eqn:Ef; cbn [mbind option_bind]; [|done].
    pose proof (offset_u8 _ _ _ Et) as Hut. pose proof (offset_u8 _ _ _ Ef) as Huf.
    match goal with |- context [pre ++ ?y :: raw ops] => assert (y = {| code := c; jt := dt; jf := df; k := v |}) as -> end.
    { unfold offset_to in Et, Ef. destruct (t =? _), (f =? _); cbn [set_jump code jt jf k];
        rewrite ?Hut, ?Huf; congruence. }
    set (x := {| code := c; jt := dt; jf := df; k := v |}). rewrite Hsplit, (Hlen x).
    specialize (IH (pre ++ [x])). destruct (resolve _ _ _) as [rc prog].
    destruct (link where_ _ ops) as [p|]; cbn [mbind option_bind]; [|done].
    by rewrite (Hsplit x p).
Qed.
End Linking.

Lemma place_bad l ops : forall i, forallb label_ok ops = true -> bad_label l = true -> place l i ops = None.
Proof.
  induction ops as [|o ops IH]; intros i Hok Hb; [done|]. cbn [forallb place] in *. apply andb_prop in Hok as [Ho Hok].
  rewrite IH by done. destruct o as [l'|c v|c v t f]; try done. destruct (l' =? l) eqn:E; [|done].
  assert (l' = l) as -> by lia. cbn [label_ok] in Ho. by rewrite Hb in Ho.
Qed.

Lemma place_nonneg l ops : forall i p, 0 <= i -> place l i ops = Some p -> 0 <= p.
Proof.
  induction ops as [|o ops IH]; intros i p Hi; cbn [place]; [done|].
  destruct (place l (i + op_size o) ops) as [q|] eqn:E.
  { intros [= <-]. eapply IH; [|exact E]. destruct o; cbn [op_size]; lia. }
  destruct o as [l'|c v|c v t f]; try done. destruct (l' =? l); [|done]. by intros [= <-].
Qed.

(** The assembler gives the program of the reference, and refuses exactly what
    it refuses: a label out of range, unplaced, behind its jump or more than
    255 instructions ahead, or too many instructions or jumps. *)
Lemma finish_assembles ops :
  let '(rc, a) := bpf_asm_finish (asm_run ops bpf_asm_init) in
  match assemble ops with
  | Some prog => rc = 0 /\ insns a = prog
  | None => rc = -1
  end.
Proof.
  unfold assemble, bpf_asm_finish. pose proof (run_emitted ops) as He.
  destruct (fits_asm ops) eqn:Ef; [|by rewrite He].
  destruct He as (-> & -> & -> & _ & Hp). unfold fits_asm in Ef.
  pose proof (resolve_link (label_pos (asm_run ops bpf_asm_init)) (fun l => place l 0 ops) Hp) as H.
  specialize (H (fun l Hb => place_bad l ops 0 ltac:(lia) Hb) (fun l p Hpl => place_nonneg l ops 0 p ltac:(lia) Hpl) ops []).
  cbn [length app] in H. change (Z.of_nat 0) with 0 in H.
  destruct (resolve _ _ _) as [rc prog]. by destruct (link _ 0 ops).
Qed.
