(* ===== verification/BpfFilter.v ===== *)
(** * BpfFilter: the kernel filters of the two sources
    ([sources/cloudflow-source-dhcp/src/dhcp_bpf.c],
    [sources/cloudflow-source-dns/src/dns_bpf.c])

    Each filter is assembled with [Bpf], and on any machine with the laws of
    [bpf_machine] accepts exactly the frames a predicate on their bytes
    describes. *)

From S2P Require Import Prelude Bpf.

(** ** The filters *)

Definition ETH_P_IP : Z := 0x0800.
Definition ETH_P_8021Q : Z := 0x8100.
Definition ETH_P_IPV6 : Z := 0x86DD.

Abbreviation ld_ethertype off := (bpf_asm_stmt (BPF_LD .| BPF_H .| BPF_ABS) off).
Abbreviation jeq v t f := (bpf_asm_jump (BPF_JMP .| BPF_JEQ .| BPF_K) v t f).
Abbreviation ret v := (bpf_asm_stmt (BPF_RET .| BPF_K) v).

(** The copy to [out]: [None] and -1 when the filter does not fit. *)
Definition copy_out (a : bpf_asm_t) (max : Z) : Z * option (list sock_filter) :=
  let '(rc, a) := bpf_asm_finish a in
  if negb (rc =? 0) then (-1, None)
  else if max <? zlen (insns a) then (-1, None)
  else (zlen (insns a), Some (insns a)).

Definition BPF_LBL_VLAN : Z := 0.
Definition BPF_LBL_IP4_14 : Z := 1.
Definition BPF_LBL_IP6_14 : Z := 2.
Definition BPF_LBL_IP4_18 : Z := 3.
Definition BPF_LBL_IP6_18 : Z := 4.
Definition BPF_LBL_ACCEPT : Z := 5.
Definition BPF_LBL_DROP : Z := 6.
Definition DHCPV4_PORT_A : Z := 67.
Definition DHCPV4_PORT_B : Z := 68.
Definition DHCPV6_PORT_A : Z := 546.
Definition DHCPV6_PORT_B : Z := 547.

Definition build_dhcp_bpf_filter (max : Z) : Z * option (list sock_filter) :=
  let a := bpf_asm_init in
  let a := ld_ethertype 12 a in
  let a := jeq ETH_P_8021Q BPF_LBL_VLAN CF_BPF_ASM_FALLTHROUGH a in
  let a := jeq ETH_P_IP BPF_LBL_IP4_14 CF_BPF_ASM_FALLTHROUGH a in
  let a := jeq ETH_P_IPV6 BPF_LBL_IP6_14 BPF_LBL_DROP a in
  let a := bpf_asm_label BPF_LBL_VLAN a in
  let a := ld_ethertype 16 a in
  let a := jeq ETH_P_IP BPF_LBL_IP4_18 CF_BPF_ASM_FALLTHROUGH a in
  let a := jeq ETH_P_IPV6 BPF_LBL_IP6_18 BPF_LBL_DROP a in
  let a := bpf_asm_label BPF_LBL_IP4_14 a in
  let a := bpf_asm_ipv4_udp_ports_branch 14 DHCPV4_PORT_A DHCPV4_PORT_B BPF_LBL_ACCEPT BPF_LBL_DROP a in
  let a := bpf_asm_label BPF_LBL_IP6_14 a in
  let a := bpf_asm_ipv6_udp_ports_branch 14 DHCPV6_PORT_A DHCPV6_PORT_B BPF_LBL_ACCEPT BPF_LBL_DROP a in
  let a := bpf_asm_label BPF_LBL_IP4_18 a in
  let a := bpf_asm_ipv4_udp_ports_branch 18 DHCPV4_PORT_A DHCPV4_PORT_B BPF_LBL_ACCEPT BPF_LBL_DROP a in
  let a := bpf_asm_label BPF_LBL_IP6_18 a in
  let a := bpf_asm_ipv6_udp_ports_branch 18 DHCPV6_PORT_A DHCPV6_PORT_B BPF_LBL_ACCEPT BPF_LBL_DROP a in
  let a := bpf_asm_label BPF_LBL_ACCEPT a in
  let a := ret (u32 (-1)) a in
  let a := bpf_asm_label BPF_LBL_DROP a in
  let a := ret 0 a in
  copy_out a max.

Definition DNS_PORT : Z := 53.
Definition DNS_LBL_VLAN : Z := 0.
Definition DNS_LBL_IP4_14 : Z := 1.
Definition DNS_LBL_TCP4_14 : Z := 2.
Definition DNS_LBL_IP6_14 : Z := 3.
Definition DNS_LBL_TCP6_14 : Z := 4.
Definition DNS_LBL_IP4_18 : Z := 5.
Definition DNS_LBL_TCP4_18 : Z := 6.
Definition DNS_LBL_IP6_18 : Z := 7.
Definition DNS_LBL_TCP6_18 : Z := 8.
Definition DNS_LBL_ACCEPT : Z := 9.
Definition DNS_LBL_DROP : Z := 10.

Definition build_dns_bpf_filter (max : Z) : Z * option (list sock_filter) :=
  let a := bpf_asm_init in
  let a := ld_ethertype 12 a in
  let a := jeq ETH_P_8021Q DNS_LBL_VLAN CF_BPF_ASM_FALLTHROUGH a in
  let a := jeq ETH_P_IP DNS_LBL_IP4_14 CF_BPF_ASM_FALLTHROUGH a in
  let a := jeq ETH_P_IPV6 DNS_LBL_IP6_14 DNS_LBL_DROP a in
  let a := bpf_asm_label DNS_LBL_VLAN a in
  let a := ld_ethertype 16 a in
  let a := jeq ETH_P_IP DNS_LBL_IP4_18 CF_BPF_ASM_FALLTHROUGH a in
  let a := jeq ETH_P_IPV6 DNS_LBL_IP6_18 DNS_LBL_DROP a in
  let a := bpf_asm_label DNS_LBL_IP4_14 a in
  let a := bpf_asm_ipv4_udp_ports_branch 14 DNS_PORT DNS_PORT DNS_LBL_ACCEPT DNS_LBL_TCP4_14 a in
  let a := bpf_asm_label DNS_LBL_TCP4_14 a in
  let a := bpf_asm_ipv4_tcp_ports_branch 14 DNS_PORT DNS_PORT DNS_LBL_ACCEPT DNS_LBL_DROP a in
  let a := bpf_asm_label DNS_LBL_IP6_14 a in
  let a := bpf_asm_ipv6_udp_ports_branch 14 DNS_PORT DNS_PORT DNS_LBL_ACCEPT DNS_LBL_TCP6_14 a in
  let a := bpf_asm_label DNS_LBL_TCP6_14 a in
  let a := bpf_asm_ipv6_tcp_ports_branch 14 DNS_PORT DNS_PORT DNS_LBL_ACCEPT DNS_LBL_DROP a in
  let a := bpf_asm_label DNS_LBL_IP4_18 a in
  let a := bpf_asm_ipv4_udp_ports_branch 18 DNS_PORT DNS_PORT DNS_LBL_ACCEPT DNS_LBL_TCP4_18 a in
  let a := bpf_asm_label DNS_LBL_TCP4_18 a in
  let a := bpf_asm_ipv4_tcp_ports_branch 18 DNS_PORT DNS_PORT DNS_LBL_ACCEPT DNS_LBL_DROP a in
  let a := bpf_asm_label DNS_LBL_IP6_18 a in
  let a := bpf_asm_ipv6_udp_ports_branch 18 DNS_PORT DNS_PORT DNS_LBL_ACCEPT DNS_LBL_TCP6_18 a in
  let a := bpf_asm_label DNS_LBL_TCP6_18 a in
  let a := bpf_asm_ipv6_tcp_ports_branch 18 DNS_PORT DNS_PORT DNS_LBL_ACCEPT DNS_LBL_DROP a in
  let a := bpf_asm_label DNS_LBL_ACCEPT a in
  let a := ret (u32 (-1)) a in
  let a := bpf_asm_label DNS_LBL_DROP a in
  let a := ret 0 a in
  copy_out a max.

(** The length for the caller, and the filter where it asked for it. *)
Definition build_dns_bpf_filter_config (max : Z) : Z * option (list sock_filter * Z) :=
  match build_dns_bpf_filter max with
  | (n, Some prog) => if n <? 0 then (-1, None) else (n, Some (prog, u16 n))
  | (_, None) => (-1, None)
  end.

(** ** What they should accept *)

Section Predicates.
Variables (f : list Z) (p1 p2 : Z).

Definition is_port (p : Z) : bool := (p =? p1) || (p =? p2).

(** The ports at [off]; [None] past the end of the frame. *)
Definition ports_match (off : Z) : option bool :=
  src ← load16 f off;
  if is_port src then Some true else is_port <$> load16 f (off + 2).

Definition ipv4_match (protocol base : Z) : option bool :=
  pr ← load8 f (base + 9);
  if negb (pr =? protocol) then Some false
  else
    frag ← load16 f (base + 6);
    if negb (Z.land frag 0x1fff =? 0) then Some false
    else ihl ← load8 f base; ports_match (base + 4 * Z.land ihl 15).

Definition ipv6_match (protocol base : Z) : option bool :=
  nh ← load8 f (base + 6);
  if negb (nh =? protocol) then Some false else ports_match (base + 40).
End Predicates.

(** By ethertype, past one 802.1Q tag. *)
Definition by_ethertype (f : list Z) (ip4 ip6 : Z -> bool) : bool :=
  match load16 f 12 with
  | None => false
  | Some et =>
      if et =? ETH_P_8021Q then
        match load16 f 16 with
        | None => false
        | Some et => if et =? ETH_P_IP then ip4 18 else if et =? ETH_P_IPV6 then ip6 18 else false
        end
      else if et =? ETH_P_IP then ip4 14 else if et =? ETH_P_IPV6 then ip6 14 else false
  end.

Definition matches (m : option bool) : bool := default false m.

Definition dhcp_frame (f : list Z) : bool :=
  by_ethertype f (fun base => matches (ipv4_match f 67 68 IPPROTO_UDP base))
                 (fun base => matches (ipv6_match f 546 547 IPPROTO_UDP base)).
Definition dns_frame (f : list Z) : bool :=
  by_ethertype f
    (fun base => matches (ipv4_match f 53 53 IPPROTO_UDP base) || matches (ipv4_match f 53 53 IPPROTO_TCP base))
    (fun base => matches (ipv6_match f 53 53 IPPROTO_UDP base) || matches (ipv6_match f 53 53 IPPROTO_TCP base)).

Definition verdict (accept : bool) : Z := if accept then 2 ^ 32 - 1 else 0.

(** ** Running a filter *)

Section Machine.
Variable run : list sock_filter -> list Z -> nat -> Z -> Z -> Z.
Hypothesis Hrun : bpf_machine run.
Variables (prog : list sock_filter) (f : list Z).

(** The instructions [l] are at [pc]. *)
Definition code_at (pc : nat) (l : list sock_filter) : Prop := forall i x, l !! i = Some x -> prog !! (pc + i)%nat = Some x.

Lemma code_at_take pc l : take (length l) (drop pc prog) = l -> code_at pc l.
Proof.
  intros E i x Hx. rewrite <- E in Hx. apply lookup_take_Some in Hx as [Hx _]. by rewrite lookup_drop in Hx.
Qed.

(** The offset from [pc] to [target]. *)
Definition rel (pc target : nat) : Z := Z.of_nat target - Z.of_nat pc - 1.

Lemma jump_rel pc target : (pc < target)%nat -> jump_to pc (rel pc target) = target.
Proof. unfold jump_to, rel. lia. Qed.

Lemma jump_0 pc : jump_to pc 0 = S pc.
Proof. unfold jump_to. lia. Qed.

Definition ins c v : sock_filter := {| code := c; jt := 0; jf := 0; k := v |}.
Definition jump c v t f : sock_filter := {| code := c; jt := t; jf := f; k := v |}.
Abbreviation JEQ := (BPF_JMP .| BPF_JEQ .| BPF_K).

Section Ports.
Variables (p1 p2 : Z) (acc : nat).

Definition ports_code (pc : nat) (ind : Z) (next : nat) : list sock_filter :=
  [ins (BPF_LD .| BPF_H .| BPF_IND) ind; jump JEQ p1 (rel (pc + 1) acc) 0;
   jump JEQ p2 (rel (pc + 2) acc) (rel (pc + 2) next)].

Lemma ports_run pc ind next A X : code_at pc (ports_code pc ind next) -> (pc + 2 < next)%nat -> (pc + 2 < acc)%nat ->
  run prog f pc A X =
  match load16 f (u32 (X + ind)) with
  | None => 0
  | Some v => if is_port p1 p2 v then run prog f acc v X else run prog f next v X
  end.
Proof.
  intros Hc Hn Ha. pose proof (Hc 0%nat _ eq_refl) as H0. pose proof (Hc 1%nat _ eq_refl) as H1.
  pose proof (Hc 2%nat _ eq_refl) as H2. rewrite Nat.add_0_r in H0.
  erewrite (bm_ld_h_ind _ Hrun) by exact H0. destruct (load16 f _) as [v|]; [|done].
  replace (S pc) with (pc + 1)%nat by lia. erewrite (bm_jeq _ Hrun) by exact H1.
  unfold is_port. destruct (v =? p1); cbn [orb]; [rewrite jump_rel by lia; done|]. rewrite jump_0.
  replace (S (pc + 1)) with (pc + 2)%nat by lia. erewrite (bm_jeq _ Hrun) by exact H2.
  destruct (v =? p2); by rewrite jump_rel by lia.
Qed.

(** The accepting and the mismatching exits, whatever the registers. *)
Variables (mis : nat) (other : Z).
Hypothesis accepts : forall A X, run prog f acc A X = 2 ^ 32 - 1.
Hypothesis mismatches : forall A X, run prog f mis A X = other.

Definition outcome (m : option bool) : Z :=
  match m with None => 0 | Some true => 2 ^ 32 - 1 | Some false => other end.

Lemma both_ports_run pc src A X base : code_at pc (ports_code pc src (pc + 3) ++ ports_code (pc + 3) (src + 2) mis) ->
  (pc + 5 < mis)%nat -> (pc + 5 < acc)%nat -> u32 (X + src) = base -> u32 (X + (src + 2)) = base + 2 ->
  run prog f pc A X = outcome (ports_match f p1 p2 base).
Proof.
  intros Hc Hm Ha Hb Hb2. rewrite (ports_run pc src (pc + 3)); [|by intros i x Hx; apply Hc, lookup_app_l_Some|lia..].
  unfold ports_match. rewrite Hb. destruct (load16 f base) as [v|]; cbn [mbind option_bind]; [|done].
  destruct (is_port p1 p2 v); [apply accepts|].
  rewrite (ports_run (pc + 3) (src + 2) mis); [| |lia..].
  2: { intros i x Hx. rewrite <- Nat.add_assoc. apply Hc. exact Hx. }
  rewrite Hb2. destruct (load16 f (base + 2)) as [d|]; cbn [fmap option_fmap option_map]; [|done].
  destruct (is_port p1 p2 d); [apply accepts|apply mismatches].
Qed.

Definition ipv4_code (pc : nat) (protocol base : Z) : list sock_filter :=
  [ins (BPF_LD .| BPF_B .| BPF_ABS) (base + 9); jump JEQ protocol 0 (rel (pc + 1) mis);
   ins (BPF_LD .| BPF_H .| BPF_ABS) (base + 6);
   jump (BPF_JMP .| BPF_JSET .| BPF_K) 0x1fff (rel (pc + 3) mis) 0;
   ins (BPF_LDX .| BPF_B .| BPF_MSH) base] ++
  ports_code (pc + 5) base (pc + 8) ++ ports_code (pc + 8) (base + 2) mis.

Lemma ipv4_run pc protocol base A X : code_at pc (ipv4_code pc protocol base) ->
  (pc + 10 < mis)%nat -> (pc + 10 < acc)%nat -> 0 <= base < 256 ->
  run prog f pc A X = outcome (ipv4_match f p1 p2 protocol base).
Proof.
  intros Hc Hm Ha Hb. unfold ipv4_match.
  pose proof (Hc 0%nat _ eq_refl) as H0. pose proof (Hc 1%nat _ eq_refl) as H1.
  pose proof (Hc 2%nat _ eq_refl) as H2. pose proof (Hc 3%nat _ eq_refl) as H3.
  pose proof (Hc 4%nat _ eq_refl) as H4. rewrite Nat.add_0_r in H0.
  erewrite (bm_ld_b_abs _ Hrun) by exact H0. destruct (load8 f (base + 9)) as [pr|]; cbn [mbind option_bind]; [|done].
  replace (S pc) with (pc + 1)%nat by lia. erewrite (bm_jeq _ Hrun) by exact H1.
  destruct (pr =? protocol); cbn [negb]; [|rewrite jump_rel by lia; apply mismatches]. rewrite jump_0.
  replace (S (pc + 1)) with (pc + 2)%nat by lia. erewrite (bm_ld_h_abs _ Hrun) by exact H2.
  destruct (load16 f (base + 6)) as [frag|]; cbn [mbind option_bind]; [|done].
  replace (S (pc + 2)) with (pc + 3)%nat by lia. erewrite (bm_jset _ Hrun) by exact H3.
  destruct (Z.land frag 0x1fff =? 0); cbn [negb]; [|rewrite jump_rel by lia; apply mismatches]. rewrite jump_0.
  replace (S (pc + 3)) with (pc + 4)%nat by lia. erewrite (bm_ldx_msh _ Hrun) by exact H4.
  destruct (load8 f base) as [v|]; cbn [mbind option_bind]; [|done].
  assert (0 <= Z.land v 15 < 16) as Hv.
  { change 15 with (Z.ones 4). rewrite Z.land_ones by lia. apply Z.mod_pos_bound. lia. }
  replace (S (pc + 4)) with (pc + 5)%nat by lia. apply both_ports_run with (src := base); [|lia|lia|unfold u32; change (2 ^ 32) with 4294967296; lia..].
  intros i x Hx. rewrite <- Nat.add_assoc. apply Hc. unfold ipv4_code.
  replace (pc + 8)%nat with (pc + 5 + 3)%nat by lia. exact Hx.
Qed.

Definition ipv6_code (pc : nat) (protocol base : Z) : list sock_filter :=
  [ins (BPF_LD .| BPF_B .| BPF_ABS) (base + 6); jump JEQ protocol 0 (rel (pc + 1) mis);
   ins (BPF_LDX .| BPF_IMM) (base + 40)] ++
  ports_code (pc + 3) 0 (pc + 6) ++ ports_code (pc + 6) 2 mis.

Lemma ipv6_run pc protocol base A X : code_at pc (ipv6_code pc protocol base) ->
  (pc + 8 < mis)%nat -> (pc + 8 < acc)%nat -> 0 <= base < 256 ->
  run prog f pc A X = outcome (ipv6_match f p1 p2 protocol base).
Proof.
  intros Hc Hm Ha Hb. unfold ipv6_match.
  pose proof (Hc 0%nat _ eq_refl) as H0. pose proof (Hc 1%nat _ eq_refl) as H1.
  pose proof (Hc 2%nat _ eq_refl) as H2. rewrite Nat.add_0_r in H0.
  erewrite (bm_ld_b_abs _ Hrun) by exact H0. destruct (load8 f (base + 6)) as [pr|]; cbn [mbind option_bind]; [|done].
  replace (S pc) with (pc + 1)%nat by lia. erewrite (bm_jeq _ Hrun) by exact H1.
  destruct (pr =? protocol); cbn [negb]; [|rewrite jump_rel by lia; apply mismatches]. rewrite jump_0.
  replace (S (pc + 1)) with (pc + 2)%nat by lia. erewrite (bm_ldx_imm _ Hrun) by exact H2.
  replace (S (pc + 2)) with (pc + 3)%nat by lia. apply both_ports_run with (src := 0); [|lia|lia|unfold u32; change (2 ^ 32) with 4294967296; lia..].
  intros i x Hx. rewrite <- Nat.add_assoc. apply Hc. unfold ipv6_code.
  replace (pc + 6)%nat with (pc + 3 + 3)%nat by lia. exact Hx.
Qed.
End Ports.
End Machine.

(** ** The assembled filters *)

Definition dhcp_prog : list sock_filter := default [] (snd (build_dhcp_bpf_filter 96)).
Definition dns_prog : list sock_filter := default [] (snd (build_dns_bpf_filter 96)).

Lemma dhcp_built : build_dhcp_bpf_filter CF_BPF_ASM_MAX_INSNS = (49, Some dhcp_prog).
Proof. vm_compute. reflexivity. Qed.
Lemma dns_built : build_dns_bpf_filter_config CF_BPF_ASM_MAX_INSNS = (89, Some (dns_prog, 89)).
Proof. vm_compute. reflexivity. Qed.

Section Exact.
Variable run : list sock_filter -> list Z -> nat -> Z -> Z -> Z.
Hypothesis Hrun : bpf_machine run.
Variable f : list Z.

(** The dispatch on the ethertype: two loads and five compares. *)
Definition dispatch_code (ip4_14 ip6_14 ip4_18 ip6_18 drop : nat) : list sock_filter :=
  [ins (BPF_LD .| BPF_H .| BPF_ABS) 12; jump (BPF_JMP .| BPF_JEQ .| BPF_K) ETH_P_8021Q 2 0;
   jump (BPF_JMP .| BPF_JEQ .| BPF_K) ETH_P_IP (rel 2 ip4_14) 0;
   jump (BPF_JMP .| BPF_JEQ .| BPF_K) ETH_P_IPV6 (rel 3 ip6_14) (rel 3 drop);
   ins (BPF_LD .| BPF_H .| BPF_ABS) 16; jump (BPF_JMP .| BPF_JEQ .| BPF_K) ETH_P_IP (rel 5 ip4_18) 0;
   jump (BPF_JMP .| BPF_JEQ .| BPF_K) ETH_P_IPV6 (rel 6 ip6_18) (rel 6 drop)].

Lemma dispatch_run prog a b c d drop (ip4 ip6 : Z -> bool) :
  code_at prog 0 (dispatch_code a b c d drop) ->
  (6 < a)%nat -> (6 < b)%nat -> (6 < c)%nat -> (6 < d)%nat -> (6 < drop)%nat ->
  (forall A X, run prog f drop A X = 0) ->
  (forall A X, run prog f a A X = verdict (ip4 14)) -> (forall A X, run prog f b A X = verdict (ip6 14)) ->
  (forall A X, run prog f c A X = verdict (ip4 18)) -> (forall A X, run prog f d A X = verdict (ip6 18)) ->
  run prog f 0 0 0 = verdict (by_ethertype f ip4 ip6).
Proof.
  intros Hc La Lb Lc Ld Le He Ha Hb Hcc Hd. unfold by_ethertype.
  erewrite (bm_ld_h_abs _ Hrun) by exact (Hc 0%nat _ eq_refl). destruct (load16 f 12) as [et|]; [|done].
  erewrite (bm_jeq _ Hrun) by exact (Hc 1%nat _ eq_refl). destruct (et =? ETH_P_8021Q).
  - change (jump_to 1 2) with 4%nat.
    erewrite (bm_ld_h_abs _ Hrun) by exact (Hc 4%nat _ eq_refl). destruct (load16 f 16) as [et'|]; [|done].
    erewrite (bm_jeq _ Hrun) by exact (Hc 5%nat _ eq_refl). destruct (et' =? ETH_P_IP); [rewrite jump_rel by lia; apply Hcc|].
    rewrite jump_0. erewrite (bm_jeq _ Hrun) by exact (Hc 6%nat _ eq_refl).
    destruct (et' =? ETH_P_IPV6); rewrite jump_rel by lia; [apply Hd|apply He].
  - rewrite jump_0. erewrite (bm_jeq _ Hrun) by exact (Hc 2%nat _ eq_refl).
    destruct (et =? ETH_P_IP); [rewrite jump_rel by lia; apply Ha|].
    rewrite jump_0. erewrite (bm_jeq _ Hrun) by exact (Hc 3%nat _ eq_refl).
    destruct (et =? ETH_P_IPV6); rewrite jump_rel by lia; [apply Hb|apply He].
Qed.

Lemma ret_run prog pc v A X : code_at prog pc [ins (BPF_RET .| BPF_K) v] -> run prog f pc A X = v.
Proof. intros Hc. pose proof (Hc 0%nat _ eq_refl) as H0. rewrite Nat.add_0_r in H0. by erewrite (bm_ret _ Hrun) by exact H0. Qed.

Lemma outcome_drop m : outcome 0 m = verdict (matches m).
Proof. by destruct m as [[]|]. Qed.

(** Trying one protocol, then the other: past a failed load both fail. *)
Lemma ipv4_chain p1 p2 pr1 pr2 base : pr1 <> pr2 ->
  outcome (verdict (matches (ipv4_match f p1 p2 pr2 base))) (ipv4_match f p1 p2 pr1 base) =
  verdict (matches (ipv4_match f p1 p2 pr1 base) || matches (ipv4_match f p1 p2 pr2 base)).
Proof.
  intros Hne. unfold ipv4_match. destruct (load8 f (base + 9)) as [pr|]; cbn [mbind option_bind]; [|done].
  destruct (pr =? pr1) eqn:E1; cbn [negb]; [|done]. replace (pr =? pr2) with false by lia. cbn [negb matches default from_option id].
  rewrite orb_false_r. match goal with |- outcome _ ?m = _ => by destruct m as [[]|] end.
Qed.

Lemma ipv6_chain p1 p2 pr1 pr2 base : pr1 <> pr2 ->
  outcome (verdict (matches (ipv6_match f p1 p2 pr2 base))) (ipv6_match f p1 p2 pr1 base) =
  verdict (matches (ipv6_match f p1 p2 pr1 base) || matches (ipv6_match f p1 p2 pr2 base)).
Proof.
  intros Hne. unfold ipv6_match. destruct (load8 f (base + 6)) as [pr|]; cbn [mbind option_bind]; [|done].
  destruct (pr =? pr1) eqn:E1; cbn [negb]; [|done]. replace (pr =? pr2) with false by lia. cbn [negb matches default from_option id].
  rewrite orb_false_r. match goal with |- outcome _ ?m = _ => by destruct m as [[]|] end.
Qed.

Ltac here := apply code_at_take; vm_compute; reflexivity.

Lemma dhcp_run : run dhcp_prog f 0 0 0 = verdict (dhcp_frame f).
Proof.
  assert (forall A X, run dhcp_prog f 47 A X = 2 ^ 32 - 1) as Hacc by (intros; apply ret_run; here).
  assert (forall A X, run dhcp_prog f 48 A X = 0) as Hdrop by (intros; apply ret_run; here).
  apply (dispatch_run dhcp_prog 7 18 27 38 48); try lia; try done; try here; intros A X; rewrite <- outcome_drop.
  - eapply (ipv4_run run Hrun dhcp_prog f 67 68 47 48); [done|done|here|lia|lia|lia].
  - eapply (ipv6_run run Hrun dhcp_prog f 546 547 47 48); [done|done|here|lia|lia|lia].
  - eapply (ipv4_run run Hrun dhcp_prog f 67 68 47 48); [done|done|here|lia|lia|lia].
  - eapply (ipv6_run run Hrun dhcp_prog f 546 547 47 48); [done|done|here|lia|lia|lia].
Qed.

Lemma dns_run : run dns_prog f 0 0 0 = verdict (dns_frame f).
Proof.
  assert (forall A X, run dns_prog f 87 A X = 2 ^ 32 - 1) as Hacc by (intros; apply ret_run; here).
  assert (forall A X, run dns_prog f 88 A X = 0) as Hdrop by (intros; apply ret_run; here).
  apply (dispatch_run dns_prog 7 29 47 69 88); try lia; try done; try here; intros A X.
  - rewrite <- ipv4_chain by done. eapply (ipv4_run run Hrun dns_prog f 53 53 87 18); [done| |here|lia|lia|lia].
    intros A' X'. rewrite <- outcome_drop. eapply (ipv4_run run Hrun dns_prog f 53 53 87 88); [done|done|here|lia|lia|lia].
  - rewrite <- ipv6_chain by done. eapply (ipv6_run run Hrun dns_prog f 53 53 87 38); [done| |here|lia|lia|lia].
    intros A' X'. rewrite <- outcome_drop. eapply (ipv6_run run Hrun dns_prog f 53 53 87 88); [done|done|here|lia|lia|lia].
  - rewrite <- ipv4_chain by done. eapply (ipv4_run run Hrun dns_prog f 53 53 87 58); [done| |here|lia|lia|lia].
    intros A' X'. rewrite <- outcome_drop. eapply (ipv4_run run Hrun dns_prog f 53 53 87 88); [done|done|here|lia|lia|lia].
  - rewrite <- ipv6_chain by done. eapply (ipv6_run run Hrun dns_prog f 53 53 87 78); [done| |here|lia|lia|lia].
    intros A' X'. rewrite <- outcome_drop. eapply (ipv6_run run Hrun dns_prog f 53 53 87 88); [done|done|here|lia|lia|lia].
Qed.
End Exact.

