(* ===== verification/BpfFilterProperties.v ===== *)
(** * BpfFilterProperties: the filters and the decoders behind them

    What the filters of [BpfFilter] accept, and that within their stated limits
    (one 802.1Q tag, no IPv6 extension header) every frame that [Decap] and the
    sources would decode to one of their ports passes.  The witnesses run the
    filters on a concrete machine. *)

From S2P Require Import Prelude Counters ParseUtil Observation DnsKey Bpf BpfSpec BpfFilter Decap.

(** ** Frames the sources would decode *)

Lemma rd_load8 f off v : rd f off = Ret v -> load8 f off = Some v.
Proof. unfold rd, load8. destruct (0 <=? off); [|done]. destruct (f !! _); [by intros [= <-]|done]. Qed.

Lemma load8_byte f off v : bytes_ok f -> load8 f off = Some v -> is_byte v.
Proof. intros Hok. unfold load8. destruct (0 <=? off); [|done]. by apply bytes_ok_lookup. Qed.

Lemma read_load16 f off v : bytes_ok f -> read_u16 f off = Ret v -> load16 f off = Some v.
Proof.
  intros Hok. unfold read_u16, load16. intros (a & Ha & H)%bind_Ret_inv. apply bind_Ret_inv in H as (b & Hb & H).
  apply rd_load8 in Ha, Hb. rewrite Ha, Hb. injection H as <-.
  f_equal. symmetry. apply swap16; by eapply load8_byte.
Qed.

(** One step back through a computation that returned. *)
Ltac back H :=
  lazymatch type of H with
  | mbind _ _ = Ret _ => let x := fresh "x" in let E := fresh "E" in
      apply bind_Ret_inv in H as (x & E & H); cbn beta iota zeta in H
  | (if ?b then _ else _) = Ret _ => let E := fresh "G" in destruct b eqn:E; [try discriminate H|try discriminate H]
  end.

Section Decoded.
Variable f : list Z.
Hypothesis Hok : bytes_ok f.

(** What a walk that found a transport header read. *)
Lemma walk_ipv4_read off w w' : walk_ipv4 f off w = Ret (CF_DECAP_OK, w') -> l4_present w' <> 0 ->
  exists vi fr pr, load8 f off = Some vi /\ load16 f (off + 6) = Some fr /\ Z.land fr 0x1fff = 0 /\
    load8 f (off + 9) = Some pr /\ next_header (w_l3 w') = pr /\ l4_offset w' = off + 4 * Z.land vi 15 /\
    ip_version (w_l3 w') = 4 /\ vlan_count (w_l3 w') = vlan_count (w_l3 w).
Proof.
  unfold walk_ipv4. intros H Hl4. repeat back H; injection H as <-; [done|].
  repeat match goal with
  | E : rd _ _ = Ret _ |- _ => apply rd_load8 in E
  | E : read_u16 _ _ = Ret _ |- _ => apply read_load16 in E; [|exact Hok]
  end.
  eexists _, _, _. split_and!; try eassumption; try reflexivity.
  - match goal with G : negb (Z.land _ 8191 =? 0) = false |- _ => clear - G end. lia.
  - cbn [set_l4 l4_offset]. lia.
Qed.

Lemma walk_ipv6_read off w w' nh : walk_ipv6 f off w = Ret (CF_DECAP_OK, w') ->
  load8 f (off + 6) = Some nh -> nh = IP_PROTO_UDP \/ nh = IP_PROTO_TCP ->
  l4_offset w' = off + 40 /\ next_header (w_l3 w') = nh /\ ip_version (w_l3 w') = 6 /\
  vlan_count (w_l3 w') = vlan_count (w_l3 w).
Proof.
  unfold walk_ipv6. intros H Hnh Hpr.
  repeat back H. match goal with E : rd f (off + 6) = Ret ?x |- _ => apply rd_load8 in E; assert (x = nh) as -> by congruence end.
  assert ((nh =? IPV6_PROTO_FRAGMENT) = false /\ ((nh =? IPV6_PROTO_HOPOPTS) || (nh =? IPV6_PROTO_ROUTING)
    || (nh =? IPV6_PROTO_DSTOPTS)) = false) as [N1 N2] by (by destruct Hpr as [-> | ->]).
  unfold IPV6_MAX_EXT_HEADERS in H. cbn [walk_ext] in H. rewrite N1, N2 in H. by injection H as <-.
Qed.

Lemma walk_ext_keeps n : forall off nh w rc w', walk_ext n f off nh w = Ret (rc, w') ->
  ip_version (w_l3 w') = ip_version (w_l3 w) /\ vlan_count (w_l3 w') = vlan_count (w_l3 w).
Proof.
  induction n as [|n IH]; intros off nh w rc w' H; cbn [walk_ext] in H; [by injection H as <- <-|].
  repeat back H; try (injection H as <- <-; done); by apply IH in H.
Qed.

Lemma walk_ipv6_keeps off w w' rc : walk_ipv6 f off w = Ret (rc, w') -> rc = CF_DECAP_OK ->
  ip_version (w_l3 w') = 6 /\ vlan_count (w_l3 w') = vlan_count (w_l3 w).
Proof.
  unfold walk_ipv6. intros H ->. repeat back H; try discriminate. by apply walk_ext_keeps in H.
Qed.

(** The walk of a frame within the limits: one 802.1Q tag, no extension header. *)
Definition one_tag (l : l3) : Prop :=
  vlan_count l = 0 \/ vlan_count l = 1 /\ load16 f 12 = Some ETH_P_8021Q.
Definition no_extension (l : l3) : Prop :=
  ip_version l = 6 -> load8 f (14 + 4 * vlan_count l + 6) = Some (next_header l).

Lemma vlan_loop_read n : forall et offset w r, vlan_loop n f et offset w = Ret r ->
  match r with
  | inl (rc, _) => rc = CF_DECAP_TRUNCATED
  | inr (et', offset', w') => exists m, offset' = offset + 4 * Z.of_nat m /\ (m <= n)%nat /\
      vlan_count (w_l3 w') = Nat.iter m (fun v => u8 (v + 1)) (vlan_count (w_l3 w)) /\
      l4_present w' = l4_present w /\ (m = 0%nat -> et' = et) /\
      (m = 1%nat -> is_vlan et = true /\ load16 f (offset + 2) = Some et')
  end.
Proof.
  induction n as [|n IH]; intros et offset w r H; cbn [vlan_loop] in H.
  { injection H as <-. exists 0%nat. split_and!; [lia|lia|done|done|done|done]. }
  back H. { injection H as <-. exists 0%nat. split_and!; [lia|lia|done|done|done|done]. }
  back H; [by injection H as <-|]. back H. back H. back H.
  apply IH in H. destruct r as [[rc w1]|[[et' offset'] w1]]; [done|].
  destruct H as (m & -> & Hm & Hv & Hp & H0 & H1). exists (S m). unfold VLAN_TAG_LEN. split_and!; [lia|lia| |done|done|].
  - rewrite Hv. clear. cbn [Nat.iter set_l3 w_l3 vlan_count set_vlans]. induction m as [|m IHm]; [done|].
    cbn [Nat.iter nat_rect] in *. by rewrite <- IHm.
  - intros Em. assert (m = 0%nat) as -> by lia. rewrite (H0 eq_refl). split; [by destruct (is_vlan et)|].
    by apply read_load16.
Qed.

(** Where the filter finds the IP header of such a frame, and what it reads. *)
Definition reads_as (w : cf_decap_walk_t) (base : Z) : Prop :=
  (forall ip4 ip6, by_ethertype f ip4 ip6 = if ip_version (w_l3 w) =? 4 then ip4 base else ip6 base) /\
  0 <= base < 256 /\
  if ip_version (w_l3 w) =? 4 then
    exists vi fr, load8 f base = Some vi /\ load16 f (base + 6) = Some fr /\ Z.land fr 0x1fff = 0 /\
      load8 f (base + 9) = Some (next_header (w_l3 w)) /\ l4_offset w = base + 4 * Z.land vi 15
  else ip_version (w_l3 w) = 6 /\ load8 f (base + 6) = Some (next_header (w_l3 w)) /\ l4_offset w = base + 40.

Lemma decap_walk_read w : decap_walk f = Ret (CF_DECAP_OK, w) -> l4_present w <> 0 ->
  one_tag (w_l3 w) -> no_extension (w_l3 w) ->
  next_header (w_l3 w) = IP_PROTO_UDP \/ next_header (w_l3 w) = IP_PROTO_TCP ->
  reads_as w (14 + 4 * vlan_count (w_l3 w)).
Proof.
  unfold decap_walk. intros H Hl4 Htag Hext Hpr. repeat back H.
  match goal with E : vlan_loop _ _ _ _ _ = Ret ?r, E' : read_u16 f 12 = Ret ?et |- _ =>
    apply vlan_loop_read in E as Hv; apply read_load16 in E'; [|exact Hok]; rename E' into Het; clear E;
    destruct r as [[rc w1]|[[et1 off1] w1]] end.
  { injection H as -> ->. done. }
  destruct Hv as (m & -> & Hm & Hv & Hp & H0 & H1). cbn [set_l3 w_l3 vlan_count set_macs walk_zero l3_zero] in Hv.
  assert (vlan_count (w_l3 w1) = Z.of_nat m) as Hcount.
  { rewrite Hv. destruct m as [|[|[|m]]]; [done|done|done|lia]. }
  destruct (is_vlan et1) eqn:Enovlan; [done|].
  assert (et1 <> ETH_P_8021Q) as Hne by (intros ->; done).
  (* the dispatch reads the inner ethertype *)
  assert (forall ip4 ip6, vlan_count (w_l3 w) = Z.of_nat m ->
    by_ethertype f ip4 ip6 = if et1 =? ETH_P_IP then ip4 (14 + 4 * vlan_count (w_l3 w)) else
      if et1 =? ETH_P_IPV6 then ip6 (14 + 4 * vlan_count (w_l3 w)) else false) as Hdisp.
  { intros ip4 ip6 Hc. unfold by_ethertype. rewrite Het, Hc. unfold one_tag in Htag. rewrite Hc in Htag.
    destruct m as [|[|m]].
    - rewrite (H0 eq_refl) in *. by replace (_ =? ETH_P_8021Q) with false by lia.
    - destruct (H1 eq_refl) as [_ Hin]. change (ETH_HDR_LEN + 2) with 16 in Hin. rewrite Hin.
      assert (x1 = ETH_P_8021Q) as -> by (destruct Htag as [?|[_ Hq]]; [lia|congruence]). done.
    - exfalso. destruct Htag as [?|[? _]]; lia. }
  set (w2 := set_l3 (set_ethertype et1) w1) in *.
  assert (vlan_count (w_l3 w2) = Z.of_nat m) as Hc2 by exact Hcount.
  destruct (et1 =? ETHERTYPE_IPV4) eqn:E4.
  - destruct (walk_ipv4_read _ _ _ H Hl4) as (vi & fr & pr & R1 & R2 & R3 & R4 & R5 & R6 & R7 & R8).
    rewrite Hc2 in R8. rewrite R8 in *. unfold reads_as. rewrite R7. cbn [Z.eqb Pos.eqb].
    split; [|split; [lia|exists vi, fr; rewrite R5; by split_and!]].
    intros ip4 ip6. rewrite (Hdisp ip4 ip6 eq_refl). change ETH_P_IP with ETHERTYPE_IPV4. by rewrite E4.
  - destruct (et1 =? ETHERTYPE_IPV6) eqn:E6; [|done].
    pose proof (walk_ipv6_keeps _ _ _ _ H eq_refl) as [Hver Hcw]. rewrite Hc2 in Hcw.
    specialize (Hext Hver). rewrite Hcw in *.
    replace (ETH_HDR_LEN + 4 * Z.of_nat m) with (14 + 4 * Z.of_nat m) in H by done.
    destruct (walk_ipv6_read _ _ _ _ H Hext Hpr) as (R1 & R2 & _ & _).
    unfold reads_as. rewrite Hver. cbn [Z.eqb Pos.eqb]. split; [|split; [lia|by split_and!]].
    intros ip4 ip6. rewrite (Hdisp ip4 ip6 eq_refl). change ETH_P_IP with ETHERTYPE_IPV4. rewrite E4.
    change ETH_P_IPV6 with ETHERTYPE_IPV6. by rewrite E6.
Qed.

Lemma ports_match_true p1 p2 off src dst : load16 f off = Some src -> load16 f (off + 2) = Some dst ->
  is_port p1 p2 src || is_port p1 p2 dst = true -> ports_match f p1 p2 off = Some true.
Proof.
  intros Hs Hd Hp. unfold ports_match. rewrite Hs. cbn [mbind option_bind].
  destruct (is_port p1 p2 src); [done|]. rewrite Hd. cbn [fmap option_fmap option_map]. by f_equal.
Qed.

(** The branch of the frame's version and protocol accepts its ports. *)
Lemma reads_match w base p1 p2 src dst : reads_as w base ->
  load16 f (l4_offset w) = Some src -> load16 f (l4_offset w + 2) = Some dst ->
  is_port p1 p2 src || is_port p1 p2 dst = true ->
  (if ip_version (w_l3 w) =? 4 then ipv4_match f p1 p2 (next_header (w_l3 w)) base
   else ipv6_match f p1 p2 (next_header (w_l3 w)) base) = Some true.
Proof.
  intros (_ & _ & Hr) Hs Hd Hp. destruct (_ =? 4).
  - destruct Hr as (vi & fr & H1 & H2 & H3 & H4 & H5). unfold ipv4_match. rewrite H4. cbn [mbind option_bind].
    rewrite Z.eqb_refl. cbn [negb]. rewrite H2. cbn [mbind option_bind]. rewrite H3. cbn [Z.eqb negb].
    rewrite H1. cbn [mbind option_bind]. rewrite H5 in *. by eapply ports_match_true.
  - destruct Hr as (_ & H1 & H2). unfold ipv6_match. rewrite H1. cbn [mbind option_bind].
    rewrite Z.eqb_refl. cbn [negb]. rewrite H2 in *. by eapply ports_match_true.
Qed.

Lemma udp_reads out : cf_decap_udp f = Ret (CF_DECAP_OK, out) -> one_tag (u_l3 out) -> no_extension (u_l3 out) ->
  exists w, w_l3 w = u_l3 out /\ next_header (w_l3 w) = IP_PROTO_UDP /\
    reads_as w (14 + 4 * vlan_count (w_l3 w)) /\
    load16 f (l4_offset w) = Some (u_src_port out) /\ load16 f (l4_offset w + 2) = Some (u_dst_port out).
Proof.
  unfold cf_decap_udp. intros H Htag Hext. apply bind_Ret_inv in H as ([rc w] & Hw & H).
  destruct (bool_decide (rc = CF_DECAP_OK)) eqn:Er; cbn [negb] in H; [|injection H as -> _; done].
  apply bool_decide_eq_true in Er. subst rc. destruct (_ || _) eqn:El; [done|].
  unfold parse_udp in H. repeat back H. injection H as <-. cbn [u_l3 copy_l3_udp u_src_port u_dst_port] in *.
  repeat match goal with E : read_u16 _ _ = Ret _ |- _ => apply read_load16 in E; [|exact Hok] end.
  exists w. split_and!; [done|lia| |done|done].
  apply decap_walk_read; [done|lia|done|done|left; unfold IP_PROTO_UDP in *; lia].
Qed.

Lemma tcp_reads out : cf_decap_tcp f = Ret (CF_DECAP_OK, out) -> one_tag (t_l3 out) -> no_extension (t_l3 out) ->
  exists w, w_l3 w = t_l3 out /\ next_header (w_l3 w) = IP_PROTO_TCP /\
    reads_as w (14 + 4 * vlan_count (w_l3 w)) /\
    load16 f (l4_offset w) = Some (t_src_port out) /\ load16 f (l4_offset w + 2) = Some (t_dst_port out).
Proof.
  unfold cf_decap_tcp. intros H Htag Hext. apply bind_Ret_inv in H as ([rc w] & Hw & H).
  destruct (bool_decide (rc = CF_DECAP_OK)) eqn:Er; cbn [negb] in H; [|injection H as -> _; done].
  apply bool_decide_eq_true in Er. subst rc. destruct (_ || _) eqn:El; [done|].
  unfold parse_tcp in H. repeat back H. injection H as <-. cbn [t_l3 copy_l3_tcp t_src_port t_dst_port] in *.
  repeat match goal with E : read_u16 _ _ = Ret _ |- _ => apply read_load16 in E; [|exact Hok] end.
  exists w. split_and!; [done|lia| |done|done].
  apply decap_walk_read; [done|lia|done|done|right; unfold IP_PROTO_TCP in *; lia].
Qed.

(** The ports of DHCP over the version of IP that carries it. *)
Definition dhcp_ports (version src dst : Z) : bool :=
  if version =? 4 then is_port 67 68 src || is_port 67 68 dst else is_port 546 547 src || is_port 546 547 dst.

Lemma dhcp_passes out : cf_decap_udp f = Ret (CF_DECAP_OK, out) -> one_tag (u_l3 out) -> no_extension (u_l3 out) ->
  dhcp_ports (ip_version (u_l3 out)) (u_src_port out) (u_dst_port out) = true -> dhcp_frame f = true.
Proof.
  intros H Htag Hext Hp. destruct (udp_reads out H Htag Hext) as (w & Ew & Hn & Hr & Hs & Hd).
  rewrite <- Ew in Hp. unfold dhcp_ports in Hp. unfold dhcp_frame. rewrite (proj1 Hr).
  destruct (ip_version (w_l3 w) =? 4) eqn:E.
  - pose proof (reads_match w _ 67 68 _ _ Hr Hs Hd Hp) as Hm. rewrite E, Hn in Hm.
    change IPPROTO_UDP with IP_PROTO_UDP. by rewrite Hm.
  - pose proof (reads_match w _ 546 547 _ _ Hr Hs Hd Hp) as Hm. rewrite E, Hn in Hm.
    change IPPROTO_UDP with IP_PROTO_UDP. by rewrite Hm.
Qed.

Lemma dns_passes w src dst : next_header (w_l3 w) = IP_PROTO_UDP \/ next_header (w_l3 w) = IP_PROTO_TCP ->
  reads_as w (14 + 4 * vlan_count (w_l3 w)) ->
  load16 f (l4_offset w) = Some src -> load16 f (l4_offset w + 2) = Some dst ->
  src = 53 \/ dst = 53 -> dns_frame f = true.
Proof.
  intros Hn Hr Hs Hd Hp. unfold dns_frame. rewrite (proj1 Hr).
  assert (is_port 53 53 src || is_port 53 53 dst = true) as Hp' by (unfold is_port; lia).
  pose proof (reads_match w _ 53 53 _ _ Hr Hs Hd Hp') as Hm.
  destruct (ip_version (w_l3 w) =? 4); destruct Hn as [Hn|Hn]; rewrite Hn in Hm;
    change IPPROTO_UDP with IP_PROTO_UDP; change IPPROTO_TCP with IP_PROTO_TCP; rewrite Hm;
    rewrite ?orb_true_r; done.
Qed.
End Decoded.

Lemma built_inj {A} (m n : Z) (x y : A) : (m, Some x) = (n, Some y) -> x = y.
Proof. congruence. Qed.

(** ** The properties *)

(** C25. The filters: both are assembled within the limits, to 49 and 89
    instructions, and on any machine with the documented laws each accepts a
    frame exactly when its predicate holds, and nothing of the others. *)
Theorem filters_exact run : bpf_machine run ->
  exists dhcp dns, build_dhcp_bpf_filter CF_BPF_ASM_MAX_INSNS = (49, Some dhcp) /\
    build_dns_bpf_filter_config CF_BPF_ASM_MAX_INSNS = (89, Some (dns, 89)) /\
    (forall f, run dhcp f 0%nat 0 0 = verdict (dhcp_frame f)) /\
    (forall f, run dns f 0%nat 0 0 = verdict (dns_frame f)).
Proof.
  intros Hrun. exists dhcp_prog, dns_prog. split; [exact dhcp_built|]. split; [exact dns_built|].
  split; intros f; [by apply dhcp_run|by apply dns_run].
Qed.

(** C26. No wanted frame is filtered out: a frame with at most one 802.1Q tag and
    no IPv6 extension header passes the DHCP filter when it decapsulates to a
    DHCP port of its version of IP, and the DNS filter when the DNS source
    decodes it, over UDP or TCP, with an endpoint on port 53. *)
Theorem filters_pass run dhcp dns n f : bpf_machine run -> bytes_ok f ->
  build_dhcp_bpf_filter CF_BPF_ASM_MAX_INSNS = (n, Some dhcp) ->
  build_dns_bpf_filter_config CF_BPF_ASM_MAX_INSNS = (zlen dns, Some (dns, zlen dns)) ->
  (forall out, cf_decap_udp f = Ret (CF_DECAP_OK, out) -> one_tag f (u_l3 out) -> no_extension f (u_l3 out) ->
     dhcp_ports (ip_version (u_l3 out)) (u_src_port out) (u_dst_port out) = true ->
     run dhcp f 0%nat 0 0 = 2 ^ 32 - 1) /\
  (forall st st' d, dns_decode_frame st f = Ret (Some d, st') -> one_tag f (d_l3 d) -> no_extension f (d_l3 d) ->
     d_src_port d = 53 \/ d_dst_port d = 53 -> run dns f 0%nat 0 0 = 2 ^ 32 - 1).
Proof.
  intros Hrun Hok Hdhcp Hdns.
  rewrite dhcp_built in Hdhcp. apply built_inj in Hdhcp as <-.
  rewrite dns_built in Hdns. apply built_inj in Hdns as [<- _]%pair_equal_spec.
  rewrite (dhcp_run run Hrun), (dns_run run Hrun). split.
  { intros out H1 H2 H3 H4. by rewrite (dhcp_passes f Hok out H1 H2 H3 H4). }
  intros st st' d H Htag Hext Hp. enough (dns_frame f = true) as -> by done.
  unfold dns_decode_frame in H. apply bind_Ret_inv in H as ([ru u] & Hu & H).
  destruct ru; try discriminate.
  - injection H as <- _. cbn [d_l3 d_src_port d_dst_port] in *.
    destruct (udp_reads f Hok u Hu Htag Hext) as (w & _ & Hn & Hr & Hs & Hd). by eapply dns_passes; [left| | |..].
  - apply bind_Ret_inv in H as ([rt t] & Ht & H). destruct rt; try discriminate.
    repeat back H. injection H as <- _. cbn [d_l3 d_src_port d_dst_port] in *.
    destruct (tcp_reads f Hok t Ht Htag Hext) as (w & _ & Hn & Hr & Hs & Hd). by eapply dns_passes; [right| | |..].
Qed.

(** C27. The assembler against the reference: for any sequence of labels,
    statements and jumps, the assembled program is the reference's, in which
    every offset leads to its label; it is refused exactly when a label is out
    of range, unplaced, behind its jump or more than 255 instructions ahead, or
    when there are more than 96 instructions or 96 jump targets. *)
Theorem assembler_correct ops :
  let '(rc, a) := bpf_asm_finish (asm_run ops bpf_asm_init) in
  match assemble ops with
  | Some prog => rc = 0 /\ insns a = prog
  | None => rc = -1
  end.
Proof. apply finish_assembles. Qed.

(** ** A machine for the witnesses *)

(** At most [fuel] instructions; jumps only go forward. *)
Fixpoint bpf_steps (fuel : nat) (prog : list sock_filter) (pkt : list Z) (pc : nat) (A X : Z) : Z :=
  match fuel with
  | O => 0
  | S fuel =>
      match prog !! pc with
      | None => 0
      | Some i =>
          let ld v := match v with Some a => bpf_steps fuel prog pkt (S pc) a X | None => 0 end in
          if code i =? BPF_LD .| BPF_H .| BPF_ABS then ld (load16 pkt (k i))
          else if code i =? BPF_LD .| BPF_B .| BPF_ABS then ld (load8 pkt (k i))
          else if code i =? BPF_LD .| BPF_H .| BPF_IND then ld (load16 pkt (u32 (X + k i)))
          else if code i =? BPF_LDX .| BPF_B .| BPF_MSH then
            match load8 pkt (k i) with Some a => bpf_steps fuel prog pkt (S pc) A (4 * Z.land a 15) | None => 0 end
          else if code i =? BPF_LDX .| BPF_IMM then bpf_steps fuel prog pkt (S pc) A (k i)
          else if code i =? BPF_JMP .| BPF_JEQ .| BPF_K then
            bpf_steps fuel prog pkt (jump_to pc (if A =? k i then jt i else jf i)) A X
          else if code i =? BPF_JMP .| BPF_JSET .| BPF_K then
            bpf_steps fuel prog pkt (jump_to pc (if Z.land A (k i) =? 0 then jf i else jt i)) A X
          else if code i =? BPF_RET .| BPF_K then k i
          else 0
      end
  end.
Definition bpf_interp (prog : list sock_filter) (pkt : list Z) (pc : nat) (A X : Z) : Z :=
  bpf_steps (length prog - pc) prog pkt pc A X.

Lemma steps_enough prog pkt n : forall m pc A X, (length prog - pc <= n)%nat -> (length prog - pc <= m)%nat ->
  bpf_steps n prog pkt pc A X = bpf_steps m prog pkt pc A X.
Proof.
  induction n as [|n IH]; intros m pc A X Hn Hm.
  { destruct m as [|m]; [done|]. cbn [bpf_steps]. by rewrite lookup_ge_None_2 by lia. }
  destruct m as [|m]; cbn [bpf_steps]; [by rewrite lookup_ge_None_2 by lia|].
  destruct (prog !! pc) as [i|] eqn:E; [|done]. apply lookup_lt_Some in E.
  assert (forall pc' A X, (pc < pc')%nat -> bpf_steps n prog pkt pc' A X = bpf_steps m prog pkt pc' A X) as Hgo
    by (intros; apply IH; lia).
  assert (forall o, (pc < jump_to pc o)%nat) as Hj by (intros o; unfold jump_to; lia).
  repeat (case_match; try apply Hgo; try done; try lia); apply Hj.
Qed.

Lemma interp_machine : bpf_machine bpf_interp.
Proof.
  assert (forall prog pkt pc A X (i : sock_filter), prog !! pc = Some i ->
    exists n, bpf_interp prog pkt pc A X = bpf_steps (S n) prog pkt pc A X /\
      forall pc' A X, (pc < pc')%nat -> bpf_steps n prog pkt pc' A X = bpf_interp prog pkt pc' A X) as Hstep.
  { intros prog pkt pc A X i E. apply lookup_lt_Some in E. exists (length prog - pc - 1)%nat. split.
    - unfold bpf_interp. f_equal. lia.
    - intros pc' A' X' Hpc. apply steps_enough; lia. }
  assert (forall pc o, (pc < jump_to pc o)%nat) as Hj by (intros pc o; unfold jump_to; lia).
  constructor; intros prog pkt pc A X t f v E; destruct (Hstep prog pkt pc A X _ E) as (n & -> & Hn);
    cbn [bpf_steps]; rewrite E; cbn [code k jt jf];
    repeat match goal with
    | |- context [?a =? ?b] =>
        match eval vm_compute in (a =? b) with
        | true => change (a =? b) with true; cbn iota
        | false => change (a =? b) with false; cbn iota
        end
    end;
    first [reflexivity | apply Hn; first [apply Hj | lia] | case_match; [apply Hn; lia|reflexivity]].
Qed.

(** A DHCP client's frame behind one tag, and a DNS query over IPv6. *)
Definition dhcp_sample : list Z :=
  replicate 12 2 ++ [0x81; 0; 0; 5; 0x08; 0] ++
  [0x45; 0; 0; 28; 0; 1; 0; 0; 64; 17; 0; 0; 0; 0; 0; 0; 255; 255; 255; 255] ++
  [0; 68; 0; 67; 0; 8; 0; 0].
Definition dns_sample : list Z :=
  replicate 12 2 ++ [0x86; 0xDD] ++ [0x60; 0; 0; 0; 0; 8; 17; 64] ++ replicate 32 1 ++
  [0x30; 0x39; 0; 53; 0; 8; 0; 0].

Lemma filters_exact_witness :
  exists dhcp, build_dhcp_bpf_filter 96 = (49, Some dhcp) /\
    bpf_interp dhcp dhcp_sample 0 0 0 = 2 ^ 32 - 1 /\ bpf_interp dhcp dns_sample 0 0 0 = 0.
Proof.
  destruct (filters_exact bpf_interp interp_machine) as (dhcp & dns & Hb & _ & Hr & _).
  exists dhcp. split; [exact Hb|]. rewrite !Hr. split; reflexivity.
Defined.

Lemma filters_pass_witness :
  bpf_interp dhcp_prog dhcp_sample 0 0 0 = 2 ^ 32 - 1 /\ bpf_interp dns_prog dns_sample 0 0 0 = 2 ^ 32 - 1.
Proof.
  assert (build_dhcp_bpf_filter 96 = (49, Some dhcp_prog)) as Hdhcp by (vm_compute; reflexivity).
  assert (build_dns_bpf_filter_config 96 = (89, Some (dns_prog, 89))) as Hdns by (vm_compute; reflexivity).
  split.
  - destruct (cf_decap_udp dhcp_sample) as [[rc out]| |] eqn:E; [|by vm_compute in E..].
    assert (rc = CF_DECAP_OK) as -> by (vm_compute in E; by injection E as <- _).
    apply (proj1 (filters_pass bpf_interp dhcp_prog dns_prog 49 dhcp_sample interp_machine
      (bytes_okb dhcp_sample eq_refl) Hdhcp Hdns) out E);
      vm_compute in E; injection E as <-; [right; split; reflexivity|intros Hv; discriminate Hv|reflexivity].
  - destruct (dns_decode_frame (fun _ => 0) dns_sample) as [[[d|] st]| |] eqn:E; [|vm_compute in E; discriminate E..].
    apply (proj2 (filters_pass bpf_interp dhcp_prog dns_prog 49 dns_sample interp_machine
      (bytes_okb dns_sample eq_refl) Hdhcp Hdns) _ _ d E);
      vm_compute in E; injection E as <- _; [left; reflexivity|intros _; reflexivity|right; reflexivity].
Defined.
