(* ===== verification/CaptureFeed.v ===== *)
(** * CaptureFeed: packets into the capture queue

    What [libs/cloudflow-capture/cf_rx_reader.c] and [cf_pcap_replay.c] share:
    a packet item is counted and pushed under the policy, its image as the
    queue's element.  The thread behind the queue may pop before a push, and
    while a blocking push sleeps ([push_env]); [rx_taken] is what it got. *)

From S2P Require Import Prelude Counters Queue QueuePolicy Observation Worker.

(** [cf_rx_stats.h]: the copy was cut by the configured snaplen. *)
Definition CF_PACKET_FLAG_SNAP_TRUNCATED : Z := 2.

(** Around one push: the pops before it, what [cf_stop_notified] answers and the
    pops during a blocking push. *)
Record push_env := { pe_pops : nat; pe_stop : nat -> bool; pe_consumer : nat -> nat }.

(** The output queue, the counters where there are any, and what was taken. *)
Record rx_state (R : Type) := { rx_q : R; rx_stats : option cf_rx_stats_t; rx_taken : list (list Z) }.
Arguments rx_q {R}. Arguments rx_stats {R}. Arguments rx_taken {R}.

Section Feed.
Context {R : Type} `{BoundedFifo R}.
Implicit Types s : rx_state R.

Definition with_rx (f : cf_rx_stats_t -> cf_rx_stats_t) s : rx_state R :=
  {| rx_q := rx_q s; rx_stats := f <$> rx_stats s; rx_taken := rx_taken s |}.

(** [cf_queue_push_policy(out, &item, sizeof(item), on_full, &rx_queue_drop_total)]. *)
Definition rx_push (e : push_env) (on_full : cf_queue_full_policy_t) (item : cf_packet_item_t) s : exec (rx_state R) :=
  '(q, xs) ← consume (pe_pops e) (rx_q s);
  '(_, q, ctr, ys) ← cf_queue_push_policy (pe_stop e) (pe_consumer e) q (Some (packet_image item))
    SIZEOF_PACKET_ITEM on_full ((fun st => st rx_queue_drop_total) <$> rx_stats s);
  Ret {| rx_q := q;
         rx_stats := match rx_stats s, ctr with
                     | Some st, Some n => Some (update rx_queue_drop_total n st)
                     | st, _ => st
                     end;
         rx_taken := rx_taken s ++ xs ++ ys |}.

(** The counters of a packet. *)
Definition truncated (item : cf_packet_item_t) : bool := negb (Z.land (pk_flags item) CF_PACKET_FLAG_TRUNCATED =? 0).
Definition snap_truncated (item : cf_packet_item_t) : bool :=
  negb (Z.land (pk_flags item) CF_PACKET_FLAG_SNAP_TRUNCATED =? 0).
Definition rx_account (item : cf_packet_item_t) (st : cf_rx_stats_t) : cf_rx_stats_t :=
  let st := stat_inc packets_received_total st in
  let st := stat_add rx_bytes_copied_total (pk_captured_len item) st in
  let st := if truncated item then stat_inc packets_truncated_total st else st in
  if snap_truncated item then stat_inc packets_snap_truncated_total st else st.

Definition rx_feed_one (e : push_env) (on_full : cf_queue_full_policy_t) (item : cf_packet_item_t) s : exec (rx_state R) :=
  rx_push e on_full item (with_rx (rx_account item) s).

(** The packets of a list, in order; [i] packets came before. *)
Fixpoint rx_feed (env : nat -> push_env) (on_full : cf_queue_full_policy_t) (i : nat) (items : list cf_packet_item_t) s
    : exec (rx_state R) :=
  match items with
  | [] => Ret s
  | item :: items => s ← rx_feed_one (env i) on_full item s; rx_feed env on_full (S i) items s
  end.

(** ** What feeding packets does *)

Definition item_ok (item : cf_packet_item_t) : Prop := packet_ok item /\ fields_ok item.
Definition counts (f : cf_packet_item_t -> bool) (items : list cf_packet_item_t) : Z :=
  zlen (filter (fun p => f p = true) items).
Definition captured (items : list cf_packet_item_t) : Z := foldr (fun p n => pk_captured_len p + n) 0 items.

(** All that was pushed, in order: taken or still queued. *)
Definition passed s : list (list Z) := rx_taken s ++ fifo_items (rx_q s).

(** Every packet counted once; each stored or one lost, in the drop counter. *)
Definition counted_for (items : list cf_packet_item_t) s s' (st st' : cf_rx_stats_t) : Prop :=
  st' packets_received_total = u64 (st packets_received_total + zlen items) /\
  st' rx_bytes_copied_total = u64 (st rx_bytes_copied_total + captured items) /\
  st' packets_truncated_total = u64 (st packets_truncated_total + counts truncated items) /\
  st' packets_snap_truncated_total = u64 (st packets_snap_truncated_total + counts snap_truncated items) /\
  u64 (st' rx_queue_drop_total + zlen (passed s')) = u64 (st rx_queue_drop_total + zlen (passed s) + zlen items).

(** The counters are [unsigned long]s. *)
Definition stats_ok (st : cf_rx_stats_t) : Prop := forall c, u64 (st c) = st c.

Record rx_flow (items : list cf_packet_item_t) s s' : Prop := {
  fl_in : in_ok (rx_q s');
  fl_bound : fifo_bound (rx_q s') = fifo_bound (rx_q s);
  fl_order : passed s' `sublist_of` passed s ++ (packet_image <$> items);
  fl_room : zlen (fifo_items (rx_q s)) + zlen items <= fifo_bound (rx_q s) ->
    passed s' = passed s ++ (packet_image <$> items);
  fl_queue : zlen (fifo_items (rx_q s')) <= zlen (fifo_items (rx_q s)) + zlen items;
  fl_taken : exists l, rx_taken s' = rx_taken s ++ l;
  fl_stats : match rx_stats s with
             | None => rx_stats s' = None
             | Some st => exists st', rx_stats s' = Some st' /\ stats_ok st' /\ counted_for items s s' st st'
             end
}.
Definition rx_ok s : Prop := in_ok (rx_q s) /\ forall st, rx_stats s = Some st -> stats_ok st.

Lemma push_counter policy (q : R) e ctr rc q' ctr' xs : push_outcome policy q e ctr rc q' ctr' xs ->
  ctr' = ctr \/ ctr' = counter_inc ctr.
Proof.
  unfold push_outcome. destruct (_ <? _); [intros (_ & _ & -> & _); by left|].
  destruct policy; [intros (_ & _ & -> & _); by right|intros (_ & _ & -> & _); by right|].
  intros [(_ & _ & ->)|(_ & _ & ->)]; [by left|by right].
Qed.

(** Elements kept through a push keep their property. *)
Lemma push_images policy (q : R) e ctr rc q' ctr' xs (P : list Z -> Prop) : Forall P (fifo_items q) -> P e ->
  push_outcome policy q e ctr rc q' ctr' xs -> Forall P (fifo_items q').
Proof.
  intros Hq He Ho. apply push_order in Ho. apply list.Forall_forall. intros x Hx.
  assert (x ∈ fifo_items q ++ [e]) as [Hin|Hin%list_elem_of_singleton]%elem_of_app; [|by eapply list.Forall_forall|by subst].
  eapply elem_of_sublist; [|exact Ho]. apply elem_of_app. by right.
Qed.

(** The queue's side of a push, after the pops before it. *)
Lemma rx_push_queue e on_full item s : in_ok (rx_q s) -> item_ok item ->
  runs (rx_push e on_full item s) (fun s' => in_ok (rx_q s') /\ fifo_bound (rx_q s') = fifo_bound (rx_q s) /\
    passed s' `sublist_of` passed s ++ [packet_image item] /\
    (zlen (fifo_items (rx_q s)) + 1 <= fifo_bound (rx_q s) -> passed s' = passed s ++ [packet_image item]) /\
    zlen (fifo_items (rx_q s')) <= zlen (fifo_items (rx_q s)) + 1 /\
    (exists l, rx_taken s' = rx_taken s ++ l) /\
    match rx_stats s with
    | None => rx_stats s' = None
    | Some st => exists d, rx_stats s' = Some (update rx_queue_drop_total d st) /\
        (d = st rx_queue_drop_total \/ d = u64 (st rx_queue_drop_total + 1)) /\
        u64 (d + zlen (passed s')) = u64 (st rx_queue_drop_total + zlen (passed s) + 1)
    end).
Proof.
  intros (Hwf & Hes & Hit) [Hp Hf]. destruct (image_ok _ Hp Hf) as [Hl _].
  unfold rx_push. apply runs_bind. eapply runs_mono; [by apply consume_spec|].
  intros [q xs] (Hwf1 & Hb1 & He1 & Hxs & Hi1). apply runs_bind.
  assert (Forall frame_image (fifo_items q)) as Hit1 by (rewrite Hi1; by apply Forall_drop).
  assert (xs ++ fifo_items q = fifo_items (rx_q s)) as Hsplit by (rewrite Hxs, Hi1; apply take_drop).
  assert (fifo_element_size q = SIZEOF_PACKET_ITEM) as He1' by congruence.
  eapply runs_mono; [rewrite <- He1'; apply push_policy_spec; [done|congruence|]|].
  { unfold size_ok. rewrite He1'. done. }
  intros [[[rc q2] ctr] ys] (Hwf2 & Hb2 & He2 & Ho). cbn [runs rx_q rx_taken rx_stats passed].
  pose proof (push_order _ _ _ _ _ _ _ _ Ho) as Hord. unfold passed. cbn [rx_q rx_taken].
  assert (zlen (fifo_items q2) <= zlen (fifo_items q) + 1) as Hlen.
  { apply sublist_length in Hord. rewrite !length_app in Hord. cbn [length] in Hord. lia. }
  assert (zlen (fifo_items q) <= zlen (fifo_items (rx_q s))) as Hlen1 by (rewrite <- Hsplit, length_app; lia).
  split_and!.
  - split_and!; [done|congruence|]. eapply push_images; [exact Hit1|by apply image_ok|exact Ho].
  - congruence.
  - rewrite <- Hsplit, <- !app_assoc. apply sublist_app; [reflexivity|]. by apply sublist_app.
  - intros Hroom. unfold push_outcome in Ho. replace (_ <? _) with true in Ho by lia.
    destruct Ho as (_ & -> & _ & ->). by rewrite <- Hsplit, app_nil_r, <- !app_assoc.
  - lia.
  - by eexists.
  - destruct (rx_stats s) as [st|]; cbn [fmap option_fmap option_map] in Ho; [|done].
    destruct (push_flow _ _ _ _ _ _ _ _ Hwf1 Ho) as (d & -> & Hd). exists d. split; [done|]. split.
    { destruct (push_counter _ _ _ _ _ _ _ _ Ho) as [[= ->]|[= ->]]; auto. }
    rewrite <- Hsplit, !length_app.
    replace (d + _) with (d + (zlen (fifo_items q2) + zlen ys) + (zlen (rx_taken s) + zlen xs)) by lia.
    rewrite <- u64_add, Hd, u64_add. f_equal. lia.
Qed.

Lemma stats_ok_store c v st : stats_ok st -> stats_ok (stat_store c v st).
Proof. intros Hs c'. unfold stat_store. destruct (decide _); [apply u64_u64|apply Hs]. Qed.
Lemma stats_ok_account item st : stats_ok st -> stats_ok (rx_account item st).
Proof.
  intros Hs. unfold rx_account, stat_inc, stat_add. destruct (snap_truncated item), (truncated item); by repeat apply stats_ok_store.
Qed.

Lemma account_counts item st :
  rx_account item st packets_received_total = u64 (st packets_received_total + 1) /\
  rx_account item st rx_bytes_copied_total = u64 (st rx_bytes_copied_total + pk_captured_len item) /\
  rx_account item st packets_truncated_total =
    (if truncated item then u64 (st packets_truncated_total + 1) else st packets_truncated_total) /\
  rx_account item st packets_snap_truncated_total =
    (if snap_truncated item then u64 (st packets_snap_truncated_total + 1) else st packets_snap_truncated_total) /\
  rx_account item st rx_queue_drop_total = st rx_queue_drop_total.
Proof. unfold rx_account. destruct (snap_truncated item), (truncated item); by split_and!. Qed.

Lemma counts_one f item : (f item = true /\ counts f [item] = 1) \/ (f item = false /\ counts f [item] = 0).
Proof.
  unfold counts. destruct (f item) eqn:E; [left|right]; (split; [done|]).
  - by rewrite list.filter_cons_True.
  - by rewrite list.filter_cons_False by congruence.
Qed.

Lemma rx_feed_one_spec e on_full item s : rx_ok s -> item_ok item ->
  runs (rx_feed_one e on_full item s) (rx_flow [item] s).
Proof.
  intros [Hin Hst] Hi. unfold rx_feed_one. eapply runs_mono; [by apply rx_push_queue|].
  intros s' (H1 & H2 & H3 & H4 & H5 & H6 & H7). constructor; try done.
  cbn [with_rx rx_stats] in H7. destruct (rx_stats s) as [st|]; cbn [fmap option_fmap option_map] in H7; [|done].
  destruct H7 as (d & E & Hd & Hflow). specialize (Hst st eq_refl).
  exists (update rx_queue_drop_total d (rx_account item st)). split; [done|].
  destruct (account_counts item st) as (A1 & A2 & A3 & A4 & A5). rewrite A5 in Hd, Hflow.
  pose proof (stats_ok_account item st Hst) as Hok. split.
  - intros c. unfold update. destruct (decide _) as [->|]; [|apply Hok].
    destruct Hd as [->| ->]; [apply Hst|apply u64_u64].
  - assert (forall c, c <> rx_queue_drop_total -> update rx_queue_drop_total d (rx_account item st) c = rx_account item st c)
      as Hne by (intros c Hc; unfold update; by rewrite decide_False).
    unfold counted_for. rewrite !Hne, A1, A2, A3, A4 by done. unfold update at 1. rewrite decide_True by done.
    split_and!; try done.
    + cbn [captured foldr]. f_equal. lia.
    + by destruct (counts_one truncated item) as [[-> ->]|[-> ->]]; [|rewrite Z.add_0_r, Hst].
    + by destruct (counts_one snap_truncated item) as [[-> ->]|[-> ->]]; [|rewrite Z.add_0_r, Hst].
Qed.

Lemma counted_trans l1 l2 s1 s2 s3 st1 st2 st3 : counted_for l1 s1 s2 st1 st2 -> counted_for l2 s2 s3 st2 st3 ->
  counted_for (l1 ++ l2) s1 s3 st1 st3.
Proof.
  intros (A1 & A2 & A3 & A4 & A5) (B1 & B2 & B3 & B4 & B5). unfold counted_for, counts.
  rewrite !list.filter_app, !length_app. rewrite B1, B2, B3, B4, A1, A2, A3, A4, !u64_add.
  split_and!; try (f_equal; unfold counts; lia).
  - f_equal. unfold captured. rewrite foldr_app. generalize (foldr (fun p n => pk_captured_len p + n) 0 l2).
    clear. intros n. enough (foldr (fun p n => pk_captured_len p + n) n l1 =
      foldr (fun p n => pk_captured_len p + n) 0 l1 + n) as -> by lia.
    induction l1 as [|p l1 IH]; cbn [foldr]; lia.
  - rewrite B5. rewrite <- (u64_add (st2 rx_queue_drop_total + _)), A5, u64_add. f_equal. lia.
Qed.

Lemma rx_flow_refl s : rx_ok s -> rx_flow [] s s.
Proof.
  intros [Hin Hst]. constructor; try done; rewrite ?app_nil_r; try done; try (cbn; lia).
  - exists []. by rewrite app_nil_r.
  - destruct (rx_stats s) as [st|]; [|done]. exists st. split; [done|]. pose proof (Hst st eq_refl) as Hs.
    split; [done|]. unfold counted_for. cbn. rewrite !Z.add_0_r. split_and!; try (symmetry; apply Hs). done.
Qed.

Lemma rx_flow_trans l1 l2 s1 s2 s3 : rx_flow l1 s1 s2 -> rx_flow l2 s2 s3 -> rx_flow (l1 ++ l2) s1 s3.
Proof.
  intros [A1 A2 A3 A4 A5 [x Hx] A6] [B1 B2 B3 B4 B5 [y Hy] B6]. constructor; [done|congruence|..].
  - rewrite fmap_app, app_assoc. etransitivity; [exact B3|]. by apply sublist_app.
  - rewrite fmap_app, app_assoc, length_app. intros Hr. rewrite B4 by lia. by rewrite A4 by lia.
  - rewrite length_app. lia.
  - exists (x ++ y). by rewrite Hy, Hx, app_assoc.
  - destruct (rx_stats s1) as [st1|].
    + destruct A6 as (st2 & E2 & _ & C2). rewrite E2 in B6. destruct B6 as (st3 & E3 & O3 & C3).
      exists st3. split_and!; [done|done|]. by eapply counted_trans.
    + by rewrite A6 in B6.
Qed.

Lemma rx_flow_ok l s s' : rx_flow l s s' -> rx_ok s'.
Proof.
  intros F. split; [apply F|]. intros st' E. pose proof (fl_stats _ _ _ F) as Hs.
  destruct (rx_stats s); [|congruence]. destruct Hs as (st2 & E2 & Hok & _). congruence.
Qed.

(** Feeding a list, in any environment. *)
Lemma rx_feed_spec env on_full items : forall i s, rx_ok s -> Forall item_ok items ->
  runs (rx_feed env on_full i items s) (rx_flow items s).
Proof.
  induction items as [|item items IH]; intros i s Hs Hi; cbn [rx_feed]; [by apply rx_flow_refl|].
  apply list.Forall_cons in Hi as [Hi His]. apply runs_bind. eapply runs_mono; [by apply rx_feed_one_spec|].
  intros s1 F1. eapply runs_mono; [apply IH; [by eapply rx_flow_ok|done]|]. intros s2 F2.
  exact (rx_flow_trans [item] items _ _ _ F1 F2).
Qed.
End Feed.

(** ** An empty queue *)

Definition calm : push_env := {| pe_pops := 0; pe_stop := fun _ => false; pe_consumer := fun _ => O |}.
Definition empty_rx : rx_state (option cf_queue_t) :=
  {| rx_q := sample_in; rx_stats := Some (fun _ => 0); rx_taken := [] |}.

Lemma empty_rx_ok : rx_ok empty_rx.
Proof. split; [exact sample_in_ok|]. by intros st [= <-] c. Qed.
