(* ===== verification/PcapReplay.v ===== *)
(** * PcapReplay: frames from a capture file
    ([libs/cloudflow-capture/cf_pcap_replay.c])

    A classic pcap file is read record by record and each frame is counted and
    pushed like a captured one.  The file is the list of its bytes, read on a
    little-endian machine; a read that fails is a file that ends there.  Whether
    [fseek] works is an argument: on a regular file it does, also past the end.
    Logging is left out. *)

From S2P Require Import Prelude Counters Queue QueuePolicy Observation Worker CaptureFeed.

Definition PCAP_MAGIC_USEC_LE : Z := 0xa1b2c3d4.
Definition PCAP_MAGIC_USEC_BE : Z := 0xd4c3b2a1.
Definition PCAP_MAGIC_NSEC_LE : Z := 0xa1b23c4d.
Definition PCAP_MAGIC_NSEC_BE : Z := 0x4d3cb2a1.
Definition PCAP_MAGIC_NSEC_ALT : Z := 0xa3b4c3d4.
Definition PCAPNG_MAGIC : Z := 0x0a0d0d0a.
Definition DLT_EN10MB : Z := 1.
Definition PCAP_REPLAY_MAX_INCL_LEN : Z := 16 * 1024 * 1024.

(** The sizes of [struct pcap_file_hdr] and [struct pcap_rec_hdr]. *)
Definition SIZEOF_FILE_HDR : Z := 24.
Definition SIZEOF_REC_HDR : Z := 16.

Definition bswap32 (x : Z) : Z :=
  Z.lor (Z.lor (Z.lor (Z.shiftr x 24) (Z.land (Z.shiftr x 8) 0xff00)) (Z.land (u32 (Z.shiftl x 8)) 0xff0000))
        (u32 (Z.shiftl x 24)).

(** [fread] of [n] bytes: what was read and the rest, [None] on a short read. *)
Definition fread (n : Z) (f : list Z) : option (list Z * list Z) :=
  if zlen f <? n then None else Some (take (Z.to_nat n) f, drop (Z.to_nat n) f).

(** A 32-bit field of a header, in the file's byte order. *)
Definition field32 (swap : bool) (h : list Z) (off : Z) : Z :=
  let x := le_value (slice h off 4) in if swap then bswap32 x else x.

(** The byte order and the time unit of a magic number. *)
Definition pcap_format (magic : Z) : option (bool * bool) :=
  if magic =? PCAPNG_MAGIC then None
  else if magic =? PCAP_MAGIC_USEC_LE then Some (false, false)
  else if magic =? PCAP_MAGIC_USEC_BE then Some (true, false)
  else if magic =? PCAP_MAGIC_NSEC_LE then Some (false, true)
  else if magic =? PCAP_MAGIC_NSEC_BE then Some (true, true)
  else if magic =? PCAP_MAGIC_NSEC_ALT then Some (false, true)
  else None.

(** The item of a record, zeroed behind the frame. *)
Definition replay_item (nsec : bool) (ts_sec ts_frac orig_len copy_len flags : Z) (data : list Z) : cf_packet_item_t :=
  {| pk_observed_time_unix_nano := ts_sec * 1000000000 + ts_frac * (if nsec then 1 else 1000);
     pk_packet_len := orig_len; pk_captured_len := copy_len; pk_flags := flags;
     pk_data := data ++ replicate (Z.to_nat (CLOUDFLOW_PACKET_MAX_SIZE - copy_len)) 0 |}.

Definition replay_account (item : cf_packet_item_t) (st : cf_rx_stats_t) : cf_rx_stats_t :=
  let st := stat_inc packets_received_total st in
  let st := stat_add rx_bytes_copied_total (pk_captured_len item) st in
  if truncated item then stat_inc packets_truncated_total st else st.

Section Replay.
Context {R : Type} `{BoundedFifo R}.
Variables (env : nat -> push_env) (on_full : cf_queue_full_policy_t) (seekable : bool).
Implicit Types s : rx_state R.

(** Record [i]; one step of fuel a record. *)
Fixpoint replay_loop (fuel : nat) (swap nsec : bool) (f : list Z) (frame_count : Z) (i : nat) s : exec (Z * rx_state R) :=
  match fuel with
  | O => Spin
  | S fuel =>
      match fread SIZEOF_REC_HDR f with
      | None => Ret (frame_count, s)
      | Some (rh, f) =>
          let ts_sec := field32 swap rh 0 in
          let ts_frac := field32 swap rh 4 in
          let incl_len := field32 swap rh 8 in
          let orig_len := field32 swap rh 12 in
          if PCAP_REPLAY_MAX_INCL_LEN <? incl_len then Ret (-1, s)
          else
            let '(copy_len, flags) :=
              if CLOUDFLOW_PACKET_MAX_SIZE <? incl_len then (CLOUDFLOW_PACKET_MAX_SIZE, CF_PACKET_FLAG_TRUNCATED)
              else (incl_len, 0) in
            match fread copy_len f with
            | None => Ret (-1, s)
            | Some (data, f) =>
                if (copy_len <? incl_len) && negb seekable then Ret (-1, s)
                else
                  let f := drop (Z.to_nat (incl_len - copy_len)) f in
                  let item := replay_item nsec ts_sec ts_frac orig_len copy_len flags data in
                  s ← rx_push (env i) on_full item (with_rx (replay_account item) s);
                  replay_loop fuel swap nsec f (frame_count + 1) (S i) s
            end
      end
  end.

(** [path]: whether it is not [NULL]; [file]: what [fopen] opens. *)
Definition pcap_replay_file (path : bool) (file : option (list Z)) s : exec (Z * rx_state R) :=
  if negb path || fifo_null (rx_q s) then Ret (-1, s)
  else
    match file with
    | None => Ret (-1, s)
    | Some f =>
        match fread SIZEOF_FILE_HDR f with
        | None => Ret (-1, s)
        | Some (fh, rest) =>
            match pcap_format (le_value (slice fh 0 4)) with
            | None => Ret (-1, s)
            | Some (swap, nsec) =>
                if negb (field32 swap fh 20 =? DLT_EN10MB) then Ret (-1, s)
                else replay_loop (S (length rest)) swap nsec rest 0 0 s
            end
        end
    end.
End Replay.

(** ** The format *)

(** A number in the byte order of a file. *)
Definition enc32 (swap : bool) (z : Z) : list Z := if swap then be_bytes 4 z else le_bytes 4 z.

Lemma le_value4 a b c d : le_value [a; b; c; d] = ((d * 256 + c) * 256 + b) * 256 + a.
Proof. unfold le_value. cbn. lia. Qed.

Lemma bswap32_be a b c d : is_byte a -> is_byte b -> is_byte c -> is_byte d ->
  bswap32 (le_value [a; b; c; d]) = be_value 0 [a; b; c; d].
Proof.
  intros Ha Hb Hc Hd. rewrite le_value4. unfold is_byte in *. unfold bswap32.
  change 0xff00 with (Z.shiftl 255 8). change 0xff0000 with (Z.shiftl 255 16).
  rewrite !land_shiftl_mask, !land_byte by lia. unfold u32.
  rewrite !Z.shiftr_div_pow2, (Z.shiftl_mul_pow2 _ 24), (Z.shiftl_mul_pow2 (_ + a) 8) by lia.
  change (2 ^ 32) with 4294967296. change (2 ^ 24) with 16777216. change (2 ^ 16) with 65536. change (2 ^ 8) with 256.
  match goal with |- Z.lor (Z.lor (Z.lor ?x (Z.shiftl ?y 8)) (Z.shiftl ?z 16)) ?t = _ =>
    replace x with d by lia; replace y with c by lia; replace z with b by lia;
    replace t with (Z.shiftl a 24) by (rewrite Z.shiftl_mul_pow2; change (2 ^ 24) with 16777216; lia) end.
  rewrite (Z.lor_comm _ (Z.shiftl a 24)), (Z.lor_comm _ (Z.shiftl b 16)), (Z.lor_comm d).
  rewrite !Z.lor_assoc. fold (be32_of a b c d). rewrite be32_of_eq by done. cbn. lia.
Qed.

Lemma bytes4 (l : list Z) : length l = 4%nat -> exists a b c d, l = [a; b; c; d].
Proof. destruct l as [|a [|b [|c [|d [|]]]]]; try discriminate. by exists a, b, c, d. Qed.

Lemma field32_enc swap h off z : 0 <= z < 2 ^ 32 -> slice h off 4 = enc32 swap z -> field32 swap h off = z.
Proof.
  intros Hz E. unfold field32. rewrite E. unfold enc32. destruct swap.
  - destruct (bytes4 (be_bytes 4 z)) as (a & b & c & d & Eb); [apply be_bytes_length|].
    pose proof (be_bytes_ok 4 z) as Hok. rewrite Eb in *. do 4 (apply list.Forall_cons in Hok as [? Hok]).
    rewrite bswap32_be by done. rewrite <- Eb, be_value_be_bytes.
    rewrite Z.mod_small by (change (256 ^ Z.of_nat 4) with (2 ^ 32); lia). lia.
  - apply le_value_bytes. change (256 ^ Z.of_nat 4) with (2 ^ 32). lia.
Qed.

Lemma field32_bound swap h off : bytes_ok h -> 0 <= off -> off + 4 <= zlen h -> 0 <= field32 swap h off < 2 ^ 32.
Proof.
  intros Hok H0 H1. destruct (bytes4 (slice h off 4)) as (a & b & c & d & E); [rewrite length_slice; lia|].
  pose proof (slice_bytes_ok h off 4 Hok) as Hs. unfold field32. rewrite E in *.
  do 4 (apply list.Forall_cons in Hs as [? Hs]). destruct swap; [rewrite bswap32_be by done; cbn|rewrite le_value4];
    unfold is_byte in *; lia.
Qed.

(** The replayer counts as the reader does: its frames are never cut by a snaplen. *)
Lemma replay_account_eq item st : snap_truncated item = false -> replay_account item st = rx_account item st.
Proof. unfold replay_account, rx_account. by intros ->. Qed.
