(* ===== verification/PcapReplayProperties.v ===== *)
(** * PcapReplayProperties: what a replay feeds into the capture queue

    Any file is read safely and to its end; a file written in any of the five
    formats comes back as its records, in order. *)

From S2P Require Import Prelude Counters Queue QueuePolicy Observation Worker CaptureFeed PcapReplay.

(** ** Records *)







Lemma replay_item_ok nsec sec frac orig len flags data : 0 <= sec < 2 ^ 32 -> 0 <= frac < 2 ^ 32 -> 0 <= orig < 2 ^ 32 ->
  bytes_ok data -> zlen data = len -> len <= CLOUDFLOW_PACKET_MAX_SIZE -> flags = 0 \/ flags = CF_PACKET_FLAG_TRUNCATED ->
  item_ok (replay_item nsec sec frac orig len flags data) /\
  snap_truncated (replay_item nsec sec frac orig len flags data) = false.
Proof.
  unfold CLOUDFLOW_PACKET_MAX_SIZE. intros Hs Hf Ho Hd Hl Hm Hfl.
  split; [|by destruct Hfl as [->| ->]]. split.
  - constructor; cbn [replay_item pk_data pk_captured_len pk_observed_time_unix_nano].
    + apply Forall_app. split; [done|]. by apply Forall_replicate.
    + rewrite length_app, length_replicate. unfold CLOUDFLOW_PACKET_MAX_SIZE. lia.
    + destruct nsec; lia.
  - split; [done|]. cbn [replay_item pk_flags]. unfold CF_PACKET_FLAG_TRUNCATED in Hfl. lia.
Qed.

Lemma fread_split n f h rest : 0 <= n -> fread n f = Some (h, rest) -> f = h ++ rest /\ zlen h = n.
Proof.
  intros Hn. unfold fread. destruct (zlen f <? n) eqn:E; [done|]. intros [= <- <-].
  split; [by rewrite take_drop|]. rewrite length_take. lia.
Qed.




Section Properties.
Context {R : Type} `{BoundedFifo R}.
Variables (env : nat -> push_env) (on_full : cf_queue_full_policy_t).
Implicit Types s : rx_state R.

(** ** Any file *)

(** What a replay from [n] records on may end as. *)
Definition replayed (n : Z) s (r : Z * rx_state R) : Prop :=
  exists items, Forall item_ok items /\ rx_flow items s r.2 /\ (r.1 = -1 \/ r.1 = n + zlen items).

Lemma replay_loop_any seekable swap nsec fuel : forall f n i s, rx_ok s -> bytes_ok f -> (length f < fuel)%nat ->
  runs (replay_loop env on_full seekable fuel swap nsec f n i s) (replayed n s).
Proof.
  induction fuel as [|fuel IH]; intros f n i s Hs Hf Hl; [lia|]. cbn [replay_loop].
  assert (forall rc, rc = -1 \/ rc = n -> replayed n s (rc, s)) as Hend.
  { intros rc Hrc. exists []. split; [constructor|]. split; [by apply rx_flow_refl|]. cbn. lia. }
  destruct (fread SIZEOF_REC_HDR f) as [[rh f1]|] eqn:E1; [|by apply Hend; right].
  apply fread_split in E1 as [-> Hrh]; [|done]. apply Forall_app in Hf as [Hrb Hf]. rewrite length_app in Hl.
  unfold SIZEOF_REC_HDR in Hrh.
  pose proof (field32_bound swap rh 0 Hrb ltac:(lia) ltac:(lia)) as B0.
  pose proof (field32_bound swap rh 4 Hrb ltac:(lia) ltac:(lia)) as B4.
  pose proof (field32_bound swap rh 8 Hrb ltac:(lia) ltac:(lia)) as B8.
  pose proof (field32_bound swap rh 12 Hrb ltac:(lia) ltac:(lia)) as B12.
  set (incl := field32 swap rh 8) in *.
  destruct (_ <? incl); [by apply Hend; left|].
  assert (exists len flags, (if CLOUDFLOW_PACKET_MAX_SIZE <? incl then (CLOUDFLOW_PACKET_MAX_SIZE, CF_PACKET_FLAG_TRUNCATED)
    else (incl, 0)) = (len, flags) /\ 0 <= len <= CLOUDFLOW_PACKET_MAX_SIZE /\
    (flags = 0 \/ flags = CF_PACKET_FLAG_TRUNCATED)) as (len & flags & -> & Hlen & Hflags).
  { unfold CLOUDFLOW_PACKET_MAX_SIZE. destruct (2048 <? incl) eqn:E; do 2 eexists; (split; [done|]); split; auto; lia. }
  destruct (fread len f1) as [[data f2]|] eqn:E2; [|by apply Hend; left].
  apply fread_split in E2 as [-> Hd]; [|lia]. apply Forall_app in Hf as [Hdb Hf]. rewrite length_app in Hl.
  destruct (_ && _); [by apply Hend; left|].
  destruct (replay_item_ok nsec _ _ _ len flags data B0 B4 B12 Hdb Hd ltac:(lia) Hflags) as [Hi Hsnap].
  set (item := replay_item _ _ _ _ _ _ _) in *. apply runs_bind.
  eapply runs_mono.
  { assert (with_rx (replay_account item) s = with_rx (rx_account item) s) as ->.
    { unfold with_rx. f_equal. destruct (rx_stats s); [|done]. cbn. by rewrite replay_account_eq. }
    exact (rx_feed_one_spec (env i) on_full item s Hs Hi). }
  intros s1 F1. eapply runs_mono; [apply IH; [by eapply rx_flow_ok|by apply Forall_drop|rewrite length_drop; lia]|].
  intros [rc s2] (items & Hok & F2 & Hrc). exists (item :: items).
  split; [by constructor|]. split; [exact (rx_flow_trans [item] items _ _ _ F1 F2)|]. cbn in *. lia.
Qed.

(** ** A written file *)






(** Any file, or none, ends safely: the result is -1 or the number of packets
    fed, every packet fed is well formed and counted, and the queue is fit for
    the source's thread. *)
Theorem replay_total path seekable file s : rx_ok s -> (forall f, file = Some f -> bytes_ok f) ->
  runs (pcap_replay_file env on_full seekable path file s) (replayed 0 s).
Proof.
  intros Hs Hf. unfold pcap_replay_file.
  assert (replayed 0 s (-1, s)) as Hend.
  { exists []. split; [constructor|]. split; [by apply rx_flow_refl|by left]. }
  destruct (_ || _); [exact Hend|]. destruct file as [f|]; [|exact Hend]. specialize (Hf f eq_refl).
  destruct (fread SIZEOF_FILE_HDR f) as [[fh rest]|] eqn:E; [|exact Hend].
  apply fread_split in E as [-> _]; [|done]. apply Forall_app in Hf as [_ Hf].
  destruct (pcap_format _) as [[swap nsec]|]; [|exact Hend]. destruct (negb _); [exact Hend|].
  apply replay_loop_any; [done|done|lia].
Qed.
End Properties.

(** ** Concrete files *)




Lemma replay_total_witness :
  runs (pcap_replay_file (fun _ => calm) CF_ONFULL_DROP_NEWEST true true (Some (replicate 40 0x0a)) empty_rx)
    (fun r => r.1 = -1 /\ exists items, rx_flow items empty_rx r.2).
Proof.
  assert (runs (pcap_replay_file (fun _ => calm) CF_ONFULL_DROP_NEWEST true true (Some (replicate 40 0x0a)) empty_rx)
    (replayed 0 empty_rx)) as H.
  { apply replay_total; [exact empty_rx_ok|]. intros f [= <-]. repeat constructor; discriminate. }
  destruct H as (items & _ & F & _). split; [reflexivity|]. exists items. exact F.
Defined.

(** A record cut behind its first 2048 bytes, at the end of the file, counts as
    a frame: only the bytes that are copied are read. *)
Lemma cut_record_accepted :
  exists s', pcap_replay_file (fun _ => calm) CF_ONFULL_DROP_NEWEST true true
    (Some (le_bytes 4 PCAP_MAGIC_USEC_LE ++ replicate 16 0 ++ le_bytes 4 DLT_EN10MB ++
           le_bytes 4 0 ++ le_bytes 4 0 ++ le_bytes 4 3000 ++ le_bytes 4 3000 ++ replicate 2048 7)) empty_rx = Ret (1, s').
Proof.
  assert (match pcap_replay_file (fun _ => calm) CF_ONFULL_DROP_NEWEST true true
    (Some (le_bytes 4 PCAP_MAGIC_USEC_LE ++ replicate 16 0 ++ le_bytes 4 DLT_EN10MB ++
           le_bytes 4 0 ++ le_bytes 4 0 ++ le_bytes 4 3000 ++ le_bytes 4 3000 ++ replicate 2048 7)) empty_rx with
    | Ret (n, _) => n = 1 | _ => False end) as H by (vm_compute; reflexivity).
  destruct (pcap_replay_file _ _ _ _ _ _) as [[n s']| |]; [|done..]. subst n. by exists s'.
Qed.
