(* ===== verification/RxReader.v ===== *)
(** * RxReader: frames from the kernel's ring
    ([libs/cloudflow-capture/cf_rx_reader.c])

    The kernel fills the blocks of a shared ring in order and hands each over by
    its status word; the reader walks the packets of the ready blocks, pushes a
    copy of each, and hands the blocks back.  A block is the list of its bytes
    and is read at the offsets of [<linux/if_packet.h>], so that a walk that
    leaves its block is an invalid access.  The kernel may fill blocks before
    every look at the ring ([kernel_fill]); [rg_kernel] and [rg_filled] are its
    side: where it fills next, and what it filled.  The bytes of an item behind
    the copied frame are what the stack held ([junk]).  System calls of the
    set-up answer as a [sys] says, and [held] is what the process then holds.  Logging, thread
    names and priorities are left out. *)

From S2P Require Import Prelude Core Counters Queue QueuePolicy Observation Worker Bpf IpFmt CaptureFeed.

(** ** The layout of the kernel's structures *)

Definition TP_STATUS_KERNEL : Z := 0.
Definition TP_STATUS_USER : Z := 1.

(** [struct tpacket_block_desc] and [struct tpacket3_hdr]. *)
Definition BD_BLOCK_STATUS : Z := 8.
Definition BD_NUM_PKTS : Z := 12.
Definition BD_OFFSET_TO_FIRST_PKT : Z := 16.
Definition TP_NEXT_OFFSET : Z := 0.
Definition TP_SEC : Z := 4.
Definition TP_NSEC : Z := 8.
Definition TP_SNAPLEN : Z := 12.
Definition TP_LEN : Z := 16.
Definition TP_MAC : Z := 24.

(** A little-endian field of [n] bytes. *)
Definition rd_le (b : list Z) (off n : Z) : exec Z := x ← rd_n b off n; Ret (le_value x).

(** ** Configuration *)

Definition RX_READER_DEFAULT_BLOCK_SIZE : Z := 4 * 1024 * 1024.
Definition RX_READER_DEFAULT_BLOCK_COUNT : Z := 12.
Definition RX_READER_DEFAULT_FRAME_SIZE : Z := 2048.

(** But for the queue and the counters, which are in [rx_state]. *)
Record cf_rx_reader_config_t := {
  interface_name : option (list Z); block_size : Z; block_count : Z; frame_size : Z;
  on_full : cf_queue_full_policy_t; copy_snaplen : Z; bpf : option (list sock_filter); bpf_len : Z
}.

(** ** Packets *)

Section Walk.
Context {R : Type} `{GaugedFifo R}.
Variable cfg : cf_rx_reader_config_t.
Implicit Types s : rx_state R.

(** What is copied of a frame of [snaplen] bytes, and its flags. *)
Definition copy_limit (snaplen : Z) : Z * Z :=
  let '(copy_len, flags) :=
    if negb (copy_snaplen cfg =? 0) && (copy_snaplen cfg <? snaplen)
    then (copy_snaplen cfg, Z.lor CF_PACKET_FLAG_TRUNCATED CF_PACKET_FLAG_SNAP_TRUNCATED) else (snaplen, 0) in
  if CLOUDFLOW_PACKET_MAX_SIZE <? copy_len
  then (CLOUDFLOW_PACKET_MAX_SIZE, Z.lor flags CF_PACKET_FLAG_TRUNCATED) else (copy_len, flags).

Definition handle_packet (e : push_env) (junk blk : list Z) (packet : Z) s : exec (rx_state R) :=
  sec ← rd_le blk (packet + TP_SEC) 4;
  nsec ← rd_le blk (packet + TP_NSEC) 4;
  len ← rd_le blk (packet + TP_LEN) 4;
  snaplen ← rd_le blk (packet + TP_SNAPLEN) 4;
  let '(copy_len, flags) := copy_limit snaplen in
  mac ← rd_le blk (packet + TP_MAC) 2;
  frame ← rd_n blk (packet + mac) copy_len;
  data ← wr_n junk 0 frame;
  let item := {| pk_observed_time_unix_nano := sec * 1000000000 + nsec; pk_packet_len := len;
                 pk_captured_len := copy_len; pk_flags := flags; pk_data := data |} in
  rx_push e (on_full cfg) item (with_rx (rx_account item) s).

(** Packet [i] of the block and the [n - 1] after it. *)
Fixpoint walk_loop (n : nat) (env : nat -> push_env) (junk : nat -> list Z) (i : nat) (blk : list Z) (packet : Z) s
    : exec (rx_state R) :=
  match n with
  | O => Ret s
  | S n =>
      s ← handle_packet (env i) (junk i) blk packet s;
      next ← rd_le blk (packet + TP_NEXT_OFFSET) 4;
      walk_loop n env junk (S i) blk (packet + next) s
  end.

Definition block_walk (env : nat -> push_env) (junk : nat -> list Z) (blk : list Z) s : exec (rx_state R) :=
  first ← rd_le blk BD_OFFSET_TO_FIRST_PKT 4;
  num_pkts ← rd_le blk BD_NUM_PKTS 4;
  walk_loop (Z.to_nat num_pkts) env junk 0 blk first s.

(** ** The ring *)

Definition block_is_ready (blk : list Z) : exec bool :=
  status ← rd_le blk BD_BLOCK_STATUS 4; Ret (negb (Z.land status TP_STATUS_USER =? 0)).
Definition block_mark_done (blk : list Z) : exec (list Z) := wr_n blk BD_BLOCK_STATUS (le_bytes 4 TP_STATUS_KERNEL).

(** The ring as the loop sees it: the blocks behind [iov] and the cursor. *)
Record ring_view := {
  rg_blocks : list (list Z); rg_next_block : Z; rg_kernel : Z; rg_filled : list (list Z)
}.

(** The kernel hands over [blk], when the block it is at is its own; a frame for
    which it has no block is dropped by the kernel. *)
Definition kernel_fill (rg : ring_view) (blk : list Z) : ring_view :=
  match rg_blocks rg !! Z.to_nat (rg_kernel rg) with
  | Some old =>
      match block_is_ready old with
      | Ret false =>
          {| rg_blocks := <[Z.to_nat (rg_kernel rg) := blk]> (rg_blocks rg); rg_next_block := rg_next_block rg;
             rg_kernel := (rg_kernel rg + 1) mod zlen (rg_blocks rg); rg_filled := rg_filled rg ++ [blk] |}
      | _ => rg
      end
  | None => rg
  end.
Definition kernel_fills (blks : list (list Z)) (rg : ring_view) : ring_view := foldl kernel_fill rg blks.

(** [epoll_wait]: an error, an interrupted call, a timeout with the answer of
    [getsockopt], some other descriptor, or the ring's. *)
Inductive poll := P_error | P_intr | P_timeout (tp_drops : option Z) | P_other | P_ready.

(** One iteration of the loop: what the kernel does before the poll and before
    each look at a block, and the environments of the pushes. *)
Record rx_turn := {
  tn_before : list (list Z); tn_poll : poll; tn_fills : nat -> list (list Z);
  tn_push : nat -> nat -> push_env; tn_junk : nat -> nat -> list Z
}.

(** At most [n] more blocks; [i] were walked. *)
Fixpoint ready_loop (n i : nat) (t : rx_turn) (rg : ring_view) s : exec (ring_view * rx_state R) :=
  match n with
  | O => Ret (rg, s)
  | S n =>
      let rg := kernel_fills (tn_fills t i) rg in
      match rg_blocks rg !! Z.to_nat (rg_next_block rg) with
      | None => Oob
      | Some blk =>
          ready ← block_is_ready blk;
          if negb ready then Ret (rg, s)
          else
            s ← block_walk (tn_push t i) (tn_junk t i) blk s;
            blk ← block_mark_done blk;
            ready_loop n (S i) t
              {| rg_blocks := <[Z.to_nat (rg_next_block rg) := blk]> (rg_blocks rg);
                 rg_next_block := (rg_next_block rg + 1) mod zlen (rg_blocks rg);
                 rg_kernel := rg_kernel rg; rg_filled := rg_filled rg |} s
      end
  end.

Definition sample_kernel_stats (tp_drops : option Z) s : rx_state R :=
  let depth := fifo_length (rx_q s) in
  with_rx (fun st =>
    let st := match tp_drops with Some d => stat_add packets_dropped_total d st | None => st end in
    stat_store rx_queue_depth depth st) s.

(** Whether the loop goes on. *)
Definition rx_turn_step (t : rx_turn) (rg : ring_view) s : exec (bool * ring_view * rx_state R) :=
  let rg := kernel_fills (tn_before t) rg in
  match tn_poll t with
  | P_error => Ret (false, rg, s)
  | P_intr | P_other => Ret (true, rg, s)
  | P_timeout drops => Ret (true, rg, sample_kernel_stats drops s)
  | P_ready => '(rg, s) ← ready_loop (length (rg_blocks rg)) 0 t rg s; Ret (true, rg, s)
  end.

(** One turn each time the stop flag is read clear. *)
Fixpoint turns_loop (turns : list rx_turn) (rg : ring_view) s : exec (ring_view * rx_state R) :=
  match turns with
  | [] => Ret (rg, s)
  | t :: turns =>
      '(go, rg, s) ← rx_turn_step t rg s;
      if go : bool then turns_loop turns rg s else Ret (rg, s)
  end.

Definition rx_reader_loop (epoll_ok ctl_ok : bool) (turns : list rx_turn) (rg : ring_view) s
    : exec (ring_view * rx_state R) :=
  if negb epoll_ok then Ret (rg, s) else if negb ctl_ok then Ret (rg, s) else turns_loop turns rg s.
End Walk.

(** ** Set-up and teardown *)

Record tpacket_req3 := { tp_block_size : Z; tp_block_nr : Z; tp_frame_size : Z; tp_frame_nr : Z }.

(** What the system answers: a descriptor, negative for an error; an index for
    an interface's name; whether it accepts the rest; the mapping's address. *)
Record sys := {
  sy_socket : Z; sy_ifindex : list Z -> option Z; sy_bind : Z -> bool; sy_filter : list sock_filter -> bool;
  sy_version : bool; sy_ring : tpacket_req3 -> bool; sy_mmap : Z -> option Z; sy_calloc : bool; sy_thread : bool
}.

(** Descriptors, mappings, allocated arrays and running threads. *)
Record held := { hd_fds : list Z; hd_maps : list (Z * Z); hd_arrays : Z; hd_threads : Z }.

Inductive mapping := M_null | M_failed | M_at (addr : Z).
Record cf_rx_ring_t := {
  r_fd : Z; r_mem : mapping; r_mem_size : Z; r_block_size : Z; r_block_count : Z; r_next_block : Z;
  r_iov : option (list (Z * Z))
}.
Definition ring_zero : cf_rx_ring_t :=
  {| r_fd := 0; r_mem := M_null; r_mem_size := 0; r_block_size := 0; r_block_count := 0; r_next_block := 0;
     r_iov := None |}.
Definition with_fd (fd : Z) (r : cf_rx_ring_t) : cf_rx_ring_t :=
  {| r_fd := fd; r_mem := r_mem r; r_mem_size := r_mem_size r; r_block_size := r_block_size r;
     r_block_count := r_block_count r; r_next_block := r_next_block r; r_iov := r_iov r |}.
Definition with_mem (mem : mapping) (size : Z) (r : cf_rx_ring_t) : cf_rx_ring_t :=
  {| r_fd := r_fd r; r_mem := mem; r_mem_size := size; r_block_size := r_block_size r;
     r_block_count := r_block_count r; r_next_block := r_next_block r; r_iov := r_iov r |}.
Definition with_iov (iov : option (list (Z * Z))) (r : cf_rx_ring_t) : cf_rx_ring_t :=
  {| r_fd := r_fd r; r_mem := r_mem r; r_mem_size := r_mem_size r; r_block_size := r_block_size r;
     r_block_count := r_block_count r; r_next_block := r_next_block r; r_iov := iov |}.

(** One occurrence less. *)
Fixpoint drop_one {A} `{EqDecision A} (x : A) (l : list A) : list A :=
  match l with [] => [] | y :: l => if decide (x = y) then l else y :: drop_one x l end.
Definition h_open (fd : Z) (h : held) : held :=
  {| hd_fds := fd :: hd_fds h; hd_maps := hd_maps h; hd_arrays := hd_arrays h; hd_threads := hd_threads h |}.
Definition h_close (fd : Z) (h : held) : held :=
  {| hd_fds := drop_one fd (hd_fds h); hd_maps := hd_maps h; hd_arrays := hd_arrays h; hd_threads := hd_threads h |}.
Definition h_map (m : Z * Z) (h : held) : held :=
  {| hd_fds := hd_fds h; hd_maps := m :: hd_maps h; hd_arrays := hd_arrays h; hd_threads := hd_threads h |}.
Definition h_unmap (m : Z * Z) (h : held) : held :=
  {| hd_fds := hd_fds h; hd_maps := drop_one m (hd_maps h); hd_arrays := hd_arrays h; hd_threads := hd_threads h |}.
Definition h_arrays (d : Z) (h : held) : held :=
  {| hd_fds := hd_fds h; hd_maps := hd_maps h; hd_arrays := hd_arrays h + d; hd_threads := hd_threads h |}.
Definition h_threads (d : Z) (h : held) : held :=
  {| hd_fds := hd_fds h; hd_maps := hd_maps h; hd_arrays := hd_arrays h; hd_threads := hd_threads h + d |}.

Definition attach_filter (o : sys) (bpf : option (list sock_filter)) (bpf_len : Z) : Z :=
  match bpf with
  | None => 0
  | Some prog =>
      if bpf_len =? 0 then 0
      else if negb (sy_filter o (take (Z.to_nat bpf_len) prog)) then -1 else 0
  end.

Definition IFNAMSIZ : Z := 16.
Definition bind_fd_to_iface (o : sys) (iface : option (list Z)) : Z :=
  match iface with
  | None | Some [] => 0
  | Some name =>
      match sy_ifindex o (snprintf IFNAMSIZ name) with
      | None => -1
      | Some ifindex => if negb (sy_bind o ifindex) then -1 else 0
      end
  end.

Definition rx_ring_teardown (r : cf_rx_ring_t) (h : held) : cf_rx_ring_t * held :=
  let h := match r_mem r with M_at addr => h_unmap (addr, r_mem_size r) h | M_null | M_failed => h end in
  let h := if 0 <=? r_fd r then h_close (r_fd r) h else h in
  let h := match r_iov r with Some _ => h_arrays (-1) h | None => h end in
  (with_fd (-1) ring_zero, h).

Definition rx_ring_setup (o : sys) (cfg : cf_rx_reader_config_t) (h : held) : Z * cf_rx_ring_t * held :=
  let err r h := let '(r, h) := rx_ring_teardown r h in (-1, r, h) in
  let bsize := if block_size cfg =? 0 then RX_READER_DEFAULT_BLOCK_SIZE else block_size cfg in
  let count := if block_count cfg =? 0 then RX_READER_DEFAULT_BLOCK_COUNT else block_count cfg in
  let r := {| r_fd := sy_socket o; r_mem := M_null; r_mem_size := 0; r_block_size := bsize; r_block_count := count;
              r_next_block := 0; r_iov := None |} in
  if r_fd r <? 0 then (-1, r, h)
  else
    let h := h_open (r_fd r) h in
    if negb (bind_fd_to_iface o (interface_name cfg) =? 0) then err r h
    else if negb (attach_filter o (bpf cfg) (bpf_len cfg) =? 0) then err r h
    else if negb (sy_version o) then err r h
    else
      let fsize := if frame_size cfg =? 0 then RX_READER_DEFAULT_FRAME_SIZE else frame_size cfg in
      let req := {| tp_block_size := bsize; tp_block_nr := count; tp_frame_size := fsize;
                    tp_frame_nr := u32 (bsize / fsize * count) |} in
      if negb (sy_ring o req) then err r h
      else
        let size := u64 (bsize * count) in
        match sy_mmap o size with
        | None => err (with_mem M_failed size r) h
        | Some addr =>
            let r := with_mem (M_at addr) size r in
            let h := h_map (addr, size) h in
            if negb (sy_calloc o) then err r h
            else
              let h := h_arrays 1 h in
              let iov := (fun i => (addr + u64 (Z.of_nat i * bsize), bsize)) <$> seq 0 (Z.to_nat count) in
              (0, with_iov (Some iov) r, h)
        end.

Record cf_rx_reader_state_t := { g_cfg : option cf_rx_reader_config_t; g_ring : cf_rx_ring_t; g_started : bool }.

(** [usable]: there are a configuration, a queue and counters. *)
Definition cf_rx_reader_start (o : sys) (usable : bool) (cfg : cf_rx_reader_config_t) (g : cf_rx_reader_state_t) (h : held)
    : Z * cf_rx_reader_state_t * held :=
  if negb usable then (-1, g, h)
  else if g_started g then (-1, g, h)
  else
    let '(rc, ring, h) := rx_ring_setup o cfg h in
    if negb (rc =? 0) then (-1, {| g_cfg := Some cfg; g_ring := ring; g_started := false |}, h)
    else if negb (sy_thread o) then
      let '(ring, h) := rx_ring_teardown ring h in
      (-1, {| g_cfg := Some cfg; g_ring := ring; g_started := false |}, h)
    else (0, {| g_cfg := Some cfg; g_ring := ring; g_started := true |}, h_threads 1 h).

(** The flag the loop polls is set before the thread is joined. *)
Definition cf_rx_reader_stop (g : cf_rx_reader_state_t) (sy : cf_sync_state) (h : held)
    : cf_rx_reader_state_t * cf_sync_state * held :=
  if negb (g_started g) then (g, sy, h)
  else
    let sy := cf_stop_notify 0 sy in
    let h := h_threads (-1) h in
    let '(ring, h) := rx_ring_teardown (g_ring g) h in
    ({| g_cfg := g_cfg g; g_ring := ring; g_started := false |}, sy, h).
