(* ===== verification/RxReaderProperties.v ===== *)
(** * RxReaderProperties: no frame of the ring is skipped or read twice

    A block that holds packets as the kernel lays them out is walked packet by
    packet; over any run the frames handled and those still in the reader's
    blocks are the frames the kernel filled, in order; and the reader holds its
    descriptor, mapping, array and thread exactly while it is started. *)

From S2P Require Import Prelude Core Counters Queue QueuePolicy Observation Worker Bpf IpFmt CaptureFeed RxReader.

(** ** Packets of a block *)

Record tpacket := { t_sec : Z; t_nsec : Z; t_len : Z; t_mac : Z; t_frame : list Z }.

(** A [tpacket3_hdr] at [off], its frame [t_mac] bytes behind. *)
Record packet_at (blk : list Z) (off : Z) (p : tpacket) : Prop := {
  pa_sec : rd_le blk (off + TP_SEC) 4 = Ret (t_sec p);
  pa_nsec : rd_le blk (off + TP_NSEC) 4 = Ret (t_nsec p);
  pa_snaplen : rd_le blk (off + TP_SNAPLEN) 4 = Ret (zlen (t_frame p));
  pa_len : rd_le blk (off + TP_LEN) 4 = Ret (t_len p);
  pa_mac : rd_le blk (off + TP_MAC) 2 = Ret (t_mac p);
  pa_frame : rd_n blk (off + t_mac p) (zlen (t_frame p)) = Ret (t_frame p)
}.

(** Each packet says how far the next one is. *)
Fixpoint chain (blk : list Z) (off : Z) (ps : list tpacket) : Prop :=
  match ps with
  | [] => True
  | p :: ps => packet_at blk off p /\ exists next, rd_le blk (off + TP_NEXT_OFFSET) 4 = Ret next /\ chain blk (off + next) ps
  end.

(** A block the kernel hands over with the packets [ps]. *)
Record laid_out (blk : list Z) (ps : list tpacket) : Prop := {
  lo_bytes : bytes_ok blk;
  lo_status : block_is_ready blk = Ret true;
  lo_num : rd_le blk BD_NUM_PKTS 4 = Ret (zlen ps);
  lo_first : exists first, rd_le blk BD_OFFSET_TO_FIRST_PKT 4 = Ret first /\ chain blk first ps
}.

(** ** The item of a packet *)

(** How much of a frame is copied: the snaplen, if any, and the item's room. *)
Definition copied (cfg : cf_rx_reader_config_t) (n : Z) : Z :=
  let n := if copy_snaplen cfg =? 0 then n else Z.min (copy_snaplen cfg) n in Z.min CLOUDFLOW_PACKET_MAX_SIZE n.

Record packet_item (cfg : cf_rx_reader_config_t) (p : tpacket) (item : cf_packet_item_t) : Prop := {
  pi_ok : item_ok item;
  pi_time : pk_observed_time_unix_nano item = t_sec p * 1000000000 + t_nsec p;
  pi_len : pk_packet_len item = t_len p;
  pi_frame : frame_of item = take (Z.to_nat (copied cfg (zlen (t_frame p)))) (t_frame p);
  pi_truncated : truncated item = (copied cfg (zlen (t_frame p)) <? zlen (t_frame p));
  pi_snap : snap_truncated item = negb (copy_snaplen cfg =? 0) && (copy_snaplen cfg <? zlen (t_frame p))
}.

Definition junk_ok (junk : list Z) : Prop := bytes_ok junk /\ zlen junk = CLOUDFLOW_PACKET_MAX_SIZE.

Lemma rd_le_ok b off n : 0 <= off -> 0 <= n -> off + n <= zlen b -> rd_le b off n = Ret (le_value (slice b off n)).
Proof. intros. unfold rd_le. by rewrite rd_n_ok. Qed.

Lemma rd_n_inv b off n x : rd_n b off n = Ret x -> x = slice b off n /\ 0 <= off /\ 0 <= n /\ off + n <= zlen b.
Proof. unfold rd_n. destruct (_ && _) eqn:E; [|done]. intros [= <-]. split; [done|lia]. Qed.

Lemma rd_le_bound b off n v : bytes_ok b -> rd_le b off n = Ret v -> 0 <= v < 256 ^ n.
Proof.
  intros Hb. unfold rd_le. intros (x & Hx & [= <-])%bind_Ret_inv. apply rd_n_inv in Hx as (-> & H0 & Hn & Hl).
  assert (bytes_ok (rev (slice b off n))) as Hr by (apply Forall_rev; by apply slice_bytes_ok).
  pose proof (be_value_bound _ 0 Hr ltac:(lia)) as HB. rewrite length_rev, zlen_slice in HB by lia.
  unfold le_value. lia.
Qed.

Ltac by_bound := symmetry; first [apply Z.ltb_lt; lia | apply Z.ltb_ge; lia | done].

(** ** The ring *)

Definition well_laid (blk : list Z) : Prop := exists ps, laid_out blk ps.

(** [pending]: from the cursor on, in order, the blocks the reader owns; the
    others are the kernel's, which fills the one after them next. *)
Record ring_inv (rg : ring_view) (handled pending : list (list Z)) : Prop := {
  ri_cursor : 0 <= rg_next_block rg < zlen (rg_blocks rg);
  ri_kernel : rg_kernel rg = (rg_next_block rg + zlen pending) mod zlen (rg_blocks rg);
  ri_room : (length pending <= length (rg_blocks rg))%nat;
  ri_filled : rg_filled rg = handled ++ pending;
  ri_laid : Forall well_laid pending;
  ri_blocks : forall j, 0 <= j < zlen (rg_blocks rg) ->
    exists blk, rg_blocks rg !! Z.to_nat ((rg_next_block rg + j) mod zlen (rg_blocks rg)) = Some blk /\
      match pending !! Z.to_nat j with Some b => blk = b | None => block_is_ready blk = Ret false end
}.

Definition turn_ok (t : rx_turn) : Prop :=
  Forall well_laid (tn_before t) /\ (forall i, Forall well_laid (tn_fills t i)) /\ forall i k, junk_ok (tn_junk t i k).

Lemma wrap x n : 0 <= x < 2 * n -> x mod n = if x <? n then x else x - n.
Proof.
  intros Hx. destruct (x <? n) eqn:E; [apply Z.mod_small; lia|].
  symmetry. apply (Z.mod_unique _ _ 1); lia.
Qed.

Lemma ready_inv blk b : block_is_ready blk = Ret b -> BD_BLOCK_STATUS + 4 <= zlen blk.
Proof.
  unfold block_is_ready, rd_le. intros (x & (y & Hy & _)%bind_Ret_inv & _)%bind_Ret_inv.
  apply rd_n_inv in Hy. lia.
Qed.

Lemma mark_done blk b : block_is_ready blk = Ret b ->
  exists blk', block_mark_done blk = Ret blk' /\ block_is_ready blk' = Ret false.
Proof.
  intros Hl%ready_inv. unfold BD_BLOCK_STATUS in Hl. exists (splice blk 8 (le_bytes 4 0)). split.
  - unfold block_mark_done. apply wr_n_ok; [done|]. rewrite le_bytes_length. unfold BD_BLOCK_STATUS. lia.
  - unfold block_is_ready. rewrite rd_le_ok by (rewrite ?length_splice; rewrite ?le_bytes_length; unfold BD_BLOCK_STATUS; lia).
    unfold BD_BLOCK_STATUS. rewrite slice_splice_same by (rewrite ?le_bytes_length; lia). done.
Qed.

Lemma kernel_fill_inv rg h p blk : ring_inv rg h p -> well_laid blk ->
  exists p', ring_inv (kernel_fill rg blk) h p' /\ p `prefix_of` p' /\
    length (rg_blocks (kernel_fill rg blk)) = length (rg_blocks rg).
Proof.
  intros Hi Hb. pose proof Hi as [Hc Hk Hr Hf Hl Hbs]. unfold kernel_fill. rewrite Hk.
  set (n := zlen (rg_blocks rg)) in *.
  destruct (decide (length p = length (rg_blocks rg))) as [Hfull|Hroom].
  - destruct (Hbs 0 ltac:(lia)) as (b & E & Hp). replace (rg_next_block rg + zlen p) with (rg_next_block rg + 1 * n) by lia.
    rewrite Z.mod_add, Z.add_0_r in * by lia. rewrite E. destruct p as [|b' p]; [cbn in Hfull; lia|]. change (b = b') in Hp. subst b'.
    apply list.Forall_cons in Hl as [[ps [_ Hs _ _]] _]. rewrite Hs. by exists (b :: p).
  - destruct (Hbs (zlen p) ltac:(lia)) as (b & E & Hp). rewrite E. rewrite Nat2Z.id, lookup_ge_None_2 in Hp by lia. rewrite Hp.
    exists (p ++ [blk]). split; [|split; [by apply prefix_app_r|cbn; by rewrite length_insert]].
    constructor; cbn [rg_blocks rg_next_block rg_kernel rg_filled]; rewrite ?length_insert, ?length_app; fold n; [done|..].
    + rewrite Zplus_mod_idemp_l. f_equal. cbn [length]. lia.
    + cbn [length]. lia.
    + by rewrite Hf, app_assoc.
    + apply Forall_app. split; [done|]. by constructor.
    + intros j Hj. rewrite !wrap by lia. destruct (decide (j = zlen p)) as [->|Hne].
      * exists blk. split.
        { apply list_lookup_insert_eq. pose proof (wrap (rg_next_block rg + zlen p) n ltac:(lia)) as W.
          destruct (_ <? n) eqn:E1; lia. }
        rewrite Nat2Z.id, lookup_app_r, Nat.sub_diag by lia. done.
      * destruct (Hbs j Hj) as (b' & E' & Hp'). exists b'. rewrite wrap in E' by lia. split.
        { rewrite list_lookup_insert_ne; [done|].
          destruct (rg_next_block rg + zlen p <? n) eqn:E1, (rg_next_block rg + j <? n) eqn:E2; lia. }
        destruct (decide (j < zlen p)).
        { rewrite lookup_app_l by lia. done. }
        rewrite lookup_ge_None_2 in Hp' by lia. rewrite lookup_ge_None_2 by (rewrite length_app; cbn; lia). done.
Qed.

Lemma kernel_fills_inv blks : forall rg h p, ring_inv rg h p -> Forall well_laid blks ->
  exists p', ring_inv (kernel_fills blks rg) h p' /\ p `prefix_of` p' /\
    length (rg_blocks (kernel_fills blks rg)) = length (rg_blocks rg).
Proof.
  induction blks as [|blk blks IH]; intros rg h p Hi Hb; [by exists p|].
  apply list.Forall_cons in Hb as [Hb Hbs]. destruct (kernel_fill_inv rg h p blk Hi Hb) as (p1 & Hi1 & Hp1 & L1).
  destruct (IH _ h p1 Hi1 Hbs) as (p2 & Hi2 & Hp2 & L2). exists p2. split_and!; [done|by etransitivity|].
  cbn [kernel_fills foldl]. unfold kernel_fills in L2. congruence.
Qed.

(** The cursor's block, handed back. *)
Lemma hand_back_inv rg h b p blk : ring_inv rg h (b :: p) -> block_is_ready blk = Ret false ->
  ring_inv {| rg_blocks := <[Z.to_nat (rg_next_block rg) := blk]> (rg_blocks rg);
              rg_next_block := (rg_next_block rg + 1) mod zlen (rg_blocks rg);
              rg_kernel := rg_kernel rg; rg_filled := rg_filled rg |} (h ++ [b]) p.
Proof.
  intros [Hc Hk Hr Hf Hl Hbs] Hd. set (n := zlen (rg_blocks rg)) in *. cbn [length] in Hr.
  constructor; cbn [rg_blocks rg_next_block rg_kernel rg_filled]; rewrite ?length_insert; fold n.
  - apply Z.mod_pos_bound. lia.
  - rewrite Hk, Zplus_mod_idemp_l. f_equal. cbn [length]. lia.
  - lia.
  - by rewrite Hf, <- app_assoc.
  - by apply list.Forall_cons in Hl as [_ ?].
  - intros j Hj. rewrite Zplus_mod_idemp_l. replace (rg_next_block rg + 1 + j) with (rg_next_block rg + (j + 1)) by lia.
    destruct (decide (j + 1 = n)) as [E|Hne].
    + exists blk. rewrite E. replace (rg_next_block rg + n) with (rg_next_block rg + 1 * n) by lia.
      rewrite Z.mod_add, Z.mod_small by lia. split; [apply list_lookup_insert_eq; lia|].
      by rewrite lookup_ge_None_2 by lia.
    + destruct (Hbs (j + 1) ltac:(lia)) as (b' & E' & Hp'). exists b'. split.
      * rewrite list_lookup_insert_ne; [done|]. rewrite wrap by lia. destruct (_ <? n) eqn:E1; lia.
      * replace (Z.to_nat (j + 1)) with (S (Z.to_nat j)) in Hp' by lia. done.
Qed.

(** ** Walking *)

Section Properties.
Context {R : Type} `{GaugedFifo R}.
Variable cfg : cf_rx_reader_config_t.
Hypothesis snaplen_ok : 0 <= copy_snaplen cfg < 2 ^ 32.
Implicit Types s : rx_state R.

Lemma copy_limit_spec n : 0 <= n -> exists flags, copy_limit cfg n = (copied cfg n, flags) /\ 0 <= flags < 2 ^ 32 /\
  negb (Z.land flags CF_PACKET_FLAG_TRUNCATED =? 0) = (copied cfg n <? n) /\
  negb (Z.land flags CF_PACKET_FLAG_SNAP_TRUNCATED =? 0) = negb (copy_snaplen cfg =? 0) && (copy_snaplen cfg <? n).
Proof.
  intros Hn. unfold copy_limit, copied. destruct (copy_snaplen cfg =? 0) eqn:E0; cbn [negb andb].
  - destruct (CLOUDFLOW_PACKET_MAX_SIZE <? n) eqn:E1; eexists; (split; [f_equal; lia|]); (split; [done|]); split; try done; by_bound.
  - destruct (copy_snaplen cfg <? n) eqn:E1; destruct (CLOUDFLOW_PACKET_MAX_SIZE <? _) eqn:E2;
      eexists; (split; [f_equal; lia|]); (split; [done|]); split; try done; by_bound.
Qed.

Lemma handle_packet_spec e junk blk off p s : rx_ok s -> bytes_ok blk -> junk_ok junk -> packet_at blk off p ->
  runs (handle_packet cfg e junk blk off s) (fun s' => exists item, packet_item cfg p item /\ rx_flow [item] s s').
Proof.
  intros Hs Hb [Hj Hjl] [P1 P2 P3 P4 P5 P6]. unfold handle_packet. rewrite P1, P2, P4, P3. cbn [mbind exec_bind].
  destruct (copy_limit_spec (zlen (t_frame p)) ltac:(lia)) as (flags & -> & Hfl & Ht & Hsn). rewrite P5. cbn [mbind exec_bind].
  set (n := copied cfg (zlen (t_frame p))) in *.
  assert (0 <= n <= zlen (t_frame p) /\ n <= CLOUDFLOW_PACKET_MAX_SIZE) as [Hn Hmax].
  { subst n. unfold copied; cbv zeta. destruct (copy_snaplen cfg =? 0); unfold CLOUDFLOW_PACKET_MAX_SIZE in *; lia. }
  apply rd_n_inv in P6 as (Ef & G1 & _ & G2). rewrite rd_n_ok by lia. cbn [mbind exec_bind].
  assert (slice blk (off + t_mac p) n = take (Z.to_nat n) (t_frame p)) as Hslice.
  { rewrite Ef. unfold slice. rewrite take_take. f_equal. lia. }
  rewrite Hslice. set (frame := take (Z.to_nat n) (t_frame p)) in *.
  assert (zlen frame = n) as Hfl2 by (subst frame; rewrite length_take; lia).
  rewrite wr_n_ok by lia. cbn [mbind exec_bind]. set (item := {| pk_observed_time_unix_nano := _ |}).
  assert (bytes_ok frame) as Hfb by (subst frame; apply Forall_take; rewrite Ef; by apply slice_bytes_ok).
  pose proof (rd_le_bound _ _ _ _ Hb P1). pose proof (rd_le_bound _ _ _ _ Hb P2). pose proof (rd_le_bound _ _ _ _ Hb P4).
  assert (item_ok item) as Hi.
  { split; [constructor|split]; cbn; [by apply splice_bytes_ok|rewrite length_splice; lia|lia|lia|done]. }
  eapply runs_mono; [exact (rx_feed_one_spec e (on_full cfg) item s Hs Hi)|]. intros s' Hflow.
  exists item. split; [|done]. constructor; try done. change (slice (splice junk 0 frame) 0 n = frame). apply slice_splice_same; lia.
Qed.

Lemma walk_loop_spec env junk blk ps : forall i off s, rx_ok s -> bytes_ok blk -> (forall i, junk_ok (junk i)) ->
  chain blk off ps ->
  runs (walk_loop cfg (length ps) env junk i blk off s)
    (fun s' => exists items, Forall2 (packet_item cfg) ps items /\ rx_flow items s s').
Proof.
  induction ps as [|p ps IH]; intros i off s Hs Hb Hj; cbn [chain length walk_loop].
  { intros _. exists []. split; [constructor|by apply rx_flow_refl]. }
  intros (Hp & next & Hn & Hc). apply runs_bind. eapply runs_mono; [by apply handle_packet_spec|].
  intros s1 (item & Hi & F1). rewrite Hn. cbn [mbind exec_bind].
  eapply runs_mono; [apply IH; [by eapply rx_flow_ok|done..]|]. intros s2 (items & His & F2).
  exists (item :: items). split; [by constructor|]. exact (rx_flow_trans [item] items _ _ _ F1 F2).
Qed.

Lemma block_walk_spec env junk blk ps s : rx_ok s -> (forall i, junk_ok (junk i)) -> laid_out blk ps ->
  runs (block_walk cfg env junk blk s) (fun s' => exists items, Forall2 (packet_item cfg) ps items /\ rx_flow items s s').
Proof.
  intros Hs Hj [Hb _ Hn (first & Hf & Hc)]. unfold block_walk. rewrite Hf, Hn. cbn [mbind exec_bind].
  rewrite Nat2Z.id. by apply walk_loop_spec.
Qed.

(** ** Turns *)

(** The blocks [blks] were walked: each packet counted and pushed, in order. *)
Definition walked (blks : list (list Z)) s s' : Prop :=
  exists packets items, Forall2 laid_out blks packets /\ Forall2 (packet_item cfg) (concat packets) items /\
    rx_flow items s s'.

Lemma walked_none s : rx_ok s -> walked [] s s.
Proof. intros Hs. exists [], []. split_and!; [constructor..|by apply rx_flow_refl]. Qed.

Lemma walked_trans d1 d2 s1 s2 s3 : walked d1 s1 s2 -> walked d2 s2 s3 -> walked (d1 ++ d2) s1 s3.
Proof.
  intros (ps1 & is1 & A1 & B1 & C1) (ps2 & is2 & A2 & B2 & C2). exists (ps1 ++ ps2), (is1 ++ is2). split_and!.
  - by apply Forall2_app.
  - rewrite concat_app. by apply Forall2_app.
  - by eapply rx_flow_trans.
Qed.

Lemma walked_ok d s s' : walked d s s' -> rx_ok s'.
Proof. intros (? & ? & _ & _ & F). by eapply rx_flow_ok. Qed.

Lemma block_walk_walked env junk blk s : rx_ok s -> (forall i, junk_ok (junk i)) -> well_laid blk ->
  runs (block_walk cfg env junk blk s) (walked [blk] s).
Proof.
  intros Hs Hj [ps Hps]. eapply runs_mono; [by apply block_walk_spec|]. intros s' (items & Hi & F).
  exists [ps], items. split_and!; [constructor; [done|constructor]| |done]. cbn. by rewrite app_nil_r.
Qed.

(** [n] rounds walk at least the first [n] of the pending blocks. *)
Lemma ready_loop_spec t n : turn_ok t -> forall i rg h p p0 s, ring_inv rg h p -> rx_ok s ->
  p0 `prefix_of` p -> (length p0 <= n)%nat ->
  runs (ready_loop cfg n i t rg s) (fun '(rg', s') => exists d p', ring_inv rg' (h ++ d) p' /\ walked d s s' /\
    p0 `prefix_of` d).
Proof.
  intros (_ & Hfills & Hjunk). induction n as [|n IH]; intros i rg h p p0 s Hi Hs Hpre Hn; cbn [ready_loop].
  { exists [], p. rewrite app_nil_r. destruct p0; [|cbn in Hn; lia]. split_and!; [done|by apply walked_none|done]. }
  destruct (kernel_fills_inv (tn_fills t i) rg h p Hi (Hfills i)) as (p1 & Hi1 & Hp1 & _).
  set (rg1 := kernel_fills (tn_fills t i) rg) in *. pose proof Hi1 as [Hc _ _ _ Hl Hbs].
  destruct (Hbs 0 ltac:(lia)) as (b & E & Hb). rewrite Z.add_0_r, Z.mod_small in E by lia. rewrite E.
  assert (p0 `prefix_of` p1) as Hp01 by (by etransitivity).
  destruct p1 as [|b1 p1].
  - change (block_is_ready b = Ret false) in Hb. rewrite Hb. cbn [mbind exec_bind negb].
    exists [], []. rewrite app_nil_r. split_and!; [done|by apply walked_none|done].
  - change (b = b1) in Hb. subst b1. pose proof Hl as [Hwl _]%list.Forall_cons. destruct Hwl as [ps Hlay].
    rewrite (lo_status _ _ Hlay). cbn [mbind exec_bind negb]. apply runs_bind.
    eapply runs_mono; [apply block_walk_walked; [done|apply Hjunk|by exists ps]|]. intros s1 W1.
    destruct (mark_done b true (lo_status _ _ Hlay)) as (b' & -> & Hd). cbn [mbind exec_bind].
    pose proof (hand_back_inv rg1 h b p1 b' Hi1 Hd) as Hi2. destruct p0 as [|b0 p0].
    + eapply runs_mono; [apply (IH _ _ _ _ [] _ Hi2); [by eapply walked_ok|apply prefix_nil|cbn; lia]|].
      intros [rg' s'] (d & p' & Hi' & W' & _). exists (b :: d), p'. rewrite <- app_assoc in Hi'.
      split_and!; [done|by apply (walked_trans [b] d _ s1)|apply prefix_nil].
    + apply prefix_cons_inv_1 in Hp01 as Hb0. apply prefix_cons_inv_2 in Hp01. subst b0.
      eapply runs_mono; [apply (IH _ _ _ _ p0 _ Hi2); [by eapply walked_ok|done|cbn in Hn; lia]|].
      intros [rg' s'] (d & p' & Hi' & W' & Hpd). exists (b :: d), p'. rewrite <- app_assoc in Hi'.
      split_and!; [done|by apply (walked_trans [b] d _ s1)|by apply prefix_cons].
Qed.

Lemma counted_sample items s s' st st1 st2 q : (forall c, c <> packets_dropped_total -> c <> rx_queue_depth -> st2 c = st1 c) ->
  passed q = passed s' -> counted_for items s s' st st1 -> counted_for items s q st st2.
Proof. intros Hc Hq. unfold counted_for. rewrite Hq, !Hc by done. done. Qed.

(** Sampling touches two other counters. *)
Lemma sample_flow d items s s' : rx_flow items s s' -> rx_flow items s (sample_kernel_stats d s').
Proof.
  intros [F1 F2 F3 F4 F5 F6 F7]. constructor; try done. cbn [sample_kernel_stats with_rx rx_stats].
  destruct (rx_stats s) as [st|]; [|by rewrite F7]. destruct F7 as (st1 & -> & Hok & Hcount).
  eexists. split; [done|]. split.
  - destruct d; unfold stat_add; by repeat apply stats_ok_store.
  - eapply counted_sample; [|done|exact Hcount]. intros c Hc1 Hc2.
    destruct d; unfold stat_add, stat_store; by repeat (rewrite decide_False by done).
Qed.

(** One turn: the blocks walked were the next filled ones; a turn of a ready
    ring walks all that were filled when its poll returned. *)
Lemma turn_spec t rg h p s : turn_ok t -> ring_inv rg h p -> rx_ok s ->
  runs (rx_turn_step cfg t rg s) (fun '(_, rg', s') => exists d p', ring_inv rg' (h ++ d) p' /\ walked d s s' /\
    (tn_poll t = P_ready -> rg_filled (kernel_fills (tn_before t) rg) `prefix_of` h ++ d)).
Proof.
  intros Ht Hi Hs. pose proof Ht as (Hbefore & _). unfold rx_turn_step.
  destruct (kernel_fills_inv (tn_before t) rg h p Hi Hbefore) as (p1 & Hi1 & _ & _).
  set (rg1 := kernel_fills (tn_before t) rg) in *. destruct (tn_poll t) as [| |dr| |].
  1, 2, 4: exists [], p1; rewrite app_nil_r; split_and!; [done|by apply walked_none|done].
  - exists [], p1. rewrite app_nil_r. split_and!; [done| |done].
    exists [], []. split_and!; [constructor..|]. apply sample_flow. by apply rx_flow_refl.
  - apply runs_bind. eapply runs_mono; [apply (ready_loop_spec t _ Ht 0%nat rg1 h p1 p1 s Hi1 Hs); [done|apply Hi1]|].
    intros [rg' s'] (d & p' & Hi' & W & Hpd). exists d, p'. split_and!; [done|done|]. intros _.
    rewrite (ri_filled _ _ _ Hi1). by apply prefix_app.
Qed.

Lemma turns_spec turns : forall rg h p s, Forall turn_ok turns -> ring_inv rg h p -> rx_ok s ->
  runs (turns_loop cfg turns rg s) (fun '(rg', s') => exists d p', ring_inv rg' (h ++ d) p' /\ walked d s s').
Proof.
  induction turns as [|t turns IH]; intros rg h p s Ht Hi Hs; cbn [turns_loop].
  { exists [], p. rewrite app_nil_r. split; [done|by apply walked_none]. }
  apply list.Forall_cons in Ht as [Ht Hts]. apply runs_bind. eapply runs_mono; [by apply (turn_spec t rg h p)|].
  intros [[go rg1] s1] (d & p1 & Hi1 & W & _). destruct go; [|by exists d, p1].
  eapply runs_mono; [apply (IH _ _ _ _ Hts Hi1); by eapply walked_ok|].
  intros [rg2 s2] (d2 & p2 & Hi2 & W2). exists (d ++ d2), p2. rewrite app_assoc. split; [done|].
  by eapply walked_trans.
Qed.

(** C13. From any ring whose blocks are all the kernel's, whatever the kernel
    fills and when, however the polls come out and whatever the queue's consumer
    does, the reader never leaves a block and ends with: the blocks the kernel
    filled are those walked followed by those still the reader's, from the cursor
    on; of the walked ones every packet was counted and pushed once, in order,
    its frame cut at the snaplen and the item's room and so marked. *)
Theorem ring_lossless epoll_ok ctl_ok turns rg s : ring_inv rg [] [] -> rx_ok s -> Forall turn_ok turns ->
  runs (rx_reader_loop cfg epoll_ok ctl_ok turns rg s) (fun '(rg', s') => exists handled pending,
    rg_filled rg' = handled ++ pending /\ ring_inv rg' handled pending /\ walked handled s s').
Proof.
  intros Hi Hs Ht. eapply (runs_mono _ (fun '(rg', s') => exists d p, ring_inv rg' d p /\ walked d s s')).
  - unfold rx_reader_loop. destruct epoll_ok, ctl_ok; [by apply (turns_spec _ rg [] [])|..];
      (exists [], []; split; [done|by apply walked_none]).
  - intros [rg' s'] (d & p & Hi' & W). exists d, p. split; [apply Hi'|done].
Qed.

(** A turn whose poll reports the ring walks every block the kernel had
    filled when the poll returned, however many more are filled meanwhile. *)
Theorem turn_drains t rg handled pending s : turn_ok t -> ring_inv rg handled pending -> rx_ok s -> tn_poll t = P_ready ->
  runs (rx_turn_step cfg t rg s) (fun '(go, rg', s') => exists d pending',
    ring_inv rg' (handled ++ d) pending' /\ walked d s s' /\
    rg_filled (kernel_fills (tn_before t) rg) `prefix_of` handled ++ d).
Proof.
  intros Ht Hi Hs Hp. eapply runs_mono; [by apply (turn_spec t rg handled pending)|]. intros [[go rg'] s'] (d & p' & Hi' & W & Hd). exists d, p'. split_and!; [done|done|by apply Hd].
Qed.

End Properties.

(** ** What the reader holds *)

Definition config_ok (cfg : cf_rx_reader_config_t) : Prop :=
  0 <= block_size cfg < 2 ^ 32 /\ 0 <= block_count cfg < 2 ^ 32.

(** [h'] is [h] and the reader's socket, mapping, array and thread; the array
    gives the blocks, one behind the other, of the whole mapping. *)
Definition holds (g : cf_rx_reader_state_t) (h h' : held) : Prop :=
  exists addr iov, let r := g_ring g in
    0 <= r_fd r /\ r_mem r = M_at addr /\ r_iov r = Some iov /\ r_mem_size r = r_block_size r * r_block_count r /\
    h' = {| hd_fds := r_fd r :: hd_fds h; hd_maps := (addr, r_mem_size r) :: hd_maps h;
            hd_arrays := hd_arrays h + 1; hd_threads := hd_threads h + 1 |} /\
    0 <= r_next_block r < r_block_count r /\ zlen iov = r_block_count r /\
    forall i, 0 <= i < r_block_count r -> iov !! Z.to_nat i = Some (addr + i * r_block_size r, r_block_size r).

Inductive rx_op := Op_start (o : sys) (usable : bool) (cfg : cf_rx_reader_config_t) | Op_stop.
Definition op_ok (op : rx_op) : Prop := match op with Op_start _ _ cfg => config_ok cfg | Op_stop => True end.
Definition op_step (st : cf_rx_reader_state_t * cf_sync_state * held) (op : rx_op) : cf_rx_reader_state_t * cf_sync_state * held :=
  let '(g, sy, h) := st in
  match op with
  | Op_start o usable cfg => let '(_, g, h) := cf_rx_reader_start o usable cfg g h in (g, sy, h)
  | Op_stop => cf_rx_reader_stop g sy h
  end.

Lemma drop_one_head {A} `{EqDecision A} (x : A) l : drop_one x (x :: l) = l.
Proof. cbn. by rewrite decide_True. Qed.

(** Tearing down a ring that holds a socket, and perhaps a mapping and an array. *)
Lemma teardown_held r h maps arrays :
  0 <= r_fd r ->
  match r_mem r with M_at addr => maps = (addr, r_mem_size r) :: hd_maps h | _ => maps = hd_maps h end ->
  arrays = (match r_iov r with Some _ => hd_arrays h + 1 | None => hd_arrays h end) ->
  (rx_ring_teardown r {| hd_fds := r_fd r :: hd_fds h; hd_maps := maps; hd_arrays := arrays; hd_threads := hd_threads h |}).2 = h.
Proof.
  destruct h as [fds mps arr thr]. intros Hfd Hm ->. unfold rx_ring_teardown. replace (0 <=? r_fd r) with true by lia.
  cbn [hd_maps hd_arrays hd_fds hd_threads snd] in *.
  destruct (r_mem r) as [| |addr]; subst maps; destruct (r_iov r);
    unfold h_unmap, h_close, h_arrays; cbn [hd_maps hd_arrays hd_fds hd_threads]; rewrite ?drop_one_head; f_equal; lia.
Qed.

Lemma setup_spec o cfg h : config_ok cfg ->
  let '(rc, r, h') := rx_ring_setup o cfg h in
  (rc = -1 /\ h' = h) \/
  (rc = 0 /\ holds {| g_cfg := Some cfg; g_ring := r; g_started := true |} h (h_threads 1 h')).
Proof.
  intros [Hs Hc]. unfold rx_ring_setup.
  set (bsize := if block_size cfg =? 0 then _ else _). set (count := if block_count cfg =? 0 then _ else _).
  assert (0 < bsize < 2 ^ 32) as Hbs.
  { subst bsize. unfold RX_READER_DEFAULT_BLOCK_SIZE. destruct (block_size cfg =? 0) eqn:E; lia. }
  assert (0 < count < 2 ^ 32) as Hcs.
  { subst count. unfold RX_READER_DEFAULT_BLOCK_COUNT. destruct (block_count cfg =? 0) eqn:E; lia. }
  assert (u64 (bsize * count) = bsize * count) as Hsize by (apply u64_id; nia).
  clearbody bsize count. cbn [r_fd]. destruct (sy_socket o <? 0) eqn:Efd; [by left|].
  set (r := {| r_fd := _ |}). set (size := u64 _) in *. clearbody size. subst size. cbv zeta.
  pose proof (fun r' maps arrays => teardown_held r' h maps arrays) as HT.
  assert (forall r' maps arrays, r_fd r' = sy_socket o ->
    match r_mem r' with M_at addr => maps = (addr, r_mem_size r') :: hd_maps h | _ => maps = hd_maps h end ->
    arrays = (match r_iov r' with Some _ => hd_arrays h + 1 | None => hd_arrays h end) ->
    let '(rc, r2, h') := (let '(r2, h2) := rx_ring_teardown r'
      {| hd_fds := sy_socket o :: hd_fds h; hd_maps := maps; hd_arrays := arrays; hd_threads := hd_threads h |} in (-1, r2, h2)) in
    (rc = -1 /\ h' = h) \/ (rc = 0 /\ holds {| g_cfg := Some cfg; g_ring := r2; g_started := true |} h (h_threads 1 h'))) as Herr.
  { intros r' maps arrays Efd' Hm Ha. specialize (HT r' maps arrays ltac:(lia) Hm Ha). rewrite Efd' in HT.
    destruct (rx_ring_teardown _ _) as [r2 h2]. cbn in HT. by left. }
  destruct (negb _); [by apply Herr|]. destruct (negb _); [by apply Herr|]. destruct (negb _); [by apply Herr|].
  destruct (negb _); [by apply Herr|]. destruct (sy_mmap o _) as [addr|]; [|by apply Herr].
  destruct (negb _); [by apply Herr|]. right. split; [done|]. do 2 eexists. split_and!; try done.
  - cbn. lia.
  - cbn. lia.
  - cbn. rewrite length_fmap, length_seq. lia.
  - cbn. intros i Hi. rewrite list_lookup_fmap, lookup_seq_lt by lia. cbn. rewrite Z2Nat.id, u64_id by nia. done.
Qed.

Definition held_ok (h0 : held) (g : cf_rx_reader_state_t) (h : held) : Prop := if g_started g then holds g h0 h else h = h0.

Lemma start_spec o usable cfg g h0 h : config_ok cfg -> held_ok h0 g h ->
  let '(rc, g', h') := cf_rx_reader_start o usable cfg g h in
  held_ok h0 g' h' /\ (rc = 0 /\ g_started g = false /\ g_started g' = true \/
                       rc = -1 /\ h' = h /\ g_started g' = g_started g).
Proof.
  intros Hc Hg. unfold cf_rx_reader_start. destruct usable; cbn [negb]; [|by auto].
  destruct (g_started g) eqn:E; [by split; [|right]|]. unfold held_ok in Hg. rewrite E in Hg. subst h.
  pose proof (setup_spec o cfg h0 Hc) as HS. destruct (rx_ring_setup o cfg h0) as [[rc r] h'].
  destruct HS as [[-> ->]|[-> HS]]; cbn [Z.eqb negb]; [by split; [|right]|].
  destruct (sy_thread o); cbn [negb]; [by split; [|left]|].
  assert ((rx_ring_teardown r h').2 = h0) as HT; [|destruct (rx_ring_teardown r h') as [r2 h2]; cbn in HT; subst; by split; [|right]].
  destruct HS as (addr & iov & Hfd & Hm & Hi & Hsz & Eh & _). cbn [g_ring] in *.
  destruct h' as [fds maps arr thr]. unfold h_threads in Eh. cbn in Eh. injection Eh as -> -> -> Et.
  replace thr with (hd_threads h0) by lia. apply teardown_held; [done|by rewrite Hm|by rewrite Hi].
Qed.

Lemma stop_spec g sy h0 h : held_ok h0 g h ->
  let '(g', sy', h') := cf_rx_reader_stop g sy h in
  g_started g' = false /\ h' = h0 /\ (g_started g = true -> cf_stop_notified sy' = true).
Proof.
  unfold held_ok, cf_rx_reader_stop. destruct (g_started g) eqn:E; cbn [negb]; [|by intros ->].
  intros (addr & iov & Hfd & Hm & Hi & Hsz & -> & _).
  assert ((rx_ring_teardown (g_ring g) (h_threads (-1) {| hd_fds := r_fd (g_ring g) :: hd_fds h0;
    hd_maps := (addr, r_mem_size (g_ring g)) :: hd_maps h0; hd_arrays := hd_arrays h0 + 1; hd_threads := hd_threads h0 + 1 |})).2 = h0) as HT.
  { unfold h_threads. cbn [hd_fds hd_maps hd_arrays hd_threads].
    replace (hd_threads h0 + 1 + -1) with (hd_threads h0) by lia.
    apply teardown_held; [done|by rewrite Hm|by rewrite Hi]. }
  destruct (rx_ring_teardown _ _) as [r2 h2]. cbn in HT. by subst.
Qed.

Lemma ops_held ops h0 : Forall op_ok ops -> forall g sy h, held_ok h0 g h ->
  let '(g', _, h') := foldl op_step (g, sy, h) ops in held_ok h0 g' h'.
Proof.
  intros Hops. induction Hops as [|op ops Hop _ IH]; intros g sy h Hg; [done|]. cbn [foldl].
  destruct op as [o usable cfg|]; cbn [op_step].
  - pose proof (start_spec o usable cfg g h0 h Hop Hg) as HS. destruct (cf_rx_reader_start o usable cfg g h) as [[rc g1] h1].
    apply IH, HS.
  - pose proof (stop_spec g sy h0 h Hg) as HS. destruct (cf_rx_reader_stop g sy h) as [[g1 sy1] h1].
    destruct HS as (E & -> & _). apply IH. unfold held_ok. by rewrite E.
Qed.

(** C29. After any calls of start and stop, whatever the system answered, the
    process holds one socket, one mapping that the blocks partition, one array
    and one thread more than at first exactly while the reader is started, and
    otherwise nothing more; a start that fails leaves nothing behind, and a stop
    gives everything back and raises the stop flag. *)
Theorem reader_balanced ops g sy h0 : Forall op_ok ops -> g_started g = false ->
  let '(g', sy', h') := foldl op_step (g, sy, h0) ops in
  (if g_started g' then holds g' h0 h' else h' = h0) /\
  (forall o usable cfg, config_ok cfg -> let '(rc, g2, h2) := cf_rx_reader_start o usable cfg g' h' in
     rc = 0 /\ g_started g' = false /\ holds g2 h0 h2 \/ rc = -1 /\ h2 = h' /\ g_started g2 = g_started g') /\
  (let '(g2, sy2, h2) := cf_rx_reader_stop g' sy' h' in
     g_started g2 = false /\ h2 = h0 /\ (g_started g' = true -> cf_stop_notified sy2 = true)).
Proof.
  intros Hops E. assert (held_ok h0 g h0) as H0 by (unfold held_ok; by rewrite E).
  pose proof (ops_held ops h0 Hops g sy h0 H0) as Hg. destruct (foldl op_step (g, sy, h0) ops) as [[g' sy'] h'].
  split; [exact Hg|]. split; [|exact (stop_spec g' sy' h0 h' Hg)]. intros o usable cfg Hc.
  pose proof (start_spec o usable cfg g' h0 h' Hc Hg) as HS. destruct (cf_rx_reader_start o usable cfg g' h') as [[rc g2] h2].
  destruct HS as [Hk [(-> & E1 & E2)|HS]]; [left|by right]. unfold held_ok in Hk. rewrite E2 in Hk. done.
Qed.

(** ** A concrete ring *)

Definition enc_packet (next : Z) (p : tpacket) : list Z :=
  le_bytes 4 next ++ le_bytes 4 (t_sec p) ++ le_bytes 4 (t_nsec p) ++ le_bytes 4 (zlen (t_frame p)) ++
  le_bytes 4 (t_len p) ++ le_bytes 4 0 ++ le_bytes 2 (t_mac p) ++ replicate (Z.to_nat (t_mac p - 26)) 0 ++ t_frame p.

Definition sample_packets : list tpacket :=
  [{| t_sec := 1700000000; t_nsec := 5; t_len := 3; t_mac := 30; t_frame := [1; 2; 3] |};
   {| t_sec := 1700000000; t_nsec := 9; t_len := 60; t_mac := 28; t_frame := [7; 8; 9; 10; 11] |}].
Definition sample_block : list Z :=
  replicate 8 0 ++ le_bytes 4 TP_STATUS_USER ++ le_bytes 4 2 ++ le_bytes 4 48 ++ replicate 28 0 ++
  concat (zip_with enc_packet [33; 0] sample_packets).

Lemma sample_block_laid : laid_out sample_block sample_packets.
Proof.
  constructor; try (vm_compute; reflexivity).
  - apply list.Forall_forall. intros b Hb.
    assert (forallb (fun b => (0 <=? b) && (b <? 256)) sample_block = true) as E by (vm_compute; reflexivity).
    rewrite forallb_forall in E. specialize (E b). rewrite <- list_elem_of_In in E. specialize (E Hb).
    unfold is_byte. lia.
  - exists 48. split; [vm_compute; reflexivity|]. split; [constructor; vm_compute; reflexivity|].
    exists 33. split; [vm_compute; reflexivity|]. split; [constructor; vm_compute; reflexivity|].
    exists 0. split; [vm_compute; reflexivity|done].
Qed.

Definition sample_ring : ring_view :=
  {| rg_blocks := replicate 2 (replicate 120 0); rg_next_block := 1; rg_kernel := 1; rg_filled := [] |}.
Lemma sample_ring_inv : ring_inv sample_ring [] [].
Proof.
  constructor; try done; try (cbn; lia). cbn. intros j Hj. exists (replicate 120 0).
  assert (j = 0 \/ j = 1) as [-> | ->] by lia; (split; [reflexivity|vm_compute; reflexivity]).
Qed.

Definition sample_turn : rx_turn :=
  {| tn_before := [sample_block; sample_block]; tn_poll := P_ready; tn_fills := fun _ => [sample_block];
     tn_push := fun _ _ => calm; tn_junk := fun _ _ => replicate 2048 0 |}.
Lemma sample_turn_ok : turn_ok sample_turn.
Proof.
  assert (well_laid sample_block) as Hb by (exists sample_packets; exact sample_block_laid).
  split_and!; [by repeat constructor| |].
  - intros ?. by constructor.
  - intros ? ?. split; [by apply Forall_replicate|]. vm_compute. reflexivity.
Qed.

Definition sample_cfg : cf_rx_reader_config_t :=
  {| interface_name := Some (bs "eth0"); block_size := 0; block_count := 2; frame_size := 0;
     on_full := CF_ONFULL_DROP_NEWEST; copy_snaplen := 4; bpf := None; bpf_len := 0 |}.

Lemma ring_lossless_witness :
  runs (rx_reader_loop sample_cfg true true [sample_turn] sample_ring empty_rx) (fun '(rg, s) =>
    exists handled pending, rg_filled rg = handled ++ pending /\ walked sample_cfg handled empty_rx s).
Proof.
  eapply runs_mono.
  - apply (ring_lossless sample_cfg ltac:(cbn; lia) true true [sample_turn] sample_ring empty_rx sample_ring_inv empty_rx_ok).
    constructor; [exact sample_turn_ok|constructor].
  - intros [rg s] (hd & pd & E & _ & W). exists hd, pd. split; [exact E|exact W].
Defined.

(** Both blocks there at the poll are walked. *)
Lemma turn_drains_witness :
  runs (rx_turn_step sample_cfg sample_turn sample_ring empty_rx) (fun '(_, rg, s) =>
    exists d, [sample_block; sample_block] `prefix_of` d /\ walked sample_cfg d empty_rx s).
Proof.
  assert (rg_filled (kernel_fills (tn_before sample_turn) sample_ring) = [sample_block; sample_block]) as E
    by (vm_compute; reflexivity).
  eapply runs_mono.
  - apply (turn_drains sample_cfg ltac:(cbn; lia) sample_turn sample_ring [] [] empty_rx sample_turn_ok sample_ring_inv
      empty_rx_ok eq_refl).
  - intros [[go rg] s] (d & p & _ & W & Hd). exists d. rewrite E in Hd. split; [exact Hd|exact W].
Defined.

Definition sample_sys (mmap_ok : bool) : sys :=
  {| sy_socket := 7; sy_ifindex := fun _ => Some 2; sy_bind := fun _ => true; sy_filter := fun _ => true;
     sy_version := true; sy_ring := fun _ => true; sy_mmap := fun _ => if mmap_ok then Some 4096 else None;
     sy_calloc := true; sy_thread := true |}.
Definition idle_reader : cf_rx_reader_state_t := {| g_cfg := None; g_ring := ring_zero; g_started := false |}.
Definition nothing_held : held := {| hd_fds := [3]; hd_maps := []; hd_arrays := 0; hd_threads := 1 |}.

Lemma reader_balanced_witness :
  let '(g, _, h) := foldl op_step (idle_reader, cf_sync_init, nothing_held)
    [Op_start (sample_sys false) true sample_cfg; Op_start (sample_sys true) true sample_cfg] in
  g_started g = true /\ holds g nothing_held h.
Proof.
  pose proof (reader_balanced [Op_start (sample_sys false) true sample_cfg; Op_start (sample_sys true) true sample_cfg]
    idle_reader cf_sync_init nothing_held) as H.
  assert (Forall op_ok [Op_start (sample_sys false) true sample_cfg; Op_start (sample_sys true) true sample_cfg]) as Hops
    by (repeat constructor; discriminate).
  specialize (H Hops eq_refl). destruct H as [H _]. split; [reflexivity|exact H].
Defined.
