(* ===== verification/RedisCluster.v ===== *)
(** * RedisCluster: routing commands to the nodes of a Redis Cluster
    ([libs/cloudflow-redis/cf_redis_cluster.c])

    A handle holds the seeds, a table of nodes with their connections, and the
    node of each hash slot.  [nodes] is the table up to [node_count]; what lies
    beyond is never read.  hiredis and the allocator are the [World]: each call
    is an [ask] it answers.  The contexts hiredis returns are the [heap]: to
    use or free one that is not there is an invalid access.  [replies] and
    [blocks] count the replies and the allocations not yet freed, and [trace]
    is what an observer of the connections sees.  A handle argument says
    whether the pointer is not [NULL]. *)

From stdpp Require Import gmap.
From S2P Require Import Prelude Endpoint Hiredis RedisSlot.

(** ** Calls to the world *)

(** [AskConnect] answers [NULL], or whether [ctx->err] is set; a command
    answers its reply and whether [ctx->err] is set after it. *)
Inductive ask : Type -> Type :=
| AskMalloc : ask bool
| AskConnect (host : list Z) (port : Z) (timeout_sec : Z) : ask (option bool)
| AskSetTimeout (host : list Z) (port : Z) (timeout_sec : Z) : ask bool
| AskCommand (host : list Z) (port : Z) (argv : list (list Z)) : ask (option redisReply * bool).

Class World (W : Type) := answer : forall A, ask A -> W -> A * W.
Arguments answer {W _ A} q w.

Inductive event :=
| EConnect (host : list Z) (port : Z)
| ECommand (host : list Z) (port : Z) (argv : list (list Z)) (reply : option redisReply).

(** ** Data *)

Definition CF_CLUSTER_MAX_NODES : Z := 256.
Definition CF_CLUSTER_MAX_REDIRECTS : nat := 5.
Definition CF_CLUSTER_HOST_MAX : Z := 256.

(** Casts to [int] and [int16_t]. *)
Definition i32 (z : Z) : Z := if u32 z <? 2 ^ 31 then u32 z else u32 z - 2 ^ 32.
Definition i16 (z : Z) : Z := if u16 z <? 2 ^ 15 then u16 z else u16 z - 2 ^ 16.

Record cf_cluster_node_t := { n_host : list Z; n_port : Z; n_ctx : option nat }.

Record cf_redis_cluster := {
  seeds : list (list Z); seed_idx : nat; timeout_sec : Z;
  connected : bool; is_cluster : bool;
  nodes : list cf_cluster_node_t; slot_node : list Z
}.

Implicit Types c : cf_redis_cluster.

Definition set_seed_idx (i : nat) c : cf_redis_cluster :=
  {| seeds := seeds c; seed_idx := i; timeout_sec := timeout_sec c; connected := connected c;
     is_cluster := is_cluster c; nodes := nodes c; slot_node := slot_node c |}.
Definition set_connected (b : bool) c : cf_redis_cluster :=
  {| seeds := seeds c; seed_idx := seed_idx c; timeout_sec := timeout_sec c; connected := b;
     is_cluster := is_cluster c; nodes := nodes c; slot_node := slot_node c |}.
Definition set_is_cluster (b : bool) c : cf_redis_cluster :=
  {| seeds := seeds c; seed_idx := seed_idx c; timeout_sec := timeout_sec c; connected := connected c;
     is_cluster := b; nodes := nodes c; slot_node := slot_node c |}.
Definition set_nodes (l : list cf_cluster_node_t) c : cf_redis_cluster :=
  {| seeds := seeds c; seed_idx := seed_idx c; timeout_sec := timeout_sec c; connected := connected c;
     is_cluster := is_cluster c; nodes := l; slot_node := slot_node c |}.
Definition set_slots (l : list Z) c : cf_redis_cluster :=
  {| seeds := seeds c; seed_idx := seed_idx c; timeout_sec := timeout_sec c; connected := connected c;
     is_cluster := is_cluster c; nodes := nodes c; slot_node := l |}.

(** [c->nodes[i].ctx = ctx] and [c->slot_node[slot] = idx]. *)
Definition set_node_ctx (i : nat) (ctx : option nat) c : cf_redis_cluster :=
  set_nodes (alter (fun n => {| n_host := n_host n; n_port := n_port n; n_ctx := ctx |}) i (nodes c)) c.
Definition set_slot (slot idx : Z) c : exec cf_redis_cluster :=
  if (0 <=? slot) && (slot <? zlen (slot_node c))
  then Ret (set_slots (<[Z.to_nat slot := i16 idx]> (slot_node c)) c) else Oob.

(** ** The table and the map *)

(** The host and port of a seed. *)
Definition parse_endpoint (endpoint : list Z) (host_cap : Z) : option (list Z * Z) :=
  match last_colon endpoint with
  | None => None
  | Some (host, port) =>
      if bool_decide (host = []) || (host_cap <=? zlen host) then None
      else
        match strtol port with
        | Some (parsed, []) => if (parsed <=? 0) || (65535 <? parsed) then None else Some (host, parsed)
        | _ => None
        end
  end.

Fixpoint node_find (l : list cf_cluster_node_t) (host : list Z) (port : Z) (i : Z) : option Z :=
  match l with
  | [] => None
  | n :: l => if (n_port n =? port) && bool_decide (n_host n = host) then Some i else node_find l host port (i + 1)
  end.

Definition node_find_or_add (host : list Z) (port : Z) c : Z * cf_redis_cluster :=
  match node_find (nodes c) host port 0 with
  | Some i => (i, c)
  | None =>
      if CF_CLUSTER_MAX_NODES <=? zlen (nodes c) then (-1, c)
      else if CF_CLUSTER_HOST_MAX <=? zlen host then (-1, c)
      else (zlen (nodes c), set_nodes (nodes c ++ [{| n_host := host; n_port := port; n_ctx := None |}]) c)
  end.

Definition clear_slot_map c : cf_redis_cluster := set_slots ((fun _ => -1) <$> slot_node c) c.

(** [e->integer] where [e->type] is [REDIS_REPLY_INTEGER]. *)
Definition reply_integer (e : option redisReply) : exec (option Z) :=
  match e with
  | None => Oob
  | Some (REPLY_INTEGER i) => Ret (Some i)
  | Some _ => Ret None
  end.

(** One element of a [CLUSTER SLOTS] reply: its first and last slot and its
    master's address, [None] where the loop continues. *)
Definition slot_range (range : option redisReply) : exec (option (Z * Z * list Z * Z)) :=
  match range with
  | Some (REPLY_ARRAY (e0 :: e1 :: master :: _)) =>
      start ← reply_integer e0;
      match start with
      | None => Ret None
      | Some start =>
          end_ ← reply_integer e1;
          match end_, master with
          | Some end_, Some (REPLY_ARRAY (Some (REPLY_STRING ip) :: Some (REPLY_INTEGER port) :: _)) =>
              if (start <? 0) || (CF_REDIS_NUM_SLOTS <=? end_) || (end_ <? start) then Ret None
              else Ret (Some (start, end_, c_str ip, i32 port))
          | _, _ => Ret None
          end
      end
  | _ => Ret None
  end.

(** [for (s = start; s <= end; s++) c->slot_node[s] = idx], [n] slots. *)
Fixpoint assign_slots (n : nat) (s idx : Z) c : exec cf_redis_cluster :=
  match n with
  | O => Ret c
  | S n => c ← set_slot s idx c; assign_slots n (s + 1) idx c
  end.

Fixpoint slots_loop (el : list (option redisReply)) c : exec cf_redis_cluster :=
  match el with
  | [] => Ret c
  | range :: el =>
      r ← slot_range range;
      match r with
      | None => slots_loop el c
      | Some (start, end_, ip, port) =>
          let '(idx, c) := node_find_or_add ip port c in
          if idx <? 0 then slots_loop el c
          else c ← assign_slots (Z.to_nat (end_ - start + 1)) start idx c; slots_loop el c
      end
  end.

Definition parse_cluster_slots (reply : option redisReply) c : exec (Z * cf_redis_cluster) :=
  match reply with
  | Some (REPLY_ARRAY el) => c ← slots_loop el (clear_slot_map (set_nodes [] c)); Ret (0, c)
  | _ => Ret (-1, c)
  end.

(** ** Redirects *)

Definition CF_REDIS_REDIRECT_NONE : Z := 0.
Definition CF_REDIS_REDIRECT_MOVED : Z := 1.
Definition CF_REDIS_REDIRECT_ASK : Z := 2.

(** What follows the word of a redirect: its slot, host and port. *)
Definition redirect_target (kind : Z) (p : list Z) (host_cap : Z) : Z * option (Z * list Z * Z) :=
  match strtol p with
  | Some (s, b :: p) =>
      if negb (b =? 32) then (CF_REDIS_REDIRECT_NONE, None)
      else
        match last_colon p with
        | None => (CF_REDIS_REDIRECT_NONE, None)
        | Some (host, port) =>
            if bool_decide (host = []) || (host_cap <=? zlen host) then (CF_REDIS_REDIRECT_NONE, None)
            else
              match strtol port with
              | Some (pt, []) =>
                  if (pt <=? 0) || (65535 <? pt) then (CF_REDIS_REDIRECT_NONE, None)
                  else (kind, Some (i32 s, host, pt))
              | _ => (CF_REDIS_REDIRECT_NONE, None)
              end
        end
  | _ => (CF_REDIS_REDIRECT_NONE, None)
  end.

(** The kind, with the slot, host and port it fills in. *)
Definition cf_redis_parse_redirect (errstr : option (list Z)) (host_cap : Z) : Z * option (Z * list Z * Z) :=
  match errstr with
  | None => (CF_REDIS_REDIRECT_NONE, None)
  | Some e =>
      if bool_decide (take 6 e = bs "MOVED ") then redirect_target CF_REDIS_REDIRECT_MOVED (drop 6 e) host_cap
      else if bool_decide (take 4 e = bs "ASK ") then redirect_target CF_REDIS_REDIRECT_ASK (drop 4 e) host_cap
      else (CF_REDIS_REDIRECT_NONE, None)
  end.

(** ** The state and its computations *)

Record context := { x_host : list Z; x_port : Z; x_err : bool }.

(** [handle] is the handle, once made and until freed. *)
Record router (W : Type) := {
  world : W; heap : gmap nat context; next : nat; replies : Z; blocks : Z;
  trace : list event; handle : option cf_redis_cluster
}.
Arguments world {W}. Arguments heap {W}. Arguments next {W}. Arguments replies {W}.
Arguments blocks {W}. Arguments trace {W}. Arguments handle {W}.

Definition prog (W A : Type) : Type := router W -> exec (A * router W).

#[export] Instance prog_ret W : MRet (prog W) := fun A a s => Ret (a, s).
#[export] Instance prog_bind W : MBind (prog W) := fun A B k m s =>
  match m s with
  | Ret (a, s) => k a s
  | Oob => Oob
  | Spin => Spin
  end.

Section Client.
Context {W : Type} {HW : World W}.
Implicit Types s : router W.

Definition set_world (w : W) s : router W :=
  {| world := w; heap := heap s; next := next s; replies := replies s; blocks := blocks s;
     trace := trace s; handle := handle s |}.
Definition set_heap (h : gmap nat context) s : router W :=
  {| world := world s; heap := h; next := next s; replies := replies s; blocks := blocks s;
     trace := trace s; handle := handle s |}.
Definition set_handle (c : option cf_redis_cluster) s : router W :=
  {| world := world s; heap := heap s; next := next s; replies := replies s; blocks := blocks s;
     trace := trace s; handle := c |}.
Definition add_replies (n : Z) s : router W :=
  {| world := world s; heap := heap s; next := next s; replies := replies s + n; blocks := blocks s;
     trace := trace s; handle := handle s |}.
Definition add_blocks (n : Z) s : router W :=
  {| world := world s; heap := heap s; next := next s; replies := replies s; blocks := blocks s + n;
     trace := trace s; handle := handle s |}.
Definition see (e : event) s : router W :=
  {| world := world s; heap := heap s; next := next s; replies := replies s; blocks := blocks s;
     trace := trace s ++ [e]; handle := handle s |}.

Definition modify (f : router W -> router W) : prog W unit := fun s => Ret (tt, f s).
Definition call {A} (q : ask A) : prog W A := fun s => let '(a, w) := answer q (world s) in Ret (a, set_world w s).
Definition lift {A} (m : exec A) : prog W A := fun s => a ← m; Ret (a, s).
Definition invalid {A} : prog W A := fun _ => Oob.

(** The handle's fields, read and written through the pointer. *)
Definition self : prog W cf_redis_cluster := fun s =>
  match handle s with Some c => Ret (c, s) | None => Oob end.
Definition update (f : cf_redis_cluster -> cf_redis_cluster) : prog W unit :=
  c ← self; modify (set_handle (Some (f c))).

(** ** hiredis and the allocator *)

Definition context_at (id : nat) : prog W context := fun s =>
  match heap s !! id with Some x => Ret (x, s) | None => Oob end.

(** What hiredis leaves in [ctx->err]. *)
Definition set_err (id : nat) (e : bool) : prog W unit :=
  x ← context_at id;
  modify (fun s => set_heap (<[id := {| x_host := x_host x; x_port := x_port x; x_err := e |}]> (heap s)) s).

Definition new_context (x : context) : prog W nat := fun s =>
  Ret (next s, {| world := world s; heap := <[next s := x]> (heap s); next := S (next s); replies := replies s;
                  blocks := blocks s; trace := trace s; handle := handle s |}).

Definition redisConnectWithTimeout (host : list Z) (port timeout : Z) : prog W (option nat) :=
  r ← call (AskConnect host port timeout);
  _ ← modify (see (EConnect host port));
  match r with
  | None => mret None
  | Some e => id ← new_context {| x_host := host; x_port := port; x_err := e |}; mret (Some id)
  end.

Definition redisFree (id : nat) : prog W unit :=
  _ ← context_at id; modify (fun s => set_heap (delete id (heap s)) s).

(** [redisCommand] and [redisCommandArgv]. *)
Definition redisCommandArgv (id : nat) (argv : list (list Z)) : prog W (option redisReply) :=
  x ← context_at id;
  r ← call (AskCommand (x_host x) (x_port x) argv);
  let '(reply, e) := r : option redisReply * bool in
  _ ← set_err id e;
  _ ← modify (see (ECommand (x_host x) (x_port x) argv reply));
  _ ← modify (add_replies (if reply then 1 else 0));
  mret reply.

Definition freeReplyObject : prog W unit := modify (add_replies (-1)).
Definition malloc : prog W bool := ok ← call AskMalloc; _ ← modify (add_blocks (if ok : bool then 1 else 0)); mret ok.
Definition free : prog W unit := modify (add_blocks (-1)).

(** ** The node pool *)

Definition set_timeout (id : nat) : prog W unit :=
  c ← self; x ← context_at id;
  e ← call (AskSetTimeout (x_host x) (x_port x) (timeout_sec c));
  set_err id (e || x_err x).

Definition connect_hostport (host : list Z) (port : Z) : prog W (option nat) :=
  c ← self;
  ctx ← redisConnectWithTimeout host port (timeout_sec c);
  match ctx with
  | None => mret None
  | Some id =>
      x ← context_at id;
      if x_err x then _ ← redisFree id; mret None
      else _ ← set_timeout id; mret (Some id)
  end.

Definition node_connect (idx : Z) : prog W (option nat) :=
  c ← self;
  if (idx <? 0) || (zlen (nodes c) <=? idx) then mret None
  else
    match nodes c !! Z.to_nat idx with
    | None => invalid
    | Some n =>
        let reconnect :=
          ctx ← connect_hostport (n_host n) (n_port n);
          _ ← update (set_node_ctx (Z.to_nat idx) ctx); mret ctx in
        match n_ctx n with
        | None => reconnect
        | Some id =>
            x ← context_at id;
            if negb (x_err x) then mret (Some id)
            else _ ← redisFree id; _ ← update (set_node_ctx (Z.to_nat idx) None); reconnect
        end
    end.

(** [n] nodes from [i] on. *)
Fixpoint free_ctx_loop (n i : nat) : prog W unit :=
  match n with
  | O => mret tt
  | S n =>
      c ← self;
      match nodes c !! i with
      | None => invalid
      | Some nd =>
          _ ← match n_ctx nd with
              | None => mret tt
              | Some id => _ ← redisFree id; update (set_node_ctx i None)
              end;
          free_ctx_loop n (S i)
      end
  end.
Definition free_all_ctx : prog W unit := c ← self; free_ctx_loop (length (nodes c)) 0.

(** ** Topology *)

Definition load_slots (reply : option redisReply) : prog W Z :=
  c ← self; r ← lift (parse_cluster_slots reply c);
  let '(rc, c) := r : Z * cf_redis_cluster in _ ← modify (set_handle (Some c)); mret rc.
Definition find_or_add (host : list Z) (port : Z) : prog W Z :=
  c ← self; let '(idx, c) := node_find_or_add host port c in _ ← modify (set_handle (Some c)); mret idx.

(** [reply->type == REDIS_REPLY_ARRAY && reply->elements > 0]. *)
Definition is_topology (reply : redisReply) : bool :=
  match reply with REPLY_ARRAY (_ :: _) => true | _ => false end.

Definition CLUSTER_SLOTS : list (list Z) := [bs "CLUSTER"; bs "SLOTS"].
Definition ASKING : list (list Z) := [bs "ASKING"].

Definition bootstrap_from (ctx : nat) (host : list Z) (port : Z) : prog W Z :=
  reply ← redisCommandArgv ctx CLUSTER_SLOTS;
  match reply with
  | None => _ ← redisFree ctx; mret (-1)
  | Some r =>
      if is_topology r then
        _ ← load_slots (Some r);
        _ ← freeReplyObject;
        _ ← redisFree ctx;
        _ ← update (fun c => set_connected true (set_is_cluster true c));
        mret 0
      else
        _ ← freeReplyObject;
        _ ← update (fun c => clear_slot_map (set_nodes [] c));
        idx ← find_or_add host port;
        if negb (idx =? 0) then _ ← redisFree ctx; mret (-1)
        else
          _ ← update (set_node_ctx 0 (Some ctx));
          _ ← update (fun c => set_connected true (set_is_cluster false c));
          mret 0
  end.

(** ** The interface *)

(** Seed [attempt] of [count]. *)
Fixpoint connect_loop (n attempt : nat) : prog W Z :=
  match n with
  | O => mret (-1)
  | S n =>
      c ← self;
      let i := ((seed_idx c + attempt) mod length (seeds c))%nat in
      match seeds c !! i with
      | None => invalid
      | Some seed =>
          match parse_endpoint seed CF_CLUSTER_HOST_MAX with
          | None => connect_loop n (S attempt)
          | Some (host, port) =>
              ctx ← connect_hostport host port;
              match ctx with
              | None => connect_loop n (S attempt)
              | Some ctx =>
                  rc ← bootstrap_from ctx host port;
                  if rc =? 0 then _ ← update (set_seed_idx i); mret 0 else connect_loop n (S attempt)
              end
          end
      end
  end.

Definition cf_redis_cluster_connect (p : bool) : prog W Z :=
  if negb p then mret (-1)
  else
    _ ← free_all_ctx;
    _ ← update (set_connected false);
    c ← self; connect_loop (length (seeds c)) 0.

Fixpoint free_seeds (n : nat) : prog W unit :=
  match n with O => mret tt | S n => _ ← free; free_seeds n end.

Definition cf_redis_cluster_free (p : bool) : prog W unit :=
  if negb p then mret tt
  else
    _ ← free_all_ctx; c ← self;
    _ ← free_seeds (length (seeds c)); _ ← free; _ ← free; modify (set_handle None).

(** Copying the seeds: [false] when one is [NULL] or cannot be copied. *)
Fixpoint copy_seeds (endpoints : list (option (list Z))) : prog W bool :=
  match endpoints with
  | [] => mret true
  | None :: _ => mret false
  | Some e :: endpoints =>
      ok ← malloc;
      if negb ok then mret false
      else
        _ ← update (fun c => {| seeds := seeds c ++ [e]; seed_idx := seed_idx c; timeout_sec := timeout_sec c;
              connected := connected c; is_cluster := is_cluster c; nodes := nodes c; slot_node := slot_node c |});
        copy_seeds endpoints
  end.

(** The handle as [calloc] leaves it. *)
Definition zero_cluster : cf_redis_cluster :=
  {| seeds := []; seed_idx := 0; timeout_sec := 0; connected := false; is_cluster := false; nodes := [];
     slot_node := replicate (Z.to_nat CF_REDIS_NUM_SLOTS) 0 |}.

(** Whether the handle was made. *)
Definition cf_redis_cluster_new (endpoints : option (list (option (list Z)))) (timeout : Z) : prog W bool :=
  match endpoints with
  | None | Some [] => mret false
  | Some eps =>
      ok ← malloc;
      if negb ok then mret false
      else
        _ ← modify (set_handle (Some zero_cluster));
        ok ← malloc;
        if negb ok then _ ← free; _ ← modify (set_handle None); mret false
        else
          ok ← copy_seeds eps;
          if negb ok then _ ← cf_redis_cluster_free true; mret false
          else
            _ ← update (fun c => {| seeds := seeds c; seed_idx := seed_idx c;
                  timeout_sec := if 0 <? timeout then timeout else 3; connected := connected c;
                  is_cluster := is_cluster c; nodes := nodes c; slot_node := slot_node c |});
            _ ← update clear_slot_map; mret true
  end.

Definition cf_redis_cluster_is_cluster (p : bool) : prog W bool :=
  if negb p then mret false else c ← self; mret (is_cluster c).

(** The nodes asked for the topology, [n] of them from [i] on. *)
Fixpoint refresh_loop (n i : nat) : prog W (option Z) :=
  match n with
  | O => mret None
  | S n =>
      ctx ← node_connect (Z.of_nat i);
      match ctx with
      | None => refresh_loop n (S i)
      | Some id =>
          reply ← redisCommandArgv id CLUSTER_SLOTS;
          match reply with
          | None => refresh_loop n (S i)
          | Some r =>
              if is_topology r then
                _ ← free_all_ctx; _ ← load_slots (Some r); _ ← freeReplyObject; mret (Some 0)
              else _ ← freeReplyObject; refresh_loop n (S i)
          end
      end
  end.

Definition cf_redis_cluster_refresh (p : bool) : prog W Z :=
  if negb p then mret (-1)
  else
    c ← self;
    if negb (is_cluster c) then mret (if connected c then 0 else -1)
    else
      r ← refresh_loop (length (nodes c)) 0;
      match r with Some rc => mret rc | None => cf_redis_cluster_connect p end.

Definition cf_redis_cluster_reset (p : bool) : prog W unit := if p then free_all_ctx else mret tt.

Definition slot_at (slot : Z) : prog W Z :=
  c ← self; lift (rd (slot_node c) slot).

(** The connection, and the slot where one is written. *)
Definition cf_redis_cluster_conn (p : bool) (key : list Z) : prog W (option nat * option Z) :=
  if negb p then mret (None, None)
  else
    c ← self;
    if negb (connected c) then mret (None, None)
    else if negb (is_cluster c) then
      ctx ← node_connect 0;
      match ctx with
      | Some id => mret (Some id, Some 0)
      | None =>
          rc ← cf_redis_cluster_connect p;
          if rc =? 0 then ctx ← node_connect 0; mret (ctx, Some 0) else mret (None, Some 0)
      end
    else
      slot ← lift (cf_redis_key_slot key);
      idx ← slot_at slot;
      if idx <? 0 then
        rc ← cf_redis_cluster_refresh p;
        if negb (rc =? 0) then mret (None, Some slot)
        else
          idx ← slot_at slot;
          if idx <? 0 then mret (None, Some slot) else ctx ← node_connect idx; mret (ctx, Some slot)
      else ctx ← node_connect idx; mret (ctx, Some slot).

(** The redirects of one command, from its reply on. *)
Fixpoint redirect_loop (hops : nat) (argv : list (list Z)) (reply : redisReply) : prog W (option redisReply) :=
  match hops with
  | O => mret (Some reply)
  | S hops =>
      match reply with
      | REPLY_ERROR str =>
          match cf_redis_parse_redirect (Some (c_str str)) CF_CLUSTER_HOST_MAX with
          | (kind, Some (slot, host, port)) =>
              _ ← freeReplyObject;
              idx ← find_or_add host port;
              if idx <? 0 then mret None
              else
                _ ← (if (kind =? CF_REDIS_REDIRECT_MOVED) && (0 <=? slot) && (slot <? CF_REDIS_NUM_SLOTS)
                     then c ← self; c ← lift (set_slot slot idx c); modify (set_handle (Some c))
                     else mret tt);
                ctx ← node_connect idx;
                match ctx with
                | None => mret None
                | Some id =>
                    _ ← (if kind =? CF_REDIS_REDIRECT_ASK
                         then ask ← redisCommandArgv id ASKING;
                              match ask with None => mret tt | Some _ => freeReplyObject end
                         else mret tt);
                    reply ← redisCommandArgv id argv;
                    match reply with None => mret None | Some reply => redirect_loop hops argv reply end
                end
          | (_, None) => mret (Some reply)
          end
      | _ => mret (Some reply)
      end
  end.

Definition cf_redis_cluster_command_argv (p : bool) (key : list Z) (argv : list (list Z)) : prog W (option redisReply) :=
  if negb p then mret None
  else
    c ← self;
    if negb (connected c) then mret None
    else
      r ← cf_redis_cluster_conn p key;
      match fst r with
      | None => mret None
      | Some id =>
          reply ← redisCommandArgv id argv;
          match reply with None => mret None | Some reply => redirect_loop CF_CLUSTER_MAX_REDIRECTS argv reply end
      end.
End Client.
