(* ===== verification/RedisClusterSpec.v ===== *)
(** * RedisClusterSpec: the invariant of a Redis Cluster handle

    A handle holds every context but those a call is working with, each by one
    node whose address it is connected to; the slot map only names nodes of the
    table.  Every operation of [RedisCluster] keeps this ([good]) and returns
    the replies it does not hand to its caller. *)

From stdpp Require Import gmap.
From S2P Require Import Prelude Endpoint Hiredis RedisSlot RedisCluster.

(** ** The table and the map *)

Definition address (n : cf_cluster_node_t) : list Z * Z := (n_host n, n_port n).
Abbreviation addresses c := (address <$> nodes c).

(** The node a slot is mapped to. *)
Definition owner (c : cf_redis_cluster) (slot : Z) : option (list Z * Z) :=
  if slot <? 0 then None
  else idx ← slot_node c !! Z.to_nat slot; if idx <? 0 then None else addresses c !! Z.to_nat idx.

Record mapped (c : cf_redis_cluster) : Prop := {
  m_len : zlen (slot_node c) = CF_REDIS_NUM_SLOTS;
  m_slots : Forall (fun v => -1 <= v < zlen (nodes c)) (slot_node c);
  m_room : zlen (nodes c) <= CF_CLUSTER_MAX_NODES;
  m_distinct : NoDup (addresses c)
}.

(** The table as addresses are added to it. *)
Definition enroll (table : list (list Z * Z)) (a : list Z * Z) : list (list Z * Z) :=
  if bool_decide (a ∈ table) || (CF_CLUSTER_MAX_NODES <=? zlen table) || (CF_CLUSTER_HOST_MAX <=? zlen (fst a))
  then table else table ++ [a].

Lemma node_find_some l host port i j : node_find l host port i = Some j ->
  i <= j < i + zlen l /\ (address <$> l) !! Z.to_nat (j - i) = Some (host, port).
Proof.
  revert i j. induction l as [|n l IH]; intros i j; cbn [node_find]; [done|].
  destruct ((n_port n =? port) && bool_decide (n_host n = host)) eqn:E.
  - intros [= <-]. apply andb_true_iff in E as [E1 E2]. apply bool_decide_eq_true in E2.
    cbn [length]. split; [lia|]. rewrite Z.sub_diag. cbn [Z.to_nat fmap list_fmap lookup list_lookup]. unfold address. rewrite E2. replace (n_port n) with port by lia. done.
  - intros H. destruct (IH _ _ H) as [H1 H2]. cbn [length]. split; [lia|].
    replace (Z.to_nat (j - i)) with (S (Z.to_nat (j - (i + 1)))) by lia. exact H2.
Qed.

Lemma node_find_none l host port i : node_find l host port i = None -> (host, port) ∉ address <$> l.
Proof.
  revert i. induction l as [|n l IH]; intros i; cbn [node_find fmap list_fmap]; [intros _ H; inversion H|].
  destruct (_ && _) eqn:E; [done|]. intros H [Hn|Hn]%elem_of_cons; [|by eapply IH].
  injection Hn as -> ->. rewrite Z.eqb_refl, bool_decide_eq_true_2 in E by done. done.
Qed.

Lemma i16_id z : -1 <= z < 256 -> i16 z = z.
Proof.
  intros Hz. destruct (decide (z = -1)) as [->|Hn]; [done|]. unfold i16. rewrite u16_id by lia.
  change (2 ^ 15) with 32768. by destruct (z <? 32768) eqn:E; [|lia].
Qed.

(** Adding an address: the table [enroll]s it, the index is its place. *)
Lemma node_find_or_add_spec host port c idx c' : mapped c -> node_find_or_add host port c = (idx, c') ->
  mapped c' /\ c' = set_nodes (nodes c') c /\
  addresses c' = enroll (addresses c) (host, port) /\
  (nodes c' = nodes c \/ nodes c' = nodes c ++ [{| n_host := host; n_port := port; n_ctx := None |}]) /\
  (idx < 0 -> (host, port) ∉ addresses c' /\ c' = c) /\
  (0 <= idx -> addresses c' !! Z.to_nat idx = Some (host, port)) /\ -1 <= idx < zlen (nodes c').
Proof.
  intros Hm. unfold node_find_or_add, enroll. cbn [fst].
  destruct (node_find _ _ _ 0) as [j|] eqn:E.
  { intros [= <- <-]. apply node_find_some in E as [E1 E2]. rewrite Z.sub_0_r in E2.
    rewrite (bool_decide_eq_true_2 (_ ∈ _)) by (apply list_elem_of_lookup; eauto).
    cbn [orb]. split_and!; try (by destruct c); try lia; try (by left); try (intros _; exact E2). }
  apply node_find_none in E. rewrite (bool_decide_eq_false_2 (_ ∈ _)) by done. cbn [orb].
  rewrite length_fmap.
  destruct (_ <=? _) eqn:E1; [intros [= <- <-]; split_and!; try (by destruct c); try lia; by left|].
  destruct (CF_CLUSTER_HOST_MAX <=? _) eqn:E2; [intros [= <- <-]; split_and!; try (by destruct c); try lia; by left|].
  intros [= <- <-]. cbn [orb nodes set_nodes].
  destruct Hm as [M1 M2 M3 M4]. rewrite !fmap_app, length_app. cbn [length fmap list_fmap].
  change (address _) with (host, port). split_and!; try done; try lia.
  - constructor; cbn [nodes slot_node set_nodes]; [done| |rewrite length_app; cbn [length]; lia|].
    + eapply list.Forall_impl; [exact M2|]. intros v Hv. cbn beta in *. rewrite length_app. lia.
    + rewrite fmap_app. apply list.NoDup_app. split; [done|]. split; [|apply list.NoDup_singleton].
      intros a Ha Ha'. apply list_elem_of_singleton in Ha'. by subst.
  - by right.
  - intros _. replace (Z.to_nat _) with (length (addresses c)) by (rewrite length_fmap; lia).
    by rewrite lookup_app_r, Nat.sub_diag by done.
Qed.

Lemma mapped_lookup c slot idx : mapped c -> slot_node c !! slot = Some idx -> -1 <= idx < zlen (nodes c).
Proof. intros Hm H. exact (proj1 (list.Forall_lookup _ _) (m_slots _ Hm) _ _ H). Qed.

Lemma mapped_set_slots c l : mapped c -> zlen l = CF_REDIS_NUM_SLOTS ->
  Forall (fun v => -1 <= v < zlen (nodes c)) l -> mapped (set_slots l c).
Proof. intros [M1 M2 M3 M4] H1 H2. by constructor. Qed.

(** More nodes leave the map as it is. *)
Lemma owner_grow c c' n slot : mapped c -> c' = set_nodes (nodes c') c ->
  nodes c' = nodes c \/ nodes c' = nodes c ++ [n] -> owner c' slot = owner c slot.
Proof.
  intros Hm K N. unfold owner. rewrite K. cbn [slot_node nodes set_nodes].
  destruct (slot <? 0); [done|]. destruct (slot_node c !! Z.to_nat slot) as [v|] eqn:Ev; [|done].
  cbn [mbind option_bind]. destruct (v <? 0) eqn:Evn; [done|].
  pose proof (mapped_lookup _ _ _ Hm Ev) as Hv'. destruct N as [->| ->]; [done|].
  rewrite fmap_app, lookup_app_l by (rewrite length_fmap; lia). done.
Qed.

Lemma set_slot_spec slot idx c a : mapped c -> 0 <= slot < CF_REDIS_NUM_SLOTS -> 0 <= idx ->
  addresses c !! Z.to_nat idx = Some a ->
  exists c', set_slot slot idx c = Ret c' /\ mapped c' /\ c' = set_slots (slot_node c') c /\
    forall s, 0 <= s -> owner c' s = if s =? slot then Some a else owner c s.
Proof.
  intros Hm Hs Hi Ha. assert (idx < zlen (nodes c)) as Hlt.
  { apply lookup_lt_Some in Ha. rewrite length_fmap in Ha. lia. }
  pose proof (m_len _ Hm) as Hl. pose proof (m_room _ Hm) as Hr. unfold CF_CLUSTER_MAX_NODES in Hr.
  unfold set_slot. replace (_ && _) with true by lia. eexists. split; [done|].
  split; [|split; [done|]].
  - apply mapped_set_slots; [done|by rewrite length_insert|].
    apply list.Forall_insert; [apply Hm|]. rewrite i16_id by lia. lia.
  - intros s Hs0. unfold owner. cbn [slot_node nodes set_slots]. destruct (s <? 0) eqn:E; [lia|].
    destruct (s =? slot) eqn:E2.
    + replace s with slot by lia. rewrite list_lookup_insert_eq by lia. cbn [mbind option_bind].
      rewrite i16_id by lia. by destruct (idx <? 0) eqn:E3; [lia|].
    + rewrite list_lookup_insert_ne by lia. done.
Qed.

Lemma assign_slots_spec idx a n : forall s c, mapped c -> 0 <= s -> s + Z.of_nat n <= CF_REDIS_NUM_SLOTS -> 0 <= idx ->
  addresses c !! Z.to_nat idx = Some a ->
  exists c', assign_slots n s idx c = Ret c' /\ mapped c' /\ c' = set_slots (slot_node c') c /\
    forall x, 0 <= x -> owner c' x = if (s <=? x) && (x <? s + Z.of_nat n) then Some a else owner c x.
Proof.
  induction n as [|n IH]; intros s c Hm Hs Hn Hi Ha.
  { exists c. split_and!; try done; [by destruct c|]. intros x Hx. by destruct (_ && _) eqn:E; [lia|]. }
  destruct (set_slot_spec s idx c a) as (c1 & E1 & M1 & K1 & O1); [done|lia|lia|done|].
  destruct (IH (s + 1) c1) as (c2 & E2 & M2 & K2 & O2); [done|lia|lia|done|by rewrite K1|].
  exists c2. cbn [assign_slots]. rewrite E1. cbn [mbind exec_bind]. split; [exact E2|]. split; [done|].
  split; [by rewrite K2, K1|]. intros x Hx. rewrite O2, O1 by lia.
  destruct (x =? s) eqn:E; destruct ((s <=? x) && _) eqn:F; destruct ((s + 1 <=? x) && _) eqn:G; try done; lia.
Qed.

(** ** The reference for [CLUSTER SLOTS] *)

(** An array holds no null pointer where the parser looks. *)
Definition range_present (e : option redisReply) : Prop :=
  match e with
  | Some (REPLY_ARRAY (e0 :: e1 :: _ :: _)) => is_Some e0 /\ is_Some e1
  | _ => True
  end.
Definition reply_present (r : redisReply) : Prop :=
  match r with REPLY_ARRAY el => Forall range_present el | _ => True end.

(** A slot range: its bounds and its master's address. *)
Definition range : Type := Z * Z * (list Z * Z).
Definition valid_range (e : option redisReply) : option range :=
  match e with
  | Some (REPLY_ARRAY (Some (REPLY_INTEGER start) :: Some (REPLY_INTEGER end_) ::
      Some (REPLY_ARRAY (Some (REPLY_STRING ip) :: Some (REPLY_INTEGER port) :: _)) :: _)) =>
      if (0 <=? start) && (start <=? end_) && (end_ <? CF_REDIS_NUM_SLOTS)
      then Some (start, end_, (c_str ip, i32 port)) else None
  | _ => None
  end.
Definition covers (slot : Z) (r : range) : bool := let '(start, end_, _) := r in (start <=? slot) && (slot <=? end_).

(** The last range that covers a slot and whose master is in the table. *)
Definition claim (table : list (list Z * Z)) (slot : Z) (o : option (list Z * Z)) (r : range) : option (list Z * Z) :=
  if covers slot r && bool_decide (snd r ∈ table) then Some (snd r) else o.

Lemma slot_range_valid e : range_present e ->
  slot_range e = Ret (match valid_range e with Some (s, t, (ip, port)) => Some (s, t, ip, port) | None => None end).
Proof.
  intros Hp. unfold slot_range, valid_range, range_present, reply_integer in *.
  repeat (case_match; cbn [mbind exec_bind] in *; simplify_eq; try done; try lia);
    destruct Hp as [[? ?] [? ?]]; simplify_eq.
Qed.

Lemma enroll_incl t l a : a ∈ t -> a ∈ foldl enroll t l.
Proof.
  revert t. induction l as [|b l IH]; intros t Ha; [done|]. apply IH. unfold enroll.
  destruct (_ || _); [done|]. apply elem_of_app. by left.
Qed.

(** An address once refused is refused for good. *)
Lemma enroll_refused t l a : a ∉ t -> enroll t a = t -> a ∉ foldl enroll t l.
Proof.
  revert t. induction l as [|b l IH]; intros t Ha Hr; [done|]. cbn [foldl].
  assert (CF_CLUSTER_MAX_NODES <= zlen t \/ CF_CLUSTER_HOST_MAX <= zlen (fst a)) as Hc.
  { unfold enroll in Hr. rewrite bool_decide_eq_false_2 in Hr by done. cbn [orb] in Hr.
    destruct (_ <=? _) eqn:E1; [lia|]. destruct (CF_CLUSTER_HOST_MAX <=? _) eqn:E2; [lia|]. cbn [orb] in Hr.
    apply (f_equal length) in Hr. rewrite length_app in Hr. cbn in Hr. lia. }
  assert (a ∉ enroll t b /\ zlen t <= zlen (enroll t b)) as [Hb Hl].
  { unfold enroll. destruct (_ || _) eqn:E; [done|]. rewrite length_app. cbn [length]. split; [|lia].
    intros [H|H%list_elem_of_singleton]%elem_of_app; [done|]. subst b. lia. }
  apply IH; [done|]. unfold enroll at 1. rewrite bool_decide_eq_false_2 by done. cbn [orb].
  by replace (_ || _) with true by lia.
Qed.

Lemma slots_loop_spec el : forall c, mapped c -> Forall range_present el ->
  let rs := omap valid_range el in
  exists c' added, slots_loop el c = Ret c' /\ mapped c' /\ c' = set_nodes (nodes c') (set_slots (slot_node c') c) /\
    nodes c' = nodes c ++ added /\ Forall (fun n => n_ctx n = None) added /\
    addresses c' = foldl enroll (addresses c) (snd <$> rs) /\
    forall slot, 0 <= slot -> owner c' slot = foldl (claim (addresses c') slot) (owner c slot) rs.
Proof.
  induction el as [|e el IH]; intros c Hm Hp; cbn [omap list_omap].
  { exists c, []. rewrite app_nil_r. split_and!; try done. by destruct c. }
  apply list.Forall_cons in Hp as [Hp Hps]. cbn [slots_loop]. rewrite (slot_range_valid _ Hp). cbn [mbind exec_bind].
  destruct (valid_range e) as [[[start end_] [ip port]]|] eqn:Hv; [|by apply IH].
  assert (0 <= start <= end_ /\ end_ < CF_REDIS_NUM_SLOTS) as Hb.
  { unfold valid_range in Hv. repeat (case_match; try done). simplify_eq. lia. }
  destruct (node_find_or_add ip port c) as [idx c1] eqn:E.
  destruct (node_find_or_add_spec _ _ _ _ _ Hm E) as (M1 & K1 & A1 & N1 & R1 & I1 & B1).
  cbn [fmap list_fmap foldl snd]. destruct (idx <? 0) eqn:Ei.
  - destruct R1 as [R1 ->]; [lia|].
    destruct (IH c Hm Hps) as (c' & added & E2 & M2 & K2 & N2 & F2 & A2 & O2).
    exists c', added. rewrite <- A1. split_and!; try done. intros slot Hs. rewrite (O2 slot Hs). f_equal.
    unfold claim. cbn [snd]. rewrite (bool_decide_eq_false_2 (_ ∈ _)); [by rewrite andb_false_r|].
    rewrite A2. by apply enroll_refused.
  - destruct (assign_slots_spec idx (ip, port) (Z.to_nat (end_ - start + 1)) start c1)
      as (c2 & E2 & M2 & K2 & O2); [done|lia|lia|lia|apply I1; lia|].
    rewrite E2. cbn [mbind exec_bind].
    destruct (IH c2 M2 Hps) as (c' & added & E3 & M3 & K3 & N3 & F3 & A3 & O3).
    assert (nodes c2 = nodes c1) as En by (by rewrite K2).
    assert ((ip, port) ∈ addresses c') as Hin.
    { rewrite A3. apply enroll_incl. rewrite En. apply list_elem_of_lookup. eexists. apply I1. lia. }
    assert (forall slot, 0 <= slot -> owner c' slot =
      foldl (claim (addresses c') slot) (claim (addresses c') slot (owner c slot) (start, end_, (ip, port)))
        (omap valid_range el)) as Ho.
    { intros slot Hs. rewrite (O3 slot Hs). f_equal. rewrite (O2 slot Hs). unfold claim, covers. cbn [snd].
      rewrite (bool_decide_eq_true_2 (_ ∈ _)) by done. rewrite andb_true_r.
      replace (slot <? start + Z.of_nat (Z.to_nat (end_ - start + 1))) with (slot <=? end_) by lia.
      destruct (_ && _); [done|]. by rewrite (owner_grow c c1 _ slot Hm K1 N1). }
    assert (addresses c' = foldl enroll (enroll (addresses c) (ip, port)) (snd <$> omap valid_range el)) as Ha
      by (rewrite <- A1, <- En; exact A3).
    rewrite En in N3. destruct N1 as [N1|N1]; rewrite N1 in N3.
    + exists c', added. split_and!; try done. by rewrite K3, K2, K1.
    + exists c', ({| n_host := ip; n_port := port; n_ctx := None |} :: added).
      rewrite <- app_assoc in N3. split_and!; try done; [by rewrite K3, K2, K1|by constructor].
Qed.

Lemma mapped_clear c : mapped c -> mapped (clear_slot_map (set_nodes [] c)).
Proof.
  intros Hm. constructor; unfold clear_slot_map; cbn [slot_node nodes set_slots set_nodes].
  - rewrite length_fmap. apply Hm.
  - apply list.Forall_fmap, list.Forall_true. intros ?. cbn. lia.
  - cbn. unfold CF_CLUSTER_MAX_NODES. lia.
  - constructor.
Qed.

Lemma owner_clear c slot : owner (clear_slot_map c) slot = None.
Proof.
  unfold owner, clear_slot_map. cbn [slot_node nodes set_slots]. destruct (slot <? 0); [done|].
  rewrite list_lookup_fmap. by destruct (slot_node c !! _).
Qed.

Lemma parse_cluster_slots_spec el c : mapped c -> Forall range_present el ->
  let rs := omap valid_range el in
  exists c', parse_cluster_slots (Some (REPLY_ARRAY el)) c = Ret (0, c') /\ mapped c' /\
    c' = set_nodes (nodes c') (set_slots (slot_node c') c) /\ Forall (fun n => n_ctx n = None) (nodes c') /\
    addresses c' = foldl enroll [] (snd <$> rs) /\
    forall slot, 0 <= slot -> owner c' slot = foldl (claim (addresses c') slot) None rs.
Proof.
  intros Hm Hp rs. unfold parse_cluster_slots.
  destruct (slots_loop_spec el _ (mapped_clear c Hm) Hp) as (c' & added & E & M & K & N & F & A & O).
  exists c'. rewrite E. cbn [mbind exec_bind]. split_and!; try done.
  - by rewrite N.
  - intros slot Hs. rewrite (O slot Hs), owner_clear. done.
Qed.

(** ** The invariant *)

Definition wp {W A} (m : prog W A) (Q : A -> router W -> Prop) (s : router W) : Prop :=
  runs (m s) (fun r => Q (fst r) (snd r)).

Section Wp.
Context {W A B : Type}.
Implicit Types (m : prog W A) (s : router W).

Lemma wp_bind m (k : A -> prog W B) Q s : wp m (fun a => wp (k a) Q) s -> wp (m ≫= k) Q s.
Proof. unfold wp, mbind, prog_bind. by destruct (m s) as [[a s']| |]. Qed.
Lemma wp_ret (a : A) (Q : A -> router W -> Prop) s : Q a s -> wp (mret a) Q s.
Proof. done. Qed.
Lemma wp_mono m (P Q : A -> router W -> Prop) s : wp m P s -> (forall a s', P a s' -> Q a s') -> wp m Q s.
Proof. intros H HPQ. eapply runs_mono; [exact H|]. intros [a s'] Hp. by apply HPQ. Qed.
Lemma wp_modify f (Q : unit -> router W -> Prop) s : Q tt (f s) -> wp (modify f) Q s.
Proof. done. Qed.
Lemma wp_lift (x : exec A) (Q : A -> router W -> Prop) s : runs x (fun a => Q a s) -> wp (lift x) Q s.
Proof. unfold wp, lift. by destruct x. Qed.
Lemma wp_self (Q : cf_redis_cluster -> router W -> Prop) s c : handle s = Some c -> Q c s -> wp self Q s.
Proof. intros H HQ. unfold wp, self. by rewrite H. Qed.
Lemma wp_context id x (Q : context -> router W -> Prop) s : heap s !! id = Some x -> Q x s -> wp (context_at id) Q s.
Proof. intros H HQ. unfold wp, context_at. by rewrite H. Qed.
End Wp.

Lemma wp_update {W} f (Q : unit -> router W -> Prop) s c :
  handle s = Some c -> Q tt (set_handle (Some (f c)) s) -> wp (update f) Q s.
Proof. intros H HQ. apply wp_bind. by eapply wp_self. Qed.

(** One step of a computation, and its end. *)
Ltac step := apply wp_bind.
Ltac fin := apply wp_ret.

(** Node [i] holds [id]. *)
Definition holds (c : cf_redis_cluster) (i id : nat) : Prop := exists n, nodes c !! i = Some n /\ n_ctx n = Some id.

Section Good.
Context {W : Type}.
Implicit Types (s : router W) (c : cf_redis_cluster).

(** [working]: the contexts of the call under way. *)
Record good c s (working : list nat) : Prop := {
  g_handle : handle s = Some c;
  g_mapped : mapped c;
  g_blocks : blocks s = zlen (seeds c) + 2;
  g_next : forall id, (next s <= id)%nat -> heap s !! id = None;
  g_peer : forall i n id, nodes c !! i = Some n -> n_ctx n = Some id ->
    exists e, heap s !! id = Some {| x_host := n_host n; x_port := n_port n; x_err := e |};
  g_alone : forall i j id, holds c i id -> holds c j id -> i = j;
  g_held : forall id x, heap s !! id = Some x -> id ∈ working \/ exists i, holds c i id;
  g_working : forall id, id ∈ working -> is_Some (heap s !! id) /\ forall i, ~ holds c i id
}.

(** A context keeps its address, and one that was freed does not come back. *)
Definition keeps s s' : Prop := (next s <= next s')%nat /\
  forall id y, heap s' !! id = Some y -> (id < next s)%nat ->
    exists x, heap s !! id = Some x /\ x_host x = x_host y /\ x_port x = x_port y.

(** What a call did: the new handle, the replies still owed, what was seen. *)
Record after s c' s' (working : list nat) (owed : Z) (seen : list event) : Prop := {
  a_good : good c' s' working;
  a_replies : replies s' = replies s + owed;
  a_trace : trace s' = trace s ++ seen;
  a_keeps : keeps s s'
}.

Lemma keeps_same s s' : heap s' = heap s -> next s' = next s -> keeps s s'.
Proof. intros E1 E2. split; [lia|]. intros id y. rewrite E1. intros. by exists y. Qed.
Lemma keeps_trans s1 s2 s3 : keeps s1 s2 -> keeps s2 s3 -> keeps s1 s3.
Proof.
  intros [A1 A2] [B1 B2]. split; [lia|]. intros id y Hy Hid. destruct (B2 _ _ Hy) as (x & Hx & <- & <-); [lia|].
  by apply A2.
Qed.
Lemma keeps_delete s s' id : heap s' = delete id (heap s) -> next s' = next s -> keeps s s'.
Proof. intros E1 E2. split; [lia|]. intros j y. rewrite E1. intros [_ Hy]%lookup_delete_Some _. by exists y. Qed.
Lemma keeps_err s s' id x e : heap s !! id = Some x ->
  heap s' = <[id := {| x_host := x_host x; x_port := x_port x; x_err := e |}]> (heap s) -> next s' = next s -> keeps s s'.
Proof.
  intros Hx E1 E2. split; [lia|]. intros j y. rewrite E1. intros [[<- <-]|[_ Hy]]%lookup_insert_Some _; [by exists x|by exists y].
Qed.
Lemma keeps_new s s' x : heap s' = <[next s := x]> (heap s) -> next s' = S (next s) -> keeps s s'.
Proof.
  intros E1 E2. split; [lia|]. intros j y. rewrite E1. intros [[<- <-]|[_ Hy]]%lookup_insert_Some Hj; [lia|by exists y].
Qed.

Lemma after_here s c w : good c s w -> after s c s w 0 [].
Proof. intros H. constructor; [done|lia|by rewrite app_nil_r|by apply keeps_same]. Qed.

Lemma after_trans s1 s2 s3 c2 c3 w2 w3 n2 n3 l2 l3 :
  after s1 c2 s2 w2 n2 l2 -> after s2 c3 s3 w3 n3 l3 -> after s1 c3 s3 w3 (n2 + n3) (l2 ++ l3).
Proof.
  intros [A1 A2 A3 A4] [B1 B2 B3 B4]. constructor; [done|lia|by rewrite B3, A3, app_assoc|by eapply keeps_trans].
Qed.

(** Two handles that differ in their connections only. *)
Definition alike c c' : Prop := c' = set_nodes (nodes c') c /\ addresses c' = addresses c.

Lemma alike_refl c : alike c c.
Proof. split; [by destruct c|done]. Qed.
Lemma alike_trans c1 c2 c3 : alike c1 c2 -> alike c2 c3 -> alike c1 c3.
Proof. intros [A1 A2] [B1 B2]. split; [by rewrite B1, A1|congruence]. Qed.
Lemma alike_length c c' : alike c c' -> length (nodes c') = length (nodes c).
Proof. intros [_ H]. apply (f_equal length) in H. by rewrite !length_fmap in H. Qed.
Lemma alike_mapped c c' : alike c c' -> mapped c -> mapped c'.
Proof.
  intros Hs [M1 M2 M3 M4]. pose proof (alike_length _ _ Hs) as Hl. destruct Hs as [H1 H2].
  assert (slot_node c' = slot_node c) as E by (by rewrite H1).
  constructor; rewrite ?E, ?Hl, ?H2; done.
Qed.
Lemma alike_owner c c' slot : alike c c' -> owner c' slot = owner c slot.
Proof. intros [H1 H2]. unfold owner. rewrite H2. by rewrite H1. Qed.

Lemma set_node_ctx_lookup c i ctx j n : nodes (set_node_ctx i ctx c) !! j = Some n ->
  exists n0, nodes c !! j = Some n0 /\ address n = address n0 /\ n_ctx n = if decide (j = i) then ctx else n_ctx n0.
Proof.
  cbn [nodes set_node_ctx set_nodes]. destruct (decide (j = i)) as [->|Hne].
  - rewrite list_lookup_alter. rewrite decide_True by done.
    destruct (nodes c !! i) as [n0|]; [|done]. intros [= <-]. by exists n0.
  - rewrite list_lookup_alter_ne by done. intros H. by exists n.
Qed.

Lemma alike_set_node_ctx c i ctx : alike c (set_node_ctx i ctx c).
Proof.
  split; [by destruct c|]. cbn [nodes set_node_ctx set_nodes]. apply list_eq. intros j.
  rewrite !list_lookup_fmap. destruct (decide (j = i)) as [->|Hne].
  - rewrite list_lookup_alter, decide_True by done. by destruct (nodes c !! i).
  - by rewrite list_lookup_alter_ne by done.
Qed.

Lemma holds_set_node_ctx c i ctx j id : holds (set_node_ctx i ctx c) j id ->
  (j = i /\ ctx = Some id) \/ (j <> i /\ holds c j id).
Proof.
  intros (n & H & Hn). destruct (set_node_ctx_lookup _ _ _ _ _ H) as (n0 & H0 & _ & E).
  destruct (decide (j = i)); [left; split; [done|congruence]|right]. split; [done|]. exists n0. split; [done|congruence].
Qed.

(** *** Steps that keep the invariant *)

Lemma good_frame c s s' w : good c s w -> handle s' = handle s -> blocks s' = blocks s -> heap s' = heap s ->
  next s' = next s -> good c s' w.
Proof. intros [G1 G2 G3 G4 G5 G6 G7 G8] E1 E2 E3 E4. by constructor; rewrite ?E1, ?E2, ?E3, ?E4. Qed.

Lemma good_err c s w id x e : good c s w -> heap s !! id = Some x ->
  good c (set_heap (<[id := {| x_host := x_host x; x_port := x_port x; x_err := e |}]> (heap s)) s) w.
Proof.
  intros [G1 G2 G3 G4 G5 G6 G7 G8] Hx. constructor; cbn [handle blocks heap next set_heap]; try done.
  - intros j Hj. rewrite lookup_insert_ne; [by apply G4|]. intros ->. by rewrite G4 in Hx.
  - intros i n j Hn Hc. destruct (G5 _ _ _ Hn Hc) as [e' He]. destruct (decide (id = j)) as [->|Hne].
    + rewrite He in Hx. injection Hx as <-. rewrite lookup_insert_eq. by exists e.
    + rewrite lookup_insert_ne by done. by exists e'.
  - intros j y Hy. destruct (decide (id = j)) as [->|Hne]; [by eapply G7|].
    rewrite lookup_insert_ne in Hy by done. by eapply G7.
  - intros j Hj. destruct (G8 _ Hj) as [H1 H2]. split; [|done].
    destruct (decide (id = j)) as [->|Hne]; [rewrite lookup_insert_eq; eauto|by rewrite lookup_insert_ne].
Qed.

(** A new context, working. *)
Lemma good_new c s x : good c s [] ->
  good c {| world := world s; heap := <[next s := x]> (heap s); next := S (next s); replies := replies s;
            blocks := blocks s; trace := trace s; handle := handle s |} [next s].
Proof.
  intros [G1 G2 G3 G4 G5 G6 G7 G8]. assert (heap s !! next s = None) as Hn by (apply G4; lia).
  constructor; cbn [handle blocks heap next]; try done.
  - intros j Hj. rewrite lookup_insert_ne by lia. apply G4. lia.
  - intros i n j H1 H2. destruct (G5 _ _ _ H1 H2) as [e He]. exists e. rewrite lookup_insert_ne; [done|congruence].
  - intros j y. destruct (decide (next s = j)) as [<-|Hne]; [intros _; left; by constructor|].
    rewrite lookup_insert_ne by done. intros Hy. destruct (G7 _ _ Hy) as [H|H]; [by inversion H|by right].
  - intros j ->%list_elem_of_singleton. rewrite lookup_insert_eq. split; [by eexists|].
    intros i (n & H1 & H2). destruct (G5 _ _ _ H1 H2) as [e He]. congruence.
Qed.

Lemma good_drop c s id : good c s [id] -> good c (set_heap (delete id (heap s)) s) [].
Proof.
  intros [G1 G2 G3 G4 G5 G6 G7 G8]. destruct (G8 id) as [H1 H2]; [by constructor|].
  constructor; cbn [handle blocks heap next set_heap]; try done.
  - intros j Hj. apply lookup_delete_None. right. by apply G4.
  - intros i n j Hn Hc. destruct (G5 _ _ _ Hn Hc) as [e He]. exists e.
    rewrite lookup_delete_ne; [done|]. intros ->. apply (H2 i). by exists n.
  - intros j y [Hne Hy]%lookup_delete_Some. destruct (G7 _ _ Hy) as [->%list_elem_of_singleton|H]; [done|by right].
  - intros j Hj. by inversion Hj.
Qed.

(** The connection of node [i] freed and forgotten. *)
Lemma good_detach c s w i n id : good c s w -> nodes c !! i = Some n -> n_ctx n = Some id ->
  good (set_node_ctx i None c) (set_handle (Some (set_node_ctx i None c)) (set_heap (delete id (heap s)) s)) w.
Proof.
  intros [G1 G2 G3 G4 G5 G6 G7 G8] Hi Hid.
  constructor; cbn [handle blocks heap next set_heap set_handle]; try done.
  - exact (alike_mapped _ _ (alike_set_node_ctx c i None) G2).
  - intros j Hj. apply lookup_delete_None. right. by apply G4.
  - intros j m k Hm Hk. destruct (set_node_ctx_lookup _ _ _ _ _ Hm) as (m0 & H0 & Ha & Hc).
    destruct (decide (j = i)) as [->|Hne]; [congruence|]. rewrite Hk in Hc. symmetry in Hc.
    destruct (G5 _ _ _ H0 Hc) as [e He]. injection Ha as -> ->. exists e. rewrite lookup_delete_ne; [done|].
    intros ->. apply Hne. eapply G6; [by exists m0|by exists n].
  - intros j k m [[_ ?]|[_ Hj]]%holds_set_node_ctx [[_ ?]|[_ Hk]]%holds_set_node_ctx; try done. by eapply G6.
  - intros k y [Hne Hy]%lookup_delete_Some. destruct (G7 _ _ Hy) as [H|(j & m & Hm & Hc)]; [by left|right].
    exists j. destruct (decide (j = i)) as [->|Hj]; [congruence|]. exists m. split; [|done].
    cbn [nodes set_node_ctx set_nodes]. by rewrite list_lookup_alter_ne.
  - intros k Hk. destruct (G8 _ Hk) as [H1 H2]. split.
    + rewrite lookup_delete_ne; [done|]. intros ->. apply (H2 i). by exists n.
    + intros j [[_ ?]|[_ Hj]]%holds_set_node_ctx; [done|by eapply H2].
Qed.

(** A working connection becomes the one of node [i]. *)
Lemma good_attach c s i n id e : good c s [id] -> nodes c !! i = Some n -> n_ctx n = None ->
  heap s !! id = Some {| x_host := n_host n; x_port := n_port n; x_err := e |} ->
  good (set_node_ctx i (Some id) c) (set_handle (Some (set_node_ctx i (Some id) c)) s) [].
Proof.
  intros [G1 G2 G3 G4 G5 G6 G7 G8] Hi Hn Hx. destruct (G8 id) as [_ Hno]; [by constructor|].
  constructor; cbn [handle blocks heap next set_handle]; try done.
  - exact (alike_mapped _ _ (alike_set_node_ctx c i _) G2).
  - intros j m k Hm Hk. destruct (set_node_ctx_lookup _ _ _ _ _ Hm) as (m0 & H0 & Ha & Hc).
    rewrite Hk in Hc. injection Ha as -> ->. destruct (decide (j = i)) as [->|Hne].
    + injection Hc as ->. rewrite Hi in H0. injection H0 as <-. by exists e.
    + eapply G5; [exact H0|by symmetry].
  - intros j k m [[-> H1]|[_ Hj]]%holds_set_node_ctx [[-> H2]|[_ Hk]]%holds_set_node_ctx; try done.
    + injection H1 as ->. by destruct (Hno k).
    + injection H2 as ->. by destruct (Hno j).
    + by eapply G6.
  - intros k y Hy. right. destruct (decide (k = id)) as [->|Hne].
    + exists i. eexists. cbn [nodes set_node_ctx set_nodes]. rewrite list_lookup_alter, decide_True, Hi by done. done.
    + destruct (G7 _ _ Hy) as [->%list_elem_of_singleton|(j & m & Hm & Hc)]; [done|]. exists j.
      destruct (decide (j = i)) as [->|Hj]; [congruence|]. exists m. split; [|done].
      cbn [nodes set_node_ctx set_nodes]. by rewrite list_lookup_alter_ne.
  - intros k Hk. by inversion Hk.
Qed.

(** New entries, and new fields, for the same connections. *)
Lemma good_change c c' s w : good c s w -> mapped c' -> seeds c' = seeds c ->
  (forall i n, nodes c' !! i = Some n -> n_ctx n = None \/ nodes c !! i = Some n) ->
  (forall i n, nodes c !! i = Some n -> n_ctx n <> None -> nodes c' !! i = Some n) ->
  good c' (set_handle (Some c') s) w.
Proof.
  intros [G1 G2 G3 G4 G5 G6 G7 G8] Hm Hs H1 H2.
  assert (forall i id, holds c' i id -> holds c i id) as Hb.
  { intros i id (n & Hn & Hc). exists n. split; [|done]. destruct (H1 _ _ Hn); [congruence|done]. }
  constructor; cbn [handle blocks heap next set_handle]; try done; [by rewrite Hs| | | |].
  - intros i n id Hn Hc. destruct (H1 _ _ Hn) as [?|Ho]; [congruence|]. by eapply G5.
  - intros i j id Hi Hj. eapply G6; by apply Hb.
  - intros id x Hx. destruct (G7 _ _ Hx) as [H|(i & n & Hn & Hc)]; [by left|right]. exists i, n. split; [|done].
    apply H2; [done|congruence].
  - intros id Hi. destruct (G8 _ Hi) as [Hx Hno]. split; [done|]. intros i H. eapply Hno. by apply Hb.
Qed.
End Good.

(** ** The operations *)

Section Ops.
Context {W : Type} {HW : World W}.
Implicit Types (s : router W) (c : cf_redis_cluster).

(** hiredis never puts a null pointer into an array of a reply. *)
Definition replies_present : Prop := forall host port argv w r e w',
  answer (AskCommand host port argv) w = ((Some r, e), w') -> reply_present r.

Definition count (reply : option redisReply) : Z := if reply then 1 else 0.

Lemma wp_command c s w id x argv : good c s w -> heap s !! id = Some x ->
  wp (redisCommandArgv id argv) (fun reply s' =>
    after s c s' w (count reply) [ECommand (x_host x) (x_port x) argv reply] /\
    (replies_present -> match reply with Some r => reply_present r | None => True end)) s.
Proof.
  intros G Hx. unfold redisCommandArgv. step. eapply wp_context; [exact Hx|]. step.
  unfold wp at 1, call. destruct (answer _ (world s)) as [[reply e] w'] eqn:Ea. cbn [runs fst snd].
  step. unfold set_err. step. eapply (wp_context id x); [exact Hx|]. apply wp_modify. step. apply wp_modify.
  step. apply wp_modify. fin. split.
  - constructor; [|done|done|by eapply keeps_err]. eapply good_frame; [by eapply (good_err _ _ _ _ _ e G Hx)|done..].
  - intros Hp. destruct reply as [r|]; [|done]. by eapply Hp.
Qed.

Lemma wp_free_reply c s w : good c s w -> wp freeReplyObject (fun _ s' => after s c s' w (-1) []) s.
Proof.
  intros G. apply wp_modify. constructor; [|done|by cbn; rewrite app_nil_r|by apply keeps_same]. by eapply good_frame.
Qed.

(** Freeing the working connection. *)
Lemma wp_free_working c s id : good c s [id] -> wp (redisFree id) (fun _ s' => after s c s' [] 0 []) s.
Proof.
  intros G. unfold redisFree. step. destruct (g_working _ _ _ G id) as [[x Hx] _]; [by constructor|].
  eapply wp_context; [exact Hx|]. apply wp_modify.
  constructor; [by apply good_drop|cbn; lia|by cbn; rewrite app_nil_r|by eapply keeps_delete].
Qed.

(** The connection of node [i] freed and forgotten. *)
Lemma wp_drop_node {B} c s i n id (k : prog W B) Q : good c s [] -> nodes c !! i = Some n -> n_ctx n = Some id ->
  (forall s', after s (set_node_ctx i None c) s' [] 0 [] -> wp k Q s') ->
  wp (_ ← redisFree id; _ ← update (set_node_ctx i None); k) Q s.
Proof.
  intros G Hi Hid Hk. destruct (g_peer _ _ _ G _ _ _ Hi Hid) as [e Hx].
  step. unfold redisFree. step. eapply wp_context; [exact Hx|]. apply wp_modify.
  step. eapply wp_update; [apply (g_handle _ _ _ G)|]. apply Hk.
  constructor; [by eapply good_detach|cbn; lia|by cbn; rewrite app_nil_r|by eapply keeps_delete].
Qed.

Definition connects_to (r : option nat) (a : list Z * Z) s : Prop :=
  forall id, r = Some id -> exists e, heap s !! id = Some {| x_host := fst a; x_port := snd a; x_err := e |}.

Lemma wp_connect_hostport c s host port : good c s [] ->
  wp (connect_hostport host port) (fun r s' =>
    after s c s' (option_list r) 0 [EConnect host port] /\ connects_to r (host, port) s') s.
Proof.
  intros G. unfold connect_hostport. step. eapply wp_self; [apply G|]. step. unfold redisConnectWithTimeout. step.
  unfold wp at 1, call. destruct (answer _ (world s)) as [r w']. cbn [runs fst snd]. step. apply wp_modify.
  destruct r as [e|].
  2: { fin. fin. split; [|done]. constructor; [by eapply good_frame|cbn; lia|done|by apply keeps_same]. }
  step. unfold wp at 1, new_context. cbn [runs fst snd]. fin. cbn [next see set_world].
  match goal with |- wp _ _ ?st => set (s1 := st) end.
  assert (good c s1 [next s]) as G1.
  { apply (good_new c (see (EConnect host port) (set_world w' s))). by eapply good_frame. }
  assert (heap s1 !! next s = Some {| x_host := host; x_port := port; x_err := e |}) as Hx
    by (subst s1; cbn; by rewrite lookup_insert_eq).
  assert (replies s1 = replies s /\ trace s1 = trace s ++ [EConnect host port] /\ keeps s s1) as (R1 & T1 & K1)
    by (split_and!; [done|done|by eapply keeps_new]).
  step. eapply wp_context; [exact Hx|]. cbn [x_err]. clearbody s1. destruct e.
  - step. eapply wp_mono; [by apply wp_free_working|]. intros _ s2 [A1 A2 A3 A4]. fin. split; [|done].
    constructor; [done|lia|by rewrite A3, app_nil_r|by eapply keeps_trans].
  - step. unfold set_timeout. step. eapply wp_self; [apply G1|]. step. eapply wp_context; [exact Hx|].
    step. unfold wp at 1, call. destruct (answer _ (world s1)) as [e' w'']. cbn [runs fst snd].
    unfold set_err. step. eapply wp_context; [exact Hx|]. apply wp_modify. fin. cbn [x_host x_port]. split.
    + constructor; [|cbn; lia|done|eapply keeps_trans; [exact K1|by eapply keeps_err]].
      apply (good_err c (set_world w'' s1) [next s] (next s) {| x_host := host; x_port := port; x_err := false |}); [by eapply good_frame|exact Hx].
    + intros id [= <-]. cbn [heap set_heap]. rewrite lookup_insert_eq. by eexists.
Qed.

(** *** Nodes *)

(** Reaching the node at [a] may take a connection. *)
Definition reaching (a : list Z * Z) (l : list event) : Prop := l = [] \/ l = [EConnect (fst a) (snd a)].

Lemma node_at c idx a : addresses c !! idx = Some a -> exists n, nodes c !! idx = Some n /\ address n = a.
Proof. rewrite list_lookup_fmap. destruct (nodes c !! idx) as [n|]; [|done]. intros [= <-]. by exists n. Qed.

Lemma wp_reconnect c s i n : good c s [] -> nodes c !! i = Some n -> n_ctx n = None ->
  wp (ctx ← connect_hostport (n_host n) (n_port n); _ ← update (set_node_ctx i ctx); mret ctx) (fun r s' =>
    exists c', alike c c' /\ after s c' s' [] 0 [EConnect (n_host n) (n_port n)] /\ connects_to r (address n) s') s.
Proof.
  intros G Hi Hn. step. eapply wp_mono; [by apply wp_connect_hostport|]. intros r s1 [[A1 A2 A3 A4] Hc].
  step. eapply wp_update; [apply (g_handle _ _ _ A1)|]. fin. exists (set_node_ctx i r c).
  split; [apply alike_set_node_ctx|]. split; [|exact Hc]. constructor; [|done|done|exact A4].
  destruct r as [id|]; cbn [option_list] in A1.
  - destruct (Hc id eq_refl) as [e He]. by eapply good_attach.
  - eapply good_change; [exact A1|exact (alike_mapped _ _ (alike_set_node_ctx c i None) (g_mapped _ _ _ A1))|done| |].
    + intros j m Hm. destruct (set_node_ctx_lookup _ _ _ _ _ Hm) as (m0 & H0 & _ & E).
      destruct (decide (j = i)); [by left|right]. revert Hm. cbn [nodes set_node_ctx set_nodes].
      by rewrite list_lookup_alter_ne.
    + intros j m Hm Hne. cbn [nodes set_node_ctx set_nodes]. rewrite list_lookup_alter_ne; [done|].
      intros ->. congruence.
Qed.

Lemma wp_node_connect c s idx a : good c s [] -> 0 <= idx -> addresses c !! Z.to_nat idx = Some a ->
  wp (node_connect idx) (fun r s' =>
    exists c' l, alike c c' /\ after s c' s' [] 0 l /\ reaching a l /\ connects_to r a s' /\ (r = None -> l <> [])) s.
Proof.
  intros G Hi Ha. pose proof (lookup_lt_Some _ _ _ Ha) as Hlt. rewrite length_fmap in Hlt.
  destruct (node_at _ _ _ Ha) as (n & Hn & <-). unfold node_connect. step.
  eapply wp_self; [apply (g_handle _ _ _ G)|]. replace (_ || _) with false by lia. rewrite Hn.
  destruct (n_ctx n) as [id|] eqn:Hid.
  2: { eapply wp_mono; [by apply wp_reconnect|]. intros r s' (c' & H1 & H2 & H3). exists c'. eexists.
       split_and!; [done|exact H2|by right|done|done]. }
  destruct (g_peer _ _ _ G _ _ _ Hn Hid) as [e He]. step. eapply wp_context; [exact He|]. cbn [x_err].
  destruct e; cbn [negb].
  - eapply wp_drop_node; [exact G|exact Hn|exact Hid|]. intros s1 A1.
    set (n1 := {| n_host := n_host n; n_port := n_port n; n_ctx := None |}).
    assert (nodes (set_node_ctx (Z.to_nat idx) None c) !! Z.to_nat idx = Some n1) as Hn1.
    { cbn [nodes set_node_ctx set_nodes]. by rewrite list_lookup_alter, decide_True, Hn by done. }
    eapply wp_mono; [exact (wp_reconnect _ _ _ n1 (a_good _ _ _ _ _ _ A1) Hn1 eq_refl)|].
    intros r s' (c' & H1 & H2 & H3). exists c'. eexists. split_and!.
    + eapply alike_trans; [apply alike_set_node_ctx|exact H1].
    + exact (after_trans _ _ _ _ _ _ _ _ _ _ _ A1 H2).
    + by right.
    + exact H3.
    + done.
  - fin. exists c, []. split_and!; [apply alike_refl|by apply after_here|by left| |done].
    intros id' [= <-]. by eexists.
Qed.

Definition idle c : Prop := Forall (fun n => n_ctx n = None) (nodes c).
Definition idle_upto (k : nat) c : Prop := forall j n, (j < k)%nat -> nodes c !! j = Some n -> n_ctx n = None.

Lemma idle_all k c : idle_upto k c -> (length (nodes c) <= k)%nat -> idle c.
Proof.
  intros H Hk. apply list.Forall_lookup. intros j n Hj. eapply H; [|exact Hj].
  apply lookup_lt_Some in Hj. lia.
Qed.

Lemma idle_heap c s : good c s [] -> idle c -> heap s = ∅.
Proof.
  intros G Hi. apply map_empty. intros id. destruct (heap s !! id) as [x|] eqn:E; [|done].
  destruct (g_held _ _ _ G _ _ E) as [H|(i & n & Hn & Hc)]; [by inversion H|].
  rewrite (proj1 (list.Forall_lookup _ _) Hi _ _ Hn) in Hc. done.
Qed.

Lemma wp_free_ctx_loop k : forall i c s, good c s [] -> idle_upto i c -> (i + k <= length (nodes c))%nat ->
  wp (free_ctx_loop k i) (fun _ s' => exists c', alike c c' /\ after s c' s' [] 0 [] /\ idle_upto (i + k) c') s.
Proof.
  induction k as [|k IH]; intros i c s G Hq Hl; cbn [free_ctx_loop].
  { fin. exists c. rewrite Nat.add_0_r. split_and!; [apply alike_refl|by apply after_here|done]. }
  step. eapply wp_self; [apply (g_handle _ _ _ G)|].
  destruct (nodes c !! i) as [n|] eqn:Hn; [|apply lookup_ge_None in Hn; lia].
  assert (forall c1 s1, alike c c1 -> after s c1 s1 [] 0 [] -> idle_upto (S i) c1 ->
    wp (free_ctx_loop k (S i)) (fun _ s' => exists c', alike c c' /\ after s c' s' [] 0 [] /\ idle_upto (i + S k) c') s1) as Hgo.
  { intros c1 s1 S1 A1 Q1. eapply wp_mono.
    - apply (IH (S i)); [apply A1|exact Q1|]. rewrite (alike_length _ _ S1). lia.
    - intros _ s2 (c2 & S2 & A2 & Q2). exists c2. split; [by eapply alike_trans|]. split.
      + exact (after_trans _ _ _ _ _ _ _ _ _ _ _ A1 A2).
      + by rewrite <- Nat.add_succ_comm. }
  destruct (n_ctx n) as [id|] eqn:Hid.
  - step. step. destruct (g_peer _ _ _ G _ _ _ Hn Hid) as [e He]. unfold redisFree. step.
    eapply wp_context; [exact He|]. apply wp_modify. eapply wp_update; [apply (g_handle _ _ _ G)|].
    apply (Hgo (set_node_ctx i None c)); [apply alike_set_node_ctx| |].
    + constructor; [by eapply good_detach|cbn; lia|by cbn; rewrite app_nil_r|by eapply keeps_delete].
    + intros j m Hj Hm. destruct (set_node_ctx_lookup _ _ _ _ _ Hm) as (m0 & H0 & _ & E).
      destruct (decide (j = i)); [done|]. rewrite E. apply (Hq j); [lia|done].
  - step. fin. apply (Hgo c); [apply alike_refl|by apply after_here|].
    intros j m Hj Hm. destruct (decide (j = i)) as [->|Hne]; [congruence|]. apply (Hq j); [lia|done].
Qed.

Lemma wp_free_all c s : good c s [] ->
  wp free_all_ctx (fun _ s' => exists c', alike c c' /\ after s c' s' [] 0 [] /\ idle c') s.
Proof.
  intros G. unfold free_all_ctx. step. eapply wp_self; [apply (g_handle _ _ _ G)|].
  eapply wp_mono; [apply (wp_free_ctx_loop _ 0 c); [done|intros j n ? _; lia|lia]|].
  intros _ s' (c' & H1 & H2 & H3). exists c'. split_and!; [done|done|]. eapply idle_all; [exact H3|].
  by rewrite (alike_length _ _ H1).
Qed.

(** *** Topology *)

Lemma idle_change c c' s w : good c s w -> idle c -> mapped c' -> seeds c' = seeds c -> idle c' ->
  good c' (set_handle (Some c') s) w.
Proof.
  intros G Hi Hm Hs Hi'. eapply good_change; [exact G|done|done| |].
  - intros i n Hn. left. exact (proj1 (list.Forall_lookup _ _) Hi' _ _ Hn).
  - intros i n Hn Hc. destruct Hc. exact (proj1 (list.Forall_lookup _ _) Hi _ _ Hn).
Qed.

Lemma after_set_handle c' s w : good c' (set_handle (Some c') s) w -> after s c' (set_handle (Some c') s) w 0 [].
Proof. intros G. constructor; [done|cbn; lia|by cbn; rewrite app_nil_r|by apply keeps_same]. Qed.

Lemma wp_set_handle c' s w (Q : unit -> router W -> Prop) : good c' (set_handle (Some c') s) w ->
  (forall s', after s c' s' w 0 [] -> Q tt s') -> wp (modify (set_handle (Some c'))) Q s.
Proof. intros G HQ. by apply wp_modify, HQ, after_set_handle. Qed.

(** Fields other than the table, the map and the seeds. *)
Lemma wp_set_fields c s w f : good c s w -> nodes (f c) = nodes c -> slot_node (f c) = slot_node c ->
  seeds (f c) = seeds c -> wp (update f) (fun _ s' => after s (f c) s' w 0 []) s.
Proof.
  intros G E1 E2 E3. eapply wp_update; [apply (g_handle _ _ _ G)|]. apply after_set_handle.
  eapply good_change; [exact G| |done| |]; rewrite ?E1; [|by intros; right|done].
  destruct (g_mapped _ _ _ G). by constructor; rewrite ?E1, ?E2.
Qed.

Lemma peer_kept c s s' w id h p e y : good c s w -> keeps s s' ->
  heap s !! id = Some {| x_host := h; x_port := p; x_err := e |} -> heap s' !! id = Some y ->
  heap s' !! id = Some {| x_host := h; x_port := p; x_err := x_err y |}.
Proof.
  intros G [_ K] Hx Hy. destruct (K _ _ Hy) as (x & Hx' & E1 & E2).
  { apply not_ge. intros Hge. rewrite (g_next _ _ _ G) in Hx by lia. done. }
  rewrite Hx in Hx'. injection Hx' as <-. cbn in E1, E2. rewrite Hy. destruct y. by rewrite E1, E2.
Qed.

(** A topology is loaded into an idle handle as the reference says. *)
Lemma wp_load_slots c s w el : good c s w -> idle c -> reply_present (REPLY_ARRAY el) ->
  let rs := omap valid_range el in
  wp (load_slots (Some (REPLY_ARRAY el))) (fun rc s' => rc = 0 /\ exists c', after s c' s' w 0 [] /\ idle c' /\
    c' = set_nodes (nodes c') (set_slots (slot_node c') c) /\ addresses c' = foldl enroll [] (snd <$> rs) /\
    forall slot, 0 <= slot -> owner c' slot = foldl (claim (addresses c') slot) None rs) s.
Proof.
  intros G Hi Hp rs. unfold load_slots. step. eapply wp_self; [apply (g_handle _ _ _ G)|]. step. apply wp_lift.
  destruct (parse_cluster_slots_spec el c (g_mapped _ _ _ G) Hp) as (c' & E & M & K & F & A & O).
  rewrite E. cbn [runs]. step. apply wp_set_handle with (w := w); [eapply idle_change; try done; by rewrite K|].
  intros s' A'. fin. split; [done|]. by exists c'.
Qed.

(** A standalone server becomes the only node, with its connection. *)
Lemma wp_standalone c s id host port e : good c s [id] -> idle c ->
  heap s !! id = Some {| x_host := host; x_port := port; x_err := e |} ->
  wp (_ ← update (fun c => clear_slot_map (set_nodes [] c));
      idx ← find_or_add host port;
      if negb (idx =? 0) then _ ← redisFree id; mret (-1)
      else
        _ ← update (set_node_ctx 0 (Some id));
        _ ← update (fun c => set_connected true (set_is_cluster false c));
        mret 0)
    (fun rc s' => exists c', after s c' s' [] 0 [] /\ seeds c' = seeds c /\
      (rc = 0 /\ connected c' = true \/ rc = -1 /\ idle c' /\ connected c' = connected c)) s.
Proof.
  intros G Hi Hx. step. eapply wp_update; [apply (g_handle _ _ _ G)|].
  set (c3 := clear_slot_map (set_nodes [] c)).
  assert (good c3 (set_handle (Some c3) s) [id]) as G3.
  { eapply idle_change; [exact G|done| |done|by constructor]. apply mapped_clear, G. }
  pose proof (after_set_handle _ _ _ G3) as A3. generalize dependent (set_handle (Some c3) s). intros s3 G3 A3.
  step. unfold find_or_add. step. eapply wp_self; [apply (g_handle _ _ _ G3)|].
  destruct (node_find_or_add host port c3) as [idx c4] eqn:E.
  destruct (node_find_or_add_spec _ _ _ _ _ (g_mapped _ _ _ G3) E) as (M4 & K4 & _ & N4 & _ & L4 & _).
  assert (idle c4) as I4.
  { unfold idle. by destruct N4 as [->| ->]; repeat constructor. }
  step. apply wp_set_handle with (w := [id]); [eapply idle_change; [exact G3|by constructor|done|by rewrite K4|done]|].
  intros s4 A4. fin. pose proof (after_trans _ _ _ _ _ _ _ _ _ _ _ A3 A4) as B4.
  destruct (idx =? 0) eqn:Ei; cbn [negb].
  - destruct (node_at c4 0 (host, port)) as (n & Hn & [= Eh Ep]);
      [assert (idx = 0) as -> by lia; by apply L4|].
    step. eapply wp_update; [apply (g_handle _ _ _ (a_good _ _ _ _ _ _ B4))|]. step.
    destruct (g_working _ _ _ (a_good _ _ _ _ _ _ B4) id) as [[y Hy] _]; [by constructor|].
    eassert (good _ _ _) as G5.
    { eapply (good_attach c4 s4 0 n id (x_err y)); [apply B4|exact Hn| |].
      - exact (proj1 (list.Forall_lookup _ _) I4 _ _ Hn).
      - rewrite Eh, Ep. eapply peer_kept; [exact G|apply B4|exact Hx|exact Hy]. }
    pose proof (after_trans _ _ _ _ _ _ _ _ _ _ _ B4 (after_set_handle _ _ _ G5)) as B5.
    eapply wp_mono; [by apply (wp_set_fields _ _ _ _ G5)|]. intros u s6 A6. fin. eexists.
    split; [exact (after_trans _ _ _ _ _ _ _ _ _ _ _ B5 A6)|]. split; [by cbn; rewrite K4|by left].
  - step. eapply wp_mono; [eapply wp_free_working, B4|]. intros u s5 A5. fin. exists c4.
    split; [exact (after_trans _ _ _ _ _ _ _ _ _ _ _ B4 A5)|]. split; [by rewrite K4|].
    right. by rewrite K4.
Qed.

Lemma wp_bootstrap c s id host port e : replies_present -> good c s [id] -> idle c ->
  heap s !! id = Some {| x_host := host; x_port := port; x_err := e |} ->
  wp (bootstrap_from id host port) (fun rc s' => exists c' l, after s c' s' [] 0 l /\ seeds c' = seeds c /\
    (rc = 0 /\ connected c' = true \/ rc = -1 /\ idle c' /\ connected c' = connected c)) s.
Proof.
  intros Hp G Hi Hx. unfold bootstrap_from. step. eapply wp_mono; [by eapply wp_command|].
  intros reply s1 [A1 P1]. specialize (P1 Hp). destruct reply as [r|]; cbn [count] in A1.
  2: { step. eapply wp_mono; [eapply wp_free_working, A1|]. intros ? s2 A2. fin. exists c. eexists.
       split; [exact (after_trans _ _ _ _ _ _ _ _ _ _ _ A1 A2)|]. split; [done|]. by right. }
  destruct (is_topology r) eqn:Ht.
  - destruct r as [|el| | | |]; try done. step. eapply wp_mono; [eapply wp_load_slots; [apply A1|done|done]|].
    intros rc s2 (_ & c2 & A2 & I2 & K2 & _ & _). step.
    eapply wp_mono; [eapply wp_free_reply, A2|]. intros ? s3 A3. step.
    eapply wp_mono; [eapply wp_free_working, A3|]. intros ? s4 A4. step.
    eapply wp_mono; [eapply wp_set_fields; [apply A4|done..]|]. intros u s5 A5. fin.
    do 2 eexists. split; [|split].
    + exact (after_trans _ _ _ _ _ _ _ _ _ _ _ A1 (after_trans _ _ _ _ _ _ _ _ _ _ _ A2
        (after_trans _ _ _ _ _ _ _ _ _ _ _ A3 (after_trans _ _ _ _ _ _ _ _ _ _ _ A4 A5)))).
    + cbn. by rewrite K2.
    + by left.
  - step. eapply wp_mono; [eapply wp_free_reply, A1|]. intros ? s2 A2.
    pose proof (after_trans _ _ _ _ _ _ _ _ _ _ _ A1 A2) as B2.
    destruct (g_working _ _ _ (a_good _ _ _ _ _ _ B2) id) as [[y Hy] _]; [by constructor|].
    eapply wp_mono.
    + eapply wp_standalone; [apply B2|done|]. eapply peer_kept; [exact G|apply B2|exact Hx|exact Hy].
    + intros rc s3 (c' & A3 & H1 & H2). exists c'. eexists.
      split; [exact (after_trans _ _ _ _ _ _ _ _ _ _ _ B2 A3)|]. done.
Qed.

(** *** Connecting *)

(** What [connect] and [refresh] leave. *)
Definition linked s (rc : Z) s' : Prop := exists c' l, after s c' s' [] 0 l /\
  (rc = 0 /\ connected c' = true \/ rc = -1 /\ connected c' = false).

Lemma linked_after s1 s2 s3 c w n l rc : after s1 c s2 w n l -> n = 0 -> linked s2 rc s3 -> linked s1 rc s3.
Proof.
  intros A -> (c' & l' & A' & H). exists c'. eexists. split; [|exact H].
  exact (after_trans _ _ _ _ _ _ _ _ _ _ _ A A').
Qed.

Lemma wp_connect_loop n : replies_present -> forall attempt c s, good c s [] -> idle c -> connected c = false ->
  (n <= length (seeds c))%nat -> wp (connect_loop n attempt) (linked s) s.
Proof.
  intros Hp. induction n as [|n IH]; intros attempt c s G Hi Hc Hn; cbn [connect_loop].
  { fin. exists c, []. split; [by apply after_here|by right]. }
  step. eapply wp_self; [apply (g_handle _ _ _ G)|].
  destruct (seeds c !! _) as [seed|] eqn:Es.
  2: { apply lookup_ge_None in Es. pose proof (Nat.mod_upper_bound (seed_idx c + attempt) (length (seeds c))). lia. }
  destruct (parse_endpoint seed CF_CLUSTER_HOST_MAX) as [[host port]|]; [|eapply IH; [exact G|done|done|lia]].
  step. eapply wp_mono; [by apply wp_connect_hostport|]. intros r s1 [A1 C1].
  destruct r as [id|]; cbn [option_list] in A1.
  2: { eapply wp_mono; [eapply (IH (S attempt) c s1); [apply A1|done|done|lia]|].
       intros rc s2 HL. by eapply linked_after. }
  step. destruct (C1 _ eq_refl) as [e He]. eapply wp_mono; [eapply wp_bootstrap; [done|apply A1|done|exact He]|].
  intros rc s2 (c2 & l2 & A2 & S2 & H2). pose proof (after_trans _ _ _ _ _ _ _ _ _ _ _ A1 A2) as B2.
  destruct H2 as [[-> H2]|(-> & I2 & H2)]; cbn [Z.eqb].
  - step. eapply wp_mono; [eapply wp_set_fields; [apply B2|done..]|]. intros ? s3 A3. fin. do 2 eexists.
    split; [exact (after_trans _ _ _ _ _ _ _ _ _ _ _ B2 A3)|by left].
  - eapply wp_mono; [eapply (IH (S attempt) c2 s2); [apply B2|done|congruence|rewrite S2; lia]|].
    intros rc s3 HL. by eapply linked_after.
Qed.

Lemma wp_connect c s : replies_present -> good c s [] -> wp (cf_redis_cluster_connect true) (linked s) s.
Proof.
  intros Hp G. unfold cf_redis_cluster_connect. cbn [negb]. step. eapply wp_mono; [by apply wp_free_all|].
  intros ? s1 (c1 & S1 & A1 & I1). step. eapply wp_mono; [eapply wp_set_fields; [apply A1|done..]|].
  intros ? s2 A2. cbn beta in A2. pose proof (after_trans _ _ _ _ _ _ _ _ _ _ _ A1 A2) as B2. step.
  eapply wp_self; [apply (g_handle _ _ _ (a_good _ _ _ _ _ _ B2))|].
  eapply wp_mono; [eapply wp_connect_loop; [done|apply B2|done|done|done]|].
  intros rc s3 HL. by eapply linked_after.
Qed.

(** A node of the table, or nothing where there is none. *)
Lemma wp_node_connect_any c s idx : good c s [] ->
  wp (node_connect idx) (fun r s' => exists c' l, alike c c' /\ after s c' s' [] 0 l /\
    forall id, r = Some id -> is_Some (heap s' !! id)) s.
Proof.
  intros G. destruct (decide (0 <= idx < zlen (nodes c))) as [Hi|Hi].
  - destruct (lookup_lt_is_Some_2 (addresses c) (Z.to_nat idx)) as [a Ha]; [rewrite length_fmap; lia|].
    eapply wp_mono; [eapply wp_node_connect; [done|lia|exact Ha]|].
    intros r s' (c' & l & H1 & H2 & _ & H3 & _). exists c', l. split_and!; [done|done|].
    intros id Hid. destruct (H3 id Hid) as [e He]. by eexists.
  - unfold node_connect. step. eapply wp_self; [apply (g_handle _ _ _ G)|]. replace (_ || _) with true by lia.
    fin. exists c, []. split_and!; [apply alike_refl|by apply after_here|done].
Qed.

Lemma alike_connected c c' : alike c c' -> connected c' = connected c /\ is_cluster c' = is_cluster c.
Proof. intros [H _]. split; by rewrite H. Qed.

Lemma wp_refresh_loop n : replies_present -> forall i c s, good c s [] -> 
  wp (refresh_loop n i) (fun r s' => exists c' l, after s c' s' [] 0 l /\ (r = None \/ r = Some 0) /\
    connected c' = connected c) s.
Proof.
  intros Hp. induction n as [|n IH]; intros i c s G; cbn [refresh_loop].
  { fin. exists c, []. split_and!; [by apply after_here|by left|done]. }
  step. eapply wp_mono; [by apply wp_node_connect_any|]. intros r s1 (c1 & l1 & S1 & A1 & H1).
  destruct (alike_connected _ _ S1) as [E1 _].
  assert (forall s2 l2, after s c1 s2 [] 0 l2 -> wp (refresh_loop n (S i)) (fun r s' => exists c' l,
    after s c' s' [] 0 l /\ (r = None \/ r = Some 0) /\ connected c' = connected c) s2) as Hgo.
  { intros s2 l2 A2. eapply wp_mono; [eapply IH, A2|]. intros r' s3 (c3 & l3 & A3 & H3 & E3). exists c3. eexists.
    split; [exact (after_trans _ _ _ _ _ _ _ _ _ _ _ A2 A3)|]. split; [done|congruence]. }
  destruct r as [id|]; [|by eapply Hgo]. destruct (H1 id eq_refl) as [x Hx].
  step. eapply wp_mono; [eapply wp_command; [apply A1|exact Hx]|]. intros reply s2 [A2 P2]. specialize (P2 Hp).
  pose proof (after_trans _ _ _ _ _ _ _ _ _ _ _ A1 A2) as B2.
  destruct reply as [rp|]; cbn [count] in B2; [|by eapply Hgo].
  destruct (is_topology rp) eqn:Ht.
  - destruct rp as [|el| | | |]; try done. step. eapply wp_mono; [eapply wp_free_all, B2|].
    intros ? s3 (c3 & S3 & A3 & I3). step. eapply wp_mono; [eapply wp_load_slots; [apply A3|done|done]|].
    intros rc s4 (_ & c4 & A4 & _ & K4 & _ & _). step. eapply wp_mono; [eapply wp_free_reply, A4|].
    intros ? s5 A5. fin. do 2 eexists. split; [|split; [by right|]].
    + exact (after_trans _ _ _ _ _ _ _ _ _ _ _ B2 (after_trans _ _ _ _ _ _ _ _ _ _ _ A3
        (after_trans _ _ _ _ _ _ _ _ _ _ _ A4 A5))).
    + rewrite K4. cbn. destruct (alike_connected _ _ S3). congruence.
  - step. eapply wp_mono; [eapply wp_free_reply, B2|]. intros ? s3 A3.
    eapply Hgo. exact (after_trans _ _ _ _ _ _ _ _ _ _ _ B2 A3).
Qed.

Lemma wp_refresh c s : replies_present -> good c s [] -> connected c = true ->
  wp (cf_redis_cluster_refresh true) (linked s) s.
Proof.
  intros Hp G Hc. unfold cf_redis_cluster_refresh. cbn [negb]. step. eapply wp_self; [apply (g_handle _ _ _ G)|].
  destruct (is_cluster c); cbn [negb].
  2: { fin. rewrite Hc. exists c, []. split; [by apply after_here|by left]. }
  step. eapply wp_mono; [by apply wp_refresh_loop|]. intros r s1 (c1 & l1 & A1 & H1 & E1).
  destruct H1 as [->| ->].
  - eapply wp_mono; [eapply wp_connect; [done|apply A1]|]. intros rc s2 HL. by eapply linked_after.
  - fin. exists c1, l1. split; [done|]. left. split; [done|congruence].
Qed.

(** *** Routing *)

(** The slot a key hashes to. *)
Definition slot_of (key : list Z) : Z := crc_ref (hash_part key) mod CF_REDIS_NUM_SLOTS.

Lemma slot_of_range key : 0 <= slot_of key < CF_REDIS_NUM_SLOTS.
Proof. by apply Z.mod_pos_bound. Qed.

Lemma wp_slot_at c s slot (Q : Z -> router W -> Prop) : good c s [] -> 0 <= slot < CF_REDIS_NUM_SLOTS ->
  (forall idx, slot_node c !! Z.to_nat slot = Some idx -> Q idx s) -> wp (slot_at slot) Q s.
Proof.
  intros G Hs HQ. unfold slot_at. step. eapply wp_self; [apply (g_handle _ _ _ G)|]. apply wp_lift.
  pose proof (m_len _ (g_mapped _ _ _ G)) as Hl. unfold rd. replace (0 <=? slot) with true by lia.
  destruct (slot_node c !! Z.to_nat slot) as [idx|] eqn:E; [by apply HQ|].
  apply lookup_ge_None in E. lia.
Qed.

(** A connection to somewhere, or nothing. *)
Definition routed s (r : option nat * option Z) s' : Prop := exists c' l, after s c' s' [] 0 l /\
  forall id, fst r = Some id -> is_Some (heap s' !! id).

Lemma routed_after s1 s2 s3 c w n l r : after s1 c s2 w n l -> n = 0 -> routed s2 r s3 -> routed s1 r s3.
Proof.
  intros A -> (c' & l' & A' & H). exists c'. eexists. split; [|exact H].
  exact (after_trans _ _ _ _ _ _ _ _ _ _ _ A A').
Qed.

Lemma wp_node_routed c s idx slot : good c s [] ->
  wp (ctx ← node_connect idx; mret (ctx, slot)) (routed s) s.
Proof.
  intros G. step. eapply wp_mono; [by apply wp_node_connect_any|]. intros r s1 (c1 & l1 & _ & A1 & H1).
  fin. by exists c1, l1.
Qed.

Lemma wp_conn c s key : replies_present -> bytes_ok key -> good c s [] ->
  wp (cf_redis_cluster_conn true key) (routed s) s.
Proof.
  intros Hp Hk G. unfold cf_redis_cluster_conn. cbn [negb]. step. eapply wp_self; [apply (g_handle _ _ _ G)|].
  assert (forall slot, routed s (None, slot) s) as Hnone by (intros slot; exists c, []; by split; [apply after_here|]).
  destruct (connected c) eqn:Hc; cbn [negb]; [|apply Hnone].
  destruct (is_cluster c); cbn [negb].
  - step. apply wp_lift. rewrite key_slot_hash_part by done. cbn [runs]. fold (slot_of key).
    pose proof (slot_of_range key) as Hr. step. apply (wp_slot_at c); [done|done|]. intros idx _.
    destruct (idx <? 0); [|by apply (wp_node_routed c)].
    step. eapply wp_mono; [by apply (wp_refresh c)|]. intros rc s1 (c1 & l1 & A1 & H1).
    eapply wp_mono; [|intros r s2 HR; by eapply routed_after].
    destruct (rc =? 0); cbn [negb].
    + step. apply (wp_slot_at c1); [apply A1|done|]. intros idx' _.
      destruct (idx' <? 0); [|by eapply wp_node_routed, A1]. fin. exists c1, []. by split; [apply after_here, A1|].
    + fin. exists c1, []. by split; [apply after_here, A1|].
  - step. eapply wp_mono; [by apply wp_node_connect_any|]. intros r s1 (c1 & l1 & _ & A1 & H1).
    eapply wp_mono; [|intros r' s2 HR; by eapply routed_after].
    destruct r as [id|].
    { fin. exists c1, []. split; [apply after_here, A1|]. intros id' [= <-]. by apply H1. }
    step. eapply wp_mono; [eapply wp_connect; [done|apply A1]|]. intros rc s2 (c2 & l2 & A2 & _).
    eapply wp_mono; [|intros r' s3 HR; by eapply routed_after].
    destruct (rc =? 0); [by eapply wp_node_routed, A2|]. fin. exists c2, []. by split; [apply after_here, A2|].
Qed.

(** The way to the node of a known slot is direct: no command but the caller's. *)
Lemma wp_conn_owner c s key a : bytes_ok key -> good c s [] -> connected c = true -> is_cluster c = true ->
  owner c (slot_of key) = Some a ->
  wp (cf_redis_cluster_conn true key) (fun r s' => exists c' l, alike c c' /\ after s c' s' [] 0 l /\
    reaching a l /\ connects_to (fst r) a s' /\ (fst r = None -> l <> [])) s.
Proof.
  intros Hk G Hc Hcl Ho. unfold cf_redis_cluster_conn. cbn [negb]. step.
  eapply wp_self; [apply (g_handle _ _ _ G)|]. rewrite Hc, Hcl. cbn [negb]. step. apply wp_lift.
  rewrite key_slot_hash_part by done. cbn [runs]. fold (slot_of key). pose proof (slot_of_range key) as Hr.
  step. apply (wp_slot_at c); [done|done|]. intros idx Hi. unfold owner in Ho.
  destruct (slot_of key <? 0) eqn:E; [done|]. rewrite Hi in Ho. cbn [mbind option_bind] in Ho.
  destruct (idx <? 0) eqn:En; [done|]. step. eapply wp_mono; [eapply wp_node_connect; [done|lia|exact Ho]|].
  intros r s' H. fin. exact H.
Qed.

(** *** Redirects *)

Definition redirect_of (r : redisReply) : option (Z * Z * (list Z * Z)) :=
  match r with
  | REPLY_ERROR str =>
      match cf_redis_parse_redirect (Some (c_str str)) CF_CLUSTER_HOST_MAX with
      | (kind, Some (slot, host, port)) => Some (kind, slot, (host, port))
      | (_, None) => None
      end
  | _ => None
  end.

(** A slot a MOVED names, with its new owner. *)
Definition moved_by (kind slot : Z) (a : list Z * Z) : list (Z * (list Z * Z)) :=
  if (kind =? CF_REDIS_REDIRECT_MOVED) && (0 <=? slot) && (slot <? CF_REDIS_NUM_SLOTS) then [(slot, a)] else [].

(** An ASK is announced to the node first. *)
Definition asking (kind : Z) (a : list Z * Z) (l : list event) : Prop :=
  if kind =? CF_REDIS_REDIRECT_ASK then exists r, l = [ECommand (fst a) (snd a) ASKING r] else l = [].

(** What is seen of the redirects of a command: at most [n] are followed, each
    to the address it names, when the [table] has it or has room for it. *)
Inductive follows (argv : list (list Z)) :
  list (list Z * Z) -> nat -> redisReply -> list (Z * (list Z * Z)) -> list event -> option redisReply -> Prop :=
| follows_limit table r : follows argv table 0 r [] [] (Some r)
| follows_answer table n r : redirect_of r = None -> follows argv table (S n) r [] [] (Some r)
| follows_full table n r kind slot a : redirect_of r = Some (kind, slot, a) -> a ∉ enroll table a ->
    follows argv table (S n) r [] [] None
| follows_unreachable table n r kind slot a : redirect_of r = Some (kind, slot, a) -> a ∈ enroll table a ->
    follows argv table (S n) r (moved_by kind slot a) [EConnect (fst a) (snd a)] None
| follows_lost table n r kind slot a l1 l2 : redirect_of r = Some (kind, slot, a) -> a ∈ enroll table a ->
    reaching a l1 -> asking kind a l2 ->
    follows argv table (S n) r (moved_by kind slot a) (l1 ++ l2 ++ [ECommand (fst a) (snd a) argv None]) None
| follows_next table n r kind slot a l1 l2 r' moved l res : redirect_of r = Some (kind, slot, a) -> a ∈ enroll table a ->
    reaching a l1 -> asking kind a l2 -> follows argv (enroll table a) n r' moved l res ->
    follows argv table (S n) r (moved_by kind slot a ++ moved)
      (l1 ++ l2 ++ ECommand (fst a) (snd a) argv (Some r') :: l) res.

(** The owner of a slot after these redirects. *)
Definition learned (moved : list (Z * (list Z * Z))) (slot : Z) (o : option (list Z * Z)) : option (list Z * Z) :=
  foldl (fun o m => if slot =? fst m then Some (snd m) else o) o moved.

Lemma wp_find_or_add c s host port : good c s [] ->
  wp (find_or_add host port) (fun idx s' => exists c', after s c' s' [] 0 [] /\ c' = set_nodes (nodes c') c /\
    addresses c' = enroll (addresses c) (host, port) /\ (forall slot, owner c' slot = owner c slot) /\
    (idx < 0 -> (host, port) ∉ addresses c') /\ (0 <= idx -> addresses c' !! Z.to_nat idx = Some (host, port))) s.
Proof.
  intros G. unfold find_or_add. step. eapply wp_self; [apply (g_handle _ _ _ G)|].
  destruct (node_find_or_add host port c) as [idx c'] eqn:E.
  destruct (node_find_or_add_spec _ _ _ _ _ (g_mapped _ _ _ G) E) as (M & K & A & N & R & L & _).
  step. apply wp_set_handle with (w := []).
  - eapply good_change; [exact G|done|by rewrite K| |]; destruct N as [->| ->].
    + by right.
    + intros i n [Hn|[_ Hn]]%lookup_app_Some; [by right|left].
      apply list_lookup_singleton_Some in Hn as [_ <-]. done.
    + done.
    + intros i n Hn _. by apply lookup_app_l_Some.
  - intros s' A'. fin. exists c'. split_and!; try done.
    + intros slot. by eapply owner_grow; [apply (g_mapped _ _ _ G)|..].
    + intros Hi. by apply R.
Qed.

(** The part of a step that remembers the new owner. *)
Lemma wp_learn c s kind slot idx a : good c s [] -> 0 <= idx -> addresses c !! Z.to_nat idx = Some a ->
  wp (if (kind =? CF_REDIS_REDIRECT_MOVED) && (0 <=? slot) && (slot <? CF_REDIS_NUM_SLOTS)
      then c ← self; c ← lift (set_slot slot idx c); modify (set_handle (Some c))
      else mret tt)
    (fun _ s' => exists c', after s c' s' [] 0 [] /\ c' = set_slots (slot_node c') c /\
      forall x, 0 <= x -> owner c' x = learned (moved_by kind slot a) x (owner c x)) s.
Proof.
  intros G Hi Ha. unfold moved_by. destruct (_ && _) eqn:E.
  - step. eapply wp_self; [apply (g_handle _ _ _ G)|]. step. apply wp_lift.
    destruct (set_slot_spec slot idx c a (g_mapped _ _ _ G)) as (c' & -> & M & K & O); [lia|done|done|].
    cbn [runs]. apply wp_set_handle with (w := []).
    + eapply good_change; [exact G|done|by rewrite K| |]; rewrite K; [by intros; right|done].
    + intros s' A'. exists c'. split_and!; [done|done|]. intros x Hx. by rewrite (O x Hx).
  - fin. exists c. split_and!; [by apply after_here|by destruct c|done].
Qed.

Lemma wp_ask c s id x kind a (k : prog W (option redisReply)) Q : good c s [] -> heap s !! id = Some x ->
  x_host x = fst a -> x_port x = snd a ->
  (forall s' l, after s c s' [] 0 l -> asking kind a l -> is_Some (heap s' !! id) -> wp k Q s') ->
  wp (_ ← (if kind =? CF_REDIS_REDIRECT_ASK
           then ask ← redisCommandArgv id ASKING; match ask with None => mret tt | Some _ => freeReplyObject end
           else mret tt); k) Q s.
Proof.
  intros G Hx Eh Ep Hk. unfold asking in Hk. destruct (_ =? _).
  - step. step. unfold redisCommandArgv at 1. step. eapply wp_context; [exact Hx|]. step.
    unfold wp at 1, call. destruct (answer _ (world s)) as [[reply e] w']. cbn [runs fst snd].
    step. unfold set_err. step. eapply (wp_context id x); [exact Hx|]. apply wp_modify. step. apply wp_modify.
    step. apply wp_modify. fin.
    assert (after s c (set_heap (<[id := {| x_host := x_host x; x_port := x_port x; x_err := e |}]> (heap s))
      (set_world w' s)) [] 0 []) as A.
    { constructor; [|cbn; lia|by cbn; rewrite app_nil_r|by eapply keeps_err].
      eapply (good_err c (set_world w' s)); [by eapply good_frame|exact Hx]. }
    assert (forall s', heap s' = <[id := {| x_host := x_host x; x_port := x_port x; x_err := e |}]> (heap s) ->
      handle s' = handle s -> blocks s' = blocks s -> next s' = next s -> replies s' = replies s ->
      trace s' = trace s ++ [ECommand (x_host x) (x_port x) ASKING reply] -> wp k Q s') as Hgo.
    { intros s' E1 E2 E3 E4 E5 E6. eapply Hk.
      - constructor; [eapply good_frame; [apply (a_good _ _ _ _ _ _ A)|done..]|lia|exact E6|by eapply keeps_err].
      - exists reply. by rewrite Eh, Ep.
      - rewrite E1, lookup_insert_eq. by eexists. }
    destruct reply; [apply wp_modify|fin]; apply Hgo; try done; cbn; lia.
  - step. fin. eapply Hk; [by apply after_here|done|by eexists].
Qed.

Lemma redirect_of_loop argv hops r : redirect_of r = None ->
  redirect_loop (S hops) argv r = mret (M := prog W) (Some r).
Proof.
  intros E. cbn [redirect_loop]. destruct r; try done. unfold redirect_of in E.
  by destruct (cf_redis_parse_redirect _ _) as [kind [[[slot h] p]|]].
Qed.

Lemma learned_app l1 l2 x o : learned (l1 ++ l2) x o = learned l2 x (learned l1 x o).
Proof. apply foldl_app. Qed.

(** What following redirects does; [r] is a reply already received. *)
Definition followed argv c s hops (r : redisReply) (res : option redisReply) s' : Prop :=
  exists c' moved l, after s c' s' [] (count res - 1) l /\ follows argv (addresses c) hops r moved l res /\
    (forall slot, 0 <= slot -> owner c' slot = learned moved slot (owner c slot)) /\
    connected c' = connected c /\ is_cluster c' = is_cluster c.

Lemma wp_redirect_loop argv hops : forall c s r, good c s [] -> 
  wp (redirect_loop hops argv r) (followed argv c s hops r) s.
Proof.
  induction hops as [|hops IH]; intros c s r G.
  { fin. exists c, [], []. split; [by apply after_here|]. split; [constructor|done]. }
  destruct (redirect_of r) as [[[kind slot] [host port]]|] eqn:Er.
  2: { rewrite redirect_of_loop by done. fin. exists c, [], []. split; [by apply after_here|]. by split; [constructor|]. }
  destruct r as [| | | | |str]; try done. cbn [redirect_loop]. pose proof Er as Er'. unfold redirect_of in Er.
  destruct (cf_redis_parse_redirect _ _) as [kind' [[[slot' h'] p']|]]; [|done]. injection Er as -> -> -> ->.
  step. eapply wp_mono; [by eapply wp_free_reply|]. intros ? s1 A1.
  step. eapply wp_mono; [eapply wp_find_or_add, A1|]. intros idx s2 (c2 & A2 & K2 & T2 & O2 & R2 & L2).
  pose proof (after_trans _ _ _ _ _ _ _ _ _ _ _ A1 A2) as B2.
  assert (connected c2 = connected c /\ is_cluster c2 = is_cluster c) as [F2 F2'] by (by rewrite K2).
  destruct (idx <? 0) eqn:Ei.
  { fin. exists c2, [], []. split; [exact B2|]. split; [|split; [intros; by rewrite O2|done]].
    eapply follows_full; [exact Er'|]. rewrite <- T2. apply R2. lia. }
  specialize (L2 ltac:(lia)).
  assert ((host, port) ∈ enroll (addresses c) (host, port)) as Hin.
  { rewrite <- T2. apply list_elem_of_lookup. by eexists. }
  step. eapply wp_mono; [eapply wp_learn; [apply A2|lia|exact L2]|]. intros ? s3 (c3 & A3 & K3 & O3).
  pose proof (after_trans _ _ _ _ _ _ _ _ _ _ _ B2 A3) as B3.
  assert (nodes c3 = nodes c2 /\ connected c3 = connected c2 /\ is_cluster c3 = is_cluster c2)
    as (N3 & F3 & F3') by (by rewrite K3).
  step. eapply wp_mono; [eapply (wp_node_connect c3 _ _ (host, port)); [apply A3|lia|by rewrite N3]|].
  intros r s4 (c4 & l4 & S4 & A4 & H4 & C4 & D4). destruct (alike_connected _ _ S4) as [F4 F4'].
  pose proof (after_trans _ _ _ _ _ _ _ _ _ _ _ B3 A4) as B4.
  assert (forall x, 0 <= x -> owner c4 x = learned (moved_by kind slot (host, port)) x (owner c x)) as O4.
  { intros x Hx. rewrite (alike_owner _ _ _ S4), (O3 x Hx). by rewrite O2. }
  destruct r as [id|].
  2: { fin. exists c4. do 2 eexists. split; [exact B4|]. split; [|split; [exact O4|split; congruence]].
       destruct H4 as [->| ->]; [by destruct D4|]. by eapply follows_unreachable. }
  destruct (C4 id eq_refl) as [e He].
  eapply wp_ask; [apply A4|exact He|done|done|]. intros s5 l5 A5 H5 [x5 Hx5].
  pose proof (peer_kept _ _ _ _ _ _ _ _ _ (a_good _ _ _ _ _ _ A4) (a_keeps _ _ _ _ _ _ A5) He Hx5) as P5.
  step. eapply wp_mono; [eapply wp_command; [apply A5|exact P5]|]. intros reply s6 [A6 _].
  pose proof (after_trans _ _ _ _ _ _ _ _ _ _ _ B4 (after_trans _ _ _ _ _ _ _ _ _ _ _ A5 A6)) as B6.
  destruct reply as [r|].
  - eapply wp_mono; [eapply IH, A6|]. intros res s7 (c7 & moved & l7 & A7 & H7 & O7 & F7 & F7').
    exists c7. do 2 eexists. split; [|split; [|split; [|split; congruence]]].
    + destruct (after_trans _ _ _ _ _ _ _ _ _ _ _ B6 A7) as [Q1 Q2 Q3 Q4]. constructor; [exact Q1| |exact Q3|exact Q4].
      rewrite Q2. cbn [count]. lia.
    + cbn [app]. rewrite <- !app_assoc. eapply follows_next; [exact Er'|done|done|done|].
      destruct S4 as [_ S4]. rewrite <- T2, <- N3, <- S4. exact H7.
    + intros x Hx. rewrite learned_app. rewrite <- O4 by done. by apply O7.
  - fin. exists c4. do 2 eexists. split; [|split; [|split; [exact O4|split; congruence]]].
    + destruct B6 as [Q1 Q2 Q3 Q4]. constructor; [exact Q1| |exact Q3|exact Q4]. rewrite Q2. cbn [count]. lia.
    + cbn [app]. by eapply follows_lost.
Qed.
End Ops.
