(* ===== verification/RedisClusterProperties.v ===== *)
(** * RedisClusterProperties: the Redis Cluster client

    Histories of calls on a handle, the loading of a topology, and the routing
    and redirection of commands, from the invariant of [RedisClusterSpec]. *)

From stdpp Require Import gmap.
From S2P Require Import Prelude Endpoint Hiredis RedisSlot RedisCluster RedisClusterSpec.

(** ** Histories *)

(** The calls of the interface on a handle. *)
Inductive api :=
| Connect | Is_cluster | Refresh | Reset
| Conn (key : list Z)
| Command (key : list Z) (argv : list (list Z)).

Definition key_ok (o : api) : Prop :=
  match o with Conn key | Command key _ => bytes_ok key | _ => True end.

Section Histories.
Context {W : Type} {HW : World W}.
Implicit Types (s : router W) (c : cf_redis_cluster).

(** A call, with the reply handed to the caller. *)
Definition do_call (o : api) : prog W (option redisReply) :=
  match o with
  | Connect => _ ← cf_redis_cluster_connect true; mret None
  | Is_cluster => _ ← cf_redis_cluster_is_cluster true; mret None
  | Refresh => _ ← cf_redis_cluster_refresh true; mret None
  | Reset => _ ← cf_redis_cluster_reset true; mret None
  | Conn key => _ ← cf_redis_cluster_conn true key; mret None
  | Command key argv => cf_redis_cluster_command_argv true key argv
  end.

(** The replies the caller owns at the end. *)
Fixpoint do_calls (l : list api) : prog W Z :=
  match l with
  | [] => mret 0
  | o :: l => r ← do_call o; n ← do_calls l; mret (count r + n)
  end.

(** From nothing: make a handle and use it; then, if [freed], free it. *)
Definition use (endpoints : option (list (option (list Z)))) (timeout : Z) (l : list api) : prog W (option Z) :=
  ok ← cf_redis_cluster_new endpoints timeout;
  if ok : bool then n ← do_calls l; mret (Some n) else mret None.
Definition lifetime (endpoints : option (list (option (list Z)))) (timeout : Z) (l : list api) : prog W (option Z) :=
  r ← use endpoints timeout l;
  match r with Some n => _ ← cf_redis_cluster_free true; mret (Some n) | None => mret None end.

Definition nothing (w : W) : router W :=
  {| world := w; heap := ∅; next := 0; replies := 0; blocks := 0; trace := []; handle := None |}.

(** A refresh of a handle that lost its connection. *)
Lemma wp_refresh_any c s : replies_present (W := W) -> good c s [] ->
  wp (cf_redis_cluster_refresh true) (fun _ s' => exists c' l, after s c' s' [] 0 l) s.
Proof.
  intros Hp G. unfold cf_redis_cluster_refresh. cbn [negb]. step. eapply wp_self; [apply (g_handle _ _ _ G)|].
  destruct (is_cluster c); cbn [negb]; [|fin; exists c, []; by apply after_here].
  step. eapply wp_mono; [by apply wp_refresh_loop|]. intros r s1 (c1 & l1 & A1 & H1 & _).
  destruct H1 as [->| ->]; [|fin; by exists c1, l1].
  eapply wp_mono; [eapply wp_connect; [done|apply A1]|]. intros rc s2 (c2 & l2 & A2 & _).
  exists c2. eexists. exact (after_trans _ _ _ _ _ _ _ _ _ _ _ A1 A2).
Qed.

Lemma wp_command_any c s key argv : replies_present (W := W) -> bytes_ok key -> good c s [] ->
  wp (cf_redis_cluster_command_argv true key argv) (fun res s' => exists c' l, after s c' s' [] (count res) l) s.
Proof.
  intros Hp Hk G. unfold cf_redis_cluster_command_argv. cbn [negb]. step. eapply wp_self; [apply (g_handle _ _ _ G)|].
  destruct (connected c); cbn [negb]; [|fin; exists c, []; by apply after_here].
  step. eapply wp_mono; [by apply (wp_conn c)|]. intros r s1 (c1 & l1 & A1 & H1).
  destruct (fst r) as [id|]; [|fin; by exists c1, l1]. destruct (H1 id eq_refl) as [x Hx].
  step. eapply wp_mono; [eapply wp_command; [apply A1|exact Hx]|]. intros reply s2 [A2 _].
  pose proof (after_trans _ _ _ _ _ _ _ _ _ _ _ A1 A2) as B2.
  destruct reply as [rp|]; [|fin; exists c1; eexists; exact B2].
  eapply wp_mono; [eapply wp_redirect_loop, A2|]. intros res s3 (c3 & moved & l3 & A3 & _).
  exists c3. eexists. destruct (after_trans _ _ _ _ _ _ _ _ _ _ _ B2 A3) as [Q1 Q2 Q3 Q4].
  constructor; [exact Q1| |exact Q3|exact Q4]. rewrite Q2. cbn [count]. lia.
Qed.

Lemma wp_call o c s : replies_present (W := W) -> key_ok o -> good c s [] ->
  wp (do_call o) (fun r s' => exists c' l, after s c' s' [] (count r) l) s.
Proof.
  intros Hp Hk G. destruct o as [| | | |key|key argv]; cbn [do_call].
  - step. eapply wp_mono; [by apply (wp_connect c)|]. intros rc s1 (c1 & l1 & A1 & _). fin. by exists c1, l1.
  - step. unfold cf_redis_cluster_is_cluster. cbn [negb]. step. eapply wp_self; [apply (g_handle _ _ _ G)|]. fin. fin.
    exists c, []. by apply after_here.
  - step. eapply wp_mono; [by apply (wp_refresh_any c)|]. intros rc s1 (c1 & l1 & A1). fin. by exists c1, l1.
  - step. eapply wp_mono; [by apply (wp_free_all c)|]. intros rc s1 (c1 & _ & A1 & _). fin. by exists c1, [].
  - step. eapply wp_mono; [by apply (wp_conn c)|]. intros rc s1 (c1 & l1 & A1 & _). fin. by exists c1, l1.
  - by apply (wp_command_any c).
Qed.

Lemma wp_calls l : replies_present (W := W) -> Forall key_ok l -> forall c s, good c s [] ->
  wp (do_calls l) (fun n s' => exists c' seen, after s c' s' [] n seen) s.
Proof.
  intros Hp Hk. induction Hk as [|o l Ho _ IH]; intros c s G; cbn [do_calls].
  { fin. exists c, []. by apply after_here. }
  step. eapply wp_mono; [by apply (wp_call o c)|]. intros r s1 (c1 & l1 & A1).
  step. eapply wp_mono; [eapply IH, A1|]. intros n s2 (c2 & l2 & A2). fin.
  exists c2. eexists. exact (after_trans _ _ _ _ _ _ _ _ _ _ _ A1 A2).
Qed.

(** *** Making and freeing a handle *)

(** Freeing leaves nothing but the replies of the caller. *)
Definition emptied s s' : Prop := heap s' = ∅ /\ blocks s' = 0 /\ replies s' = replies s /\ handle s' = None.

Lemma wp_free_seeds n s : wp (free_seeds n) (fun _ s' => s' = add_blocks (- Z.of_nat n) s) s.
Proof.
  revert s. induction n as [|n IH]; intros s; cbn [free_seeds].
  { fin. destruct s. unfold add_blocks. cbn. f_equal. lia. }
  step. apply wp_modify. eapply wp_mono; [apply IH|]. intros ? s' ->. unfold add_blocks. cbn. f_equal. lia.
Qed.

Lemma wp_free c s : good c s [] -> wp (cf_redis_cluster_free true) (fun _ s' => emptied s s') s.
Proof.
  intros G. unfold cf_redis_cluster_free. cbn [negb]. step. eapply wp_mono; [by apply wp_free_all|].
  intros ? s1 (c1 & _ & A1 & I1). step. eapply wp_self; [apply (g_handle _ _ _ (a_good _ _ _ _ _ _ A1))|].
  step. eapply wp_mono; [apply wp_free_seeds|]. intros ? s2 ->. step. apply wp_modify. step. apply wp_modify.
  apply wp_modify. unfold emptied. cbn. split_and!; [by eapply idle_heap; [apply A1|]| | |done].
  - rewrite (g_blocks _ _ _ (a_good _ _ _ _ _ _ A1)). lia.
  - rewrite (a_replies _ _ _ _ _ _ A1). lia.
Qed.

Lemma wp_malloc s : wp malloc (fun ok s' => exists w, s' = add_blocks (if ok then 1 else 0) (set_world w s)) s.
Proof.
  unfold malloc. step. unfold wp at 1, call. destruct (answer _ (world s)) as [ok w]. cbn [runs fst snd].
  step. apply wp_modify. fin. by exists w.
Qed.

(** A handle without connections. *)
Lemma good_idle c s : handle s = Some c -> heap s = ∅ -> mapped c -> idle c -> blocks s = zlen (seeds c) + 2 ->
  good c s [].
Proof.
  intros E1 E2 E3 E4 E5. assert (forall i n id, nodes c !! i = Some n -> n_ctx n = Some id -> False) as Hno.
  { intros i n id Hn. by rewrite (proj1 (list.Forall_lookup _ _) E4 _ _ Hn). }
  constructor; try done; rewrite ?E2; try done.
  - intros i n id Hn Hc. by destruct (Hno i n id).
  - intros i j id (n & Hn & Hc). by destruct (Hno i n id).
  - intros id Hid. by inversion Hid.
Qed.

(** What a handle under construction owns. *)
Record bare c s : Prop := {
  b_handle : handle s = Some c;
  b_heap : heap s = ∅;
  b_nodes : nodes c = [];
  b_blocks : blocks s = zlen (seeds c) + 2;
  b_replies : replies s = 0;
  b_trace : trace s = []
}.

Lemma wp_free_bare c s : bare c s -> wp (cf_redis_cluster_free true) (fun _ s' => emptied s s') s.
Proof.
  intros [B1 B2 B3 B4 B5 B6]. unfold cf_redis_cluster_free, free_all_ctx. cbn [negb]. step. step.
  eapply wp_self; [exact B1|]. rewrite B3. cbn [length free_ctx_loop]. fin. step. eapply wp_self; [exact B1|].
  step. eapply wp_mono; [apply wp_free_seeds|]. intros ? s2 ->. step. apply wp_modify. step. apply wp_modify.
  apply wp_modify. unfold emptied. cbn. split_and!; [done|lia|done|done].
Qed.

Lemma wp_copy_seeds eps : forall c s, bare c s -> zlen (slot_node c) = CF_REDIS_NUM_SLOTS ->
  wp (copy_seeds eps) (fun ok s' => exists c', bare c' s' /\ slot_node c' = slot_node c) s.
Proof.
  induction eps as [|[e|] eps IH]; intros c s B Hl; cbn [copy_seeds]; [fin; by exists c| |fin; by exists c].
  step. eapply wp_mono; [apply wp_malloc|]. intros ok s1 [w ->]. destruct B as [B1 B2 B3 B4 B5 B6].
  destruct ok; cbn [negb].
  - step. eapply wp_update; [exact B1|]. eapply wp_mono; [eapply IH|].
    + constructor; cbn; try done. cbn [seeds]. rewrite length_app. cbn [length]. lia.
    + done.
    + intros ok s2 (c2 & B' & E). by exists c2.
  - fin. exists c. split; [|done]. constructor; cbn; try done. lia.
Qed.

Lemma wp_new eps timeout w :
  wp (cf_redis_cluster_new eps timeout) (fun ok s' =>
    if ok : bool then exists c, good c s' [] /\ replies s' = 0 else emptied (nothing w) s') (nothing w).
Proof.
  unfold cf_redis_cluster_new. destruct eps as [[|e eps]|]; [fin; by split_and!| |fin; by split_and!].
  generalize (e :: eps). clear e eps. intros eps.
  step. eapply wp_mono; [apply wp_malloc|]. intros ok s1 [w1 ->]. destruct ok; cbn [negb]; [|fin; by split_and!].
  step. apply wp_modify. step. eapply wp_mono; [apply wp_malloc|]. intros ok s2 [w2 ->]. destruct ok; cbn [negb].
  2: { step. apply wp_modify. step. apply wp_modify. fin. by split_and!. }
  step. eapply wp_mono; [apply (wp_copy_seeds eps zero_cluster); [by constructor|done]|].
  intros ok s3 (c3 & B3 & E3). destruct ok; cbn [negb].
  - step. eapply wp_update; [apply B3|]. step. eapply wp_update; [done|]. fin. eexists. split.
    + eapply good_idle; [done|apply B3| |by unfold idle; cbn; rewrite (b_nodes _ _ B3); constructor|apply B3].
      constructor; cbn; rewrite ?length_fmap, ?E3, ?(b_nodes _ _ B3); [done| |by cbn|constructor].
      apply list.Forall_fmap, list.Forall_true. intros ?. cbn. lia.
    + apply B3.
  - step. eapply wp_mono; [by eapply wp_free_bare|]. intros ? s4 (E1 & E2 & E4 & E5). fin.
    split_and!; [done|done| |done]. by rewrite E4, (b_replies _ _ B3).
Qed.

(** After a failed reconnection, resetting and retrying asks nothing of the
    world and returns nothing: only [cf_redis_cluster_connect], or in cluster
    mode [cf_redis_cluster_refresh], connects again. *)
Lemma reset_retry_stuck c s key argv : handle s = Some c -> connected c = false ->
  cf_redis_cluster_conn true key s = Ret ((None, None), s) /\
  cf_redis_cluster_command_argv true key argv s = Ret (None, s).
Proof.
  intros Hh Hc. unfold cf_redis_cluster_conn, cf_redis_cluster_command_argv. cbn [negb].
  unfold mbind, prog_bind, self. by rewrite Hh, Hc.
Qed.

(** C9. A handle's life, in any world whose replies hold no null pointer: every
    call ends without touching a connection that is not open, nothing is freed
    twice, and after any calls the handle owns every open connection, each by
    one node whose address it is connected to, its slots name nodes of its
    table, and only the replies the caller got are owed; a refused or freed
    handle leaves nothing behind. *)
Theorem cluster_ownership w eps timeout l : replies_present (W := W) -> Forall key_ok l ->
  wp (use eps timeout l) (fun r s' =>
    match r with
    | Some n => (exists c, good c s' []) /\ replies s' = n
    | None => emptied (nothing w) s'
    end) (nothing w) /\
  wp (lifetime eps timeout l) (fun r s' =>
    heap s' = ∅ /\ blocks s' = 0 /\ handle s' = None /\ replies s' = default 0 r) (nothing w).
Proof.
  intros Hp Hk.
  assert (wp (use eps timeout l) (fun r s' =>
    match r with
    | Some n => (exists c, good c s' []) /\ replies s' = n
    | None => emptied (nothing w) s'
    end) (nothing w)) as Huse.
  { unfold use. step. eapply wp_mono; [apply wp_new|]. intros ok s1 H1. destruct ok; [|by fin].
    destruct H1 as (c1 & G1 & R1). step. eapply wp_mono; [by apply (wp_calls l Hp Hk c1)|].
    intros n s2 (c2 & seen & A2). fin. split; [exists c2; apply A2|]. rewrite (a_replies _ _ _ _ _ _ A2). lia. }
  split; [done|]. unfold lifetime. step. eapply wp_mono; [exact Huse|]. intros [n|] s1.
  - intros [[c1 G1] R1]. step. eapply wp_mono; [by apply (wp_free c1)|]. intros ? s2 (E1 & E2 & E3 & E4). fin.
    split_and!; try done. cbn. lia.
  - intros (E1 & E2 & E3 & E4). by fin.
Qed.

(** *** Routing *)

(** C10. A command in cluster mode whose slot has a known owner is sent to the
    owner, over its connection or a new one, with no other command before it;
    a redirect is followed to the address it names, after ASKING for an ASK, at
    most five times; the caller gets the last reply, and the slots named by the
    MOVED redirects on the way, and no others, have their new owners. *)
Theorem command_routed c s key argv a : good c s [] -> bytes_ok key -> connected c = true -> is_cluster c = true ->
  owner c (slot_of key) = Some a ->
  wp (cf_redis_cluster_command_argv true key argv) (fun res s' =>
    exists c' moved l1 l, after s c' s' [] (count res) (l1 ++ l) /\ reaching a l1 /\
      (l = [] /\ l1 <> [] /\ res = None /\ moved = [] \/
       exists reply l', l = ECommand (fst a) (snd a) argv reply :: l' /\
         match reply with
         | None => res = None /\ l' = [] /\ moved = []
         | Some r => follows argv (addresses c) CF_CLUSTER_MAX_REDIRECTS r moved l' res
         end) /\
      (forall slot, 0 <= slot -> owner c' slot = learned moved slot (owner c slot)) /\
      connected c' = true /\ is_cluster c' = true) s.
Proof.
  intros G Hk Hc Hcl Ho. unfold cf_redis_cluster_command_argv. cbn [negb]. step.
  eapply wp_self; [apply (g_handle _ _ _ G)|]. rewrite Hc. cbn [negb]. step.
  eapply wp_mono; [by apply (wp_conn_owner c _ _ a)|]. intros r s1 (c1 & l1 & S1 & A1 & H1 & C1 & D1).
  destruct (alike_connected _ _ S1) as [F1 F1'].
  assert (forall x, 0 <= x -> owner c1 x = learned [] x (owner c x)) as O1 by (intros x _; by rewrite (alike_owner _ _ _ S1)).
  destruct (fst r) as [id|].
  2: { fin. exists c1, [], l1, []. rewrite app_nil_r. split; [exact A1|]. split; [done|]. split; [|split; [exact O1|split; congruence]].
       left. split_and!; [done|by apply D1|done|done]. }
  destruct (C1 id eq_refl) as [e He]. step. eapply wp_mono; [eapply wp_command; [apply A1|exact He]|].
  intros reply s2 [A2 _]. pose proof (after_trans _ _ _ _ _ _ _ _ _ _ _ A1 A2) as B2. cbn [x_host x_port] in *.
  destruct reply as [rp|].
  - eapply wp_mono; [eapply wp_redirect_loop, A2|]. intros res s3 (c3 & moved & l3 & A3 & H3 & O3 & F3 & F3').
    exists c3, moved, l1. eexists. split; [|split; [done|split; [|split; [|split; congruence]]]].
    + destruct (after_trans _ _ _ _ _ _ _ _ _ _ _ B2 A3) as [Q1 Q2 Q3 Q4].
      constructor; [exact Q1| |rewrite <- app_assoc in Q3; exact Q3|exact Q4]. rewrite Q2. cbn [count]. lia.
    + right. do 2 eexists. split; [done|]. destruct S1 as [_ S1]. by rewrite <- S1.
    + intros x Hx. rewrite O3, O1 by done. done.
  - fin. exists c1, [], l1. eexists. split; [exact B2|]. split; [done|].
    split; [|split; [exact O1|split; congruence]]. right. by do 2 eexists.
Qed.
End Histories.

(** ** Topologies *)

Lemma enroll_all l : forall t, zlen t + zlen l <= CF_CLUSTER_MAX_NODES ->
  Forall (fun a => zlen (fst a) < CF_CLUSTER_HOST_MAX) l -> forall a, a ∈ l -> a ∈ foldl enroll t l.
Proof.
  induction l as [|b l IH]; intros t Hr Hs a Ha; [by inversion Ha|]. cbn [foldl length] in *.
  apply list.Forall_cons in Hs as [Hb Hs].
  assert (b ∈ enroll t b /\ zlen (enroll t b) <= zlen t + 1) as [H1 H2].
  { unfold enroll. destruct (bool_decide (b ∈ t)) eqn:E; cbn [orb].
    - apply bool_decide_eq_true in E. split; [done|lia].
    - replace (_ || _) with false by lia. rewrite length_app. cbn [length]. split; [|lia].
      apply elem_of_app. right. by constructor. }
  apply elem_of_cons in Ha as [->|Ha]; [by apply enroll_incl|]. by apply IH; [lia|..].
Qed.

Lemma claim_last table slot rs : forall o, Forall (fun r => snd r ∈ table) rs ->
  foldl (claim table slot) o rs =
  match list.last (filter (fun r => covers slot r = true) rs) with Some r => Some (snd r) | None => o end.
Proof.
  induction rs as [|r rs IH]; intros o H; [done|]. apply list.Forall_cons in H as [Hr H]. cbn [foldl].
  rewrite (IH _ H). unfold claim at 1. rewrite (bool_decide_eq_true_2 (_ ∈ _)) by done. rewrite andb_true_r.
  destruct (covers slot r) eqn:E.
  - rewrite list.filter_cons_True by done. rewrite list.last_cons. by destruct (list.last _).
  - by rewrite list.filter_cons_False by (by rewrite E).
Qed.

(** C11. A topology reply, of any elements: the table is the addresses of the
    well-formed ranges, once each, as far as it has room; a slot is owned by
    the master of the last range that covers it and whose master is in the
    table, and by nobody when there is none.  With at most 256 ranges and
    names that fit, that is the last range that covers it. *)
Theorem topology_correct c el : mapped c -> Forall range_present el ->
  let rs := omap valid_range el in
  exists c', parse_cluster_slots (Some (REPLY_ARRAY el)) c = Ret (0, c') /\ mapped c' /\
    addresses c' = foldl enroll [] (snd <$> rs) /\
    (forall slot, 0 <= slot -> owner c' slot = foldl (claim (addresses c') slot) None rs) /\
    (zlen rs <= CF_CLUSTER_MAX_NODES -> Forall (fun r => zlen (fst (snd r)) < CF_CLUSTER_HOST_MAX) rs ->
     forall slot, 0 <= slot -> owner c' slot = snd <$> list.last (filter (fun r => covers slot r = true) rs)).
Proof.
  intros Hm Hp rs. destruct (parse_cluster_slots_spec el c Hm Hp) as (c' & E & M & _ & _ & A & O).
  exists c'. split_and!; try done. intros Hr Hs slot Hslot. rewrite (O slot Hslot).
  rewrite claim_last; [by destruct (list.last _)|]. apply list.Forall_forall. intros r Hin. rewrite A.
  apply enroll_all; [rewrite length_fmap; exact Hr|by apply list.Forall_fmap|].
  apply list_elem_of_fmap. by exists r.
Qed.

(** A range as the server sends it, with anything after what the client reads. *)
Lemma valid_range_reply start end_ ip port more replicas : 0 <= start <= end_ -> end_ < CF_REDIS_NUM_SLOTS ->
  c_str ip = ip -> 0 <= port < 2 ^ 31 ->
  valid_range (Some (REPLY_ARRAY (Some (REPLY_INTEGER start) :: Some (REPLY_INTEGER end_) ::
    Some (REPLY_ARRAY (Some (REPLY_STRING ip) :: Some (REPLY_INTEGER port) :: more)) :: replicas))) =
  Some (start, end_, (ip, port)).
Proof.
  intros H1 H2 H3 H4. cbn [valid_range]. replace (_ && _) with true by lia. rewrite H3. do 3 f_equal.
  unfold i32. rewrite u32_id by lia. by replace (port <? 2 ^ 31) with true by lia.
Qed.

(** ** Redirects as text *)

Lemma digits_stop l b rest : Forall is_digit l -> is_digitb b = false -> forall acc,
  digits acc (l ++ b :: rest) = digits acc l /\ after_digits (l ++ b :: rest) = b :: rest.
Proof.
  intros Hl Hb. induction Hl as [|d l Hd _ IH]; intros acc; cbn [app digits after_digits]; [by rewrite Hb|].
  unfold is_digit in Hd. replace (is_digitb d) with true by (unfold is_digitb; lia). apply IH.
Qed.

Lemma strtol_dec_stop z b rest : 0 <= z < 2 ^ 63 -> is_digitb b = false ->
  strtol (dec z ++ b :: rest) = Some (z, b :: rest).
Proof.
  intros Hz Hb. assert (digits 0 (dec z) = z /\ Forall is_digit (dec z) /\ dec z <> []) as (H1 & H2 & H3).
  { destruct (decide (z = 0)) as [->|Hn]; [|apply dec_digits; lia].
    split; [done|]. split; [|done]. by repeat constructor. }
  destruct (digits_stop _ _ rest H2 Hb 0) as [D1 D2]. rewrite H1 in D1.
  destruct (dec z) as [|d l] eqn:E; [done|]. inversion H2 as [|? ? Hd _]; subst.
  unfold is_digit in Hd. unfold strtol. cbn [app skip_spaces].
  replace (is_space d) with false by (unfold is_space; lia).
  replace (d =? 45) with false by lia. replace (d =? 43) with false by lia.
  replace (is_digitb d) with true by (unfold is_digitb; lia). cbn [app] in D1, D2. rewrite D1, D2. do 2 f_equal. lia.
Qed.

(** A redirect is read back from its text. *)
Lemma redirect_printed slot host port : 0 <= slot < 2 ^ 31 -> host <> [] -> zlen host < CF_CLUSTER_HOST_MAX ->
  0 < port <= 65535 ->
  cf_redis_parse_redirect (Some (bs "MOVED " ++ dec slot ++ 32 :: host ++ 58 :: dec port)) CF_CLUSTER_HOST_MAX =
    (CF_REDIS_REDIRECT_MOVED, Some (slot, host, port)) /\
  cf_redis_parse_redirect (Some (bs "ASK " ++ dec slot ++ 32 :: host ++ 58 :: dec port)) CF_CLUSTER_HOST_MAX =
    (CF_REDIS_REDIRECT_ASK, Some (slot, host, port)).
Proof.
  intros Hs Hh Hl Hp.
  assert (forall kind, redirect_target kind (dec slot ++ 32 :: host ++ 58 :: dec port) CF_CLUSTER_HOST_MAX =
    (kind, Some (slot, host, port))) as Hrest.
  { intros kind. unfold redirect_target. rewrite strtol_dec_stop by (done || lia). cbn [Z.eqb Pos.eqb negb].
    rewrite last_colon_app by (apply dec_no_colon; lia).
    rewrite bool_decide_eq_false_2 by done. replace (CF_CLUSTER_HOST_MAX <=? zlen host) with false by lia. cbn [orb].
    rewrite strtol_dec by lia. replace (_ || _) with false by lia.
    unfold i32. rewrite u32_id by lia. by replace (slot <? 2 ^ 31) with true by lia. }
  unfold cf_redis_parse_redirect. split.
  - rewrite bool_decide_eq_true_2 by done. exact (Hrest _).
  - rewrite bool_decide_eq_false_2, bool_decide_eq_true_2 by done. exact (Hrest _).
Qed.

(** The cast to [int] makes a slot of any number: 2^32 is slot 0. *)
Lemma redirect_slot_wraps : cf_redis_parse_redirect (Some (bs "MOVED 4294967296 a:1")) CF_CLUSTER_HOST_MAX =
  (CF_REDIS_REDIRECT_MOVED, Some (0, bs "a", 1)).
Proof. reflexivity. Qed.

(** ** A cluster for the witnesses

    Node [a] answers with a topology that gives it the slot of key [k], and
    tells whoever asks for the key that it has moved to node [b], which knows. *)

Definition demo_key : list Z := bs "k".
Definition demo_range (ip : list Z) (port : Z) : redisReply :=
  REPLY_ARRAY [Some (REPLY_INTEGER 7629); Some (REPLY_INTEGER 7629);
               Some (REPLY_ARRAY [Some (REPLY_STRING ip); Some (REPLY_INTEGER port)])].
Definition demo_topology : redisReply := REPLY_ARRAY [Some (demo_range (bs "a") 7000); None; Some REPLY_NIL].

Definition demo_answer (A : Type) (q : ask A) : A :=
  match q in ask A return A with
  | AskMalloc => true
  | AskConnect _ _ _ => Some false
  | AskSetTimeout _ _ _ => false
  | AskCommand host _ argv =>
      (Some (if bool_decide (argv = CLUSTER_SLOTS) then demo_topology
             else if bool_decide (host = bs "a") then REPLY_ERROR (bs "MOVED 7629 b:7001") else REPLY_INTEGER 1), false)
  end.
#[export] Instance demo_world : World unit := fun A q w => (demo_answer A q, w).

Lemma demo_present : replies_present (W := unit).
Proof.
  intros host port argv w r e w' H. cbn in H. injection H as <- _ _.
  destruct (bool_decide _); [|by destruct (bool_decide _)]. by repeat constructor.
Qed.

(** A computed outcome and a proved one. *)
Lemma wp_and_runs {W A} (m : prog W A) s (P : A * router W -> Prop) (Q : A -> router W -> Prop) :
  wp m Q s -> runs (m s) P -> runs (m s) (fun r => P r /\ Q (fst r) (snd r)).
Proof. unfold wp. by destruct (m s). Qed.

Definition demo_calls : list api :=
  [Connect; Command demo_key [bs "GET"; demo_key]; Command demo_key [bs "GET"; demo_key]; Reset; Refresh].

Lemma cluster_ownership_witness :
  runs (lifetime (Some [Some (bs "a:7000")]) 3 demo_calls (nothing tt)) (fun r =>
    fst r = Some 2 /\ heap (snd r) = ∅ /\ blocks (snd r) = 0 /\ replies (snd r) = 2).
Proof.
  assert (Forall key_ok demo_calls) as Hk by (repeat constructor; done).
  eapply runs_mono.
  - apply wp_and_runs with (P := fun r => fst r = Some 2).
    + exact (proj2 (cluster_ownership tt (Some [Some (bs "a:7000")]) 3 demo_calls demo_present Hk)).
    + vm_compute. reflexivity.
  - intros [r s'] [E (H1 & H2 & _ & H3)]. cbn [fst snd] in *. subst r. split_and!; [reflexivity|exact H1|exact H2|exact H3].
Defined.

(** A handle that knows node [a] and gives it the slot of [k]. *)
Definition demo_cluster : cf_redis_cluster :=
  {| seeds := []; seed_idx := 0; timeout_sec := 3; connected := true; is_cluster := true;
     nodes := [{| n_host := bs "a"; n_port := 7000; n_ctx := None |}];
     slot_node := <[7629%nat := 0]> (replicate (Z.to_nat CF_REDIS_NUM_SLOTS) (-1)) |}.
Definition demo_state : router unit :=
  {| world := tt; heap := ∅; next := 0; replies := 0; blocks := 2; trace := []; handle := Some demo_cluster |}.

Lemma demo_mapped : mapped demo_cluster.
Proof.
  constructor; cbn [slot_node nodes demo_cluster].
  - by rewrite length_insert, length_replicate.
  - apply list.Forall_insert; [|cbn; lia]. apply list.Forall_replicate. cbn. lia.
  - done.
  - apply list.NoDup_singleton.
Qed.

Lemma demo_good : good demo_cluster demo_state [].
Proof. apply good_idle; [done|done|exact demo_mapped|by repeat constructor|done]. Qed.

Lemma command_routed_witness :
  runs (cf_redis_cluster_command_argv true demo_key [bs "GET"; demo_key] demo_state) (fun r =>
    fst r = Some (REPLY_INTEGER 1) /\
    trace (snd r) = [EConnect (bs "a") 7000;
                     ECommand (bs "a") 7000 [bs "GET"; demo_key] (Some (REPLY_ERROR (bs "MOVED 7629 b:7001")));
                     EConnect (bs "b") 7001; ECommand (bs "b") 7001 [bs "GET"; demo_key] (Some (REPLY_INTEGER 1))] /\
    (c ← handle (snd r); owner c 7629) = Some (bs "b", 7001)).
Proof.
  assert (owner demo_cluster (slot_of demo_key) = Some (bs "a", 7000)) as Ho by (vm_compute; reflexivity).
  eapply runs_mono.
  - apply wp_and_runs with (P := fun r => fst r = Some (REPLY_INTEGER 1) /\ trace (snd r) = [EConnect (bs "a") 7000;
      ECommand (bs "a") 7000 [bs "GET"; demo_key] (Some (REPLY_ERROR (bs "MOVED 7629 b:7001")));
      EConnect (bs "b") 7001; ECommand (bs "b") 7001 [bs "GET"; demo_key] (Some (REPLY_INTEGER 1))] /\
      (c ← handle (snd r); owner c 7629) = Some (bs "b", 7001)).
    + exact (command_routed demo_cluster demo_state demo_key [bs "GET"; demo_key] (bs "a", 7000) demo_good
        ltac:(repeat constructor; done) eq_refl eq_refl Ho).
    + vm_compute. split; [|split]; reflexivity.
  - intros r [H _]. exact H.
Defined.

Lemma topology_correct_witness :
  exists c', parse_cluster_slots (Some demo_topology) demo_cluster = Ret (0, c') /\
    owner c' 7629 = Some (bs "a", 7000) /\ owner c' 0 = None.
Proof.
  destruct (topology_correct demo_cluster [Some (demo_range (bs "a") 7000); None; Some REPLY_NIL] demo_mapped
    ltac:(repeat constructor; done)) as (c' & E & _ & _ & _ & Hl).
  exists c'. split; [exact E|].
  assert (forall slot, 0 <= slot -> owner c' slot = if covers slot (7629, 7629, (bs "a", 7000)) then Some (bs "a", 7000) else None) as Ho.
  { intros slot Hs. rewrite Hl; [|vm_compute; discriminate|by repeat constructor|done].
    change (omap valid_range _) with [(7629, 7629, (bs "a", 7000))]. cbn [filter list_filter].
    destruct (covers slot _); reflexivity. }
  split; rewrite Ho by lia; reflexivity.
Defined.
