(* ===== verification/RedisProducer.v ===== *)
(** * RedisProducer: from the event queue to Redis Streams
    ([libs/cloudflow-redis/cf_redis_producer.c])

    One thread pops event items, appends an XADD command for each to the
    connection's pipeline, and drains the replies when the pipeline is full, is
    old, or the process stops; a broken connection is replaced and its
    unanswered commands are retried once.  hiredis, the clock, the stop flags
    and the source's pushes are the [World]: each call is an [ask] it answers.
    The connection holds the commands appended and not yet answered, in order:
    a reply answers the first.  Loops that wait for the world take fuel.  The
    fields [p_popped], [n_acked] and [n_lines] record what an observer sees:
    the items taken, the commands accepted, the lines logged. *)

From S2P Require Import Prelude Core Counters Queue QueuePolicy Endpoint.
From S2P Require Import IpFmt Sha256 EventId Decap Observation Worker.

(** ** Calls to the world *)

Inductive ask : Type -> Type :=
| AskStop : ask bool
| AskMono : ask Z
| AskSleepNs (ns : Z) : ask unit
| AskConnect (host : list Z) (port : Z) : ask bool
| AskAppend (argv : list (list Z)) : ask bool
| AskReply : ask (option (option (list Z)))
| AskPushed : ask (list (list Z)).

(** [AskStop] is [producer_should_stop]; [AskConnect] says whether a context
    without error came back; [AskReply] is [None] on an I/O error, [Some None]
    for an accepted command, [Some (Some e)] for an error reply; [AskPushed] is
    what the source's other thread pushed since the last queue operation. *)
Class World (W : Type) := answer : forall A, ask A -> W -> A * W.
Arguments answer {W _ A} q w.

(** ** Constants *)

Definition CF_REDIS_BACKOFF_INITIAL_NS : Z := 100 * 1000 * 1000.
Definition CF_REDIS_BACKOFF_MAX_NS : Z := 5000 * 1000 * 1000.
Definition CF_REDIS_SHUTDOWN_DEADLINE_NS : Z := 5000 * 1000 * 1000.
Definition CF_REDIS_IDLE_SLEEP_NS : Z := 5 * 1000 * 1000.
Definition CF_REDIS_LOG_RATE_LIMIT_NS : Z := 1000 * 1000 * 1000.
Definition CF_REDIS_BACKOFF_SLEEP_CHUNK_NS : Z := 50 * 1000 * 1000.
Definition CF_REDIS_SCHEMA_NAME : list Z := bs "cloudflow.v1.CloudFlowEvent".
Definition CF_REDIS_SCHEMA_VERSION : Z := 1.
Definition CF_REDIS_ENCODING_NAME : list Z := bs "protobuf".
Definition CF_REDIS_PRODUCER_PIPELINE_MAX_CAP : Z := 4096.
Definition CF_REDIS_PRODUCER_DEFAULT_PIPELINE_MAX : Z := 512.
Definition CF_REDIS_PRODUCER_DEFAULT_FLUSH_INTERVAL_MS : Z := 100.
Definition INT64_MAX : Z := 2 ^ 63 - 1.

(** ** Configuration and state *)

(** The configuration, but for the queue and the counters, which are shared. *)
Record cf_redis_producer_config_t := {
  endpoints : list (list Z); maxlen_approx : Z; pipeline_max : Z; flush_interval_ms : Z
}.

(** The rate-limited log lines. *)
Inductive log_site := L_connect_fail | L_invalid_stream | L_append_error | L_xadd_error | L_retry_fail.

#[export] Instance log_site_eq_dec : EqDecision log_site.
Proof. solve_decision. Defined.

Definition argv : Type := list (list Z).

(** The connection side of the thread: [n_ctx] is the context, with its
    unanswered commands. *)
Record conn (W : Type) := {
  n_world : W; n_stats : cf_redis_stats_t; n_ctx : option (list argv); n_acked : list argv;
  n_last_log : log_site -> Z; n_lines : list log_site; n_endpoint_idx : Z; n_backoff_ns : Z
}.
Arguments n_world {W}. Arguments n_stats {W}. Arguments n_ctx {W}. Arguments n_acked {W}.
Arguments n_last_log {W}. Arguments n_lines {W}. Arguments n_endpoint_idx {W}. Arguments n_backoff_ns {W}.

(** The thread: [p_shutdown] is the deadline of the drain, negative before. *)
Record producer (W R : Type) := {
  p_conn : conn W; p_in : R; p_inflight : list cf_event_item_t; p_batch_start : Z; p_shutdown : Z;
  p_popped : list cf_event_item_t
}.
Arguments p_conn {W R}. Arguments p_in {W R}. Arguments p_inflight {W R}.
Arguments p_batch_start {W R}. Arguments p_shutdown {W R}. Arguments p_popped {W R}.

Section Conn.
Context {W : Type} `{World W}.
Implicit Types c : conn W.

Definition set_world (w : W) c : conn W :=
  {| n_world := w; n_stats := n_stats c; n_ctx := n_ctx c; n_acked := n_acked c;
     n_last_log := n_last_log c; n_lines := n_lines c; n_endpoint_idx := n_endpoint_idx c;
     n_backoff_ns := n_backoff_ns c |}.
Definition set_stats (st : cf_redis_stats_t) c : conn W :=
  {| n_world := n_world c; n_stats := st; n_ctx := n_ctx c; n_acked := n_acked c;
     n_last_log := n_last_log c; n_lines := n_lines c; n_endpoint_idx := n_endpoint_idx c;
     n_backoff_ns := n_backoff_ns c |}.
Definition set_ctx (ctx : option (list argv)) c : conn W :=
  {| n_world := n_world c; n_stats := n_stats c; n_ctx := ctx; n_acked := n_acked c;
     n_last_log := n_last_log c; n_lines := n_lines c; n_endpoint_idx := n_endpoint_idx c;
     n_backoff_ns := n_backoff_ns c |}.
Definition set_acked (l : list argv) c : conn W :=
  {| n_world := n_world c; n_stats := n_stats c; n_ctx := n_ctx c; n_acked := l;
     n_last_log := n_last_log c; n_lines := n_lines c; n_endpoint_idx := n_endpoint_idx c;
     n_backoff_ns := n_backoff_ns c |}.
Definition set_log (f : log_site -> Z) (l : list log_site) c : conn W :=
  {| n_world := n_world c; n_stats := n_stats c; n_ctx := n_ctx c; n_acked := n_acked c;
     n_last_log := f; n_lines := l; n_endpoint_idx := n_endpoint_idx c;
     n_backoff_ns := n_backoff_ns c |}.
Definition set_idx (i : Z) c : conn W :=
  {| n_world := n_world c; n_stats := n_stats c; n_ctx := n_ctx c; n_acked := n_acked c;
     n_last_log := n_last_log c; n_lines := n_lines c; n_endpoint_idx := i;
     n_backoff_ns := n_backoff_ns c |}.
Definition set_backoff (b : Z) c : conn W :=
  {| n_world := n_world c; n_stats := n_stats c; n_ctx := n_ctx c; n_acked := n_acked c;
     n_last_log := n_last_log c; n_lines := n_lines c; n_endpoint_idx := n_endpoint_idx c;
     n_backoff_ns := b |}.

Definition call {A} (q : ask A) c : A * conn W :=
  let '(a, w) := answer q (n_world c) in (a, set_world w c).

Definition add_stat (s : redis_stat) (n : Z) c : conn W := set_stats (stat_add s n (n_stats c)) c.

Definition log_rate_limited_kv (site : log_site) c : conn W :=
  let '(now, c) := call AskMono c in
  if negb (n_last_log c site =? 0) && (now - n_last_log c site <? CF_REDIS_LOG_RATE_LIMIT_NS) then c
  else set_log (fun x => if decide (x = site) then now else n_last_log c x) (n_lines c ++ [site]) c.

(** ** Connecting *)

(** The host and port of an endpoint. *)
Definition parse_endpoint (endpoint : list Z) : option (list Z * Z) :=
  match last_colon endpoint with
  | None => None
  | Some (host, port) =>
      if bool_decide (host = []) || (256 <=? zlen host) then None
      else
        match strtol port with
        | Some (parsed, []) =>
            if (parsed <=? 0) || (65535 <? parsed) then None else Some (host, parsed)
        | _ => None
        end
  end.

(** Whether a context was made; its pipeline is empty. *)
Definition try_connect_one (endpoint : list Z) c : bool * conn W :=
  match parse_endpoint endpoint with
  | None => (false, log_rate_limited_kv L_connect_fail c)
  | Some (host, port) =>
      let '(ok, c) := call (AskConnect host port) c in
      (ok, if (ok : bool) then set_ctx (Some []) c else c)
  end.

(** The checks before each attempt and each slice of sleep. *)
Definition bail_out (deadline_mono : Z) (bail_on_stop : bool) c : bool * conn W :=
  let '(now, c) := call AskMono c in
  if deadline_mono <=? now then (true, c) else if bail_on_stop then call AskStop c else (false, c).

Fixpoint sleep_loop (fuel : nat) (remaining deadline_mono : Z) (bail_on_stop : bool) c
    : exec (conn W) :=
  match fuel with
  | O => Spin
  | S fuel =>
      if 0 <? remaining then
        let '(stop, c) := bail_out deadline_mono bail_on_stop c in
        if (stop : bool) then Ret c
        else
          let chunk := if remaining <? CF_REDIS_BACKOFF_SLEEP_CHUNK_NS then remaining
                       else CF_REDIS_BACKOFF_SLEEP_CHUNK_NS in
          let '(_, c) := call (AskSleepNs chunk) c in
          sleep_loop fuel (remaining - chunk) deadline_mono bail_on_stop c
      else Ret c
  end.

(** At most 5 seconds in slices of 50 milliseconds. *)
Definition SLEEP_FUEL : nat := 101.
Definition sleep_backoff (backoff_ns deadline_mono : Z) (bail_on_stop : bool) c : exec (conn W) :=
  sleep_loop SLEEP_FUEL backoff_ns deadline_mono bail_on_stop c.

Variable cfg : cf_redis_producer_config_t.

(** One pass over the endpoints: [Some true] connected, [Some false] gave up. *)
Fixpoint try_endpoints (tries : nat) (count_as_reconnect : bool) (deadline_mono : Z)
    (bail_on_stop : bool) c : exec (option bool * conn W) :=
  match tries with
  | O => Ret (None, c)
  | S tries =>
      let '(stop, c) := bail_out deadline_mono bail_on_stop c in
      if (stop : bool) then Ret (Some false, c)
      else
        match endpoints cfg !! Z.to_nat (n_endpoint_idx c mod zlen (endpoints cfg)) with
        | None => Oob
        | Some ep =>
            let c := set_idx (u64 (n_endpoint_idx c + 1)) c in
            let '(ok, c) := try_connect_one ep c in
            if (ok : bool) then
              let c := if count_as_reconnect then add_stat redis_reconnects_total 1 c else c in
              Ret (Some true, set_backoff CF_REDIS_BACKOFF_INITIAL_NS c)
            else try_endpoints tries count_as_reconnect deadline_mono bail_on_stop c
        end
  end.

Fixpoint connect_with_backoff (fuel : nat) (count_as_reconnect : bool) (deadline_mono : Z)
    (bail_on_stop : bool) c : exec (bool * conn W) :=
  match fuel with
  | O => Spin
  | S fuel =>
      '(r, c) ← try_endpoints (length (endpoints cfg)) count_as_reconnect deadline_mono bail_on_stop c;
      match r with
      | Some ok => Ret (ok, c)
      | None =>
          let '(stop, c) := bail_out deadline_mono bail_on_stop c in
          if (stop : bool) then Ret (false, c)
          else
            let c := log_rate_limited_kv L_connect_fail c in
            c ← sleep_backoff (n_backoff_ns c) deadline_mono bail_on_stop c;
            let b := n_backoff_ns c * 2 in
            let b := if CF_REDIS_BACKOFF_MAX_NS <? b then CF_REDIS_BACKOFF_MAX_NS else b in
            connect_with_backoff fuel count_as_reconnect deadline_mono bail_on_stop (set_backoff b c)
      end
  end.

(** ** The pipeline *)

(** The arguments of the command hiredis formats. *)
Definition xadd_argv (stream : list Z) (item : cf_event_item_t) (payload : list Z) : argv :=
  [bs "XADD"; stream] ++
  (if 0 <? maxlen_approx cfg then [bs "MAXLEN"; bs "~"; dec (maxlen_approx cfg)] else []) ++
  [bs "*"; bs "schema"; CF_REDIS_SCHEMA_NAME; bs "version"; dec CF_REDIS_SCHEMA_VERSION;
   bs "encoding"; CF_REDIS_ENCODING_NAME; bs "event_type"; c_str (it_event_type item);
   bs "payload"; payload].

(** Whether the command was appended. *)
Definition append_xadd (item : cf_event_item_t) c : exec (bool * conn W) :=
  match n_ctx c, cf_stream_name (it_stream_id item) with
  | Some pending, Some stream =>
      payload ← rd_n (it_payload item) 0 (it_payload_len item);
      let argv := xadd_argv stream item payload in
      let '(ok, c) := call (AskAppend argv) c in
      Ret (ok, if (ok : bool) then set_ctx (Some (pending ++ [argv])) c else c)
  | _, _ => Ret (false, c)
  end.

(** The reply answers the first command of the connection. *)
Definition answered (accepted : bool) c : conn W :=
  match n_ctx c with
  | Some (cmd :: pending) =>
      set_acked (n_acked c ++ if accepted then [cmd] else []) (set_ctx (Some pending) c)
  | _ => c
  end.

(** A reply came, an error reply when [error] is not [None]. *)
Definition count_reply (error : option (list Z)) (latency : Z) c : conn W :=
  let c := add_stat xadd_latency_ns_total latency c in
  match error with
  | Some _ => log_rate_limited_kv L_xadd_error (add_stat xadd_errors_total 1 (answered false c))
  | None => add_stat xadd_total 1 (answered true c)
  end.

(** The number of replies, and whether an I/O error ended the drain. *)
Fixpoint read_replies (count : nat) (t_prev : Z) c : nat * bool * conn W :=
  match count with
  | O => (0%nat, false, c)
  | S count =>
      let '(reply, c) := call AskReply c in
      match reply with
      | None => (0%nat, true, c)
      | Some error =>
          let '(now, c) := call AskMono c in
          let '(i, io_error, c) := read_replies count now (count_reply error (now - t_prev) c) in
          (S i, io_error, c)
      end
  end.

Definition flush_pipeline (count : nat) c : nat * bool * conn W :=
  let '(t_prev, c) := call AskMono c in read_replies count t_prev c.

(** The loop of the retry: how many were appended. *)
Fixpoint append_all (items : list cf_event_item_t) c : exec (nat * conn W) :=
  match items with
  | [] => Ret (0%nat, c)
  | item :: items =>
      '(ok, c) ← append_xadd item c;
      if (ok : bool) then '(n, c) ← append_all items c; Ret (S n, c) else Ret (0%nat, c)
  end.

Definition count_lost (lost : nat) c : conn W :=
  log_rate_limited_kv L_retry_fail (add_stat events_lost_total (Z.of_nat lost) c).

Definition retry_unacked (unacked : list cf_event_item_t) c : exec (conn W) :=
  '(appended, c) ← append_all unacked c;
  let lost := (length unacked - appended)%nat in
  let '(drained2, io_error2, c) :=
    if (0 <? appended)%nat then flush_pipeline appended c else (0%nat, false, c) in
  let '(lost, c) :=
    if (io_error2 : bool) then ((lost + (appended - drained2))%nat, set_ctx None c) else (lost, c) in
  Ret (if (0 <? lost)%nat then count_lost lost c else c).

(** It always leaves nothing in flight. *)
Definition do_flush (fuel : nat) (inflight : list cf_event_item_t) (stopping : bool)
    (shutdown_deadline_mono : Z) c : exec (conn W) :=
  let '(drained, io_error, c) := flush_pipeline (length inflight) c in
  if negb io_error then Ret c
  else
    let c := set_ctx None c in
    let unacked := drop drained inflight in
    if (length unacked =? 0)%nat then Ret c
    else
      let deadline := if stopping then shutdown_deadline_mono else INT64_MAX in
      '(connected, c) ← connect_with_backoff fuel true deadline (negb stopping) c;
      if (connected : bool) then retry_unacked unacked c
      else Ret (count_lost (length unacked) c).
End Conn.

(** ** The thread *)

Section Thread.
Context {W : Type} `{World W} {R : Type} `{GaugedFifo R}.
Variable cfg : cf_redis_producer_config_t.
Implicit Types s : producer W R.

Definition set_conn (c : conn W) s : producer W R :=
  {| p_conn := c; p_in := p_in s; p_inflight := p_inflight s; p_batch_start := p_batch_start s;
     p_shutdown := p_shutdown s; p_popped := p_popped s |}.
Definition set_in (q : R) s : producer W R :=
  {| p_conn := p_conn s; p_in := q; p_inflight := p_inflight s; p_batch_start := p_batch_start s;
     p_shutdown := p_shutdown s; p_popped := p_popped s |}.
Definition set_inflight (l : list cf_event_item_t) (batch_start : Z) s : producer W R :=
  {| p_conn := p_conn s; p_in := p_in s; p_inflight := l; p_batch_start := batch_start;
     p_shutdown := p_shutdown s; p_popped := p_popped s |}.
Definition set_shutdown (deadline : Z) s : producer W R :=
  {| p_conn := p_conn s; p_in := p_in s; p_inflight := p_inflight s; p_batch_start := p_batch_start s;
     p_shutdown := deadline; p_popped := p_popped s |}.
Definition set_popped (l : list cf_event_item_t) s : producer W R :=
  {| p_conn := p_conn s; p_in := p_in s; p_inflight := p_inflight s; p_batch_start := p_batch_start s;
     p_shutdown := p_shutdown s; p_popped := l |}.

Definition pcall {A} (q : ask A) s : A * producer W R :=
  let '(a, c) := call q (p_conn s) in (a, set_conn c s).

(** The source's pushes, then the operation on the queue. *)
Definition arrivals s : exec (producer W R) :=
  let '(frames, s) := pcall AskPushed s in
  '(q, _) ← arrive frames (p_in s);
  Ret (set_in q s).
Definition queue_length s : exec (Z * producer W R) :=
  s ← arrivals s; Ret (fifo_length (p_in s), s).
Definition queue_pop s : exec (option cf_event_item_t * producer W R) :=
  s ← arrivals s;
  '(rc, q, b) ← fifo_pop (p_in s);
  let s := set_in q s in
  if rc =? 0 then
    let item := item_of_image b in
    Ret (Some item, set_popped (p_popped s ++ [item]) s)
  else Ret (None, s).

(** [while (cf_queue_pop(cfg->in, &tmp) == 0);] *)
Fixpoint drain_unsent (fuel : nat) s : exec (producer W R) :=
  match fuel with
  | O => Spin
  | S fuel =>
      '(item, s) ← queue_pop s;
      match item with Some _ => drain_unsent fuel s | None => Ret s end
  end.

Definition lose (n : Z) s : producer W R :=
  set_conn (add_stat events_lost_total n (p_conn s)) s.

(** The end at the deadline: what is queued and in flight is counted lost. *)
Definition expire (fuel : nat) s : exec (producer W R) :=
  '(remaining, s) ← queue_length s;
  s ← (if 0 <? remaining then s ← drain_unsent fuel s; Ret (lose remaining s) else Ret s);
  Ret (if (0 <? length (p_inflight s))%nat then
         set_inflight [] (p_batch_start s) (lose (zlen (p_inflight s)) s)
       else s).

(** [if (stopping && ... == 0) break;] *)
Definition queue_done (stopping : bool) s : exec (bool * producer W R) :=
  if stopping && (length (p_inflight s) =? 0)%nat then
    '(n, s) ← queue_length s; Ret (n =? 0, s)
  else Ret (false, s).

Definition take_one (stopping : bool) s : exec (producer W R) :=
  if zlen (p_inflight s) <? pipeline_max cfg then
    '(item, s) ← queue_pop s;
    match item with
    | Some item =>
        '(ok, c) ← append_xadd cfg item (p_conn s);
        let s := set_conn c s in
        if (ok : bool) then
          let '(start, s) := if (length (p_inflight s) =? 0)%nat then pcall AskMono s
                             else (p_batch_start s, s) in
          Ret (set_inflight (p_inflight s ++ [item]) start s)
        else
          let site := match cf_stream_name (it_stream_id item) with
                      | None => L_invalid_stream | Some _ => L_append_error end in
          let s := lose 1 s in
          Ret (set_conn (log_rate_limited_kv site (p_conn s)) s)
    | None => Ret (if stopping then s else snd (pcall (AskSleepNs CF_REDIS_IDLE_SLEEP_NS) s))
    end
  else Ret s.

Definition should_flush (stopping : bool) s : bool * producer W R :=
  if pipeline_max cfg <=? zlen (p_inflight s) then (true, s)
  else if (length (p_inflight s) =? 0)%nat then (false, s)
  else if stopping then (true, s)
  else
    let '(now, s) := pcall AskMono s in
    (flush_interval_ms cfg * 1000000 <=? now - p_batch_start s, s).

Definition flush_if (fuel : nat) (flush stopping : bool) s : exec (producer W R) :=
  if flush then
    c ← do_flush cfg fuel (p_inflight s) stopping (p_shutdown s) (p_conn s);
    Ret (set_inflight [] (p_batch_start s) (set_conn c s))
  else Ret s.

(** [ctx] or a new connection. *)
Definition ensure_connected (fuel : nat) (stopping : bool) s : exec (bool * producer W R) :=
  match n_ctx (p_conn s) with
  | Some _ => Ret (true, s)
  | None =>
      let deadline := if stopping then p_shutdown s else INT64_MAX in
      '(ok, c) ← connect_with_backoff cfg fuel true deadline (negb stopping) (p_conn s);
      Ret (ok, set_conn c s)
  end.

(** [if (stopping && shutdown_deadline_mono < 0) ...] *)
Definition note_stop (s : producer W R) : bool * producer W R :=
  let '(stopping, s) := pcall AskStop s in
  if (stopping : bool) && (p_shutdown s <? 0) then
    let '(now, s) := pcall AskMono s in
    (stopping, set_shutdown (now + CF_REDIS_SHUTDOWN_DEADLINE_NS) s)
  else (stopping, s).

Definition past_deadline (stopping : bool) s : bool * producer W R :=
  if stopping then
    let '(now, s) := pcall AskMono s in (p_shutdown s <=? now, s)
  else (false, s).

(** One iteration: [Some late] left the loop, at the deadline when [late]. *)
Definition producer_turn (fuel : nat) s : exec (option bool * producer W R) :=
  let '(stopping, s) := note_stop s in
  '(done, s) ← queue_done stopping s;
  if (done : bool) then Ret (Some false, s)
  else
    let '(late, s) := past_deadline stopping s in
    if (late : bool) then s ← expire fuel s; Ret (Some true, s)
    else
      '(ok, s) ← ensure_connected fuel stopping s;
      if negb ok then Ret (None, s)
      else
        s ← take_one stopping s;
        let '(flush, s) := should_flush stopping s in
        s ← flush_if fuel flush stopping s;
        Ret (None, s).

Fixpoint producer_loop (inner fuel : nat) s : exec (bool * producer W R) :=
  match fuel with
  | O => Spin
  | S fuel =>
      '(r, s) ← producer_turn inner s;
      match r with Some late => Ret (late, s) | None => producer_loop inner fuel s end
  end.

(** The variables of the thread and the static ones that [start] resets. *)
Definition start_conn (w : W) (st : cf_redis_stats_t) : conn W :=
  {| n_world := w; n_stats := st; n_ctx := None; n_acked := []; n_last_log := fun _ => 0;
     n_lines := []; n_endpoint_idx := 0; n_backoff_ns := CF_REDIS_BACKOFF_INITIAL_NS |}.
Definition start_producer (c : conn W) (q : R) : producer W R :=
  {| p_conn := c; p_in := q; p_inflight := []; p_batch_start := 0; p_shutdown := -1; p_popped := [] |}.

(** [None]: no memory for the batch.  Each loop has the given fuel. *)
Definition cf_redis_producer_thread_main (fuel : nat) (calloc_ok : bool) (w : W)
    (st : cf_redis_stats_t) (q : R) : exec (option (bool * producer W R)) :=
  if negb calloc_ok then Ret None
  else
    '(_, c) ← connect_with_backoff cfg fuel false INT64_MAX true (start_conn w st);
    '(late, s) ← producer_loop fuel fuel (start_producer c q);
    Ret (Some (late, set_conn (set_ctx None (p_conn s)) s)).
End Thread.

(** ** The singleton *)

Record redis_singleton := {
  g_running : bool; g_stop_local : bool; g_redis_cfg : option cf_redis_producer_config_t
}.

Definition with_defaults (cfg : cf_redis_producer_config_t) : cf_redis_producer_config_t :=
  let m := if pipeline_max cfg =? 0 then CF_REDIS_PRODUCER_DEFAULT_PIPELINE_MAX else pipeline_max cfg in
  let m := if CF_REDIS_PRODUCER_PIPELINE_MAX_CAP <? m then CF_REDIS_PRODUCER_PIPELINE_MAX_CAP else m in
  {| endpoints := endpoints cfg; maxlen_approx := maxlen_approx cfg; pipeline_max := m;
     flush_interval_ms :=
       if flush_interval_ms cfg =? 0 then CF_REDIS_PRODUCER_DEFAULT_FLUSH_INTERVAL_MS
       else flush_interval_ms cfg |}.

(** [has_endpoints], [has_in], [has_stats]: the pointers are not NULL;
    [create_ok]: [pthread_create] succeeds. *)
Definition cf_redis_producer_start (cfg : option cf_redis_producer_config_t)
    (has_endpoints has_in has_stats create_ok : bool) (g : redis_singleton) : Z * redis_singleton :=
  match cfg with
  | None => (-1, g)
  | Some cfg =>
      if negb has_endpoints || (length (endpoints cfg) =? 0)%nat || negb has_in || negb has_stats then (-1, g)
      else if g_running g then (-1, g)
      else
        let local := Some (with_defaults cfg) in
        if create_ok then (0, {| g_running := true; g_stop_local := false; g_redis_cfg := local |})
        else (-1, {| g_running := false; g_stop_local := false; g_redis_cfg := local |})
  end.

(** The joined thread's whole run, when there was one; its reads of the stop
    flag answer [true] once [g_stop_local] is set. *)
Definition cf_redis_producer_stop {W : Type} `{World W} {R : Type} `{GaugedFifo R}
    (fuel : nat) (calloc_ok : bool) (w : W) (st : cf_redis_stats_t) (q : R) (g : redis_singleton)
    : exec (option (bool * producer W R) * redis_singleton) :=
  match g_running g, g_redis_cfg g with
  | true, Some cfg =>
      r ← cf_redis_producer_thread_main cfg fuel calloc_ok w st q;
      Ret (r, {| g_running := false; g_stop_local := true; g_redis_cfg := Some cfg |})
  | _, _ => Ret (None, g)
  end.

(** ** What an observer names *)

(** The command of an item, and those of a list of items. *)
Definition item_command (cfg : cf_redis_producer_config_t) (item : cf_event_item_t) : option argv :=
  (fun stream => xadd_argv cfg stream item (slice (it_payload item) 0 (it_payload_len item)))
    <$> cf_stream_name (it_stream_id item).
Definition commands (cfg : cf_redis_producer_config_t) (items : list cf_event_item_t) : list argv :=
  omap (item_command cfg) items.

(** The counters that account for the popped items. *)
Definition fate_stats : list redis_stat := [xadd_total; xadd_errors_total; events_lost_total].
