(* ===== verification/RedisProducerSpec.v ===== *)
(** * RedisProducerSpec: what the Redis producer promises

    Every item the thread of [RedisProducer] takes is acknowledged, refused or
    counted lost, exactly once and in order; a loss is logged, except at the
    shutdown deadline; and a world with a clock that advances and a stop flag
    that is set lets the thread end within its fuel. *)

From S2P Require Import Prelude Core Counters Queue QueuePolicy Endpoint.
From S2P Require Import IpFmt Sha256 EventId Decap Observation Worker RedisProducer.

(** ** Effects on a connection *)

(** Read the fields of an updated connection. *)
Ltac conn_cbn :=
  unfold add_stat;
  cbn [set_world set_stats set_ctx set_acked set_log set_idx set_backoff n_world n_stats n_ctx
       n_acked n_last_log n_lines n_endpoint_idx n_backoff_ns].

(** Every loss but those at the deadline logs one of these. *)
Definition lossy : list log_site := [L_append_error; L_xadd_error; L_retry_fail].

Section Effects.
Context {W : Type} {HW : World W}.
Implicit Types c : conn W.

Definition clean c : Prop := forall site, site ∈ lossy -> site ∉ n_lines c.
Definition backoff_ok c : Prop := 0 <= n_backoff_ns c <= CF_REDIS_BACKOFF_MAX_NS.
(** A site whose clock is set has logged. *)
Definition logged c : Prop := forall site, n_last_log c site <> 0 -> site ∈ n_lines c.

(** An order on worlds that every call respects. *)
Variable wle : W -> W -> Prop.
Context `{!PreOrder wle}.
Hypothesis answer_wle : forall A (q : ask A) w, wle w (answer q w).2.

(** [effect n l k c c']: [n] items more have their fate counted, of which the
    commands [l] were accepted and [k] are lost. *)
Record effect (n : Z) (l : list argv) (k : Z) c c' : Prop := {
  ef_world : wle (n_world c) (n_world c');
  ef_backoff : backoff_ok c -> backoff_ok c';
  ef_logged : logged c -> logged c';
  ef_lines : n_lines c ⊆ n_lines c';
  ef_fate : total fate_stats (n_stats c') = u64 (total fate_stats (n_stats c) + n);
  ef_xadd : total [xadd_total] (n_stats c') = u64 (total [xadd_total] (n_stats c) + zlen l);
  ef_lost : total [events_lost_total] (n_stats c') = u64 (total [events_lost_total] (n_stats c) + k);
  ef_acked : n_acked c' = n_acked c ++ l
}.

(** Nothing is counted; only failures to connect may be logged. *)
Definition calm c c' : Prop := effect 0 [] 0 c c' /\ (clean c -> clean c').

Lemma conn_effect_refl c : effect 0 [] 0 c c.
Proof. constructor; rewrite ?Z.add_0_r, ?app_nil_r, ?total_u64; done. Qed.

Lemma conn_effect_trans n1 l1 k1 n2 l2 k2 c1 c2 c3 : effect n1 l1 k1 c1 c2 -> effect n2 l2 k2 c2 c3 ->
  effect (n1 + n2) (l1 ++ l2) (k1 + k2) c1 c3.
Proof.
  intros [w1 b1 g1 i1 f1 x1 t1 a1] [w2 b2 g2 i2 f2 x2 t2 a2]. constructor.
  - by etransitivity.
  - auto.
  - auto.
  - by etransitivity.
  - rewrite f2, f1, u64_add. f_equal. lia.
  - rewrite x2, x1, u64_add, length_app. f_equal. lia.
  - rewrite t2, t1, u64_add. f_equal. lia.
  - by rewrite a2, a1, app_assoc.
Qed.

(** Effects with the numbers they should have. *)
Lemma effect_as n l k n' l' k' c c' : effect n l k c c' -> n = n' -> l = l' -> k = k' ->
  effect n' l' k' c c'.
Proof. by intros ? -> -> ->. Qed.

Lemma calm_refl c : calm c c.
Proof. split; [apply conn_effect_refl|done]. Qed.

Lemma calm_trans c1 c2 c3 : calm c1 c2 -> calm c2 c3 -> calm c1 c3.
Proof. intros [e1 l1] [e2 l2]. split; [exact (conn_effect_trans _ _ _ _ _ _ _ _ _ e1 e2)|auto]. Qed.

Lemma calm_then n l k c1 c2 c3 : calm c1 c2 -> effect n l k c2 c3 -> effect n l k c1 c3.
Proof. intros [e1 _] e2. exact (conn_effect_trans _ _ _ _ _ _ _ _ _ e1 e2). Qed.

Lemma then_calm n l k c1 c2 c3 : effect n l k c1 c2 -> calm c2 c3 -> effect n l k c1 c3.
Proof.
  intros e1 [e2 _]. eapply effect_as; [exact (conn_effect_trans _ _ _ _ _ _ _ _ _ e1 e2)|lia| |lia].
  apply app_nil_r.
Qed.

Lemma clean_mono n l k c c' : effect n l k c c' -> clean c' -> clean c.
Proof. intros E Hc site Hs Hin. apply (Hc site Hs). by apply (ef_lines _ _ _ _ _ E). Qed.

(** *** The elementary steps *)

Lemma call_calm {A} (q : ask A) c : calm c (call q c).2.
Proof.
  unfold call. pose proof (answer_wle A q (n_world c)) as Hw. destruct (answer q (n_world c)) as [a w].
  split; [|done]. constructor; rewrite ?Z.add_0_r, ?app_nil_r; try done; by rewrite total_u64.
Qed.

Lemma set_ctx_calm ctx c : calm c (set_ctx ctx c).
Proof. split; [|done]. constructor; rewrite ?Z.add_0_r, ?app_nil_r; try done; by rewrite total_u64. Qed.

Lemma set_idx_calm i c : calm c (set_idx i c).
Proof. split; [|done]. constructor; rewrite ?Z.add_0_r, ?app_nil_r; try done; by rewrite total_u64. Qed.

Lemma set_backoff_calm b c : 0 <= b <= CF_REDIS_BACKOFF_MAX_NS -> calm c (set_backoff b c).
Proof.
  intros Hb. split; [|done].
  constructor; rewrite ?Z.add_0_r, ?app_nil_r; try done; by rewrite total_u64.
Qed.

(** A counter goes up, with the commands it says were accepted. *)
Lemma count_effect s n l ctx c : hits s [xadd_total] * n = zlen l ->
  effect (hits s fate_stats * n) l (hits s [events_lost_total] * n) c
    (add_stat s n (set_acked (n_acked c ++ l) (set_ctx ctx c))).
Proof.
  intros Hl. constructor; try done; conn_cbn; rewrite total_add; [done|by rewrite Hl|done].
Qed.

Lemma add_stat_effect s n c : hits s [xadd_total] = 0 ->
  effect (hits s fate_stats * n) [] (hits s [events_lost_total] * n) c (add_stat s n c).
Proof.
  intros Hs. constructor; try done; conn_cbn; rewrite ?total_add, ?app_nil_r; try done. by rewrite Hs.
Qed.

Lemma add_stat_calm s n c : hits s [xadd_total] = 0 -> hits s fate_stats = 0 ->
  hits s [events_lost_total] = 0 -> calm c (add_stat s n c).
Proof.
  intros Hx Hf Hl. split; [|done]. eapply effect_as; [by apply add_stat_effect|..]; rewrite ?Hf, ?Hl; done.
Qed.

Lemma log_effect site c : effect 0 [] 0 c (log_rate_limited_kv site c).
Proof.
  unfold log_rate_limited_kv. pose proof (call_calm AskMono c) as Hc.
  destruct (call AskMono c) as [now c1]. apply (calm_then _ _ _ _ _ _ Hc). destruct (_ && _); [apply conn_effect_refl|].
  constructor; cbn [set_log n_stats n_acked n_lines n_world]; rewrite ?Z.add_0_r, ?app_nil_r;
    try done; try by rewrite total_u64.
  - intros Hl x. conn_cbn. case_decide as E; intros Hx; apply elem_of_app.
    + right. subst x. by apply list_elem_of_singleton.
    + left. by apply Hl.
  - apply list_subseteq_app_l. done.
Qed.

Lemma log_ctx site c : n_ctx (log_rate_limited_kv site c) = n_ctx c.
Proof.
  unfold log_rate_limited_kv, call. destruct (answer _ _) as [now w]. cbn beta iota.
  by destruct (_ && _).
Qed.

(** What is logged is found in the lines, once the counters were started. *)
Lemma log_lines site c : logged c -> site ∈ n_lines (log_rate_limited_kv site c).
Proof.
  intros Hl. unfold log_rate_limited_kv, call. destruct (answer _ _) as [now w].
  cbn [n_last_log set_world]. destruct (_ && _) eqn:E.
  - apply Hl. lia.
  - cbn [set_log n_lines]. apply elem_of_app. right. by apply list_elem_of_singleton.
Qed.

Lemma log_calm site c : site ∉ lossy -> calm c (log_rate_limited_kv site c).
Proof.
  intros Hs. split; [apply log_effect|]. intros Hc x Hx.
  unfold log_rate_limited_kv, call. destruct (answer _ _) as [now w].
  cbn [n_last_log set_world]. destruct (_ && _); [by apply Hc|].
  cbn [set_log n_lines set_world]. rewrite elem_of_app, list_elem_of_singleton.
  intros [Hin|Hin]; [by apply (Hc x)|by subst x].
Qed.

(** A logged loss is not clean. *)
Lemma log_not_clean site c : site ∈ lossy -> logged c -> ~ clean (log_rate_limited_kv site c).
Proof. intros Hs Hl Hc. apply (Hc site Hs). by apply log_lines. Qed.

(** ** Connecting counts nothing *)

Definition quiet c c' : Prop := calm c c' /\ n_ctx c' = n_ctx c.

Lemma quiet_refl c : quiet c c.
Proof. split; [apply calm_refl|done]. Qed.

Lemma quiet_trans c1 c2 c3 : quiet c1 c2 -> quiet c2 c3 -> quiet c1 c3.
Proof. intros [H1 E1] [H2 E2]. split; [by eapply calm_trans|congruence]. Qed.

Lemma call_quiet {A} (q : ask A) c : quiet c (call q c).2.
Proof. split; [apply call_calm|]. unfold call. by destruct (answer q (n_world c)). Qed.

Lemma connect_log_quiet c : quiet c (log_rate_limited_kv L_connect_fail c).
Proof. split; [apply log_calm; notin|apply log_ctx]. Qed.

Lemma bail_out_quiet d b c : quiet c (bail_out d b c).2.
Proof.
  unfold bail_out. pose proof (call_quiet AskMono c) as H1. destruct (call AskMono c) as [now c1].
  destruct (d <=? now); [done|]. destruct b; [|done].
  eapply quiet_trans; [exact H1|apply call_quiet].
Qed.

Lemma sleep_quiet fuel : forall remaining d b c,
  safe (sleep_loop fuel remaining d b c) (quiet c).
Proof.
  induction fuel as [|fuel IH]; intros remaining d b c; cbn [sleep_loop]; [done|].
  destruct (0 <? remaining); [|apply quiet_refl].
  pose proof (bail_out_quiet d b c) as H1. destruct (bail_out d b c) as [stop c1].
  destruct stop; [done|].
  pose proof (call_quiet (AskSleepNs (if remaining <? CF_REDIS_BACKOFF_SLEEP_CHUNK_NS then remaining
    else CF_REDIS_BACKOFF_SLEEP_CHUNK_NS)) c1) as H2.
  destruct (call (AskSleepNs _) c1) as [u c2].
  eapply safe_mono; [apply IH|]. intros c' H3. exact (quiet_trans _ _ _ H1 (quiet_trans _ _ _ H2 H3)).
Qed.

(** Worlds where the connection works, as long as it is only used. *)
Variable sound : W -> Prop.
Hypothesis sound_steps : forall w, sound w ->
  (answer AskReply w).1 = Some None /\ sound (answer AskReply w).2 /\ sound (answer AskMono w).2 /\
  forall a, (answer (AskAppend a) w).1 = true /\ sound (answer (AskAppend a) w).2.

(** Every new connection works at first. *)
Definition fresh_sound : Prop := forall host port w,
  (answer (AskConnect host port) w).1 = true -> sound (answer (AskConnect host port) w).2.

(** A fresh connection has nothing to answer; without one the old stays. *)
Definition linked (ok : bool) c c' : Prop :=
  calm c c' /\ n_ctx c' = (if ok then Some [] else n_ctx c) /\
  (fresh_sound -> ok = true -> sound (n_world c')).

Lemma quiet_linked ok c1 c2 c3 : quiet c1 c2 -> linked ok c2 c3 -> linked ok c1 c3.
Proof.
  intros [H1 E1] (H2 & E2 & S2). split; [by eapply calm_trans|]. split; [|done]. rewrite E2. by destruct ok.
Qed.

Lemma quiet_unlinked c1 c2 : quiet c1 c2 -> linked false c1 c2.
Proof. by intros [H1 E1]. Qed.

Lemma try_connect_linked ep c :
  linked (try_connect_one ep c).1 c (try_connect_one ep c).2.
Proof.
  unfold try_connect_one. destruct (parse_endpoint ep) as [[h p]|]; [|apply quiet_unlinked, connect_log_quiet].
  pose proof (call_quiet (AskConnect h p) c) as H1. unfold call in *.
  destruct (answer (AskConnect h p) (n_world c)) as [ok w] eqn:E. cbn [fst snd] in *.
  destruct ok; [|by apply quiet_unlinked]. eapply quiet_linked; [exact H1|].
  split; [apply set_ctx_calm|]. split; [done|]. intros Hf _. specialize (Hf h p (n_world c)).
  rewrite E in Hf. by apply Hf.
Qed.

Lemma linked_calm ok c1 c2 c3 : linked ok c1 c2 -> calm c2 c3 -> n_ctx c3 = n_ctx c2 ->
  n_world c3 = n_world c2 -> linked ok c1 c3.
Proof.
  intros (H1 & E1 & S1) H2 E2 W2. split; [by eapply calm_trans|]. split; [congruence|]. by rewrite W2.
Qed.

Variable cfg : cf_redis_producer_config_t.
Hypothesis has_endpoint : endpoints cfg <> [].

Lemma try_endpoints_linked d b count tries : forall c,
  safe (try_endpoints cfg tries count d b c) (fun '(r, c') => linked (default false r) c c').
Proof.
  induction tries as [|tries IH]; intros c; cbn [try_endpoints].
  { apply quiet_unlinked, quiet_refl. }
  pose proof (bail_out_quiet d b c) as H1. destruct (bail_out d b c) as [stop c1].
  destruct stop; [by apply quiet_unlinked|].
  assert (0 < zlen (endpoints cfg)) as Hlen by (destruct (endpoints cfg); [done|simpl; lia]).
  pose proof (Z.mod_pos_bound (n_endpoint_idx c1) _ Hlen) as Hm.
  destruct (endpoints cfg !! _) as [ep|] eqn:E; [|apply lookup_ge_None in E; lia].
  assert (quiet c (set_idx (u64 (n_endpoint_idx c1 + 1)) c1)) as H2.
  { eapply quiet_trans; [exact H1|]. split; [apply set_idx_calm|done]. }
  pose proof (try_connect_linked ep (set_idx (u64 (n_endpoint_idx c1 + 1)) c1)) as H3.
  destruct (try_connect_one ep _) as [ok c2]. cbn [fst snd] in H3.
  pose proof (quiet_linked _ _ _ _ H2 H3) as H4. destruct ok.
  - cbn [safe from_option default id]. eapply linked_calm; [exact H4| |by destruct count|by destruct count].
    eapply calm_trans; [|apply set_backoff_calm; done]. destruct count; [|apply calm_refl].
    by apply add_stat_calm.
  - eapply safe_mono; [apply IH|]. intros [r c'] H5. apply quiet_linked with c2; [|exact H5].
    by destruct H4 as (H4 & E4 & _).
Qed.

Definition doubled (b : Z) : Z :=
  if CF_REDIS_BACKOFF_MAX_NS <? b * 2 then CF_REDIS_BACKOFF_MAX_NS else b * 2.

Lemma connect_linked fuel : forall d b count c, backoff_ok c ->
  safe (connect_with_backoff cfg fuel count d b c) (fun '(ok, c') => linked ok c c').
Proof.
  induction fuel as [|fuel IH]; intros d b count c Hb; cbn [connect_with_backoff]; [done|].
  apply safe_bind. eapply safe_mono; [apply try_endpoints_linked|]. intros [r c1] H1.
  destruct r as [ok|]; [done|]. destruct H1 as (H1 & E1 & _). change (n_ctx c1 = n_ctx c) in E1.
  assert (quiet c c1) as H1' by done. clear H1 E1. rename H1' into H1.
  pose proof (bail_out_quiet d b c1) as H2. destruct (bail_out d b c1) as [stop c2].
  pose proof (quiet_trans _ _ _ H1 H2) as H3. destruct stop; [by apply quiet_unlinked|].
  apply safe_bind. eapply safe_mono; [apply sleep_quiet|]. intros c3 H4.
  pose proof (quiet_trans _ _ _ H3 (quiet_trans _ _ _ (connect_log_quiet c2) H4)) as H5.
  assert (backoff_ok c3) as Hb3 by (by apply (ef_backoff _ _ _ _ _ (proj1 (proj1 H5)))).
  assert (0 <= doubled (n_backoff_ns c3) <= CF_REDIS_BACKOFF_MAX_NS) as Hd.
  { unfold backoff_ok in Hb3. unfold doubled, CF_REDIS_BACKOFF_MAX_NS in *. destruct (_ <? _) eqn:?; lia. }
  fold (doubled (n_backoff_ns c3)).
  eapply safe_mono; [by apply IH|]. intros [ok c'] H6. eapply quiet_linked; [|exact H6].
  eapply quiet_trans; [exact H5|]. split; [by apply set_backoff_calm|done].
Qed.

(** ** The pipeline *)

Definition fits (item : cf_event_item_t) : Prop :=
  0 <= it_payload_len item <= zlen (it_payload item).

Lemma append_spec item pending c : fits item -> n_ctx c = Some pending ->
  safe (append_xadd cfg item c) (fun '(ok, c') => calm c c' /\
    n_ctx c' = Some (pending ++ if ok then commands cfg [item] else []) /\
    (ok = true -> commands cfg [item] <> []) /\
    (sound (n_world c) -> sound (n_world c') /\ (commands cfg [item] <> [] -> ok = true))).
Proof.
  intros Hf Hctx. unfold append_xadd, commands, item_command. rewrite Hctx. cbn [omap list_omap].
  destruct (cf_stream_name (it_stream_id item)) as [stream|]; cbn [fmap option_fmap option_map].
  2: { cbn [safe]. rewrite app_nil_r. split_and!; try done. apply calm_refl. }
  rewrite rd_n_ok by (unfold fits in Hf; lia). xbind.
  set (a := xadd_argv cfg stream item _).
  pose proof (call_calm (AskAppend a) c) as H1. unfold call in *.
  pose proof (sound_steps (n_world c)) as Hs.
  destruct (answer (AskAppend a) (n_world c)) as [ok w] eqn:E. cbn [snd safe] in *.
  split; [|split; [|split; [done|]]].
  - destruct ok; [|done]. eapply calm_trans; [exact H1|apply set_ctx_calm].
  - destruct ok; conn_cbn; [done|]. by rewrite app_nil_r.
  - intros Hw. destruct (Hs Hw) as (_ & _ & _ & Ha). specialize (Ha a). rewrite E in Ha.
    cbn [fst snd] in Ha. destruct Ha as [-> Ha]. by split.
Qed.

(** A reply counts its command: accepted, or refused and logged. *)
Lemma count_reply_spec error latency cmd pending c : n_ctx c = Some (cmd :: pending) -> logged c ->
  let c' := count_reply error latency c in
  n_ctx c' = Some pending /\ (error = None -> n_world c' = n_world c /\ n_lines c' = n_lines c) /\
  exists l, effect 1 l 0 c c' /\ l `sublist_of` [cmd] /\ (clean c' -> l = [cmd]).
Proof.
  intros Hctx Hlog. unfold count_reply, answered. cbn [add_stat set_stats n_ctx]. rewrite Hctx.
  assert (calm c (add_stat xadd_latency_ns_total latency c)) as H1 by (by apply add_stat_calm).
  destruct error as [e|].
  - rewrite log_ctx. split_and!; [done|done|]. exists [].
    assert (effect 1 [] 0 c (add_stat xadd_errors_total 1 (set_acked
      (n_acked (add_stat xadd_latency_ns_total latency c) ++ []) (set_ctx (Some pending)
        (add_stat xadd_latency_ns_total latency c))))) as H2.
    { eapply calm_then; [exact H1|]. by apply (count_effect xadd_errors_total 1 []). }
    split_and!.
    + exact (conn_effect_trans _ _ _ _ _ _ _ _ _ H2 (log_effect _ _)).
    + apply sublist_nil_l.
    + intros Hc. exfalso. revert Hc. apply log_not_clean; [notin|]. by apply (ef_logged _ _ _ _ _ H2).
  - split_and!; [done|done|]. exists [cmd].
    split_and!; [|done|done]. eapply calm_then; [exact H1|]. by apply (count_effect xadd_total 1 [cmd]).
Qed.

(** What [count] replies do: the first [i] commands were answered. *)
Lemma read_replies_spec count : forall pending t c, n_ctx c = Some pending -> length pending = count ->
  logged c ->
  let '(i, err, c') := read_replies count t c in
  (i <= count)%nat /\ (err = false -> i = count) /\ n_ctx c' = Some (drop i pending) /\
  (sound (n_world c) -> err = false /\ (clean c -> clean c')) /\
  exists l, effect (Z.of_nat i) l 0 c c' /\ l `sublist_of` take i pending /\
    (clean c' -> l = take i pending).
Proof.
  induction count as [|count IH]; intros pending t c Hctx Hlen Hlog; cbn [read_replies].
  { split_and!; try done. exists []. split_and!; [apply conn_effect_refl|apply sublist_nil_l|done]. }
  destruct pending as [|cmd pending]; [done|]. injection Hlen as Hlen.
  pose proof (call_quiet AskReply c) as H1. pose proof (sound_steps (n_world c)) as Hs. unfold call in *.
  destruct (answer AskReply (n_world c)) as [reply w1]. cbn [snd fst] in *.
  destruct reply as [error|].
  2: { split_and!; [lia|done|by rewrite (proj2 H1)| |].
    - intros Hw. by destruct (Hs Hw).
    - exists []. split_and!; [apply H1|done|done]. }
  pose proof (call_quiet AskMono (set_world w1 c)) as H2. unfold call in H2. cbn [n_world set_world] in *.
  pose proof (sound_steps w1) as Hs1. destruct (answer AskMono w1) as [now w2]. cbn [snd fst] in *.
  set (c2 := set_world w2 (set_world w1 c)) in *.
  pose proof (quiet_trans _ _ _ H1 H2) as [H3 E3].
  destruct (count_reply_spec error (now - t) cmd pending c2) as (Hc & Hnone & l & El & Hl & Hcl).
  { by rewrite E3. } { by apply (ef_logged _ _ _ _ _ (proj1 H3)). }
  set (c3 := count_reply error (now - t) c2) in *.
  specialize (IH pending now c3 Hc Hlen (ef_logged _ _ _ _ _ El (ef_logged _ _ _ _ _ (proj1 H3) Hlog))).
  destruct (read_replies count now c3) as [[i err] c'].
  destruct IH as (Hi & Hok & Hctx' & Hsd & l' & El' & Hl' & Hcl').
  split_and!; [lia|intros E; by rewrite Hok|done| |].
  - intros Hw. destruct (Hs Hw) as (Hr & Hw1 & _). injection Hr as ->. destruct (Hs1 Hw1) as (_ & _ & Hw2 & _).
    destruct (Hnone eq_refl) as [Ew Elines].
    assert (sound (n_world c3)) as Hw3 by (by rewrite Ew). destruct (Hsd Hw3) as [He Hcc]. split; [done|].
    intros Hclean. apply Hcc. intros site Hsite. rewrite Elines. by apply (proj2 H3).
  - exists (l ++ l'). split_and!.
    + eapply effect_as; [eapply calm_then; [exact H3|exact (conn_effect_trans _ _ _ _ _ _ _ _ _ El El')]|lia|done|done].
    + rewrite firstn_cons. apply (sublist_app l [cmd]); done.
    + intros Hclean. rewrite firstn_cons, Hcl, Hcl'; [done|done|]. by apply (clean_mono _ _ _ _ _ El').
Qed.

Lemma flush_spec pending c : n_ctx c = Some pending -> logged c ->
  let '(i, err, c') := flush_pipeline (length pending) c in
  (i <= length pending)%nat /\ (err = false -> i = length pending) /\ n_ctx c' = Some (drop i pending) /\
  (sound (n_world c) -> err = false /\ (clean c -> clean c')) /\
  exists l, effect (Z.of_nat i) l 0 c c' /\ l `sublist_of` take i pending /\
    (clean c' -> l = take i pending).
Proof.
  intros Hctx Hlog. unfold flush_pipeline. pose proof (call_quiet AskMono c) as [H1 E1].
  pose proof (sound_steps (n_world c)) as Hs. unfold call in *.
  destruct (answer AskMono (n_world c)) as [t w1]. cbn [snd fst] in *.
  pose proof (read_replies_spec (length pending) pending t (set_world w1 c)) as H2.
  destruct (read_replies _ t _) as [[i err] c'].
  destruct H2 as (Hi & Hok & Hctx' & Hsd & l & El & Hl & Hcl);
    [by rewrite E1|done|by apply (ef_logged _ _ _ _ _ (proj1 H1))|].
  split_and!; [done|done|done| |].
  - intros Hw. destruct (Hs Hw) as (_ & _ & Hw1 & _). destruct (Hsd Hw1) as [He Hcc]. split; [done|].
    intros Hclean. apply Hcc. by apply (proj2 H1).
  - exists l. split_and!; [by eapply calm_then|done|done].
Qed.

(** *** The retry *)

Definition named (item : cf_event_item_t) : Prop := commands cfg [item] <> [].
Definition sendable (item : cf_event_item_t) : Prop := fits item /\ named item.

Lemma commands_app l1 l2 : commands cfg (l1 ++ l2) = commands cfg l1 ++ commands cfg l2.
Proof. apply omap_app. Qed.

Lemma commands_length l : Forall sendable l -> length (commands cfg l) = length l.
Proof.
  induction 1 as [|item l [_ Hn] _ IH]; [done|]. unfold named, commands in *. cbn [omap list_omap] in *.
  destruct (item_command cfg item); [|done]. cbn [length]. by rewrite IH.
Qed.

Lemma commands_drop n l : Forall sendable l -> commands cfg (drop n l) = drop n (commands cfg l).
Proof.
  intros Hl. rewrite <- (firstn_skipn n l) at 2. rewrite commands_app.
  pose proof (commands_length (take n l) (Forall_take _ _ _ Hl)) as H1. rewrite length_firstn in H1.
  destruct (decide (n <= length l)%nat) as [Hn|Hn].
  - rewrite drop_app_ge by lia. by replace (n - _)%nat with 0%nat by lia.
  - rewrite (skipn_all2 l) by lia. rewrite skipn_all2; [done|]. rewrite length_app. simpl. lia.
Qed.

Lemma append_all_spec items : forall pending c, Forall sendable items -> n_ctx c = Some pending ->
  safe (append_all cfg items c) (fun '(n, c') => calm c c' /\ (n <= length items)%nat /\
    n_ctx c' = Some (pending ++ commands cfg (take n items)) /\
    (sound (n_world c) -> sound (n_world c') /\ n = length items)).
Proof.
  induction items as [|item items IH]; intros pending c Hall Hctx; cbn [append_all].
  { split_and!; [apply calm_refl|done|by rewrite app_nil_r|done]. }
  apply Forall_cons_iff in Hall as [[Hf Hn] Hall].
  apply safe_bind. eapply safe_mono; [by apply append_spec|]. intros [ok c1] (H1 & E1 & _ & S1).
  destruct ok.
  - apply safe_bind. eapply safe_mono; [by apply IH|]. intros [n c2] (H2 & Hle & E2 & S2). cbn [safe].
    split_and!; [by eapply calm_trans|simpl; lia| |].
    + rewrite E2, firstn_cons, <- app_assoc. by rewrite <- (commands_app [item]).
    + intros Hw. destruct (S1 Hw) as [Hw1 _]. destruct (S2 Hw1) as [Hw2 ->]. done.
  - cbn [safe]. split_and!; [done|lia|by rewrite E1|]. intros Hw. destruct (S1 Hw) as [_ Hno]. by specialize (Hno Hn).
Qed.

Lemma lose_effect n c : logged c -> effect (Z.of_nat n) [] (Z.of_nat n) c (count_lost n c) /\
  n_ctx (count_lost n c) = n_ctx c /\ ~ clean (count_lost n c).
Proof.
  intros Hlog. unfold count_lost.
  assert (effect (Z.of_nat n) [] (Z.of_nat n) c (add_stat events_lost_total (Z.of_nat n) c)) as H1.
  { eapply effect_as; [by apply add_stat_effect|..]; count_hits; lia || done. }
  split_and!.
  - eapply effect_as; [exact (conn_effect_trans _ _ _ _ _ _ _ _ _ H1 (log_effect _ _))|lia|done|lia].
  - by rewrite log_ctx.
  - apply log_not_clean; [notin|]. by apply (ef_logged _ _ _ _ _ H1).
Qed.

(** [batch items c c']: the commands of [items] had their fates, in order. *)
Definition batch (items : list cf_event_item_t) (lost : Z) c c' : Prop :=
  exists l, effect (zlen items) l lost c c' /\ l `sublist_of` commands cfg items /\
    (clean c' -> l = commands cfg items /\ lost = 0).

Lemma retry_spec items c : Forall sendable items -> n_ctx c = Some [] -> logged c ->
  safe (retry_unacked cfg items c) (fun c' => exists lost, batch items lost c c' /\
    (n_ctx c' = None \/ n_ctx c' = Some []) /\
    (sound (n_world c) -> lost = 0 /\ n_ctx c' = Some [] /\ (clean c -> clean c'))).
Proof.
  intros Hall Hctx Hlog. unfold retry_unacked. apply safe_bind.
  eapply safe_mono; [by apply append_all_spec|]. intros [n c1] (H1 & Hle & E1 & S1). simpl in E1.
  set (cmds := commands cfg (take n items)) in *.
  assert (length cmds = n) as Hcl.
  { unfold cmds. rewrite commands_length by (by apply Forall_take). rewrite length_firstn. lia. }
  assert (cmds `sublist_of` commands cfg items) as Hsub.
  { rewrite <- (firstn_skipn n items), commands_app. by apply sublist_inserts_r. }
  pose proof (ef_logged _ _ _ _ _ (proj1 H1) Hlog) as Hlog1.
  assert (let '(i, err, c2) := if (0 <? n)%nat then flush_pipeline n c1 else (0%nat, false, c1) in
    (i <= n)%nat /\ (err = false -> i = n) /\ n_ctx c2 = Some (drop i cmds) /\
    (sound (n_world c1) -> err = false /\ (clean c1 -> clean c2)) /\
    exists l, effect (Z.of_nat i) l 0 c1 c2 /\ l `sublist_of` take i cmds /\
      (clean c2 -> l = take i cmds)) as Hfl.
  { destruct (0 <? n)%nat eqn:En.
    - pose proof (flush_spec cmds c1 E1 Hlog1) as Hf. by rewrite Hcl in Hf.
    - split_and!; [lia|intros _; lia|by rewrite E1|done|]. exists [].
      split_and!; [apply conn_effect_refl|apply sublist_nil_l|done]. }
  destruct (if (0 <? n)%nat then _ else _) as [[i err] c2].
  destruct Hfl as (Hi & Hok & E2 & S2 & l & El & Hl & Hclean).
  set (lost := (length items - i)%nat).
  assert (exists c3, (if err then ((length items - n + (n - i))%nat, set_ctx None c2)
      else ((length items - n)%nat, c2)) = (lost, c3) /\ calm c2 c3 /\
      (n_ctx c3 = None \/ n_ctx c3 = Some []) /\ (err = false -> n_ctx c3 = Some [] /\ i = n)) as Hc3.
  { destruct err.
    - exists (set_ctx None c2). split_and!; [f_equal; unfold lost; lia|apply set_ctx_calm|by left|done].
    - pose proof (Hok eq_refl). exists c2. rewrite E2, skipn_all2 by lia.
      split_and!; [f_equal; unfold lost; lia|apply calm_refl|by right|done]. }
  destruct Hc3 as (c3 & -> & H3 & Hctx3 & Hno). cbn [safe].
  assert (effect (Z.of_nat i) l 0 c c3) as El3 by (by eapply then_calm; [eapply calm_then|]).
  assert (take i cmds `sublist_of` commands cfg items) as Hsub'.
  { etransitivity; [apply sublist_take|exact Hsub]. }
  exists (Z.of_nat lost). destruct (0 <? lost)%nat eqn:El0.
  - destruct (lose_effect lost c3 (ef_logged _ _ _ _ _ El3 Hlog)) as (Hlose & -> & Hdirty).
    split_and!; [|done|].
    + exists l. split_and!; [|by etransitivity|done].
      eapply effect_as; [exact (conn_effect_trans _ _ _ _ _ _ _ _ _ El3 Hlose)|lia| |lia].
      by rewrite app_nil_r.
    + intros Hw. destruct (S1 Hw) as [Hw1 ->]. destruct (S2 Hw1) as [-> _].
      destruct (Hno eq_refl) as [_ ->]. lia.
  - assert (lost = 0%nat) as E0 by lia. assert (i = length items) as Ei by (unfold lost in E0; lia).
    rewrite E0. split_and!; [|done|].
    + exists l. split_and!; [by eapply effect_as; [exact El3|lia|done|done]|by etransitivity|].
      intros Hc. rewrite Hclean by (by apply (clean_mono _ _ _ _ _ (proj1 H3))).
      rewrite firstn_all2 by lia. unfold cmds.
      by rewrite (firstn_all2 items) by lia.
    + intros Hw. destruct (S1 Hw) as [Hw1 _]. destruct (S2 Hw1) as [-> Hcc].
      destruct (Hno eq_refl) as [? _]. split_and!; [done|done|]. intros Hc.
      apply (proj2 H3), Hcc, (proj2 H1), Hc.
Qed.

(** Some commands were answered, and the rest had their fates. *)
Lemma batch_rest i l items lost c1 c2 c3 : Forall sendable items -> (i <= length items)%nat ->
  effect (Z.of_nat i) l 0 c1 c2 -> l `sublist_of` take i (commands cfg items) ->
  (clean c2 -> l = take i (commands cfg items)) ->
  batch (drop i items) lost c2 c3 -> batch items lost c1 c3.
Proof.
  intros Hall Hi El Hl Hcl (l' & El' & Hl' & Hcl'). rewrite commands_drop in * by done.
  exists (l ++ l'). split_and!.
  - eapply effect_as; [exact (conn_effect_trans _ _ _ _ _ _ _ _ _ El El')| |done|lia].
    rewrite length_skipn. lia.
  - rewrite <- (firstn_skipn i (commands cfg items)). by apply sublist_app.
  - intros Hc. destruct (Hcl' Hc) as [-> ->]. rewrite Hcl by (by apply (clean_mono _ _ _ _ _ El')).
    by rewrite firstn_skipn.
Qed.

Lemma calm_batch items lost c1 c2 c3 : calm c1 c2 -> batch items lost c2 c3 -> batch items lost c1 c3.
Proof. intros H1 (l & El & Hl & Hc). exists l. split; [by eapply calm_then|done]. Qed.

Lemma lost_batch items c : logged c ->
  batch items (zlen items) c (count_lost (length items) c).
Proof.
  intros Hlog. destruct (lose_effect (length items) c Hlog) as (He & _ & Hn). exists [].
  split_and!; [done|apply sublist_nil_l|done].
Qed.

Lemma do_flush_spec fuel items stopping d c : Forall sendable items ->
  n_ctx c = Some (commands cfg items) -> logged c -> backoff_ok c ->
  safe (do_flush cfg fuel items stopping d c) (fun c' => exists lost, batch items lost c c' /\
    (n_ctx c' = None \/ n_ctx c' = Some []) /\
    (sound (n_world c) -> clean c -> clean c') /\
    (fresh_sound -> n_ctx c' <> None -> lost = 0)).
Proof.
  intros Hall Hctx Hlog Hb. unfold do_flush. rewrite <- (commands_length items Hall).
  pose proof (flush_spec _ c Hctx Hlog) as Hf.
  destruct (flush_pipeline (length (commands cfg items)) c) as [[i err] c1].
  destruct Hf as (Hi & Hok & E1 & S1 & l & El & Hl & Hcl). rewrite commands_length in Hi, Hok by done.
  destruct err; cbn [negb].
  2: { rewrite (Hok eq_refl) in *. rewrite <- (commands_length items Hall) in *. rewrite firstn_all in *.
       rewrite skipn_all in E1. exists 0.
       split_and!; [|by right|intros Hw; by apply S1|done]. exists l.
       split_and!; [by rewrite <- (commands_length items Hall)|done|intros Hc; split; [by apply Hcl|done]]. }
  assert (forall Q, sound (n_world c) -> Q) as Hns by (intros Q Hw; by destruct (S1 Hw)).
  pose proof (set_ctx_calm None c1) as H1. set (c2 := set_ctx None c1) in *.
  assert (effect (Z.of_nat i) l 0 c c2) as El2 by (by eapply then_calm).
  assert (clean c2 -> l = take i (commands cfg items)) as Hcl2 by exact Hcl.
  destruct (length (drop i items) =? 0)%nat eqn:Ez.
  { exists 0. split_and!; [|by left|intros Hw; by apply Hns|done].
    eapply batch_rest; [done|done|exact El2|done|done|].
    exists []. destruct (drop i items); [|done]. split_and!; [apply conn_effect_refl|done|done]. }
  pose proof (ef_logged _ _ _ _ _ El2 Hlog) as Hlog2.
  apply safe_bind. eapply safe_mono.
  { apply connect_linked. by apply (ef_backoff _ _ _ _ _ El2). }
  intros [ok c3] (H3 & E3 & S3). pose proof (ef_logged _ _ _ _ _ (proj1 H3) Hlog2) as Hlog3. destruct ok.
  - eapply safe_mono; [apply retry_spec; [by apply Forall_drop|done|done]|].
    intros c4 (lost & Hbt & Hctx4 & S4). exists lost.
    split_and!; [|done|intros Hw; by apply Hns|intros Hfr _; by destruct (S4 (S3 Hfr eq_refl))].
    eapply batch_rest; [done|done|exact El2|done|done|]. by eapply calm_batch.
  - cbn [safe]. exists (zlen (drop i items)).
    destruct (lose_effect (length (drop i items)) c3 Hlog3) as (_ & -> & _). rewrite E3.
    split_and!; [|by left|intros Hw; by apply Hns|done].
    eapply batch_rest; [done|done|exact El2|done|done|]. eapply calm_batch; [exact H3|]. by apply lost_batch.
Qed.

(** ** The fates of the items taken *)

Definition healthy : Prop := forall w, sound w.

(** [n] items more than at [c0] have their fate counted; [inflight] items have
    their commands on the connection.  When [synced] and as long as no loss was
    logged, every named item taken was accepted or is in flight. *)
Record fated (c0 : conn W) (n : Z) (synced : Prop) c (inflight popped : list cf_event_item_t) : Prop := {
  ft_sendable : Forall sendable inflight;
  ft_order : n_acked c ++ commands cfg inflight `sublist_of` commands cfg popped;
  ft_healthy : healthy -> clean c0 -> clean c;
  ft_effect : exists lost, effect n (n_acked c) lost c0 c /\ (synced -> clean c ->
    n_acked c ++ commands cfg inflight = commands cfg popped /\ lost = zlen popped - zlen (commands cfg popped))
}.

Lemma fated_calm c0 n synced c c' inflight popped : calm c c' ->
  fated c0 n synced c inflight popped -> fated c0 n synced c' inflight popped.
Proof.
  intros H1 [Hs Ho Hh (lost & He & Hc)].
  assert (n_acked c' = n_acked c) as Ea by (rewrite (ef_acked _ _ _ _ _ (proj1 H1)); apply app_nil_r).
  constructor; rewrite ?Ea; [done|done|intros; apply (proj2 H1); auto|].
  exists lost. split; [by eapply then_calm|]. intros Hp Hcl. apply Hc; [done|].
  by apply (clean_mono _ _ _ _ _ (proj1 H1)).
Qed.

Lemma fated_weaken c0 n n' (P Q : Prop) c inflight popped : n = n' /\ (Q -> P) ->
  fated c0 n P c inflight popped -> fated c0 n' Q c inflight popped.
Proof.
  intros [<- HQ] [Hs Ho Hh (lost & He & Hc)]. constructor; [done..|]. exists lost. split; [done|]. auto.
Qed.

Lemma fated_popped c0 n synced c inflight popped l :
  fated c0 n synced c inflight popped -> fated c0 n False c inflight (popped ++ l).
Proof.
  intros [Hs Ho Hh (lost & He & _)]. constructor; [done| |done|].
  - rewrite commands_app. by apply sublist_inserts_r.
  - by exists lost.
Qed.

(** An item popped and put in flight. *)
Lemma fated_sent c0 n c c' inflight popped item : calm c c' -> sendable item ->
  fated c0 n True c inflight popped -> fated c0 n True c' (inflight ++ [item]) (popped ++ [item]).
Proof.
  intros H1 Hi Hf. destruct (fated_calm _ _ _ _ _ _ _ H1 Hf) as [Hs Ho Hh (lost & He & Hc)].
  constructor; [apply Forall_app; by split; [|constructor]| |done|].
  - rewrite !commands_app, app_assoc. by apply sublist_app.
  - exists lost. split; [done|]. intros _ Hcl. destruct (Hc I Hcl) as [E1 E2].
    split; [by rewrite !commands_app, app_assoc, E1|]. rewrite commands_app, !length_app.
    rewrite (commands_length [item]) by (by constructor). simpl. lia.
Qed.

(** An item popped and counted lost: it has no stream, or that is logged. *)
Lemma fated_lost c0 n c c' inflight popped item : effect 1 [] 1 c c' ->
  (commands cfg [item] <> [] -> ~ clean c') -> (healthy -> clean c -> clean c') ->
  fated c0 n True c inflight popped -> fated c0 (n + 1) True c' inflight (popped ++ [item]).
Proof.
  intros H1 Hi Hcc [Hs Ho Hh (lost & He & Hc)].
  assert (n_acked c' = n_acked c) as Ea by (rewrite (ef_acked _ _ _ _ _ H1); apply app_nil_r).
  constructor; rewrite ?Ea; [done| |auto|].
  - rewrite commands_app. by apply sublist_inserts_r.
  - exists (lost + 1). split.
    { eapply effect_as; [exact (conn_effect_trans _ _ _ _ _ _ _ _ _ He H1)|done|apply app_nil_r|done]. }
    intros _ Hcl. destruct (Hc I (clean_mono _ _ _ _ _ H1 Hcl)) as [E1 E2].
    rewrite commands_app. destruct (commands cfg [item]); [|by destruct Hi].
    rewrite app_nil_r, length_app. simpl. split; [done|lia].
Qed.

Lemma fated_flushed c0 n c c' inflight popped lost : batch inflight lost c c' ->
  (healthy -> clean c -> clean c') -> fated c0 n True c inflight popped ->
  fated c0 (n + zlen inflight) True c' [] popped.
Proof.
  intros (l & El & Hl & Hcl) Hcc [Hs Ho Hh (k & He & Hc)].
  constructor; rewrite ?(ef_acked _ _ _ _ _ El), ?app_nil_r; [done| |auto|].
  - etransitivity; [|exact Ho]. by apply sublist_app.
  - exists (k + lost). split; [exact (conn_effect_trans _ _ _ _ _ _ _ _ _ He El)|].
    intros _ Hcn. destruct (Hc I (clean_mono _ _ _ _ _ El Hcn)) as [E1 E2].
    destruct (Hcl Hcn) as [-> ->]. split; [done|lia].
Qed.

(** ** The queue *)

Definition event_image (b : list Z) : Prop := zlen b = SIZEOF_EVENT_ITEM /\ fits (item_of_image b).

Context {R : Type} {HB : BoundedFifo R} {HG : GaugedFifo R}.
Implicit Types s : producer W R.

Definition events_ok (q : R) : Prop := holds_images SIZEOF_EVENT_ITEM event_image q.

(** What the source pushes are items. *)
Hypothesis pushes_ok : forall w, Forall event_image (answer AskPushed w).1.

Definition queued (q : R) : list cf_event_item_t := map item_of_image (fifo_items q).

(** The items of [q0] are taken first. *)
Record queue_ok (q0 : R) s : Prop := {
  qk_events : events_ok (p_in s);
  qk_bound : fifo_bound (p_in s) = fifo_bound q0;
  qk_first : queued q0 `prefix_of` p_popped s ++ queued (p_in s)
}.

(** A queue operation: [k] was pushed, nothing but the queue and the world
    changed. *)
Record pushed_to (k : list (list Z)) s s' : Prop := {
  pu_calm : quiet (p_conn s) (p_conn s');
  pu_inflight : p_inflight s' = p_inflight s;
  pu_batch : p_batch_start s' = p_batch_start s;
  pu_shutdown : p_shutdown s' = p_shutdown s;
  pu_world : n_world (p_conn s') = (answer AskPushed (n_world (p_conn s))).2;
  pu_k : zlen k <= zlen (answer AskPushed (n_world (p_conn s))).1
}.

Lemma arrivals_runs q0 s : queue_ok q0 s -> runs (arrivals s) (fun s' => queue_ok q0 s' /\
  exists k, pushed_to k s s' /\ fifo_items (p_in s') = fifo_items (p_in s) ++ k /\ p_popped s' = p_popped s).
Proof.
  intros [He Hb Hf]. unfold arrivals, pcall. pose proof (call_quiet AskPushed (p_conn s)) as Hq.
  pose proof (pushes_ok (n_world (p_conn s))) as Hp. unfold call in *.
  destruct (answer AskPushed (n_world (p_conn s))) as [frames w] eqn:E. cbn [fst snd] in *.
  apply runs_bind. eapply runs_mono.
  { apply (arrive_images SIZEOF_EVENT_ITEM event_image); [by intros b []|exact He|exact Hp]. }
  intros [q n] (Hin & Hbd & k & Hk & _ & Hle). cbn [runs]. split.
  - split; cbn [set_in set_conn p_in p_popped]; [done|by rewrite Hbd|].
    unfold queued. rewrite Hk, map_app, app_assoc. by apply prefix_app_r.
  - exists k. split; [|done]. by split; cbn [set_in set_conn p_conn p_inflight p_batch_start p_shutdown];
      rewrite ?E.
Qed.

Lemma queue_length_runs q0 s : queue_ok q0 s -> runs (queue_length s) (fun '(n, s') => queue_ok q0 s' /\
  n = zlen (fifo_items (p_in s')) /\ exists k, pushed_to k s s' /\ p_popped s' = p_popped s).
Proof.
  intros Hq. apply runs_bind. eapply runs_mono; [by apply arrivals_runs|].
  intros s' (Hq' & k & Hk & _ & Hp). cbn [runs]. split_and!; [done| |by exists k].
  apply fifo_length_spec. apply (qk_events _ _ Hq').
Qed.

Lemma queue_pop_runs q0 s : queue_ok q0 s -> runs (queue_pop s) (fun '(item, s') => queue_ok q0 s' /\
  exists k, pushed_to k s s' /\
  match item with
  | Some i => fits i /\ p_popped s' = p_popped s ++ [i] /\
      zlen (fifo_items (p_in s')) + 1 = zlen (fifo_items (p_in s)) + zlen k
  | None => p_popped s' = p_popped s /\ fifo_items (p_in s') = [] /\ fifo_items (p_in s) = []
  end).
Proof.
  intros Hq. unfold queue_pop. apply runs_bind. eapply runs_mono; [by apply arrivals_runs|].
  intros s1 ([He Hb Hf] & k & [Hc Hi Hbs Hs Hw Hle] & Hk & Hp).
  apply runs_bind. eapply runs_mono; [by apply pop_images|]. intros [[rc q] b] (Hin & Hbd & Hx).
  assert (forall l, queued q0 `prefix_of` l ++ queued q ->
    queue_ok q0 (set_popped l (set_in q s1))) as Hok.
  { intros l Hl. split; cbn [set_popped set_in p_in p_popped]; [done|congruence|done]. }
  unfold queued in *. destruct (fifo_items (p_in s1)) as [|x l] eqn:E.
  - destruct Hx as [-> Hx]. cbn [Z.eqb runs]. split.
    + apply (Hok (p_popped s1)). rewrite Hx. done.
    + exists k. split_and!; [by split|done|done|]. by destruct (app_eq_nil _ _ (eq_sym Hk)).
  - destruct Hx as (-> & -> & [_ Hfit] & Hx). cbn [Z.eqb runs]. split.
    + apply Hok. rewrite <- app_assoc. rewrite Hx. exact Hf.
    + exists k. split_and!; [by split|done| |].
      * cbn [set_popped p_popped set_in]. by rewrite Hp.
      * cbn [set_popped set_in p_in]. apply (f_equal length) in Hk. rewrite Hx, length_app in *. simpl in *. lia.
Qed.

(** ** One turn *)

Variables (c0 : conn W) (q0 : R).
Hypothesis logged0 : logged c0.
Hypothesis backoff0 : backoff_ok c0.

(** Between two steps: what is in flight is on the connection. *)
Record turn_ok s : Prop := {
  tk_queue : queue_ok q0 s;
  tk_fated : fated c0 (zlen (p_popped s) - zlen (p_inflight s)) True (p_conn s) (p_inflight s) (p_popped s);
  tk_ctx : n_ctx (p_conn s) = Some (commands cfg (p_inflight s)) \/
           n_ctx (p_conn s) = None /\ p_inflight s = []
}.

Definition moved s s' : Prop :=
  wle (n_world (p_conn s)) (n_world (p_conn s')) /\ p_shutdown s' = p_shutdown s.

Lemma moved_refl s : moved s s.
Proof. done. Qed.
Lemma moved_trans s1 s2 s3 : moved s1 s2 -> moved s2 s3 -> moved s1 s3.
Proof. intros [H1 E1] [H2 E2]. split; [by etransitivity|congruence]. Qed.

Lemma turn_logged s : turn_ok s -> logged (p_conn s).
Proof. intros Hs. destruct (ft_effect _ _ _ _ _ _ (tk_fated s Hs)) as (k & He & _). by apply (ef_logged _ _ _ _ _ He). Qed.
Lemma turn_backoff s : turn_ok s -> backoff_ok (p_conn s).
Proof. intros Hs. destruct (ft_effect _ _ _ _ _ _ (tk_fated s Hs)) as (k & He & _). by apply (ef_backoff _ _ _ _ _ He). Qed.

(** A step that counts nothing keeps the invariant. *)
Lemma turn_same s s' : turn_ok s -> quiet (p_conn s) (p_conn s') -> queue_ok q0 s' ->
  p_inflight s' = p_inflight s -> p_popped s' = p_popped s -> turn_ok s'.
Proof.
  intros [Hq Hf Hc] [H1 E1] Hq' Ei Ep. constructor; [done| |].
  - rewrite Ei, Ep. by eapply fated_calm.
  - by rewrite E1, Ei.
Qed.

Lemma pcall_turn {A} (q : ask A) s : turn_ok s -> turn_ok (pcall q s).2 /\ moved s (pcall q s).2.
Proof.
  intros Hs. unfold pcall. pose proof (call_quiet q (p_conn s)) as H1.
  destruct (call q (p_conn s)) as [a c1]. cbn [snd] in *. split; [|split; [apply (ef_world _ _ _ _ _ (proj1 (proj1 H1)))|done]].
  apply (turn_same s); [done|done| |done|done]. by destruct Hs as [[? ? ?] _ _].
Qed.

Lemma pushed_moved k s s' : pushed_to k s s' -> moved s s'.
Proof. intros []. split; [|done]. by apply (ef_world _ _ _ _ _ (proj1 (proj1 pu_calm0))). Qed.

Lemma note_stop_turn s : turn_ok s -> turn_ok (note_stop s).2 /\
  wle (n_world (p_conn s)) (n_world (p_conn (note_stop s).2)).
Proof.
  intros Hs. unfold note_stop. pose proof (pcall_turn AskStop s Hs) as [H1 [W1 _]].
  destruct (pcall AskStop s) as [stopping s1]. cbn [snd] in *. destruct (_ && _); [|done].
  pose proof (pcall_turn AskMono s1 H1) as [H2 [W2 _]]. destruct (pcall AskMono s1) as [now s2]. cbn [snd] in *.
  split; [|by etransitivity]. by apply (turn_same s2); [|apply quiet_refl|destruct H2 as [[? ? ?] _ _]|..].
Qed.

Lemma past_deadline_turn stopping s : turn_ok s ->
  turn_ok (past_deadline stopping s).2 /\ moved s (past_deadline stopping s).2.
Proof.
  intros Hs. unfold past_deadline. destruct stopping; [|done].
  pose proof (pcall_turn AskMono s Hs) as H1. by destruct (pcall AskMono s) as [now s1].
Qed.

Lemma queue_done_turn stopping s : turn_ok s ->
  runs (queue_done stopping s) (fun '(done, s') => turn_ok s' /\ moved s s' /\
    (done = true -> p_inflight s' = [] /\ fifo_items (p_in s') = [])).
Proof.
  intros Hs. unfold queue_done. destruct (stopping && _) eqn:E; [|by cbn [runs]].
  apply runs_bind. eapply runs_mono; [apply queue_length_runs, Hs|].
  intros [n s1] (Hq & -> & k & Hk & Hp). cbn [runs].
  split_and!; [|by apply (pushed_moved k)|].
  - apply (turn_same s); [done|apply Hk|done|apply Hk|done].
  - intros En. rewrite (pu_inflight _ _ _ Hk). split.
    + destruct (p_inflight s); [done|]. simpl in E. by rewrite andb_false_r in E.
    + destruct (fifo_items (p_in s1)); [done|simpl in En; lia].
Qed.

Lemma ensure_connected_turn fuel stopping s : turn_ok s ->
  safe (ensure_connected cfg fuel stopping s) (fun '(ok, s') => turn_ok s' /\ moved s s' /\
    (ok = true -> n_ctx (p_conn s') = Some (commands cfg (p_inflight s')))).
Proof.
  intros Hs. unfold ensure_connected. destruct (n_ctx (p_conn s)) as [pending|] eqn:E.
  { cbn [safe]. split_and!; [done|done|]. intros _. destruct (tk_ctx s Hs) as [?|[? _]]; congruence. }
  apply safe_bind. eapply safe_mono; [apply connect_linked, turn_backoff, Hs|].
  intros [ok c1] (H1 & E1 & _). cbn [safe].
  destruct (tk_ctx s Hs) as [?|[_ Ei]]; [congruence|].
  assert (n_ctx c1 = if ok then Some (commands cfg (p_inflight s)) else None) as E1'
    by (rewrite E1, Ei; by destruct ok).
  split_and!.
  - destruct Hs as [[? ? ?] Hf _]. constructor; [done|by eapply fated_calm|].
    cbn [set_conn p_conn p_inflight]. rewrite E1'. destruct ok; [by left|by right].
  - split; [apply (ef_world _ _ _ _ _ (proj1 H1))|done].
  - intros ->. exact E1'.
Qed.

Definition linked_turn s : Prop := turn_ok s /\ n_ctx (p_conn s) = Some (commands cfg (p_inflight s)).

(** The popped item joins the batch. *)
Lemma sent_turn s s1 item start c : turn_ok s -> queue_ok q0 s1 -> calm (p_conn s) c ->
  p_inflight s1 = p_inflight s -> p_popped s1 = p_popped s ++ [item] -> sendable item ->
  n_ctx c = Some (commands cfg (p_inflight s) ++ commands cfg [item]) ->
  linked_turn (set_inflight (p_inflight s1 ++ [item]) start (set_conn c s1)).
Proof.
  intros Hs Hq Hc Ei Ep Hsend Hctx.
  assert (n_ctx c = Some (commands cfg (p_inflight s1 ++ [item]))) as Hctx'
    by (by rewrite Hctx, Ei, commands_app).
  split; [|exact Hctx']. constructor; [by destruct Hq| |by left].
  cbn [set_inflight set_conn p_popped p_inflight p_conn]. rewrite Ep, Ei, !length_app.
  replace (_ - _) with (zlen (p_popped s) - zlen (p_inflight s)) by (simpl; lia).
  eapply fated_sent; [exact Hc|done|apply Hs].
Qed.

(** The popped item is lost, and that is logged. *)
Lemma lost_turn s s1 item site : linked_turn s -> queue_ok q0 s1 -> calm (p_conn s) (p_conn s1) ->
  p_inflight s1 = p_inflight s -> p_popped s1 = p_popped s ++ [item] ->
  n_ctx (p_conn s1) = Some (commands cfg (p_inflight s)) ->
  (commands cfg [item] <> [] -> site ∈ lossy /\ ~ healthy) ->
  (commands cfg [item] = [] -> site ∉ lossy) ->
  let c := log_rate_limited_kv site (p_conn (lose 1 s1)) in
  linked_turn (set_conn c (lose 1 s1)).
Proof.
  intros [Hs _] Hq Hc Ei Ep Hctx Hbad Hgood c.
  assert (effect 1 [] 1 (p_conn s) (add_stat events_lost_total 1 (p_conn s1))) as Hlose.
  { eapply calm_then; [exact Hc|]. eapply effect_as; [by apply add_stat_effect|by count_hits..]. }
  assert (n_ctx c = Some (commands cfg (p_inflight s1))) as Hctx'.
  { unfold c. rewrite log_ctx, Ei. exact Hctx. }
  split; [|exact Hctx']. constructor; [by destruct Hq| |by left].
  cbn [set_conn lose p_popped p_inflight p_conn]. rewrite Ep, Ei, length_app.
  replace (_ - _) with (zlen (p_popped s) - zlen (p_inflight s) + 1) by (simpl; lia).
  eapply fated_lost; [| | |apply Hs].
  - exact (conn_effect_trans _ _ _ _ _ _ _ _ _ Hlose (log_effect _ _)).
  - intros Hn. apply log_not_clean; [by apply Hbad|].
    apply (ef_logged _ _ _ _ _ Hlose), turn_logged, Hs.
  - intros Hh Hcl. destruct (commands cfg [item]) eqn:E.
    + apply (proj2 (log_calm site (add_stat events_lost_total 1 (p_conn s1)) (Hgood eq_refl))).
      exact (proj2 Hc Hcl).
    + destruct Hbad as [_ Hbad]; [done|]. by destruct Hbad.
Qed.

Lemma take_one_turn stopping s : linked_turn s ->
  safe (take_one cfg stopping s) (fun s' => linked_turn s' /\ moved s s').
Proof.
  intros [Hs Hctx]. unfold take_one. destruct (_ <? _); [|done].
  apply safe_bind. eapply safe_mono; [apply runs_safe, queue_pop_runs, Hs|].
  intros [[item|] s1] (Hq & k & Hk & Hp).
  - destruct Hp as (Hfit & Ep & _). destruct Hk as [[Hc Ec] Ei Eb Es Ew _].
    apply safe_bind. eapply safe_mono; [apply append_spec; [done|by rewrite Ec]|].
    intros [ok c] (Ha & Ectx & Hok & Hsd).
    pose proof (calm_trans _ _ _ Hc Ha) as Hc2.
    assert (wle (n_world (p_conn s)) (n_world c)) as Hw by apply (ef_world _ _ _ _ _ (proj1 Hc2)).
    destruct ok.
    + assert (sendable item) as Hsend by (split; [done|by apply Hok]).
      destruct (length (p_inflight (set_conn c s1)) =? 0)%nat.
      * unfold pcall. pose proof (call_quiet AskMono (p_conn (set_conn c s1))) as [Hm Em].
        destruct (call AskMono (p_conn (set_conn c s1))) as [now c2]. cbn [snd safe] in *.
        split; [|split; [by etransitivity; [exact Hw|apply (ef_world _ _ _ _ _ (proj1 Hm))]|done]].
        apply (sent_turn s s1 item now c2); try done; [by eapply calm_trans|by rewrite Em].
      * cbn [safe]. split; [|by split]. by apply (sent_turn s s1 item (p_batch_start s1) c).
    + cbn [safe]. rewrite app_nil_r in Ectx. split.
      * apply (lost_turn s (set_conn c s1) item); try done; [by destruct Hq| |].
        -- intros Hn. split; [|].
           ++ unfold commands, item_command in Hn. cbn [omap list_omap] in Hn.
              destruct (cf_stream_name _); [notin|done].
           ++ intros Hh. by destruct (Hsd (Hh _)) as [_ Hyes]; specialize (Hyes Hn).
        -- unfold commands, item_command. cbn [omap list_omap]. destruct (cf_stream_name _); [done|]. intros _. notin.
      * split; [|done]. etransitivity; [exact Hw|].
        apply (ef_world _ _ _ _ _ (conn_effect_trans _ _ _ _ _ _ _ _ _
          (add_stat_effect events_lost_total 1 c eq_refl) (log_effect _ _))).
  - cbn [safe]. destruct Hp as [Ep _].
    assert (linked_turn s1 /\ moved s s1) as [[H1 E1] M1].
    { split; [split|by apply (pushed_moved k)].
      - apply (turn_same s); [done|apply Hk|done|apply Hk|done].
      - by rewrite (proj2 (pu_calm _ _ _ Hk)), (pu_inflight _ _ _ Hk). }
    destruct stopping; [done|]. pose proof (pcall_turn (AskSleepNs CF_REDIS_IDLE_SLEEP_NS) s1 H1) as [H2 M2].
    split; [|by eapply moved_trans]. split; [done|]. clear H2 M2. unfold pcall.
    pose proof (call_quiet (AskSleepNs CF_REDIS_IDLE_SLEEP_NS) (p_conn s1)) as [_ E2].
    destruct (call _ (p_conn s1)) as [u c]. cbn [snd set_conn p_conn p_inflight] in *. by rewrite E2.
Qed.

Lemma should_flush_turn stopping s : linked_turn s ->
  linked_turn (should_flush cfg stopping s).2 /\ moved s (should_flush cfg stopping s).2.
Proof.
  intros [Hs Hctx]. unfold should_flush. destruct (_ <=? _); [done|]. destruct (_ =? _)%nat; [done|].
  destruct stopping; [done|]. pose proof (pcall_turn AskMono s Hs) as H1. unfold pcall in *.
  pose proof (call_quiet AskMono (p_conn s)) as [_ E1].
  destruct (call AskMono (p_conn s)) as [now c]. cbn [snd] in *. split; [|apply H1].
  split; [apply H1|]. cbn [set_conn p_conn p_inflight]. by rewrite E1.
Qed.

Lemma flush_if_turn fuel flush stopping s : linked_turn s ->
  safe (flush_if cfg fuel flush stopping s) (fun s' => turn_ok s' /\ moved s s').
Proof.
  intros [Hs Hctx]. unfold flush_if. destruct flush; [|done].
  pose proof Hs as [Hq Hf _]. apply safe_bind. eapply safe_mono.
  { apply do_flush_spec; [apply Hf|done|by apply turn_logged|by apply turn_backoff]. }
  intros c (lost & Hb & Hc & Hsd & _). cbn [safe]. pose proof Hb as (l & El & _). split.
  - constructor; [by destruct Hq| |].
    + cbn [set_inflight set_conn p_popped p_inflight p_conn].
      replace (zlen (p_popped s) - zlen []) with (zlen (p_popped s) - zlen (p_inflight s) + zlen (p_inflight s))
        by (simpl; lia).
      eapply fated_flushed; [exact Hb|auto|exact Hf].
    + cbn [set_inflight set_conn p_conn p_inflight]. destruct Hc; [by right|by left].
  - split; [apply (ef_world _ _ _ _ _ El)|done].
Qed.

(** ** The end *)

Definition no_pushes : Prop := forall w, (answer AskPushed w).1 = [].

(** The thread left its loop.  At the deadline, [missed] items that came while
    the queue was thrown away are counted nowhere. *)
Definition finished (late : bool) s : Prop :=
  queue_ok q0 s /\ exists missed, 0 <= missed /\ (no_pushes -> missed = 0) /\
    fated c0 (zlen (p_popped s) - missed) (late = false) (p_conn s) [] (p_popped s) /\
    (late = false -> missed = 0 /\ fifo_items (p_in s) = []).

Lemma drain_unsent_spec fuel : forall s, queue_ok q0 s ->
  safe (drain_unsent fuel s) (fun s' => queue_ok q0 s' /\ calm (p_conn s) (p_conn s') /\
    p_inflight s' = p_inflight s /\ exists l, p_popped s' = p_popped s ++ l /\
      zlen (fifo_items (p_in s)) <= zlen l /\ (no_pushes -> zlen l = zlen (fifo_items (p_in s)))).
Proof.
  induction fuel as [|fuel IH]; intros s Hq; cbn [drain_unsent]; [done|].
  apply safe_bind. eapply safe_mono; [apply runs_safe, queue_pop_runs, Hq|].
  intros [item s1] (Hq1 & k & [[Hc Ec] Ei Eb Es Ew Hle] & Hp).
  assert (no_pushes -> zlen k = 0) as Hnp by (intros Hn; rewrite Hn in Hle; simpl in Hle; lia).
  destruct item as [i|].
  - destruct Hp as (_ & Ep & Hlen). eapply safe_mono; [by apply IH|].
    intros s2 (Hq2 & Hc2 & Ei2 & l & Ep2 & Hl & Hn). split_and!; [done|by eapply calm_trans|congruence|].
    exists (i :: l). rewrite Ep2, Ep, <- app_assoc. split; [done|]. simpl. split; [lia|].
    intros Hno. specialize (Hn Hno). specialize (Hnp Hno). lia.
  - destruct Hp as (Ep & _ & Hp). cbn [safe]. split_and!; [done|done|done|]. exists []. rewrite app_nil_r, Hp.
    by split_and!.
Qed.

(** Items given up: they are counted, and out of flight. *)
Lemma fated_dropped n synced c inflight popped k :
  fated c0 n synced c inflight popped ->
  fated c0 (n + k) False (add_stat events_lost_total k c) inflight popped /\
  fated c0 (n + k) False (add_stat events_lost_total k c) [] popped.
Proof.
  intros [Hs Ho Hh (lost & He & _)].
  assert (effect (n + k) (n_acked c) (lost + k) c0 (add_stat events_lost_total k c)) as He'.
  { eapply effect_as; [exact (conn_effect_trans _ _ _ _ _ _ _ _ _ He (add_stat_effect events_lost_total k c eq_refl))
      |by count_hits; lia|apply app_nil_r|count_hits; lia]. }
  split; constructor; try done; try (by exists (lost + k)).
  cbn [commands omap list_omap]. rewrite app_nil_r. etransitivity; [|exact Ho]. by apply sublist_inserts_r.
Qed.

Lemma expire_finished fuel s : turn_ok s -> safe (expire fuel s) (finished true).
Proof.
  intros Hs. unfold expire. apply safe_bind. eapply safe_mono; [apply runs_safe, queue_length_runs, Hs|].
  intros [remaining s1] (Hq1 & -> & k & Hk & Ep).
  assert (turn_ok s1) as Hs1 by (apply (turn_same s); [done|apply Hk|done|apply Hk|done]).
  clear s Hs k Hk Ep. pose proof (tk_fated s1 Hs1) as Hf. apply safe_bind.
  apply safe_mono with (fun s2 => queue_ok q0 s2 /\ p_inflight s2 = p_inflight s1 /\
    exists missed, 0 <= missed /\ (no_pushes -> missed = 0) /\
    fated c0 (zlen (p_popped s2) - missed - zlen (p_inflight s1)) False (p_conn s2) (p_inflight s2) (p_popped s2)).
  - destruct (0 <? zlen (fifo_items (p_in s1))).
    + apply safe_bind. eapply safe_mono; [by apply drain_unsent_spec|].
      intros s2 (Hq2 & Hc & Ei & l & Ep & Hl & Hn). cbn [safe]. split_and!; [by destruct Hq2|done|].
      exists (zlen l - zlen (fifo_items (p_in s1))). split_and!; [lia|intros Hno; rewrite Hn; [lia|done]|].
      cbn [lose set_conn p_conn p_inflight p_popped]. rewrite Ei, Ep, length_app.
      replace (_ - _) with (zlen (p_popped s1) - zlen (p_inflight s1) + zlen (fifo_items (p_in s1))) by lia.
      eapply fated_dropped, fated_popped, fated_calm; [exact Hc|exact Hf].
    + cbn [safe]. split_and!; [done|done|]. exists 0. split_and!; [done|done|].
      rewrite Z.sub_0_r. rewrite <- (app_nil_r (p_popped s1)). by eapply fated_popped; rewrite app_nil_r.
  - intros s2 (Hq2 & Ei & missed & Hm & Hno & Hf2). cbn [safe]. rewrite <- Ei in Hf2.
    destruct (0 <? length (p_inflight s2))%nat eqn:E.
    + split; [by destruct Hq2|]. exists missed. split_and!; [done|done| |done].
      cbn [set_inflight lose set_conn p_conn p_popped].
      pose proof (fated_dropped _ _ _ _ _ (zlen (p_inflight s2)) Hf2) as [_ Hf3].
      eapply fated_weaken; [|exact Hf3]. lia.
    + split; [done|]. exists missed. split_and!; [done|done| |done].
      destruct (p_inflight s2); [|done]. eapply fated_weaken; [|exact Hf2]. simpl. lia.
Qed.

(** The rest of a turn that does not leave the loop. *)
Lemma work_turn fuel stopping s : turn_ok s ->
  safe ('(ok, s) ← ensure_connected cfg fuel stopping s;
        if negb ok then Ret (None, s)
        else
          s ← take_one cfg stopping s;
          let '(flush, s) := should_flush cfg stopping s in
          s ← flush_if cfg fuel flush stopping s;
          Ret (None, s))
    (fun '(r, s') => r = @None bool /\ turn_ok s' /\ moved s s').
Proof.
  intros Hs. apply safe_bind. eapply safe_mono; [by apply ensure_connected_turn|].
  intros [ok s1] (H1 & M1 & L1). destruct ok; cbn [negb]; [|done].
  apply safe_bind. eapply safe_mono; [apply take_one_turn; by split; [|apply L1]|].
  intros s2 [H2 M2]. pose proof (should_flush_turn stopping s2 H2) as [H3 M3].
  destruct (should_flush cfg stopping s2) as [flush s3]. cbn [snd] in *.
  apply safe_bind. eapply safe_mono; [by apply flush_if_turn|].
  intros s4 [H4 M4]. cbn [safe]. split_and!; [done|done|].
  by do 3 (eapply moved_trans; [eassumption|]).
Qed.

Lemma turn_safe fuel s : turn_ok s ->
  safe (producer_turn cfg fuel s) (fun '(r, s') =>
    match r with None => turn_ok s' | Some late => finished late s' end).
Proof.
  intros Hs. unfold producer_turn. pose proof (note_stop_turn s Hs) as [H1 _].
  destruct (note_stop s) as [stopping s1]. cbn [snd] in *.
  apply safe_bind. eapply safe_mono; [by apply runs_safe, queue_done_turn|].
  intros [dn s2] (H2 & _ & E2). destruct dn.
  { cbn [safe]. destruct (E2 eq_refl) as [Ei Eq]. destruct H2 as [Hq Hf _]. split; [done|].
    exists 0. rewrite Ei in Hf. split_and!; [done|done| |done].
    eapply fated_weaken; [|exact Hf]. split; [simpl; lia|done]. }
  pose proof (past_deadline_turn stopping s2 H2) as [H3 _].
  destruct (past_deadline stopping s2) as [late s3]. cbn [snd] in *. destruct late.
  - apply safe_bind. eapply safe_mono; [by apply expire_finished|]. done.
  - eapply safe_mono; [by apply work_turn|]. by intros [r s4] (-> & H4 & _).
Qed.

Lemma loop_safe inner fuel : forall s, turn_ok s ->
  safe (producer_loop cfg inner fuel s) (fun '(late, s') => finished late s').
Proof.
  induction fuel as [|fuel IH]; intros s Hs; cbn [producer_loop]; [done|].
  apply safe_bind. eapply safe_mono; [by apply turn_safe|]. intros [[late|] s1] H1; [done|by apply IH].
Qed.

(** *** The thread *)

Lemma start_turn w st c ok : c0 = start_conn w st -> events_ok q0 -> linked ok c0 c ->
  turn_ok (start_producer c q0).
Proof.
  intros E Hq (Hc & Ec & _). constructor.
  - by split.
  - eapply fated_calm; [exact Hc|]. rewrite E.
    constructor; [constructor|apply sublist_nil_l|by intros|].
    exists 0. split; [apply conn_effect_refl|]. by intros _ _.
  - cbn [start_producer p_conn p_inflight]. rewrite Ec. rewrite E. by destruct ok; [left|right].
Qed.

Lemma finished_closed late s : finished late s ->
  finished late (set_conn (set_ctx None (p_conn s)) s).
Proof.
  intros ([? ? ?] & missed & H1 & H2 & H3 & H4). split; [by split|]. exists missed.
  split_and!; [done|done| |done]. eapply fated_calm; [apply set_ctx_calm|done].
Qed.

Lemma main_safe fuel calloc_ok w st : c0 = start_conn w st -> events_ok q0 ->
  safe (cf_redis_producer_thread_main cfg fuel calloc_ok w st q0) (fun r =>
    match r with None => calloc_ok = false | Some (late, s) => finished late s end).
Proof.
  intros E Hq. unfold cf_redis_producer_thread_main. destruct calloc_ok; cbn [negb]; [|done].
  rewrite <- E. apply safe_bind. eapply safe_mono; [by apply connect_linked|].
  intros [ok c] Hc. apply safe_bind. eapply safe_mono; [by eapply loop_safe, start_turn|].
  intros [late s] Hf. by apply finished_closed.
Qed.
End Effects.
