(* ===== verification/RedisProducerProperties.v ===== *)
(** * RedisProducerProperties: the producer's theorems

    The thread accounts for every item it takes, ends when the world moves on,
    and delivers everything to a Redis that works; a broken connection is
    retried once; endpoints are read back from their text.  Each theorem has a
    witness in a concrete world. *)

From S2P Require Import Prelude Core Counters Queue QueuePolicy Endpoint.
From S2P Require Import IpFmt Sha256 EventId Decap Observation Worker RedisProducer RedisProducerSpec.

(** ** Termination *)

Section Timely.
Context {W : Type} {HW : World W}.
Implicit Types c : conn W.

(** What a world still has before it: reads of the stop flag that find it
    clear, pushes, and reads of the clock before [d]. *)
Variables (stops pushes : W -> nat) (reads : Z -> W -> nat) (B : nat).

Definition eases (w w' : W) : Prop :=
  (stops w' <= stops w)%nat /\ (pushes w' <= pushes w)%nat /\ forall d, (reads d w' <= reads d w)%nat.

#[export] Instance eases_preorder : PreOrder eases.
Proof.
  split; [by repeat split|]. intros w1 w2 w3 (?&?&H1) (?&?&H2). split_and!; [lia..|].
  intros d. specialize (H1 d). specialize (H2 d). lia.
Qed.

(** Nothing comes back; the clock is not negative, and passes any instant of
    the next 5 seconds within [B] reads. *)
Record timely : Prop := {
  tm_eases : forall A (q : ask A) w, eases w (answer q w).2;
  tm_stop : forall w, (answer AskStop w).1 = false -> (stops (answer AskStop w).2 < stops w)%nat;
  tm_clock : forall d w, (answer AskMono w).1 < d -> (reads d (answer AskMono w).2 < reads d w)%nat;
  tm_positive : forall w, 0 <= (answer AskMono w).1;
  tm_bound : forall w, (reads ((answer AskMono w).1 + CF_REDIS_SHUTDOWN_DEADLINE_NS)
                          (answer AskMono w).2 <= B)%nat;
  tm_pushes : forall w, (length (answer AskPushed w).1 + pushes (answer AskPushed w).2 <= pushes w)%nat
}.

Hypothesis Htm : timely.

(** What a wait may still take. *)
Definition budget (d : Z) (bail_on_stop : bool) (w : W) : nat :=
  if bail_on_stop then stops w else reads d w.

Lemma budget_eases d b w w' : eases w w' -> (budget d b w' <= budget d b w)%nat.
Proof. intros (?&?&Hr). unfold budget. destruct b; [lia|apply Hr]. Qed.

Lemma bail_out_spends d b c : (bail_out d b c).1 = false ->
  (budget d b (n_world (bail_out d b c).2) < budget d b (n_world c))%nat.
Proof.
  unfold bail_out, call. pose proof (tm_clock Htm d (n_world c)) as Hc.
  pose proof (tm_eases Htm _ AskMono (n_world c)) as He.
  destruct (answer AskMono (n_world c)) as [now w1]. cbn [fst snd] in *.
  destruct (d <=? now) eqn:E; [done|]. destruct b; cbn [n_world set_world budget].
  - pose proof (tm_stop Htm w1) as Hs. destruct (answer AskStop w1) as [stop w2]. cbn [fst snd n_world set_world] in *.
    intros ->. specialize (Hs eq_refl). destruct He. lia.
  - intros _. apply Hc. lia.
Qed.

Lemma bail_out_eases d b c : eases (n_world c) (n_world (bail_out d b c).2).
Proof. apply (ef_world _ _ _ _ _ _ (proj1 (proj1 (bail_out_quiet eases (tm_eases Htm) d b c)))). Qed.

Lemma sleep_halts fuel : forall remaining d b c,
  remaining <= Z.of_nat fuel * CF_REDIS_BACKOFF_SLEEP_CHUNK_NS ->
  halts (sleep_loop (S fuel) remaining d b c) (fun _ => True).
Proof.
  unfold CF_REDIS_BACKOFF_SLEEP_CHUNK_NS.
  induction fuel as [|fuel IH]; intros remaining d b c Hr; cbn [sleep_loop].
  { by replace (0 <? remaining) with false by lia. }
  destruct (0 <? remaining) eqn:E; [|done]. destruct (bail_out d b c) as [stop c1]. destruct stop; [done|].
  destruct (call (AskSleepNs _) c1) as [u c2]. apply IH. unfold CF_REDIS_BACKOFF_SLEEP_CHUNK_NS.
  destruct (remaining <? _) eqn:E2; lia.
Qed.

Lemma backoff_halts b d bail c : b <= CF_REDIS_BACKOFF_MAX_NS ->
  halts (sleep_backoff b d bail c) (fun _ => True).
Proof. intros Hb. apply sleep_halts. exact Hb. Qed.

Variable cfg : cf_redis_producer_config_t.
Hypothesis has_endpoint : endpoints cfg <> [].

Lemma try_endpoints_halts count d b tries : forall c,
  halts (try_endpoints cfg tries count d b c) (fun _ => True).
Proof.
  induction tries as [|tries IH]; intros c; cbn [try_endpoints]; [done|].
  destruct (bail_out d b c) as [stop c1]. destruct stop; [done|]. destruct (_ !! _); [|done].
  destruct (try_connect_one _ _) as [ok c2]. by destruct ok.
Qed.

Lemma no_sound : forall w : W, False ->
  (answer AskReply w).1 = Some None /\ False /\ False /\
  forall a, (answer (AskAppend a) w).1 = true /\ False.
Proof. done. Qed.

Notation linked_spec := (connect_linked eases (tm_eases Htm) (fun _ => False) cfg has_endpoint).

Lemma connect_halts fuel : forall count d b c, backoff_ok c -> (budget d b (n_world c) < fuel)%nat ->
  halts (connect_with_backoff cfg fuel count d b c) (fun _ => True).
Proof.
  induction fuel as [|fuel IH]; intros count d b c Hb Hf; [lia|]. cbn [connect_with_backoff].
  apply halts_bind. eapply halts_mono.
  { apply runs_halts, safe_halts; [apply (try_endpoints_linked eases (tm_eases Htm) (fun _ => False) cfg has_endpoint)
      |apply try_endpoints_halts]. }
  intros [r c1] [(H1 & _) _]. destruct r as [ok|]; [done|].
  pose proof (bail_out_spends d b c1) as Hs. pose proof (bail_out_quiet eases (tm_eases Htm) d b c1) as [H2 _].
  destruct (bail_out d b c1) as [stop c2]. cbn [fst snd] in *. destruct stop; [done|].
  specialize (Hs eq_refl).
  assert (forall c3, calm eases c2 c3 -> backoff_ok c3 /\ (budget d b (n_world c3) < fuel)%nat) as Hc3.
  { intros c3 H3. pose proof (budget_eases d b _ _ (ef_world _ _ _ _ _ _ (proj1 H1))).
    pose proof (budget_eases d b _ _ (ef_world _ _ _ _ _ _ (proj1 H3))).
    split; [|lia]. apply (ef_backoff _ _ _ _ _ _ (proj1 (calm_trans _ _ _ _ (calm_trans _ _ _ _ H1 H2) H3)) Hb). }
  pose proof (proj1 (connect_log_quiet eases (tm_eases Htm) c2)) as H3.
  apply halts_bind. eapply halts_mono.
  { apply runs_halts, safe_halts; [apply (sleep_quiet eases (tm_eases Htm))|].
    apply backoff_halts. apply (Hc3 _ H3). }
  intros c4 [[H4 _] _]. destruct (Hc3 _ (calm_trans _ _ _ _ H3 H4)) as [Hb4 Hf4].
  apply IH; [|exact Hf4]. unfold backoff_ok in *. cbn [set_backoff n_backoff_ns].
  destruct (_ <? n_backoff_ns c4 * 2) eqn:E; unfold CF_REDIS_BACKOFF_MAX_NS in *; lia.
Qed.

Lemma append_halts item c : halts (append_xadd cfg item c) (fun _ => True).
Proof.
  unfold append_xadd. destruct (n_ctx c), (cf_stream_name (it_stream_id item)); try done.
  unfold rd_n. destruct (_ && _); [|done]. xbind. set (a := xadd_argv _ _ _ _).
  by destruct (call (AskAppend a) c) as [ok c1].
Qed.

Lemma append_all_halts items : forall c, halts (append_all cfg items c) (fun _ => True).
Proof.
  induction items as [|item items IH]; intros c; cbn [append_all]; [done|].
  apply halts_bind. eapply halts_mono; [apply append_halts|]. intros [ok c1] _. destruct ok; [|done].
  apply halts_bind. eapply halts_mono; [apply IH|]. by intros [n c2].
Qed.

Lemma retry_halts items c : halts (retry_unacked cfg items c) (fun _ => True).
Proof.
  unfold retry_unacked. apply halts_bind. eapply halts_mono; [apply append_all_halts|].
  intros [n c1] _. destruct (if (0 <? n)%nat then flush_pipeline n c1 else (0%nat, false, c1)) as [[i err] c2].
  by destruct err.
Qed.

Lemma do_flush_halts fuel items (stopping : bool) d c :
  Forall (sendable cfg) items -> n_ctx c = Some (commands cfg items) -> logged c -> backoff_ok c ->
  (budget (if stopping then d else INT64_MAX) (negb stopping) (n_world c) < fuel)%nat ->
  halts (do_flush cfg fuel items stopping d c) (fun _ => True).
Proof.
  intros Hall Hctx Hlog Hb Hf. unfold do_flush. rewrite <- (commands_length cfg items Hall).
  pose proof (flush_spec eases (tm_eases Htm) (fun _ => False) no_sound _ c Hctx Hlog) as Hfl.
  destruct (flush_pipeline (length (commands cfg items)) c) as [[i err] c1]. destruct Hfl as (_ & _ & _ & _ & l & El & _).
  destruct (negb err); [done|]. destruct (_ =? _)%nat; [done|].
  apply halts_bind. eapply halts_mono.
  - apply connect_halts; [exact (ef_backoff _ _ _ _ _ _ El Hb)|].
    eapply Nat.le_lt_trans; [|exact Hf]. apply budget_eases, (ef_world _ _ _ _ _ _ El).
  - intros [ok c2] _. destruct ok; [apply retry_halts|done].
Qed.

(** *** The thread *)

Context {R : Type} {HB : BoundedFifo R} {HG : GaugedFifo R}.
Implicit Types s : producer W R.
Hypothesis pushes_ok : forall w : W, Forall event_image (answer AskPushed w).1.
Variables (c0 : conn W) (q0 : R).
Hypothesis logged0 : logged c0.
Hypothesis backoff0 : backoff_ok c0.

Notation thread_ok := (turn_ok eases (fun _ => False) cfg c0 q0).

Definition now_world s : W := n_world (p_conn s).

Lemma drain_halts fuel : forall s, queue_ok q0 s ->
  (length (fifo_items (p_in s)) + pushes (now_world s) < fuel)%nat ->
  halts (drain_unsent fuel s) (fun _ => True).
Proof.
  induction fuel as [|fuel IH]; intros s Hq Hf; [lia|]. cbn [drain_unsent].
  apply halts_bind. eapply halts_mono.
  { apply runs_halts, (queue_pop_runs eases (tm_eases Htm) pushes_ok q0 s Hq). }
  intros [item s1] (Hq1 & k & Hk & Hp). destruct item as [i|]; [|done].
  destruct Hp as (_ & _ & Hlen). apply IH; [done|].
  pose proof (tm_pushes Htm (now_world s)) as Hpu. pose proof (pu_k _ _ _ _ Hk) as Hle.
  unfold now_world in *. rewrite (pu_world _ _ _ _ Hk). lia.
Qed.

(** Enough fuel for the loops inside a turn. *)
Definition roomy (inner : nat) s : Prop :=
  (stops (now_world s) + B < inner)%nat /\
  (Z.to_nat (fifo_bound q0) + pushes (now_world s) < inner)%nat /\
  (0 <= p_shutdown s -> (reads (p_shutdown s) (now_world s) <= B)%nat).

Lemma roomy_moved inner s s' : moved eases s s' -> roomy inner s -> roomy inner s'.
Proof.
  intros [(H1 & H2 & H3) E] (R1 & R2 & R3). unfold roomy, now_world in *. rewrite E.
  specialize (H3 (p_shutdown s)). split_and!; [lia|lia|]. intros Hs. specialize (R3 Hs). lia.
Qed.

Lemma queue_fits s : queue_ok q0 s -> (length (fifo_items (p_in s)) <= Z.to_nat (fifo_bound q0))%nat.
Proof.
  intros [[Hwf _] Hb _]. pose proof (fifo_items_bound (p_in s) Hwf). rewrite Hb in *. lia.
Qed.

Lemma expire_halts inner s : thread_ok s -> roomy inner s ->
  halts (expire inner s) (fun _ => True).
Proof.
  intros Hs Hr. unfold expire. apply halts_bind. eapply halts_mono.
  { apply runs_halts, (queue_length_runs eases (tm_eases Htm) pushes_ok q0 s), Hs. }
  intros [n s1] (Hq1 & _ & k & Hk & _).
  pose proof (roomy_moved _ _ _ (pushed_moved _ _ _ _ Hk) Hr) as (_ & Hr1 & _).
  apply halts_bind. destruct (0 <? n).
  - apply halts_bind. eapply halts_mono; [apply drain_halts; [done|]|done].
    pose proof (queue_fits _ Hq1). lia.
  - cbn [halts]. by destruct (0 <? length (p_inflight s1))%nat.
Qed.

(** The deadline of the waits of a turn is reached within the fuel. *)
Lemma roomy_budget inner (stopping : bool) s : roomy inner s -> (stopping = true -> 0 <= p_shutdown s) ->
  (budget (if stopping then p_shutdown s else INT64_MAX) (negb stopping) (now_world s) < inner)%nat.
Proof.
  intros (H1 & _ & H3) Hs. unfold budget. destruct stopping; cbn [negb]; [|lia].
  specialize (H3 (Hs eq_refl)). lia.
Qed.

Lemma ensure_connected_halts inner (stopping : bool) s : thread_ok s -> roomy inner s ->
  (stopping = true -> 0 <= p_shutdown s) ->
  halts (ensure_connected cfg inner stopping s) (fun _ => True).
Proof.
  intros Hs Hr Hsd. unfold ensure_connected. destruct (n_ctx _); [done|].
  apply halts_bind. eapply halts_mono; [apply connect_halts|by intros [ok c]].
  - by eapply (turn_backoff eases).
  - by apply roomy_budget.
Qed.

Lemma take_one_halts (stopping : bool) s : queue_ok q0 s -> halts (take_one cfg stopping s) (fun _ => True).
Proof.
  intros Hq. unfold take_one. destruct (_ <? _); [|done]. apply halts_bind. eapply halts_mono.
  { apply runs_halts, (queue_pop_runs eases (tm_eases Htm) pushes_ok q0 s Hq). }
  intros [[item|] s1] _; [|done]. apply halts_bind. eapply halts_mono; [apply append_halts|].
  intros [ok c] _. destruct ok; [|done].
  destruct (if (length (p_inflight (set_conn c s1)) =? 0)%nat then pcall AskMono (set_conn c s1)
            else (p_batch_start (set_conn c s1), set_conn c s1)) as [start s2]. done.
Qed.

Lemma flush_if_halts inner (flush stopping : bool) s :
  linked_turn eases (fun _ => False) cfg c0 q0 s -> roomy inner s ->
  (stopping = true -> 0 <= p_shutdown s) ->
  halts (flush_if cfg inner flush stopping s) (fun _ => True).
Proof.
  intros [Hs Hctx] Hr Hsd. unfold flush_if. destruct flush; [|done].
  apply halts_bind. eapply halts_mono; [apply do_flush_halts|done].
  - apply (ft_sendable _ _ _ _ _ _ _ _ _ (tk_fated _ _ _ _ _ _ Hs)).
  - exact Hctx.
  - by eapply (turn_logged eases).
  - by eapply (turn_backoff eases).
  - by apply roomy_budget.
Qed.

Notation moved_by := (moved eases).

Lemma work_halts inner (stopping : bool) s : thread_ok s -> roomy inner s ->
  (stopping = true -> 0 <= p_shutdown s) ->
  halts ('(ok, s) ← ensure_connected cfg inner stopping s;
         if negb ok then Ret (None, s)
         else
           s ← take_one cfg stopping s;
           let '(flush, s) := should_flush cfg stopping s in
           s ← flush_if cfg inner flush stopping s;
           Ret (@None bool, s)) (fun _ => True).
Proof.
  intros Hs Hr Hsd. apply halts_bind. eapply halts_mono.
  { apply runs_halts, safe_halts; [by apply (ensure_connected_turn eases (tm_eases Htm))|].
    by apply ensure_connected_halts. }
  intros [ok s1] [(H1 & M1 & L1) _]. destruct ok; cbn [negb]; [|done].
  assert (linked_turn eases (fun _ => False) cfg c0 q0 s1) as H1' by (by split; [|apply L1]).
  apply halts_bind. eapply halts_mono.
  { apply runs_halts, safe_halts; [by apply (take_one_turn eases (tm_eases Htm) _ no_sound)|].
    apply take_one_halts, H1. }
  intros s2 [[H2 M2] _].
  pose proof (should_flush_turn eases (tm_eases Htm) (fun _ => False) cfg c0 q0 stopping s2 H2) as [H3 M3].
  destruct (should_flush cfg stopping s2) as [flush s3]. cbn [snd] in *.
  pose proof (moved_trans _ _ _ _ (moved_trans _ _ _ _ M1 M2) M3) as M.
  apply halts_bind. eapply halts_mono; [apply flush_if_halts; [done| |]|done].
  - by eapply roomy_moved.
  - by rewrite (proj2 M).
Qed.

(** What the loop may still take: reads of a clear flag, then of the clock. *)
Definition variant s : nat :=
  if p_shutdown s <? 0 then stops (now_world s) + B + 2
  else stops (now_world s) + reads (p_shutdown s) (now_world s).

Lemma pcall_eases {A} (q : ask A) s : now_world (pcall q s).2 = (answer q (now_world s)).2 /\
  (pcall q s).1 = (answer q (now_world s)).1 /\ eases (now_world s) (now_world (pcall q s).2).
Proof.
  pose proof (tm_eases Htm _ q (now_world s)) as He. unfold pcall, call, now_world in *.
  by destruct (answer q (n_world (p_conn s))).
Qed.

(** The stop flag was clear, or the deadline is set. *)
Lemma note_stop_spends inner s : thread_ok s -> roomy inner s ->
  let '(stopping, s1) := note_stop s in
  thread_ok s1 /\ roomy inner s1 /\
  if stopping then 0 <= p_shutdown s1 /\
    (p_shutdown s < 0 \/ p_shutdown s1 = p_shutdown s) /\ eases (now_world s) (now_world s1)
  else p_shutdown s1 = p_shutdown s /\ eases (now_world s) (now_world s1) /\
    (stops (now_world s1) < stops (now_world s))%nat.
Proof.
  intros Hs Hr. pose proof (note_stop_turn eases (tm_eases Htm) (fun _ => False) cfg c0 q0 s Hs) as [H1 W1].
  unfold note_stop in *. destruct (pcall_eases AskStop s) as (Ew & Ea & He).
  assert (p_shutdown (pcall AskStop s).2 = p_shutdown s) as Esd by (unfold pcall; by destruct (call _ _)).
  pose proof (tm_stop Htm (now_world s)) as Hst.
  destruct (pcall AskStop s) as [stopping s1]. cbn [fst snd] in *.
  assert (roomy inner s1) as Hr1 by (eapply (roomy_moved inner s); [by split|done]).
  destruct stopping; cbn [andb] in *.
  2: { split_and!; [done|done|done|done|]. rewrite Ew. by apply Hst. }
  destruct (p_shutdown s1 <? 0) eqn:E.
  2: { split_and!; [done|done|lia|by right|done]. }
  destruct (pcall_eases AskMono s1) as (Ew2 & Ea2 & He2).
  pose proof (tm_bound Htm (now_world s1)) as Hb. pose proof (tm_positive Htm (now_world s1)) as Hpos.
  destruct (pcall AskMono s1) as [now s2]. cbn [fst snd] in *. rewrite <- Ea2, <- Ew2 in *.
  assert (0 <= now + CF_REDIS_SHUTDOWN_DEADLINE_NS) as Hd by (unfold CF_REDIS_SHUTDOWN_DEADLINE_NS; lia).
  split_and!; [done| |done|left; lia|by etransitivity].
  destruct Hr1 as (R1 & R2 & _). destruct He2 as (? & ? & _).
  unfold roomy, now_world in *. cbn [set_shutdown p_conn p_shutdown]. split_and!; [lia|lia|done].
Qed.

Lemma turn_halts inner s : thread_ok s -> roomy inner s ->
  halts (producer_turn cfg inner s) (fun '(r, s') =>
    r = None -> roomy inner s' /\ (variant s' < variant s)%nat).
Proof.
  intros Hs Hr. unfold producer_turn. pose proof (note_stop_spends inner s Hs Hr) as H1.
  destruct (note_stop s) as [stopping s1]. destruct H1 as (H1 & R1 & Hsp).
  apply halts_bind. eapply halts_mono.
  { apply runs_halts. by apply (queue_done_turn eases (tm_eases Htm) (fun _ => False) cfg pushes_ok c0 q0). }
  intros [dn s2] (H2 & M2 & _). destruct dn; [done|]. pose proof (roomy_moved _ _ _ M2 R1) as R2.
  pose proof (past_deadline_turn eases (tm_eases Htm) (fun _ => False) cfg c0 q0 stopping s2 H2) as [H3 M3].
  assert ((past_deadline stopping s2).1 = false -> stopping = true ->
    (reads (p_shutdown s2) (now_world (past_deadline stopping s2).2) < reads (p_shutdown s2) (now_world s2))%nat) as Hlate.
  { intros Hl ->. unfold past_deadline in *. destruct (pcall_eases AskMono s2) as (Ew & Ea & _).
    destruct (pcall AskMono s2) as [now s3]. cbn [fst snd] in *. rewrite Ew.
    rewrite (proj2 M3) in Hl. apply (tm_clock Htm). lia. }
  destruct (past_deadline stopping s2) as [late s3]. cbn [fst snd] in *. pose proof (roomy_moved _ _ _ M3 R2) as R3.
  destruct late.
  { apply halts_bind. eapply halts_mono; [by apply expire_halts|]. done. }
  specialize (Hlate eq_refl).
  assert (stopping = true -> 0 <= p_shutdown s3) as Hsd.
  { intros ->. rewrite (proj2 M3), (proj2 M2). apply Hsp. }
  eapply halts_mono.
  { apply runs_halts, safe_halts; [by apply (work_turn eases (tm_eases Htm) _ no_sound cfg has_endpoint pushes_ok c0 q0 logged0 backoff0)|].
    by apply work_halts. }
  intros [r s4] [(-> & H4 & M4) _] _. split; [by eapply roomy_moved|].
  destruct M2 as [(a2 & _ & b2) e2], M3 as [(a3 & _ & b3) e3], M4 as [(a4 & _ & b4) e4].
  specialize (b2 (p_shutdown s2)). specialize (b3 (p_shutdown s2)). specialize (b4 (p_shutdown s2)).
  destruct R1 as (_ & _ & R1). unfold variant, now_world in *. rewrite e4, e3, e2 in *. destruct stopping.
  - destruct Hsp as (Hpos & Hor & (a1 & _ & b1)). specialize (Hlate eq_refl). specialize (R1 Hpos).
    replace (p_shutdown s1 <? 0) with false by lia. destruct (p_shutdown s <? 0) eqn:E; [lia|].
    destruct Hor as [?|Heq]; [lia|]. rewrite Heq in *. specialize (b1 (p_shutdown s)). lia.
  - destruct Hsp as (Heq & (a1 & _ & b1) & Hlt). rewrite Heq in *. specialize (b1 (p_shutdown s)).
    destruct (p_shutdown s <? 0); lia.
Qed.

Lemma loop_halts inner fuel : forall s, thread_ok s -> roomy inner s -> (variant s < fuel)%nat ->
  halts (producer_loop cfg inner fuel s) (fun _ => True).
Proof.
  induction fuel as [|fuel IH]; intros s Hs Hr Hf; [lia|]. cbn [producer_loop].
  apply halts_bind. eapply halts_mono.
  { apply runs_halts, safe_halts; [|by apply turn_halts].
    by apply (turn_safe eases (tm_eases Htm) _ no_sound cfg has_endpoint pushes_ok c0 q0 logged0 backoff0). }
  intros [[late|] s1] [H1 H2]; [done|]. destruct (H2 eq_refl) as [Hr1 Hv]. apply IH; [done|done|lia].
Qed.

(** Fuel: the reads of a clear stop flag, [B] reads of the clock and a few for
    the loop; the queue and the pushes to come for its final drain. *)
Definition fuel_enough (fuel : nat) (w : W) : Prop :=
  (stops w + B + 2 < fuel)%nat /\ (Z.to_nat (fifo_bound q0) + pushes w < fuel)%nat.

Lemma main_halts fuel calloc_ok w st : c0 = start_conn w st -> events_ok q0 -> fuel_enough fuel w ->
  halts (cf_redis_producer_thread_main cfg fuel calloc_ok w st q0) (fun r => calloc_ok = true -> r <> None).
Proof.
  intros E Hq [Hf1 Hf2]. unfold cf_redis_producer_thread_main. destruct calloc_ok; cbn [negb]; [|done].
  rewrite <- E. apply halts_bind. eapply halts_mono.
  { apply runs_halts, safe_halts; [by apply linked_spec|]. apply connect_halts; [done|].
    rewrite E. cbn [budget start_conn n_world]. lia. }
  intros [ok c] [Hc _].
  pose proof (ef_world _ _ _ _ _ _ (proj1 (proj1 Hc))) as (Hw1 & Hw2 & _).
  rewrite E in Hw1, Hw2. cbn [start_conn n_world] in Hw1, Hw2.
  apply halts_bind. eapply halts_mono; [apply loop_halts|].
  - by eapply (start_turn eases).
  - unfold roomy, now_world. cbn [start_producer p_conn p_shutdown]. split_and!; [lia|lia|done].
  - unfold variant, now_world. cbn [start_producer p_conn p_shutdown].
    change (-1 <? 0) with true. cbn iota. lia.
  - by intros [late s].
Qed.
End Timely.

Lemma start_ok {W : Type} (w : W) st : logged (start_conn w st) /\ backoff_ok (start_conn w st).
Proof. split; [by intros site|]. unfold backoff_ok. cbn. done. Qed.

#[export] Instance any_order {W : Type} : PreOrder (fun _ _ : W => True).
Proof. by split. Qed.

(** ** The properties *)

Section Properties.
Context {W : Type} {HW : World W} {R : Type} {HB : BoundedFifo R} {HG : GaugedFifo R}.
Variable cfg : cf_redis_producer_config_t.
Hypothesis has_endpoint : endpoints cfg <> [].
Hypothesis pushes_ok : forall w : W, Forall event_image (answer AskPushed w).1.



Variables (stops pushes : W -> nat) (reads : Z -> W -> nat) (B : nat).
Hypothesis Htm : timely stops pushes reads B.

(** C7. Termination: once the stop flag is set and the clock advances, the
    thread ends within its fuel, whatever Redis and the source do; unless the
    deadline passed its queue is empty. *)
Theorem producer_ends fuel calloc_ok (w : W) st (q : R) : events_ok q ->
  fuel_enough stops pushes B q fuel w ->
  runs (cf_redis_producer_thread_main cfg fuel calloc_ok w st q) (fun r =>
    if calloc_ok then exists late s, r = Some (late, s) /\ (late = false -> fifo_items (p_in s) = [])
    else r = None).
Proof.
  intros Hq Hf. destruct calloc_ok; [|done]. destruct (start_ok w st) as [Hlog Hb]. eapply runs_mono.
  { apply safe_halts.
    - by apply (main_safe (fun _ _ => True) (fun _ _ _ => I) (fun _ => False) no_sound cfg
        has_endpoint pushes_ok (start_conn w st) q Hlog Hb fuel true w st eq_refl).
    - by apply (main_halts stops pushes reads B Htm cfg has_endpoint pushes_ok (start_conn w st) q Hlog Hb
        fuel true w st eq_refl). }
  intros [[late s]|] [Hfin Hsome]; [|by destruct Hsome].
  exists late, s. split; [done|]. destruct Hfin as (_ & missed & _ & _ & _ & Hl). intros E. by destruct (Hl E).
Qed.

(** C6. Delivery: with a Redis whose connections work and accept every command,
    the thread ends, and unless the deadline passed every item it took, those
    queued at the start first, is in its stream, in order and once; only items
    without a stream are counted lost. *)
Theorem producer_delivers fuel (w : W) st (q : R) : events_ok q ->
  fuel_enough stops pushes B q fuel w ->
  (forall w : W, (answer AskReply w).1 = Some None) ->
  (forall a (w : W), (answer (AskAppend a) w).1 = true) ->
  runs (cf_redis_producer_thread_main cfg fuel true w st q) (fun r => exists late s, r = Some (late, s) /\
    (late = false -> fifo_items (p_in s) = [] /\ queued q `prefix_of` p_popped s /\
       n_acked (p_conn s) = commands cfg (p_popped s) /\
       total [events_lost_total] (n_stats (p_conn s)) =
         u64 (total [events_lost_total] st + (zlen (p_popped s) - zlen (commands cfg (p_popped s)))))).
Proof.
  intros Hq Hf Hreply Happend. destruct (start_ok w st) as [Hlog Hb].
  assert (forall w : W, True -> (answer AskReply w).1 = Some None /\ True /\ True /\
    forall a, (answer (AskAppend a) w).1 = true /\ True) as Hsound by done.
  eapply runs_mono.
  { apply safe_halts.
    - by apply (main_safe (fun _ _ => True) (fun _ _ _ => I) (fun _ => True) Hsound cfg
        has_endpoint pushes_ok (start_conn w st) q Hlog Hb fuel true w st eq_refl).
    - by apply (main_halts stops pushes reads B Htm cfg has_endpoint pushes_ok (start_conn w st) q Hlog Hb
        fuel true w st eq_refl). }
  intros [[late s]|] [Hfin Hsome]; [|by destruct Hsome]. exists late, s. split; [done|].
  destruct Hfin as ([_ _ Hfst] & missed & _ & _ & [_ _ Hh (lost & He & Hc)] & Hl).
  intros E. destruct (Hl E) as [_ Hqe]. unfold queued in Hfst. rewrite Hqe in Hfst. rewrite app_nil_r in Hfst.
  destruct (Hc E) as [Ha Hlost].
  { apply Hh; [by intros w'|]. intros site _ Hin. by apply not_elem_of_nil in Hin. }
  cbn [commands omap list_omap] in Ha. rewrite app_nil_r in Ha.
  split_and!; [done|done|done|]. rewrite (ef_lost _ _ _ _ _ _ He), Hlost. done.
Qed.
End Properties.


(** ** Endpoints *)

Lemma parse_endpoint_printed host port : host <> [] -> zlen host < 256 -> 0 < port <= 65535 ->
  parse_endpoint (host ++ 58 :: dec port) = Some (host, port).
Proof.
  intros Hh Hl Hp. unfold parse_endpoint. rewrite last_colon_app by (apply dec_no_colon; lia).
  rewrite bool_decide_eq_false_2 by done. replace (256 <=? zlen host) with false by lia. cbn [orb].
  rewrite strtol_dec by lia. by replace ((port <=? 0) || (65535 <? port)) with false by lia.
Qed.

(** The thread leaves as soon as it reads the stop flag set, its queue empty and
    nothing in flight: what the source pushes afterwards stays in the queue. *)
Lemma stop_leaves_at_once {W : Type} {HW : World W} {R : Type} {HB : BoundedFifo R} {HG : GaugedFifo R}
    cfg fuel (s : producer W R) (q0 : R) :
  (forall w : W, (answer AskStop w).1 = true) -> no_pushes (W := W) -> queue_ok q0 s ->
  fifo_items (p_in s) = [] -> p_inflight s = [] ->
  runs (producer_turn cfg fuel s) (fun '(r, s') => r = Some false /\ p_popped s' = p_popped s).
Proof.
  intros Hstop Hno Hq He Hi. unfold producer_turn.
  assert (exists s1, note_stop s = (true, s1) /\ queue_ok q0 s1 /\ fifo_items (p_in s1) = [] /\
    p_inflight s1 = [] /\ p_popped s1 = p_popped s) as (s1 & -> & Hq1 & He1 & Hi1 & Hp1).
  { unfold note_stop, pcall, call. specialize (Hstop (n_world (p_conn s))). destruct Hq.
    destruct (answer AskStop (n_world (p_conn s))) as [stop w1]. cbn [fst] in Hstop. subst stop. cbn [andb].
    destruct (_ <? 0); [destruct (answer AskMono _) as [now w2]|]; eexists; by split_and!. }
  unfold queue_done. rewrite Hi1. cbn [andb length Nat.eqb]. apply runs_bind, runs_bind. unfold queue_length.
  apply runs_bind. eapply runs_mono.
  { apply (arrivals_runs (fun _ _ => True) (fun _ _ _ => I)); [|exact Hq1]. intros w. rewrite Hno. constructor. }
  intros s2 (Hq2 & k & Hk & Hit & Hp2). pose proof (pu_k _ _ _ _ Hk) as Hlen. rewrite Hno in Hlen.
  destruct k; [|simpl in Hlen; lia]. rewrite app_nil_r, He1 in Hit. cbn [runs].
  rewrite (fifo_length_spec _ (proj1 (qk_events _ _ Hq2))), Hit. cbn [runs length Z.of_nat Z.eqb].
  split; [done|congruence].
Qed.

(** ** A world for the witnesses *)

(** The clock, in seconds; reads of the stop flag to come that find it clear;
    pushes to come of the sample item; whether the connection is broken. *)
Record sample_world := { sw_clock : N; sw_clear : nat; sw_pushes : nat; sw_broken : bool }.

Definition sample_item : cf_event_item_t :=
  {| it_observed_time_unix_nano := 1000; it_stream_id := CF_STREAM_DNS; it_protocol := CF_PROTO_DNS;
     it_event_type := bs "dns" ++ replicate 61 0; it_payload_len := 3;
     it_payload := [1; 2; 3] ++ replicate 8189 0 |}.
Definition sample_image : list Z := item_bytes sample_item.

(** [works]: replies come on a broken connection too. *)
Definition sample_answers (works : bool) : World sample_world := fun A q w =>
  let '{| sw_clock := t; sw_clear := n; sw_pushes := k; sw_broken := b |} := w in
  match q in ask A return A * sample_world with
  | AskStop => match n with
               | O => (true, w)
               | S n => (false, {| sw_clock := t; sw_clear := n; sw_pushes := k; sw_broken := b |}) end
  | AskMono => (Z.of_N t * 1000000000,
                {| sw_clock := t + 1; sw_clear := n; sw_pushes := k; sw_broken := b |})
  | AskSleepNs ns => (tt, w)
  | AskConnect host port => (true, {| sw_clock := t; sw_clear := n; sw_pushes := k; sw_broken := false |})
  | AskAppend a => (true, w)
  | AskReply => (if works || negb b then Some None else None, w)
  | AskPushed => match k with
                 | O => ([], w)
                 | S k => ([sample_image], {| sw_clock := t; sw_clear := n; sw_pushes := k; sw_broken := b |}) end
  end.

Definition sample_reads (d : Z) (w : sample_world) : nat :=
  Z.to_nat ((d - Z.of_N (sw_clock w) * 1000000000 + 999999999) / 1000000000).

Lemma sample_timely works : timely (HW := sample_answers works) sw_clear sw_pushes sample_reads 4.
Proof.
  assert (forall d t, (sample_reads d {| sw_clock := t + 1; sw_clear := 0; sw_pushes := 0; sw_broken := false |} =
    Z.to_nat ((d - Z.of_N t * 1000000000 + 999999999) / 1000000000 - 1))%nat) as Hr.
  { intros d t. unfold sample_reads. cbn [sw_clock]. f_equal.
    replace (d - Z.of_N (t + 1) * 1000000000 + 999999999)
      with (d - Z.of_N t * 1000000000 + 999999999 + (-1) * 1000000000) by lia.
    rewrite Z.div_add by done. lia. }
  constructor.
  - intros A q [t n k b]. destruct q; cbn [answer sample_answers snd].
    2: { split_and!; [done|done|]. intros d. specialize (Hr d t). unfold sample_reads in *.
         cbn [sw_clock] in *. lia. }
    1: destruct n.
    7: destruct k.
    all: split_and!; cbn [snd sw_clear sw_pushes]; intros; first [lia|apply Nat.le_refl].
  - intros [t [|n] k b]; cbn; [done|lia].
  - intros d [t n k b]. cbn. intros Ht. specialize (Hr d t). unfold sample_reads in *. cbn [sw_clock] in *.
    rewrite Hr. assert (1 <= (d - Z.of_N t * 1000000000 + 999999999) / 1000000000); [|lia].
    apply Z.div_le_lower_bound; lia.
  - intros [t n k b]. cbn. lia.
  - intros [t n k b]. cbn [answer sample_answers fst snd]. pose proof (Hr (Z.of_N t * 1000000000 + CF_REDIS_SHUTDOWN_DEADLINE_NS) t) as E.
    unfold sample_reads in *. cbn [sw_clock] in *. rewrite E. unfold CF_REDIS_SHUTDOWN_DEADLINE_NS.
    replace (_ + _) with (5 * 1000000000 + 999999999) by lia. vm_compute. lia.
  - intros [t n [|k] b]; cbn [answer sample_answers fst snd sw_pushes length]; lia.
Qed.

Definition sample_redis : cf_redis_producer_config_t :=
  {| endpoints := [bs "127.0.0.1:6379"]; maxlen_approx := 1000; pipeline_max := 2; flush_interval_ms := 100 |}.

Lemma sample_sendable : sendable sample_redis sample_item.
Proof. split; [by vm_compute; split|done]. Qed.

Lemma sample_item_ok : event_item_ok sample_item.
Proof. split; [by vm_compute|by vm_compute|by vm_compute|done]. Qed.

Lemma sample_image_ok : event_image sample_image.
Proof.
  destruct (item_roundtrip sample_item sample_item_ok) as [Hi Hl].
  split; [exact Hl|]. unfold sample_image. rewrite Hi. apply sample_sendable.
Qed.

Lemma sample_pushes_ok works (w : sample_world) : Forall event_image (@answer _ (sample_answers works) _ AskPushed w).1.
Proof. destruct w as [t n [|k] b]; [constructor|]. apply Forall_cons_2; [exact sample_image_ok|constructor]. Qed.

(** A queue for three events that holds one. *)
Definition empty_events : option cf_queue_t := snd (cf_queue_init true (Some null_queue) 4 SIZEOF_EVENT_ITEM).
Definition pushed_queue (q : option cf_queue_t) (b : list Z) : option cf_queue_t :=
  match fifo_push q b with Ret (_, q) => q | _ => None end.
Definition sample_events : option cf_queue_t := pushed_queue empty_events sample_image.

Lemma push_first q b : fifo_wf q -> fifo_element_size q = SIZEOF_EVENT_ITEM -> fifo_items q = [] ->
  event_image b -> events_ok (pushed_queue q b) /\ fifo_bound (pushed_queue q b) = fifo_bound q /\
  queued (pushed_queue q b) = [item_of_image b].
Proof.
  intros Hwf He Hi Hb. assert (zlen b = fifo_element_size q) as Hlen by (rewrite He; apply Hb).
  pose proof (fifo_push_spec q b Hwf Hlen) as Hp. pose proof (fifo_bound_pos q Hwf). unfold pushed_queue.
  destruct (fifo_push q b) as [[rc q']| |]; [|done..]. destruct Hp as (Hwf' & Hb' & He' & Hp).
  rewrite Hi in Hp. destruct (zlen (@nil (list Z)) <? fifo_bound q) eqn:E; [|change (0 <? fifo_bound q = false) in E; lia].
  destruct Hp as [_ Hq]. unfold queued. rewrite Hq. split_and!; [|done|done].
  split_and!; [done|congruence|]. rewrite Hq. by apply Forall_cons_2.
Qed.

Lemma queued_event_ok : events_ok sample_events /\ fifo_bound sample_events = 3 /\
  queued sample_events = [sample_item].
Proof.
  destruct (init_wf true null_queue 4 SIZEOF_EVENT_ITEM empty_events) as (Hwf & Hi & Hb & He); [done|done|].
  destruct (push_first empty_events sample_image Hwf He Hi sample_image_ok) as (H1 & H2 & H3).
  split; [exact H1|]. split; [etransitivity; [exact H2|exact Hb]|].
  etransitivity; [exact H3|]. unfold sample_image. by rewrite (proj1 (item_roundtrip sample_item sample_item_ok)).
Qed.

(** A run: three items, one queued and two pushed, in three flushes or fewer. *)
Definition sample_start (broken : bool) : sample_world :=
  {| sw_clock := 0; sw_clear := 6; sw_pushes := 2; sw_broken := broken |}.
Definition sample_run (works : bool) : exec (option (bool * producer sample_world (option cf_queue_t))) :=
  cf_redis_producer_thread_main (H := sample_answers works) sample_redis 30 true (sample_start false)
    (fun _ => 0) sample_events.

Example sample_run_ends :
  match sample_run true with
  | Ret (Some (late, s)) => (late, length (p_popped s), length (n_acked (p_conn s)),
                             n_stats (p_conn s) events_lost_total) = (false, 3%nat, 3%nat, 0)
  | _ => False
  end.
Proof. vm_compute. reflexivity. Qed.


Lemma sample_fuel : fuel_enough sw_clear sw_pushes 4 sample_events 30 (sample_start false).
Proof.
  unfold fuel_enough. rewrite (proj1 (proj2 queued_event_ok)). cbn [sample_start sw_clear sw_pushes]. lia.
Qed.

Lemma producer_ends_witness :
  exists late s, sample_run false = Ret (Some (late, s)) /\ (late = false -> fifo_items (p_in s) = []).
Proof.
  pose proof (producer_ends (HW := sample_answers false) sample_redis ltac:(done) (sample_pushes_ok false)
    sw_clear sw_pushes sample_reads 4 (sample_timely false) 30 true (sample_start false) (fun _ => 0)
    sample_events (proj1 queued_event_ok) sample_fuel) as Hr.
  apply runs_inv in Hr as (r & Hr & late & s & Hs & He). exists late, s. split; [|exact He].
  unfold sample_run. by rewrite Hr, Hs.
Defined.

Lemma producer_delivers_witness :
  runs (sample_run true) (fun r => exists late s, r = Some (late, s) /\
    (late = false -> [sample_item] `prefix_of` p_popped s /\
       n_acked (p_conn s) = commands sample_redis (p_popped s))).
Proof.
  eapply runs_mono.
  - apply (producer_delivers (HW := sample_answers true) sample_redis ltac:(done) (sample_pushes_ok true)
      sw_clear sw_pushes sample_reads 4 (sample_timely true) 30 (sample_start false) (fun _ => 0)
      sample_events (proj1 queued_event_ok) sample_fuel).
    + by intros [t n k b].
    + by intros a [t n k b].
  - intros r (late & s & Hr & Hd). exists late, s. split; [exact Hr|]. intros E.
    destruct (Hd E) as (_ & Hq & Ha & _). rewrite (proj2 (proj2 queued_event_ok)) in Hq. by split.
Defined.


