(* ===== verification/SinkWorld.v ===== *)
(** * SinkWorld: what a sink asks of the world, and its counters
    ([libs/cloudflow-sink-core/cf_sink_stats.c])

    A sink talks to an HTTP destination, a Redis server, the allocator, the
    clock and the stop flag.  Each such call is an [ask]; a [World] answers it
    and may change.  [log] records the calls and their answers in order: it is
    not a field of the program, it is what an observer of the process sees. *)

From Stdlib Require Export SpecFloat.
From S2P Require Import Prelude Hiredis.

(** ** Calls to the world *)

(** The allocation sites. *)
Inductive site :=
| at_body | at_poison_err | at_deadletter
| at_sink_buf | at_batch_grow | at_batch_stream | at_batch_id | at_batch_payload
| at_flush_items | at_flush_delivered | at_flush_poison | at_flush_errs
| at_argv | at_cursors | at_cursor.

Inductive ask : Type -> Type :=
| AskStop : ask bool
| AskMalloc (where_ : site) : ask bool
| AskMono : ask Z
| AskPost (body : list Z) : ask (Z * list Z)
| AskSleep (seconds : spec_float) : ask unit
| AskSleepNs (ns : Z) : ask unit
| AskRedis (argv : list (list Z)) : ask (option redisReply)
| AskConnErr : ask bool
| AskConnect (host : list Z) (port : Z) : ask bool
| AskPrint (line : list Z) : ask unit
| AskLogStats (line : list (list Z * Z)) : ask unit.

Inductive event :=
| EStop (b : bool)
| EMalloc (where_ : site) (ok : bool)
| EMono (now : Z)
| EPost (body : list Z) (status : Z) (errbuf : list Z)
| ESleep (seconds : spec_float)
| ESleepNs (ns : Z)
| ERedis (argv : list (list Z)) (reply : option redisReply)
| EConnErr (err : bool)
| EConnect (host : list Z) (port : Z) (ok : bool)
| EPrint (line : list Z)
| ELogStats (line : list (list Z * Z)).

Definition note {A} (q : ask A) : A -> event :=
  match q in ask A return A -> event with
  | AskStop => EStop
  | AskMalloc w => EMalloc w
  | AskMono => EMono
  | AskPost body => fun '(status, errbuf) => EPost body status errbuf
  | AskSleep d => fun _ => ESleep d
  | AskSleepNs d => fun _ => ESleepNs d
  | AskRedis argv => ERedis argv
  | AskConnErr => EConnErr
  | AskConnect host port => EConnect host port
  | AskPrint line => fun _ => EPrint line
  | AskLogStats line => fun _ => ELogStats line
  end.

Class World (W : Type) := answer : forall A, ask A -> W -> A * W.
Arguments answer {W _ A} q w.

(** ** Counters ([cf_sink_stats.h]) *)

Inductive sink_stat :=
| splunk_delivery_total | splunk_delivery_errors_total | splunk_retry_total | deadletter_total
| protobuf_decode_errors_total | splunk_batch_size_last | splunk_delivery_latency_ms_last
| redis_stream_lag.

#[export] Instance sink_stat_eq_dec : EqDecision sink_stat.
Proof. solve_decision. Defined.

Record cf_stats_t := { counter : sink_stat -> Z; last_emit_mono_ns : Z }.

(** [CF_ATOMIC_STORE], [CF_ATOMIC_ADD] and [CF_ATOMIC_INC] on an
    [unsigned long]. *)
Definition sst_store (c : sink_stat) (v : Z) (st : cf_stats_t) : cf_stats_t :=
  {| counter := fun c' => if decide (c' = c) then u64 v else counter st c';
     last_emit_mono_ns := last_emit_mono_ns st |}.
Definition sst_add (c : sink_stat) (n : Z) (st : cf_stats_t) : cf_stats_t :=
  sst_store c (counter st c + n) st.

(** ** The state every sink operation threads *)

Record sink (W : Type) := { world : W; log : list event; stats : cf_stats_t }.
Arguments world {W} s.
Arguments log {W} s.
Arguments stats {W} s.

Section Calls.
Context {W : Type} `{World W}.

Definition call {A} (q : ask A) (s : sink W) : A * sink W :=
  let '(a, w) := answer q (world s) in
  (a, {| world := w; log := log s ++ [note q a]; stats := stats s |}).

Definition with_stats (f : cf_stats_t -> cf_stats_t) (s : sink W) : sink W :=
  {| world := world s; log := log s; stats := f (stats s) |}.
Definition count_store (c : sink_stat) (v : Z) : sink W -> sink W := with_stats (sst_store c v).
Definition count_add (c : sink_stat) (n : Z) : sink W -> sink W := with_stats (sst_add c n).
Definition count_inc (c : sink_stat) : sink W -> sink W := count_add c 1.

(** ** [cf_sink_stats.c] *)

Definition cf_stats_init (s : sink W) : sink W :=
  let '(now, s) := call AskMono s in
  with_stats (fun _ => {| counter := fun _ => 0; last_emit_mono_ns := now |}) s.

(** The keys of the line and the counters they print. *)
Definition stats_line : list (string * sink_stat) :=
  [("splunk_delivery_total", splunk_delivery_total);
   ("splunk_delivery_errors_total", splunk_delivery_errors_total);
   ("splunk_retry_total", splunk_retry_total);
   ("deadletter_total", deadletter_total);
   ("protobuf_decode_errors_total", protobuf_decode_errors_total);
   ("splunk_batch_size", splunk_batch_size_last);
   ("splunk_delivery_latency_ms", splunk_delivery_latency_ms_last);
   ("redis_stream_lag", redis_stream_lag)].

Definition cf_stats_emit (s : sink W) : sink W :=
  let '(_, s) := call (AskLogStats (map (fun '(k, c) => (bs k, counter (stats s) c)) stats_line)) s in
  let '(now, s) := call AskMono s in
  with_stats (fun st => {| counter := counter st; last_emit_mono_ns := now |}) s.

Definition cf_stats_maybe_emit (interval_ms : Z) (s : sink W) : sink W :=
  let '(now, s) := call AskMono s in
  if interval_ms * 1000000 <=? now - last_emit_mono_ns (stats s) then cf_stats_emit s else s.

(** ** Observing a run *)

(** An event the world can answer. *)
Definition answered (e : event) : Prop :=
  exists A (q : ask A) (w : W), note q (fst (answer q w)) = e.

(** [s'] follows [s], the calls in between being [new]. *)
Definition grows (s : sink W) (new : list event) (s' : sink W) : Prop :=
  log s' = log s ++ new /\ Forall answered new.

Lemma grows_refl s : grows s [] s.
Proof. split; [by rewrite app_nil_r|done]. Qed.

Lemma grows_trans s1 n1 s2 n2 s3 : grows s1 n1 s2 -> grows s2 n2 s3 -> grows s1 (n1 ++ n2) s3.
Proof.
  intros [Ha Hn1] [Hb Hn2]. split; [by rewrite Hb, Ha, app_assoc|by apply Forall_app].
Qed.

Lemma grows_stats s n s' f : grows s n s' -> grows s n (with_stats f s').
Proof. done. Qed.

(** Everything known of one call. *)
Lemma call_eq {A} (q : ask A) s a s' : call q s = (a, s') ->
  answer q (world s) = (a, world s') /\ grows s [note q a] s' /\ stats s' = stats s.
Proof.
  unfold call, grows. destruct (answer q (world s)) as [a0 w] eqn:E. intros [= <- <-].
  split; [done|]. split; [|done]. split; [done|]. constructor; [|done].
  exists A, q, (world s). by rewrite E.
Qed.

Lemma answered_post b st e : answered (EPost b st e) -> exists w, fst (answer (AskPost b) w) = (st, e).
Proof.
  intros (A & q & w & E). destruct q; cbn [note] in E; try done.
  exists w. case_match eqn:Ew. by simplify_eq.
Qed.

Lemma answered_stop b : answered (EStop b) -> exists w, fst (answer AskStop w) = b.
Proof. intros (A & q & w & E). destruct q; cbn [note] in E; try done; [exists w; congruence|by case_match]. Qed.

(** The stop flag, once set, is read as set for ever. *)
Definition latched (w : W) : Prop :=
  exists I : W -> Prop, I w /\ (forall A (q : ask A) w, I w -> I (snd (answer q w))) /\
    forall w, I w -> fst (answer AskStop w) = true.

Lemma latched_answer {A} (q : ask A) w : latched w -> latched (snd (answer q w)).
Proof. intros (I & HI & Hs & Ht). exists I. auto. Qed.

Lemma latched_stop w : latched w -> fst (answer AskStop w) = true.
Proof. intros (I & HI & _ & Ht). auto. Qed.
End Calls.

Lemma counter_store c v st c' :
  counter (sst_store c v st) c' = if decide (c' = c) then u64 v else counter st c'.
Proof. done. Qed.

(** ** Counters over a run

    [tallied s f s']: each cumulative counter [c] grew by [f c] (as an
    [unsigned long]) from [s] to [s']; the other three are gauges. *)

Definition cumulative (c : sink_stat) : bool :=
  match c with
  | splunk_batch_size_last | splunk_delivery_latency_ms_last | redis_stream_lag => false
  | _ => true
  end.

Section Tallies.
Context {W : Type} `{World W}.
Implicit Types (s : sink W).

Definition tallied s (f : sink_stat -> Z) s' : Prop :=
  forall c, cumulative c = true -> u64 (counter (stats s') c) = u64 (counter (stats s) c + f c).

Lemma tallied_same s s' : stats s' = stats s -> tallied s (fun _ => 0) s'.
Proof. intros E c _. by rewrite E, Z.add_0_r. Qed.

Lemma tallied_trans s1 f s2 g s3 h :
  tallied s1 f s2 -> tallied s2 g s3 -> (forall c, h c = f c + g c) -> tallied s1 h s3.
Proof.
  intros H1 H2 Hh c Hc. rewrite Hh, (H2 c Hc), Z.add_assoc. by apply u64_congr, H1.
Qed.

Lemma tallied_add s c n : tallied s (fun c' => if decide (c' = c) then n else 0) (count_add c n s).
Proof.
  intros c' _. cbn. case_decide as E; [by subst; rewrite u64_u64|by rewrite Z.add_0_r].
Qed.

Lemma tallied_store s c v : cumulative c = false -> tallied s (fun _ => 0) (count_store c v s).
Proof.
  intros Hc c' Hc'. cbn. case_decide as E; [by subst; congruence|by rewrite Z.add_0_r].
Qed.
End Tallies.

(** How many events satisfy [p]. *)
Fixpoint tally (p : event -> bool) (l : list event) : Z :=
  match l with
  | [] => 0
  | e :: l => Z.b2z (p e) + tally p l
  end.

Lemma tally_app p a b : tally p (a ++ b) = tally p a + tally p b.
Proof. induction a as [|e a IH]; simpl; lia. Qed.

Lemma tally_none p l : Forall (fun e => p e = false) l -> tally p l = 0.
Proof. induction 1 as [|e l He _ IH]; simpl; [done|]. by rewrite He. Qed.

(** What a delivery client may do besides posting. *)
Definition private (e : event) : Prop :=
  match e with
  | ERedis _ _ | EConnect _ _ _ | EPrint _ | ELogStats _ => False
  | _ => True
  end.
Definition no_post (e : event) : Prop := match e with EPost _ _ _ => False | _ => True end.
