(* ===== verification/HttpDeliver.v ===== *)
(** * HttpDeliver: batched HTTP delivery
    ([libs/cloudflow-sink-core/cf_sink_httpdeliver.c])

    Retry with backoff, and bisection of a rejected batch.  [post_once], the
    sleep and the stop check are calls to the [World].  Seconds are binary64
    floats, as in the source.  [retries] bounds the retry loop of one range
    (the source's has no bound); running out is [Spin]. *)

From stdpp Require Import sets.
From S2P Require Import Prelude Hiredis SinkWorld.

(** ** Data *)

(** [line] is its bytes before the final NUL. *)
Record cf_batch_item_t := {
  bi_stream : list Z; bi_entry_id : list Z; bi_line : list Z; bi_payload : list Z
}.

(** The output arrays [delivered], [poison], [poison_errs]. *)
Record flags := {
  delivered : list Z; poison : list Z; poison_errs : list (option (list Z))
}.

Definition CF_DELIVER_BODY_PREFIX_MAX : Z := 200.

Definition f64_of (z : Z) : spec_float := binary_normalize 53 1024 z 0 false.
Definition CF_DELIVER_BACKOFF_INITIAL_S : spec_float := f64_of 1.
Definition CF_DELIVER_BACKOFF_MAX_S : spec_float := f64_of 30.
(** The double nearest to 0.05. *)
Definition CF_DELIVER_SLEEP_SLICE_S : spec_float := S754_finite false 7205759403792794 (-57).

Definition SLEEP_FUEL : nat := 1024.

Section Deliver.
Context {W : Type} `{World W}.
Implicit Types (s : sink W).

(** ** The body *)

Definition item_line (it : cf_batch_item_t) : list Z := c_str (bi_line it).

(** [items[lo..lo+count)]. *)
Definition rd_items (items : list cf_batch_item_t) (lo count : Z) : exec (list cf_batch_item_t) :=
  if (0 <=? lo) && (0 <=? count) && (lo + count <=? zlen items)
  then Ret (slice items lo count) else Oob.

Definition body_total (its : list cf_batch_item_t) : Z :=
  foldl (fun total it => u64 (total + (zlen (item_line it) + 1))) 0 its.

(** The copy loop: the buffer, [o], and whether this is the first line. *)
Fixpoint body_loop (its : list cf_batch_item_t) (first : bool) (body : list Z) (o : Z)
    : exec (list Z * Z) :=
  match its with
  | [] => Ret (body, o)
  | it :: its =>
      '(body, o) ← (if first then Ret (body, o)
                    else body ← wr_n body o [10]; Ret (body, o + 1));
      body ← wr_n body o (item_line it);
      body_loop its false body (o + zlen (item_line it))
  end.

(** The body, [None] when [malloc] failed. *)
Definition build_body (items : list cf_batch_item_t) (lo count : Z) (s : sink W)
    : exec (option (list Z) * sink W) :=
  its ← rd_items items lo count;
  let total := body_total its in
  let total := if total =? 0 then 1 else total in
  let '(ok, s) := call (AskMalloc at_body) s in
  if negb ok then Ret (None, s)
  else
    '(body, o) ← body_loop its true (replicate (Z.to_nat total) 0) 0;
    body ← rd_n body 0 o;
    Ret (Some body, s).

(** ** Backoff *)

Fixpoint sleep_loop (fuel : nat) (remaining : spec_float) (s : sink W) : exec (sink W) :=
  match fuel with
  | O => Spin
  | S fuel =>
      if SFltb (S754_zero false) remaining then
        let '(stop, s) := call AskStop s in
        if (stop : bool) then Ret s
        else
          let chunk := if SFltb remaining CF_DELIVER_SLEEP_SLICE_S then remaining
                       else CF_DELIVER_SLEEP_SLICE_S in
          let '(_, s) := call (AskSleep chunk) s in
          sleep_loop fuel (SFsub 53 1024 remaining chunk) s
      else Ret s
  end.

Definition deliver_sleep (seconds : spec_float) (s : sink W) : exec (sink W) :=
  sleep_loop SLEEP_FUEL seconds s.

Definition next_backoff (backoff : spec_float) : spec_float :=
  let twice := SFmul 53 1024 backoff (f64_of 2) in
  if SFltb CF_DELIVER_BACKOFF_MAX_S twice then CF_DELIVER_BACKOFF_MAX_S else twice.

(** ** One range *)

(** How the loop over one range ends. *)
Inductive verdict :=
| Abandoned
| Accepted
| Rejected (status : Z) (body_prefix : list Z).

Definition success (status : Z) : bool := (200 <=? status) && (status <? 300).
Definition retryable (status : Z) : bool := (status <=? 0) || (status =? 429) || (500 <=? status).

(** The counters of a 2xx. *)
Definition count_success (t0 t1 count : Z) (s : sink W) : sink W :=
  count_store splunk_batch_size_last count
    (count_add splunk_delivery_total count
       (count_store splunk_delivery_latency_ms_last ((t1 - t0) ÷ 1000000) s)).

Fixpoint post_loop (retries : nat) (items : list cf_batch_item_t) (lo count : Z)
    (backoff : spec_float) (s : sink W) : exec (verdict * spec_float * sink W) :=
  match retries with
  | O => Spin
  | S retries =>
      let '(stop, s) := call AskStop s in
      if (stop : bool) then Ret (Abandoned, backoff, s)
      else
        '(body, s) ← build_body items lo count s;
        match body with
        | None =>
            let s := count_inc splunk_retry_total s in
            s ← deliver_sleep backoff s;
            post_loop retries items lo count (next_backoff backoff) s
        | Some body =>
            let '(t0, s) := call AskMono s in
            let '((status, errbuf), s) := call (AskPost body) s in
            let body_prefix := take (Z.to_nat CF_DELIVER_BODY_PREFIX_MAX) (c_str errbuf) in
            let '(t1, s) := call AskMono s in
            if success status then Ret (Accepted, backoff, count_success t0 t1 count s)
            else if retryable status then
              let s := count_inc splunk_delivery_errors_total (count_inc splunk_retry_total s) in
              s ← deliver_sleep backoff s;
              post_loop retries items lo count (next_backoff backoff) s
            else Ret (Rejected status body_prefix, backoff, s)
        end
  end.

(** ** The recursion *)

(** [a[i] = v]. *)
Definition set_at {A} (i : Z) (v : A) (l : list A) : exec (list A) :=
  if (0 <=? i) && (i <? zlen l) then Ret (<[Z.to_nat i := v]> l) else Oob.

Fixpoint mark_delivered (count : nat) (lo i : Z) (f : flags) : exec flags :=
  match count with
  | O => Ret f
  | S count =>
      d ← set_at (lo + i) 1 (delivered f);
      mark_delivered count lo (i + 1)
        {| delivered := d; poison := poison f; poison_errs := poison_errs f |}
  end.

Definition mark_poison (lo : Z) (err : option (list Z)) (f : flags) : exec flags :=
  p ← set_at lo 1 (poison f);
  e ← set_at lo err (poison_errs f);
  Ret {| delivered := delivered f; poison := p; poison_errs := e |}.

(** ["HTTP %ld: %s"] in a buffer of 264 bytes. *)
Definition poison_message (status : Z) (body_prefix : list Z) : list Z :=
  take 263 (bs "HTTP " ++ dec status ++ bs ": " ++ body_prefix).

Fixpoint send_range (depth retries : nat) (items : list cf_batch_item_t) (lo count : Z)
    (backoff : spec_float) (f : flags) (s : sink W) : exec (flags * sink W) :=
  match depth with
  | O => Spin
  | S depth =>
      if count =? 0 then Ret (f, s)
      else
        '(v, backoff, s) ← post_loop retries items lo count backoff s;
        match v with
        | Abandoned => Ret (f, s)
        | Accepted => f ← mark_delivered (Z.to_nat count) lo 0 f; Ret (f, s)
        | Rejected status body_prefix =>
            let s := count_inc splunk_delivery_errors_total s in
            if count =? 1 then
              let '(ok, s) := call (AskMalloc at_poison_err) s in
              f ← mark_poison lo (if (ok : bool) then Some (poison_message status body_prefix)
                                  else None) f;
              Ret (f, s)
            else
              let mid := count / 2 in
              '(f, s) ← send_range depth retries items lo mid backoff f s;
              send_range depth retries items (lo + mid) (count - mid) backoff f s
        end
  end.

Fixpoint reset_flags (n : nat) (i : Z) (f : flags) : exec flags :=
  match n with
  | O => Ret f
  | S n =>
      d ← set_at i 0 (delivered f);
      p ← set_at i 0 (poison f);
      e ← set_at i None (poison_errs f);
      reset_flags n (i + 1) {| delivered := d; poison := p; poison_errs := e |}
  end.

Definition cf_sink_http_deliver_batched (retries : nat) (items : list cf_batch_item_t) (n : Z)
    (f : flags) (s : sink W) : exec (flags * sink W) :=
  f ← reset_flags (Z.to_nat n) 0 f;
  if n =? 0 then Ret (f, s)
  else send_range (S (Z.to_nat n)) retries items 0 n CF_DELIVER_BACKOFF_INITIAL_S f s.
(** ** The body of a range *)

(** Lines joined by newlines. *)
Fixpoint join_lines (ls : list (list Z)) : list Z :=
  match ls with
  | [] => []
  | [l] => l
  | l :: ls => l ++ 10 :: join_lines ls
  end.

Definition body_of (items : list cf_batch_item_t) (lo count : Z) : list Z :=
  join_lines (map item_line (slice items lo count)).

(** Room for each line and its separator. *)
Definition room (its : list cf_batch_item_t) : Z :=
  foldr (fun it n => zlen (item_line it) + 1 + n) 0 its.

Lemma room_nonneg its : 0 <= room its.
Proof. induction its; simpl; lia. Qed.

Lemma room_app a b : room (a ++ b) = room a + room b.
Proof. induction a; simpl; lia. Qed.

Lemma room_slice its lo count : room (slice its lo count) <= room its.
Proof.
  rewrite <- (take_drop (Z.to_nat lo) its) at 2. rewrite room_app.
  rewrite <- (take_drop (Z.to_nat count) (drop (Z.to_nat lo) its)) at 1. rewrite room_app.
  pose proof (room_nonneg (take (Z.to_nat lo) its)).
  pose proof (room_nonneg (drop (Z.to_nat count) (drop (Z.to_nat lo) its))).
  unfold slice. lia.
Qed.

Lemma body_total_room its : room its < 2 ^ 64 -> body_total its = room its.
Proof.
  unfold body_total. intros Hr.
  cut (forall acc, 0 <= acc -> acc + room its < 2 ^ 64 ->
         foldl (fun total it => u64 (total + (zlen (item_line it) + 1))) acc its = acc + room its).
  { intros Hc. by rewrite Hc by lia. }
  clear Hr. induction its as [|it its IH]; intros acc Ha Hr; simpl in *; [lia|].
  pose proof (room_nonneg its). rewrite u64_id by lia. rewrite IH by lia. lia.
Qed.

(** What the loop has written after the first line. *)
Definition tail_lines (ls : list (list Z)) : list Z := concat (map (cons 10) ls).

Lemma join_lines_cons l ls : join_lines (l :: ls) = l ++ tail_lines ls.
Proof.
  revert l. induction ls as [|l' ls IH]; intros l; [by rewrite app_nil_r|].
  change (join_lines (l :: l' :: ls)) with (l ++ 10 :: join_lines (l' :: ls)).
  by rewrite IH.
Qed.

(** Writing at the end of what has been written. *)
Lemma wr_n_end pre rest src : zlen src <= zlen rest ->
  wr_n (pre ++ rest) (zlen pre) src = Ret ((pre ++ src) ++ drop (length src) rest).
Proof.
  intros Hl. rewrite wr_n_ok by (rewrite ?length_app; lia). f_equal. unfold splice.
  rewrite Nat2Z.id, take_app_length, drop_app_add, <- app_assoc. done.
Qed.

Lemma body_loop_tail its : forall pre rest, room its <= zlen rest ->
  exists rest', body_loop its false (pre ++ rest) (zlen pre) =
    Ret ((pre ++ tail_lines (map item_line its)) ++ rest',
         zlen (pre ++ tail_lines (map item_line its))).
Proof.
  induction its as [|it its IH]; intros pre rest Hr; cbn [body_loop map tail_lines concat].
  { exists rest. by rewrite app_nil_r. }
  simpl in Hr. pose proof (room_nonneg its). unfold tail_lines in *. cbn [map concat].
  rewrite wr_n_end by (simpl; lia). xbind.
  replace (zlen pre + 1) with (zlen (pre ++ [10])) by (rewrite length_app; simpl; lia).
  rewrite wr_n_end by (rewrite length_drop; simpl; lia). xbind.
  replace (zlen (pre ++ [10]) + _) with (zlen ((pre ++ [10]) ++ item_line it))
    by (rewrite !length_app; lia).
  destruct (IH ((pre ++ [10]) ++ item_line it) (drop (length (item_line it)) (drop (length [10]) rest)))
    as [rest' E].
  { rewrite !length_drop. simpl. lia. }
  exists rest'. rewrite E. by rewrite <- !app_assoc.
Qed.

Lemma body_loop_join its rest : room its <= zlen rest ->
  exists rest', body_loop its true rest 0 =
    Ret (join_lines (map item_line its) ++ rest', zlen (join_lines (map item_line its))).
Proof.
  destruct its as [|it its]; intros Hr; [by exists rest|].
  simpl in Hr. pose proof (room_nonneg its). cbn [body_loop map]. xbind.
  change rest with ([] ++ rest) at 1. change 0 with (zlen (@nil Z)) at 1.
  rewrite wr_n_end by lia. xbind. rewrite join_lines_cons. rewrite Z.add_0_l.
  apply (body_loop_tail its (item_line it)). rewrite length_drop. lia.
Qed.

(** The body is the join of the lines, unless the allocation failed. *)
Lemma build_body_eq items lo count s :
  0 <= lo -> 0 <= count -> lo + count <= zlen items -> room items < 2 ^ 64 ->
  build_body items lo count s =
    (let '(ok, s) := call (AskMalloc at_body) s in
     Ret (if ok : bool then Some (body_of items lo count) else None, s)).
Proof.
  intros Hlo Hc Hl Hr. unfold build_body, rd_items.
  replace ((0 <=? lo) && _ && _) with true by lia. xbind.
  pose proof (room_slice items lo count) as Hs. pose proof (room_nonneg (slice items lo count)).
  rewrite body_total_room by lia.
  destruct (call (AskMalloc at_body) s) as [[|] s']; cbn [negb]; [|done].
  destruct (body_loop_join (slice items lo count)
    (replicate (Z.to_nat (if room (slice items lo count) =? 0 then 1
                          else room (slice items lo count))) 0)) as [rest' E].
  { rewrite length_replicate. case_match; lia. }
  rewrite E. xbind. rewrite rd_n_ok by (rewrite ?length_app; lia). xbind.
  by rewrite slice_app_l, slice_all by lia.
Qed.

(** ** Sleeping *)

(** The slices a backoff is cut into when no stop comes. *)
Fixpoint slices (fuel : nat) (remaining : spec_float) : option (list spec_float) :=
  match fuel with
  | O => None
  | S fuel =>
      if SFltb (S754_zero false) remaining then
        let chunk := if SFltb remaining CF_DELIVER_SLEEP_SLICE_S then remaining
                     else CF_DELIVER_SLEEP_SLICE_S in
        cons chunk <$> slices fuel (SFsub 53 1024 remaining chunk)
      else Some []
  end.

(** The six values a backoff takes. *)
Definition levels : list spec_float := map f64_of [1; 2; 4; 8; 16; 30].

Definition is_level (b : spec_float) : Prop := In b levels.

Lemma level_sliced b : is_level b -> exists l, slices SLEEP_FUEL b = Some l.
Proof.
  unfold is_level, levels. cbn [map In]. intros Hb.
  repeat destruct Hb as [<-|Hb]; [..|done]; eexists; vm_compute; reflexivity.
Qed.

Lemma level_next b : is_level b -> is_level (next_backoff b).
Proof.
  unfold is_level, levels. cbn [map In]. intros Hb.
  repeat destruct Hb as [<-|Hb]; [..|done]; vm_compute; tauto.
Qed.

Lemma level_initial : is_level CF_DELIVER_BACKOFF_INITIAL_S.
Proof. vm_compute. tauto. Qed.

(** A sleep only sleeps and reads the stop flag: the slices in order, cut
    short only by a stop. *)
Definition sleeps (l : list event) : list spec_float :=
  omap (fun e => match e with ESleep d => Some d | _ => None end) l.
Definition drowsy (e : event) : Prop :=
  match e with EStop _ | ESleep _ => True | _ => False end.

Lemma sleep_loop_runs fuel : forall r l s, slices fuel r = Some l ->
  runs (sleep_loop fuel r s) (fun s' => exists new, grows s new s' /\ stats s' = stats s /\
    Forall drowsy new /\ (sleeps new = l \/ EStop true ∈ new /\ sleeps new `prefix_of` l)).
Proof.
  induction fuel as [|fuel IH]; intros r l s E; [done|]. cbn [sleep_loop slices] in *.
  destruct (SFltb _ r).
  - set (chunk := if SFltb r _ then _ else _) in *.
    destruct (slices fuel (SFsub 53 1024 r chunk)) as [l0|] eqn:El; [|done]. injection E as <-.
    destruct (call AskStop s) as [stop s1] eqn:C1. apply call_eq in C1 as (_ & G1 & T1).
    destruct stop.
    + exists [EStop true]. split; [done|]. split; [done|]. split; [by repeat constructor|].
      right. split; [by left|]. apply prefix_nil.
    + destruct (call (AskSleep chunk) s1) as [u s2] eqn:C2. apply call_eq in C2 as (_ & G2 & T2).
      eapply runs_mono; [by apply (IH _ _ s2 El)|]. intros s' (new & G & T & Hd & Hl).
      exists ([EStop false] ++ [ESleep chunk] ++ new).
      split; [eauto using grows_trans|]. split; [congruence|].
      split; [by repeat constructor|]. cbn [sleeps omap list_omap app].
      destruct Hl as [Hl|[Hs Hp]]; [left; by rewrite <- Hl|right].
      split; [by do 2 right|by apply prefix_cons].
  - injection E as <-. exists []. split; [apply grows_refl|]. split; [done|]. split; [done|]. by left.
Qed.

Lemma deliver_sleep_slices b l s : slices SLEEP_FUEL b = Some l ->
  runs (deliver_sleep b s) (fun s' => exists new, grows s new s' /\ stats s' = stats s /\
    Forall drowsy new /\ (sleeps new = l \/ EStop true ∈ new /\ sleeps new `prefix_of` l)).
Proof. apply sleep_loop_runs. Qed.

Lemma deliver_sleep_runs b s : is_level b ->
  runs (deliver_sleep b s) (fun s' => exists new, grows s new s' /\ stats s' = stats s /\
    Forall drowsy new).
Proof.
  intros Hb. destruct (level_sliced b Hb) as [l El].
  eapply runs_mono; [by apply deliver_sleep_slices|]. intros s' (new & ? & ? & ? & _). eauto.
Qed.

#[local] Opaque deliver_sleep next_backoff.

(** ** One range: what its calls do *)

(** A failed attempt that is tried again, and an answer other than 2xx. *)
Definition retry_event (e : event) : bool :=
  match e with
  | EPost _ status _ => negb (success status) && retryable status
  | EMalloc at_body ok => negb ok
  | _ => false
  end.
Definition error_event (e : event) : bool :=
  match e with EPost _ status _ => negb (success status) | _ => false end.

(** An answer that ends the loop over a range. *)
Definition final_event (e : event) : bool :=
  match e with EPost _ status _ => success status || negb (retryable status) | _ => false end.

Lemma final_drowsy new : Forall drowsy new -> tally final_event new = 0.
Proof. intros Hd. apply tally_none. eapply list.Forall_impl; [exact Hd|]. by intros []. Qed.

(** The growth of the counters over the calls [new], [d] items being
    delivered. *)
Definition tallies (new : list event) (d : Z) (c : sink_stat) : Z :=
  match c with
  | splunk_retry_total => tally retry_event new
  | splunk_delivery_errors_total => tally error_event new
  | splunk_delivery_total => d
  | _ => 0
  end.

Lemma tallies_app a b da db c : tallies (a ++ b) (da + db) c = tallies a da c + tallies b db c.
Proof. destruct c; cbn [tallies]; rewrite ?tally_app; lia. Qed.

Lemma tallies_drowsy new c : Forall drowsy new -> tallies new 0 c = 0.
Proof.
  intros Hd. destruct c; cbn [tallies]; try done; apply tally_none;
    (eapply list.Forall_impl; [exact Hd|]); by intros [].
Qed.

Lemma tallied_seq s1 n1 d1 s2 n2 d2 s3 : tallied s1 (tallies n1 d1) s2 ->
  tallied s2 (tallies n2 d2) s3 -> tallied s1 (tallies (n1 ++ n2) (d1 + d2)) s3.
Proof. intros H1 H2. eapply tallied_trans; [exact H1|exact H2|]. intros c. apply tallies_app. Qed.

Lemma tallied_quiet s new s' : stats s' = stats s -> (forall c, tallies new 0 c = 0) ->
  tallied s (tallies new 0) s'.
Proof. intros E Hq c Hc. rewrite Hq. by apply tallied_same. Qed.

(** The body of [new]'s posts. *)
Definition posts_only (body : list Z) (e : event) : Prop :=
  match e with EPost b _ _ => b = body | _ => private e end.

Lemma drowsy_posts body new : Forall drowsy new -> Forall (posts_only body) new.
Proof. intros Hd. eapply list.Forall_impl; [exact Hd|]. by intros []. Qed.

Definition prefix_200 (errbuf : list Z) : list Z :=
  take (Z.to_nat CF_DELIVER_BODY_PREFIX_MAX) (c_str errbuf).

Definition judged (body : list Z) (v : verdict) (new : list event) : Prop :=
  match v with
  | Abandoned => EStop true ∈ new
  | Accepted => exists status errbuf, EPost body status errbuf ∈ new /\ success status = true
  | Rejected status p => exists errbuf, EPost body status errbuf ∈ new /\
      success status = false /\ retryable status = false /\ p = prefix_200 errbuf
  end.

Lemma judged_app body v a b : judged body v b -> judged body v (a ++ b).
Proof. destruct v; cbn; setoid_rewrite elem_of_app; naive_solver. Qed.

(** The state with the rejection counted, as the caller does next. *)
Definition after (v : verdict) (s : sink W) : sink W :=
  match v with Rejected _ _ => count_inc splunk_delivery_errors_total s | _ => s end.
Definition accepted_count (v : verdict) (count : Z) : Z :=
  match v with Accepted => count | _ => 0 end.

Definition post_result items lo count s : verdict * spec_float * sink W -> Prop :=
  fun '(v, b, s') => exists new, grows s new s' /\ is_level b /\
    judged (body_of items lo count) v new /\
    Forall (posts_only (body_of items lo count)) new /\ tally final_event new <= 1 /\
    tallied s (tallies new (accepted_count v count)) (after v s').

(** A failed attempt before the rest of the loop. *)
Lemma post_result_retry items lo count s new s1 r : grows s new s1 ->
  Forall (posts_only (body_of items lo count)) new -> tally final_event new = 0 -> tallied s (tallies new 0) s1 ->
  post_result items lo count s1 r -> post_result items lo count s r.
Proof.
  destruct r as [[v b] s']. intros G Hp Hf T (new' & G' & Hb & Hj & Hp' & Hf' & T').
  exists (new ++ new'). split; [by eapply grows_trans|]. split; [done|].
  split; [by apply judged_app|]. split; [by apply Forall_app|].
  split; [rewrite tally_app; lia|].
  by apply (tallied_seq _ _ 0 _ _ (accepted_count v count) _ T T').
Qed.

Lemma wait_retry items lo count s new b s1 (k : sink W -> exec (verdict * spec_float * sink W)) :
  is_level b -> grows s new s1 -> Forall (posts_only (body_of items lo count)) new ->
  tally final_event new = 0 -> tallied s (tallies new 0) s1 ->
  (forall s2, safe (k s2) (post_result items lo count s2)) ->
  safe (s2 ← deliver_sleep b s1; k s2) (post_result items lo count s).
Proof.
  intros Hb G Hp Hf T Hk. apply safe_bind.
  eapply safe_mono; [apply runs_safe, (deliver_sleep_runs b s1 Hb)|].
  intros s2 (zs & Gz & Tz & Hd). eapply safe_mono; [apply Hk|]. intros r Hr.
  eapply post_result_retry; [exact G|done|done|exact T|].
  eapply post_result_retry; [exact Gz|by apply drowsy_posts|by apply final_drowsy| |exact Hr].
  apply tallied_quiet; [done|]. intros c. by apply tallies_drowsy.
Qed.

Lemma tallied_inc s c : tallied s (fun c' => if decide (c' = c) then 1 else 0) (count_inc c s).
Proof. apply tallied_add. Qed.

Lemma tallied_success t0 t1 count s :
  tallied s (fun c => if decide (c = splunk_delivery_total) then count else 0)
    (count_success t0 t1 count s).
Proof.
  eapply tallied_trans; [|by apply tallied_store|intros c; by rewrite Z.add_0_r].
  eapply tallied_trans; [|apply tallied_add|intros c; symmetry; apply Z.add_0_l].
  by apply tallied_store.
Qed.

Lemma post_loop_spec retries : forall items lo count b s,
  0 <= lo -> 0 <= count -> lo + count <= zlen items -> room items < 2 ^ 64 -> is_level b ->
  safe (post_loop retries items lo count b s) (post_result items lo count s).
Proof.
  induction retries as [|retries IH]; intros items lo count b s Hlo Hc Hl Hr Hb; [done|].
  cbn [post_loop]. destruct (call AskStop s) as [stop s1] eqn:C1.
  apply call_eq in C1 as (_ & G1 & T1). destruct stop.
  { exists [EStop true]. split; [done|]. split; [done|]. split; [by left|].
    split; [by repeat constructor|]. split; [done|]. apply tallied_quiet; [done|]. by intros []. }
  rewrite build_body_eq by done.
  destruct (call (AskMalloc at_body) s1) as [ok s2] eqn:C2. apply call_eq in C2 as (_ & G2 & T2).
  destruct ok; apply safe_bind, safe_ret; cbv beta iota.
  2: { eapply (wait_retry _ _ _ _ ([EStop false] ++ [EMalloc at_body false])); [done|..].
    - apply grows_stats. exact (grows_trans _ _ _ _ _ G1 G2).
    - by repeat constructor.
    - done.
    - eapply tallied_trans; [apply tallied_same|apply tallied_inc|]; [congruence|]. by intros [].
    - intros s3. apply IH; eauto using level_next. }
  destruct (call AskMono s2) as [t0 s3] eqn:C3. apply call_eq in C3 as (_ & G3 & T3).
  destruct (call (AskPost _) s3) as [[status errbuf] s4] eqn:C4. apply call_eq in C4 as (_ & G4 & T4).
  destruct (call AskMono s4) as [t1 s5] eqn:C5. apply call_eq in C5 as (_ & G5 & T5).
  set (new := [EStop false] ++ [EMalloc at_body true] ++ [EMono t0] ++
              [EPost (body_of items lo count) status errbuf] ++ [EMono t1]).
  assert (grows s new s5) as G.
  { repeat (eapply grows_trans; [eassumption|]). done. }
  assert (stats s5 = stats s) as E by congruence.
  assert (EPost (body_of items lo count) status errbuf ∈ new) as Hin by (do 3 right; by left).
  assert (Forall (posts_only (body_of items lo count)) new) as Hp by (by repeat constructor).
  destruct (success status) eqn:Hs; [|destruct (retryable status) eqn:Hy].
  - exists new. split; [by do 3 apply grows_stats|]. split; [done|]. split; [by exists status, errbuf|].
    split; [done|]. split; [cbn; rewrite Hs; done|].
    eapply tallied_trans; [by apply tallied_same|apply tallied_success|].
    intros []; cbn [tallies accepted_count tally new app error_event retry_event]; rewrite ?Hs; done.
  - eapply (wait_retry _ _ _ _ new); [done|by do 2 apply grows_stats|done| | |].
    + cbn. by rewrite Hs, Hy.
    + eapply tallied_trans; [by apply tallied_same| |intros c; symmetry; apply Z.add_0_l].
      eapply tallied_trans; [apply tallied_inc|apply tallied_inc|].
      intros []; cbn [tallies tally new app error_event retry_event]; rewrite ?Hs, ?Hy; done.
    + intros s6. apply IH; eauto using level_next.
  - exists new. split; [done|]. split; [done|]. split; [by exists errbuf|]. split; [done|].
    split; [cbn; rewrite Hs, Hy; done|]. eapply tallied_trans; [by apply tallied_same|apply tallied_inc|].
    intros []; cbn [tallies tally new app error_event retry_event]; rewrite ?Hs, ?Hy; done.
Qed.

(** ** The output arrays *)

Definition flags_len (n : Z) (f : flags) : Prop :=
  zlen (delivered f) = n /\ zlen (poison f) = n /\ zlen (poison_errs f) = n.

(** The three entries of item [i]. *)
Definition entry (f : flags) (i : Z) : option Z * option Z * option (option (list Z)) :=
  (delivered f !! Z.to_nat i, poison f !! Z.to_nat i, poison_errs f !! Z.to_nat i).

Definition untouched : option Z * option Z * option (option (list Z)) :=
  (Some 0, Some 0, Some None).

Lemma set_at_ok {A} i (v : A) l : 0 <= i < zlen l -> set_at i v l = Ret (<[Z.to_nat i := v]> l).
Proof. intros Hi. unfold set_at. by replace (_ && _) with true by lia. Qed.

Lemma set_at_entry {A} i (v : A) l j : 0 <= i < zlen l -> 0 <= j ->
  <[Z.to_nat i := v]> l !! Z.to_nat j = if decide (i = j) then Some v else l !! Z.to_nat j.
Proof.
  intros Hi Hj. case_decide as E; [subst; apply list_lookup_insert_eq; lia|].
  apply list_lookup_insert_ne. lia.
Qed.

(** How many of [lo..lo+count) are delivered. *)
Definition delivered_in (f : flags) (lo count : Z) : Z :=
  foldr Z.add 0 (slice (delivered f) lo count).

Lemma delivered_in_split f lo a b : 0 <= lo -> 0 <= a -> 0 <= b ->
  delivered_in f lo (a + b) = delivered_in f lo a + delivered_in f (lo + a) b.
Proof.
  intros Hl Ha Hb. unfold delivered_in, slice.
  replace (Z.to_nat (lo + a)) with (Z.to_nat lo + Z.to_nat a)%nat by lia. rewrite <- drop_drop.
  generalize (drop (Z.to_nat lo) (delivered f)). intros l.
  replace (Z.to_nat (a + b)) with (Z.to_nat a + Z.to_nat b)%nat by lia.
  revert l. induction (Z.to_nat a) as [|m IH]; intros [|x l]; cbn [plus take drop foldr]; try lia.
  - by rewrite take_nil.
  - rewrite IH. lia.
Qed.

Lemma delivered_in_ext f g lo count : 0 <= lo ->
  (forall j, lo <= j < lo + count -> entry f j = entry g j) ->
  delivered_in f lo count = delivered_in g lo count.
Proof.
  intros Hl He. unfold delivered_in. f_equal. apply list_eq. intros k. unfold slice.
  destruct (decide (k < Z.to_nat count)%nat).
  - rewrite !lookup_take_lt, !lookup_drop by done. pose proof (He (lo + Z.of_nat k)) as E.
    unfold entry in E. replace (Z.to_nat (lo + Z.of_nat k)) with (Z.to_nat lo + k)%nat in E by lia.
    assert (lo <= lo + Z.of_nat k < lo + count) as Hr by lia. apply E in Hr. congruence.
  - by rewrite !lookup_take_ge by lia.
Qed.

Lemma delivered_in_const f lo count v : 0 <= lo -> 0 <= count ->
  (forall j, lo <= j < lo + count -> delivered f !! Z.to_nat j = Some v) ->
  delivered_in f lo count = v * count.
Proof.
  intros Hl Hc He. unfold delivered_in.
  replace (slice (delivered f) lo count) with (replicate (Z.to_nat count) v).
  { rewrite <- (Z2Nat.id count) at 2 by done. generalize (Z.to_nat count). intros m.
    induction m as [|m IH]; simpl; lia. }
  apply list_eq. intros k. unfold slice. destruct (decide (k < Z.to_nat count)%nat).
  - rewrite lookup_replicate_2, lookup_take_lt, lookup_drop by done.
    replace (Z.to_nat lo + k)%nat with (Z.to_nat (lo + Z.of_nat k)) by lia. symmetry. apply He. lia.
  - rewrite lookup_take_ge by lia. apply lookup_ge_None. rewrite length_replicate. lia.
Qed.

Lemma mark_delivered_eq lo n : forall count i f, flags_len n f -> 0 <= lo -> 0 <= i ->
  lo + i + Z.of_nat count <= n ->
  exists f', mark_delivered count lo i f = Ret f' /\ flags_len n f' /\
    poison f' = poison f /\ poison_errs f' = poison_errs f /\
    forall j, 0 <= j -> delivered f' !! Z.to_nat j =
      if decide (lo + i <= j < lo + i + Z.of_nat count) then Some 1 else delivered f !! Z.to_nat j.
Proof.
  induction count as [|count IH]; intros i f Hf Hlo Hi Hn; cbn [mark_delivered].
  { exists f. do 4 (split; [done|]). intros j Hj. case_decide; [lia|done]. }
  destruct Hf as (Hd & Hp & He).
  rewrite set_at_ok by lia. xbind.
  destruct (IH (i + 1) {| delivered := <[Z.to_nat (lo + i) := 1]> (delivered f);
     poison := poison f; poison_errs := poison_errs f |}) as (f' & E & Hf' & Hp' & He' & Hj); [|lia..|].
  { split; cbn; [by rewrite length_insert|done]. }
  exists f'. do 4 (split; [done|]). intros j Hj0. rewrite Hj by done. cbn [delivered].
  rewrite set_at_entry by lia. repeat case_decide; (done || lia).
Qed.

Lemma mark_poison_eq lo n err f : flags_len n f -> 0 <= lo < n ->
  exists f', mark_poison lo err f = Ret f' /\ flags_len n f' /\
    (forall j, 0 <= j -> entry f' j =
      if decide (lo = j) then (delivered f !! Z.to_nat j, Some 1, Some err) else entry f j).
Proof.
  intros (Hd & Hp & He) Hlo. unfold mark_poison. rewrite set_at_ok by lia. xbind.
  rewrite set_at_ok by lia. xbind. eexists. split; [done|].
  split; [by split; [|split]; cbn; rewrite ?length_insert|].
  intros j Hj. unfold entry. cbn. rewrite !set_at_entry by lia. by case_decide.
Qed.

Lemma reset_flags_eq n m : forall i f, flags_len n f -> 0 <= i -> i + Z.of_nat m <= n ->
  exists f', reset_flags m i f = Ret f' /\ flags_len n f' /\
    forall j, 0 <= j -> entry f' j = if decide (i <= j < i + Z.of_nat m) then untouched else entry f j.
Proof.
  induction m as [|m IH]; intros i f Hf Hi Hn; cbn [reset_flags].
  { exists f. do 2 (split; [done|]). intros j Hj. case_decide; [lia|done]. }
  destruct Hf as (Hd & Hp & He).
  rewrite set_at_ok by lia. xbind. rewrite set_at_ok by lia. xbind. rewrite set_at_ok by lia. xbind.
  edestruct (IH (i + 1)) as (f' & E & Hf' & Hj); [|lia..|].
  2: { exists f'. split; [exact E|]. split; [done|]. intros j Hj0. rewrite Hj by done.
    unfold entry. cbn. rewrite !set_at_entry by lia. repeat case_decide; (done || lia). }
  by split; [|split]; cbn; rewrite ?length_insert.
Qed.

(** ** What becomes of an item *)

(** Some post of a range of the batch holding item [i] was answered 2xx. *)
Definition accepted_in (items : list cf_batch_item_t) (new : list event) (i : Z) : Prop :=
  exists lo count status errbuf, 0 <= lo /\ lo <= i < lo + count /\ lo + count <= zlen items /\
    EPost (body_of items lo count) status errbuf ∈ new /\ success status = true.

(** Item [i] alone was posted and refused for good. *)
Definition refused_in (items : list cf_batch_item_t) (new : list event) (i : Z)
    (err : option (list Z)) : Prop :=
  exists status errbuf, EPost (body_of items i 1) status errbuf ∈ new /\
    success status = false /\ retryable status = false /\
    (err = None \/ err = Some (bs "HTTP " ++ dec status ++ bs ": " ++ prefix_200 errbuf)).

Inductive fate (items : list cf_batch_item_t) (new : list event) (i : Z) :
    option Z * option Z * option (option (list Z)) -> Prop :=
| fate_delivered : accepted_in items new i -> fate items new i (Some 1, Some 0, Some None)
| fate_poison err : refused_in items new i err -> fate items new i (Some 0, Some 1, Some err)
| fate_pending : EStop true ∈ new -> fate items new i untouched.

Definition posts_ranges (items : list cf_batch_item_t) (e : event) : Prop :=
  match e with
  | EPost b _ _ => exists lo count, 0 <= lo /\ 0 < count /\ lo + count <= zlen items /\
      b = body_of items lo count
  | _ => private e
  end.

Lemma fate_mono items a b i t : a ⊆ b -> fate items a i t -> fate items b i t.
Proof.
  intros Hab Hf. destruct Hf as [(lo & c & st & e & ? & ? & ? & Hin & ?)|err (st & e & Hin & ? & ? & ?)|Hs].
  - apply fate_delivered. exists lo, c, st, e. auto 10.
  - apply fate_poison. exists st, e. auto 10.
  - apply fate_pending. auto.
Qed.

(** A status that is not retryable has at most three digits, so the message
    fits its buffer. *)
Lemma dec_short status : 0 < status < 500 -> (length (dec status) <= 3)%nat.
Proof.
  intros Hs. assert (forallb (fun n => (length (dec (Z.of_nat n)) <=? 3)%nat) (seq 0 500) = true) as Hall
    by (vm_compute; reflexivity).
  rewrite forallb_forall in Hall. specialize (Hall (Z.to_nat status)).
  rewrite Z2Nat.id in Hall by lia. apply Nat.leb_le, Hall, in_seq. lia.
Qed.

Lemma poison_message_whole status p : retryable status = false -> (length p <= 200)%nat ->
  poison_message status p = bs "HTTP " ++ dec status ++ bs ": " ++ p.
Proof.
  unfold retryable. intros Hy Hp. apply take_ge. rewrite !length_app.
  pose proof (dec_short status ltac:(lia)). simpl. lia.
Qed.

Definition send_result items lo count f s : flags * sink W -> Prop :=
  fun '(f', s') => exists new, grows s new s' /\ flags_len (zlen items) f' /\
    (forall j, 0 <= j -> ~ lo <= j < lo + count -> entry f' j = entry f j) /\
    (forall j, lo <= j < lo + count -> fate items new j (entry f' j)) /\
    Forall (posts_ranges items) new /\ tally final_event new <= Z.max 0 (2 * count - 1) /\
    tallied s (tallies new (delivered_in f' lo count)) s'.

Definition clear (f : flags) (lo count : Z) : Prop :=
  forall j, lo <= j < lo + count -> entry f j = untouched.

Lemma posts_only_ranges items lo count new : 0 <= lo -> 0 < count -> lo + count <= zlen items ->
  Forall (posts_only (body_of items lo count)) new -> Forall (posts_ranges items) new.
Proof.
  intros Hlo Hc Hl Hp. eapply list.Forall_impl; [exact Hp|]. intros []; cbn; try done.
  intros ->. by exists lo, count.
Qed.

Lemma entry_delivered f j d p e : entry f j = (Some d, p, e) -> delivered f !! Z.to_nat j = Some d.
Proof. unfold entry. by intros [= -> _ _]. Qed.

(** The two halves of a rejected range. *)
Lemma send_result_split items lo mid count f s new s1 f1 s2 r :
  0 <= lo -> 0 < mid < count -> lo + count <= zlen items ->
  grows s new s1 -> Forall (posts_ranges items) new -> tally final_event new <= 1 -> tallied s (tallies new 0) s1 ->
  send_result items lo mid f s1 (f1, s2) ->
  send_result items (lo + mid) (count - mid) f1 s2 r -> send_result items lo count f s r.
Proof.
  destruct r as [f2 s3]. intros Hlo Hm Hl G0 P0 N0 T0 (n1 & G1 & L1 & O1 & F1 & P1 & N1 & T1)
    (n2 & G2 & L2 & O2 & F2 & P2 & N2 & T2).
  exists (new ++ n1 ++ n2). split; [eauto using grows_trans|]. split; [done|]. split; [|split; [|split; [|split]]].
  - intros j Hj Ho. rewrite O2, O1 by lia. done.
  - intros j Hj. destruct (decide (j < lo + mid)).
    + rewrite O2 by lia. eapply fate_mono; [|apply F1; lia]. set_solver.
    + eapply fate_mono; [|apply F2; lia]. set_solver.
  - rewrite !Forall_app. auto.
  - rewrite !tally_app. lia.
  - replace (delivered_in f2 lo count) with (0 + (delivered_in f1 lo mid + delivered_in f2 (lo + mid) (count - mid))).
    + eauto using tallied_seq.
    + replace count with (mid + (count - mid)) at 2 by lia.
      rewrite (delivered_in_split f2) by lia.
      rewrite (delivered_in_ext f1 f2) by (lia || (intros j Hj; symmetry; apply O2; lia)). lia.
Qed.

Lemma clear_zero f lo count : clear f lo count -> 0 <= lo -> 0 <= count ->
  delivered_in f lo count = 0.
Proof.
  intros Hcl Hlo Hc. rewrite (delivered_in_const f lo count 0) by
    (done || (intros j Hj; by eapply entry_delivered, Hcl)). lia.
Qed.

(** A range that was not rejected. *)
Lemma send_result_abandoned items lo count f s new s1 : 0 <= lo -> 0 <= count ->
  flags_len (zlen items) f -> clear f lo count ->
  grows s new s1 -> Forall (posts_ranges items) new ->
  tally final_event new <= Z.max 0 (2 * count - 1) -> tallied s (tallies new 0) s1 ->
  (0 < count -> EStop true ∈ new) -> send_result items lo count f s (f, s1).
Proof.
  intros Hlo Hc Hf Hcl G Hp N T Hs. exists new. split; [done|]. split; [done|]. split; [done|].
  split; [|split; [done|split; [done|by rewrite clear_zero]]].
  intros j Hj. rewrite Hcl by done. apply fate_pending, Hs. lia.
Qed.

Lemma send_result_accepted items lo count f s new s1 : 0 <= lo -> 0 < count ->
  lo + count <= zlen items -> flags_len (zlen items) f -> clear f lo count ->
  grows s new s1 -> Forall (posts_ranges items) new -> tally final_event new <= 1 ->
  tallied s (tallies new count) s1 ->
  (exists status errbuf, EPost (body_of items lo count) status errbuf ∈ new /\ success status = true) ->
  safe (f' ← mark_delivered (Z.to_nat count) lo 0 f; Ret (f', s1)) (send_result items lo count f s).
Proof.
  intros Hlo Hc Hl Hf Hcl G Hp N T (st & e & Hin & Hs).
  destruct (mark_delivered_eq lo (zlen items) (Z.to_nat count) 0 f) as (f' & E & Hf' & Ep & Ee & Hj);
    [done|lia..|]. rewrite E. xbind. cbn [safe].
  assert (forall j, lo <= j < lo + count -> delivered f' !! Z.to_nat j = Some 1) as H1.
  { intros j Hr. rewrite Hj by lia. by rewrite decide_True by lia. }
  exists new. split; [done|]. split; [done|]. split; [|split; [|split; [done|split; [lia|]]]].
  - intros j Hj0 Ho. unfold entry. rewrite Hj, Ep, Ee by lia. by rewrite decide_False by lia.
  - intros j Hr. pose proof (Hcl j Hr) as Hu. unfold entry, untouched in *.
    rewrite H1, Ep, Ee by done. injection Hu as _ -> ->. apply fate_delivered.
    by exists lo, count, st, e.
  - by rewrite (delivered_in_const f' lo count 1), Z.mul_1_l by (done || lia).
Qed.

Lemma send_result_poisoned items lo f s new s1 st e : 0 <= lo < zlen items ->
  flags_len (zlen items) f -> clear f lo 1 ->
  grows s new s1 -> Forall (posts_ranges items) new -> tally final_event new <= 1 ->
  tallied s (tallies new 0) s1 -> EPost (body_of items lo 1) st e ∈ new -> success st = false -> retryable st = false ->
  safe ('(ok, s2) ← Ret (call (AskMalloc at_poison_err) s1);
        f' ← mark_poison lo (if (ok : bool) then Some (poison_message st (prefix_200 e)) else None) f;
        Ret (f', s2)) (send_result items lo 1 f s).
Proof.
  intros Hlo Hf Hcl G Hp N T Hin Hs Hy.
  xbind. destruct (call (AskMalloc at_poison_err) s1) as [ok s2] eqn:C.
  apply call_eq in C as (_ & G2 & T2).
  set (err := if ok then _ else _).
  assert (err = None \/ err = Some (bs "HTTP " ++ dec st ++ bs ": " ++ prefix_200 e)) as He.
  { unfold err. destruct ok; [right|by left]. rewrite poison_message_whole; [done..|].
    unfold prefix_200. rewrite length_take. unfold CF_DELIVER_BODY_PREFIX_MAX. lia. }
  destruct (mark_poison_eq lo (zlen items) err f) as (f' & E & Hf' & Hj); [done..|].
  rewrite E. xbind. cbn [safe]. exists (new ++ [EMalloc at_poison_err ok]).
  split; [by eapply grows_trans|]. split; [done|]. split; [|split; [|split; [|split]]].
  - intros j Hj0 Ho. rewrite Hj by done. by rewrite decide_False by lia.
  - intros j Hr. assert (j = lo) as -> by lia. rewrite Hj, decide_True by lia.
    rewrite (entry_delivered f lo _ _ _ (Hcl lo Hr)). apply fate_poison.
    exists st, e. rewrite elem_of_app. auto.
  - apply Forall_app. by split; [|repeat constructor].
  - rewrite tally_app. simpl. lia.
  - assert (delivered_in f' lo 1 = 0) as ->.
    { rewrite (delivered_in_const f' lo 1 0); [done|lia..|]. intros j Hr.
      assert (j = lo) as -> by lia. eapply entry_delivered. rewrite Hj, decide_True by lia.
      by rewrite (entry_delivered f lo _ _ _ (Hcl lo Hr)). }
    apply (tallied_seq _ _ 0 _ _ 0 _ T). apply tallied_quiet; [done|]. by intros [].
Qed.

Lemma send_range_spec depth retries items : room items < 2 ^ 64 ->
  forall lo count b f s, 0 <= lo -> 0 <= count -> lo + count <= zlen items -> is_level b ->
  flags_len (zlen items) f -> clear f lo count ->
  safe (send_range depth retries items lo count b f s) (send_result items lo count f s).
Proof.
  intros Hr. induction depth as [|depth IH]; intros lo count b f s Hlo Hc Hl Hb Hf Hcl; [done|].
  cbn [send_range]. destruct (count =? 0) eqn:E0.
  { apply (send_result_abandoned _ _ _ _ _ []); [done..|apply grows_refl|constructor|simpl; lia| |lia].
    apply tallied_quiet; [done|]. by intros []. }
  apply safe_bind. eapply safe_mono; [by apply post_loop_spec|].
  intros [[v b'] s1] (new & G & Hb' & Hj & Hp & N & T).
  assert (Forall (posts_ranges items) new) as Hp' by (eapply posts_only_ranges; [..|exact Hp]; lia).
  destruct v as [| |status p]; cbn [judged after accepted_count] in *.
  - apply (send_result_abandoned _ _ _ _ _ new); (done || lia).
  - apply (send_result_accepted _ _ _ _ _ new); (done || lia).
  - destruct Hj as (e & Hin & Hs & Hy & ->). cbv zeta.
    destruct (count =? 1) eqn:E1.
    { replace count with 1 in * by lia.
      apply (send_result_poisoned _ _ _ _ new); (done || lia). }
    pose proof (Z.div_lt count 2 ltac:(lia) ltac:(lia)).
    assert (0 <= count / 2) by (apply Z.div_pos; lia).
    apply safe_bind. eapply safe_mono.
    { apply IH; try (done || lia). intros j Hj. apply Hcl. lia. }
    intros [f1 s2] R1. eapply safe_mono.
    { apply IH; try (done || lia).
      - by destruct R1 as (? & _ & L & _).
      - intros j Hj. destruct R1 as (? & _ & _ & O & _). rewrite O by lia. apply Hcl. lia. }
    intros r R2. apply (send_result_split items lo (count / 2) count f s new
      (count_inc splunk_delivery_errors_total s1) f1 s2); (done || lia).
Qed.

(** ** The contract of a batch *)

(** What [cf_sink_http_deliver_batched] does with [n] items. *)
Definition batch_result items s : flags * sink W -> Prop :=
  fun '(f', s') => exists new, grows s new s' /\ flags_len (zlen items) f' /\
    (forall i, 0 <= i < zlen items -> fate items new i (entry f' i)) /\
    Forall (posts_ranges items) new /\
    tally final_event new <= Z.max 0 (2 * zlen items - 1) /\
    tallied s (tallies new (delivered_in f' 0 (zlen items))) s'.

Lemma deliver_spec retries items f s : flags_len (zlen items) f -> room items < 2 ^ 64 ->
  safe (cf_sink_http_deliver_batched retries items (zlen items) f s) (batch_result items s).
Proof.
  intros Hf Hr. unfold cf_sink_http_deliver_batched.
  destruct (reset_flags_eq (zlen items) (Z.to_nat (zlen items)) 0 f Hf) as (f0 & E & Hf0 & Hj);
    [lia..|]. rewrite E. apply safe_bind, safe_ret.
  assert (clear f0 0 (zlen items)) as Hcl.
  { intros j Hr0. rewrite Hj by lia. by rewrite decide_True by lia. }
  eapply (safe_mono _ (send_result items 0 (zlen items) f0 s)).
  - destruct (zlen items =? 0) eqn:E0.
    + apply (send_result_abandoned _ _ _ _ _ []); [lia|lia|done|done|apply grows_refl|constructor|simpl; lia| |lia].
      apply tallied_quiet; [done|]. by intros [].
    + apply send_range_spec; try (done || lia). apply level_initial.
  - intros [f' s'] (new & G & L & _ & F & P & N & T). exists new. auto 10.
Qed.

(** ** Termination

    [patient p]: the world lets the loop retry only finitely often, [p]
    bounding how often from each state; after that a stop is seen. *)
Definition spent (p : W -> nat) (w w' : W) : Prop := (p w' < p w)%nat \/ latched w'.

Definition patient (p : W -> nat) : Prop :=
  (forall A (q : ask A) w, (p (snd (answer q w)) <= p w)%nat) /\
  (forall b w, let st := fst (fst (answer (AskPost b) w)) in
     success st = false -> retryable st = true -> spent p w (snd (answer (AskPost b) w))) /\
  (forall w, fst (answer (AskMalloc at_body) w) = false -> spent p w (snd (answer (AskMalloc at_body) w))).

(** What every answer preserves, a sleep preserves. *)
Lemma sleep_loop_inv (I : W -> Prop) : (forall A (q : ask A) w, I w -> I (snd (answer q w))) ->
  forall fuel r l s, slices fuel r = Some l -> I (world s) ->
  runs (sleep_loop fuel r s) (fun s' => I (world s')).
Proof.
  intros HI. induction fuel as [|fuel IH]; intros r l s E Hs; [done|]. cbn [sleep_loop slices] in *.
  destruct (SFltb _ r); [|done].
  set (chunk := if SFltb r _ then _ else _) in *.
  destruct (slices fuel (SFsub 53 1024 r chunk)) as [l0|] eqn:El; [|done].
  destruct (call AskStop s) as [stop s1] eqn:C1. apply call_eq in C1 as (A1 & _).
  apply (HI _ AskStop) in Hs. rewrite A1 in Hs. cbn [snd] in Hs. destruct stop; [done|].
  destruct (call (AskSleep chunk) s1) as [u s2] eqn:C2. apply call_eq in C2 as (A2 & _).
  apply (HI _ (AskSleep chunk)) in Hs. rewrite A2 in Hs. by eapply IH.
Qed.

#[local] Transparent deliver_sleep.
Lemma deliver_sleep_inv (I : W -> Prop) b s :
  (forall A (q : ask A) w, I w -> I (snd (answer q w))) -> is_level b -> I (world s) ->
  runs (deliver_sleep b s) (fun s' => I (world s')).
Proof. intros HI Hb Hs. destruct (level_sliced b Hb) as [l E]. by eapply sleep_loop_inv. Qed.
#[local] Opaque deliver_sleep.

(** Enough fuel for the loop from [w]. *)
Definition enough (p : W -> nat) (retries : nat) (w : W) : Prop :=
  (p w + 2 <= retries)%nat \/ latched w /\ (1 <= retries)%nat.

Lemma wait_halts p b s w (Q : verdict * spec_float * sink W -> Prop) (retries : nat)
    (k : sink W -> exec (verdict * spec_float * sink W)) :
  patient p -> is_level b -> (p w + 1 <= retries)%nat -> spent p w (world s) ->
  (p (world s) <= p w)%nat ->
  (forall s', enough p retries (world s') -> (p (world s') <= p w)%nat -> halts (k s') Q) ->
  halts (s' ← deliver_sleep b s; k s') Q.
Proof.
  intros (Hp & _ & _) Hb Hr Hsp Hle Hk. apply halts_bind. eapply halts_mono.
  - apply runs_halts, (deliver_sleep_inv (fun w' => (p w' <= p (world s))%nat /\ (latched (world s) -> latched w'))).
    + intros A q w' [H1 H2]. split; [pose proof (Hp A q w'); lia|]. intros Hl. by apply latched_answer, H2.
    + done.
    + done.
  - cbn. intros s' [H1 H2]. apply Hk; [|lia]. destruct Hsp as [Hlt|Hl]; [left; lia|right].
    split; [by apply H2|lia].
Qed.

Lemma body_loop_halts its : forall first body o, halts (body_loop its first body o) (fun _ => True).
Proof.
  induction its as [|it its IH]; intros first body o; cbn [body_loop]; [done|].
  apply halts_bind. destruct first; [cbn|apply halts_bind; unfold wr_n; destruct (_ && _); cbn; [|done]];
    apply halts_bind; unfold wr_n; destruct (_ && _); cbn; (done || apply IH).
Qed.

Lemma build_body_halts items lo count s :
  halts (build_body items lo count s) (fun '(b, s') =>
    exists ok, answer (AskMalloc at_body) (world s) = (ok, world s') /\ (b = None -> ok = false)).
Proof.
  unfold build_body, rd_items. destruct (_ && _); [|done]. cbv zeta. xbind.
  destruct (call (AskMalloc at_body) s) as [ok s'] eqn:C. apply call_eq in C as (A & _).
  destruct ok; cbn [negb]; [|by exists false].
  apply halts_bind. eapply halts_mono; [apply body_loop_halts|]. intros [body o] _. cbv beta iota.
  unfold rd_n. destruct (_ && _); [|done]. by exists true.
Qed.

Lemma post_loop_halts p : patient p -> forall retries items lo count b s,
  is_level b -> enough p retries (world s) ->
  halts (post_loop retries items lo count b s) (fun '(_, b', s') =>
    is_level b' /\ (p (world s') <= p (world s))%nat).
Proof.
  intros Hpat. pose proof Hpat as (Hp & Hpost & Hmal).
  induction retries as [|retries IH]; intros items lo count b s Hb He.
  { destruct He as [?|[_ ?]]; lia. }
  cbn [post_loop]. destruct (call AskStop s) as [stop s1] eqn:C1.
  apply call_eq in C1 as (A1 & _). pose proof (Hp _ AskStop (world s)) as L1. rewrite A1 in L1. cbn in L1.
  destruct stop; [by split|].
  destruct He as [He|[Hl _]]; [|apply latched_stop in Hl; rewrite A1 in Hl; done].
  apply halts_bind. eapply halts_mono; [apply build_body_halts|].
  intros [body s2] (ok & A2 & Hok). cbv beta iota.
  pose proof (Hp _ (AskMalloc at_body) (world s1)) as L2. rewrite A2 in L2. cbn in L2.
  destruct body as [body|].
  2: { eapply (wait_halts p b _ (world s1) _ retries); [done|done|lia| |done|].
    - specialize (Hmal (world s1)). rewrite A2 in Hmal. apply Hmal. by rewrite Hok.
    - intros s' He' Hle. eapply halts_mono; [by apply IH; [apply level_next|]|].
      intros [[v b'] s3] [? ?]. split; [done|lia]. }
  destruct (call AskMono s2) as [t0 s3] eqn:C3. apply call_eq in C3 as (A3 & _).
  destruct (call (AskPost body) s3) as [[st e] s4] eqn:C4. apply call_eq in C4 as (A4 & _).
  destruct (call AskMono s4) as [t1 s5] eqn:C5. apply call_eq in C5 as (A5 & _).
  pose proof (Hp _ AskMono (world s2)) as L3. rewrite A3 in L3. cbn in L3.
  pose proof (Hp _ (AskPost body) (world s3)) as L4. rewrite A4 in L4. cbn in L4.
  pose proof (Hp _ AskMono (world s4)) as L5. rewrite A5 in L5. cbn in L5.
  specialize (Hpost body (world s3)). rewrite A4 in Hpost. cbn in Hpost.
  destruct (success st) eqn:Hs; [split; [done|cbn; lia]|].
  destruct (retryable st) eqn:Hy; [|split; [done|cbn; lia]].
  eapply (wait_halts p b _ (world s3) _ retries); [done|done|lia| |cbn; lia|].
  - destruct (Hpost eq_refl eq_refl) as [Hlt|Hl]; [left; cbn; lia|right]. cbn.
    apply (latched_answer AskMono) in Hl. by rewrite A5 in Hl.
  - intros s' He' Hle. eapply halts_mono; [by apply IH; [apply level_next|]|].
    intros [[v b'] s6] [? ?]. split; [done|lia].
Qed.

Lemma mark_delivered_halts count : forall lo i f, halts (mark_delivered count lo i f) (fun _ => True).
Proof.
  induction count as [|count IH]; intros lo i f; cbn [mark_delivered]; [done|].
  unfold set_at. destruct (_ && _); [apply IH|done].
Qed.

Lemma send_range_halts p retries items : patient p -> forall depth lo count b f s,
  (Z.to_nat count < depth)%nat -> 0 <= count -> is_level b -> (p (world s) + 2 <= retries)%nat ->
  halts (send_range depth retries items lo count b f s) (fun '(_, s') =>
    (p (world s') <= p (world s))%nat).
Proof.
  intros Hpat. pose proof Hpat as (Hp & _).
  induction depth as [|depth IH]; intros lo count b f s Hd Hc Hb He; [lia|]. cbn [send_range].
  destruct (count =? 0) eqn:E0; [cbn; lia|].
  apply halts_bind. eapply halts_mono; [by apply (post_loop_halts p); [..|left]|].
  intros [[v b'] s1] [Hb' Hle]. destruct v as [| |status pre]; cbv zeta; [done| |].
  - apply halts_bind. eapply halts_mono; [apply mark_delivered_halts|]. by intros.
  - destruct (count =? 1) eqn:E1.
    + destruct (call (AskMalloc at_poison_err) _) as [ok s2] eqn:C. apply call_eq in C as (A & _).
      pose proof (Hp _ (AskMalloc at_poison_err) (world s1)) as L. cbn in A, L. rewrite A in L. cbn in L.
      unfold mark_poison, set_at. apply halts_bind.
      destruct ((0 <=? lo) && (lo <? zlen (poison f))); [|done]. apply halts_bind. cbn [halts].
      destruct ((0 <=? lo) && (lo <? zlen (poison_errs f))); [|done].
      change (p (world s2) <= p (world s))%nat. lia.
    + pose proof (Z.div_lt count 2 ltac:(lia) ltac:(lia)).
      assert (0 < count / 2) by (apply Z.div_str_pos; lia).
      apply halts_bind. eapply halts_mono; [apply IH; [lia|lia|done|cbn; lia]|].
      intros [f1 s2] Hle2. cbn in Hle2. eapply halts_mono; [apply IH; [lia|lia|done|lia]|].
      intros [f2 s3] Hle3. lia.
Qed.

Lemma deliver_runs p retries items f s : patient p -> (p (world s) + 2 <= retries)%nat ->
  flags_len (zlen items) f -> room items < 2 ^ 64 ->
  runs (cf_sink_http_deliver_batched retries items (zlen items) f s) (batch_result items s).
Proof.
  intros Hp Hr Hf Hroom.
  eapply runs_mono; [eapply safe_halts; [by apply deliver_spec|]|by intros r [H1 _]; exact H1].
  instantiate (1 := fun _ => True). unfold cf_sink_http_deliver_batched.
  destruct (reset_flags_eq (zlen items) (Z.to_nat (zlen items)) 0 f Hf) as (f0 & E & _);
    [lia..|]. rewrite E. apply halts_bind. cbn [halts]. destruct (zlen items =? 0); [done|].
  eapply halts_mono; [apply (send_range_halts p); [done|lia|lia|apply level_initial|done]|].
  by intros [].
Qed.

(** Once a stop is pending, a batch reads the flag and does nothing else. *)
Lemma deliver_latched retries items f s : latched (world s) -> flags_len (zlen items) f ->
  safe (cf_sink_http_deliver_batched retries items (zlen items) f s) (fun '(f', s') =>
    latched (world s') /\ exists new, log s' = log s ++ new /\ Forall no_post new).
Proof.
  intros Hl Hf. unfold cf_sink_http_deliver_batched.
  destruct (reset_flags_eq (zlen items) (Z.to_nat (zlen items)) 0 f Hf) as (f0 & E & _);
    [lia..|]. rewrite E. apply safe_bind, safe_ret.
  destruct (zlen items =? 0) eqn:E0.
  { split; [done|]. exists []. by rewrite app_nil_r. }
  cbn [send_range]. rewrite E0. apply safe_bind. destruct retries as [|retries]; [done|].
  cbn [post_loop]. destruct (call AskStop s) as [stop s1] eqn:C.
  apply call_eq in C as (A & [G _] & _). pose proof (latched_stop _ Hl) as Hs.
  pose proof (latched_answer AskStop _ Hl) as Hl'. rewrite A in Hs, Hl'. cbn in Hs. subst stop.
  split; [done|]. exists [EStop true]. split; [done|]. by repeat constructor.
Qed.

(** ** A destination that judges lines

    [judges good]: the answers of the destination are those of one that
    accepts a body only if every line is [good], and refuses it for good only
    if some line is not; transient failures are free. *)
Definition judges (good : list Z -> Prop) (items : list cf_batch_item_t) : Prop :=
  forall lo count w, 0 <= lo -> 0 < count -> lo + count <= zlen items ->
    let st := fst (fst (answer (AskPost (body_of items lo count)) w)) in
    let ls := map item_line (slice items lo count) in
    (success st = true -> Forall good ls) /\
    (success st = false -> retryable st = false -> ~ Forall good ls).

Definition never_stops : Prop := forall w, fst (answer AskStop w) = false.

Lemma slice_one {A} (l : list A) i x : 0 <= i -> l !! Z.to_nat i = Some x -> slice l i 1 = [x].
Proof.
  intros Hi Hx. unfold slice. rewrite (drop_S _ _ _ Hx). by change (Z.to_nat 1) with 1%nat.
Qed.

Lemma slice_elem {A} (l : list A) lo count i x : 0 <= lo -> lo <= i < lo + count ->
  l !! Z.to_nat i = Some x -> x ∈ slice l lo count.
Proof.
  intros Hlo Hi Hx. apply list_elem_of_lookup. exists (Z.to_nat (i - lo)). unfold slice.
  rewrite lookup_take_lt, lookup_drop by lia. by replace (_ + _)%nat with (Z.to_nat i) by lia.
Qed.

(** The verdict on each item is the verdict on its line. *)
Lemma judged_fate good items new i it t : judges good items -> never_stops -> Forall answered new ->
  0 <= i -> items !! Z.to_nat i = Some it -> fate items new i t ->
  (good (item_line it) /\ t = (Some 1, Some 0, Some None)) \/
  (~ good (item_line it) /\ exists err, t = (Some 0, Some 1, Some err)).
Proof.
  intros Hj Hns Ha Hi Hit Hf. pose proof (lookup_lt_Some _ _ _ Hit) as Hlt.
  rewrite Forall_forall in Ha. setoid_rewrite <- list_elem_of_In in Ha.
  destruct Hf as [(lo & c & st & e & Hlo & Hr & Hl & Hin & Hs)|err (st & e & Hin & Hs & Hy & _)|Hs].
  - left. split; [|done]. apply Ha, answered_post in Hin as [w E].
    destruct (Hj lo c w) as [H1 _]; [lia..|]. rewrite E in H1. specialize (H1 Hs).
    rewrite Forall_map, Forall_forall in H1. apply H1, list_elem_of_In. by eapply slice_elem.
  - right. split; [|by exists err]. apply Ha, answered_post in Hin as [w E].
    destruct (Hj i 1 w) as [_ H2]; [lia..|]. rewrite E in H2. specialize (H2 Hs Hy).
    rewrite (slice_one _ _ _ Hi Hit) in H2. intros Hg. apply H2. by repeat constructor.
  - apply Ha, answered_stop in Hs as [w E]. by rewrite Hns in E.
Qed.

(** ** The backoff in exact units

    A double as a multiple of [2 ^ -1100] seconds. *)
Definition f64_units (f : spec_float) : Z :=
  match f with S754_finite false m e => Z.shiftl (Zpos m) (e + 1100) | _ => 0 end.
Definition UNIT : Z := 2 ^ 1100.

(** Each level: at most 600 slices, within a nanosecond of the level. *)
Definition slices_fit (z : Z) : bool :=
  match slices SLEEP_FUEL (f64_of z) with
  | Some l => (length l <=? 600)%nat &&
      (Z.abs (foldr Z.add 0 (map f64_units l) - z * UNIT) * 10 ^ 9 <=? UNIT)
  | None => false
  end.

Lemma levels_fit_all : forallb slices_fit [1; 2; 4; 8; 16; 30] = true.
Proof. vm_compute. reflexivity. Qed.

Lemma slices_fit_spec z : slices_fit z = true -> exists l, slices SLEEP_FUEL (f64_of z) = Some l /\
  (length l <= 600)%nat /\ Z.abs (foldr Z.add 0 (map f64_units l) - z * UNIT) * 10 ^ 9 <= UNIT.
Proof.
  unfold slices_fit. generalize (slices SLEEP_FUEL (f64_of z)), UNIT. intros [l|] u; [|done].
  intros [H1 H2]%andb_prop. exists l. split; [done|].
  split; [by apply Nat.leb_le|by apply Z.leb_le].
Qed.

Lemma levels_fit z : In z [1; 2; 4; 8; 16; 30] -> exists l, slices SLEEP_FUEL (f64_of z) = Some l /\
  (length l <= 600)%nat /\ Z.abs (foldr Z.add 0 (map f64_units l) - z * UNIT) * 10 ^ 9 <= UNIT.
Proof.
  intros Hz. apply slices_fit_spec. revert z Hz. apply forallb_forall. exact levels_fit_all.
Qed.

(** The backoff after [k] failed attempts, in seconds. *)
Definition backoff_seconds (k : nat) : Z := Z.min (2 ^ Z.of_nat k) 30.

Lemma backoff_seconds_level k : In (backoff_seconds k) [1; 2; 4; 8; 16; 30].
Proof.
  do 5 (destruct k as [|k]; [vm_compute; tauto|]).
  replace (backoff_seconds _) with 30; [by do 5 right; left|].
  unfold backoff_seconds. rewrite Z.min_r; [done|].
  apply (Z.le_trans 30 (2 ^ 5)); [lia|]. apply Z.pow_le_mono_r; lia.
Qed.

#[local] Transparent next_backoff.
Lemma next_backoff_level z : In z [1; 2; 4; 8; 16; 30] ->
  next_backoff (f64_of z) = f64_of (Z.min (2 * z) 30).
Proof.
  intros Hz. cbn [In] in Hz. repeat destruct Hz as [<-|Hz]; [..|done]; vm_compute; reflexivity.
Qed.
#[local] Opaque next_backoff.

Lemma backoff_iter k : Nat.iter k next_backoff CF_DELIVER_BACKOFF_INITIAL_S = f64_of (backoff_seconds k).
Proof.
  induction k as [|k IH]; [done|]. change (Nat.iter (S k) ?f ?x) with (f (Nat.iter k f x)).
  rewrite IH, next_backoff_level by apply backoff_seconds_level. f_equal.
  unfold backoff_seconds. rewrite Nat2Z.inj_succ, Z.pow_succ_r by lia. lia.
Qed.

(** ** Properties *)

(** C12. A batch of [n] items posts only ranges of the batch, joined by
    newlines, reads and writes inside its arrays, and leaves each item in one
    of three states: delivered, when a 2xx answered a range that holds it;
    poison with the message of the answer, when the item was refused alone; or
    neither, when a stop was seen.  It makes at most [2n - 1] posts besides the
    retried ones, and the counters grow by the delivered items, the failed
    answers and the retries. *)
Theorem deliver_batch_correct retries items f s :
  flags_len (zlen items) f -> room items < 2 ^ 64 ->
  safe (cf_sink_http_deliver_batched retries items (zlen items) f s) (batch_result items s).
Proof. apply deliver_spec. Qed.

(** C35. A batch ends when the world lets it fail retryably only finitely often
    before the stop flag is seen. *)
Theorem deliver_batch_ends p retries items f s : patient p -> (p (world s) + 2 <= retries)%nat ->
  flags_len (zlen items) f -> room items < 2 ^ 64 ->
  exists r, cf_sink_http_deliver_batched retries items (zlen items) f s = Ret r /\
    batch_result items s r.
Proof. intros Hp Hr Hf Hroom. by apply runs_inv, (deliver_runs p). Qed.

(** C34. Against a destination that judges each line, with transient failures,
    bisection dead-letters exactly the bad items and delivers all others. *)
Theorem poison_isolated good p retries items f s :
  judges good items -> never_stops -> patient p -> (p (world s) + 2 <= retries)%nat ->
  flags_len (zlen items) f -> room items < 2 ^ 64 ->
  runs (cf_sink_http_deliver_batched retries items (zlen items) f s) (fun '(f', _) =>
    forall i it, 0 <= i -> items !! Z.to_nat i = Some it ->
      (entry f' i = (Some 1, Some 0, Some None) <-> good (item_line it)) /\
      ((exists err, entry f' i = (Some 0, Some 1, Some err)) <-> ~ good (item_line it))).
Proof.
  intros Hj Hns Hp Hr Hf Hroom. eapply runs_mono; [by apply (deliver_runs p)|].
  intros [f' s'] (new & [_ Ha] & _ & F & _) i it Hi Hit.
  pose proof (lookup_lt_Some _ _ _ Hit) as Hlt.
  destruct (judged_fate good items new i it _ Hj Hns Ha Hi Hit (F i ltac:(lia)))
    as [[Hg ->]|[Hg [err ->]]]; split; split; try done.
  - by intros [err [=]].
  - intros _. by exists err.
Qed.

(** After [k] failed attempts the loop waits [min (2^k) 30] seconds, in at
    most 600 slices whose total is within a nanosecond of it, unless a stop
    is seen between two slices. *)
Theorem backoff_schedule k s :
  let b := Nat.iter k next_backoff CF_DELIVER_BACKOFF_INITIAL_S in
  b = f64_of (Z.min (2 ^ Z.of_nat k) 30) /\
  runs (deliver_sleep b s) (fun s' => exists new, grows s new s' /\ Forall drowsy new /\
    (EStop true ∈ new \/ (length (sleeps new) <= 600)%nat /\
      Z.abs (foldr Z.add 0 (map f64_units (sleeps new)) - Z.min (2 ^ Z.of_nat k) 30 * UNIT) * 10 ^ 9
        <= UNIT)).
Proof.
  cbv zeta. rewrite backoff_iter. split; [done|]. fold (backoff_seconds k).
  destruct (levels_fit _ (backoff_seconds_level k)) as (l & E & H1 & H2).
  eapply runs_mono; [by apply deliver_sleep_slices|]. intros s' (new & G & _ & Hd & Hl).
  exists new. split; [done|]. split; [done|]. destruct Hl as [->|[Hs _]]; [by right|by left].
Qed.
End Deliver.

(** ** Witnesses

    A destination that is busy a number of times, then refuses a body with a
    line ["bad"]. *)

Fixpoint lines_of (body : list Z) : list (list Z) :=
  match body with
  | [] => [[]]
  | b :: body =>
      match lines_of body with
      | l :: ls => if b =? 10 then [] :: l :: ls else (b :: l) :: ls
      | [] => []
      end
  end.

#[export] Instance demo_world : World nat := fun A q w =>
  match q in ask A return A * nat with
  | AskStop => (false, w)
  | AskMalloc _ => (true, w)
  | AskMono => (0, w)
  | AskPost body =>
      match w with
      | S w => ((503, bs "busy"), w)
      | O => (if bool_decide (bs "bad" ∈ lines_of body) then (400, bs "rejected") else (200, []), O)
      end
  | AskSleep _ => (tt, w)
  | AskSleepNs _ => (tt, w)
  | AskRedis _ => (None, w)
  | AskConnErr => (true, w)
  | AskConnect _ _ => (false, w)
  | AskPrint _ => (tt, w)
  | AskLogStats _ => (tt, w)
  end.

Definition demo_item (line : string) : cf_batch_item_t :=
  {| bi_stream := bs "s"; bi_entry_id := bs "1-1"; bi_line := bs line; bi_payload := [] |}.
Definition demo_items : list cf_batch_item_t := [demo_item "one"; demo_item "bad"; demo_item "two"].
Definition demo_flags : flags :=
  {| delivered := [7; 7; 7]; poison := [7; 7; 7]; poison_errs := [Some []; None; None] |}.
Definition demo_sink (w : nat) : sink nat :=
  {| world := w; log := []; stats := {| counter := fun _ => 0; last_emit_mono_ns := 0 |} |}.

Lemma demo_patient : patient (fun w : nat => w).
Proof.
  split; [|split].
  - intros A q w. destruct q; cbn; try lia. destruct w; cbn; lia.
  - intros b [|w]; cbn; [by destruct (bool_decide _)|]. intros _ _. left. cbn. lia.
  - intros w. done.
Qed.

Definition demo_good (l : list Z) : Prop := l <> bs "bad".

Lemma demo_judges : judges demo_good demo_items.
Proof.
  intros lo count [|w] Hlo Hc Hl; cbn [answer demo_world fst]; [|done].
  change (zlen demo_items) with 3 in Hl.
  assert (In (lo, count) [(0, 1); (0, 2); (0, 3); (1, 1); (1, 2); (2, 1)]) as Hin.
  { assert (lo = 0 \/ lo = 1 \/ lo = 2) as [->|[->| ->]] by lia;
      [assert (count = 1 \/ count = 2 \/ count = 3) as [->|[->| ->]] by lia
      |assert (count = 1 \/ count = 2) as [->| ->] by lia|assert (count = 1) as -> by lia];
      cbn; tauto. }
  cbv zeta. unfold demo_good. cbn [In] in Hin.
  repeat destruct Hin as [[= <- <-]|Hin]; [..|done]; split; [intros Hs|intros Hs _|intros Hs|intros Hs _
    |intros Hs|intros Hs _|intros Hs|intros Hs _|intros Hs|intros Hs _|intros Hs|intros Hs _];
    first [exfalso; revert Hs; vm_compute; discriminate|apply (bool_decide_unpack _); vm_compute; exact I].
Qed.

Lemma demo_flags_len : flags_len (zlen demo_items) demo_flags.
Proof. repeat split. Qed.

Lemma demo_room : room demo_items < 2 ^ 64.
Proof. vm_compute. done. Qed.

(** Two transient failures: the batch of three is bisected, ["bad"] is
    refused alone, the others are accepted. *)
Lemma deliver_batch_correct_witness :
  safe (cf_sink_http_deliver_batched 4 demo_items 3 demo_flags (demo_sink 2))
    (batch_result demo_items (demo_sink 2)).
Proof.
  apply (deliver_batch_correct 4 demo_items); [apply demo_flags_len|apply demo_room].
Defined.

Lemma deliver_batch_ends_witness :
  exists r, cf_sink_http_deliver_batched 4 demo_items 3 demo_flags (demo_sink 2) = Ret r /\
    batch_result demo_items (demo_sink 2) r.
Proof.
  apply (deliver_batch_ends (fun w => w) 4 demo_items);
    [apply demo_patient|cbn; lia|apply demo_flags_len|apply demo_room].
Defined.

Lemma poison_isolated_witness :
  runs (cf_sink_http_deliver_batched 4 demo_items 3 demo_flags (demo_sink 2)) (fun '(f', _) =>
    forall i it, 0 <= i -> demo_items !! Z.to_nat i = Some it ->
      (entry f' i = (Some 1, Some 0, Some None) <-> demo_good (item_line it)) /\
      ((exists err, entry f' i = (Some 0, Some 1, Some err)) <-> ~ demo_good (item_line it))).
Proof.
  apply (poison_isolated demo_good (fun w => w) 4 demo_items); [apply demo_judges|by intros w
    |apply demo_patient|cbn; lia|apply demo_flags_len|apply demo_room].
Defined.

(** The flags and the counters of that run. *)
Example demo_outcome :
  match cf_sink_http_deliver_batched 4 demo_items 3 demo_flags (demo_sink 2) with
  | Ret (f, s) => (delivered f, poison f, poison_errs f, counter (stats s) splunk_delivery_total,
      counter (stats s) splunk_retry_total, counter (stats s) splunk_delivery_errors_total)
  | _ => ([], [], [], 0, 0, 0)
  end = ([1; 0; 1], [0; 1; 0], [None; Some (bs "HTTP 400: rejected"); None], 2, 2, 5).
Proof. vm_compute. reflexivity. Qed.

(** A redirect is refused for good: the single item is dead-lettered. *)
Definition redirect_world : World unit := fun A q w =>
  match q in ask A return A * unit with
  | AskStop => (false, w) | AskMalloc _ => (true, w) | AskMono => (0, w)
  | AskPost _ => ((302, []), w) | AskSleep _ => (tt, w) | AskSleepNs _ => (tt, w)
  | AskRedis _ => (None, w) | AskConnErr => (true, w) | AskConnect _ _ => (false, w)
  | AskPrint _ => (tt, w) | AskLogStats _ => (tt, w)
  end.

Example redirect_dead_letters :
  match @cf_sink_http_deliver_batched _ redirect_world 1 [demo_item "one"] 1
      {| delivered := [0]; poison := [0]; poison_errs := [None] |}
      {| world := tt; log := []; stats := {| counter := fun _ => 0; last_emit_mono_ns := 0 |} |} with
  | Ret (f, _) => poison f
  | _ => []
  end = [1].
Proof. vm_compute. reflexivity. Qed.
