(* ===== verification/SinkConsumer.v ===== *)
(** * SinkConsumer: from a Redis stream to a delivery
    ([libs/cloudflow-sink-core/cf_sink_consumer.c] and [cf_sink_deadletter.c])

    Reading entries of a consumer group, decoding and rendering them, batching,
    delivering, dead-lettering and acknowledging.  The line buffers of a batch
    are blocks of a heap, so that a use or a second [free] of a freed one is
    [Oob]; so is a Redis command on a [NULL] context.  [unpack] is the
    generated decoder and [transform] the sink's callback; the delivery client
    is the interface [Delivery].  Loops that wait for the world take fuel. *)

From stdpp Require Import gmap.
From S2P Require Import Prelude Endpoint Hiredis SinkWorld HttpDeliver.

(** ** The delivery interface ([cf_sink_delivery.h]) *)

Class Delivery (W : Type) :=
  send_batch : list cf_batch_item_t -> flags -> sink W -> exec (flags * sink W).

(** ** Data *)

(** The fields of the configuration that the consumer reads. *)
Record cf_sink_config_t := {
  consumer_name : list Z;
  endpoints : list (list Z); streams : list (list Z); consumer_group : list Z;
  read_count : Z; block_ms : Z; deadletter_stream : option (list Z);
  batch_size : Z; flush_interval_ms : Z
}.

(** [b_line] is an address. *)
Record cf_consumer_batch_item_t := {
  b_stream : list Z; b_entry_id : list Z; b_line : Z; b_payload : list Z
}.

(** [c_ctx] says whether the context pointer is not [NULL]. *)
Record cf_consumer_t (W : Type) := {
  c_sink : sink W;
  c_heap : gmap Z (list Z);
  c_ctx : bool;
  c_stdout : bool;
  c_min_idle_ms : Z;
  c_batch : list cf_consumer_batch_item_t; c_batch_cap : Z;
  c_last_flush : Z; c_last_lag : Z;
  c_cursors : list (option (list Z))
}.
Arguments c_sink {W} c. Arguments c_heap {W} c. Arguments c_ctx {W} c. Arguments c_stdout {W} c.
Arguments c_min_idle_ms {W} c. Arguments c_batch {W} c. Arguments c_batch_cap {W} c.
Arguments c_last_flush {W} c. Arguments c_last_lag {W} c. Arguments c_cursors {W} c.

Section Update.
Context {W : Type}.
Implicit Types (c : cf_consumer_t W).

Definition set_sink (s : sink W) c : cf_consumer_t W :=
  {| c_sink := s; c_heap := c_heap c; c_ctx := c_ctx c; c_stdout := c_stdout c;
     c_min_idle_ms := c_min_idle_ms c; c_batch := c_batch c; c_batch_cap := c_batch_cap c;
     c_last_flush := c_last_flush c; c_last_lag := c_last_lag c; c_cursors := c_cursors c |}.
Definition set_heap (h : gmap Z (list Z)) c : cf_consumer_t W :=
  {| c_sink := c_sink c; c_heap := h; c_ctx := c_ctx c; c_stdout := c_stdout c;
     c_min_idle_ms := c_min_idle_ms c; c_batch := c_batch c; c_batch_cap := c_batch_cap c;
     c_last_flush := c_last_flush c; c_last_lag := c_last_lag c; c_cursors := c_cursors c |}.
Definition set_ctx (b : bool) c : cf_consumer_t W :=
  {| c_sink := c_sink c; c_heap := c_heap c; c_ctx := b; c_stdout := c_stdout c;
     c_min_idle_ms := c_min_idle_ms c; c_batch := c_batch c; c_batch_cap := c_batch_cap c;
     c_last_flush := c_last_flush c; c_last_lag := c_last_lag c; c_cursors := c_cursors c |}.
Definition set_batch (b : list cf_consumer_batch_item_t) (cap : Z) c : cf_consumer_t W :=
  {| c_sink := c_sink c; c_heap := c_heap c; c_ctx := c_ctx c; c_stdout := c_stdout c;
     c_min_idle_ms := c_min_idle_ms c; c_batch := b; c_batch_cap := cap;
     c_last_flush := c_last_flush c; c_last_lag := c_last_lag c; c_cursors := c_cursors c |}.
Definition set_times (flush lag : Z) c : cf_consumer_t W :=
  {| c_sink := c_sink c; c_heap := c_heap c; c_ctx := c_ctx c; c_stdout := c_stdout c;
     c_min_idle_ms := c_min_idle_ms c; c_batch := c_batch c; c_batch_cap := c_batch_cap c;
     c_last_flush := flush; c_last_lag := lag; c_cursors := c_cursors c |}.
Definition set_cursors (l : list (option (list Z))) c : cf_consumer_t W :=
  {| c_sink := c_sink c; c_heap := c_heap c; c_ctx := c_ctx c; c_stdout := c_stdout c;
     c_min_idle_ms := c_min_idle_ms c; c_batch := c_batch c; c_batch_cap := c_batch_cap c;
     c_last_flush := c_last_flush c; c_last_lag := c_last_lag c; c_cursors := l |}.
End Update.

(** ** Growable buffer

    [data] is the block when it is not [NULL]: [cap] bytes of which [len]
    are used and followed by a NUL. *)
Record cf_sink_buf_t := { sb_data : option (list Z); sb_len : Z; sb_cap : Z }.

Fixpoint grow_cap (fuel : nat) (newcap need : Z) : option Z :=
  match fuel with
  | O => None
  | S fuel => if newcap <? need then grow_cap fuel (u64 (newcap * 2)) need else Some newcap
  end.

(** An allocation never exceeds [PTRDIFF_MAX] bytes. *)
Definition PTRDIFF_MAX : Z := 2 ^ 63 - 1.

Section Consumer.
Context {W : Type} `{World W}.

(** The bytes of a block that [realloc] moved, the new ones unspecified
    (zero here); a [NULL] block grows from nothing. *)
Definition realloc (data : option (list Z)) (cap : Z) : list Z :=
  let old := default [] data in old ++ replicate (Z.to_nat cap - length old) 0.

(** 0 and the buffer, or -1 and the buffer unchanged. *)
Definition cf_sink_buf_append (b : cf_sink_buf_t) (src : list Z) (s : sink W)
    : exec (Z * cf_sink_buf_t * sink W) :=
  let need := u64 (sb_len b + zlen src + 1) in
  '(b, s, ok) ←
    (if sb_cap b <? need then
       match grow_cap 65 (if sb_cap b =? 0 then 256 else u64 (sb_cap b * 2)) need with
       | None => Spin
       | Some newcap =>
           let '(ok, s) := call (AskMalloc at_sink_buf) s in
           if (ok : bool) && (newcap <=? PTRDIFF_MAX) then
             Ret ({| sb_data := Some (realloc (sb_data b) newcap); sb_len := sb_len b;
                     sb_cap := newcap |}, s, true)
           else Ret (b, s, false)
       end
     else Ret (b, s, true));
  if negb ok then Ret (-1, b, s)
  else
    d ← wr_n (default [] (sb_data b)) (sb_len b) src;
    d ← wr_n d (sb_len b + zlen src) [0];
    Ret (0, {| sb_data := Some d; sb_len := sb_len b + zlen src; sb_cap := sb_cap b |}, s).

Definition cf_sink_buf_reset (b : cf_sink_buf_t) : exec cf_sink_buf_t :=
  match sb_data b with
  | None => Ret {| sb_data := None; sb_len := 0; sb_cap := sb_cap b |}
  | Some d => d ← wr_n d 0 [0]; Ret {| sb_data := Some d; sb_len := 0; sb_cap := sb_cap b |}
  end.

Definition cf_sink_buf_free (b : cf_sink_buf_t) : cf_sink_buf_t :=
  {| sb_data := None; sb_len := 0; sb_cap := 0 |}.

(** ** Calls on the consumer *)

Context {Ev : Type} (unpack : list Z -> W -> option Ev * W)
  (transform : option (Ev -> list Z -> W -> Z * option (list Z) * W))
  `{Delivery W} (cfg : cf_sink_config_t).
Implicit Types (c : cf_consumer_t W).

Definition c_call {A} (q : ask A) c : A * cf_consumer_t W :=
  let '(a, s) := call q (c_sink c) in (a, set_sink s c).
Definition c_count (f : sink W -> sink W) c : cf_consumer_t W := set_sink (f (c_sink c)) c.

(** A command needs a context. *)
Definition redis (argv : list (list Z)) c : exec (option redisReply * cf_consumer_t W) :=
  if c_ctx c then Ret (c_call (AskRedis argv) c) else Oob.

(** ["%d"] and ["%lld"]. *)
Definition sdec (z : Z) : list Z := if z <? 0 then 45 :: dec (- z) else dec z.

Definition line_free (p : Z) c : exec (cf_consumer_t W) :=
  match c_heap c !! p with
  | Some _ => Ret (set_heap (delete p (c_heap c)) c)
  | None => Oob
  end.

Fixpoint free_lines (l : list cf_consumer_batch_item_t) c : exec (cf_consumer_t W) :=
  match l with
  | [] => Ret c
  | it :: l => c ← line_free (b_line it) c; free_lines l c
  end.

Definition batch_clear c : exec (cf_consumer_t W) :=
  c ← free_lines (c_batch c) c; Ret (set_batch [] (c_batch_cap c) c).

(** [sizeof(cf_consumer_batch_item_t)]. *)
Definition BATCH_ITEM_SIZE : Z := 40.

(** The room for one more item: -1 when [realloc] failed. *)
Definition batch_reserve c : Z * cf_consumer_t W :=
  if zlen (c_batch c) =? c_batch_cap c then
    let newcap := if c_batch_cap c =? 0 then 128 else u64 (c_batch_cap c * 2) in
    let '(ok, c) := c_call (AskMalloc at_batch_grow) c in
    if (ok : bool) && (u64 (newcap * BATCH_ITEM_SIZE) <=? PTRDIFF_MAX)
    then (0, set_batch (c_batch c) newcap c) else (-1, c)
  else (0, c).

Definition batch_append (stream entry_id : list Z) (line : Z) (payload : list Z) c
    : exec (Z * cf_consumer_t W) :=
  let '(rc, c) := batch_reserve c in
  if negb (rc =? 0) then Ret (-1, c)
  else if negb (zlen (c_batch c) <? c_batch_cap c) then Oob
  else
    let '(ok1, c) := c_call (AskMalloc at_batch_stream) c in
    let '(ok2, c) := c_call (AskMalloc at_batch_id) c in
    let '(ok3, c) := c_call (AskMalloc at_batch_payload) c in
    if negb ((ok1 : bool) && (ok2 : bool) && (ok3 : bool)) then
      c ← line_free line c; Ret (-1, c)
    else
      let it := {| b_stream := stream; b_entry_id := entry_id; b_line := line; b_payload := payload |} in
      Ret (0, set_batch (c_batch c ++ [it]) (c_batch_cap c) c).

(** ** Redis helpers *)

Definition xack (stream entry_id : list Z) c : exec (cf_consumer_t W) :=
  '(_, c) ← redis [bs "XACK"; stream; consumer_group cfg; entry_id] c; Ret c.

Definition key_is (k : option redisReply) (key : list Z) : bool :=
  match k ≫= reply_str with
  | Some s => bool_decide (c_str s = key)
  | None => false
  end.

Fixpoint field_scan (l : list (option redisReply)) (key : list Z) : option redisReply :=
  match l with
  | k :: v :: l => if key_is k key then v else field_scan l key
  | _ => None
  end.

Definition field_get (fields : option redisReply) (key : string) : option redisReply :=
  match fields with
  | Some (REPLY_ARRAY l) => field_scan l (bs key)
  | _ => None
  end.

(** ** The dead-letter stream *)

Definition CF_DEADLETTER_MAXLEN : Z := 100000.
Definition CF_DEADLETTER_ERROR_MAX : Z := 2000.

Definition deadletter_argv (dl reason origin_stream origin_id error payload : list Z)
    : list (list Z) :=
  [bs "XADD"; dl; bs "MAXLEN"; bs "~"; sdec CF_DEADLETTER_MAXLEN; bs "*";
   bs "reason"; reason; bs "origin_stream"; origin_stream; bs "origin_id"; origin_id;
   bs "error"; take (Z.to_nat CF_DEADLETTER_ERROR_MAX) (c_str error); bs "payload"; payload].

Definition confirmed (r : option redisReply) : bool :=
  match r with
  | None | Some (REPLY_ERROR _) => false
  | Some _ => true
  end.

Definition cf_deadletter_write (reason origin_stream origin_id error payload : list Z) c
    : exec (Z * cf_consumer_t W) :=
  match c_ctx c, deadletter_stream cfg with
  | true, Some dl =>
      '(r, c) ← redis (deadletter_argv dl reason origin_stream origin_id error payload) c;
      if confirmed r then Ret (0, c_count (count_inc deadletter_total) c) else Ret (-1, c)
  | _, _ => Ret (-1, c)
  end.

Definition dead_letter_and_ack (stream entry_id reason error payload : list Z) c
    : exec (cf_consumer_t W) :=
  '(rc, c) ← cf_deadletter_write reason stream entry_id error payload c;
  if rc =? 0 then xack stream entry_id c else Ret c.

(** ** One entry *)

Definition REQUIRED_ENCODING : list Z := bs "protobuf".
Definition REQUIRED_SCHEMA : list Z := bs "cloudflow.v1.CloudFlowEvent".
Definition REASON_DECODE_ERROR : list Z := bs "decode_error".
Definition REASON_HEC_REJECTED : list Z := bs "hec_rejected".

(** The payload of an entry whose fields are in order. *)
Definition entry_payload (fields : option redisReply) : option (list Z) :=
  match field_get fields "encoding", field_get fields "schema", field_get fields "payload" with
  | Some (REPLY_STRING e), Some (REPLY_STRING s), Some (REPLY_STRING p) =>
      if bool_decide (c_str e = REQUIRED_ENCODING) && bool_decide (c_str s = REQUIRED_SCHEMA)
      then Some p else None
  | _, _, _ => None
  end.

Definition decode_error (stream entry_id : list Z) (error : string) (payload : list Z) c
    : exec (cf_consumer_t W) :=
  dead_letter_and_ack stream entry_id REASON_DECODE_ERROR (bs error) payload
    (c_count (count_inc protobuf_decode_errors_total) c).

(** The callback and what it has appended: the accumulator's bytes.  A block
    that does not fit in the address space next to the live ones cannot be
    allocated, so the callback fails instead. *)
Definition ADDRESS_SPACE : Z := 2 ^ 64.
Definition heap_room (h : gmap Z (list Z)) : Z := map_fold (fun _ l n => zlen l + 1 + n) 0 h.

Definition run_transform (ev : Ev) (stream : list Z) (h : gmap Z (list Z)) (w : W)
    : Z * option (list Z) * W :=
  match transform with
  | Some f =>
      let '(rc, data, w) := f ev stream w in
      if heap_room h + zlen (default [] data) + 1 <? ADDRESS_SPACE then (rc, data, w)
      else (-1, None, w)
  | None => (-1, None, w)
  end.

Definition with_world (w : W) c : cf_consumer_t W :=
  set_sink {| world := w; log := log (c_sink c); stats := stats (c_sink c) |} c.

Definition process_entry (stream entry_id : list Z) (fields : option redisReply) c
    : exec (cf_consumer_t W) :=
  match entry_payload fields with
  | None =>
      decode_error stream entry_id "invalid entry fields: encoding/schema mismatch"
        (default [] (field_get fields "payload" ≫= reply_str)) c
  | Some payload =>
      let '(ev, w) := unpack payload (world (c_sink c)) in
      let c := with_world w c in
      match ev with
      | None => decode_error stream entry_id "protobuf parse error" payload c
      | Some ev =>
          let '(trc, data, w) := run_transform ev stream (c_heap c) (world (c_sink c)) in
          let c := with_world w c in
          if negb (trc =? 0) then decode_error stream entry_id "transform error" payload c
          else
            match data with
            | None | Some [] => xack stream entry_id c
            | Some line =>
                let p := fresh (dom (c_heap c)) in
                let c := set_heap (<[p := line]> (c_heap c)) c in
                '(rc, c) ← batch_append stream entry_id p payload c;
                if negb (rc =? 0) then line_free p c else Ret c
            end
      end
  end.

(** ** Flush *)

Definition load_line (p : Z) c : exec (list Z) :=
  match c_heap c !! p with Some l => Ret l | None => Oob end.

Fixpoint print_lines (l : list cf_consumer_batch_item_t) c : exec (cf_consumer_t W) :=
  match l with
  | [] => Ret c
  | it :: l =>
      line ← load_line (b_line it) c;
      let '(_, c) := c_call (AskPrint (c_str line)) c in
      print_lines l c
  end.

Fixpoint xack_all (l : list cf_consumer_batch_item_t) c : exec (cf_consumer_t W) :=
  match l with
  | [] => Ret c
  | it :: l => c ← xack (b_stream it) (b_entry_id it) c; xack_all l c
  end.

Definition flush_stdout c : exec (cf_consumer_t W) :=
  c ← print_lines (c_batch c) c;
  let n := zlen (c_batch c) in
  let c := c_count (fun s => count_store splunk_batch_size_last n (count_add splunk_delivery_total n s)) c in
  xack_all (c_batch c) c.

Fixpoint batch_items (l : list cf_consumer_batch_item_t) c : exec (list cf_batch_item_t) :=
  match l with
  | [] => Ret []
  | it :: l =>
      line ← load_line (b_line it) c;
      its ← batch_items l c;
      Ret ({| bi_stream := b_stream it; bi_entry_id := b_entry_id it; bi_line := line;
              bi_payload := b_payload it |} :: its)
  end.

(** The acknowledgements of [batch[i..]]. *)
Fixpoint settle_loop (l : list cf_consumer_batch_item_t) (i : nat) (f : flags) c
    : exec (cf_consumer_t W) :=
  match l with
  | [] => Ret c
  | it :: l =>
      d ← rd (delivered f) (Z.of_nat i);
      p ← rd (poison f) (Z.of_nat i);
      c ← (if negb (d =? 0) then xack (b_stream it) (b_entry_id it) c
           else if negb (p =? 0) then
             match poison_errs f !! i with
             | None => Oob
             | Some err =>
                 dead_letter_and_ack (b_stream it) (b_entry_id it) REASON_HEC_REJECTED
                   (default (bs "HEC rejected") err) (b_payload it) c
             end
           else Ret c);
      settle_loop l (S i) f c
  end.

Definition flush_hec c : exec (cf_consumer_t W) :=
  let n := length (c_batch c) in
  let '(ok1, c) := c_call (AskMalloc at_flush_items) c in
  let '(ok2, c) := c_call (AskMalloc at_flush_delivered) c in
  let '(ok3, c) := c_call (AskMalloc at_flush_poison) c in
  let '(ok4, c) := c_call (AskMalloc at_flush_errs) c in
  if negb ((ok1 : bool) && (ok2 : bool) && (ok3 : bool) && (ok4 : bool)) then Ret c
  else
    items ← batch_items (c_batch c) c;
    '(f, s) ← send_batch items
      {| delivered := replicate n 0; poison := replicate n 0; poison_errs := replicate n None |}
      (c_sink c);
    settle_loop (c_batch c) 0 f (set_sink s c).

Definition flush_batch c : exec (cf_consumer_t W) :=
  let '(now, c) := c_call AskMono c in
  let c := set_times now (c_last_lag c) c in
  match c_batch c with
  | [] => Ret c
  | _ =>
      c ← (if c_stdout c then flush_stdout c else flush_hec c);
      batch_clear c
  end.

(** [(int)x]. *)
Definition s32 (z : Z) : Z := (z + 2 ^ 31) mod 2 ^ 32 - 2 ^ 31.

Definition should_flush c : bool * cf_consumer_t W :=
  if zlen (c_batch c) =? 0 then (false, c)
  else if batch_size cfg <=? s32 (zlen (c_batch c)) then (true, c)
  else
    let '(now, c) := c_call AskMono c in
    (flush_interval_ms cfg <=? (now - c_last_flush c) ÷ 1000000, c).

Definition maybe_flush c : exec (cf_consumer_t W) :=
  let '(b, c) := should_flush c in if (b : bool) then flush_batch c else Ret c.
(** ** Reading *)

Fixpoint is_prefix (p l : list Z) : bool :=
  match p, l with
  | [], _ => true
  | a :: p, b :: l => (a =? b) && is_prefix p l
  | _, _ => false
  end.
(** [strstr(l, p) != NULL]. *)
Fixpoint strstr (l p : list Z) : bool :=
  is_prefix p l || match l with [] => false | _ :: l => strstr l p end.

Definition busygroup (r : option redisReply) : bool :=
  match r with
  | Some (REPLY_ERROR e) => strstr (c_str e) (bs "BUSYGROUP")
  | _ => true
  end.

Fixpoint ensure_groups (l : list (list Z)) c : exec (Z * cf_consumer_t W) :=
  match l with
  | [] => Ret (0, c)
  | st :: l =>
      '(r, c) ← redis [bs "XGROUP"; bs "CREATE"; st; consumer_group cfg; bs "0"; bs "MKSTREAM"] c;
      if negb (busygroup r) then Ret (-1, c) else ensure_groups l c
  end.

Definition cf_consumer_ensure_groups c : exec (Z * cf_consumer_t W) := ensure_groups (streams cfg) c.

(** One element of an entries array: its id and its fields. *)
Definition entry_of (e : option redisReply) : option (list Z * option redisReply) :=
  match e with
  | Some (REPLY_ARRAY (Some (REPLY_STRING id) :: fields :: _)) => Some (c_str id, fields)
  | _ => None
  end.

Fixpoint process_entries (stream : list Z) (l : list (option redisReply)) c : exec (cf_consumer_t W) :=
  match l with
  | [] => Ret c
  | e :: l =>
      c ← match entry_of e with
          | Some (id, fields) => process_entry stream id fields c
          | None => Ret c
          end;
      process_entries stream l c
  end.

Definition process_entries_array (stream : list Z) (entries : option redisReply) c
    : exec (cf_consumer_t W) :=
  match entries with
  | Some (REPLY_ARRAY l) => process_entries stream l c
  | _ => Ret c
  end.

Definition autoclaim_argv (stream cursor : list Z) c : list (list Z) :=
  [bs "XAUTOCLAIM"; stream; consumer_group cfg; consumer_name cfg; sdec (c_min_idle_ms c); cursor;
   bs "COUNT"; sdec (read_count cfg)].

Definition reclaim_stream (i : nat) (stream : list Z) c : exec (cf_consumer_t W) :=
  match c_cursors c !! i with
  | Some (Some cursor) =>
      '(r, c) ← redis (autoclaim_argv stream cursor c) c;
      match r with
      | Some (REPLY_ARRAY (next :: entries :: _)) =>
          let c := match next with
                   | Some (REPLY_STRING s) =>
                       let '(ok, c) := c_call (AskMalloc at_cursor) c in
                       set_cursors (<[i := if (ok : bool) then Some (c_str s) else None]> (c_cursors c)) c
                   | _ => c
                   end in
          process_entries_array stream entries c
      | _ => Ret c
      end
  | _ => Oob
  end.

Fixpoint reclaim_from (i : nat) (l : list (list Z)) c : exec (cf_consumer_t W) :=
  match l with
  | [] => Ret c
  | st :: l => c ← reclaim_stream i st c; reclaim_from (S i) l c
  end.

Definition reclaim_all c : exec (cf_consumer_t W) := reclaim_from 0 (streams cfg) c.

Definition readgroup_argv (block_ms : Z) : list (list Z) :=
  [bs "XREADGROUP"; bs "GROUP"; consumer_group cfg; consumer_name cfg; bs "COUNT";
   sdec (read_count cfg)] ++
  (if 0 <=? block_ms then [bs "BLOCK"; sdec block_ms] else []) ++
  [bs "STREAMS"] ++ streams cfg ++ map (fun _ => bs ">") (streams cfg).

(** The name and the entries of one stream of the reply. *)
Definition stream_of (sr : option redisReply) : option (list Z * option redisReply) :=
  match sr with
  | Some (REPLY_ARRAY (Some (REPLY_STRING name) :: entries :: _)) => Some (c_str name, entries)
  | _ => None
  end.

Definition entry_count (entries : option redisReply) : Z :=
  match entries with Some (REPLY_ARRAY l) => s32 (zlen l) | _ => 0 end.

Fixpoint read_streams (l : list (option redisReply)) (processed : Z) c : exec (Z * cf_consumer_t W) :=
  match l with
  | [] => Ret (processed, c)
  | sr :: l =>
      match stream_of sr with
      | None => read_streams l processed c
      | Some (name, entries) =>
          c ← process_entries_array name entries c;
          read_streams l (processed + entry_count entries) c
      end
  end.

Definition read_new (block_ms : Z) c : exec (Z * cf_consumer_t W) :=
  let '(ok, c) := c_call (AskMalloc at_argv) c in
  if negb ok then Ret (0, c)
  else
    '(r, c) ← redis (readgroup_argv block_ms) c;
    match r with
    | Some (REPLY_ARRAY l) => read_streams l 0 c
    | _ => Ret (0, c)
    end.

(** ** Reconnecting *)

Definition connection_dead c : bool * cf_consumer_t W :=
  if c_ctx c then c_call AskConnErr c else (true, c).

(** [atoi]: [strtol] converted to an [int]. *)
Definition atoi (l : list Z) : Z := s32 match strtol l with Some (v, _) => v | None => 0 end.

(** The host and port of an endpoint. *)
Definition parse_endpoint (ep : list Z) : option (list Z * Z) :=
  match last_colon ep with
  | None => None
  | Some (host, port) =>
      if bool_decide (host = []) || (256 <=? zlen host) then None
      else
        let port := atoi port in
        if (port <=? 0) || (65535 <? port) then None else Some (host, port)
  end.

Definition connect_endpoint (ep : list Z) c : bool * cf_consumer_t W :=
  match parse_endpoint ep with
  | None => (false, c)
  | Some (host, port) => c_call (AskConnect host port) c
  end.

Definition CF_CONSUMER_RECONNECT_BACKOFF_INITIAL_NS : Z := 100 * 1000 * 1000.
Definition CF_CONSUMER_RECONNECT_BACKOFF_MAX_NS : Z := 5000 * 1000 * 1000.
Definition CF_CONSUMER_RECONNECT_SLEEP_CHUNK_NS : Z := 50 * 1000 * 1000.

Fixpoint reconnect_sleep (fuel : nat) (remaining : Z) c : exec (cf_consumer_t W) :=
  match fuel with
  | O => Spin
  | S fuel =>
      if 0 <? remaining then
        let '(stop, c) := c_call AskStop c in
        if (stop : bool) then Ret c
        else
          let chunk := Z.min remaining CF_CONSUMER_RECONNECT_SLEEP_CHUNK_NS in
          let '(_, c) := c_call (AskSleepNs chunk) c in
          reconnect_sleep fuel (remaining - chunk) c
      else Ret c
  end.
Definition RECONNECT_SLEEP_FUEL : nat := 101.

(** The endpoints tried in one round, from [idx]; whether one answered. *)
Fixpoint try_endpoints (tries : nat) (idx : Z) c : exec (bool * Z * cf_consumer_t W) :=
  match tries with
  | O => Ret (false, idx, c)
  | S tries =>
      match endpoints cfg !! Z.to_nat (idx mod zlen (endpoints cfg)) with
      | None => Oob
      | Some ep =>
          let idx := u64 (idx + 1) in
          let '(ok, c) := connect_endpoint ep c in
          if negb ok then try_endpoints tries idx c
          else
            '(rc, c) ← cf_consumer_ensure_groups (set_ctx true c);
            if negb (rc =? 0) then try_endpoints tries idx (set_ctx false c)
            else Ret (true, idx, c)
      end
  end.

Fixpoint reconnect_loop (rounds : nat) (backoff_ns idx : Z) c : exec (Z * cf_consumer_t W) :=
  match rounds with
  | O => Spin
  | S rounds =>
      let '(stop, c) := c_call AskStop c in
      if (stop : bool) then Ret (-1, c)
      else
        '(ok, idx, c) ← try_endpoints (length (endpoints cfg)) idx c;
        if (ok : bool) then Ret (0, c)
        else
          c ← reconnect_sleep RECONNECT_SLEEP_FUEL backoff_ns c;
          reconnect_loop rounds (Z.min (backoff_ns * 2) CF_CONSUMER_RECONNECT_BACKOFF_MAX_NS) idx c
  end.

Definition reconnect_redis (rounds : nat) c : exec (Z * cf_consumer_t W) :=
  reconnect_loop rounds CF_CONSUMER_RECONNECT_BACKOFF_INITIAL_NS 0 (set_ctx false c).

(** ** The lag gauge *)

(** The lags the groups of one stream report for this sink's group. *)
Fixpoint group_lags (l : list (option redisReply)) : list Z :=
  match l with
  | [] => []
  | g :: l =>
      match field_get g "name", field_get g "lag" with
      | Some (REPLY_STRING name), Some (REPLY_INTEGER lag) =>
          if bool_decide (c_str name = consumer_group cfg) && (0 <=? lag) then lag :: group_lags l
          else group_lags l
      | _, _ => group_lags l
      end
  end.

(** The lags of every stream, [None] when the connection died meanwhile. *)
Fixpoint sample_streams (l : list (list Z)) (lags : list Z) c : exec (option (list Z) * cf_consumer_t W) :=
  match l with
  | [] => Ret (Some lags, c)
  | st :: l =>
      '(r, c) ← redis [bs "XINFO"; bs "GROUPS"; st] c;
      match r with
      | None => Ret (None, c)
      | Some (REPLY_ARRAY gs) => sample_streams l (lags ++ group_lags gs) c
      | Some _ => sample_streams l lags c
      end
  end.

Definition sample_stream_lag c : exec (cf_consumer_t W) :=
  let '(dead, c) := connection_dead c in
  if (dead : bool) then Ret c
  else
    '(lags, c) ← sample_streams (streams cfg) [] c;
    match lags with
    | None | Some [] => Ret c
    | Some lags => Ret (c_count (count_store redis_stream_lag (foldl Z.add 0 lags)) c)
    end.

Definition CF_CONSUMER_LAG_SAMPLE_INTERVAL_NS : Z := 10000 * 1000 * 1000.

Definition maybe_sample_stream_lag c : exec (cf_consumer_t W) :=
  let '(now, c) := c_call AskMono c in
  if now - c_last_lag c <? CF_CONSUMER_LAG_SAMPLE_INTERVAL_NS then Ret c
  else sample_stream_lag (set_times (c_last_flush c) now c).

(** ** Life cycle *)

Fixpoint dup_cursors (n : nat) c : Z * cf_consumer_t W :=
  match n with
  | O => (0, c)
  | S n =>
      let '(ok, c) := c_call (AskMalloc at_cursor) c in
      if (ok : bool) then
        let c := set_cursors (<[(length (streams cfg) - S n)%nat := Some (bs "0-0")]> (c_cursors c)) c in
        dup_cursors n c
      else (-1, c)
  end.

Definition CF_CONSUMER_DEFAULT_MIN_IDLE_MS : Z := 60000.

(** [calloc] leaves every cursor [NULL]; on failure there are none. *)
Definition cf_consumer_init (h : gmap Z (list Z)) (s : sink W) : Z * cf_consumer_t W :=
  let '(now, s) := call AskMono s in
  let c := {| c_sink := s; c_heap := h; c_ctx := true; c_stdout := false;
              c_min_idle_ms := CF_CONSUMER_DEFAULT_MIN_IDLE_MS; c_batch := []; c_batch_cap := 0;
              c_last_flush := now; c_last_lag := now; c_cursors := [] |} in
  let '(ok, c) := c_call (AskMalloc at_cursors) c in
  if (ok : bool)
  then dup_cursors (length (streams cfg)) (set_cursors (replicate (length (streams cfg)) None) c)
  else (-1, c).

Definition cf_consumer_set_stdout c : cf_consumer_t W :=
  {| c_sink := c_sink c; c_heap := c_heap c; c_ctx := c_ctx c; c_stdout := true;
     c_min_idle_ms := c_min_idle_ms c; c_batch := c_batch c; c_batch_cap := c_batch_cap c;
     c_last_flush := c_last_flush c; c_last_lag := c_last_lag c; c_cursors := c_cursors c |}.
Definition cf_consumer_set_delivery c : cf_consumer_t W :=
  {| c_sink := c_sink c; c_heap := c_heap c; c_ctx := c_ctx c; c_stdout := false;
     c_min_idle_ms := c_min_idle_ms c; c_batch := c_batch c; c_batch_cap := c_batch_cap c;
     c_last_flush := c_last_flush c; c_last_lag := c_last_lag c; c_cursors := c_cursors c |}.
Definition cf_consumer_set_min_idle_ms (ms : Z) c : cf_consumer_t W :=
  {| c_sink := c_sink c; c_heap := c_heap c; c_ctx := c_ctx c; c_stdout := c_stdout c;
     c_min_idle_ms := ms; c_batch := c_batch c; c_batch_cap := c_batch_cap c;
     c_last_flush := c_last_flush c; c_last_lag := c_last_lag c; c_cursors := c_cursors c |}.

Fixpoint once_loop (reads : nat) c : exec (cf_consumer_t W) :=
  match reads with
  | O => Spin
  | S reads =>
      '(n, c) ← read_new (-1) c;
      c ← maybe_flush c;
      if n =? 0 then Ret c else once_loop reads c
  end.

Definition cf_consumer_run_once (reads : nat) c : exec (Z * cf_consumer_t W) :=
  '(rc, c) ← cf_consumer_ensure_groups c;
  if negb (rc =? 0) then Ret (-1, c)
  else
    c ← reclaim_all c;
    c ← maybe_flush c;
    c ← once_loop reads c;
    c ← flush_batch c;
    Ret (0, c).

(** One turn of the loop: whether to go on. *)
Definition forever_step (rounds : nat) c : exec (bool * cf_consumer_t W) :=
  let '(stop, c) := c_call AskStop c in
  if (stop : bool) then Ret (false, c)
  else
    let '(dead, c) := connection_dead c in
    '(rc, c) ← (if (dead : bool) then reconnect_redis rounds c else Ret (0, c));
    if negb (rc =? 0) then Ret (false, c)
    else
      c ← reclaim_all c;
      c ← maybe_flush c;
      let '(stop, c) := c_call AskStop c in
      if (stop : bool) then Ret (false, c)
      else
        '(_, c) ← read_new (block_ms cfg) c;
        c ← maybe_flush c;
        c ← maybe_sample_stream_lag c;
        Ret (true, c_count (cf_stats_maybe_emit 10000) c).

Fixpoint forever_loop (turns rounds : nat) c : exec (cf_consumer_t W) :=
  match turns with
  | O => Spin
  | S turns =>
      '(go, c) ← forever_step rounds c;
      if (go : bool) then forever_loop turns rounds c else Ret c
  end.

Definition cf_consumer_run_forever (turns rounds : nat) c : exec (Z * cf_consumer_t W) :=
  '(rc, c) ← cf_consumer_ensure_groups c;
  if negb (rc =? 0) then Ret (-1, c)
  else
    c ← forever_loop turns rounds c;
    c ← flush_batch c;
    Ret (0, c_count cf_stats_emit c).

Definition cf_consumer_free c : exec (cf_consumer_t W) :=
  c ← batch_clear c; Ret (set_cursors [] (set_batch [] 0 c)).
End Consumer.
