(* ===== verification/SinkConsumerSpec.v ===== *)
(** * SinkConsumerSpec: what the sink consumer promises

    No entry is acknowledged before it is delivered, printed, dead-lettered or
    known to render to nothing, over whole runs of the consumer; a flush settles
    what the delivery client settled; the ownership of the line buffers. *)

From stdpp Require Import gmap.
From S2P Require Import Prelude Hiredis SinkWorld HttpDeliver SinkConsumer.

(** ** The contract of a delivery client *)

Section Contract.
Context {W : Type} `{World W}.

Definition delivery_contract (items : list cf_batch_item_t) (s : sink W) : flags * sink W -> Prop :=
  fun '(f', s') => exists new, log s' = log s ++ new /\ flags_len (zlen items) f' /\
    (forall i, 0 <= i < zlen items -> fate items new i (entry f' i)) /\
    Forall private new /\
    (latched (world s) -> latched (world s') /\ Forall no_post new).

Class DeliveryLaws `{Delivery W} : Prop :=
  send_batch_ok items f s : flags_len (zlen items) f -> room items < 2 ^ 64 ->
    safe (send_batch items f s) (delivery_contract items s).
End Contract.
Arguments DeliveryLaws W {_ _}.

(** [cf_hec_client_send_batch]: the HTTP policy is a delivery client. *)
Section Http.
Context {W : Type} `{World W} (retries : nat).

Definition cf_hec_client_send_batch : Delivery W :=
  fun items f s => cf_sink_http_deliver_batched retries items (zlen items) f s.

Lemma http_delivery_laws : @DeliveryLaws W _ cf_hec_client_send_batch.
Proof.
  intros items f s Hf Hr. pose proof (deliver_spec retries items f s Hf Hr) as H1.
  pose proof (deliver_latched retries items f s) as H2.
  unfold send_batch, cf_hec_client_send_batch.
  destruct (cf_sink_http_deliver_batched _ _ _ _ _) as [[f' s']| |]; [|done|done].
  cbn [safe] in *. destruct H1 as (new & [G _] & L & F & P & _). exists new.
  split; [done|]. split; [done|]. split; [done|]. split.
  - eapply list.Forall_impl; [exact P|]. by intros [].
  - intros Hl. destruct (H2 Hl Hf) as [Hl' (new' & G' & Hn)]. split; [done|].
    rewrite G in G'. by apply app_inv_head in G' as ->.
Qed.
End Http.

(** ** What an acknowledgement must be backed by *)

Section Spec.
Context {W : Type} `{World W} {Ev : Type} (unpack : list Z -> W -> option Ev * W)
  (transform : option (Ev -> list Z -> W -> Z * option (list Z) * W))
  `{Delivery W} (cfg : cf_sink_config_t).
Implicit Types (c : cf_consumer_t W) (l : list event).

(** The entry [id] of [stream], with these fields, came in some reply. *)
Inductive received l (stream id : list Z) (fields : option redisReply) : Prop :=
| received_new block ls sr entries e :
    ERedis (readgroup_argv cfg block) (Some (REPLY_ARRAY ls)) ∈ l -> sr ∈ ls ->
    stream_of sr = Some (stream, Some (REPLY_ARRAY entries)) -> e ∈ entries ->
    entry_of e = Some (id, fields) -> received l stream id fields
| received_claimed idle cursor next entries rest e :
    ERedis [bs "XAUTOCLAIM"; stream; consumer_group cfg; consumer_name cfg; idle; cursor;
            bs "COUNT"; sdec (read_count cfg)]
      (Some (REPLY_ARRAY (next :: Some (REPLY_ARRAY entries) :: rest))) ∈ l ->
    e ∈ entries -> entry_of e = Some (id, fields) -> received l stream id fields.

(** The payload renders to [data] for some state of the world. *)
Definition renders (stream payload : list Z) (data : option (list Z)) : Prop :=
  exists ev h w w1 w2 w3, unpack payload w = (Some ev, w1) /\
    run_transform transform ev stream h w2 = (0, data, w3).

(** The bytes an entry carries as payload, whatever the rest. *)
Definition raw_payload (fields : option redisReply) : list Z :=
  default [] (field_get fields "payload" ≫= reply_str).

(** Reasons to acknowledge. *)
Inductive settled l (stream id : list Z) (fields : option redisReply) : Prop :=
| settled_delivered payload line lines status errbuf :
    entry_payload fields = Some payload -> renders stream payload (Some line) ->
    c_str line ∈ lines -> EPost (join_lines lines) status errbuf ∈ l -> success status = true ->
    settled l stream id fields
| settled_printed payload line :
    entry_payload fields = Some payload -> renders stream payload (Some line) ->
    EPrint (c_str line) ∈ l -> settled l stream id fields
| settled_dead dl reason error r :
    ERedis (deadletter_argv dl reason stream id error (raw_payload fields)) r ∈ l ->
    confirmed r = true -> settled l stream id fields
| settled_empty payload data :
    entry_payload fields = Some payload -> renders stream payload data -> default [] data = [] ->
    settled l stream id fields.

Definition backed l (stream id : list Z) : Prop :=
  exists fields, received l stream id fields /\ settled l stream id fields.

(** Every acknowledgement of [l] is backed by what precedes it. *)
Definition acks_ok l : Prop :=
  forall pre stream id r post,
    l = pre ++ ERedis [bs "XACK"; stream; consumer_group cfg; id] r :: post -> backed pre stream id.

Definition not_ack (e : event) : Prop :=
  match e with ERedis (cmd :: _) _ => cmd <> bs "XACK" | _ => True end.

Lemma received_mono l l' stream id fields : l ⊆ l' -> received l stream id fields ->
  received l' stream id fields.
Proof. intros Hl []; [eapply received_new|eapply received_claimed]; eauto. Qed.

Lemma settled_mono l l' stream id fields : l ⊆ l' -> settled l stream id fields ->
  settled l' stream id fields.
Proof.
  intros Hl []; [eapply settled_delivered|eapply settled_printed|eapply settled_dead
    |eapply settled_empty]; eauto.
Qed.

Lemma acks_ok_snoc l e : acks_ok l ->
  (forall stream id r, e = ERedis [bs "XACK"; stream; consumer_group cfg; id] r -> backed l stream id) ->
  acks_ok (l ++ [e]).
Proof.
  intros Hl He pre stream id r post E.
  destruct post as [|e' post _] using rev_ind.
  - apply app_inj_tail in E as [<- ->]. by eapply He.
  - rewrite app_comm_cons, app_assoc in E. apply app_inj_tail in E as [-> _]. by eapply Hl.
Qed.

Lemma acks_ok_app l new : acks_ok l -> Forall not_ack new -> acks_ok (l ++ new).
Proof.
  intros Hl Hn. induction new as [|e new IH] using rev_ind; [by rewrite app_nil_r|].
  apply Forall_app in Hn as [Hn He]. rewrite app_assoc. apply acks_ok_snoc; [by apply IH|].
  intros stream id r ->. inversion He as [|? ? Hne]; subst. by destruct Hne.
Qed.

(** ** The invariant *)

(** A pending item: its entry was received, and its line is what its payload
    renders to. *)
Definition pending_ok c (it : cf_consumer_batch_item_t) : Prop :=
  exists fields line, received (log (c_sink c)) (b_stream it) (b_entry_id it) fields /\
    entry_payload fields = Some (b_payload it) /\
    c_heap c !! b_line it = Some line /\ renders (b_stream it) (b_payload it) (Some line).

Record inv c : Prop := {
  inv_acks : acks_ok (log (c_sink c));
  inv_items : Forall (pending_ok c) (c_batch c);
  inv_lines : NoDup (map b_line (c_batch c));
  inv_room : heap_room (c_heap c) < ADDRESS_SPACE;
  inv_cap : zlen (c_batch c) <= c_batch_cap c;
  inv_mem : c_batch_cap c * BATCH_ITEM_SIZE <= PTRDIFF_MAX;
  inv_cursors : length (c_cursors c) = length (streams cfg) /\ Forall is_Some (c_cursors c)
}.

(** What each operation keeps: the log grows, the connection and the mode
    stay. *)
Definition steps c c' : Prop :=
  log (c_sink c) `prefix_of` log (c_sink c') /\ c_ctx c' = c_ctx c /\ c_stdout c' = c_stdout c.
Definition good c c' : Prop := inv c' /\ steps c c'.

Lemma steps_refl c : steps c c.
Proof. by split. Qed.

Lemma steps_trans c1 c2 c3 : steps c1 c2 -> steps c2 c3 -> steps c1 c3.
Proof. intros (? & ? & ?) (? & ? & ?). split; [by etrans|]. split; congruence. Qed.

Lemma good_trans c1 c2 c3 : steps c1 c2 -> good c2 c3 -> good c1 c3.
Proof. intros H1 [? H2]. split; [done|]. by eapply steps_trans. Qed.

Lemma pending_ok_mono c c' it : log (c_sink c) ⊆ log (c_sink c') -> c_heap c' = c_heap c ->
  pending_ok c it -> pending_ok c' it.
Proof.
  intros Hl Hh (fields & line & Hr & Hp & Hline & Hren). exists fields, line.
  rewrite Hh. eauto using received_mono.
Qed.

(** Anything that only adds other events than acknowledgements to the log. *)
Definition same_fields c c' : Prop :=
  c_heap c' = c_heap c /\ c_batch c' = c_batch c /\ c_batch_cap c' = c_batch_cap c /\
  c_cursors c' = c_cursors c /\ c_ctx c' = c_ctx c /\ c_stdout c' = c_stdout c.

Lemma inv_log c c' new : inv c -> log (c_sink c') = log (c_sink c) ++ new -> Forall not_ack new ->
  same_fields c c' -> good c c'.
Proof.
  intros [Ha Hi Hl Hr Hc Hm Hcur] El Hn (Eh & Eb & Ec & Ecur & Ectx & Est).
  assert (log (c_sink c) ⊆ log (c_sink c')) as Hsub by (rewrite El; set_solver).
  split; [|split; [by exists new|done]]. constructor; rewrite ?Eh, ?Eb, ?Ec, ?Ecur; try done.
  - rewrite El. by apply acks_ok_app.
  - eapply list.Forall_impl; [exact Hi|]. intros it. by apply pending_ok_mono.
Qed.

(** [c'] comes after [c], which did [e] meanwhile. *)
Definition did c c' (e : event) : Prop := exists new, log (c_sink c') = log (c_sink c) ++ new /\ e ∈ new.

Lemma did_steps_l c1 c2 c3 e : did c1 c2 e -> steps c2 c3 -> did c1 c3 e.
Proof.
  intros (new & E & Hin) ([new' E'] & _). exists (new ++ new'). rewrite E', E, app_assoc. set_solver.
Qed.

Lemma did_steps_r c1 c2 c3 e : steps c1 c2 -> did c2 c3 e -> did c1 c3 e.
Proof.
  intros ([new' E'] & _) (new & E & Hin). exists (new' ++ new). rewrite E, E', app_assoc. set_solver.
Qed.

Lemma did_log c c' e : did c c' e -> e ∈ log (c_sink c').
Proof. intros (new & -> & Hin). set_solver. Qed.

Lemma c_call_eq {A} (q : ask A) c a c' : c_call q c = (a, c') ->
  answer q (world (c_sink c)) = (a, world (c_sink c')) /\
  log (c_sink c') = log (c_sink c) ++ [note q a] /\ same_fields c c'.
Proof.
  unfold c_call. destruct (call q (c_sink c)) as [a0 s] eqn:E.
  apply call_eq in E as (Ea & [El _] & _). by intros [= <- <-].
Qed.

(** A call that is no command. *)
Definition no_command {A} (q : ask A) : bool := match q with AskRedis _ => false | _ => true end.

Lemma no_command_not_ack {A} (q : ask A) a : no_command q = true -> not_ack (note q a).
Proof. destruct q; cbn; try done. by destruct a. Qed.

Lemma c_call_good {A} (q : ask A) c a c' : no_command q = true -> inv c -> c_call q c = (a, c') ->
  good c c'.
Proof.
  intros Hq Hi (_ & El & E)%c_call_eq. eapply inv_log; [done|exact El| |done]. repeat constructor. by apply no_command_not_ack.
Qed.

Lemma c_count_good c f : inv c -> (forall s, log (f s) = log s) -> good c (c_count f c).
Proof. intros Hi Hf. eapply (inv_log _ _ []); try done. cbn. by rewrite Hf, app_nil_r. Qed.

Lemma with_world_good c w : inv c -> good c (with_world w c).
Proof. intros Hi. eapply (inv_log _ _ []); try done. cbn. by rewrite app_nil_r. Qed.

Lemma redis_good cmd argv c : cmd <> bs "XACK" -> inv c -> c_ctx c = true ->
  safe (redis (cmd :: argv) c) (fun '(r, c') => good c c' /\ did c c' (ERedis (cmd :: argv) r)).
Proof.
  intros Hc Hi Hx. unfold redis. rewrite Hx. cbn [safe].
  destruct (c_call (AskRedis (cmd :: argv)) c) as [r c'] eqn:E. apply c_call_eq in E as (_ & El & E).
  split; [|exists [ERedis (cmd :: argv) r]; split; [done|set_solver]]. eapply inv_log; [done|exact El|by repeat constructor|done].
Qed.

Lemma xack_good stream id c : inv c -> c_ctx c = true -> backed (log (c_sink c)) stream id ->
  safe (xack cfg stream id c) (fun c' => good c c' /\
    exists r, did c c' (ERedis [bs "XACK"; stream; consumer_group cfg; id] r)).
Proof.
  intros Hi Hx Hb. unfold xack, redis. rewrite Hx. apply safe_bind, safe_ret.
  destruct (c_call (AskRedis _) c) as [r c'] eqn:E. apply c_call_eq in E as (_ & El & Eh & Eb & Ec & Ecur & Ectx & Est).
  cbn [safe]. destruct Hi as [Ha Hit Hl Hr Hc Hm Hcur].
  split; [|exists r, [ERedis [bs "XACK"; stream; consumer_group cfg; id] r]; split; [done|set_solver]].
  assert (log (c_sink c) ⊆ log (c_sink c')) as Hsub by (rewrite El; set_solver).
  split; [|split; [by eexists|done]]. constructor; rewrite ?Eh, ?Eb, ?Ec, ?Ecur; try done.
  - rewrite El. apply acks_ok_snoc; [done|]. by intros stream' id' r' [= -> -> _].
  - eapply list.Forall_impl; [exact Hit|]. intros it. by apply pending_ok_mono.
Qed.

Lemma good_inv c c' : good c c' -> inv c'.
Proof. by intros [? _]. Qed.
Lemma good_steps c c' : good c c' -> steps c c'.
Proof. by intros [_ ?]. Qed.
Lemma steps_ctx c c' b : steps c c' -> c_ctx c = b -> c_ctx c' = b.
Proof. intros (_ & -> & _). done. Qed.
Lemma steps_log c c' : steps c c' -> log (c_sink c) ⊆ log (c_sink c').
Proof. intros ([new ->] & _). set_solver. Qed.
Lemma good_refl c : inv c -> good c c.
Proof. intros Hi. split; [done|apply steps_refl]. Qed.

(** Sequencing: the first operation keeps [good], the second starts from its
    result. *)
Lemma good_bind {A} (m : exec A) (k : A -> exec (cf_consumer_t W)) c (proj : A -> cf_consumer_t W)
    (P : A -> Prop) :
  safe m (fun a => good c (proj a) /\ P a) ->
  (forall a, good c (proj a) -> P a -> safe (k a) (good (proj a))) ->
  safe (m ≫= k) (good c).
Proof.
  intros Hm Hk. apply safe_bind. eapply safe_mono; [exact Hm|]. intros a [Hg Hp].
  eapply safe_mono; [by apply Hk|]. intros c' Hg'. eapply good_trans; [by apply good_steps|done].
Qed.

Lemma good_seq m (k : cf_consumer_t W -> exec (cf_consumer_t W)) c :
  safe m (good c) -> (forall c', good c c' -> safe (k c') (good c')) -> safe (m ≫= k) (good c).
Proof.
  intros Hm Hk. apply (good_bind m k c id (fun _ => True)); [|by intros; apply Hk].
  eapply safe_mono; [exact Hm|]. by intros.
Qed.

Lemma good_from c c' m : good c c' -> safe m (good c') -> safe m (good c).
Proof.
  intros Hg Hm. eapply safe_mono; [exact Hm|]. intros c'' Hg'.
  eapply good_trans; [by apply good_steps|done].
Qed.

(** The dead letter is refused, or confirmed and the entry acknowledged. *)
Definition acked stream id c c' : Prop :=
  exists r, did c c' (ERedis [bs "XACK"; stream; consumer_group cfg; id] r).
Definition buried stream id reason error payload c c' : Prop :=
  acked stream id c c' \/ c_ctx c = false \/ deadletter_stream cfg = None \/
  exists dl r, did c c' (ERedis (deadletter_argv dl reason stream id error payload) r) /\
    confirmed r = false.

Lemma dead_letter_good stream id reason error fields c : inv c ->
  received (log (c_sink c)) stream id fields ->
  safe (dead_letter_and_ack cfg stream id reason error (raw_payload fields) c) (fun c' =>
    good c c' /\ buried stream id reason error (raw_payload fields) c c').
Proof.
  intros Hi Hr. unfold dead_letter_and_ack, cf_deadletter_write.
  destruct (c_ctx c) eqn:Hx.
  2: { apply safe_bind, safe_ret. split; [by apply good_refl|right; by left]. }
  destruct (deadletter_stream cfg) as [dl|] eqn:Hdl.
  2: { apply safe_bind, safe_ret. split; [by apply good_refl|do 2 right; by left]. }
  apply safe_bind, safe_bind. eapply safe_mono; [by apply (redis_good (bs "XADD"))|].
  intros [r c1] [Hg Hin]. cbv beta iota. destruct (confirmed r) eqn:Hc; cbn [safe].
  2: { split; [done|]. do 3 right. by exists dl, r. }
  change (0 =? 0) with true. cbv iota.
  assert (good c1 (c_count (count_inc deadletter_total) c1)) as Hg1
    by (apply c_count_good; [by eapply good_inv|done]).
  eapply safe_mono.
  - apply xack_good; [by eapply good_inv|exact (steps_ctx _ _ _ (good_steps _ _ Hg) Hx)|].
    exists fields. split; [|eapply settled_dead; [exact (did_log _ _ _ Hin)|done]].
    eapply received_mono, Hr. exact (steps_log _ _ (good_steps _ _ Hg)).
  - intros c2 [Hg2 [r2 Hd]].
    assert (good c (c_count (count_inc deadletter_total) c1)) as Hg01
      by (eapply good_trans; [by apply good_steps|done]).
    split; [eapply good_trans; [by apply good_steps|done]|]. left. exists r2.
    eapply did_steps_r; [by apply good_steps|done].
Qed.

(** ** Lines and the batch *)

Lemma heap_room_insert h p line : h !! p = None ->
  heap_room (<[p := line]> h) = zlen line + 1 + heap_room h.
Proof. intros Hp. unfold heap_room. rewrite (map_fold_insert_L (fun _ (line : list Z) n => zlen line + 1 + n)); [done|intros; lia|done]. Qed.

Lemma heap_room_delete h p line : h !! p = Some line ->
  heap_room h = zlen line + 1 + heap_room (delete p h).
Proof. intros Hp. unfold heap_room. by rewrite (map_fold_delete_L (fun _ (line : list Z) n => zlen line + 1 + n) 0 p line) by (done || intros; lia). Qed.

Lemma pending_line c it : pending_ok c it -> is_Some (c_heap c !! b_line it).
Proof. intros (? & line & _ & _ & E & _). by exists line. Qed.

(** Only the heap changes, away from the batch. *)
Lemma inv_heap c h : inv c -> heap_room h < ADDRESS_SPACE ->
  (forall p, p ∈ map b_line (c_batch c) -> h !! p = c_heap c !! p) -> good c (set_heap h c).
Proof.
  intros [Ha Hit Hl Hr Hc Hm Hcur] Hroom Hh. split; [|done]. constructor; try done.
  apply Forall_forall. intros it Hin. rewrite Forall_forall in Hit.
  destruct (Hit it Hin) as (fields & line & H1 & H2 & H3 & H4). exists fields, line.
  do 2 (split; [done|]). split; [|done]. cbn. rewrite Hh; [done|].
  apply list_elem_of_In, in_map, Hin.
Qed.

Lemma line_free_good p c : inv c -> p ∉ map b_line (c_batch c) -> is_Some (c_heap c !! p) ->
  safe (line_free p c) (good c).
Proof.
  intros Hi Hp [line E]. unfold line_free. rewrite E. cbn [safe]. apply inv_heap; [done| |].
  - destruct Hi as [_ _ _ Hr _ _ _]. rewrite (heap_room_delete _ _ _ E) in Hr. lia.
  - intros q Hq. apply lookup_delete_ne. by intros ->.
Qed.

Lemma batch_reserve_good c : inv c ->
  let '(rc, c') := batch_reserve c in good c c' /\ c_heap c' = c_heap c /\ c_batch c' = c_batch c /\
    (rc = 0 -> zlen (c_batch c') < c_batch_cap c').
Proof.
  intros Hi. unfold batch_reserve. pose proof Hi as [_ _ _ _ Hc Hm _].
  destruct (zlen (c_batch c) =? c_batch_cap c) eqn:E; [|split; [by apply good_refl|]; split; [done|];
    split; [done|lia]].
  set (newcap := if c_batch_cap c =? 0 then 128 else u64 (c_batch_cap c * 2)).
  unfold BATCH_ITEM_SIZE, PTRDIFF_MAX in *.
  assert (c_batch_cap c < newcap /\ 0 <= newcap * 40 < 2 ^ 64) as [Hn Hb].
  { unfold newcap. destruct (c_batch_cap c =? 0) eqn:E0; [lia|]. rewrite u64_id by lia. lia. }
  destruct (c_call (AskMalloc at_batch_grow) c) as [ok c1] eqn:Eq.
  pose proof (c_call_good (AskMalloc at_batch_grow) c ok c1 eq_refl Hi Eq) as Hg.
  apply c_call_eq in Eq as (_ & _ & Eh & Eb & Ec & _).
  destruct (ok && _) eqn:Eok; [|split; [done|]; split; [done|]; split; [done|done]].
  rewrite u64_id in Eok by lia.
  split; [|split; [done|]; split; [done|]; cbn; rewrite Eb; lia].
  destruct Hg as [[Ha Hit Hl Hr Hc' Hm' Hcur] Hs]. split; [|exact Hs].
  constructor; cbn [c_sink c_heap c_batch c_batch_cap c_cursors set_batch]; try done; rewrite ?Eb;
    unfold BATCH_ITEM_SIZE, PTRDIFF_MAX; lia.
Qed.

(** The allocations that copy an entry's names and cursor succeed. *)
Hypothesis copies : forall w where_,
  In where_ [at_batch_stream; at_batch_id; at_batch_payload; at_cursor] ->
  fst (answer (AskMalloc where_) w) = true.

Lemma c_call_copy where_ c ok c' :
  In where_ [at_batch_stream; at_batch_id; at_batch_payload; at_cursor] ->
  inv c -> c_call (AskMalloc where_) c = (ok, c') -> ok = true /\ good c c' /\ same_fields c c'.
Proof.
  intros Hin Hi E. split; [|split; [by eapply c_call_good; [|done|exact E]|]].
  - apply c_call_eq in E as (Ea & _). pose proof (copies (world (c_sink c)) where_ Hin) as Hok.
    by rewrite Ea in Hok.
  - by apply c_call_eq in E as (_ & _ & ?).
Qed.

Lemma batch_append_good stream id p line payload fields c : inv c ->
  received (log (c_sink c)) stream id fields -> entry_payload fields = Some payload ->
  renders stream payload (Some line) -> c_heap c !! p = Some line -> p ∉ map b_line (c_batch c) ->
  safe (batch_append stream id p payload c) (fun '(rc, c') => good c c' /\
    (rc = 0 \/ rc <> 0 /\ c_heap c' = c_heap c /\ c_batch c' = c_batch c)).
Proof.
  intros Hi Hrec Hpay Hren Hline Hp. unfold batch_append.
  pose proof (batch_reserve_good c Hi) as Hres. destruct (batch_reserve c) as [rc c0].
  destruct Hres as (Hg0 & Eh0 & Eb0 & Hroom).
  destruct (rc =? 0) eqn:Erc; cbn [negb].
  2: { split; [done|]. right. split; [lia|done]. }
  destruct (zlen (c_batch c0) <? c_batch_cap c0) eqn:Elt; cbn [negb]; [|lia].
  destruct (c_call (AskMalloc at_batch_stream) c0) as [ok1 c1] eqn:E1.
  apply c_call_copy in E1 as (-> & Hg1 & Es1); [|cbn; tauto|by eapply good_inv].
  destruct (c_call (AskMalloc at_batch_id) c1) as [ok2 c2] eqn:E2.
  apply c_call_copy in E2 as (-> & Hg2 & Es2); [|cbn; tauto|by eapply good_inv].
  destruct (c_call (AskMalloc at_batch_payload) c2) as [ok3 c3] eqn:E3.
  apply c_call_copy in E3 as (-> & Hg3 & Es3); [|cbn; tauto|by eapply good_inv].
  cbn [negb andb safe]. split; [|by left].
  assert (good c c3) as Hg by (eapply good_trans; [by apply good_steps|];
    eapply good_trans; [by apply good_steps|]; eapply good_trans; [by apply good_steps|done]).
  destruct Es1 as (Eh1 & Eb1 & Ec1 & _), Es2 as (Eh2 & Eb2 & Ec2 & _), Es3 as (Eh3 & Eb3 & Ec3 & _).
  destruct Hg as [[Ha Hit Hl Hr Hc Hm Hcur] Hs]. split; [|exact Hs].
  constructor; cbn [c_sink c_heap c_batch c_batch_cap c_cursors set_batch]; try done.
  - apply Forall_app. split; [exact Hit|]. constructor; [|done]. exists fields, line.
    cbn [b_stream b_entry_id b_payload b_line c_sink c_heap set_batch].
    split; [by eapply received_mono, Hrec; apply steps_log|]. rewrite Eh3, Eh2, Eh1, Eh0. auto.
  - rewrite map_app. apply list.NoDup_app. split; [done|]. split; [|apply NoDup_singleton].
    intros q Hq Hq'. cbn in Hq'. apply list_elem_of_singleton in Hq' as ->. apply Hp.
    by rewrite Eb3, Eb2, Eb1, Eb0 in Hq.
  - rewrite length_app, Ec3, Ec2, Ec1, Eb3, Eb2, Eb1. cbn. lia.
Qed.

(** ** One entry *)

Lemma entry_payload_raw fields payload : entry_payload fields = Some payload ->
  raw_payload fields = payload.
Proof.
  unfold entry_payload, raw_payload. intros E.
  destruct (field_get fields "encoding") as [[]|]; try done.
  destruct (field_get fields "schema") as [[]|]; try done.
  destruct (field_get fields "payload") as [[]|]; try done. by case_match; simplify_eq.
Qed.

Lemma decode_error_good stream id error fields c : inv c ->
  received (log (c_sink c)) stream id fields ->
  safe (decode_error cfg stream id error (raw_payload fields) c) (good c).
Proof.
  intros Hi Hr. unfold decode_error.
  assert (good c (c_count (count_inc protobuf_decode_errors_total) c)) as Hg by (by apply c_count_good).
  eapply good_from; [exact Hg|]. eapply safe_mono; [apply dead_letter_good; [by eapply good_inv|done]|].
  by intros c' [? _].
Qed.

Lemma run_transform_room ev stream h w rc data w' :
  run_transform transform ev stream h w = (rc, Some data, w') ->
  heap_room h + zlen data + 1 < ADDRESS_SPACE.
Proof.
  unfold run_transform. destruct transform as [f|]; [|done]. destruct (f ev stream w) as [[rc0 d0] w0].
  case_match eqn:E; [|done]. intros [= _ -> _]. apply Z.ltb_lt in E. exact E.
Qed.

(** Placing the rendered line and appending it. *)
Lemma place_line_good stream id line payload fields c : inv c ->
  received (log (c_sink c)) stream id fields -> entry_payload fields = Some payload ->
  renders stream payload (Some line) -> heap_room (c_heap c) + zlen line + 1 < ADDRESS_SPACE ->
  let p := fresh (dom (c_heap c)) in
  safe ('(rc, c') ← batch_append stream id p payload (set_heap (<[p := line]> (c_heap c)) c);
        if negb (rc =? 0) then line_free p c' else Ret c') (good c).
Proof.
  intros Hi Hrec Hpay Hren Hroom p. set (c1 := set_heap _ c).
  assert (c_heap c !! p = None) as Hp by (apply not_elem_of_dom, is_fresh).
  assert (p ∉ map b_line (c_batch c)) as Hb.
  { intros (it & E & Hin)%list_elem_of_In%in_map_iff. pose proof Hi as [_ Hit _ _ _ _ _].
    rewrite Forall_forall in Hit. destruct (pending_line _ _ (Hit it Hin)) as [x Hx]. congruence. }
  assert (good c c1) as Hg.
  { apply inv_heap; [done| |].
    - rewrite heap_room_insert by done. lia.
    - intros q Hq. apply lookup_insert_ne. by intros ->. }
  eapply good_from; [exact Hg|].
  apply (good_bind _ _ _ snd (fun r => fst r = 0 \/ fst r <> 0 /\ c_heap (snd r) = c_heap c1 /\
    c_batch (snd r) = c_batch c1)).
  - eapply safe_mono; [by eapply (batch_append_good stream id p line payload fields);
      [apply good_inv in Hg|..|apply lookup_insert_eq|]|]. by intros [rc c2].
  - intros [rc c2] Hg2 Hrc. cbn [fst snd] in *. destruct (rc =? 0) eqn:E; cbn [negb].
    { apply good_refl. by eapply good_inv. }
    destruct Hrc as [?|(_ & Eh & Eb)]; [lia|].
    apply line_free_good; [by eapply good_inv|by rewrite Eb|]. rewrite Eh. cbn.
    rewrite lookup_insert_eq. by eexists.
Qed.

Lemma process_entry_good stream id fields c : inv c -> c_ctx c = true ->
  received (log (c_sink c)) stream id fields ->
  safe (process_entry unpack transform cfg stream id fields c) (good c).
Proof.
  intros Hi Hx Hrec. unfold process_entry.
  destruct (entry_payload fields) as [payload|] eqn:Epay; [|by apply decode_error_good].
  destruct (unpack payload (world (c_sink c))) as [[ev|] w1] eqn:Eu.
  2: { eapply good_from; [by apply (with_world_good c w1)|].
       rewrite <- (entry_payload_raw _ _ Epay).
       apply decode_error_good; [by eapply good_inv, with_world_good|done]. }
  cbn zeta. set (c1 := with_world w1 c).
  assert (good c c1) as Hg1 by (by apply with_world_good).
  destruct (run_transform transform ev stream (c_heap c1) (world (c_sink c1))) as [[trc data] w2] eqn:Et.
  set (c2 := with_world w2 c1).
  assert (good c c2) as Hg2 by (eapply good_trans; [by apply good_steps|apply with_world_good; by eapply good_inv]).
  eapply good_from; [exact Hg2|]. assert (inv c2) as Hi2 by (by eapply good_inv).
  destruct (trc =? 0) eqn:Etr; cbn [negb].
  2: { rewrite <- (entry_payload_raw _ _ Epay). by apply decode_error_good. }
  assert (trc = 0) as -> by lia.
  assert (renders stream payload data) as Hren by (by exists ev, (c_heap c1), (world (c_sink c)), w1, (world (c_sink c1)), w2).
  assert (default [] data = [] -> safe (xack cfg stream id c2) (good c2)) as Hempty.
  { intros Hd. eapply safe_mono; [apply xack_good; [done|done|]|by intros c' [? _]].
    exists fields. split; [done|]. by eapply settled_empty. }
  destruct data as [[|b line]|]; [by apply Hempty| |by apply Hempty].
  apply (place_line_good stream id (b :: line) payload fields); try done.
  by apply run_transform_room in Et.
Qed.

(** ** Printing and acknowledging *)

Lemma acked_steps_l stream id c1 c2 c3 : acked stream id c1 c2 -> steps c2 c3 -> acked stream id c1 c3.
Proof. intros [r Hd] Hs. exists r. by eapply did_steps_l. Qed.
Lemma acked_steps_r stream id c1 c2 c3 : steps c1 c2 -> acked stream id c2 c3 -> acked stream id c1 c3.
Proof. intros Hs [r Hd]. exists r. by eapply did_steps_r. Qed.

Lemma backed_mono c c' stream id : steps c c' -> backed (log (c_sink c)) stream id ->
  backed (log (c_sink c')) stream id.
Proof.
  intros Hs (fields & Hr & Hx). exists fields.
  split; [eapply received_mono, Hr|eapply settled_mono, Hx]; by apply steps_log.
Qed.

Lemma xack_all_good its : forall c, inv c -> c_ctx c = true ->
  Forall (fun it => backed (log (c_sink c)) (b_stream it) (b_entry_id it)) its ->
  safe (xack_all cfg its c) (fun c' => good c c' /\
    Forall (fun it => acked (b_stream it) (b_entry_id it) c c') its).
Proof.
  induction its as [|it its IH]; intros c Hi Hx Hb; cbn [xack_all].
  { split; [by apply good_refl|done]. }
  inversion Hb as [|? ? Hb1 Hb2]; subst. apply safe_bind.
  eapply safe_mono; [by apply xack_good|]. intros c1 [Hg Ha]. pose proof (good_steps _ _ Hg) as Hs.
  eapply safe_mono; [apply IH; [by eapply good_inv|by eapply steps_ctx|]|].
  - eapply list.Forall_impl; [exact Hb2|]. intros it'. by apply backed_mono.
  - intros c2 [Hg2 Ha2]. pose proof (good_steps _ _ Hg2) as Hs2. split; [by eapply good_trans|].
    constructor; [by eapply acked_steps_l|]. eapply list.Forall_impl; [exact Ha2|].
    intros it'. by apply acked_steps_r.
Qed.

Lemma pending_backed_printed c it line : pending_ok c it -> c_heap c !! b_line it = Some line ->
  EPrint (c_str line) ∈ log (c_sink c) -> backed (log (c_sink c)) (b_stream it) (b_entry_id it).
Proof.
  intros (fields & line' & Hr & Hp & Hl & Hren) Hl' Hin. assert (line' = line) as -> by congruence.
  exists fields. split; [done|]. by eapply settled_printed.
Qed.

Lemma print_lines_good its : forall c, inv c -> Forall (pending_ok c) its ->
  safe (print_lines its c) (fun c' => good c c' /\ same_fields c c' /\
    Forall (fun it => backed (log (c_sink c')) (b_stream it) (b_entry_id it)) its).
Proof.
  induction its as [|it its IH]; intros c Hi Hp; cbn [print_lines].
  { split; [by apply good_refl|]. by repeat split. }
  inversion Hp as [|? ? Hp1 Hp2]; subst. destruct (pending_line _ _ Hp1) as [line El].
  unfold load_line. rewrite El. apply safe_bind, safe_ret.
  destruct (c_call (AskPrint (c_str line)) c) as [u c1] eqn:Ec.
  pose proof (c_call_good (AskPrint (c_str line)) c u c1 eq_refl Hi Ec) as Hg.
  apply c_call_eq in Ec as (_ & Elog & Hsame). pose proof (good_steps _ _ Hg) as Hs.
  assert (forall it', pending_ok c it' -> pending_ok c1 it') as Hmono.
  { intros it'. apply pending_ok_mono; [by apply steps_log|by destruct Hsame]. }
  eapply safe_mono; [apply IH; [by eapply good_inv|eapply list.Forall_impl; eauto]|].
  intros c2 (Hg2 & Hsame2 & Hb2). pose proof (good_steps _ _ Hg2) as Hs2.
  split; [by eapply good_trans|]. split.
  - destruct Hsame as (? & ? & ? & ? & ? & ?), Hsame2 as (? & ? & ? & ? & ? & ?). repeat split; congruence.
  - constructor; [|done]. eapply backed_mono; [exact Hs2|].
    apply (pending_backed_printed c1 it line); [by apply Hmono|by destruct Hsame as [-> _]|].
    rewrite Elog. set_solver.
Qed.

(** ** Delivering a batch *)

Definition item_at (h : gmap Z (list Z)) (it : cf_consumer_batch_item_t) : cf_batch_item_t :=
  {| bi_stream := b_stream it; bi_entry_id := b_entry_id it;
     bi_line := default [] (h !! b_line it); bi_payload := b_payload it |}.

Lemma batch_items_eq its c : Forall (fun it => is_Some (c_heap c !! b_line it)) its ->
  batch_items its c = Ret (map (item_at (c_heap c)) its).
Proof.
  induction 1 as [|it its [line E] _ IH]; [done|]. cbn [batch_items map].
  unfold load_line. rewrite E. xbind. rewrite IH. xbind. unfold item_at. by rewrite E.
Qed.

Lemma c_str_short (s : list Z) : (length (c_str s) <= length s)%nat.
Proof. induction s as [|b s IH]; cbn; [lia|]. case_match; cbn; lia. Qed.

Lemma heap_room_nonneg h : 0 <= heap_room h.
Proof.
  unfold heap_room. apply (map_fold_weak_ind (fun n _ => 0 <= n)); [done|]. intros. cbn beta. lia.
Qed.

(** Distinct live blocks fit together. *)
Lemma room_items its : forall h, NoDup (map b_line its) ->
  Forall (fun it => is_Some (h !! b_line it)) its -> room (map (item_at h) its) <= heap_room h.
Proof.
  induction its as [|it its IH]; intros h Hn Hl; [apply heap_room_nonneg|].
  cbn [map] in Hn. apply list.NoDup_cons in Hn as [Hni Hn].
  inversion Hl as [|? ? [line E] Hl']; subst.
  change (room (map (item_at h) (it :: its)))
    with (zlen (item_line (item_at h it)) + 1 + room (map (item_at h) its)).
  assert (zlen (item_line (item_at h it)) <= zlen line).
  { unfold item_line, item_at. rewrite E. pose proof (c_str_short line). cbn. lia. }
  rewrite (heap_room_delete _ _ _ E).
  assert (forall it', it' ∈ its -> delete (b_line it) h !! b_line it' = h !! b_line it') as Hd.
  { intros it' Hin. apply lookup_delete_ne. intros Eq. apply Hni. rewrite Eq.
    apply list_elem_of_In, in_map, list_elem_of_In, Hin. }
  assert (map (item_at h) its = map (item_at (delete (b_line it) h)) its) as ->.
  { apply map_ext_in. intros it' Hin. unfold item_at. rewrite Hd; [done|]. by apply list_elem_of_In. }
  apply Z.add_le_mono; [lia|]. apply IH; [done|].
  apply Forall_forall. intros it' Hin. rewrite Hd by (by apply list_elem_of_In).
  rewrite Forall_forall in Hl'. by apply Hl'.
Qed.

(** Item [i] of the batch, its flags set: what settling it needs. *)
Definition item_ready c f (i : nat) (it : cf_consumer_batch_item_t) : Prop :=
  exists d p e fields, entry f (Z.of_nat i) = (Some d, Some p, Some e) /\
    (d <> 0 -> c_ctx c = true /\ backed (log (c_sink c)) (b_stream it) (b_entry_id it)) /\
    received (log (c_sink c)) (b_stream it) (b_entry_id it) fields /\
    entry_payload fields = Some (b_payload it).

(** What settling item [i] did. *)
Definition item_done c c' f (i : nat) (it : cf_consumer_batch_item_t) : Prop :=
  exists d p e, entry f (Z.of_nat i) = (Some d, Some p, Some e) /\
    (d <> 0 -> acked (b_stream it) (b_entry_id it) c c') /\
    (d = 0 -> p <> 0 -> buried (b_stream it) (b_entry_id it) REASON_HEC_REJECTED
       (default (bs "HEC rejected") e) (b_payload it) c c').

Lemma buried_steps_l stream id reason error payload c1 c2 c3 :
  buried stream id reason error payload c1 c2 -> steps c2 c3 ->
  buried stream id reason error payload c1 c3.
Proof.
  intros [Ha|[Hc|[Hd|(dl & r & Hd & Hc)]]] Hs; [left; by eapply acked_steps_l|right; by left
    |do 2 right; by left|do 3 right; exists dl, r; split; [by eapply did_steps_l|done]].
Qed.
Lemma buried_steps_r stream id reason error payload c1 c2 c3 : steps c1 c2 ->
  buried stream id reason error payload c2 c3 -> buried stream id reason error payload c1 c3.
Proof.
  intros Hs [Ha|[Hc|[Hd|(dl & r & Hd & Hc)]]]; [left; by eapply acked_steps_r|right; left
    |do 2 right; by left|do 3 right; exists dl, r; split; [by eapply did_steps_r|done]].
  destruct Hs as (_ & E & _). congruence.
Qed.

Lemma item_ready_steps c c' f i it : steps c c' -> item_ready c f i it -> item_ready c' f i it.
Proof.
  intros Hs (d & p & e & fields & E & Hd & Hr & Hp). exists d, p, e, fields.
  split; [done|]. split; [|split; [eapply received_mono, Hr; by apply steps_log|done]].
  intros Hn. destruct (Hd Hn) as [Hx Hb]. split; [by eapply steps_ctx|by eapply backed_mono].
Qed.

Lemma item_done_steps_l c1 c2 c3 f i it : item_done c1 c2 f i it -> steps c2 c3 -> item_done c1 c3 f i it.
Proof.
  intros (d & p & e & E & H1 & H2) Hs. exists d, p, e. split; [done|].
  split; intros; [eapply acked_steps_l|eapply buried_steps_l]; eauto.
Qed.
Lemma item_done_steps_r c1 c2 c3 f i it : steps c1 c2 -> item_done c2 c3 f i it -> item_done c1 c3 f i it.
Proof.
  intros Hs (d & p & e & E & H1 & H2). exists d, p, e. split; [done|].
  split; intros; [eapply acked_steps_r|eapply buried_steps_r]; eauto.
Qed.

Lemma rd_Some (d : list Z) i v : d !! i = Some v -> rd d (Z.of_nat i) = Ret v.
Proof. intros E. apply rd_lookup; [lia|]. by rewrite Nat2Z.id. Qed.

(** The settling of one item. *)
Definition settle_one (it : cf_consumer_batch_item_t) (d p : Z) (e : option (list Z)) c :=
  if negb (d =? 0) then xack cfg (b_stream it) (b_entry_id it) c
  else if negb (p =? 0) then
    dead_letter_and_ack cfg (b_stream it) (b_entry_id it) REASON_HEC_REJECTED
      (default (bs "HEC rejected") e) (b_payload it) c
  else Ret c.

Lemma settle_one_good c f i it d p e : inv c -> item_ready c f i it ->
  entry f (Z.of_nat i) = (Some d, Some p, Some e) ->
  safe (settle_one it d p e c) (fun c' => good c c' /\ item_done c c' f i it).
Proof.
  intros Hi (d' & p' & e' & fields & E' & Hd & Hr & Hp) E. rewrite E' in E. injection E as -> -> ->.
  unfold settle_one. destruct (d =? 0) eqn:Ed; cbn [negb].
  - destruct (p =? 0) eqn:Ep; cbn [negb].
    + split; [by apply good_refl|]. exists d, p, e. split; [done|]. split; intros; lia.
    + rewrite <- (entry_payload_raw _ _ Hp). eapply safe_mono; [by apply dead_letter_good|].
      intros c' [Hg Hb]. split; [done|]. exists d, p, e. split; [done|]. split; [lia|].
      intros _ _. by rewrite <- (entry_payload_raw _ _ Hp).
  - destruct (Hd ltac:(lia)) as [Hx Hb]. eapply safe_mono; [by apply xack_good|].
    intros c' [Hg Ha]. split; [done|]. exists d, p, e. split; [done|]. split; [done|lia].
Qed.

Lemma settle_loop_good f its : forall i c, inv c ->
  (forall k it, its !! k = Some it -> item_ready c f (i + k) it) ->
  safe (settle_loop cfg its i f c) (fun c' => good c c' /\
    forall k it, its !! k = Some it -> item_done c c' f (i + k) it).
Proof.
  induction its as [|it its IH]; intros i c Hi Hr; cbn [settle_loop].
  { split; [by apply good_refl|done]. }
  pose proof (Hr 0%nat it eq_refl) as Hr0. rewrite Nat.add_0_r in Hr0.
  pose proof Hr0 as (d & p & e & fields & E & _). pose proof E as E'.
  unfold entry in E. rewrite !Nat2Z.id in E. injection E as E1 E2 E3.
  rewrite (rd_Some _ _ _ E1), (rd_Some _ _ _ E2), E3. do 2 apply safe_bind, safe_ret.
  apply safe_bind. fold (settle_one it d p e c).
  eapply safe_mono; [by apply (settle_one_good c f i)|]. intros c1 [Hg Hd].
  pose proof (good_steps _ _ Hg) as Hs. eapply safe_mono; [apply IH; [by eapply good_inv|]|].
  - intros k it' Hk. eapply item_ready_steps; [exact Hs|].
    replace (S i + k)%nat with (i + S k)%nat by lia. by apply Hr.
  - intros c2 [Hg2 Hd2]. pose proof (good_steps _ _ Hg2) as Hs2. split; [by eapply good_trans|].
    intros [|k] it' Hk; [injection Hk as <-; rewrite Nat.add_0_r; by eapply item_done_steps_l|].
    eapply item_done_steps_r; [exact Hs|]. replace (i + S k)%nat with (S i + k)%nat by lia. by apply Hd2.
Qed.

Lemma private_not_ack new : Forall private new -> Forall not_ack new.
Proof. intros Hp. eapply list.Forall_impl; [exact Hp|]. by intros []. Qed.

(** A delivered item is backed by its post. *)
Lemma accepted_backed h its new l i it fields :
  its !! i = Some it -> accepted_in (map (item_at h) its) new (Z.of_nat i) -> new ⊆ l ->
  received l (b_stream it) (b_entry_id it) fields -> entry_payload fields = Some (b_payload it) ->
  (exists line, h !! b_line it = Some line /\ renders (b_stream it) (b_payload it) (Some line)) ->
  backed l (b_stream it) (b_entry_id it).
Proof.
  intros Hit (lo & count & st & e & Hlo & Hr & Hl & Hin & Hs) Hsub Hrec Hpay (line & El & Hren).
  exists fields. split; [done|]. eapply settled_delivered; [done|done| |by apply Hsub|done].
  apply list_elem_of_In, in_map_iff. exists (item_at h it).
  split; [unfold item_line, item_at; by rewrite El|]. apply list_elem_of_In.
  eapply slice_elem; [lia|exact Hr|]. by rewrite Nat2Z.id, list_lookup_fmap, Hit.
Qed.

Context `{!DeliveryLaws W}.

(** What the flush of item [i] did: the item was settled, or a stop was
    seen while delivering. *)
Definition item_flushed c c' (it : cf_consumer_batch_item_t) : Prop :=
  acked (b_stream it) (b_entry_id it) c c' \/ did c c' (EStop true) \/
  (exists where_, did c c' (EMalloc where_ false)) \/
  exists error, buried (b_stream it) (b_entry_id it) REASON_HEC_REJECTED error (b_payload it) c c'.

Definition fresh_flags (n : nat) : flags :=
  {| delivered := replicate n 0; poison := replicate n 0; poison_errs := replicate n None |}.

Lemma fresh_flags_len n : flags_len (Z.of_nat n) (fresh_flags n).
Proof. repeat split; cbn; by rewrite length_replicate. Qed.

(** The part of [flush_hec] after its allocations. *)
Definition deliver_and_settle c : exec (cf_consumer_t W) :=
  items ← batch_items (c_batch c) c;
  '(f, s) ← send_batch items (fresh_flags (length (c_batch c))) (c_sink c);
  settle_loop cfg (c_batch c) 0 f (set_sink s c).

Lemma deliver_good c : inv c -> c_ctx c = true \/ latched (world (c_sink c)) ->
  safe (deliver_and_settle c) (fun c' => good c c' /\ Forall (item_flushed c c') (c_batch c)).
Proof.
  intros Hi Hx. unfold deliver_and_settle. pose proof Hi as [_ Hit Hn Hr _ _ _].
  assert (Forall (fun it => is_Some (c_heap c !! b_line it)) (c_batch c)) as Hlive.
  { eapply list.Forall_impl; [exact Hit|]. intros it. apply pending_line. }
  rewrite batch_items_eq by done. apply safe_bind, safe_ret.
  set (items := map (item_at (c_heap c)) (c_batch c)).
  assert (zlen items = zlen (c_batch c)) as Hlen by (unfold items; by rewrite length_map).
  assert (room items < 2 ^ 64) as Hroom.
  { pose proof (room_items (c_batch c) (c_heap c) Hn Hlive). unfold ADDRESS_SPACE in Hr.
    fold items in H1. lia. }
  apply safe_bind. eapply safe_mono.
  { apply send_batch_ok; [rewrite Hlen; apply fresh_flags_len|exact Hroom]. }
  intros [f s] (new & El & Lf & Hfate & Hpriv & Hlat).
  set (c1 := set_sink s c).
  assert (good c c1) as Hg by (apply (inv_log c c1 new); [done|exact El|by apply private_not_ack|done]).
  assert (forall k it, c_batch c !! k = Some it -> item_ready c1 f (0 + k) it) as Hready.
  { intros k it Hk. pose proof (lookup_lt_Some _ _ _ Hk) as Hlt. cbn [plus].
    rewrite Forall_forall in Hit. pose proof (Hit it) as Hp.
    destruct Hp as (fields & line & Hrec & Hpay & Hl & Hren); [by eapply list_elem_of_In, list_elem_of_lookup_2|].
    assert (received (log (c_sink c1)) (b_stream it) (b_entry_id it) fields) as Hrec1.
    { eapply received_mono, Hrec. apply steps_log, good_steps, Hg. }
    assert (0 <= Z.of_nat k < zlen items) as Hk0 by lia.
    destruct (entry f (Z.of_nat k)) as [[od op] oe] eqn:Ee. pose proof (Hfate _ Hk0) as Hf. rewrite Ee in Hf.
    inversion Hf as [Ha|err Hrf|Hs]; subst; do 3 eexists; exists fields;
      (split; [done|]); (split; [|by split]); try done.
    intros _. split.
    - destruct Hx as [Hx|Hl']; [done|]. apply Hlat in Hl' as [_ Hnp].
      destruct Ha as (lo & cnt & st & er & _ & _ & _ & Hin & _).
      rewrite Forall_forall in Hnp. by apply list_elem_of_In, Hnp in Hin.
    - eapply (accepted_backed (c_heap c) (c_batch c) new); [done|exact Ha| |done|done|by exists line].
      unfold c1. cbn. rewrite El. set_solver. }
  eapply safe_mono; [apply (settle_loop_good f (c_batch c) 0 c1); [by eapply good_inv|done]|].
  intros c2 [Hg2 Hd]. pose proof (good_steps _ _ Hg) as Hs. pose proof (good_steps _ _ Hg2) as Hs2.
  split; [by eapply good_trans|]. apply Forall_lookup. intros k it Hk.
  pose proof (lookup_lt_Some _ _ _ Hk) as Hlt.
  destruct (Hd k it Hk) as (d & p & e & E & H1 & H2). cbn [plus] in E.
  pose proof (Hfate (Z.of_nat k) ltac:(lia)) as Hf. rewrite E in Hf.
  inversion Hf as [Ha|err Hrf|Hst]; subst.
  - left. eapply acked_steps_r; [exact Hs|]. by apply H1.
  - do 3 right. eexists. eapply buried_steps_r; [exact Hs|]. by apply H2.
  - right; left. eapply did_steps_l; [|exact Hs2]. exists new. by split.
Qed.

Lemma item_flushed_steps_l c1 c2 c3 it : item_flushed c1 c2 it -> steps c2 c3 -> item_flushed c1 c3 it.
Proof.
  intros [Ha|[Hs|[[w Hm]|[e Hb]]]] H23; [left; by eapply acked_steps_l|right; left; by eapply did_steps_l
    |do 2 right; left; exists w; by eapply did_steps_l|do 3 right; exists e; by eapply buried_steps_l].
Qed.
Lemma item_flushed_steps_r c1 c2 c3 it : steps c1 c2 -> item_flushed c2 c3 it -> item_flushed c1 c3 it.
Proof.
  intros H12 [Ha|[Hs|[[w Hm]|[e Hb]]]]; [left; by eapply acked_steps_r|right; left; by eapply did_steps_r
    |do 2 right; left; exists w; by eapply did_steps_r|do 3 right; exists e; by eapply buried_steps_r].
Qed.

(** A flush may go ahead: commands have a context, or none will be sent. *)
Definition may_flush c : Prop :=
  c_ctx c = true \/ c_stdout c = false /\ latched (world (c_sink c)).

Lemma c_call_may {A} (q : ask A) c a c' : no_command q = true -> inv c -> may_flush c ->
  c_call q c = (a, c') -> good c c' /\ may_flush c' /\ c_batch c' = c_batch c /\ did c c' (note q a).
Proof.
  intros Hq Hi Hm E. pose proof (c_call_good q c a c' Hq Hi E) as Hg.
  apply c_call_eq in E as (Ea & El & (_ & Eb & _ & _ & Ectx & Est)).
  split; [done|]. split; [|split; [done|exists [note q a]; split; [done|set_solver]]].
  destruct Hm as [Hx|[Hso Hl]]; [left; congruence|right]. split; [congruence|].
  apply (latched_answer q) in Hl. by rewrite Ea in Hl.
Qed.

Lemma flush_hec_good c : inv c -> c_stdout c = false -> may_flush c ->
  safe (flush_hec cfg c) (fun c' => good c c' /\ Forall (item_flushed c c') (c_batch c)).
Proof.
  intros Hi Hso Hm. unfold flush_hec.
  destruct (c_call (AskMalloc at_flush_items) c) as [ok1 c1] eqn:E1.
  apply c_call_may in E1 as (Hg1 & Hm1 & Eb1 & Hd1); try done.
  destruct (c_call (AskMalloc at_flush_delivered) c1) as [ok2 c2] eqn:E2.
  apply c_call_may in E2 as (Hg2 & Hm2 & Eb2 & Hd2); try done; [|by eapply good_inv].
  destruct (c_call (AskMalloc at_flush_poison) c2) as [ok3 c3] eqn:E3.
  apply c_call_may in E3 as (Hg3 & Hm3 & Eb3 & Hd3); try done; [|by eapply good_inv].
  destruct (c_call (AskMalloc at_flush_errs) c3) as [ok4 c4] eqn:E4.
  apply c_call_may in E4 as (Hg4 & Hm4 & Eb4 & Hd4); try done; [|by eapply good_inv].
  pose proof (good_steps _ _ Hg1) as S1. pose proof (good_steps _ _ Hg2) as S2.
  pose proof (good_steps _ _ Hg3) as S3. pose proof (good_steps _ _ Hg4) as S4.
  assert (good c c4) as Hg by (split; [by eapply good_inv|by do 3 (eapply steps_trans; [eassumption|])]).
  assert (c_batch c4 = c_batch c) as Eb by congruence.
  destruct (ok1 && ok2 && ok3 && ok4) eqn:Eok; cbn [negb].
  - replace (length (c_batch c)) with (length (c_batch c4)) by congruence.
    fold (deliver_and_settle c4).
    eapply safe_mono; [apply deliver_good; [by eapply good_inv|by destruct Hm4 as [?|[_ ?]]; [left|right]]|].
    intros c5 [Hg5 Hf]. split; [eapply good_trans; [by apply good_steps|done]|]. rewrite Eb in Hf.
    eapply list.Forall_impl; [exact Hf|]. intros it. by apply item_flushed_steps_r, good_steps.
  - split; [done|]. apply Forall_forall. intros it _. do 2 right; left.
    destruct ok1; [|eexists; eapply did_steps_l, S4; eapply did_steps_l, S3; by eapply did_steps_l, S2].
    destruct ok2; [|eexists; eapply did_steps_l, S4; eapply did_steps_l, S3; by eapply did_steps_r, Hd2].
    destruct ok3; [|eexists; eapply did_steps_l, S4; eapply did_steps_r, Hd3; by eapply steps_trans].
    destruct ok4; [done|]. eexists. eapply did_steps_r, Hd4. do 2 (eapply steps_trans; [eassumption|]). done.
Qed.

Lemma flush_stdout_good c : inv c -> c_ctx c = true ->
  safe (flush_stdout cfg c) (fun c' => good c c' /\
    Forall (fun it => acked (b_stream it) (b_entry_id it) c c') (c_batch c)).
Proof.
  intros Hi Hx. unfold flush_stdout. apply safe_bind. eapply safe_mono.
  { apply print_lines_good; [done|apply inv_items, Hi]. }
  intros c1 (Hg1 & Hsame & Hb). pose proof (good_steps _ _ Hg1) as S1. cbv zeta.
  destruct Hsame as (_ & Eb & _). rewrite Eb.
  set (c2 := c_count _ c1).
  assert (good c1 c2) as Hg2 by (apply c_count_good; [by eapply good_inv|done]).
  pose proof (good_steps _ _ Hg2) as S2. change (c_batch c2) with (c_batch c1). rewrite Eb.
  eapply safe_mono; [apply xack_all_good; [by eapply good_inv|by eapply steps_ctx, Hx; eapply steps_trans|]|].
  - eapply list.Forall_impl; [exact Hb|]. intros it. by apply backed_mono.
  - intros c3 [Hg3 Ha]. split; [eapply good_trans, Hg3; by eapply steps_trans|].
    eapply list.Forall_impl; [exact Ha|]. intros it. apply acked_steps_r. by eapply steps_trans.
Qed.

(** ** Releasing the lines *)

Lemma free_lines_ok its : forall c, NoDup (map b_line its) ->
  Forall (fun it => is_Some (c_heap c !! b_line it)) its ->
  exists h, free_lines its c = Ret (set_heap h c) /\ heap_room h <= heap_room (c_heap c).
Proof.
  induction its as [|it its IH]; intros c Hn Hl; cbn [free_lines].
  { exists (c_heap c). split; [by destruct c|lia]. }
  cbn [map] in Hn. apply list.NoDup_cons in Hn as [Hni Hn].
  inversion Hl as [|? ? [line E] Hl']; subst. unfold line_free. rewrite E. xbind.
  destruct (IH (set_heap (delete (b_line it) (c_heap c)) c) Hn) as (h & E' & Hr).
  - apply Forall_forall. intros it' Hin. cbn. rewrite Forall_forall in Hl'.
    rewrite lookup_delete_ne; [by apply Hl'|]. intros Eq. apply Hni. rewrite Eq.
    by apply list_elem_of_In, in_map.
  - exists h. split; [exact E'|]. cbn in Hr. rewrite (heap_room_delete _ _ _ E). lia.
Qed.

Lemma batch_clear_good c : inv c ->
  safe (batch_clear c) (fun c' => good c c' /\ c_batch c' = []).
Proof.
  intros [Ha Hit Hn Hr Hc Hm Hcur]. unfold batch_clear.
  destruct (free_lines_ok (c_batch c) c Hn) as (h & E & Hh).
  { eapply list.Forall_impl; [exact Hit|]. intros it. apply pending_line. }
  rewrite E. apply safe_bind, safe_ret. split; [|done]. split; [|done].
  constructor; cbn [c_sink c_heap c_batch c_batch_cap c_cursors set_batch set_heap map]; try done.
  - apply NoDup_nil_2.
  - lia.
  - cbn. lia.
Qed.

Lemma set_times_good a b c : inv c -> good c (set_times a b c).
Proof. intros Hi. eapply (inv_log _ _ []); try done. cbn. by rewrite app_nil_r. Qed.

Definition flushed c c' : Prop :=
  good c c' /\ c_batch c' = [] /\
  (c_stdout c = false -> Forall (item_flushed c c') (c_batch c)) /\
  (c_stdout c = true -> Forall (fun it => acked (b_stream it) (b_entry_id it) c c') (c_batch c)).

Lemma flush_body_good c : inv c -> may_flush c ->
  safe (c' ← (if c_stdout c then flush_stdout cfg c else flush_hec cfg c); batch_clear c') (flushed c).
Proof.
  intros Hi Hm. apply safe_bind.
  assert (forall (P : cf_consumer_t W -> cf_consumer_batch_item_t -> Prop) m,
    (forall c1 c2 it, P c1 it -> steps c1 c2 -> P c2 it) ->
    safe m (fun c1 => good c c1 /\ Forall (P c1) (c_batch c)) ->
    safe m (fun c1 => safe (batch_clear c1) (fun c2 => good c c2 /\ c_batch c2 = [] /\
      Forall (P c2) (c_batch c)))) as Hthen.
  { intros P m Hmono Hm0. eapply safe_mono; [exact Hm0|]. intros c1 [Hg1 Hf].
    eapply safe_mono; [apply batch_clear_good; by eapply good_inv|]. intros c2 [Hg2 Eb].
    split; [eapply good_trans; [by apply good_steps|done]|]. split; [done|].
    eapply list.Forall_impl; [exact Hf|]. intros it Hit. by eapply Hmono, good_steps. }
  destruct (c_stdout c) eqn:Hso.
  - eapply safe_mono; [apply (Hthen (fun c1 it => acked (b_stream it) (b_entry_id it) c c1))|].
    + intros. by eapply acked_steps_l.
    + apply flush_stdout_good; [done|]. destruct Hm as [?|[? _]]; [done|congruence].
    + intros c1 H1. eapply safe_mono; [exact H1|]. intros c2 (? & ? & ?). split; [done|].
      split; [done|]. split; [congruence|done].
  - eapply safe_mono; [apply (Hthen (item_flushed c))|].
    + intros. by eapply item_flushed_steps_l.
    + by apply flush_hec_good.
    + intros c1 H1. eapply safe_mono; [exact H1|]. intros c2 (? & ? & ?). split; [done|].
      split; [done|]. split; [done|congruence].
Qed.

Lemma flush_batch_good c : inv c -> may_flush c -> safe (flush_batch cfg c) (flushed c).
Proof.
  intros Hi Hm. unfold flush_batch. destruct (c_call AskMono c) as [now c1] eqn:E1.
  apply c_call_may in E1 as (Hg1 & Hm1 & Eb1 & _); try done.
  set (c2 := set_times now (c_last_lag c1) c1).
  assert (good c1 c2) as Hg2 by (apply set_times_good; by eapply good_inv).
  assert (good c c2) as Hg by (eapply good_trans; [by apply good_steps|done]).
  pose proof (good_steps _ _ Hg) as Hs. change (c_batch c2) with (c_batch c1). rewrite Eb1.
  destruct (c_batch c) as [|it its] eqn:Eb.
  { split; [done|]. split; [done|]. rewrite Eb. by split. }
  eapply safe_mono; [apply flush_body_good; [by eapply good_inv|done]|].
  intros c3 (Hg3 & E3 & F1 & F2). change (c_batch c2) with (c_batch c1) in *. rewrite Eb1 in *.
  pose proof Hs as (_ & _ & Est). rewrite Est in *.
  split; [by eapply good_trans|]. split; [done|]. rewrite Eb.
  split; intros Hso; [specialize (F1 Hso)|specialize (F2 Hso)];
    (eapply list.Forall_impl; [eassumption|]); intros it'; [apply item_flushed_steps_r|apply acked_steps_r]; done.
Qed.

Lemma maybe_flush_good c : inv c -> c_ctx c = true -> safe (maybe_flush cfg c) (good c).
Proof.
  intros Hi Hx. unfold maybe_flush, should_flush.
  assert (safe (flush_batch cfg c) (good c)) as Hfl.
  { eapply safe_mono; [apply flush_batch_good; [done|by left]|]. by intros c' [? _]. }
  destruct (zlen (c_batch c) =? 0); [by apply good_refl|].
  destruct (batch_size cfg <=? s32 (zlen (c_batch c))); [done|].
  destruct (c_call AskMono c) as [now c1] eqn:E1.
  pose proof (c_call_good AskMono c now c1 eq_refl Hi E1) as Hg. cbv beta iota.
  eapply good_from; [exact Hg|]. assert (inv c1) as Hi1 by (by eapply good_inv).
  destruct (flush_interval_ms cfg <=? _); [|by apply good_refl].
  eapply safe_mono; [apply flush_batch_good; [done|left; by eapply steps_ctx, Hx; apply good_steps]|].
  by intros c' [? _].
Qed.

(** ** Reading *)

Lemma process_entries_good stream es : forall c, inv c -> c_ctx c = true ->
  (forall e id fields, e ∈ es -> entry_of e = Some (id, fields) ->
     received (log (c_sink c)) stream id fields) ->
  safe (process_entries unpack transform cfg stream es c) (good c).
Proof.
  induction es as [|e es IH]; intros c Hi Hx Hr; cbn [process_entries]; [by apply good_refl|].
  apply good_seq.
  - destruct (entry_of e) as [[id fields]|] eqn:E; [|by apply good_refl].
    apply process_entry_good; [done|done|]. eapply Hr; [by left|done].
  - intros c1 Hg. pose proof (good_steps _ _ Hg) as Hs.
    apply IH; [by eapply good_inv|by eapply steps_ctx|]. intros e' id fields Hin E.
    eapply received_mono; [by apply steps_log|]. eapply Hr; [by right|done].
Qed.

Lemma process_array_good stream entries c : inv c -> c_ctx c = true ->
  (forall es e id fields, entries = Some (REPLY_ARRAY es) -> e ∈ es -> entry_of e = Some (id, fields) ->
     received (log (c_sink c)) stream id fields) ->
  safe (process_entries_array unpack transform cfg stream entries c) (good c).
Proof.
  intros Hi Hx Hr. destruct entries as [[]|]; try by apply good_refl.
  apply process_entries_good; [done|done|]. intros e id fields. by apply Hr.
Qed.

Lemma set_cursor_good i cur c : inv c -> good c (set_cursors (<[i := Some cur]> (c_cursors c)) c).
Proof.
  intros [Ha Hit Hn Hr Hc Hm [Hlen Hall]]. split; [|done]. constructor; try done.
  cbn [c_cursors set_cursors]. split; [by rewrite length_insert|].
  apply Forall_insert; [done|by eexists].
Qed.

Lemma reclaim_stream_good i stream c : inv c -> c_ctx c = true -> (i < length (streams cfg))%nat ->
  safe (reclaim_stream unpack transform cfg i stream c) (good c).
Proof.
  intros Hi Hx Hlt. unfold reclaim_stream. pose proof Hi as [_ _ _ _ _ _ [Hlen Hall]].
  destruct (lookup_lt_is_Some_2 (c_cursors c) i) as [oc Ecur]; [lia|].
  assert (is_Some oc) as [cur ->] by (by eapply Forall_lookup_1 in Hall). rewrite Ecur.
  apply (good_bind _ _ _ snd (fun '(r, c') => did c c' (ERedis (autoclaim_argv cfg stream cur c) r))).
  { eapply safe_mono; [by apply (redis_good (bs "XAUTOCLAIM"))|]. by intros [r c']. }
  intros [r c1] Hg Hd. cbn [snd] in *. assert (inv c1) as Hi1 by (by eapply good_inv).
  assert (c_ctx c1 = true) as Hx1 by (by eapply steps_ctx, Hx; apply good_steps).
  destruct r as [[| [|next [|entries rest]] | | | |]|]; try by apply good_refl.
  set (c2 := match next with Some (REPLY_STRING s) => _ | _ => c1 end).
  assert (good c1 c2) as Hg2.
  { unfold c2. destruct next as [[]|]; try by apply good_refl.
    destruct (c_call (AskMalloc at_cursor) c1) as [ok c3] eqn:E3.
    apply c_call_copy in E3 as (-> & Hg3 & _); [|cbn; tauto|done].
    eapply good_trans; [by apply good_steps|]. apply set_cursor_good. by eapply good_inv. }
  pose proof (good_steps _ _ Hg2) as S2. eapply good_from; [exact Hg2|].
  apply process_array_good; [by eapply good_inv|by eapply steps_ctx|].
  intros es e id fields -> Hin E. eapply received_mono; [by apply steps_log|].
  eapply received_claimed; [|exact Hin|exact E]. exact (did_log _ _ _ Hd).
Qed.

Lemma reclaim_from_good sts : forall i c, inv c -> c_ctx c = true ->
  (i + length sts <= length (streams cfg))%nat ->
  safe (reclaim_from unpack transform cfg i sts c) (good c).
Proof.
  induction sts as [|st sts IH]; intros i c Hi Hx Hlen; cbn [reclaim_from]; [by apply good_refl|].
  cbn [length] in Hlen. apply good_seq; [apply reclaim_stream_good; (done || lia)|].
  intros c1 Hg. apply IH; [by eapply good_inv|by eapply steps_ctx, Hx; apply good_steps|lia].
Qed.

Lemma reclaim_all_good c : inv c -> c_ctx c = true -> safe (reclaim_all unpack transform cfg c) (good c).
Proof. intros. by apply reclaim_from_good. Qed.

Lemma read_streams_good block ls : forall srs n c, inv c -> c_ctx c = true ->
  ERedis (readgroup_argv cfg block) (Some (REPLY_ARRAY ls)) ∈ log (c_sink c) -> srs ⊆ ls ->
  safe (read_streams unpack transform cfg srs n c) (fun '(_, c') => good c c').
Proof.
  induction srs as [|sr srs IH]; intros n c Hi Hx Hin Hsub; cbn [read_streams]; [by apply good_refl|].
  destruct (stream_of sr) as [[name entries]|] eqn:Es; [|apply IH; (done || set_solver)].
  apply safe_bind. eapply safe_mono.
  { apply process_array_good; [done|done|]. intros es e id fields -> He E.
    eapply received_new; [exact Hin| |exact Es|exact He|exact E]. set_solver. }
  intros c1 Hg. pose proof (good_steps _ _ Hg) as Hs.
  eapply safe_mono; [apply IH; [by eapply good_inv|by eapply steps_ctx|by eapply steps_log|set_solver]|].
  intros [m c2] Hg2. by eapply good_trans.
Qed.

Lemma read_new_good block c : inv c -> c_ctx c = true ->
  safe (read_new unpack transform cfg block c) (fun '(_, c') => good c c').
Proof.
  intros Hi Hx. unfold read_new. destruct (c_call (AskMalloc at_argv) c) as [ok c1] eqn:E1.
  pose proof (c_call_good (AskMalloc at_argv) c ok c1 eq_refl Hi E1) as Hg.
  destruct ok; cbn [negb]; [|done]. pose proof (good_steps _ _ Hg) as Hs.
  apply safe_bind. eapply safe_mono.
  { apply (redis_good (bs "XREADGROUP")); [done|by eapply good_inv|by eapply steps_ctx]. }
  intros [r c2] [Hg2 Hd]. pose proof (good_steps _ _ Hg2) as Hs2.
  assert (good c c2) as Hg02 by (by eapply good_trans).
  destruct r as [[| ls | | | |]|]; try done.
  eapply safe_mono; [apply (read_streams_good block ls); [by eapply good_inv|
    by eapply steps_ctx, Hx; apply good_steps|exact (did_log _ _ _ Hd)|done]|].
  intros [n c3] Hg3. eapply good_trans; [by apply good_steps|done].
Qed.

Lemma ensure_groups_good sts : forall c, inv c -> c_ctx c = true ->
  safe (ensure_groups cfg sts c) (fun '(_, c') => good c c').
Proof.
  induction sts as [|st sts IH]; intros c Hi Hx; cbn [ensure_groups]; [by apply good_refl|].
  apply safe_bind. eapply safe_mono; [by apply (redis_good (bs "XGROUP"))|].
  intros [r c1] [Hg _]. destruct (busygroup r); cbn [negb]; [|done].
  eapply safe_mono; [apply IH; [by eapply good_inv|by eapply steps_ctx, Hx; apply good_steps]|].
  intros [rc c2] Hg2. eapply good_trans; [by apply good_steps|done].
Qed.

(** ** Whole runs *)

(** The end of a run: the invariant, and what the log grew by. *)
Lemma once_loop_good reads : forall c, inv c -> c_ctx c = true ->
  safe (once_loop unpack transform cfg reads c) (good c).
Proof.
  induction reads as [|reads IH]; intros c Hi Hx; [done|]. cbn [once_loop].
  apply (good_bind _ _ _ snd (fun _ => True)).
  { eapply safe_mono; [by apply read_new_good|]. by intros [n c']. }
  intros [n c1] Hg _. cbn [snd] in *. assert (inv c1) as Hi1 by (by eapply good_inv).
  assert (c_ctx c1 = true) as Hx1 by (by eapply steps_ctx, Hx; apply good_steps).
  apply good_seq; [by apply maybe_flush_good|]. intros c2 Hg2.
  destruct (n =? 0); [apply good_refl; by eapply good_inv|].
  apply IH; [by eapply good_inv|by eapply steps_ctx, Hx1; apply good_steps].
Qed.

Lemma run_once_good reads c : inv c -> c_ctx c = true ->
  safe (cf_consumer_run_once unpack transform cfg reads c) (fun '(rc, c') =>
    good c c' /\ (rc = 0 -> c_batch c' = [])).
Proof.
  intros Hi Hx. unfold cf_consumer_run_once, cf_consumer_ensure_groups. apply safe_bind.
  eapply safe_mono; [by apply ensure_groups_good|]. intros [rc c1] Hg.
  destruct (rc =? 0) eqn:Erc; cbn [negb]; [|by split; [|done]].
  assert (inv c1 /\ c_ctx c1 = true) as [Hi1 Hx1]
    by (split; [by eapply good_inv|by eapply steps_ctx, Hx; apply good_steps]).
  apply safe_bind. eapply safe_mono; [by apply reclaim_all_good|]. intros c2 Hg2.
  assert (inv c2 /\ c_ctx c2 = true) as [Hi2 Hx2]
    by (split; [by eapply good_inv|by eapply steps_ctx, Hx1; apply good_steps]).
  apply safe_bind. eapply safe_mono; [by apply maybe_flush_good|]. intros c3 Hg3.
  assert (inv c3 /\ c_ctx c3 = true) as [Hi3 Hx3]
    by (split; [by eapply good_inv|by eapply steps_ctx, Hx2; apply good_steps]).
  apply safe_bind. eapply safe_mono; [by apply once_loop_good|]. intros c4 Hg4.
  assert (inv c4 /\ c_ctx c4 = true) as [Hi4 Hx4]
    by (split; [by eapply good_inv|by eapply steps_ctx, Hx3; apply good_steps]).
  apply safe_bind. eapply safe_mono; [apply flush_batch_good; [done|by left]|].
  intros c5 (Hg5 & Eb & _). split; [|done]. pose proof (good_steps _ _ Hg).
  pose proof (good_steps _ _ Hg2). pose proof (good_steps _ _ Hg3). pose proof (good_steps _ _ Hg4).
  do 4 (eapply good_trans; [eassumption|]). done.
Qed.

(** ** Reconnecting *)

(** As [good], but the connection may have been replaced. *)
Definition kept c c' : Prop :=
  inv c' /\ log (c_sink c) `prefix_of` log (c_sink c') /\ c_stdout c' = c_stdout c.

Lemma good_kept c c' : good c c' -> kept c c'.
Proof. by intros (? & ? & _ & ?). Qed.
Lemma kept_trans c1 c2 c3 : kept c1 c2 -> kept c2 c3 -> kept c1 c3.
Proof. intros (? & ? & ?) (? & ? & ?). split; [done|]. split; [by etrans|congruence]. Qed.
Lemma kept_refl c : inv c -> kept c c.
Proof. by split. Qed.

Lemma kept_ctx b c : inv c -> kept c (set_ctx b c).
Proof. intros []. by split. Qed.

Lemma reconnect_sleep_runs fuel : forall remaining c, inv c ->
  remaining <= CF_CONSUMER_RECONNECT_SLEEP_CHUNK_NS * (Z.of_nat fuel - 1) ->
  (0 < fuel)%nat -> runs (reconnect_sleep fuel remaining c) (good c).
Proof.
  unfold CF_CONSUMER_RECONNECT_SLEEP_CHUNK_NS.
  induction fuel as [|fuel IH]; intros remaining c Hi Hr Hf; [lia|]. cbn [reconnect_sleep].
  destruct (0 <? remaining) eqn:E0; [|by apply good_refl].
  destruct (c_call AskStop c) as [stop c1] eqn:E1.
  pose proof (c_call_good AskStop c stop c1 eq_refl Hi E1) as Hg1.
  destruct stop; [done|]. unfold CF_CONSUMER_RECONNECT_SLEEP_CHUNK_NS. cbv zeta.
  destruct (c_call (AskSleepNs _) c1) as [u c2] eqn:E2.
  assert (good c1 c2) as Hg2 by (eapply (c_call_good (AskSleepNs _)), E2; [done|by eapply good_inv]).
  eapply runs_mono; [apply IH; [by eapply good_inv|lia|lia]|].
  intros c3 Hg3. eapply good_trans; [by apply good_steps|]. eapply good_trans; [by apply good_steps|done].
Qed.

Lemma try_endpoints_good tries : forall idx c, inv c -> c_ctx c = false -> 0 <= idx ->
  (tries <= length (endpoints cfg))%nat ->
  safe (try_endpoints cfg tries idx c) (fun '(ok, idx', c') =>
    kept c c' /\ c_ctx c' = ok /\ 0 <= idx').
Proof.
  induction tries as [|tries IH]; intros idx c Hi Hx Hidx Ht; cbn [try_endpoints].
  { split; [by apply kept_refl|done]. }
  pose proof (Z.mod_pos_bound idx (zlen (endpoints cfg)) ltac:(lia)) as Hb.
  destruct (lookup_lt_is_Some_2 (endpoints cfg) (Z.to_nat (idx mod zlen (endpoints cfg)))) as [ep Eep]; [lia|].
  rewrite Eep. pose proof (u64_bound (idx + 1)).
  assert (exists ok c1, connect_endpoint ep c = (ok, c1) /\ good c c1) as (ok & c1 & E1 & Hg1).
  { unfold connect_endpoint. destruct (parse_endpoint ep) as [[host port]|].
    - destruct (c_call (AskConnect host port) c) as [ok c1] eqn:E. exists ok, c1. split; [done|].
      by eapply (c_call_good (AskConnect host port)).
    - exists false, c. split; [done|by apply good_refl]. }
  rewrite E1. assert (inv c1 /\ c_ctx c1 = false) as [Hi1 Hx1]
    by (split; [by eapply good_inv|by eapply steps_ctx, Hx; apply good_steps]).
  destruct ok; cbn [negb].
  2: { eapply safe_mono; [apply IH; (done || lia)|]. intros [[ok' idx'] c2] (Hk & ?).
       split; [|done]. eapply kept_trans; [by apply good_kept|done]. }
  apply safe_bind. unfold cf_consumer_ensure_groups.
  destruct (kept_ctx true c1 Hi1) as (Hi1' & _). eapply safe_mono; [by apply ensure_groups_good|].
  intros [rc c2] Hg2.
  assert (kept c c2) as Hk2 by (eapply kept_trans; [by apply good_kept|];
    eapply kept_trans; [by apply (kept_ctx true)|by apply good_kept]).
  destruct (rc =? 0); cbn [negb].
  - split; [done|]. split; [|lia]. by eapply (steps_ctx _ _ true (good_steps _ _ Hg2)).
  - assert (inv c2) as Hi2 by (by eapply good_inv). destruct (kept_ctx false c2 Hi2) as (Hi3 & _).
    eapply safe_mono; [apply IH; (done || lia)|]. intros [[ok' idx'] c3] (Hk & ?).
    split; [|done]. eapply kept_trans; [exact Hk2|]. eapply kept_trans; [by apply (kept_ctx false)|done].
Qed.

(** A stop, once read, stays. *)
Hypothesis stop_latches : forall w, fst (answer AskStop w) = true -> latched (snd (answer AskStop w)).

Lemma reconnect_loop_good rounds : forall backoff idx c, inv c -> c_ctx c = false -> 0 <= idx ->
  backoff <= CF_CONSUMER_RECONNECT_BACKOFF_MAX_NS ->
  safe (reconnect_loop cfg rounds backoff idx c) (fun '(rc, c') => kept c c' /\
    (rc = 0 -> c_ctx c' = true) /\ (rc <> 0 -> latched (world (c_sink c')))).
Proof.
  induction rounds as [|rounds IH]; intros backoff idx c Hi Hx Hidx Hb; [done|]. cbn [reconnect_loop].
  destruct (c_call AskStop c) as [stop c1] eqn:E1.
  pose proof (c_call_good AskStop c stop c1 eq_refl Hi E1) as Hg1.
  destruct stop.
  { split; [by apply good_kept|]. split; [done|]. intros _. apply c_call_eq in E1 as (Ea & _).
    pose proof (stop_latches (world (c_sink c))) as Hl. rewrite Ea in Hl. by apply Hl. }
  assert (inv c1 /\ c_ctx c1 = false) as [Hi1 Hx1]
    by (split; [by eapply good_inv|by eapply steps_ctx, Hx; apply good_steps]).
  apply safe_bind. eapply safe_mono; [by apply try_endpoints_good|].
  intros [[ok idx2] c2] (Hk2 & Hx2 & Hidx2).
  assert (kept c c2) as Hk02 by (eapply kept_trans; [by apply good_kept|done]).
  destruct ok; [by split|]. apply safe_bind.
  assert (inv c2) as Hi2 by apply Hk2.
  eapply safe_mono; [apply runs_safe, reconnect_sleep_runs; [done| |]|].
  - unfold RECONNECT_SLEEP_FUEL, CF_CONSUMER_RECONNECT_SLEEP_CHUNK_NS,
      CF_CONSUMER_RECONNECT_BACKOFF_MAX_NS in *. lia.
  - unfold RECONNECT_SLEEP_FUEL. lia.
  - intros c3 Hg3. eapply safe_mono; [apply IH; [by eapply good_inv| |done|lia]|].
    + eapply steps_ctx, Hx2. by apply good_steps.
    + intros [rc c4] (Hk4 & ?). split; [|done]. eapply kept_trans; [exact Hk02|].
      eapply kept_trans; [by apply good_kept|done].
Qed.

Lemma sample_streams_good sts : forall lags c, inv c -> c_ctx c = true ->
  safe (sample_streams cfg sts lags c) (fun '(_, c') => good c c').
Proof.
  induction sts as [|st sts IH]; intros lags c Hi Hx; cbn [sample_streams]; [by apply good_refl|].
  apply safe_bind. eapply safe_mono; [by apply (redis_good (bs "XINFO"))|]. intros [r c1] [Hg _].
  assert (forall lags', safe (sample_streams cfg sts lags' c1) (fun '(_, c') => good c c')) as Hrest.
  { intros lags'. eapply safe_mono;
      [apply IH; [by eapply good_inv|by eapply steps_ctx, Hx; apply good_steps]|].
    intros [o c2] Hg2. eapply good_trans; [by apply good_steps|done]. }
  destruct r as [[]|]; try apply Hrest. done.
Qed.

Lemma connection_dead_good c dead c' : inv c -> connection_dead c = (dead, c') ->
  good c c' /\ (dead = false -> c_ctx c' = true).
Proof.
  intros Hi. unfold connection_dead. destruct (c_ctx c) eqn:Hx.
  - intros E. pose proof (c_call_good AskConnErr c dead c' eq_refl Hi E) as Hg. split; [done|].
    intros _. by eapply steps_ctx, Hx; apply good_steps.
  - intros [= <- <-]. split; [by apply good_refl|done].
Qed.

Lemma sample_lag_good c : inv c -> safe (maybe_sample_stream_lag cfg c) (good c).
Proof.
  intros Hi. unfold maybe_sample_stream_lag. destruct (c_call AskMono c) as [now c1] eqn:E1.
  pose proof (c_call_good AskMono c now c1 eq_refl Hi E1) as Hg1.
  destruct (_ <? _); [done|]. set (c2 := set_times _ now c1).
  assert (good c c2) as Hg by (eapply good_trans; [by apply good_steps|apply set_times_good; by eapply good_inv]).
  eapply good_from; [exact Hg|]. unfold sample_stream_lag.
  destruct (connection_dead c2) as [dead c3] eqn:E3.
  apply connection_dead_good in E3 as [Hg3 Hx3]; [|by eapply good_inv].
  destruct dead; [done|]. eapply good_from; [exact Hg3|]. apply safe_bind.
  eapply safe_mono; [apply sample_streams_good; [by eapply good_inv|by apply Hx3]|].
  intros [[[|lag lags]|] c4] Hg4; try done.
  eapply good_trans; [by apply good_steps|]. apply c_count_good; [by eapply good_inv|done].
Qed.

(** One turn: on, with a connection; or done, able to flush. *)
Definition turn_result c : bool * cf_consumer_t W -> Prop :=
  fun '(go, c') => kept c c' /\ if (go : bool) then c_ctx c' = true else may_flush c'.

Lemma stats_emit_log interval (s : sink W) : exists new,
  log (cf_stats_maybe_emit interval s) = log s ++ new /\ Forall not_ack new.
Proof.
  unfold cf_stats_maybe_emit, cf_stats_emit. destruct (call AskMono s) as [now s1] eqn:E1.
  apply call_eq in E1 as (_ & [G1 _] & _).
  destruct (_ <=? _); [|exists [EMono now]; split; [done|by repeat constructor]].
  destruct (call (AskLogStats _) s1) as [u s2] eqn:E2. apply call_eq in E2 as (_ & [G2 _] & _).
  destruct (call AskMono s2) as [now2 s3] eqn:E3. apply call_eq in E3 as (_ & [G3 _] & _).
  eexists. split; [cbn; rewrite G3, G2, G1, <- !app_assoc; reflexivity|]. by repeat constructor.
Qed.

Lemma emit_good interval c : inv c -> good c (c_count (cf_stats_maybe_emit interval) c).
Proof.
  intros Hi. destruct (stats_emit_log interval (c_sink c)) as (new & E & Hn).
  by eapply (inv_log c _ new).
Qed.

(** After the connection is known to be good. *)
Lemma turn_tail_good c : inv c -> c_ctx c = true ->
  safe (c ← reclaim_all unpack transform cfg c; c ← maybe_flush cfg c;
        let '(stop, c) := c_call AskStop c in
        if (stop : bool) then Ret (false, c)
        else
          '(_, c) ← read_new unpack transform cfg (block_ms cfg) c;
          c ← maybe_flush cfg c;
          c ← maybe_sample_stream_lag cfg c;
          Ret (true, c_count (cf_stats_maybe_emit 10000) c))
    (fun '(_, c') => good c c').
Proof.
  intros Hi Hx. apply safe_bind. eapply safe_mono; [by apply reclaim_all_good|]. intros c2 Hg2.
  assert (inv c2 /\ c_ctx c2 = true) as [Hi2 Hx2]
    by (split; [by eapply good_inv|by eapply steps_ctx, Hx; apply good_steps]).
  apply safe_bind. eapply safe_mono; [by apply maybe_flush_good|]. intros c3 Hg3.
  assert (good c c3) as Hg03 by (eapply good_trans; [by apply good_steps|done]).
  destruct (c_call AskStop c3) as [stop c4] eqn:E4.
  pose proof (c_call_good AskStop c3 stop c4 eq_refl (good_inv _ _ Hg3) E4) as Hg4.
  assert (good c c4) as Hg04 by (eapply good_trans; [by apply good_steps|done]).
  destruct stop; [done|].
  assert (inv c4 /\ c_ctx c4 = true) as [Hi4 Hx4]
    by (split; [by eapply good_inv|by eapply steps_ctx, Hx; apply good_steps]).
  apply safe_bind. eapply safe_mono; [by apply read_new_good|]. intros [n c5] Hg5.
  assert (inv c5 /\ c_ctx c5 = true) as [Hi5 Hx5]
    by (split; [by eapply good_inv|by eapply steps_ctx, Hx4; apply good_steps]).
  apply safe_bind. eapply safe_mono; [by apply maybe_flush_good|]. intros c6 Hg6.
  apply safe_bind. eapply safe_mono; [apply sample_lag_good; by eapply good_inv|]. intros c7 Hg7.
  cbn [safe]. do 4 (eapply good_trans; [apply good_steps; eassumption|]).
  apply emit_good. by eapply good_inv.
Qed.

Lemma forever_step_good rounds c : inv c -> c_ctx c = true -> c_stdout c = false ->
  safe (forever_step unpack transform cfg rounds c) (turn_result c).
Proof.
  intros Hi Hx Hso. unfold forever_step. destruct (c_call AskStop c) as [stop c1] eqn:E1.
  pose proof (c_call_good AskStop c stop c1 eq_refl Hi E1) as Hg1.
  pose proof (good_steps _ _ Hg1) as S1.
  destruct stop; [split; [by apply good_kept|left; by eapply steps_ctx]|].
  destruct (connection_dead c1) as [dead c2] eqn:E2.
  apply connection_dead_good in E2 as [Hg2 Hx2]; [|by eapply good_inv].
  assert (good c c2) as Hg02 by (by eapply good_trans). assert (inv c2) as Hi2 by (by eapply good_inv).
  apply safe_bind. eapply (safe_mono _ (fun '(rc, c3) => kept c2 c3 /\ (rc = 0 -> c_ctx c3 = true) /\
    (rc <> 0 -> latched (world (c_sink c3))))).
  - destruct dead; [|split; [by apply kept_refl|]; split; [by intros _; apply Hx2|done]].
    unfold reconnect_redis. destruct (kept_ctx false c2 Hi2) as (Hi3 & Hk).
    eapply safe_mono; [apply reconnect_loop_good; [done|done|lia|done]|].
    intros [rc c3] (Hk3 & ?). split; [|done]. eapply kept_trans; [by apply (kept_ctx false)|done].
  - intros [rc c3] (Hk3 & H1 & H2). assert (inv c3) as Hi3 by apply Hk3.
    assert (kept c c3) as Hk by (eapply kept_trans; [by apply good_kept|done]).
    destruct (rc =? 0) eqn:Erc; cbn [negb].
    + assert (c_ctx c3 = true) as Hx3 by (apply H1; lia).
      eapply safe_mono; [by apply turn_tail_good|]. intros [go c4] Hg4.
      split; [eapply kept_trans; [exact Hk|by apply good_kept]|].
      assert (c_ctx c4 = true) by (by eapply steps_ctx, Hx3; apply good_steps).
      by destruct go; [|left].
    + split; [done|]. right. destruct Hk as (_ & _ & ->). split; [done|apply H2; lia].
Qed.

Lemma forever_loop_good turns rounds : forall c, inv c -> c_ctx c = true -> c_stdout c = false ->
  safe (forever_loop unpack transform cfg turns rounds c) (fun c' => kept c c' /\ may_flush c').
Proof.
  induction turns as [|turns IH]; intros c Hi Hx Hso; [done|]. cbn [forever_loop].
  apply safe_bind. eapply safe_mono; [by apply forever_step_good|].
  intros [go c1] [Hk Hgo]. destruct go; [|by split]. pose proof Hk as (Hi1 & _ & Hso1).
  eapply safe_mono; [apply IH; [done|done|congruence]|]. intros c2 [Hk2 Hm]. split; [|done].
  by eapply kept_trans.
Qed.

(** Reading the clock and logging the counters. *)
Definition housekeeping (e : event) : Prop :=
  match e with EMono _ | ELogStats _ => True | _ => False end.

Lemma housekeeping_not_ack new : Forall housekeeping new -> Forall not_ack new.
Proof. intros Hk. eapply list.Forall_impl; [exact Hk|]. by intros []. Qed.

Lemma cf_stats_emit_log (s : sink W) : exists new,
  log (cf_stats_emit s) = log s ++ new /\ Forall housekeeping new.
Proof.
  unfold cf_stats_emit. destruct (call (AskLogStats _) s) as [u s2] eqn:E2.
  apply call_eq in E2 as (_ & [G2 _] & _).
  destruct (call AskMono s2) as [now2 s3] eqn:E3. apply call_eq in E3 as (_ & [G3 _] & _).
  eexists. split; [cbn; rewrite G3, G2, <- !app_assoc; reflexivity|]. by repeat constructor.
Qed.

Lemma run_forever_good turns rounds c : inv c -> c_ctx c = true -> c_stdout c = false ->
  safe (cf_consumer_run_forever unpack transform cfg turns rounds c) (fun '(rc, c') =>
    kept c c' /\ (rc = 0 -> c_batch c' = [])).
Proof.
  intros Hi Hx Hso. unfold cf_consumer_run_forever, cf_consumer_ensure_groups. apply safe_bind.
  eapply safe_mono; [by apply ensure_groups_good|]. intros [rc c1] Hg.
  pose proof (good_steps _ _ Hg) as S1. assert (inv c1) as Hi1 by (by eapply good_inv).
  destruct (rc =? 0) eqn:Erc; cbn [negb]; [|split; [by apply good_kept|done]].
  apply safe_bind. eapply safe_mono.
  { apply forever_loop_good; [done|by eapply steps_ctx|by destruct S1 as (_ & _ & ->)]. }
  intros c2 [Hk2 Hm2]. apply safe_bind.
  eapply safe_mono; [apply flush_batch_good; [by apply Hk2|done]|]. intros c3 (Hg3 & Eb & _).
  destruct (cf_stats_emit_log (c_sink c3)) as (new & E & Hn).
  assert (good c3 (c_count cf_stats_emit c3)) as Hg4
    by (apply (inv_log c3 _ new); [by eapply good_inv|done|by apply housekeeping_not_ack|done]).
  split; [|done]. eapply kept_trans; [by apply good_kept|]. eapply kept_trans; [exact Hk2|].
  eapply kept_trans; by apply good_kept.
Qed.

(** ** A new consumer *)

Lemma replicate_none n : Forall (fun _ => True) (replicate n (@None (list Z))).
Proof. by apply Forall_true. Qed.

(** The cursors filled so far. *)
Definition filled (n : nat) (l : list (option (list Z))) : Prop :=
  length l = length (streams cfg) /\
  forall i, (i < length (streams cfg) - n)%nat -> exists cur, l !! i = Some (Some cur).

Lemma dup_cursors_ok n : forall c, (n <= length (streams cfg))%nat ->
  filled n (c_cursors c) ->
  exists c' new, dup_cursors cfg n c = (0, c') /\ filled 0 (c_cursors c') /\
    log (c_sink c') = log (c_sink c) ++ new /\ Forall not_ack new /\
    c_heap c' = c_heap c /\ c_batch c' = c_batch c /\ c_batch_cap c' = c_batch_cap c /\
    c_ctx c' = c_ctx c /\ c_stdout c' = c_stdout c.
Proof.
  induction n as [|n IH]; intros c Hn Hf; cbn [dup_cursors].
  { exists c, []. rewrite app_nil_r. auto 10. }
  destruct (c_call (AskMalloc at_cursor) c) as [ok c1] eqn:E1.
  apply c_call_eq in E1 as (Ea & El & Eh & Eb & Ec & Ecur & Ectx & Est).
  pose proof (copies (world (c_sink c)) at_cursor) as Hok. rewrite Ea in Hok. cbn in Hok.
  rewrite Hok by tauto. destruct Hf as [Hlen Hf].
  edestruct (IH (set_cursors (<[(length (streams cfg) - S n)%nat := Some (bs "0-0")]> (c_cursors c1)) c1))
    as (c2 & new & E2 & Hf2 & El2 & Hn2 & F); [lia| |].
  - cbn [c_cursors set_cursors]. rewrite Ecur. split; [by rewrite length_insert|]. intros i Hi.
    destruct (decide (i = length (streams cfg) - S n)%nat) as [->|Hne].
    + exists (bs "0-0"). apply list_lookup_insert_eq. lia.
    + rewrite list_lookup_insert_ne by done. apply Hf. lia.
  - exists c2, (EMalloc at_cursor ok :: new). split; [done|]. split; [done|].
    split; [rewrite El2; cbn; by rewrite El, <- app_assoc|]. split; [by constructor|].
    cbn in F. destruct F as (? & ? & ? & ? & ?). repeat split; congruence.
Qed.

(** [cf_consumer_init] on a fresh connection: the invariant, unless it
    failed. *)
Lemma init_good h (s : sink W) : acks_ok (log s) -> heap_room h < ADDRESS_SPACE ->
  let '(rc, c) := cf_consumer_init cfg h s in
  rc = 0 -> inv c /\ c_ctx c = true /\ c_stdout c = false /\ log s `prefix_of` log (c_sink c).
Proof.
  intros Ha Hr. unfold cf_consumer_init. destruct (call AskMono s) as [now s1] eqn:E1.
  apply call_eq in E1 as (_ & [G1 _] & _). set (c0 := {| c_sink := s1 |}).
  destruct (c_call (AskMalloc at_cursors) c0) as [ok c1] eqn:E2.
  apply c_call_eq in E2 as (_ & El & Eh & Eb & Ec & _ & Ectx & Est).
  destruct ok; [|done].
  destruct (dup_cursors_ok (length (streams cfg)) (set_cursors (replicate (length (streams cfg)) None) c1))
    as (c2 & new & E & [Hlen Hf] & El2 & Hn & Eh2 & Eb2 & Ec2 & Ectx2 & Est2); [done| |].
  { split; [cbn; by rewrite length_replicate|]. intros i Hi. lia. }
  rewrite E. intros _. cbn in *.
  assert (log (c_sink c2) = log s ++ EMono now :: EMalloc at_cursors true :: new) as Elog.
  { rewrite El2, El, G1. by rewrite <- !app_assoc. }
  split; [|split; [congruence|split; [congruence|by eexists]]].
  constructor; rewrite ?Eh2, ?Eb2, ?Ec2, ?Eh, ?Eb, ?Ec; cbn; try done.
  - rewrite Elog. apply acks_ok_app; [done|]. by repeat constructor.
  - apply NoDup_nil_2.
  - split; [done|]. apply Forall_lookup. intros i oc Ei.
    pose proof (lookup_lt_Some _ _ _ Ei). destruct (Hf i) as [cur E']; [lia|].
    rewrite E' in Ei. injection Ei as <-. by eexists.
Qed.

(** ** A flush while a stop is pending *)

(** [c'] follows [c] by calls that send nothing. *)
Definition silent c c' : Prop := exists new, log (c_sink c') = log (c_sink c) ++ new /\
  Forall private new /\ Forall no_post new.

Lemma silent_refl c : silent c c.
Proof. exists []. by rewrite app_nil_r. Qed.
Lemma silent_trans c1 c2 c3 : silent c1 c2 -> silent c2 c3 -> silent c1 c3.
Proof.
  intros (n1 & E1 & P1 & N1) (n2 & E2 & P2 & N2). exists (n1 ++ n2).
  rewrite E2, E1, app_assoc, !Forall_app. auto.
Qed.

Lemma c_call_silent {A} (q : ask A) c a c' : private (note q a) -> no_post (note q a) ->
  c_call q c = (a, c') -> silent c c'.
Proof.
  intros Hp Hn (_ & El & _)%c_call_eq. exists [note q a]. split; [done|]. by repeat constructor.
Qed.

(** Nothing is settled when no flag is set. *)
Lemma settle_loop_untouched f its : forall i c,
  (forall k, (i <= k < i + length its)%nat -> entry f (Z.of_nat k) = untouched) ->
  settle_loop cfg its i f c = Ret c.
Proof.
  induction its as [|it its IH]; intros i c Hu; cbn [settle_loop]; [done|].
  pose proof (Hu i ltac:(cbn; lia)) as E. unfold entry, untouched in E. rewrite !Nat2Z.id in E.
  injection E as E1 E2 E3. rewrite (rd_Some _ _ _ E1), (rd_Some _ _ _ E2). xbind.
  apply IH. intros k Hk. apply Hu. cbn. lia.
Qed.

Lemma deliver_latched_silent c : inv c -> latched (world (c_sink c)) ->
  safe (deliver_and_settle c) (fun c' => silent c c' /\ inv c').
Proof.
  intros Hi Hlat. pose proof (deliver_good c Hi (or_intror Hlat)) as Hgood.
  cut (safe (deliver_and_settle c) (silent c)).
  { intros Hs. destruct (deliver_and_settle c) as [c'| |]; [|done|done]. split; [done|].
    destruct Hgood as [Hg _]. by eapply good_inv. }
  clear Hgood. unfold deliver_and_settle. pose proof Hi as [_ Hit Hn Hr _ _ _].
  assert (Forall (fun it => is_Some (c_heap c !! b_line it)) (c_batch c)) as Hlive.
  { eapply list.Forall_impl; [exact Hit|]. intros it. apply pending_line. }
  rewrite batch_items_eq by done. apply safe_bind, safe_ret.
  set (items := map (item_at (c_heap c)) (c_batch c)).
  assert (zlen items = zlen (c_batch c)) as Hlen by (unfold items; by rewrite length_map).
  apply safe_bind. eapply safe_mono.
  { apply send_batch_ok; [rewrite Hlen; apply fresh_flags_len|].
    pose proof (room_items (c_batch c) (c_heap c) Hn Hlive) as Hle. fold items in Hle.
    unfold ADDRESS_SPACE in Hr. lia. }
  intros [f s] (new & El & Lf & Hfate & Hpriv & Hnp). apply Hnp in Hlat as [_ Hnone].
  rewrite settle_loop_untouched; [cbn [safe]; by exists new|].
  intros k Hk. pose proof (Hfate (Z.of_nat k) ltac:(lia)) as Hf.
  rewrite Forall_forall in Hnone.
  destruct Hf as [(? & ? & ? & ? & _ & _ & _ & Hin & _)|err (? & ? & Hin & _)|_]; [| |done];
    by apply list_elem_of_In, Hnone in Hin.
Qed.

(** One call of a latched consumer that sends nothing. *)
Definition idle c c' : Prop := silent c c' /\ inv c' /\ latched (world (c_sink c')) /\
  c_batch c' = c_batch c /\ c_stdout c' = c_stdout c.

Lemma c_call_idle {A} (q : ask A) c0 c a c' : no_command q = true ->
  private (note q a) -> no_post (note q a) -> idle c0 c -> c_call q c = (a, c') -> idle c0 c'.
Proof.
  intros Hq Hp Hn (Hs & Hi & Hl & Eb & Est) E.
  pose proof (c_call_silent q c a c' Hp Hn E) as Hs'. pose proof (c_call_good q c a c' Hq Hi E) as Hg.
  apply c_call_eq in E as (Ea & _ & (_ & Eb' & _ & _ & _ & Est')).
  split; [by eapply silent_trans|]. split; [by eapply good_inv|].
  split; [apply (latched_answer q) in Hl; by rewrite Ea in Hl|]. split; congruence.
Qed.

Lemma flush_hec_latched c0 c : idle c0 c -> safe (flush_hec cfg c) (fun c' => silent c0 c' /\ inv c').
Proof.
  intros Hc. unfold flush_hec.
  destruct (c_call (AskMalloc at_flush_items) c) as [ok1 c1] eqn:E1.
  apply (c_call_idle _ c0) in E1; [|done..].
  destruct (c_call (AskMalloc at_flush_delivered) c1) as [ok2 c2] eqn:E2.
  apply (c_call_idle _ c0) in E2; [|done..].
  destruct (c_call (AskMalloc at_flush_poison) c2) as [ok3 c3] eqn:E3.
  apply (c_call_idle _ c0) in E3; [|done..].
  destruct (c_call (AskMalloc at_flush_errs) c3) as [ok4 c4] eqn:E4.
  apply (c_call_idle _ c0) in E4; [|done..]. destruct E4 as (Hs & Hi & Hl & Eb & _).
  destruct (negb _); [done|].
  replace (length (c_batch c)) with (length (c_batch c4))
    by (rewrite Eb; by destruct Hc as (_ & _ & _ & -> & _)).
  fold (deliver_and_settle c4). eapply safe_mono; [by apply deliver_latched_silent|].
  intros c5 [Hs5 Hi5]. split; [by eapply silent_trans|done].
Qed.

Lemma flush_batch_latched c : inv c -> c_stdout c = false -> latched (world (c_sink c)) ->
  safe (flush_batch cfg c) (fun c' => silent c c' /\ c_batch c' = []).
Proof.
  intros Hi Hso Hl. unfold flush_batch. destruct (c_call AskMono c) as [now c1] eqn:E1.
  apply (c_call_idle _ c) in E1; [|done..|split; [apply silent_refl|done]].
  destruct E1 as (Hs1 & Hi1 & Hl1 & Eb1 & Est1).
  set (c2 := set_times now (c_last_lag c1) c1).
  assert (idle c c2) as Hid.
  { split; [exact Hs1|]. split; [by eapply good_inv, set_times_good|done]. }
  destruct (c_batch c2) as [|it its] eqn:Eb; [by split|]. clear Eb.
  change (c_stdout c2) with (c_stdout c1). rewrite Est1, Hso.
  apply safe_bind. eapply safe_mono; [by apply (flush_hec_latched c)|].
  intros c3 [Hs3 Hi3]. unfold batch_clear. pose proof Hi3 as [_ Hit Hn _ _ _ _].
  destruct (free_lines_ok (c_batch c3) c3 Hn) as (h & E & _).
  { eapply list.Forall_impl; [exact Hit|]. intros it'. apply pending_line. }
  rewrite E. apply safe_bind, safe_ret. by split.
Qed.
End Spec.
