(* ===== verification/SinkProperties.v ===== *)
(** * SinkProperties: the properties of the sink consumer

    Whole runs of the consumer against any delivery client, its shutdown, its
    flush, the accumulator it gives the transform, and endpoint parsing. *)

From stdpp Require Import gmap.
From S2P Require Import Prelude Endpoint Hiredis SinkWorld HttpDeliver SinkConsumer SinkConsumerSpec.

(** ** The accumulator *)

Section Buffer.
Context {W : Type} `{World W}.

(** The block of [cap] bytes holds [len] bytes and a NUL. *)
Definition buf_ok (b : cf_sink_buf_t) : Prop :=
  match sb_data b with
  | None => sb_len b = 0 /\ sb_cap b = 0
  | Some d => zlen d = sb_cap b /\ 0 <= sb_len b < sb_cap b /\ sb_cap b <= PTRDIFF_MAX /\
      slice d (sb_len b) 1 = [0]
  end.
Definition buf_bytes (b : cf_sink_buf_t) : list Z := slice (default [] (sb_data b)) 0 (sb_len b).

Lemma grow_cap_ok fuel : forall newcap need, 0 < newcap < 2 ^ 64 -> need <= 2 ^ 63 ->
  need <= newcap * 2 ^ (Z.of_nat fuel - 1) -> (0 < fuel)%nat ->
  exists r, grow_cap fuel newcap need = Some r /\ need <= r /\ newcap <= r.
Proof.
  induction fuel as [|fuel IH]; intros newcap need Hn Hneed Hf Hpos; [lia|]. cbn [grow_cap].
  destruct (newcap <? need) eqn:E; [|exists newcap; split; [done|lia]].
  rewrite u64_id by lia. destruct fuel as [|fuel].
  { change (2 ^ (Z.of_nat 1 - 1)) with 1 in Hf. lia. }
  destruct (IH (newcap * 2) need) as (r & Er & H1 & H2); [lia|lia| |lia|exists r; split; [done|lia]].
  replace (Z.of_nat (S (S fuel)) - 1) with (Z.succ (Z.of_nat (S fuel) - 1)) in Hf by lia.
  rewrite Z.pow_succ_r in Hf by lia. lia.
Qed.

Lemma buf_len b : buf_ok b -> 0 <= sb_len b /\ 0 <= sb_cap b <= PTRDIFF_MAX /\
  sb_len b <= zlen (default [] (sb_data b)) <= sb_cap b.
Proof.
  unfold buf_ok, PTRDIFF_MAX. destruct (sb_data b) as [d|]; cbn; unfold id; intros; lia.
Qed.

Lemma realloc_spec b cap : buf_ok b -> sb_cap b <= cap ->
  zlen (realloc (sb_data b) cap) = cap /\
  slice (realloc (sb_data b) cap) 0 (sb_len b) = buf_bytes b.
Proof.
  intros Hb Hc. pose proof (buf_len b Hb) as (H1 & H2 & H3). unfold realloc, buf_bytes.
  split; [rewrite length_app, length_replicate; lia|]. apply slice_app_l; lia.
Qed.

(** Writing at the end, when there is room. *)
Lemma append_room d len cap src : zlen d = cap -> 0 <= len -> len + zlen src + 1 <= cap ->
  cap <= PTRDIFF_MAX ->
  exists d', (d1 ← wr_n d len src; wr_n d1 (len + zlen src) [0]) = Ret d' /\
    zlen d' = cap /\ slice d' 0 (len + zlen src) = slice d 0 len ++ src /\
    slice d' (len + zlen src) 1 = [0].
Proof.
  intros Hd Hl Hr Hc. rewrite wr_n_ok by lia. xbind.
  assert (zlen (splice d len src) = cap) as Hs by (rewrite length_splice; lia).
  rewrite wr_n_ok by (cbn; lia). eexists. split; [done|].
  split; [rewrite length_splice; cbn; lia|]. split; [|apply slice_splice_same; cbn; lia].
  rewrite slice_splice_other by (cbn; lia).
  unfold slice. change (Z.to_nat 0) with 0%nat. rewrite !drop_0. unfold splice.
  rewrite app_assoc. rewrite take_app_le by (rewrite length_app, length_take; lia).
  apply take_ge. rewrite length_app, length_take. lia.
Qed.

Lemma buf_append_runs b src s : buf_ok b -> sb_len b + zlen src + 1 <= 2 ^ 63 ->
  runs (cf_sink_buf_append b src s) (fun '(rc, b', _) => buf_ok b' /\
    (rc = 0 /\ buf_bytes b' = buf_bytes b ++ src \/ rc = -1 /\ b' = b)).
Proof.
  intros Hb Hn. pose proof (buf_len b Hb) as (Hl & Hc & Hd). unfold cf_sink_buf_append.
  rewrite u64_id by lia.
  assert (forall b1 (s1 : sink W), sb_len b1 = sb_len b ->
    zlen (default [] (sb_data b1)) = sb_cap b1 -> sb_len b + zlen src + 1 <= sb_cap b1 ->
    sb_cap b1 <= PTRDIFF_MAX -> buf_bytes b1 = buf_bytes b ->
    runs (d ← wr_n (default [] (sb_data b1)) (sb_len b1) src;
          d ← wr_n d (sb_len b1 + zlen src) [0];
          Ret (0, {| sb_data := Some d; sb_len := sb_len b1 + zlen src; sb_cap := sb_cap b1 |}, s1))
      (fun '(rc, b', _) => buf_ok b' /\
        (rc = 0 /\ buf_bytes b' = buf_bytes b ++ src \/ rc = -1 /\ b' = b))) as Hwrite.
  { intros b1 s1 El Ed Hroom Hcap Eb. rewrite El.
    destruct (append_room (default [] (sb_data b1)) (sb_len b) (sb_cap b1) src)
      as (d' & E & H1 & H2 & H3); [done|lia|lia|done|].
    destruct (wr_n (default [] (sb_data b1)) (sb_len b) src) as [d1| |]; [|done|done].
    cbn in E |- *. rewrite E. cbn. split; [unfold buf_ok; cbn; unfold PTRDIFF_MAX in *; auto with lia|].
    left. split; [done|]. unfold buf_bytes at 1. cbn. unfold id. rewrite H2. f_equal.
    rewrite <- Eb. unfold buf_bytes. by rewrite El. }
  destruct (sb_cap b <? sb_len b + zlen src + 1) eqn:E.
  - assert (0 < (if sb_cap b =? 0 then 256 else u64 (sb_cap b * 2)) < 2 ^ 64 /\
      sb_cap b <= (if sb_cap b =? 0 then 256 else u64 (sb_cap b * 2))) as [H0 H0'].
    { unfold PTRDIFF_MAX in *. destruct (sb_cap b =? 0) eqn:E0; [lia|]. rewrite u64_id by lia. lia. }
    set (n0 := if sb_cap b =? 0 then 256 else u64 (sb_cap b * 2)) in *.
    destruct (grow_cap_ok 65 n0 (sb_len b + zlen src + 1)) as (newcap & Eg & H1 & H2); [done|done| |lia|].
    { change (2 ^ (Z.of_nat 65 - 1)) with (2 ^ 64). lia. }
    rewrite Eg. destruct (call (AskMalloc at_sink_buf) s) as [ok s1].
    destruct (ok && (newcap <=? PTRDIFF_MAX)) eqn:Eok; xbind; cbn [negb].
    + destruct (realloc_spec b newcap Hb) as [Hz Hby]; [lia|].
      apply Hwrite; cbn; unfold id; (done || lia || exact Hz || exact Hby).
    + split; [done|by right].
  - xbind. cbn [negb]. apply Hwrite; try done; [|lia|lia].
    unfold buf_ok in Hb. destruct (sb_data b) as [d|]; cbn; unfold id; lia.
Qed.
End Buffer.

(** ** Endpoints *)

Lemma s32_id z : - 2 ^ 31 <= z < 2 ^ 31 -> s32 z = z.
Proof. intros Hz. unfold s32. rewrite Z.mod_small by lia. lia. Qed.

Lemma port_roundtrip port : 0 < port <= 65535 ->
  atoi (dec port) = port /\ Forall (fun b => b <> 58) (dec port).
Proof.
  intros Hp. unfold atoi. rewrite strtol_dec by lia. split; [apply s32_id; lia|].
  apply dec_no_colon. lia.
Qed.

(** ** How a run ends *)

Section Ends.
Context {W : Type} `{World W} {Ev : Type} (unpack : list Z -> W -> option Ev * W)
  (transform : option (Ev -> list Z -> W -> Z * option (list Z) * W))
  `{Delivery W} (cfg : cf_sink_config_t).
Implicit Types (c : cf_consumer_t W).




End Ends.

(** ** Properties *)

Section Properties.
Context {W : Type} `{World W} {Ev : Type} (unpack : list Z -> W -> option Ev * W)
  (transform : option (Ev -> list Z -> W -> Z * option (list Z) * W))
  `{Delivery W} (cfg : cf_sink_config_t) `{!DeliveryLaws W}.
Implicit Types (c : cf_consumer_t W).

(** The allocations that copy an entry's names, payload and cursor succeed. *)
Definition copies_ok : Prop := forall (w : W) where_,
  In where_ [at_batch_stream; at_batch_id; at_batch_payload; at_cursor] ->
  fst (answer (AskMalloc where_) w) = true.

(** The stop flag is never cleared. *)
Definition stop_latches : Prop := forall w : W,
  fst (answer AskStop w) = true -> latched (snd (answer AskStop w)).

Abbreviation consumer_inv := (inv unpack transform cfg).
Abbreviation acks_backed := (acks_ok unpack transform cfg).

Lemma acks_nil : acks_backed [].
Proof. intros [|? ?] ? ? ? ?; done. Qed.

Lemma started h (s : sink W) : copies_ok -> log s = [] -> heap_room h < ADDRESS_SPACE ->
  fst (cf_consumer_init cfg h s) = 0 ->
  let c := snd (cf_consumer_init cfg h s) in consumer_inv c /\ c_ctx c = true /\ c_stdout c = false.
Proof.
  intros Hc Hl Hr Hrc. pose proof (init_good unpack transform cfg Hc h s) as Hi.
  destruct (cf_consumer_init cfg h s) as [rc c]. cbn in *.
  destruct Hi as (? & ? & ? & _); [by rewrite Hl; apply acks_nil|done|done|done].
Qed.

Lemma inv_mode b c : consumer_inv c -> consumer_inv
  {| c_sink := c_sink c; c_heap := c_heap c; c_ctx := c_ctx c; c_stdout := b;
     c_min_idle_ms := c_min_idle_ms c; c_batch := c_batch c; c_batch_cap := c_batch_cap c;
     c_last_flush := c_last_flush c; c_last_lag := c_last_lag c; c_cursors := c_cursors c |}.
Proof. intros []. by constructor. Qed.


(** The same for a one-shot run, printing or delivering. *)
Theorem run_once_acks reads mode h (s : sink W) :
  copies_ok -> log s = [] -> heap_room h < ADDRESS_SPACE ->
  fst (cf_consumer_init cfg h s) = 0 ->
  let c := snd (cf_consumer_init cfg h s) in
  safe (cf_consumer_run_once unpack transform cfg reads
          (if mode : bool then cf_consumer_set_stdout c else cf_consumer_set_delivery c))
    (fun '(rc, c') => acks_backed (log (c_sink c')) /\ (rc = 0 -> c_batch c' = [])).
Proof.
  intros Hc Hl Hr Hrc c. destruct (started h s Hc Hl Hr Hrc) as (Hi & Hx & _). fold c in Hi, Hx.
  eapply safe_mono.
  { eapply run_once_good; [exact Hc|done|by destruct mode; [apply (inv_mode true)|apply (inv_mode false)]
      |by destruct mode]. }
  intros [rc c'] [[Hi' _] Hb]. split; [apply Hi'|exact Hb].
Qed.

(** C36. A flush through a delivery client empties the batch, and each entry of
    it is acknowledged, or refused for good with its dead letter not
    confirmed, unless a stop was seen or an allocation failed. *)
Theorem flush_settles c : copies_ok -> consumer_inv c -> c_ctx c = true -> c_stdout c = false ->
  safe (flush_batch cfg c) (fun c' => c_batch c' = [] /\ acks_backed (log (c_sink c')) /\
    Forall (item_flushed cfg c c') (c_batch c)).
Proof.
  intros Hc Hi Hx Hso. eapply safe_mono.
  { eapply flush_batch_good; [exact Hc|done|exact Hi|by left]. }
  intros c' ([Hi' _] & Eb & Hf & _). split; [done|]. split; [apply Hi'|by apply Hf].
Qed.

End Properties.

(** Appending to the accumulator either appends exactly the bytes, growing
    the block as needed, or reports -1 and changes nothing; the bytes stay
    followed by a NUL inside the block. *)
Theorem buf_append_correct {W : Type} `{World W} b src (s : sink W) :
  buf_ok b -> sb_len b + zlen src + 1 <= 2 ^ 63 ->
  runs (cf_sink_buf_append b src s) (fun '(rc, b', _) => buf_ok b' /\
    (rc = 0 /\ buf_bytes b' = buf_bytes b ++ src \/ rc = -1 /\ b' = b)).
Proof. apply buf_append_runs. Qed.

(** An endpoint string is split at its last colon: a host of 1 to 255
    bytes (colons included) and a decimal port come back as they were. *)
Theorem endpoint_roundtrip host port : 0 < zlen host < 256 -> 0 < port <= 65535 ->
  parse_endpoint (host ++ 58 :: dec port) = Some (host, port).
Proof.
  intros Hh Hp. destruct (port_roundtrip port Hp) as [Ha Hc]. unfold parse_endpoint.
  rewrite last_colon_app by done. rewrite bool_decide_eq_false_2 by (intros ->; cbn in Hh; lia).
  replace (256 <=? zlen host) with false by lia. cbv zeta. cbn [orb]. rewrite Ha.
  by replace ((port <=? 0) || (65535 <? port)) with false by lia.
Qed.

(** ** Witnesses

    A Redis server and a stop flag that follow a script: the replies still to
    come, and how many reads of the stop flag answer no. *)

#[export] Instance script_world : World (list redisReply * nat) := fun A q w =>
  match q in ask A return A * (list redisReply * nat) with
  | AskStop => match w with (rs, S n) => (false, (rs, n)) | (rs, O) => (true, (rs, O)) end
  | AskMalloc _ => (true, w)
  | AskMono => (0, w)
  | AskPost _ => ((200, []), w)
  | AskSleep _ => (tt, w)
  | AskSleepNs _ => (tt, w)
  | AskRedis _ => match w with (r :: rs, n) => (Some r, (rs, n)) | ([], n) => (Some REPLY_NIL, ([], n)) end
  | AskConnErr => (false, w)
  | AskConnect _ _ => (true, w)
  | AskPrint _ => (tt, w)
  | AskLogStats _ => (tt, w)
  end.

Definition script_delivery : Delivery (list redisReply * nat) := cf_hec_client_send_batch 1.

Definition script_cfg (batch : Z) : cf_sink_config_t :=
  {| consumer_name := bs "c1"; endpoints := [bs "h:6379"]; streams := [bs "dns"];
     consumer_group := bs "sink"; read_count := 10; block_ms := 5; deadletter_stream := Some (bs "dead");
     batch_size := batch; flush_interval_ms := 1000 |}.

Definition script_fields (payload : string) : option redisReply :=
  Some (REPLY_ARRAY (map (fun s => Some (REPLY_STRING (bs s)))
    ["encoding"; "protobuf"; "schema"; "cloudflow.v1.CloudFlowEvent"; "payload"; payload]%string)).
Definition script_entry (id payload : string) : option redisReply :=
  Some (REPLY_ARRAY [Some (REPLY_STRING (bs id)); script_fields payload]).
Definition script_read (es : list (option redisReply)) : redisReply :=
  REPLY_ARRAY [Some (REPLY_ARRAY [Some (REPLY_STRING (bs "dns")); Some (REPLY_ARRAY es)])].

Definition script_unpack (p : list Z) (w : list redisReply * nat) : option (list Z) * (list redisReply * nat) :=
  (if bool_decide (p = bs "junk") then None else Some p, w).
Definition script_transform :
    option (list Z -> list Z -> list redisReply * nat -> Z * option (list Z) * (list redisReply * nat)) :=
  Some (fun ev _ w => (0, Some (bs "event " ++ ev), w)).

(** One turn: the group is created, nothing is claimed, two entries are read,
    the second of which does not decode. *)
Definition script_replies : list redisReply :=
  [REPLY_STATUS (bs "OK"); REPLY_ARRAY [Some (REPLY_STRING (bs "0-0")); Some (REPLY_ARRAY [])];
   script_read [script_entry "1-1" "one"; script_entry "1-2" "junk"];
   REPLY_STRING (bs "9-1"); REPLY_INTEGER 1; REPLY_INTEGER 1].
Definition script_sink (stops : nat) : sink (list redisReply * nat) :=
  {| world := (script_replies, stops); log := []; stats := {| counter := fun _ => 0; last_emit_mono_ns := 0 |} |}.

Lemma script_copies : @copies_ok (list redisReply * nat) script_world.
Proof. done. Qed.

Lemma script_latches : @stop_latches (list redisReply * nat) script_world.
Proof.
  intros [rs [|n]]; [|done]. intros _. exists (fun w => snd w = 0%nat). split; [done|]. split.
  - intros A q [rs' m] E. cbn in E. subst m. destruct q; try done. by destruct rs'.
  - intros [rs' m] E. cbn in E. by subst m.
Qed.

(** The consumer of the script, before its run. *)
Definition script_start (batch : Z) (stops : nat) : cf_consumer_t (list redisReply * nat) :=
  snd (cf_consumer_init (script_cfg batch) ∅ (script_sink stops)).


Lemma run_once_acks_witness :
  safe (@cf_consumer_run_once _ script_world _ script_unpack script_transform script_delivery
          (script_cfg 1) 5 (cf_consumer_set_stdout (script_start 1 3)))
    (fun '(rc, c') => acks_ok script_unpack script_transform (script_cfg 1) (log (c_sink c')) /\
      (rc = 0 -> c_batch c' = [])).
Proof.
  apply (@run_once_acks _ script_world _ script_unpack script_transform script_delivery
    (script_cfg 1) (http_delivery_laws 1) 5 true ∅ (script_sink 3));
    [exact script_copies|done|vm_compute; done|vm_compute; done].
Defined.

(** The posts and the commands of a run, in order. *)
Definition traffic (l : list event) : list (list (list Z)) :=
  omap (fun e => match e with
                 | ERedis argv _ => Some argv
                 | EPost body status _ => Some [bs "POST"; body; dec status]
                 | EPrint line => Some [bs "PRINT"; line]
                 | _ => None
                 end) l.

(** The first entry is acknowledged after its post, the second after its dead
    letter. *)
Example script_traffic :
  match @cf_consumer_run_forever _ script_world _ script_unpack script_transform script_delivery
      (script_cfg 1) 5 5 (cf_consumer_set_delivery (script_start 1 3)) with
  | Ret (_, c) => drop 3 (traffic (log (c_sink c)))
  | _ => []
  end =
  [deadletter_argv (bs "dead") REASON_DECODE_ERROR (bs "dns") (bs "1-2") (bs "protobuf parse error") (bs "junk");
   map bs ["XACK"; "dns"; "sink"; "1-2"]; map bs ["POST"; "event one"; "200"];
   map bs ["XACK"; "dns"; "sink"; "1-1"]]%string.
Proof. vm_compute. reflexivity. Qed.

(** With a larger batch, the entry is still pending when the stop comes. *)
Definition script_pending : cf_consumer_t (list redisReply * nat) :=
  let m :=
    '(_, c) ← @cf_consumer_ensure_groups _ script_world (script_cfg 9) (script_start 9 3);
    @forever_step _ script_world _ script_unpack script_transform script_delivery (script_cfg 9) 5 c in
  match m with
  | Ret (_, c) => c
  | _ => script_start 9 3
  end.

Lemma script_start_inv :
  inv script_unpack script_transform (script_cfg 9) (script_start 9 3) /\
  c_ctx (script_start 9 3) = true /\ c_stdout (script_start 9 3) = false.
Proof.
  apply (@started _ script_world _ script_unpack script_transform (script_cfg 9) ∅ (script_sink 3));
    [exact script_copies|done|vm_compute; done|vm_compute; done].
Qed.

Lemma script_pending_inv :
  inv script_unpack script_transform (script_cfg 9) script_pending /\
  c_ctx script_pending = true /\ c_stdout script_pending = false /\ length (c_batch script_pending) = 1%nat.
Proof.
  destruct script_start_inv as (Hi & Hx & Hso).
  assert (safe ('(_, c) ← @cf_consumer_ensure_groups _ script_world (script_cfg 9) (script_start 9 3);
    @forever_step _ script_world _ script_unpack script_transform script_delivery (script_cfg 9) 5 c)
    (fun '(_, c) => inv script_unpack script_transform (script_cfg 9) c)) as Hg.
  { apply safe_bind. eapply safe_mono.
    { by apply (@ensure_groups_good _ script_world _ script_unpack script_transform). }
    intros [rc c1] (Hi1 & _ & Ex & Es). eapply safe_mono.
    { by apply (@forever_step_good _ script_world _ script_unpack script_transform script_delivery
        (script_cfg 9) script_copies (http_delivery_laws 1) script_latches 5 c1 Hi1); rewrite ?Ex, ?Es. }
    intros [go c2] [Hk _]. apply Hk. }
  split; [|split; [|split; vm_compute; reflexivity]]; [|vm_compute; reflexivity].
  unfold script_pending. cbv zeta. destruct (mbind _ _) as [[go c]| |]; [exact Hg|exact Hi|exact Hi].
Qed.

Lemma flush_settles_witness :
  length (c_batch script_pending) = 1%nat /\
  safe (@flush_batch _ script_world script_delivery (script_cfg 9) script_pending) (fun c' =>
    c_batch c' = [] /\ acks_ok script_unpack script_transform (script_cfg 9) (log (c_sink c')) /\
    Forall (item_flushed (script_cfg 9) script_pending c') (c_batch script_pending)).
Proof.
  destruct script_pending_inv as (Hi & Hx & Hso & Hlen). split; [exact Hlen|].
  exact (@flush_settles _ script_world _ script_unpack script_transform script_delivery (script_cfg 9)
    (http_delivery_laws 1) script_pending script_copies Hi Hx Hso).
Defined.


Lemma buf_append_correct_witness :
  runs (cf_sink_buf_append {| sb_data := None; sb_len := 0; sb_cap := 0 |} (bs "{}") (script_sink 0))
    (fun '(rc, b', _) => buf_ok b' /\
      (rc = 0 /\ buf_bytes b' = bs "{}" \/ rc = -1 /\ b' = {| sb_data := None; sb_len := 0; sb_cap := 0 |})).
Proof.
  apply (buf_append_correct {| sb_data := None; sb_len := 0; sb_cap := 0 |} (bs "{}") (script_sink 0));
    [by split|cbn; lia].
Defined.

Lemma endpoint_roundtrip_witness :
  parse_endpoint (bs "fe80::1" ++ 58 :: dec 6379) = Some (bs "fe80::1", 6379).
Proof. apply endpoint_roundtrip; [cbn; lia|lia]. Defined.

(** ** What goes wrong *)

#[export] Instance site_eq_dec : EqDecision site.
Proof. solve_decision. Defined.

(** The script with one allocation failing. *)
Definition failing_world (bad : site) : World (list redisReply * nat) := fun A q w =>
  match q in ask A return A * (list redisReply * nat) with
  | AskMalloc where_ => (negb (bool_decide (where_ = bad)), w)
  | q => script_world _ q w
  end.

(** A failed [strdup] of the stream name frees the line twice. *)
Example strdup_failure_double_free :
  let W := failing_world at_batch_stream in
  @process_entry _ W _ script_unpack script_transform (script_cfg 9) (bs "dns") (bs "1-1")
    (script_fields "one") (script_start 9 3) = Oob.
Proof. vm_compute. reflexivity. Qed.

(** The connection is lost before the last read of the stop flag, and no
    endpoint answers. *)
Definition lost_world : World (list redisReply * nat) := fun A q w =>
  match q in ask A return A * (list redisReply * nat) with
  | AskConnErr => (bool_decide (snd w = 0%nat), w)
  | AskConnect _ _ => (false, w)
  | q => script_world _ q w
  end.

(** In stdout mode the pending batch is then acknowledged on a [NULL]
    context. *)
Example stdout_shutdown_null_context :
  @cf_consumer_run_forever _ lost_world _ script_unpack script_transform script_delivery (script_cfg 9)
    5 5 (cf_consumer_set_stdout (script_start 9 3)) = Oob.
Proof. vm_compute. reflexivity. Qed.
